(* ===== verification/_CoqProject ===== *)
-Q . S2P
Prelude.v
Bytes.v
BlockIO.v
BlockCache.v
BlockFile.v
Bitmap.v
Layout.v
InodeIndex.v
InodeData.v
LayoutCodec.v
Efs.v
Vfs.v
FsState.v
FsOps.v
FsDir.v
Fs.v
FsFormat.v
FsPack.v
FsImage.v
FsProps.v
FsTyped.v
CacheDriver.v
Address.v
FrameAllocator.v
PageTable.v
PageTableInv.v
PageTableRep.v
UserMem.v
MemorySet.v
AllocOrder.v
AreaMap.v
AreaCopy.v
AddressSpace.v
ForkSpace.v
ElfSpace.v
KernelSpace.v
MemProps.v
Pid.v
KState.v
Task.v
OsFile.v
Syscall.v
Sched.v
KKeeps.v
KRefine.v
KWait.v
KSteps.v
OsSpec.v
KFork.v
KExec.v
ProcProps.v
VirtQueue.v
VirtQueueInv.v
VirtIOHeader.v
PhysBytes.v
VirtIODma.v
VirtIOBlk.v
VirtIOBlkInv.v
VirtIODisk.v
VirtIOInput.v
VirtIOInputInv.v
VirtProps.v
Boot.v
BootInv.v
BootProps.v
Pll.v
PllInv.v
PacReg.v
PacSysctl.v
Sysctl.v
SysctlInv.v
K210Spi.v
SdCard.v
SdCardInv.v
K210SpiInv.v
SdCardSim.v
SdBoard.v
FsDrivers.v
K210Props.v
BoardProps.v
