(* ===== verification/Prelude.v ===== *)
(** * ch_os: a verification development

    ch_os is a small Unix-like kernel for 64-bit RISC-V in Rust (os), with a file
    system of its own (easy-fs), a tool that builds a disk image on the host
    (easy-fs-fuse), and vendored drivers (dependency).  This library models the
    code shallowly, as functions of Rocq that can be run, and proves what makes
    each part correct.

    ** The program and its model

    The parts call each other from top to bottom:
    - traps and system calls (os/src/trap, os/src/syscall) work on
    - processes (os/src/task) and open files (os/src/fs), which use
    - address spaces and page tables in frames of physical memory
      (os/src/memory), and
    - easy-fs inodes, on bitmaps and on-disk structures, on
    - a write-back cache of blocks (easy-fs/src/block_cache.rs), on
    - a block device: a host file (easy-fs-fuse), the virtio driver of the qemu
      board (dependency/virtio-drivers, os/src/drivers/block/virtio_blk.rs), or
      the SD card driver of the k210 board (os/src/drivers/block/sdcard.rs), which
      drives the SPI controller, the pins and the clocks of that chip
      (dependency/k210-soc, k210-hal, k210-pac).

    Conventions.  A [w]-bit integer is a [Z] with its wrap-around written out
    ([wrap], [+u], [-u], [*u]), as in a release build.  Memory and blocks are
    lists of bytes.  Stateful code is a function of the state monad [M] with
    outcomes [res]: a value, or the reason why the run stopped ([stop]), which
    keeps panics, self-deadlocks and invalid accesses apart.  Code of easy-fs is
    a value of [BlockIO.prog], the steps it makes on the cache, with two
    meanings: [BlockIO.run] on a plain disk and [BlockCache.exec] on the cache.
    An [Arc] is a key into a store of objects, with its references counted where
    the code looks at the count; a [RefCell] borrow is recorded, so a double
    borrow panics in the model as in the code.

    What is not source code here is an argument: the block device
    ([BlockIO.BlockDevice] with [BlockDeviceLaws]), the virtio device
    ([VirtIOBlk.BlkDevice] with [VirtIOBlkInv.BlkDeviceLaws]), the timer and the
    lock bits of the PLLs ([SocEnv] with [SocEnvLaws]), the SPI controller
    ([SsiDevice] with [SsiLaws]), the SD card ([CardDev] with [SdCardLaws]), the
    parser xmas_elf ([ElfFile_new]), the addresses the linker chooses
    ([kernel_symbols]), the addresses of the handlers.  Each class of laws has an
    instance: [BlockFile_laws], [VirtIODisk.disk_laws], [ideal_laws], [ssi_laws]
    and [sim_laws].

    ** Files

    [Prelude], [Bytes]: outcomes, the monad, machine integers, tactics and hint
    databases; views of byte buffers.

    easy-fs:
    - [BlockIO], [BlockCache] (block_cache.rs, block_dev.rs), [BlockFile]
      (BlockFile of easy-fs-fuse);
    - [Bitmap] (bitmap.rs); [Layout] (layout.rs) with [InodeIndex], [InodeData]
      and [LayoutCodec] for its proofs;
    - [Efs] (efs.rs), [Vfs] (vfs.rs, easy_fs_pack of easy-fs-fuse/src/main.rs);
    - [FsState], [FsOps], [FsDir], [Fs]: the invariant of a disk and the contract
      [fs_rep] of the operations; [FsFormat], [FsPack], [FsImage]: formatting,
      packing, booting from the image;
    - [FsTyped]: the operations keep blocks of bytes; [CacheDriver]: the cache on
      a driver that may fail to return ([BlockDriver] with [DriverLaws]), as
      against a device;
    - [FsProps]: the properties.

    Memory (os/src/memory):
    - [Address] (address.rs, config.rs), [FrameAllocator] (frame_allocator.rs);
    - [PageTable] (page_table.rs) with [PageTableInv], [PageTableRep] and
      [UserMem]: a page table stands for a finite map;
    - [MemorySet] (memory_set.rs) with [AreaMap], [AreaCopy], [AddressSpace],
      [ForkSpace], [ElfSpace] and [KernelSpace]: the invariant [ms_inv] of an
      address space, copies, programs and the kernel's own space;
    - [MemProps]: the properties.

    Processes (os/src/task, trap, syscall, fs):
    - [Pid] (pid.rs), [KState] (task control blocks, trap contexts, the kernel's
      state), [Task] (task.rs, manager.rs, processor.rs, mod.rs), [OsFile] (fs),
      [Syscall] (syscall, trap/mod.rs, timer.rs; a step [kstep] of the kernel);
    - [Sched]: an abstract specification of process management with its
      invariant; [KKeeps], [KRefine], [KWait], [KSteps]: every step of the kernel
      refines it;
    - [OsSpec], [KFork], [KExec]: open files, fork and exec from end to end;
    - [ProcProps]: the properties.

    The virtio drivers (dependency/virtio-drivers, os/src/drivers/block):
    - [VirtQueue] (queue.rs) with [VirtQueueInv]; [VirtIOHeader] (header.rs);
      [PhysBytes]: memory byte by byte; [VirtIODma] (hal.rs, VirtQueue::new, the
      functions the kernel supplies); [VirtIOBlk] (blk.rs, virtio_blk.rs) with
      [VirtIOBlkInv]; [VirtIODisk]: a device that meets the laws;
    - [VirtIOInput] (input.rs) with [VirtIOInputInv]: the input driver and the
      abstract queue of events it refines;
    - [VirtProps]: the properties.

    The k210 board (dependency/k210-*, os/src/drivers/block/sdcard.rs):
    - [Pll] (pll_compute.rs) with [PllInv]; [PacReg] (registers and their fields,
      utils.rs), [PacSysctl] (the registers of the system controller); [Sysctl]
      (sysctl.rs, sleep.rs) with [SysctlInv];
    - [K210Spi] (spi.rs, gpiohs.rs, fpioa.rs, the serial line) with [K210SpiInv]:
      the controller is a wire to the card ([SdWire]);
    - [SdCard] (sdcard.rs) with [SdCardInv]; [SdCardSim]: a card that meets the
      laws; [SdBoard]: io_init, init_sdcard;
    - [FsDrivers]: the virtio driver and the SD card driver as instances of
      [DriverLaws];
    - [K210Props], [BoardProps]: the properties.

    Start (os/src/main.rs, os/src/memory/mod.rs): [AllocOrder] (the order in
    which frames are reused), [Boot], [BootInv], and [BootProps] with the
    property.

    ** What the theorems show

    The file system: a program on the cache has the outcome it has on the plain
    disk (a refinement, panics and deadlocks included) and a sync makes it
    durable; bitmaps hand out the lowest free bit and catch double frees; the
    three-level block index of an inode is exact through growth, lookup and
    release; names round trip, up to their limit; create, find, read, write and
    clear meet their contract, and change no other file; a formatted device opens
    as what was formatted, and the packed image gives every program back after
    a restart; what a full data area leads to is stated case by case.

    Memory: frames are handed out once, zeroed, and what is given back is checked
    against the top of the range but not its bottom; a page table refines a finite
    map; user buffers, strings and pointers are read through it byte by byte; a
    forked address space is a copy in frames of its own, and exit and reaping
    return every frame; a program is laid out as its headers say; the kernel's
    space is the identity with the permissions of its sections.

    Processes: every run of the kernel is a run of the abstract scheduler, so
    its invariant holds forever (queue, current process, family tree, zombies,
    identifiers, borrows); scheduling is round robin; fork, exec, exit and waitpid
    do what they promise, in every case of theirs; the outcome of a trap is stated
    for each of its causes; descriptors, opening, loading and writing files meet
    their contract.

    The virtio drivers: a virtqueue never confuses descriptors, however requests
    and answers interleave; on a device that follows the specification a request
    returns and transfers exactly its sector; the driver starts ready.  The input
    driver returns the device's events in order, once each, as long as the device
    does not fill a buffer while its event is being taken.

    The k210 board: the search for the factors of a PLL ends for all inputs, with
    factors the hardware allows when the output is faster than the input; setting
    a PLL ends with the frequency it reports, and with the exact change of the
    registers; the walk of the clock tree ends, with a frequency or a panic that is
    characterised; thresholds round trip; the board comes up with its card ready,
    and reports a missing card.  The laws of the card speak of the bytes on the
    wire, which are decoded independently of the driver.

    The whole stack: a program of easy-fs that runs on a plain disk runs on the cache over either
    driver with the same result, and after a sync the device holds the new disk.

    Start: with enough memory and a packed image the kernel reaches its idle loop
    with initproc ready, in a state in which all invariants above hold.

    Some theorems state where the code does not do what it means to: block
    numbers past the device, 28-byte names, entries of unmapped pages, shifted
    program segments, the exit of initproc, frames that were never allocated, a
    truncated multiplier, a wrong error
    code of the SD card driver, input events that are overwritten.

    ** Bounds and fuel

    Loops that are not structural have fuel.  Where the code determines a bound
    the model computes it (the pages of a range, the blocks of a file, the length
    of a chain, the number of processes), and the theorems show that it is
    reached.  Where it does not, fuel is an argument and the theorems say what is
    enough: [read_all] needs one piece per 512 bytes, [translated_str] the length
    of the string, polling a device the number of steps the device takes
    ([env_polls], [ssi_polls]; [enough] in the theorems about a stack of drivers,
    whose runs do not change with more fuel, [M_le]).  The depth of the walk of the
    clock tree is [tree_depth].
    Theorems about the whole kernel hold for every fuel.  Numbers of processes are
    bounded by the identifiers (2^64), kernel stacks by the address space (2^24
    of them).

    ** What is not modelled

    Assembly (entry.asm, trap.S, switch.S): a suspended control flow is a value
    that says where it goes on.  The registers satp, stvec and sie and the TLB.
    The heap allocator and kernel messages.  Interleavings other than those of
    one processor that is not interrupted in the kernel, which is how the
    kernel runs.  The other virtio drivers (network, console, graphics), the
    DMA controller of the k210 and the SPI operations that use it, and the
    peripherals of its crates that the kernel does not call.  The kernel's start
    follows the qemu board; on the k210 the block device only.  User programs: to the kernel they are arbitrary sequences of
    traps and stores. *)

From stdpp Require Import base gmap list numbers sorting.

#[global] Open Scope Z_scope.
#[global] Unset Program Cases.

(** ** Outcomes

    A run of a piece of the program either returns or stops.  The ways the
    program stops are kept apart because the theorems tell them apart. *)

(** Why a run did not return:
    - [Panicked]: a Rust panic ([panic!], a failed [assert!], [unwrap] of
      [None], an index out of range);
    - [Deadlocked]: the single thread spins on a lock it already holds;
    - [Faulted]: an access through a raw pointer that no memory backs;
    - [Undefined]: a step outside what the language or the device defines;
    - [OutOfFuel]: a loop of the model ran out of its fuel. *)
Inductive stop : Type :=
| Panicked
| Deadlocked
| Faulted
| Undefined
| OutOfFuel.

#[export] Instance stop_eq_dec : EqDecision stop.
Proof. solve_decision. Defined.

Inductive res (A : Type) : Type :=
| Ok (a : A)
| Stop (s : stop).
Arguments Ok {A} a.
Arguments Stop {A} s.

#[export] Instance res_ret : MRet res := λ A a, Ok a.
#[export] Instance res_bind : MBind res := λ A B f m,
  match m with Ok a => f a | Stop s => Stop s end.

Definition unwrap_res {A} (o : option A) : res A :=
  match o with Some a => Ok a | None => Stop Panicked end.

Definition assert_res (b : bool) : res () := if b then Ok () else Stop Panicked.

Definition is_ok {A} (r : res A) : bool :=
  match r with Ok _ => true | Stop _ => false end.

Lemma res_bind_Ok {A B} (f : A → res B) (m : res A) b :
  m ≫= f = Ok b ↔ ∃ a, m = Ok a ∧ f a = Ok b.
Proof. destruct m; unfold mbind; simpl; naive_solver. Qed.

(** ** The state and error monad

    Stateful code is explicit state passing: [M S A] takes a state of type
    [S] and either stops or returns a value and the next state. *)
Definition M (S A : Type) : Type := S → res (A * S).

#[export] Instance M_ret S : MRet (M S) := λ A a s, Ok (a, s).
#[export] Instance M_bind S : MBind (M S) := λ A B f m s,
  match m s with Ok (a, s') => f a s' | Stop e => Stop e end.

Section state_monad.
Context {S : Type}.

Definition get_st : M S S := λ s, Ok (s, s).
Definition put_st (s : S) : M S () := λ _, Ok ((), s).
Definition gets {A} (f : S → A) : M S A := λ s, Ok (f s, s).
Definition modify_st (f : S → S) : M S () := λ s, Ok ((), f s).
Definition halt {A} (e : stop) : M S A := λ _, Stop e.
Definition lift_res {A} (r : res A) : M S A := λ s,
  match r with Ok a => Ok (a, s) | Stop e => Stop e end.
Definition unwrap {A} (o : option A) : M S A := lift_res (unwrap_res o).
Definition assertM (b : bool) : M S () := lift_res (assert_res b).

(** [for x in l { f(x) }]. *)
Fixpoint for_each {A} (l : list A) (f : A → M S ()) : M S () :=
  match l with
  | [] => mret ()
  | x :: l => f x ≫= λ _, for_each l f
  end.

Lemma M_bind_Ok {A B} (m : M S A) (f : A → M S B) s b s'' :
  (m ≫= f) s = Ok (b, s'') ↔ ∃ a s', m s = Ok (a, s') ∧ f a s' = Ok (b, s'').
Proof.
  unfold mbind, M_bind. destruct (m s) as [[a s']|e] eqn:E; naive_solver.
Qed.

Lemma M_bind_run {A B} (m : M S A) (f : A → M S B) s a s' :
  m s = Ok (a, s') → (m ≫= f) s = f a s'.
Proof. intros H. unfold mbind, M_bind. by rewrite H. Qed.

Lemma M_bind_stop {A B} (m : M S A) (f : A → M S B) s e :
  m s = Stop e → (m ≫= f) s = Stop e.
Proof. intros H. unfold mbind, M_bind. by rewrite H. Qed.

Lemma M_ret_bind {A B} (a : A) (f : A → M S B) s : (mret a ≫= f) s = f a s.
Proof. done. Qed.

Lemma M_unwrap_bind {A B} (a : A) (f : A → M S B) s : (unwrap (Some a) ≫= f) s = f a s.
Proof. done. Qed.

Lemma M_unwrap_none {A B} (f : A → M S B) s : (unwrap None ≫= f) s = Stop Panicked.
Proof. done. Qed.

Lemma M_assert_bind {B} b (f : () → M S B) s : b = true → (assertM b ≫= f) s = f () s.
Proof. by intros ->. Qed.

Lemma M_assert_fail {B} b (f : () → M S B) s : b = false → (assertM b ≫= f) s = Stop Panicked.
Proof. by intros ->. Qed.

Lemma M_bind_assoc {A B C} (m : M S A) (f : A → M S B) (g : B → M S C) s :
  ((m ≫= f) ≫= g) s = (m ≫= λ a, f a ≫= g) s.
Proof. unfold mbind, M_bind. by destruct (m s) as [[??]|?]. Qed.

Lemma M_bind_ext {A B} (m : M S A) (f g : A → M S B) s :
  (∀ a s', f a s' = g a s') → (m ≫= f) s = (m ≫= g) s.
Proof. intros H. unfold mbind, M_bind. by destruct (m s) as [[??]|?]. Qed.

Lemma M_bind_eq {A B} (m m' : M S A) (f : A → M S B) s : m s = m' s → (m ≫= f) s = (m' ≫= f) s.
Proof. intros H. unfold mbind, M_bind. by rewrite H. Qed.

Lemma M_res_bind {A B} (a : A) (f : A → M S B) s : (lift_res (Ok a) ≫= f) s = f a s.
Proof. done. Qed.

Lemma for_each_app {A} (l1 l2 : list A) (f : A → M S ()) s :
  for_each (l1 ++ l2) f s = (for_each l1 f ≫= λ _, for_each l2 f) s.
Proof.
  revert s. induction l1 as [|x l1 IH]; intros s; [done|].
  simpl. unfold mbind, M_bind in *. destruct (f x s) as [[u s']|e]; [|done].
  apply IH.
Qed.
End state_monad.

(** [run H] runs the first statement of a block, whose outcome is [H]. *)
Ltac run H := rewrite (M_bind_run _ _ _ _ _ H).

(** [M_le m m']: where [m] returns, [m'] returns the same.  A loop with more fuel
    is above one with less. *)
Definition M_le {S A} (m m' : M S A) : Prop := ∀ s a s', m s = Ok (a, s') → m' s = Ok (a, s').

#[export] Instance M_le_preorder S A : PreOrder (@M_le S A).
Proof. split; [by intros m s a s'|]. intros m1 m2 m3 H1 H2 s a s' H. by apply H2, H1. Qed.

Create HintDb fuel.

Lemma M_le_refl {S A} (m : M S A) : M_le m m.
Proof. reflexivity. Qed.

Lemma M_le_bind {S A B} (m m' : M S A) (f f' : A → M S B) :
  M_le m m' → (∀ a, M_le (f a) (f' a)) → M_le (m ≫= f) (m' ≫= f').
Proof.
  intros Hm Hf s b s'. rewrite !M_bind_Ok. intros (a & s1 & H1 & H2).
  exists a, s1. split; [by apply Hm|by apply Hf].
Qed.

Lemma M_le_halt {S A} e (m : M S A) : M_le (halt e) m.
Proof. done. Qed.

#[export] Hint Resolve M_le_refl M_le_bind M_le_halt : fuel.
#[export] Hint Extern 2 (M_le (if ?b then _ else _) _) => destruct b : fuel.

(** ** Machine integers

    A [w]-bit unsigned integer is a [Z] in [0, 2^w).  The build is a release
    build (os/Makefile: MODE := release), so arithmetic wraps around. *)
Definition wrap (w z : Z) : Z := z mod 2 ^ w.

Definition in_u (w z : Z) : Prop := 0 ≤ z < 2 ^ w.

(** usize on riscv64 (and on the host of easy-fs-fuse) has 64 bits. *)
Definition uadd (a b : Z) : Z := wrap 64 (a + b).
Definition usub (a b : Z) : Z := wrap 64 (a - b).
Definition umul (a b : Z) : Z := wrap 64 (a * b).
Definition ushl (a b : Z) : Z := wrap 64 (Z.shiftl a b).
Definition uadd32 (a b : Z) : Z := wrap 32 (a + b).
Definition usub32 (a b : Z) : Z := wrap 32 (a - b).

Declare Scope mach_scope.
Delimit Scope mach_scope with mach.
Infix "+u" := uadd (at level 50, left associativity) : mach_scope.
Infix "-u" := usub (at level 50, left associativity) : mach_scope.
Infix "*u" := umul (at level 40, left associativity) : mach_scope.
Infix "<<u" := ushl (at level 45, left associativity) : mach_scope.
Infix "+u32" := uadd32 (at level 50, left associativity) : mach_scope.
Infix "-u32" := usub32 (at level 50, left associativity) : mach_scope.
#[global] Open Scope mach_scope.

Lemma wrap_small w z : in_u w z → wrap w z = z.
Proof. intros H. by apply Z.mod_small. Qed.

Lemma wrap_range w z : 0 ≤ w → in_u w (wrap w z).
Proof. intros H. apply Z.mod_pos_bound. lia. Qed.

Lemma uadd_small a b : in_u 64 (a + b) → a +u b = a + b.
Proof. apply wrap_small. Qed.
Lemma usub_small a b : in_u 64 (a - b) → a -u b = a - b.
Proof. apply wrap_small. Qed.
Lemma umul_small a b : in_u 64 (a * b) → a *u b = a * b.
Proof. apply wrap_small. Qed.
Lemma uadd32_small a b : in_u 32 (a + b) → a +u32 b = a + b.
Proof. apply wrap_small. Qed.
Lemma usub32_small a b : in_u 32 (a - b) → a -u32 b = a - b.
Proof. apply wrap_small. Qed.

(** Powers of two the arithmetic tactics need as numerals. *)
Lemma pow2_64 : 2 ^ 64 = 18446744073709551616.
Proof. reflexivity. Qed.
Lemma pow2_32 : 2 ^ 32 = 4294967296.
Proof. reflexivity. Qed.

(** [mach]: decides linear goals about in-range machine arithmetic, after
    replacing each wrapping operation whose operands do not overflow. *)
Ltac mach_unfold := unfold in_u in *; rewrite ?pow2_64, ?pow2_32 in *.
Ltac mach_step :=
  match goal with
  | |- context [?a +u ?b] => rewrite (uadd_small a b) by (mach_unfold; lia)
  | |- context [?a -u ?b] => rewrite (usub_small a b) by (mach_unfold; lia)
  | |- context [?a *u ?b] => rewrite (umul_small a b) by (mach_unfold; lia)
  | |- context [?a +u32 ?b] => rewrite (uadd32_small a b) by (mach_unfold; lia)
  | |- context [?a -u32 ?b] => rewrite (usub32_small a b) by (mach_unfold; lia)
  end.
Ltac mach_simpl := repeat mach_step.
Ltac mach := mach_simpl; mach_unfold; lia.

(** ** Bits of machine integers *)
Lemma land_ones_mod a n : 0 ≤ n → Z.land a (2 ^ n - 1) = a mod 2 ^ n.
Proof.
  intros H. rewrite <- Z.land_ones by done. f_equal.
  rewrite Z.ones_equiv. lia.
Qed.

Lemma testbit_high a n i : 0 ≤ a < 2 ^ n → 0 ≤ n ≤ i → Z.testbit a i = false.
Proof.
  intros Ha Hn. rewrite <- (Z.mod_small a (2 ^ n)) by done.
  by apply Z.mod_pow2_bits_high.
Qed.

(** A shifted value and a value below the shift add up without carries. *)
Lemma shiftl_lor_add a b n :
  0 ≤ n → 0 ≤ b < 2 ^ n → Z.lor (Z.shiftl a n) b = a * 2 ^ n + b.
Proof.
  intros Hn Hb. rewrite <- Z.shiftl_mul_pow2 by done. symmetry.
  apply Z.add_nocarry_lor. apply Z.bits_inj'. intros i Hi.
  rewrite Z.land_spec, Z.bits_0.
  destruct (decide (i < n)) as [Hlt|Hge].
  - rewrite Z.shiftl_spec_low by done. done.
  - rewrite (testbit_high b n i) by lia. apply andb_false_r.
Qed.

(** ** Lists *)

(** [find] of the Rust iterators: the index of the first element that
    satisfies the test, as [iter().enumerate().find(..)] returns it. *)
Fixpoint find_index {A} (f : A → bool) (l : list A) : option nat :=
  match l with
  | [] => None
  | x :: l => if f x then Some O else S <$> find_index f l
  end.

Lemma find_index_Some {A} (f : A → bool) l i :
  find_index f l = Some i ↔
  ∃ x, l !! i = Some x ∧ f x = true ∧
       ∀ j y, (j < i)%nat → l !! j = Some y → f y = false.
Proof.
  revert i. induction l as [|x l IH]; intros i; simpl.
  { split; [done|]. intros (x & H & _). by rewrite lookup_nil in H. }
  destruct (f x) eqn:E.
  - split.
    + intros [= <-]. exists x. split_and!; [done..|]. intros; lia.
    + intros (y & Hy & Hf & Hlt). destruct i as [|i]; [done|].
      specialize (Hlt O x ltac:(lia) eq_refl). congruence.
  - rewrite fmap_Some. split.
    + intros (j & Hj%IH & ->). destruct Hj as (y & Hy & Hf & Hlt).
      exists y. split_and!; [done..|]. intros [|k] z Hk Hz; simpl in *.
      * congruence.
      * apply (Hlt k); [lia|done].
    + intros (y & Hy & Hf & Hlt). destruct i as [|i]; simpl in *; [congruence|].
      exists i. split; [|done]. apply IH. exists y. split_and!; [done..|].
      intros j z Hj Hz. apply (Hlt (S j)); [lia|done].
Qed.

Lemma find_index_None {A} (f : A → bool) l :
  find_index f l = None ↔ ∀ x, x ∈ l → f x = false.
Proof.
  induction l as [|x l IH]; simpl; [set_solver|].
  destruct (f x) eqn:E.
  - split; [done|]. intros H. specialize (H x). rewrite H in E; set_solver.
  - rewrite fmap_None, IH. set_solver.
Qed.

Lemma lookup_S_cons {A} (x : A) l i : (x :: l) !! S i = l !! i.
Proof. reflexivity. Qed.

Lemma elem_of_concat {A} (x : A) (ls : list (list A)) : x ∈ concat ls ↔ ∃ l, x ∈ l ∧ l ∈ ls.
Proof.
  rewrite list_elem_of_In, in_concat. setoid_rewrite list_elem_of_In. naive_solver.
Qed.

Lemma NoDup_snoc {A} (x : A) (l : list A) : x ∉ l → NoDup l → NoDup (l ++ [x]).
Proof.
  intros Hx Hl. apply list.NoDup_app. split_and!; [done| |apply NoDup_singleton].
  by intros y Hy ->%list_elem_of_singleton.
Qed.

Lemma lookup_app_cons {A} (l1 l2 : list A) x k i :
  k = (length l1 + S i)%nat → (l1 ++ x :: l2) !! k = l2 !! i.
Proof.
  intros ->. rewrite lookup_app_r by lia.
  by replace (length l1 + S i - length l1)%nat with (S i) by lia.
Qed.

Lemma find_index_lt {A} (f : A → bool) l i :
  find_index f l = Some i → (i < length l)%nat.
Proof.
  intros (x & Hx & _)%find_index_Some. by eapply lookup_lt_Some.
Qed.


(** ** Automation

    [inv_ok] inverts equations between outcomes; [len] decides goals about the
    lengths of lists with the rules of the database [len]. *)
Ltac inv_ok :=
  repeat match goal with
  | H : Ok _ = Ok _ |- _ => injection H as H; try subst
  | H : Stop _ = Ok _ |- _ => discriminate H
  | H : Ok _ = Stop _ |- _ => discriminate H
  | H : (_, _) = (_, _) |- _ => injection H as H; try subst
  | H : Some _ = Some _ |- _ => injection H as H; try subst
  end.

Create HintDb len.
#[export] Hint Rewrite @length_app @length_take @length_drop @length_insert
  @length_replicate @length_cons @length_nil @length_fmap @length_seqZ
  @length_reverse : len.
Ltac len := autorewrite with len in *; simpl in *; lia.

(** [elt]: membership in lists built with [++] and [::]. *)
Ltac elt := rewrite ?elem_of_app, ?elem_of_cons, ?elem_of_app, ?elem_of_cons, ?elem_of_app,
  ?elem_of_cons, ?elem_of_app, ?elem_of_cons in *; tauto.
