(* ===== verification/Bytes.v ===== *)
(** * Bytes: slices of byte buffers and little-endian arrays in them

    The kernel and the file system look at the same raw memory in several
    ways: a 512-byte block is an array of bytes, of u32 block ids or of u64
    bitmap words; a 4096-byte frame is an array of bytes or of u64 page-table
    entries.  This file models those views ([core::slice::from_raw_parts],
    [BlockCache::get_ref], [PhysPageNum::get_pte_array]) on lists of bytes. *)

From stdpp Require Import base gmap list numbers.
From S2P Require Import Prelude.

(** ** Slices *)

(** [&b[off..off+n]]. *)
Definition slice {A} (off n : nat) (b : list A) : list A := take n (drop off b).

(** [b[off..off+x.len()].copy_from_slice(x)], for a destination in range. *)
Definition splice {A} (off : nat) (x b : list A) : list A :=
  take off b ++ x ++ drop (off + length x) b.

Section slices.
Context {A : Type}.
Implicit Types b x : list A.

Lemma length_slice off n b : length (slice off n b) = (n `min` (length b - off))%nat.
Proof. unfold slice. len. Qed.

Lemma length_splice off x b :
  (off + length x ≤ length b)%nat → length (splice off x b) = length b.
Proof. unfold splice. len. Qed.

Lemma lookup_slice off n b i :
  (i < n)%nat → slice off n b !! i = b !! (off + i)%nat.
Proof. intros H. unfold slice. by rewrite lookup_take_lt, lookup_drop. Qed.

Lemma lookup_splice_old off x b i :
  (off + length x ≤ length b)%nat → (i < off ∨ off + length x ≤ i)%nat →
  splice off x b !! i = b !! i.
Proof.
  intros Hl [Hi|Hi]; unfold splice.
  - rewrite lookup_app_l by len. by rewrite lookup_take_lt.
  - rewrite lookup_app_r by len. rewrite lookup_app_r by len.
    rewrite lookup_drop. f_equal. len.
Qed.

Lemma lookup_splice_new off x b i :
  (off + length x ≤ length b)%nat → (off ≤ i < off + length x)%nat →
  splice off x b !! i = x !! (i - off)%nat.
Proof.
  intros Hl Hi; unfold splice.
  rewrite lookup_app_r by len. rewrite lookup_app_l by len. f_equal. len.
Qed.

Lemma slice_splice_eq off x b :
  (off ≤ length b)%nat → slice off (length x) (splice off x b) = x.
Proof.
  intros Hl. unfold slice, splice.
  rewrite drop_app_length' by len. by rewrite take_app_length.
Qed.

Lemma slice_splice_ne off n off' x b :
  (off' + length x ≤ length b)%nat →
  (off + n ≤ off' ∨ off' + length x ≤ off)%nat →
  slice off n (splice off' x b) = slice off n b.
Proof.
  intros Hl Hd. apply list_eq. intros i.
  destruct (decide (i < n)%nat) as [Hi|Hi].
  - rewrite !lookup_slice by done. apply lookup_splice_old; [done|lia].
  - rewrite !lookup_ge_None_2; [done|unfold slice; len..].
Qed.

Lemma splice_splice off x y b :
  length x = length y → (off + length x ≤ length b)%nat →
  splice off y (splice off x b) = splice off y b.
Proof.
  intros Hxy Hl. apply list_eq. intros i.
  destruct (decide (off ≤ i < off + length y)%nat) as [Hi|Hi].
  - rewrite !lookup_splice_new; rewrite ?length_splice by lia; done || lia.
  - rewrite !lookup_splice_old; rewrite ?length_splice by lia; done || lia.
Qed.

Lemma splice_id off b x :
  slice off (length x) b = x → (off + length x ≤ length b)%nat → splice off x b = b.
Proof.
  intros Hx Hl. apply list_eq. intros i.
  destruct (decide (off ≤ i < off + length x)%nat) as [Hi|Hi].
  - rewrite lookup_splice_new by done. rewrite <- Hx at 1.
    rewrite lookup_slice by lia. f_equal. lia.
  - rewrite lookup_splice_old by lia. done.
Qed.

Lemma splice_nil off b : (off ≤ length b)%nat → splice off [] b = b.
Proof. intros H. unfold splice. simpl. rewrite Nat.add_0_r. apply take_drop. Qed.

Lemma splice_insert c v x b :
  (c < length b)%nat → splice (S c) x (<[c := v]> b) = splice c (v :: x) b.
Proof.
  intros Hc. unfold splice. erewrite take_S_r by (by apply list_lookup_insert_eq).
  rewrite take_insert_ge, drop_insert_lt by lia. rewrite <- app_assoc. cbn [app length].
  by replace (c + S (length x))%nat with (S c + length x)%nat by lia.
Qed.

Lemma splice_app r x y b :
  (r + length x + length y ≤ length b)%nat →
  splice (r + length x) y (splice r x b) = splice r (x ++ y) b.
Proof.
  intros Hl. apply list_eq. intros i.
  destruct (decide (i < r ∨ r + length x + length y ≤ i)%nat) as [Ho|Hn].
  { rewrite !lookup_splice_old; rewrite ?length_splice, ?length_app; try lia. done. }
  rewrite (lookup_splice_new r (x ++ y)) by (rewrite length_app; lia).
  destruct (decide (i < r + length x)%nat).
  - rewrite lookup_splice_old, lookup_splice_new, lookup_app_l;
      rewrite ?length_splice; try lia. done.
  - rewrite lookup_splice_new, lookup_app_r; rewrite ?length_splice; try lia. f_equal. lia.
Qed.

Lemma slice_app a k j b : slice a (k + j) b = slice a k b ++ slice (a + k) j b.
Proof. unfold slice. rewrite <- drop_drop. symmetry. apply take_take_drop. Qed.

Lemma slice_all b : slice 0 (length b) b = b.
Proof. unfold slice. rewrite drop_0. by apply take_ge. Qed.

(** ** Concatenations of equally long blocks *)
Section blocks.
Context (w : nat) (bs : list (list A)).
Hypothesis Hbs : Forall (λ b, length b = w) bs.

Lemma length_concat_blocks (l : list (list A)) :
  Forall (λ b, length b = w) l → length (concat l) = (w * length l)%nat.
Proof using Type. induction 1 as [|b l Hb _ IH]; cbn [concat length]; [lia|]. rewrite length_app. lia. Qed.

Lemma concat_split i b :
  bs !! i = Some b → concat bs = concat (take i bs) ++ b ++ concat (drop (S i) bs).
Proof using Type.
  intros Hi. rewrite <- (take_drop_middle bs i b Hi) at 1. by rewrite concat_app.
Qed.

Lemma length_concat_take i b :
  bs !! i = Some b → length (concat (take i bs)) = (w * i)%nat ∧ length b = w.
Proof using Hbs.
  intros Hi. rewrite length_concat_blocks by (by apply Forall_take).
  rewrite length_take. apply lookup_lt_Some in Hi as Hlt. split; [nia|].
  by eapply (Forall_lookup_1 (λ b, length b = w)) in Hi.
Qed.

Lemma concat_slice i b o k :
  bs !! i = Some b → (o + k ≤ w)%nat → slice (w * i + o) k (concat bs) = slice o k b.
Proof using Hbs.
  intros Hi Hk. destruct (length_concat_take i b Hi) as [Hl Hb].
  rewrite (concat_split i b Hi). unfold slice.
  rewrite drop_app_ge, Hl by lia. replace (w * i + o - w * i)%nat with o by lia.
  rewrite drop_app_le, take_app_le; rewrite ?length_drop; lia || done.
Qed.

Lemma concat_splice i b o x :
  bs !! i = Some b → (o + length x ≤ w)%nat →
  splice (w * i + o) x (concat bs) = concat (<[i := splice o x b]> bs).
Proof using Hbs.
  intros Hi Hk. destruct (length_concat_take i b Hi) as [Hl Hb].
  apply lookup_lt_Some in Hi as Hlt.
  rewrite (concat_split i b Hi). rewrite insert_take_drop by done.
  rewrite concat_app. cbn [concat]. unfold splice.
  rewrite take_app_ge, Hl by lia. replace (w * i + o - w * i)%nat with o by lia.
  rewrite drop_app_ge, Hl by lia.
  replace (w * i + o + length x - w * i)%nat with (o + length x)%nat by lia.
  rewrite take_app_le, drop_app_le by lia. by rewrite <- !app_assoc.
Qed.
End blocks.

Lemma drop_splice s off x b :
  (off + length x ≤ s)%nat → (off + length x ≤ length b)%nat → drop s (splice off x b) = drop s b.
Proof.
  intros Hs Hl. apply list_eq. intros i. rewrite !lookup_drop. apply lookup_splice_old; lia.
Qed.

Lemma take_splice_in s off x b :
  (off + length x ≤ s)%nat → (off + length x ≤ length b)%nat →
  take s (splice off x b) = splice off x (take s b).
Proof.
  intros Hs Hl. unfold splice. rewrite take_app_ge by len. rewrite take_app_ge by len.
  rewrite take_take, Nat.min_l by lia. do 2 f_equal.
  rewrite take_drop_commute. f_equal. f_equal. len.
Qed.

Lemma take_splice c x b :
  (c ≤ length b)%nat → take (c + length x) (splice c x b) = take c b ++ x.
Proof.
  intros Hc. unfold splice. rewrite app_assoc. apply take_app_length'. len.
Qed.
End slices.

(** [n] bytes: [c] followed by zeros. *)
Definition pad (n : nat) (c : list Z) : list Z := c ++ replicate (n - length c) 0.

Lemma length_pad n c : (length c ≤ n)%nat → length (pad n c) = n.
Proof. intros H. unfold pad. len. Qed.

Lemma all_zero_replicate (b : list Z) : Forall (λ x, x = 0) b → b = replicate (length b) 0.
Proof. induction 1 as [|x b -> _ IH]; [done|]. cbn [length replicate]. by f_equal. Qed.

(** A prefix of a zero-padded list that reaches beyond the part in use. *)
Lemma take_pad (s s' n : nat) c :
  Forall (λ x, x = 0) (drop s c) → (s ≤ length c ≤ n)%nat → (s ≤ s' ≤ n)%nat →
  take s' (pad n c) = pad s' (take s c).
Proof.
  intros Hz%all_zero_replicate Hc Hs. unfold pad.
  rewrite <- (take_drop s c) at 1. rewrite Hz, <- app_assoc, <- replicate_add.
  rewrite take_app_ge by len. f_equal. rewrite take_replicate. f_equal. len.
Qed.

Lemma drop_pad_zero (s n : nat) c :
  Forall (λ x, x = 0) (drop s c) → Forall (λ x, x = 0) (drop s (pad n c)).
Proof.
  intros Hz. unfold pad. rewrite drop_app. apply Forall_app. split; [done|].
  rewrite drop_replicate. by apply Forall_replicate.
Qed.

Lemma drop_zero_mono (s s' : nat) (c : list Z) :
  (s ≤ s')%nat → Forall (λ x, x = 0) (drop s c) → Forall (λ x, x = 0) (drop s' c).
Proof.
  intros Hs Hz. replace s' with (s + (s' - s))%nat by lia. rewrite <- drop_drop.
  by apply Forall_drop.
Qed.

(** ** Little-endian integers *)
Fixpoint le_bytes (n : nat) (v : Z) : list Z :=
  match n with
  | O => []
  | S n => v mod 256 :: le_bytes n (v / 256)
  end.

Fixpoint le_val (bs : list Z) : Z :=
  match bs with
  | [] => 0
  | b :: bs => b + 256 * le_val bs
  end.

Definition is_byte (b : Z) : Prop := 0 ≤ b < 256.

Lemma length_le_bytes n v : length (le_bytes n v) = n.
Proof. revert v. induction n; intros v; simpl; auto. Qed.

Lemma le_bytes_byte n v : Forall is_byte (le_bytes n v).
Proof.
  revert v. induction n as [|n IH]; intros v; simpl; [by constructor|].
  constructor; [|apply IH]. apply Z.mod_pos_bound. lia.
Qed.

Lemma le_val_bytes n v : le_val (le_bytes n v) = v mod 2 ^ (8 * Z.of_nat n).
Proof.
  revert v. induction n as [|n IH]; intros v.
  { simpl. rewrite Z.mod_1_r. done. }
  cbn [le_bytes le_val]. rewrite IH.
  replace (8 * Z.of_nat (S n)) with (8 + 8 * Z.of_nat n) by lia.
  rewrite Z.pow_add_r by lia. change (2 ^ 8) with 256.
  rewrite Z.rem_mul_r by lia. lia.
Qed.

Lemma le_val_bytes_id n v : in_u (8 * Z.of_nat n) v → le_val (le_bytes n v) = v.
Proof. intros H. rewrite le_val_bytes. by apply Z.mod_small. Qed.

Lemma le_val_range bs : Forall is_byte bs → in_u (8 * Z.of_nat (length bs)) (le_val bs).
Proof.
  unfold in_u, is_byte. induction 1 as [|b bs Hb _ IH]; cbn [le_val length]; [done|].
  replace (8 * Z.of_nat (S (length bs))) with (8 + 8 * Z.of_nat (length bs)) by lia.
  rewrite Z.pow_add_r by lia. change (2 ^ 8) with 256. lia.
Qed.

Lemma le_bytes_val bs : Forall is_byte bs → le_bytes (length bs) (le_val bs) = bs.
Proof.
  unfold is_byte. induction 1 as [|b bs Hb _ IH]; [done|].
  cbn [le_val length le_bytes].
  replace (b + 256 * le_val bs) with (b + le_val bs * 256) by lia.
  rewrite Z.mod_add, Z.div_add, Z.mod_small, Z.div_small by lia.
  by rewrite Z.add_0_l, IH.
Qed.

Lemma le_val_zeros n : le_val (replicate n 0) = 0.
Proof. induction n as [|n IH]; cbn [replicate le_val]; lia. Qed.

(** ** Arrays of [w]-byte integers in a buffer *)
Definition arr_get (w : nat) (b : list Z) (i : Z) : Z :=
  le_val (slice (w * Z.to_nat i) w b).

Definition arr_set (w : nat) (b : list Z) (i v : Z) : list Z :=
  splice (w * Z.to_nat i) (le_bytes w v) b.

(** Element [i] lies inside the buffer. *)
Definition arr_in (w : nat) (b : list Z) (i : Z) : Prop :=
  0 ≤ i ∧ (w * Z.to_nat i + w ≤ length b)%nat.

(** The whole array, [n] elements. *)
Definition arr_list (w : nat) (n : Z) (b : list Z) : list Z :=
  arr_get w b <$> seqZ 0 n.

Section arrays.
Context (w : nat).
Implicit Types b : list Z.

Lemma length_arr_set b i v : arr_in w b i → length (arr_set w b i v) = length b.
Proof.
  intros [? ?]. unfold arr_set. apply length_splice.
  rewrite length_le_bytes. lia.
Qed.

Lemma arr_get_set_eq b i v :
  arr_in w b i → in_u (8 * Z.of_nat w) v → arr_get w (arr_set w b i v) i = v.
Proof.
  intros [? ?] Hv. unfold arr_get, arr_set.
  rewrite <- (length_le_bytes w v) at 2.
  rewrite slice_splice_eq by lia.
  by apply le_val_bytes_id.
Qed.

Lemma arr_get_set_ne b i j v :
  arr_in w b i → 0 ≤ j → i ≠ j → arr_get w (arr_set w b i v) j = arr_get w b j.
Proof.
  intros [? ?] Hj Hij. unfold arr_get, arr_set. f_equal.
  apply slice_splice_ne; rewrite length_le_bytes; [lia|].
  assert (Z.to_nat i ≠ Z.to_nat j) by lia. nia.
Qed.

Lemma arr_get_range b i :
  arr_in w b i → Forall is_byte b → in_u (8 * Z.of_nat w) (arr_get w b i).
Proof.
  intros [? ?] Hb. unfold arr_get.
  assert (length (slice (w * Z.to_nat i) w b) = w) as Hl
    by (rewrite length_slice; lia).
  rewrite <- Hl at 1. apply le_val_range. by apply Forall_take, Forall_drop.
Qed.

Lemma arr_set_bytes b i v : Forall is_byte b → Forall is_byte (arr_set w b i v).
Proof.
  intros Hb. unfold arr_set, splice. rewrite !Forall_app. split_and!.
  - by apply Forall_take.
  - apply le_bytes_byte.
  - by apply Forall_drop.
Qed.

Lemma arr_get_zeros n i : arr_get w (replicate n 0) i = 0.
Proof.
  unfold arr_get, slice. rewrite drop_replicate, take_replicate. apply le_val_zeros.
Qed.

Lemma arr_in_iff b n i :
  length b = (w * Z.to_nat n)%nat → 0 ≤ i < n → arr_in w b i.
Proof. intros Hl Hi. split; [lia|]. rewrite Hl. nia. Qed.

Lemma length_arr_list n b : length (arr_list w n b) = Z.to_nat n.
Proof. unfold arr_list. len. Qed.

Lemma lookup_arr_list n b (i : nat) :
  Z.of_nat i < n → arr_list w n b !! i = Some (arr_get w b (Z.of_nat i)).
Proof.
  intros Hi. unfold arr_list. rewrite list_lookup_fmap.
  rewrite lookup_seqZ_lt by lia. simpl. f_equal.
Qed.
End arrays.

#[export] Hint Rewrite @length_slice length_le_bytes length_arr_list : len.
#[global] Arguments arr_list : simpl never.
#[global] Arguments arr_get : simpl never.
#[global] Arguments arr_set : simpl never.
#[global] Arguments le_bytes : simpl never.
#[global] Arguments slice : simpl never.
#[global] Arguments splice : simpl never.
