(* ===== verification/BlockIO.v ===== *)
(** * BlockIO: programs over cached disk blocks, and their disk semantics

    Every structure of easy-fs is reached with
    [get_block_cache(id, dev).lock().read(off, f)] or [.modify(off, f)].  Such
    code is a value of the type [prog]: a sequence of the steps that touch the
    global cache (take the cache entry of a block and lock it, write through
    the guard, drop guard and reference, sync everything).  This file gives
    [prog], the accessors [read] and [modify], and the meaning the rest of the
    file system relies on: a run against a plain map from block ids to blocks,
    with the set of locks the thread holds.  [BlockCache] proves that the real
    cache has this meaning. *)

From stdpp Require Import base gmap list numbers.
From S2P Require Import Prelude Bytes.

Definition BLOCK_SZ : Z := 512.
Definition BLOCK_CACHE_SIZE : Z := 16.

(** ** Block devices (the trait [BlockDevice])

    [None] is a panic of the implementation. *)
Class BlockDevice (D : Type) := {
  read_block : D → Z → option (list Z);
  write_block : D → Z → list Z → option D;
}.

(** Block ids of easy-fs are u32 values widened to usize. *)
Definition ok_id (id : Z) : Prop := in_u 32 id.
#[export] Instance ok_id_dec id : Decision (ok_id id).
Proof. unfold ok_id, in_u. apply _. Defined.

(** What easy-fs relies on: a block that can be read can be written, and a
    write changes that block only. *)
Class BlockDeviceLaws (D : Type) `{BlockDevice D} := {
  read_block_length d id b : read_block d id = Some b → length b = Z.to_nat BLOCK_SZ;
  write_block_ok d id b :
    ok_id id → is_Some (read_block d id) → length b = Z.to_nat BLOCK_SZ →
    is_Some (write_block d id b);
  read_write_eq d d' id b :
    ok_id id → length b = Z.to_nat BLOCK_SZ →
    write_block d id b = Some d' → read_block d' id = Some b;
  read_write_ne d d' id id' b :
    ok_id id → ok_id id' → id ≠ id' → length b = Z.to_nat BLOCK_SZ →
    is_Some (read_block d id) →
    write_block d id b = Some d' → read_block d' id' = read_block d id';
}.

(** ** Programs *)
Inductive prog (A : Type) : Type :=
| Ret (a : A)
| Halt (e : stop)
| Lock (id : Z) (k : list Z → prog A)
| Store (id : Z) (off : nat) (v : list Z) (k : prog A)
| Unlock (id : Z) (k : prog A)
| SyncAll (k : prog A).
Arguments Ret {A} a.
Arguments Halt {A} e.
Arguments Lock {A} id k.
Arguments Store {A} id off v k.
Arguments Unlock {A} id k.
Arguments SyncAll {A} k.

Fixpoint pbind {A B} (f : A → prog B) (p : prog A) : prog B :=
  match p with
  | Ret a => f a
  | Halt e => Halt e
  | Lock id k => Lock id (λ b, pbind f (k b))
  | Store id off v k => Store id off v (pbind f k)
  | Unlock id k => Unlock id (pbind f k)
  | SyncAll k => SyncAll (pbind f k)
  end.

#[export] Instance prog_ret : MRet prog := @Ret.
#[export] Instance prog_bind : MBind prog := @pbind.

Definition passert (b : bool) : prog () := if b then Ret () else Halt Panicked.
Definition punwrap {A} (o : option A) : prog A :=
  match o with Some a => Ret a | None => Halt Panicked end.
Definition plift {A} (r : res A) : prog A :=
  match r with Ok a => Ret a | Stop e => Halt e end.

(** [BlockCache::get_ref]'s and [get_mut]'s [assert!], and the bounds check of
    [&self.cache[offset]] in [addr_of_offset]. *)
Definition in_block (off size : Z) : bool :=
  (off + size <=? BLOCK_SZ) && (off <? BLOCK_SZ).

(** [get_block_cache(id, dev).lock().read(off, f)]: [f] sees the [size] bytes
    of the type it is instantiated at. *)
Definition read {A} (id off size : Z) (f : list Z → prog A) : prog A :=
  Lock id (λ b,
    if in_block off size then
      f (slice (Z.to_nat off) (Z.to_nat size) b) ≫= λ a, Unlock id (Ret a)
    else Halt Panicked).

(** [get_block_cache(id, dev).lock().modify(off, f)]: [f] returns its result
    and the bytes it leaves behind. *)
Definition modify {A} (id off size : Z) (f : list Z → prog (A * list Z)) : prog A :=
  Lock id (λ b,
    if in_block off size then
      f (slice (Z.to_nat off) (Z.to_nat size) b) ≫= λ '(a, v),
      Store id (Z.to_nat off) v (Unlock id (Ret a))
    else Halt Panicked).

Definition block_cache_sync_all : prog () := SyncAll (Ret ()).

(** [for x in l { s = f(x, s) }], with an accumulator. *)
Fixpoint pfold {A S} (l : list A) (f : A → S → prog S) (s : S) : prog S :=
  match l with
  | [] => Ret s
  | x :: l => f x s ≫= λ s, pfold l f s
  end.

(** ** Disk semantics *)

(** A store that fits the block. *)
Definition store_fits (off : nat) (v b : list Z) : bool :=
  bool_decide (off + length v ≤ length b)%nat.

(** [run p held d]: the thread holds the locks [held]; the disk as the
    program sees it is [d].
    - Locking a block the thread holds spins for ever.
    - With [BLOCK_CACHE_SIZE] blocks held no entry can be evicted, and
      [get_block_cache] panics.
    - A block the device cannot read is a panic.
    - [block_cache_sync_all] locks every cached block. *)
Fixpoint run {A} (p : prog A) (held : list Z) (d : gmap Z (list Z)) :
    res (A * list Z * gmap Z (list Z)) :=
  match p with
  | Ret a => Ok (a, held, d)
  | Halt e => Stop e
  | Lock id k =>
      if bool_decide (ok_id id) then
        if bool_decide (id ∈ held) then Stop Deadlocked
        else if BLOCK_CACHE_SIZE <=? Z.of_nat (length held) then Stop Panicked
        else match d !! id with
             | Some b => run (k b) (id :: held) d
             | None => Stop Panicked
             end
      else Stop Undefined
  | Store id off v k =>
      match d !! id with
      | Some b =>
          if bool_decide (id ∈ held) && store_fits off v b
          then run k held (<[id := splice off v b]> d)
          else Stop Undefined
      | None => Stop Undefined
      end
  | Unlock id k =>
      if bool_decide (id ∈ held)
      then run k (filter (λ i, i ≠ id) held) d
      else Stop Undefined
  | SyncAll k =>
      match held with [] => run k held d | _ => Stop Deadlocked end
  end.

(** ** Reasoning about runs

    [runs p h d a d']: started with the locks [h] on the disk [d], [p] returns
    [a], leaves the disk [d'], and holds the same locks as before. *)
Definition runs {A} (p : prog A) (h : list Z) (d : gmap Z (list Z)) (a : A)
    (d' : gmap Z (list Z)) : Prop :=
  run p h d = Ok (a, h, d').

Lemma run_bind {A B} (p : prog A) (f : A → prog B) h d :
  run (p ≫= f) h d =
  match run p h d with
  | Ok (a, h', d') => run (f a) h' d'
  | Stop e => Stop e
  end.
Proof.
  unfold mbind, prog_bind. revert h d.
  induction p as [a|e|id k IH|id off v k IH|id k IH|k IH]; intros h d; simpl; try done.
  - repeat case_bool_decide; try done. destruct (_ <=? _); [done|].
    destruct (d !! id); [|done]. apply IH.
  - destruct (d !! id); [|done]. destruct (_ && _); [apply IH|done].
  - case_bool_decide; [apply IH|done].
  - destruct h; [apply IH|done].
Qed.

Lemma runs_ret {A} (a : A) h d : runs (Ret a) h d a d.
Proof. done. Qed.

Lemma runs_mret {A} (a : A) h d : runs (mret a) h d a d.
Proof. done. Qed.

Lemma runs_bind {A B} (p : prog A) (f : A → prog B) h d a d1 b d2 :
  runs p h d a d1 → runs (f a) h d1 b d2 → runs (p ≫= f) h d b d2.
Proof. unfold runs. intros H1 H2. by rewrite run_bind, H1. Qed.

Lemma run_bind_stop {A B} (p : prog A) (f : A → prog B) h d e :
  run p h d = Stop e → run (p ≫= f) h d = Stop e.
Proof. intros H. by rewrite run_bind, H. Qed.

Lemma run_bind_runs {A B} (p : prog A) (f : A → prog B) h d a d1 :
  runs p h d a d1 → run (p ≫= f) h d = run (f a) h d1.
Proof. unfold runs. intros H. by rewrite run_bind, H. Qed.

Lemma runs_passert b h d : b = true → runs (passert b) h d () d.
Proof. by intros ->. Qed.

(** A block [id] the thread may lock. *)
Definition lockable (id : Z) (h : list Z) : Prop :=
  ok_id id ∧ id ∉ h ∧ Z.of_nat (length h) < BLOCK_CACHE_SIZE.

#[export] Instance lockable_dec id h : Decision (lockable id h).
Proof. unfold lockable. apply _. Defined.

Lemma filter_held (id : Z) h : id ∉ h → filter (λ i, i ≠ id) (id :: h) = h.
Proof.
  intros Hid. rewrite filter_cons_False by naive_solver.
  induction h as [|x h IH]; [done|].
  rewrite filter_cons_True by set_solver. f_equal. set_solver.
Qed.

Lemma run_lock {A} id (k : list Z → prog A) h d b :
  lockable id h → d !! id = Some b → run (Lock id k) h d = run (k b) (id :: h) d.
Proof.
  intros (Hok & Hin & Hlen) Hb. simpl.
  rewrite !bool_decide_eq_true_2 by done.
  rewrite bool_decide_eq_false_2 by done.
  destruct (Z.leb_spec BLOCK_CACHE_SIZE (Z.of_nat (length h))); [lia|].
  by rewrite Hb.
Qed.

Lemma run_unlock {A} id (k : prog A) h d :
  id ∉ h → run (Unlock id k) (id :: h) d = run k h d.
Proof.
  intros Hid. cbn [run]. rewrite bool_decide_eq_true_2 by set_solver.
  by rewrite filter_held.
Qed.

Lemma run_store {A} id off v (k : prog A) h d b :
  d !! id = Some b → (off + length v ≤ length b)%nat →
  run (Store id off v k) (id :: h) d = run k (id :: h) (<[id := splice off v b]> d).
Proof.
  intros Hb Hl. cbn [run]. rewrite Hb.
  rewrite bool_decide_eq_true_2 by set_solver.
  unfold store_fits. by rewrite bool_decide_eq_true_2.
Qed.

Lemma runs_read {A} id off size (f : list Z → prog A) h d b a d' :
  lockable id h → d !! id = Some b → in_block off size = true →
  runs (f (slice (Z.to_nat off) (Z.to_nat size) b)) (id :: h) d a d' →
  runs (read id off size f) h d a d'.
Proof.
  intros Hlk Hb Hin Hf. unfold runs, read.
  rewrite (run_lock _ _ _ _ b) by done. rewrite Hin.
  rewrite (run_bind_runs _ _ _ _ _ _ Hf). rewrite run_unlock by apply Hlk. done.
Qed.

Lemma runs_modify {A} id off size (f : list Z → prog (A * list Z)) h d b a v d' b' :
  lockable id h → d !! id = Some b → in_block off size = true →
  runs (f (slice (Z.to_nat off) (Z.to_nat size) b)) (id :: h) d (a, v) d' →
  d' !! id = Some b' → (Z.to_nat off + length v ≤ length b')%nat →
  runs (modify id off size f) h d a (<[id := splice (Z.to_nat off) v b']> d').
Proof.
  intros Hlk Hb Hin Hf Hb' Hl. unfold runs, modify.
  rewrite (run_lock _ _ _ _ b) by done. rewrite Hin.
  rewrite (run_bind_runs _ _ _ _ _ _ Hf). cbn [fst snd].
  rewrite (run_store _ _ _ _ _ _ b') by done.
  rewrite run_unlock by apply Hlk. done.
Qed.

(** [modify] with a closure that touches no other block. *)
Lemma runs_modify_pure {A} id off size (f : list Z → prog (A * list Z)) h d b a v :
  lockable id h → d !! id = Some b → in_block off size = true →
  f (slice (Z.to_nat off) (Z.to_nat size) b) = Ret (a, v) →
  (Z.to_nat off + length v ≤ length b)%nat →
  runs (modify id off size f) h d a (<[id := splice (Z.to_nat off) v b]> d).
Proof.
  intros ? ? ? Hf ?. eapply runs_modify; [done..| |done|done].
  rewrite Hf. apply runs_ret.
Qed.

(** Accesses to a whole block. *)
Lemma slice_whole (b : list Z) :
  length b = Z.to_nat BLOCK_SZ → slice (Z.to_nat 0) (Z.to_nat BLOCK_SZ) b = b.
Proof. intros H. unfold slice. rewrite drop_0. apply take_ge. lia. Qed.

Lemma splice_whole {A} (v b : list A) : length v = length b → splice (Z.to_nat 0) v b = v.
Proof. intros H. unfold splice. simpl. rewrite drop_ge by lia. apply app_nil_r. Qed.

Lemma runs_read_block {A} id (f : list Z → prog A) h d b a d' :
  lockable id h → d !! id = Some b → length b = Z.to_nat BLOCK_SZ →
  runs (f b) (id :: h) d a d' → runs (read id 0 BLOCK_SZ f) h d a d'.
Proof.
  intros Hlk Hb Hl Hf. eapply runs_read; [done..|]. by rewrite slice_whole.
Qed.

Lemma runs_modify_block {A} id (f : list Z → prog (A * list Z)) h d b a v d' b' :
  lockable id h → d !! id = Some b → length b = Z.to_nat BLOCK_SZ →
  runs (f b) (id :: h) d (a, v) d' →
  d' !! id = Some b' → length b' = Z.to_nat BLOCK_SZ → length v = Z.to_nat BLOCK_SZ →
  runs (modify id 0 BLOCK_SZ f) h d a (<[id := v]> d').
Proof.
  intros Hlk Hb Hl Hf Hb' Hl' Hv. rewrite <- (splice_whole v b') by lia.
  eapply runs_modify; [done..| | |]; [by rewrite slice_whole|done|simpl; lia].
Qed.

Lemma runs_modify_block_pure {A} id (f : list Z → prog (A * list Z)) h d b a v :
  lockable id h → d !! id = Some b → length b = Z.to_nat BLOCK_SZ →
  f b = Ret (a, v) → length v = Z.to_nat BLOCK_SZ →
  runs (modify id 0 BLOCK_SZ f) h d a (<[id := v]> d).
Proof.
  intros ? ? ? Hf ?. eapply runs_modify_block; try done. rewrite Hf. apply runs_ret.
Qed.

Lemma runs_sync_all d : runs block_cache_sync_all [] d () d.
Proof. done. Qed.

Lemma run_sync_all_held h d : h ≠ [] → run block_cache_sync_all h d = Stop Deadlocked.
Proof. by destruct h. Qed.

Lemma pfold_app {A S} (l1 l2 : list A) (f : A → S → prog S) s h d :
  run (pfold (l1 ++ l2) f s) h d = run (pfold l1 f s ≫= λ s, pfold l2 f s) h d.
Proof.
  revert s h d. induction l1 as [|x l1 IH]; intros s h d; [done|].
  cbn [app pfold]. rewrite !run_bind.
  destruct (run (f x s) h d) as [[[s' h'] d']|e] eqn:E.
  - rewrite IH, run_bind. done.
  - done.
Qed.
