(* ===== verification/BlockCache.v ===== *)
(** * BlockCache: the global cache of disk blocks (easy-fs/src/block_cache.rs)

    The cache entries with their reference counts and locks, the FIFO-like
    replacement of [BlockCacheManager::get_block_cache], write-back on [Drop]
    and [block_cache_sync_all]; and the proof that running a [prog] on this
    cache gives what [BlockIO.run] says. *)

From stdpp Require Import base gmap list numbers.
From S2P Require Import Prelude Bytes BlockIO.

Record BlockCache : Type := mkBlockCache {
  cache : list Z;
  block_id : Z;
  modified : bool;
}.

(** [Arc<Mutex<BlockCache>>], with the state of the reference count and of
    the lock.  All clones of one [Arc] share the entry, which the queue names
    by its block id. *)
Record CacheArc : Type := mkCacheArc {
  strong_count : nat;
  locked : bool;
  inner : BlockCache;
}.

Definition arc_clone (a : CacheArc) : CacheArc :=
  mkCacheArc (S (strong_count a)) (locked a) (inner a).
Definition arc_drop (a : CacheArc) : CacheArc :=
  mkCacheArc (pred (strong_count a)) (locked a) (inner a).
Definition arc_set_locked (l : bool) (a : CacheArc) : CacheArc :=
  mkCacheArc (strong_count a) l (inner a).

(** [get_mut] marks the entry and hands out a reference to write through. *)
Definition bc_write (off : nat) (v : list Z) (c : BlockCache) : BlockCache :=
  mkBlockCache (splice off v (cache c)) (block_id c) true.
Definition arc_write (off : nat) (v : list Z) (a : CacheArc) : CacheArc :=
  mkCacheArc (strong_count a) (locked a) (bc_write off v (inner a)).

Section block_cache.
Context {D : Type} `{!BlockDevice D}.

(** The device behind the cache and [BLOCK_CACHE_MANAGER.queue]. *)
Record cache_state : Type := mkCacheState {
  device : D;
  queue : list (Z * CacheArc);
}.

Definition BlockCache_new (id : Z) (dev : D) : res BlockCache :=
  match read_block dev id with
  | Some b => Ok (mkBlockCache b id false)
  | None => Stop Panicked
  end.

Definition BlockCache_sync (c : BlockCache) (dev : D) : res (BlockCache * D) :=
  if modified c then
    match write_block dev (block_id c) (cache c) with
    | Some dev' => Ok (mkBlockCache (cache c) (block_id c) false, dev')
    | None => Stop Panicked
    end
  else Ok (c, dev).

(** [impl Drop for BlockCache]. *)
Definition BlockCache_drop (c : BlockCache) (dev : D) : res D :=
  BlockCache_sync c dev ≫= λ '(_, dev'), Ok dev'.

(** Mutation of the entry all references to block [id] share. *)
Definition q_alter (id : Z) (f : CacheArc → CacheArc) (q : list (Z * CacheArc)) :
    list (Z * CacheArc) :=
  (λ p, if p.1 =? id then (p.1, f p.2) else p) <$> q.

(** The eviction part of [get_block_cache]: the first entry with one strong
    reference leaves the queue, and its [Drop] writes it back. *)
Definition evict (s : cache_state) : res cache_state :=
  match find_index (λ p, bool_decide (strong_count p.2 = 1%nat)) (queue s) with
  | Some idx =>
      match queue s !! idx with
      | Some p =>
          BlockCache_drop (inner p.2) (device s) ≫= λ dev',
          Ok (mkCacheState dev' (delete idx (queue s)))
      | None => Stop Panicked
      end
  | None => Stop Panicked
  end.

Definition get_block_cache (id : Z) (s : cache_state) : res cache_state :=
  match find_index (λ p, p.1 =? id) (queue s) with
  | Some _ => Ok (mkCacheState (device s) (q_alter id arc_clone (queue s)))
  | None =>
      (if Z.of_nat (length (queue s)) =? BLOCK_CACHE_SIZE then evict s else Ok s) ≫= λ s1,
      BlockCache_new id (device s1) ≫= λ c,
      Ok (mkCacheState (device s1) (queue s1 ++ [(id, mkCacheArc 2 false c)]))
  end.

(** [.lock()] on the entry of [id]; the guard gives access to its bytes. *)
Definition mutex_lock (id : Z) (s : cache_state) : res (list Z * cache_state) :=
  match find_index (λ p, p.1 =? id) (queue s) ≫= λ i, queue s !! i with
  | Some p =>
      if locked p.2 then Stop Deadlocked
      else Ok (cache (inner p.2),
               mkCacheState (device s) (q_alter id (arc_set_locked true) (queue s)))
  | None => Stop Undefined
  end.

(** The end of the statement: the guard and the [Arc] are dropped. *)
Definition guard_drop (id : Z) (s : cache_state) : cache_state :=
  mkCacheState (device s) (q_alter id (λ a, arc_drop (arc_set_locked false a)) (queue s)).

(** [block_cache_sync_all]: lock and sync each entry in queue order. *)
Fixpoint sync_queue (q : list (Z * CacheArc)) (dev : D) : res (list (Z * CacheArc) * D) :=
  match q with
  | [] => Ok ([], dev)
  | (id, a) :: q =>
      if locked a then Stop Deadlocked else
      BlockCache_sync (inner a) dev ≫= λ '(c, dev1),
      sync_queue q dev1 ≫= λ '(q', dev2),
      Ok ((id, mkCacheArc (strong_count a) (locked a) c) :: q', dev2)
  end.

(** Execution of a program on the cache. *)
Fixpoint exec {A} (p : prog A) (s : cache_state) : res (A * cache_state) :=
  match p with
  | Ret a => Ok (a, s)
  | Halt e => Stop e
  | Lock id k =>
      get_block_cache id s ≫= λ s1, mutex_lock id s1 ≫= λ '(b, s2), exec (k b) s2
  | Store id off v k => exec k (mkCacheState (device s) (q_alter id (arc_write off v) (queue s)))
  | Unlock id k => exec k (guard_drop id s)
  | SyncAll k =>
      sync_queue (queue s) (device s) ≫= λ '(q, dev), exec k (mkCacheState dev q)
  end.

(** ** The invariant of the cache *)

(** An entry of the queue: its bytes are a full block the device knows; it is
    locked exactly when the thread holds it, and then has a second reference;
    an entry that is not marked modified agrees with the device. *)
Record slot_ok (dev : D) (h : list Z) (id : Z) (a : CacheArc) : Prop := {
  slot_id_ok : ok_id id;
  slot_block_id : block_id (inner a) = id;
  slot_length : length (cache (inner a)) = Z.to_nat BLOCK_SZ;
  slot_locked : locked a = true ↔ id ∈ h;
  slot_strong : strong_count a = if locked a then 2%nat else 1%nat;
  slot_on_dev : is_Some (read_block dev id);
  slot_clean : modified (inner a) = false → read_block dev id = Some (cache (inner a));
}.

(** [d] is the disk the programs see: cached blocks first, then the device. *)
Record cache_inv (s : cache_state) (h : list Z) (d : gmap Z (list Z)) : Prop := {
  inv_nodup : NoDup (queue s).*1;
  inv_size : Z.of_nat (length (queue s)) ≤ BLOCK_CACHE_SIZE;
  inv_slots id a : (id, a) ∈ queue s → slot_ok (device s) h id a;
  inv_held_nodup : NoDup h;
  inv_held id : id ∈ h → id ∈ (queue s).*1;
  inv_cached id a : (id, a) ∈ queue s → d !! id = Some (cache (inner a));
  inv_uncached id : ok_id id → id ∉ (queue s).*1 → d !! id = read_block (device s) id;
}.
End block_cache.
Arguments cache_state D : clear implicits.

(** ** Facts about the queue *)
Section queue_facts.
Implicit Types q : list (Z * CacheArc).

Lemma q_alter_ids id f q : (q_alter id f q).*1 = q.*1.
Proof.
  unfold q_alter. induction q as [|[i a] q IH]; [done|].
  rewrite !fmap_cons. f_equal; [|done]. simpl. by destruct (i =? id).
Qed.

Lemma q_alter_length id f q : length (q_alter id f q) = length q.
Proof. apply length_fmap. Qed.

Lemma elem_of_q_alter id f q i a :
  (i, a) ∈ q_alter id f q ↔
  ∃ a0, (i, a0) ∈ q ∧ a = if i =? id then f a0 else a0.
Proof.
  unfold q_alter. rewrite list_elem_of_fmap. split.
  - intros ([j b] & Hp & Hq). simpl in Hp.
    destruct (j =? id) eqn:E; injection Hp as -> ->; exists b; by rewrite E.
  - intros (a0 & Hq & ->). exists (i, a0). simpl. by destruct (i =? id).
Qed.

Lemma elem_of_ids q i : i ∈ q.*1 ↔ ∃ a, (i, a) ∈ q.
Proof.
  rewrite list_elem_of_fmap. split.
  - intros ([j a] & -> & Hq). by exists a.
  - intros [a Ha]. by exists (i, a).
Qed.

Lemma ids_inj q i a b : NoDup q.*1 → (i, a) ∈ q → (i, b) ∈ q → a = b.
Proof.
  induction q as [|[j c] q IH]; intros Hnd Ha Hb; [set_solver|].
  rewrite fmap_cons, list.NoDup_cons in Hnd. destruct Hnd as [Hj Hnd]. simpl in Hj.
  rewrite elem_of_ids in Hj.
  apply elem_of_cons in Ha as [[= -> ->]|Ha]; apply elem_of_cons in Hb as [[= ?]|Hb];
    subst; try done; naive_solver.
Qed.

Lemma find_id_None q id : find_index (λ p, p.1 =? id) q = None ↔ id ∉ q.*1.
Proof.
  rewrite find_index_None, elem_of_ids. split.
  - intros H [a Ha]. specialize (H _ Ha). simpl in H. by rewrite Z.eqb_refl in H.
  - intros H [i a] Hq. simpl. apply Z.eqb_neq. naive_solver.
Qed.

Lemma find_id_Some q id i :
  find_index (λ p, p.1 =? id) q = Some i → ∃ a, q !! i = Some (id, a) ∧ (id, a) ∈ q.
Proof.
  intros ([j a] & Hi & Hf & _)%find_index_Some. simpl in Hf.
  apply Z.eqb_eq in Hf as ->. exists a. split; [done|]. by eapply list_elem_of_lookup_2.
Qed.

Lemma delete_ids q idx : (delete idx q).*1 = delete idx q.*1.
Proof. revert idx. induction q; intros [|idx]; simpl; f_equal; naive_solver. Qed.

Lemma NoDup_delete_list {A} (l : list A) i : NoDup l → NoDup (delete i l).
Proof. intros H. eapply sublist_NoDup; [exact H|apply sublist_delete]. Qed.

Lemma elem_of_delete_ids q idx i a x :
  NoDup q.*1 → q !! idx = Some x →
  (i, a) ∈ delete idx q ↔ (i, a) ∈ q ∧ i ≠ x.1.
Proof.
  intros Hnd Hx. pose proof (delete_Permutation q idx x Hx) as Hp.
  assert (NoDup (x :: delete idx q).*1) as Hnd' by (by rewrite <- Hp).
  rewrite fmap_cons, list.NoDup_cons in Hnd'. destruct Hnd' as [Hn _].
  rewrite Hp at 2. rewrite elem_of_cons. rewrite elem_of_ids in Hn. split.
  - intros Hin. split; [by right|]. intros ->. naive_solver.
  - intros [[<-|Hin] Hne]; [exfalso; by apply Hne|done].
Qed.
End queue_facts.

(** ** The cache implements the disk semantics *)
Section cache_refinement.
Context {D : Type} `{!BlockDevice D} `{!BlockDeviceLaws D}.
Implicit Types (s : cache_state D) (h : list Z) (d : gmap Z (list Z)).

(** Writing an entry back does not change what programs see. *)
Lemma sync_spec dev h c id :
  ok_id id → block_id c = id → length (cache c) = Z.to_nat BLOCK_SZ →
  is_Some (read_block dev id) →
  (modified c = false → read_block dev id = Some (cache c)) →
  ∃ dev', BlockCache_sync c dev = Ok (mkBlockCache (cache c) (block_id c) false, dev') ∧
    read_block dev' id = Some (cache c) ∧
    ∀ id', ok_id id' → id' ≠ id → read_block dev' id' = read_block dev id'.
Proof.
  intros Hok Hid Hlen Hdev Hclean. unfold BlockCache_sync.
  destruct c as [b i m]; simpl in *; subst i. destruct m.
  - destruct (write_block_ok dev id b) as [dev' Hw]; [done..|].
    rewrite Hw. exists dev'. split_and!; [done|by eapply read_write_eq|].
    intros id' Hok' Hne. apply (read_write_ne dev dev' id id' b); done.
  - exists dev. naive_solver.
Qed.

(** [slot_ok] only looks at the device on the slot's own block. *)
Lemma slot_ok_dev dev dev' h id a :
  slot_ok dev h id a → read_block dev' id = read_block dev id → slot_ok dev' h id a.
Proof. intros [] Heq. split; try done; rewrite Heq; done. Qed.

Lemma evict_spec s h d :
  cache_inv s h d → Z.of_nat (length (queue s)) = BLOCK_CACHE_SIZE →
  if decide (Z.of_nat (length h) < BLOCK_CACHE_SIZE) then
    ∃ s', evict s = Ok s' ∧ cache_inv s' h d ∧
      Z.of_nat (length (queue s')) < BLOCK_CACHE_SIZE ∧ (queue s').*1 ⊆ (queue s).*1
  else evict s = Stop Panicked.
Proof.
  intros Hinv Hfull. unfold evict.
  destruct (find_index _ (queue s)) as [idx|] eqn:Hf.
  - apply find_index_Some in Hf as ([id a] & Hidx & Hs & _).
    apply bool_decide_eq_true in Hs. simpl in Hs. rewrite Hidx.
    assert ((id, a) ∈ queue s) as Hin by (by eapply list_elem_of_lookup_2).
    destruct (inv_slots _ _ _ Hinv id a Hin) as [Hok Hbid Hlen Hlk Hst Hdev Hcl].
    assert (id ∉ h) as Hnh.
    { intros Hh. apply Hlk in Hh. rewrite Hh in Hst. lia. }
    destruct decide as [Hlt|Hge].
    2:{ exfalso. apply Hge.
        assert (length (id :: h) ≤ length (queue s).*1)%nat as Hle.
        { apply submseteq_length, NoDup_submseteq.
          - apply list.NoDup_cons. split; [done|apply Hinv].
          - intros x [->|Hx]%elem_of_cons; [apply elem_of_ids; eauto|].
            by apply (inv_held _ _ _ Hinv). }
        simpl in Hle. rewrite length_fmap in Hle. lia. }
    destruct (sync_spec (device s) h (inner a) id) as (dev' & Hsy & Hr & Hne); [done..|].
    unfold BlockCache_drop. simpl. rewrite Hsy. simpl. eexists. split; [done|].
    pose proof (inv_nodup _ _ _ Hinv) as Hnd.
    assert (∀ i b, (i, b) ∈ delete idx (queue s) ↔ (i, b) ∈ queue s ∧ i ≠ id) as Hmem.
    { intros i b. by apply (elem_of_delete_ids _ _ _ _ (id, a)). }
    assert (∀ i, i ∈ (delete idx (queue s)).*1 ↔ i ∈ (queue s).*1 ∧ i ≠ id) as Hids.
    { intros i. rewrite !elem_of_ids. setoid_rewrite Hmem. naive_solver. }
    split; [split; simpl|simpl; split].
    + rewrite delete_ids. by apply NoDup_delete_list.
    + rewrite length_delete by eauto. lia.
    + intros i b [Hq Hi]%Hmem. eapply slot_ok_dev; [by apply (inv_slots _ _ _ Hinv)|].
      apply Hne; [by apply (inv_slots _ _ _ Hinv i b)|done].
    + apply Hinv.
    + intros i Hi. apply Hids. split; [by apply (inv_held _ _ _ Hinv)|]. by intros ->.
    + intros i b [Hq Hi]%Hmem. by apply (inv_cached _ _ _ Hinv).
    + intros i Hiok Hi. destruct (decide (i = id)) as [->|Hid].
      * rewrite Hr. by apply (inv_cached _ _ _ Hinv).
      * rewrite Hne by done. apply (inv_uncached _ _ _ Hinv); [done|].
        intros Hq. by apply Hi, Hids.
    + rewrite length_delete by eauto. pose proof (lookup_lt_Some _ _ _ Hidx). lia.
    + intros i Hi. by apply Hids in Hi as [? ?].
  - rewrite find_index_None in Hf. destruct decide as [Hlt|Hge]; [|done]. exfalso.
    assert (length (queue s).*1 ≤ length h)%nat as Hle.
    { apply submseteq_length, NoDup_submseteq; [apply Hinv|].
      intros i [a Ha]%elem_of_ids. specialize (Hf _ Ha). simpl in Hf.
      apply bool_decide_eq_false in Hf.
      destruct (inv_slots _ _ _ Hinv i a Ha) as [_ _ _ Hlk Hst _ _].
      apply Hlk. destruct (locked a); [done|]. by rewrite Hst in Hf. }
    rewrite length_fmap in Hle. lia.
Qed.

(** The queue after [get_block_cache] and [lock] of an entry that was there. *)
Lemma lock_present s h d id a :
  cache_inv s h d → (id, a) ∈ queue s → id ∉ h →
  cache_inv (mkCacheState (device s)
    (q_alter id (arc_set_locked true) (q_alter id arc_clone (queue s)))) (id :: h) d.
Proof.
  intros Hinv Ha Hh.
  split; simpl; rewrite ?q_alter_ids, ?q_alter_length; try apply Hinv.
  - intros i b (b1 & (b0 & Hb0 & ->)%elem_of_q_alter & ->)%elem_of_q_alter.
    destruct (inv_slots _ _ _ Hinv i b0 Hb0) as [Hok Hbid Hlen Hlk Hst Hdev Hcl].
    destruct (Z.eqb_spec i id) as [->|Hne].
    + assert (locked b0 = false) as Hlf.
      { destruct (locked b0); [|done]. by rewrite <- Hlk in Hh. }
      rewrite Hlf in Hst. split; simpl; try done; [set_solver|by rewrite Hst].
    + split; try done. rewrite Hlk. set_solver.
  - apply list.NoDup_cons. split; [done|apply Hinv].
  - intros i [->|Hi]%elem_of_cons; [apply elem_of_ids; eauto|by apply (inv_held _ _ _ Hinv)].
  - intros i b (b1 & (b0 & Hb0 & ->)%elem_of_q_alter & ->)%elem_of_q_alter.
    rewrite (inv_cached _ _ _ Hinv i b0 Hb0). by destruct (i =? id).
Qed.

(** The queue after a miss: the new entry is at the back, locked. *)
Lemma lock_absent s h d id b :
  cache_inv s h d → ok_id id → id ∉ (queue s).*1 →
  Z.of_nat (length (queue s)) < BLOCK_CACHE_SIZE →
  read_block (device s) id = Some b →
  cache_inv (mkCacheState (device s)
    (queue s ++ [(id, mkCacheArc 2 true (mkBlockCache b id false))])) (id :: h) d.
Proof.
  intros Hinv Hok Hq Hlt Hb.
  assert (id ∉ h) as Hh by (intros Hh; by apply Hq, (inv_held _ _ _ Hinv)).
  split; simpl; rewrite ?fmap_app.
  - apply list.NoDup_app. split_and!; [apply Hinv| |apply NoDup_singleton].
    simpl. set_solver.
  - rewrite length_app. simpl. lia.
  - intros i a [Ha|Ha%list_elem_of_singleton]%elem_of_app.
    + destruct (inv_slots _ _ _ Hinv i a Ha). split; try done.
      rewrite slot_locked0. assert (i ≠ id); [|set_solver].
      intros ->. apply Hq, elem_of_ids. eauto.
    + injection Ha as -> ->. split; simpl; try done;
        first [by eapply read_block_length | set_solver | by rewrite Hb].
  - apply list.NoDup_cons. split; [done|apply Hinv].
  - intros i Hi. apply elem_of_app. simpl.
    apply elem_of_cons in Hi as [->|Hi]; [right; set_solver|left].
    by apply (inv_held _ _ _ Hinv).
  - intros i a [Ha|Ha%list_elem_of_singleton]%elem_of_app.
    + by apply (inv_cached _ _ _ Hinv).
    + injection Ha as -> ->. simpl. by rewrite (inv_uncached _ _ _ Hinv).
  - intros i Hi Hni. apply (inv_uncached _ _ _ Hinv); [done|]. set_solver.
Qed.

(** A miss and the lock on the new entry. *)
Lemma miss_spec s h d id :
  cache_inv s h d → ok_id id → id ∉ (queue s).*1 →
  Z.of_nat (length (queue s)) < BLOCK_CACHE_SIZE →
  (BlockCache_new id (device s) ≫= λ c,
     Ok (mkCacheState (device s) (queue s ++ [(id, mkCacheArc 2 false c)]))) ≫= mutex_lock id =
  match d !! id with
  | Some b => Ok (b, mkCacheState (device s)
      (queue s ++ [(id, mkCacheArc 2 true (mkBlockCache b id false))]))
  | None => Stop Panicked
  end.
Proof.
  intros Hinv Hok Hq Hlt. unfold BlockCache_new.
  rewrite (inv_uncached _ _ _ Hinv id) by done.
  destruct (read_block (device s) id) as [b|]; [|done]. simpl.
  unfold mutex_lock. simpl.
  assert (find_index (λ p, p.1 =? id) (queue s ++ [(id, mkCacheArc 2 false (mkBlockCache b id false))])
    = Some (length (queue s))) as ->.
  { apply find_index_Some. eexists. split_and!.
    - by apply list_lookup_middle.
    - simpl. apply Z.eqb_refl.
    - intros j y Hj Hy. rewrite lookup_app_l in Hy by done.
      apply Z.eqb_neq. intros <-. apply Hq, list_elem_of_fmap. exists y.
      split; [done|]. by eapply list_elem_of_lookup_2. }
  simpl. rewrite list_lookup_middle by done. simpl. do 3 f_equal.
  unfold q_alter. rewrite fmap_app. simpl. rewrite Z.eqb_refl. f_equal.
  rewrite <- (list_fmap_id (queue s)) at 2. apply list_fmap_ext.
  intros j [i a] Hj. simpl. destruct (Z.eqb_spec i id) as [->|]; [|done].
  exfalso. apply Hq, elem_of_ids. exists a. by eapply list_elem_of_lookup_2.
Qed.

(** [get_block_cache(id).lock()] does what [run] says of [Lock]. *)
Lemma lock_step s h d id :
  cache_inv s h d → ok_id id →
  if decide (id ∈ h) then get_block_cache id s ≫= mutex_lock id = Stop Deadlocked
  else if decide (Z.of_nat (length h) < BLOCK_CACHE_SIZE) then
    match d !! id with
    | Some b => ∃ s', get_block_cache id s ≫= mutex_lock id = Ok (b, s') ∧ cache_inv s' (id :: h) d
    | None => get_block_cache id s ≫= mutex_lock id = Stop Panicked
    end
  else get_block_cache id s ≫= mutex_lock id = Stop Panicked.
Proof.
  intros Hinv Hok. unfold get_block_cache.
  destruct (find_index _ (queue s)) as [i|] eqn:Hf.
  - apply find_id_Some in Hf as Hi. destruct Hi as (a & Hi & Ha).
    destruct (inv_slots _ _ _ Hinv id a Ha) as [_ _ _ Hlk _ _ _].
    simpl. unfold mutex_lock. simpl.
    assert (find_index (λ p, p.1 =? id) (q_alter id arc_clone (queue s)) = Some i) as ->.
    { apply find_index_Some in Hf as (x & Hx & Hfx & Hmin).
      apply find_index_Some. rewrite Hi in Hx. injection Hx as <-.
      unfold q_alter. exists (id, arc_clone a). rewrite list_lookup_fmap, Hi. simpl.
      rewrite Z.eqb_refl. split_and!; [done..|].
      intros j y Hj. rewrite list_lookup_fmap, fmap_Some. intros ([k c] & Hk & ->).
      specialize (Hmin j _ Hj Hk). simpl in *. by rewrite Hmin. }
    assert (q_alter id arc_clone (queue s) !! i = Some (id, arc_clone a)) as Hqi.
    { unfold q_alter. rewrite list_lookup_fmap, Hi. simpl. by rewrite Z.eqb_refl. }
    cbn [mbind option_bind]. rewrite Hqi. simpl. destruct decide as [Hh|Hh].
    { apply Hlk in Hh. by rewrite Hh. }
    destruct (locked a) eqn:Hla; [by destruct Hh; apply Hlk|].
    rewrite (inv_cached _ _ _ Hinv id a Ha).
    destruct decide as [Hlt|Hge].
    + eexists. split; [reflexivity|]. by eapply lock_present.
    + exfalso. apply Hge.
      assert (length (id :: h) ≤ length (queue s).*1)%nat as Hle.
      { apply submseteq_length, NoDup_submseteq.
        - apply list.NoDup_cons. split; [done|apply Hinv].
        - intros x [->|Hx]%elem_of_cons; [apply elem_of_ids; eauto|].
          by apply (inv_held _ _ _ Hinv). }
      pose proof (inv_size _ _ _ Hinv). simpl in Hle. rewrite length_fmap in Hle. lia.
  - apply find_id_None in Hf.
    rewrite decide_False by (intros Hh; by apply Hf, (inv_held _ _ _ Hinv)).
    destruct (Z.eqb_spec (Z.of_nat (length (queue s))) BLOCK_CACHE_SIZE) as [Hfull|Hn].
    + pose proof (evict_spec s h d Hinv Hfull) as Hev. destruct decide as [Hlt|Hge].
      * destruct Hev as (s1 & -> & Hinv1 & Hlt1 & Hsub). cbn [mbind res_bind].
        assert (id ∉ (queue s1).*1) as Hf1 by set_solver.
        rewrite (miss_spec s1 h d) by done.
        destruct (d !! id) as [b|] eqn:Hb; [|done]. eexists. split; [done|].
        apply lock_absent; try done. by rewrite <- (inv_uncached _ _ _ Hinv1).
      * by rewrite Hev.
    + assert (Z.of_nat (length (queue s)) < BLOCK_CACHE_SIZE) as Hlt
        by (pose proof (inv_size _ _ _ Hinv); lia).
      cbn [mbind res_bind]. rewrite (miss_spec s h d) by done.
      assert (Z.of_nat (length h) < BLOCK_CACHE_SIZE) as Hlth.
      { assert (length h ≤ length (queue s).*1)%nat as Hle.
        { apply submseteq_length, NoDup_submseteq; [apply Hinv|].
          intros x Hx. by apply (inv_held _ _ _ Hinv). }
        rewrite length_fmap in Hle. lia. }
      rewrite decide_True by done.
      destruct (d !! id) as [b|] eqn:Hb; [|done]. eexists. split; [done|].
      apply lock_absent; try done. by rewrite <- (inv_uncached _ _ _ Hinv).
Qed.

Lemma store_step s h d id off v b :
  cache_inv s h d → d !! id = Some b → id ∈ h → (off + length v ≤ length b)%nat →
  cache_inv (mkCacheState (device s) (q_alter id (arc_write off v) (queue s))) h
    (<[id := splice off v b]> d).
Proof.
  intros Hinv Hb Hh Hl.
  assert (∀ a, (id, a) ∈ queue s → cache (inner a) = b) as Hca.
  { intros a Ha. apply (inv_cached _ _ _ Hinv) in Ha. congruence. }
  split; simpl; rewrite ?q_alter_ids, ?q_alter_length; try apply Hinv.
  - intros i a (a0 & Ha & ->)%elem_of_q_alter.
    destruct (inv_slots _ _ _ Hinv i a0 Ha) as [Hok Hbid Hlen Hlk Hst Hdev Hcl].
    destruct (Z.eqb_spec i id) as [->|Hne]; [|done].
    split; simpl; try done. rewrite length_splice; [done|]. by rewrite (Hca a0).
  - intros i a (a0 & Ha & ->)%elem_of_q_alter.
    destruct (Z.eqb_spec i id) as [->|Hne].
    + rewrite lookup_insert_eq. simpl. by rewrite (Hca a0).
    + rewrite lookup_insert_ne by done. by apply (inv_cached _ _ _ Hinv).
  - intros i Hi Hni. rewrite lookup_insert_ne; [by apply (inv_uncached _ _ _ Hinv)|].
    intros ->. by apply Hni, (inv_held _ _ _ Hinv).
Qed.

Lemma unlock_step s h d id :
  cache_inv s h d → id ∈ h → cache_inv (guard_drop id s) (filter (λ i, i ≠ id) h) d.
Proof.
  intros Hinv Hh. unfold guard_drop.
  split; simpl; rewrite ?q_alter_ids, ?q_alter_length; try apply Hinv.
  - intros i a (a0 & Ha & ->)%elem_of_q_alter.
    destruct (inv_slots _ _ _ Hinv i a0 Ha) as [Hok Hbid Hlen Hlk Hst Hdev Hcl].
    destruct (Z.eqb_spec i id) as [->|Hne].
    + apply Hlk in Hh. rewrite Hh in Hst. split; simpl; try done; [|by rewrite Hst].
      rewrite list_elem_of_filter. naive_solver.
    + split; try done. rewrite Hlk, list_elem_of_filter. naive_solver.
  - apply list.NoDup_filter, Hinv.
  - intros i [_ Hi]%list_elem_of_filter. by apply (inv_held _ _ _ Hinv).
  - intros i a (a0 & Ha & ->)%elem_of_q_alter.
    rewrite (inv_cached _ _ _ Hinv i a0 Ha). by destruct (i =? id).
Qed.

(** The pass of [block_cache_sync_all] over (a suffix of) the queue, for a
    thread that holds no lock. *)
Lemma sync_queue_spec (q : list (Z * CacheArc)) (dev : D) :
  NoDup q.*1 → (∀ id a, (id, a) ∈ q → slot_ok dev [] id a) →
  ∃ q' dev', sync_queue q dev = Ok (q', dev') ∧ q'.*1 = q.*1 ∧
    (∀ id a', (id, a') ∈ q' → ∃ a, (id, a) ∈ q ∧ cache (inner a') = cache (inner a) ∧
       slot_ok dev' [] id a' ∧ read_block dev' id = Some (cache (inner a'))) ∧
    (∀ id, ok_id id → id ∉ q.*1 → read_block dev' id = read_block dev id).
Proof.
  revert dev. induction q as [|[id a] q IH]; intros dev Hnd Hok.
  { exists [], dev. split_and!; try done. intros id a'. set_solver. }
  rewrite fmap_cons, list.NoDup_cons in Hnd. destruct Hnd as [Hid Hnd]. cbn [fst] in Hid.
  destruct (Hok id a) as [Hi Hbid Hlen Hlk Hst Hdev Hcl]; [set_solver|].
  assert (locked a = false) as Hla.
  { destruct (locked a); [|done]. destruct Hlk as [Hlk _]. specialize (Hlk eq_refl). set_solver. }
  destruct (sync_spec dev [] (inner a) id) as (dev1 & Hsy & Hr & Hne); [done..|].
  destruct (IH dev1) as (q' & dev2 & Hq & Hids & Hmem & Hout); [done| |].
  { intros j b Hb. assert (j ≠ id) as Hj by (intros ->; apply Hid, elem_of_ids; eauto).
    assert (slot_ok dev [] j b) as Hs by (apply Hok; set_solver).
    eapply slot_ok_dev; [done|]. apply Hne; [apply Hs|done]. }
  assert (read_block dev2 id = Some (cache (inner a))) as Hr2 by (by rewrite Hout).
  cbn [sync_queue]. rewrite Hla, Hsy. cbn [mbind res_bind]. rewrite Hq. cbn [mbind res_bind].
  eexists _, _. split_and!; [done|by rewrite !fmap_cons, Hids| |].
  - intros j b [[= -> ->]|Hb]%elem_of_cons.
    + exists a. simpl. split_and!; [set_solver|done| |done].
      split; simpl; try done; first [by rewrite Hst, Hla | by rewrite Hr2 | by rewrite elem_of_nil].
    + destruct (Hmem j b Hb) as (c & Hc & ? & ? & ?). exists c. split_and!; [set_solver|done..].
  - intros j Hj. rewrite fmap_cons, elem_of_cons. intros Hnj.
    rewrite Hout, Hne; naive_solver.
Qed.

Lemma sync_step s d :
  cache_inv s [] d →
  ∃ q' dev', sync_queue (queue s) (device s) = Ok (q', dev') ∧
    cache_inv (mkCacheState dev' q') [] d ∧
    ∀ id, ok_id id → read_block dev' id = d !! id.
Proof.
  intros Hinv.
  destruct (sync_queue_spec (queue s) (device s)) as (q' & dev' & Hq & Hids & Hmem & Hout);
    [apply Hinv|by apply (inv_slots _ _ _ Hinv)|].
  exists q', dev'. split; [done|].
  assert (∀ id a', (id, a') ∈ q' → d !! id = Some (cache (inner a'))) as Hca.
  { intros id a' Ha. destruct (Hmem id a' Ha) as (a & Hin & -> & _).
    by apply (inv_cached _ _ _ Hinv). }
  assert (∀ id, ok_id id → id ∉ q'.*1 → d !! id = read_block dev' id) as Hun.
  { intros id Hid Hni. rewrite Hids in Hni. rewrite Hout by done.
    by apply (inv_uncached _ _ _ Hinv). }
  split.
  - split; simpl; try done.
    + rewrite Hids. apply Hinv.
    + rewrite <- (length_fmap fst q'), Hids, length_fmap. apply Hinv.
    + intros id a Ha. by destruct (Hmem id a Ha) as (_ & _ & _ & ? & _).
    + constructor.
    + intros id. set_solver.
  - intros id Hid. destruct (decide (id ∈ q'.*1)) as [[a Ha]%elem_of_ids|Hn].
    + rewrite (Hca id a Ha). by destruct (Hmem id a Ha) as (_ & _ & _ & _ & ?).
    + by rewrite Hun.
Qed.

(** The simulation: what [run] says of a program is what the cache does. *)
Lemma exec_run {A} (p : prog A) s h d :
  cache_inv s h d →
  match run p h d with
  | Ok (a, h', d') => ∃ s', exec p s = Ok (a, s') ∧ cache_inv s' h' d'
  | Stop Undefined => True
  | Stop e => exec p s = Stop e
  end.
Proof.
  revert s h d.
  induction p as [a|e|id k IH|id off v k IH|id k IH|k IH]; intros s h d Hinv; cbn [run exec].
  - eauto.
  - by destruct e.
  - case_bool_decide as Hok; [|done].
    assert (∀ m : res (list Z * cache_state D), get_block_cache id s ≫= mutex_lock id = m →
      (get_block_cache id s ≫= λ s1, mutex_lock id s1 ≫= λ '(b, s2), exec (k b) s2) =
      (m ≫= λ '(b, s2), exec (k b) s2)) as Hassoc.
    { intros m <-. by destruct (get_block_cache id s). }
    pose proof (lock_step s h d id Hinv Hok) as Hl.
    destruct (decide (id ∈ h)) as [Hh|Hh].
    { rewrite bool_decide_eq_true_2 by done. by rewrite (Hassoc _ Hl). }
    rewrite bool_decide_eq_false_2 by done.
    destruct (Z.leb_spec BLOCK_CACHE_SIZE (Z.of_nat (length h))) as [Hle|Hlt].
    { rewrite decide_False in Hl by lia. by rewrite (Hassoc _ Hl). }
    rewrite decide_True in Hl by lia.
    destruct (d !! id) as [b|]; [|by rewrite (Hassoc _ Hl)].
    destruct Hl as (s' & Hl & Hinv'). rewrite (Hassoc _ Hl). by apply IH.
  - destruct (d !! id) as [b|] eqn:Hb; [|done].
    case_bool_decide as Hh; [|done]. unfold store_fits.
    case_bool_decide as Hl; [|done]. by apply IH, store_step.
  - case_bool_decide as Hh; [|done]. by apply IH, unlock_step.
  - destruct h as [|x h].
    + destruct (sync_step s d Hinv) as (q' & dev' & Hq & Hinv' & _).
      rewrite Hq. by apply IH.
    + assert (∃ a, (x, a) ∈ queue s ∧ locked a = true) as (a & Ha & Hla).
      { assert (x ∈ (queue s).*1) as [a Ha]%elem_of_ids
          by (apply (inv_held _ _ _ Hinv); set_solver).
        exists a. split; [done|]. apply (inv_slots _ _ _ Hinv x a Ha). set_solver. }
      assert (sync_queue (queue s) (device s) = Stop Deadlocked) as ->; [|done].
      pose proof (inv_slots _ _ _ Hinv) as Hsl. clear IH.
      pose proof (inv_nodup _ _ _ Hinv) as Hnd. destruct s as [dev q]; simpl in *. clear Hinv.
      revert dev Hsl. induction q as [|[i b] q IHq]; intros dev Hsl; [set_solver|].
      cbn [sync_queue]. destruct (locked b) eqn:Hlb; [done|].
      rewrite fmap_cons, list.NoDup_cons in Hnd. destruct Hnd as [Hi Hnd]. cbn [fst] in Hi.
      destruct (Hsl i b) as [Hok Hbid Hlen _ _ Hdev Hcl]; [set_solver|].
      destruct (sync_spec dev [] (inner b) i) as (dev1 & -> & Hr & Hne); [done..|].
      cbn [mbind res_bind]. rewrite IHq; [done| |done|].
      * apply elem_of_cons in Ha as [[= -> ->]|]; [congruence|done].
      * intros j c Hc. assert (slot_ok dev (x :: h) j c) as Hs by (apply Hsl; set_solver).
        eapply slot_ok_dev; [done|]. apply Hne; [apply Hs|].
        intros ->. apply Hi, elem_of_ids. eauto.
Qed.

(** A cache that has just been created over a device. *)
Lemma cache_inv_init (dev : D) (d : gmap Z (list Z)) :
  (∀ id, ok_id id → d !! id = read_block dev id) →
  cache_inv (mkCacheState dev []) [] d.
Proof.
  intros H. split; simpl; try done; try set_solver; try constructor.
Qed.
End cache_refinement.

Section exec_facts.
Context {D : Type} `{!BlockDevice D}.
Implicit Types s : cache_state D.

(** One program after another. *)
Lemma exec_bind {A B} (p : prog A) (f : A → prog B) : ∀ s,
  exec (p ≫= f) s = exec p s ≫= λ '(a, s'), exec (f a) s'.
Proof.
  unfold mbind at 1, prog_bind. induction p as [a|e|id k IH|id off v k IH|id k IH|k IH]; intros s; cbn [exec pbind]; auto.
  - destruct (get_block_cache id s) as [s1|]; [|done]. cbn. destruct (mutex_lock id s1) as [[b s2]|]; [|done].
    cbn. auto.
  - destruct (sync_queue (queue s) (device s)) as [[q dev]|]; [|done]. cbn. auto.
Qed.

End exec_facts.
