(* ===== verification/BlockFile.v ===== *)
(** * BlockFile: a host file as a block device (easy-fs-fuse/src/main.rs)

    [easy-fs-fuse] builds the file-system image on the host: block [id] is the
    512 bytes of the image file at offset [id * 512]. *)

From stdpp Require Import base gmap list numbers.
From S2P Require Import Prelude Bytes BlockIO BlockCache.

(** The bytes of the image file. *)
Record BlockFile : Type := mkBlockFile { file_bytes : list Z }.

(** [File::seek(SeekFrom::Start(pos))]: an offset beyond i64 is an error. *)
Definition seek_ok (pos : Z) : bool := pos <? 2 ^ 63.

(** [file.seek(id * BLOCK_SZ); assert_eq!(file.read(buf), BLOCK_SZ)]. *)
Definition BlockFile_read_block (f : BlockFile) (id : Z) : option (list Z) :=
  let pos := id *u BLOCK_SZ in
  if seek_ok pos then
    let buf := slice (Z.to_nat pos) (Z.to_nat BLOCK_SZ) (file_bytes f) in
    if Z.of_nat (length buf) =? BLOCK_SZ then Some buf else None
  else None.

(** [file.seek(id * BLOCK_SZ); assert_eq!(file.write(buf), BLOCK_SZ)]: a write
    past the end of the file grows it, with a hole of zeros. *)
Definition BlockFile_write_block (f : BlockFile) (id : Z) (buf : list Z) : option BlockFile :=
  let pos := id *u BLOCK_SZ in
  if seek_ok pos then
    if Z.of_nat (length buf) =? BLOCK_SZ then
      let n := Z.to_nat pos in
      let old := file_bytes f ++ replicate (n - length (file_bytes f)) 0 in
      Some (mkBlockFile (splice n buf old))
    else None
  else None.

#[export] Instance BlockFile_device : BlockDevice BlockFile := {
  read_block := BlockFile_read_block;
  write_block := BlockFile_write_block;
}.

(** The offset of a block, for the block ids easy-fs uses. *)
Lemma block_pos id : ok_id id → id *u BLOCK_SZ = id * 512 ∧ seek_ok (id * 512) = true.
Proof.
  unfold ok_id, in_u, BLOCK_SZ, seek_ok. intros Hid. split; [mach|].
  apply Z.ltb_lt. rewrite pow2_32 in Hid. lia.
Qed.

Lemma BlockFile_read_iff f id b :
  ok_id id →
  BlockFile_read_block f id = Some b ↔
  (Z.to_nat id * 512 + 512 ≤ length (file_bytes f))%nat ∧
  b = slice (Z.to_nat id * 512) 512 (file_bytes f).
Proof.
  intros Hid. unfold BlockFile_read_block. destruct (block_pos id Hid) as [-> ->].
  assert (Z.to_nat (id * 512) = Z.to_nat id * 512)%nat as ->
    by (unfold ok_id, in_u in Hid; lia).
  change (Z.to_nat BLOCK_SZ) with 512%nat. unfold BLOCK_SZ.
  destruct (Z.eqb_spec (Z.of_nat (length (slice (Z.to_nat id * 512) 512 (file_bytes f)))) 512) as [Hl|Hl];
    rewrite length_slice in Hl; split; intros; destruct_and?; simplify_eq; auto with lia.
  all: exfalso; lia.
Qed.

#[export] Instance BlockFile_laws : BlockDeviceLaws BlockFile.
Proof.
  split.
  - intros f id b. unfold read_block; simpl. unfold BlockFile_read_block.
    destruct (seek_ok _); [|done].
    destruct (Z.eqb_spec (Z.of_nat (length (slice (Z.to_nat (id *u BLOCK_SZ)) (Z.to_nat BLOCK_SZ) (file_bytes f))))
      BLOCK_SZ) as [Hl|]; [|done].
    intros [= <-]. lia.
  - intros f id b Hid _ Hb. unfold write_block; simpl. unfold BlockFile_write_block.
    destruct (block_pos id Hid) as [-> ->]. rewrite Hb. done.
  - intros f f' id b Hid Hb. unfold write_block, read_block; simpl.
    unfold BlockFile_write_block. destruct (block_pos id Hid) as [-> ->]. rewrite Hb.
    change (Z.of_nat (Z.to_nat BLOCK_SZ) =? BLOCK_SZ) with true.
    change (Z.to_nat BLOCK_SZ) with 512%nat in Hb.
    assert (Z.to_nat (id * 512) = Z.to_nat id * 512)%nat as ->
      by (unfold ok_id, in_u in Hid; lia).
    intros [= <-]. apply BlockFile_read_iff; [done|]. simpl. split.
    + unfold splice. len.
    + rewrite <- Hb at 2. rewrite slice_splice_eq; [done|len].
  - intros f f' id id' b Hid Hid' Hne Hb [b0 Hr]. unfold write_block, read_block in *; simpl in *.
    apply BlockFile_read_iff in Hr as [Hlen _]; [|done].
    unfold BlockFile_write_block. destruct (block_pos id Hid) as [-> ->]. rewrite Hb.
    change (Z.of_nat (Z.to_nat BLOCK_SZ) =? BLOCK_SZ) with true.
    change (Z.to_nat BLOCK_SZ) with 512%nat in Hb.
    assert (Z.to_nat (id * 512) = Z.to_nat id * 512)%nat as ->
      by (unfold ok_id, in_u in Hid; lia).
    replace (Z.to_nat id * 512 - length (file_bytes f))%nat with 0%nat by lia.
    simpl. rewrite app_nil_r. intros [= <-].
    apply option_eq. intros c. rewrite !BlockFile_read_iff by done. simpl.
    rewrite length_splice by lia.
    assert (Z.to_nat id ≠ Z.to_nat id') by (unfold ok_id, in_u in *; lia).
    rewrite slice_splice_ne by lia. done.
Qed.

(** The blocks of an image file, as the disk the programs see. *)
Definition file_disk (f : BlockFile) : gmap Z (list Z) :=
  list_to_map ((λ i, (i, slice (Z.to_nat i * 512) 512 (file_bytes f))) <$>
    seqZ 0 (Z.of_nat (length (file_bytes f)) / 512)).

Lemma file_disk_spec f id :
  ok_id id → file_disk f !! id = BlockFile_read_block f id.
Proof.
  intros Hid. apply option_eq. intros b. rewrite BlockFile_read_iff by done.
  unfold file_disk. rewrite <- elem_of_list_to_map.
  2:{ rewrite <- list_fmap_compose. simpl.
      rewrite (list_fmap_ext _ (@Datatypes.id Z)) by done. rewrite list_fmap_id.
      apply NoDup_seqZ. }
  rewrite list_elem_of_fmap. unfold ok_id, in_u in Hid. split.
  - intros (i & [= <- ->] & [Hi Hi']%elem_of_seqZ). split; [|done].
    pose proof (Z.div_mod (Z.of_nat (length (file_bytes f))) 512).
    pose proof (Z.mod_pos_bound (Z.of_nat (length (file_bytes f))) 512). lia.
  - intros [Hl ->]. exists id. split; [done|]. apply elem_of_seqZ. split; [lia|].
    rewrite Z.add_0_l. apply Z.lt_le_trans with (id + 1); [lia|].
    apply Z.div_le_lower_bound; lia.
Qed.
