(* ===== verification/Bitmap.v ===== *)
(** * Bitmap: the inode and data-block bitmaps (easy-fs/src/bitmap.rs)

    A bitmap is a range of disk blocks, each read as 64 words of 64 bits.
    [alloc] takes the lowest free bit, [dealloc] gives one back. *)

From stdpp Require Import base gmap list numbers.
From S2P Require Import Prelude Bytes BlockIO.

Definition BLOCK_BITS : Z := BLOCK_SZ * 8.
Definition u64_MAX : Z := 2 ^ 64 - 1.

Record Bitmap : Type := mkBitmap {
  start_block_id : Z;
  blocks : Z;
}.

(** (block_pos, bits64_pos, inner_pos) *)
Definition decomposition (bit : Z) : Z * Z * Z :=
  let block_pos := bit / BLOCK_BITS in
  let bit := bit mod BLOCK_BITS in
  (block_pos, bit / 64, bit mod 64).

(** [u64::trailing_ones]. *)
Fixpoint ones_below (n : nat) (x : Z) : Z :=
  match n with
  | O => 0
  | S n => if Z.odd x then 1 + ones_below n (x / 2) else 0
  end.
Definition trailing_ones (x : Z) : Z := ones_below 64 x.

(** The closure of [alloc] on one [BitmapBlock]: the first word that is not
    full, its lowest zero bit, and the block with that bit set. *)
Definition bitmap_block_alloc (b : list Z) : option (Z * Z) * list Z :=
  match find_index (λ v, negb (v =? u64_MAX)) (arr_list 8 64 b) with
  | Some i =>
      let bits64_pos := Z.of_nat i in
      let bits64 := arr_get 8 b bits64_pos in
      let inner_pos := trailing_ones bits64 in
      (Some (bits64_pos, inner_pos),
       arr_set 8 b bits64_pos (Z.lor bits64 (1 <<u inner_pos)))
  | None => (None, b)
  end.

Fixpoint alloc_from (bm : Bitmap) (ids : list Z) : prog (option Z) :=
  match ids with
  | [] => Ret None
  | block_id :: ids =>
      modify (block_id +u start_block_id bm) 0 BLOCK_SZ (λ b,
        match bitmap_block_alloc b with
        | (Some (bits64_pos, inner_pos), b') =>
            Ret (Some (block_id *u BLOCK_BITS +u bits64_pos *u 64 +u inner_pos), b')
        | (None, b') => Ret (None, b')
        end) ≫= λ pos,
      match pos with
      | Some p => Ret (Some p)
      | None => alloc_from bm ids
      end
  end.

Definition Bitmap_alloc (bm : Bitmap) : prog (option Z) :=
  alloc_from bm (seqZ 0 (blocks bm)).

Definition Bitmap_dealloc (bm : Bitmap) (bit : Z) : prog () :=
  let '(block_pos, bits64_pos, inner_pos) := decomposition bit in
  modify (block_pos +u start_block_id bm) 0 BLOCK_SZ (λ b,
    let word := arr_get 8 b bits64_pos in
    passert (0 <? Z.land word (1 <<u inner_pos)) ≫= λ _,
    Ret ((), arr_set 8 b bits64_pos (word -u (1 <<u inner_pos)))).

Definition Bitmap_maximum (bm : Bitmap) : Z := blocks bm *u BLOCK_BITS.

(** ** What a bitmap means *)

(** Bit [k] of the bitmap on the disk [d]. *)
Definition bm_bit (d : gmap Z (list Z)) (bm : Bitmap) (k : Z) : bool :=
  let '(block_pos, bits64_pos, inner_pos) := decomposition k in
  match d !! (start_block_id bm + block_pos) with
  | Some b => Z.testbit (arr_get 8 b bits64_pos) inner_pos
  | None => false
  end.

(** Block [id] of the disk exists and holds bytes. *)
Definition block_ok (d : gmap Z (list Z)) (id : Z) : Prop :=
  ∃ b, d !! id = Some b ∧ length b = Z.to_nat BLOCK_SZ ∧ Forall is_byte b.

(** The bitmap's blocks exist and their ids are u32 values. *)
Record bm_wf (d : gmap Z (list Z)) (bm : Bitmap) : Prop := {
  bm_start : 0 ≤ start_block_id bm;
  bm_blocks : 0 ≤ blocks bm;
  bm_end : start_block_id bm + blocks bm < 2 ^ 32;
  bm_block i : 0 ≤ i < blocks bm → block_ok d (start_block_id bm + i);
}.

(** [id] is one of the bitmap's blocks. *)
Definition bm_region (bm : Bitmap) (id : Z) : Prop :=
  start_block_id bm ≤ id < start_block_id bm + blocks bm.

(** ** Words *)
Lemma ones_below_spec n x :
  0 ≤ x < 2 ^ Z.of_nat n - 1 →
  0 ≤ ones_below n x < Z.of_nat n ∧ Z.testbit x (ones_below n x) = false ∧
  ∀ i, 0 ≤ i < ones_below n x → Z.testbit x i = true.
Proof.
  revert x. induction n as [|n IH]; intros x Hx.
  { change (2 ^ Z.of_nat 0) with 1 in Hx. lia. }
  rewrite Nat2Z.inj_succ, Z.pow_succ_r in * by lia. cbn [ones_below].
  pose proof (Zmod_odd x) as Hodd. pose proof (Z.div_mod x 2 ltac:(lia)) as Hdm.
  destruct (Z.odd x) eqn:E.
  - destruct (IH (x / 2)) as (H1 & H2 & H3).
    { split; [apply Z.div_pos; lia|]. lia. }
    split_and!; [lia..| |].
    + by rewrite Z.add_1_l, <- Z.div2_bits by lia.
    + intros i Hi. destruct (decide (i = 0)) as [->|Hne].
      * by rewrite Z.bit0_odd.
      * replace i with (Z.succ (i - 1)) by lia. rewrite <- Z.div2_bits by lia.
        apply H3. lia.
  - split_and!; [lia..|by rewrite Z.bit0_odd|lia].
Qed.

Lemma trailing_ones_spec x :
  in_u 64 x → x ≠ u64_MAX →
  0 ≤ trailing_ones x < 64 ∧ Z.testbit x (trailing_ones x) = false ∧
  ∀ i, 0 ≤ i < trailing_ones x → Z.testbit x i = true.
Proof.
  unfold in_u, u64_MAX. intros Hx Hne.
  apply (ones_below_spec 64). change (Z.of_nat 64) with 64. lia.
Qed.

Lemma one_shl t : 0 ≤ t < 64 → 1 <<u t = 2 ^ t.
Proof.
  intros Ht. unfold ushl. rewrite Z.shiftl_1_l. apply wrap_small. split; [lia|].
  apply Z.pow_lt_mono_r; lia.
Qed.

Lemma testbit_u64_MAX i : 0 ≤ i < 64 → Z.testbit u64_MAX i = true.
Proof.
  intros Hi. unfold u64_MAX.
  replace (2 ^ 64 - 1) with (Z.ones 64) by (rewrite Z.ones_equiv; lia).
  by apply Z.ones_spec_low.
Qed.

Lemma set_bit_spec x t i :
  0 ≤ t < 64 → 0 ≤ i →
  Z.testbit (Z.lor x (1 <<u t)) i = if decide (i = t) then true else Z.testbit x i.
Proof.
  intros Ht Hi. rewrite one_shl, Z.lor_spec by done. case_decide as Hd.
  - subst. by rewrite Z.pow2_bits_true, orb_true_r by lia.
  - rewrite Z.pow2_bits_false by lia. apply orb_false_r.
Qed.

Lemma set_bit_range x t : in_u 64 x → 0 ≤ t < 64 → in_u 64 (Z.lor x (1 <<u t)).
Proof.
  intros Hx Ht. unfold in_u in *.
  assert (0 ≤ Z.lor x (1 <<u t)) as H0.
  { apply Z.lor_nonneg. rewrite one_shl by done. lia. }
  split; [done|].
  assert (Z.lor x (1 <<u t) = Z.lor x (1 <<u t) mod 2 ^ 64) as ->.
  { apply Z.bits_inj'. intros i Hi. destruct (decide (i < 64)).
    - by rewrite Z.mod_pow2_bits_low.
    - rewrite Z.mod_pow2_bits_high by lia. rewrite set_bit_spec by lia.
      rewrite decide_False by lia. by apply (testbit_high _ 64); lia. }
  apply Z.mod_pos_bound. lia.
Qed.

(** The test of [dealloc]'s [assert!]. *)
Lemma test_bit_spec x t :
  0 ≤ t < 64 → (0 <? Z.land x (1 <<u t)) = Z.testbit x t.
Proof.
  intros Ht. rewrite one_shl by done.
  assert (Z.land x (2 ^ t) = if Z.testbit x t then 2 ^ t else 0) as ->.
  { apply Z.bits_inj'. intros i Hi. rewrite Z.land_spec.
    destruct (decide (i = t)) as [->|Hne].
    - rewrite Z.pow2_bits_true by lia. destruct (Z.testbit x t); simpl.
      + by rewrite Z.pow2_bits_true by lia.
      + by rewrite Z.bits_0.
    - rewrite Z.pow2_bits_false by lia. rewrite andb_false_r.
      destruct (Z.testbit x t); [|by rewrite Z.bits_0].
      by rewrite Z.pow2_bits_false by lia. }
  destruct (Z.testbit x t); [|done]. apply Z.ltb_lt. lia.
Qed.

Lemma clear_bit_spec x t i :
  in_u 64 x → 0 ≤ t < 64 → Z.testbit x t = true → 0 ≤ i →
  Z.testbit (x -u (1 <<u t)) i = if decide (i = t) then false else Z.testbit x i.
Proof.
  intros Hx Ht Hbit Hi. rewrite one_shl by done.
  assert (Z.ldiff (2 ^ t) x = 0) as Hld.
  { apply Z.bits_inj'. intros j Hj. rewrite Z.ldiff_spec, Z.bits_0.
    destruct (decide (j = t)) as [->|Hne].
    - rewrite Hbit. apply andb_false_r.
    - by rewrite Z.pow2_bits_false by lia. }
  pose proof (Z.sub_nocarry_ldiff x (2 ^ t) Hld) as Hsub.
  unfold usub. rewrite Hsub, wrap_small.
  - rewrite Z.ldiff_spec. case_decide as Hd.
    + subst. rewrite Z.pow2_bits_true by lia. apply andb_false_r.
    + rewrite Z.pow2_bits_false by lia. apply andb_true_r.
  - unfold in_u in *. rewrite <- Hsub.
    assert (0 ≤ Z.ldiff x (2 ^ t)) by (apply Z.ldiff_nonneg; lia). lia.
Qed.

Lemma clear_bit_range x t : in_u 64 (x -u (1 <<u t)).
Proof. by apply wrap_range. Qed.

(** Setting a bit and clearing it again gives the old word back. *)
Lemma set_clear_bit x t :
  in_u 64 x → 0 ≤ t < 64 → Z.testbit x t = false →
  Z.lor x (1 <<u t) -u (1 <<u t) = x.
Proof.
  intros Hx Ht Hb. apply Z.bits_inj'. intros i Hi.
  rewrite clear_bit_spec; [|by apply set_bit_range|done| |done].
  - rewrite set_bit_spec by done. case_decide; congruence.
  - rewrite set_bit_spec by lia. by rewrite decide_True.
Qed.

(** ** Positions *)

(** The bit number of a position. *)
Definition bit_at (bp w t : Z) : Z := bp * 4096 + w * 64 + t.

Lemma decomposition_at bp w t :
  0 ≤ w < 64 → 0 ≤ t < 64 → decomposition (bit_at bp w t) = (bp, w, t).
Proof.
  intros Hw Ht. unfold decomposition, bit_at. change BLOCK_BITS with 4096.
  replace (bp * 4096 + w * 64 + t) with (w * 64 + t + bp * 4096) by lia.
  rewrite Z.div_add, Z.mod_add by lia.
  rewrite (Z.div_small (w * 64 + t)), (Z.mod_small (w * 64 + t)) by lia.
  replace (w * 64 + t) with (t + w * 64) by lia.
  rewrite Z.div_add, Z.mod_add by lia. rewrite Z.div_small, Z.mod_small by lia.
  by rewrite !Z.add_0_l.
Qed.

Lemma bit_at_surj k :
  0 ≤ k → ∃ bp w t, k = bit_at bp w t ∧ 0 ≤ bp ∧ 0 ≤ w < 64 ∧ 0 ≤ t < 64.
Proof.
  intros Hk. exists (k / 4096), (k mod 4096 / 64), (k mod 4096 mod 64). unfold bit_at.
  pose proof (Z.div_mod k 4096 ltac:(lia)). pose proof (Z.mod_pos_bound k 4096 ltac:(lia)).
  pose proof (Z.div_mod (k mod 4096) 64 ltac:(lia)).
  pose proof (Z.mod_pos_bound (k mod 4096) 64 ltac:(lia)).
  split_and!; try lia.
Qed.

Lemma bm_bit_at d bm bp w t :
  0 ≤ w < 64 → 0 ≤ t < 64 →
  bm_bit d bm (bit_at bp w t) =
  match d !! (start_block_id bm + bp) with
  | Some b => Z.testbit (arr_get 8 b w) t
  | None => false
  end.
Proof. intros Hw Ht. unfold bm_bit. by rewrite decomposition_at. Qed.

Lemma word_in b w : length b = Z.to_nat BLOCK_SZ → 0 ≤ w < 64 → arr_in 8 b w.
Proof. intros Hl Hw. apply (arr_in_iff 8 b 64); [by rewrite Hl|done]. Qed.

Lemma word_range b w :
  length b = Z.to_nat BLOCK_SZ → Forall is_byte b → 0 ≤ w < 64 → in_u 64 (arr_get 8 b w).
Proof.
  intros Hl Hb Hw. pose proof (arr_get_range 8 b w (word_in b w Hl Hw) Hb) as H.
  by change (8 * Z.of_nat 8) with 64 in H.
Qed.

(** ** One block *)
Lemma bitmap_block_alloc_spec b :
  length b = Z.to_nat BLOCK_SZ → Forall is_byte b →
  match bitmap_block_alloc b with
  | (Some (w, t), b') =>
      0 ≤ w < 64 ∧ 0 ≤ t < 64 ∧ length b' = Z.to_nat BLOCK_SZ ∧ Forall is_byte b' ∧
      Z.testbit (arr_get 8 b w) t = false ∧
      (∀ w' t', 0 ≤ w' < 64 → 0 ≤ t' < 64 → w' * 64 + t' < w * 64 + t →
         Z.testbit (arr_get 8 b w') t' = true) ∧
      (∀ w' t', 0 ≤ w' < 64 → 0 ≤ t' < 64 →
         Z.testbit (arr_get 8 b' w') t' =
         if decide (w' = w ∧ t' = t) then true else Z.testbit (arr_get 8 b w') t')
  | (None, b') =>
      b' = b ∧
      ∀ w t, 0 ≤ w < 64 → 0 ≤ t < 64 → Z.testbit (arr_get 8 b w) t = true
  end.
Proof.
  intros Hl Hb. unfold bitmap_block_alloc.
  assert (∀ i, 0 ≤ i < 64 → arr_list 8 64 b !! Z.to_nat i = Some (arr_get 8 b i)) as Hlk.
  { intros i Hi. rewrite lookup_arr_list by lia. by rewrite Z2Nat.id by lia. }
  destruct (find_index _ _) as [i|] eqn:Hf.
  - apply find_index_Some in Hf as (x & Hx & Hne & Hmin).
    pose proof (lookup_lt_Some _ _ _ Hx) as Hi. rewrite length_arr_list in Hi.
    change (Z.to_nat 64) with 64%nat in Hi.
    rewrite lookup_arr_list in Hx by lia. injection Hx as <-.
    apply negb_true_iff, Z.eqb_neq in Hne. set (w := Z.of_nat i) in *.
    assert (0 ≤ w < 64) as Hw by lia.
    pose proof (word_range b w Hl Hb Hw) as Hr.
    destruct (trailing_ones_spec _ Hr Hne) as (Ht & Hfree & Hlow).
    set (t := trailing_ones _) in *.
    pose proof (word_in b w Hl Hw) as Hin.
    split_and!; try lia; try done.
    + by rewrite length_arr_set.
    + by apply arr_set_bytes.
    + intros w' t' Hw' Ht' Hlt. destruct (decide (w' = w)) as [->|Hne'].
      * apply Hlow. lia.
      * assert (Z.to_nat w' < i)%nat as Hlt' by lia.
        specialize (Hmin _ _ Hlt' (Hlk w' Hw')). apply negb_false_iff, Z.eqb_eq in Hmin.
        rewrite Hmin. by apply testbit_u64_MAX.
    + intros w' t' Hw' Ht'. destruct (decide (w' = w)) as [->|Hne'].
      * rewrite arr_get_set_eq; [|done|by apply set_bit_range].
        rewrite set_bit_spec by lia. repeat case_decide; naive_solver.
      * rewrite arr_get_set_ne by (done || lia). rewrite decide_False by naive_solver. done.
  - rewrite find_index_None in Hf. split; [done|]. intros w t Hw Ht.
    assert (arr_get 8 b w ∈ arr_list 8 64 b) as Hin.
    { eapply list_elem_of_lookup_2, Hlk. lia. }
    specialize (Hf _ Hin). apply negb_false_iff, Z.eqb_eq in Hf. rewrite Hf.
    by apply testbit_u64_MAX.
Qed.

(** ** The whole bitmap *)

(** What a successful [alloc] of bit [k] means. *)
Record bm_alloc_ok (d : gmap Z (list Z)) (bm : Bitmap) (k : Z) (d' : gmap Z (list Z)) : Prop := {
  alloc_bound : 0 ≤ k < blocks bm * 4096;
  alloc_free : bm_bit d bm k = false;
  alloc_bits j : 0 ≤ j < blocks bm * 4096 →
    bm_bit d' bm j = if decide (j = k) then true else bm_bit d bm j;
  alloc_other id : ¬ bm_region bm id → d' !! id = d !! id;
  alloc_wf : bm_wf d' bm;
}.

(** Replacing one block of the bitmap by another well-formed block. *)
Lemma bm_wf_insert d bm bp b :
  bm_wf d bm → length b = Z.to_nat BLOCK_SZ → Forall is_byte b →
  bm_wf (<[start_block_id bm + bp := b]> d) bm.
Proof.
  intros Hwf Hl Hb. split; try apply Hwf. intros i Hi.
  destruct (decide (i = bp)) as [->|Hne].
  - exists b. by rewrite lookup_insert_eq.
  - destruct (bm_block _ _ Hwf i Hi) as (c & ? & ? & ?). exists c.
    rewrite lookup_insert_ne by lia. done.
Qed.

Lemma bm_bit_insert d bm bp b b' bp' w t :
  d !! (start_block_id bm + bp) = Some b → 0 ≤ w < 64 → 0 ≤ t < 64 →
  bm_bit (<[start_block_id bm + bp := b']> d) bm (bit_at bp' w t) =
  if decide (bp' = bp) then Z.testbit (arr_get 8 b' w) t
  else bm_bit d bm (bit_at bp' w t).
Proof.
  intros Hb Hw Ht. rewrite !bm_bit_at by done. case_decide as Hd.
  - subst. by rewrite lookup_insert_eq.
  - by rewrite lookup_insert_ne by lia.
Qed.

Lemma bit_at_inj bp w t bp' w' t' :
  0 ≤ w < 64 → 0 ≤ t < 64 → 0 ≤ w' < 64 → 0 ≤ t' < 64 →
  bit_at bp w t = bit_at bp' w' t' → bp = bp' ∧ w = w' ∧ t = t'.
Proof. unfold bit_at. lia. Qed.

(** The block [i] of the bitmap has its bit [t] of word [w] set by the
    allocation. *)
Lemma block_alloc_ok d bm i b b' w t :
  bm_wf d bm → 0 ≤ i < blocks bm → d !! (start_block_id bm + i) = Some b → bitmap_block_alloc b = (Some (w, t), b') →
  bm_alloc_ok d bm (bit_at i w t) (<[start_block_id bm + i := b']> d) ∧
  ∀ j, i * 4096 ≤ j < bit_at i w t → bm_bit d bm j = true.
Proof.
  intros Hwf Hi Hb Hba. destruct (bm_block _ _ Hwf i) as (b0 & Hb0 & Hlen & Hbytes); [lia|]. rewrite Hb in Hb0. injection Hb0 as <-.
  pose proof (bitmap_block_alloc_spec b Hlen Hbytes) as Hspec. rewrite Hba in Hspec.
  destruct Hspec as (Hw & Ht & Hl' & Hby' & Hfree & Hlow & Hbits).
  assert (0 ≤ bit_at i w t < blocks bm * 4096) as Hbound by (unfold bit_at; lia). split; [split; [done| | | |]|].
  - by rewrite bm_bit_at, Hb.
  - intros j Hj. destruct (bit_at_surj j) as (bp & w' & t' & -> & ? & ? & ?); [lia|].
    rewrite (bm_bit_insert _ _ _ b) by done. rewrite bm_bit_at by done.
    destruct (decide (bp = i)) as [->|Hne].
    + rewrite Hb, Hbits by done. repeat case_decide; try done.
      * destruct_and!; subst; done.
      * match goal with Heq : bit_at _ _ _ = _ |- _ => apply bit_at_inj in Heq end; naive_solver.
    + rewrite decide_False; [done|]. intros Heq. apply bit_at_inj in Heq; naive_solver.
  - intros id Hid. rewrite lookup_insert_ne; [done|]. unfold bm_region in Hid. lia.
  - by apply bm_wf_insert.
  - intros j Hj. destruct (bit_at_surj j) as (bp & w' & t' & -> & ? & ? & ?); [lia|].
    assert (bp = i) as -> by (unfold bit_at in *; lia).
    rewrite bm_bit_at, Hb by done. apply Hlow; [done..|]. unfold bit_at in *. lia.
Qed.

(** A block without a free bit: nothing changes, and all its bits are set. *)
Lemma block_alloc_full d bm i b b' :
  bm_wf d bm → 0 ≤ i < blocks bm → d !! (start_block_id bm + i) = Some b → bitmap_block_alloc b = (None, b') →
  b' = b ∧ ∀ j, i * 4096 ≤ j < Z.succ i * 4096 → bm_bit d bm j = true.
Proof.
  intros Hwf Hi Hb Hba. destruct (bm_block _ _ Hwf i) as (b0 & Hb0 & Hlen & Hbytes); [lia|]. rewrite Hb in Hb0. injection Hb0 as <-.
  pose proof (bitmap_block_alloc_spec b Hlen Hbytes) as Hspec. rewrite Hba in Hspec. destruct Hspec as [-> Hall]. split; [done|].
  intros j Hj. destruct (bit_at_surj j) as (bp & w' & t' & -> & ? & ? & ?); [lia|].
  assert (bp = i) as -> by (unfold bit_at in *; lia). rewrite bm_bit_at, Hb by done. by apply Hall.
Qed.

Lemma alloc_from_spec d bm h (n : nat) i :
  bm_wf d bm → 0 ≤ i → i + Z.of_nat n = blocks bm →
  (∀ id, bm_region bm id → lockable id h) →
  (∀ j, 0 ≤ j < i * 4096 → bm_bit d bm j = true) →
  (∃ k d', runs (alloc_from bm (seqZ i (Z.of_nat n))) h d (Some k) d' ∧
     bm_alloc_ok d bm k d' ∧ ∀ j, 0 ≤ j < k → bm_bit d bm j = true) ∨
  (runs (alloc_from bm (seqZ i (Z.of_nat n))) h d None d ∧
     ∀ j, 0 ≤ j < blocks bm * 4096 → bm_bit d bm j = true).
Proof.
  intros Hwf Hi Hn Hlk. revert i Hi Hn. induction n as [|n IH]; intros i Hi Hn Hfull.
  { right. split; [done|]. intros j Hj. apply Hfull. lia. }
  rewrite seqZ_cons by lia. cbn [alloc_from].
  replace (Z.pred (Z.of_nat (S n))) with (Z.of_nat n) by lia.
  pose proof (bm_start _ _ Hwf). pose proof (bm_blocks _ _ Hwf). pose proof (bm_end _ _ Hwf).
  assert (i +u start_block_id bm = start_block_id bm + i) as -> by mach.
  destruct (bm_block _ _ Hwf i) as (b & Hb & Hlen & Hbytes); [lia|].
  assert (lockable (start_block_id bm + i) h) as Hl by (apply Hlk; unfold bm_region; lia).
  assert (slice (Z.to_nat 0) (Z.to_nat BLOCK_SZ) b = b) as Hsl by (unfold slice; by rewrite drop_0, take_ge by lia).
  pose proof (bitmap_block_alloc_spec b Hlen Hbytes) as Hspec.
  destruct (bitmap_block_alloc b) as [[[w t]|] b'] eqn:Hba.
  - left. destruct Hspec as (Hw & Ht & Hl' & _).
    assert (i *u BLOCK_BITS +u w *u 64 +u t = bit_at i w t) as Hk by (change BLOCK_BITS with 4096; unfold bit_at; mach).
    destruct (block_alloc_ok d bm i b b' w t Hwf ltac:(lia) Hb Hba) as [Hok Hlow].
    exists (bit_at i w t), (<[start_block_id bm + i := b']> d). split_and!; [|exact Hok|].
    + eapply (runs_bind _ _ _ _ (Some (bit_at i w t))); [|reflexivity].
      replace b' with (splice (Z.to_nat 0) b' b) by (unfold splice; simpl; rewrite drop_ge by lia; apply app_nil_r).
      eapply (runs_modify_pure _ _ _ _ _ _ b); [done..| |simpl; lia]. rewrite Hsl, Hba, Hk. done.
    + intros j Hj. destruct (decide (j < i * 4096)); [apply Hfull; lia|apply Hlow; lia].
  - destruct (block_alloc_full d bm i b b' Hwf ltac:(lia) Hb Hba) as [-> Hall].
    assert (∀ A (f : option Z → prog A), run (modify (start_block_id bm + i) 0 BLOCK_SZ (λ b0,
      match bitmap_block_alloc b0 with
      | (Some (bits64_pos, inner_pos), b') =>
          Ret (Some (i *u BLOCK_BITS +u bits64_pos *u 64 +u inner_pos), b')
      | (None, b') => Ret (None, b')
      end) ≫= f) h d = run (f None) h d) as Hskip.
    { intros A f. apply run_bind_runs. rewrite <- (insert_id d _ _ Hb) at 2.
      replace b with (splice (Z.to_nat 0) b b) at 1 by (apply splice_id; [unfold slice; rewrite drop_0; apply take_ge; lia|simpl; lia]).
      eapply (runs_modify_pure _ _ _ _ _ _ b); [done..| |simpl; lia]. by rewrite Hsl, Hba. }
    unfold runs. setoid_rewrite Hskip.
    destruct (IH (Z.succ i)) as [Hsome|Hnone]; [lia..| |left|right]; try done.
    intros j Hj. destruct (decide (j < i * 4096)); [apply Hfull; lia|apply Hall; lia].
Qed.

(** [alloc] on a bitmap whose blocks the thread may lock. *)
Lemma Bitmap_alloc_spec d bm h :
  bm_wf d bm → (∀ id, bm_region bm id → lockable id h) →
  (∃ k d', runs (Bitmap_alloc bm) h d (Some k) d' ∧
     bm_alloc_ok d bm k d' ∧ ∀ j, 0 ≤ j < k → bm_bit d bm j = true) ∨
  (runs (Bitmap_alloc bm) h d None d ∧
     ∀ j, 0 ≤ j < blocks bm * 4096 → bm_bit d bm j = true).
Proof.
  intros Hwf Hlk. unfold Bitmap_alloc. pose proof (bm_blocks _ _ Hwf).
  replace (seqZ 0 (blocks bm)) with (seqZ 0 (Z.of_nat (Z.to_nat (blocks bm))))
    by (by rewrite Z2Nat.id).
  apply alloc_from_spec; try done; lia.
Qed.

(** What a successful [dealloc] of bit [k] means. *)
Record bm_dealloc_ok (d : gmap Z (list Z)) (bm : Bitmap) (k : Z) (d' : gmap Z (list Z)) : Prop := {
  dealloc_bits j : 0 ≤ j < blocks bm * 4096 →
    bm_bit d' bm j = if decide (j = k) then false else bm_bit d bm j;
  dealloc_other id : ¬ bm_region bm id → d' !! id = d !! id;
  dealloc_wf : bm_wf d' bm;
}.

Lemma Bitmap_dealloc_spec d bm h k :
  bm_wf d bm → 0 ≤ k < blocks bm * 4096 →
  (∀ id, bm_region bm id → lockable id h) →
  if bm_bit d bm k then
    ∃ d', runs (Bitmap_dealloc bm k) h d () d' ∧ bm_dealloc_ok d bm k d'
  else run (Bitmap_dealloc bm k) h d = Stop Panicked.
Proof.
  intros Hwf Hk Hlk.
  destruct (bit_at_surj k) as (bp & w & t & -> & Hbp & Hw & Ht); [lia|].
  assert (0 ≤ bp < blocks bm) as Hbp' by (unfold bit_at in Hk; lia).
  pose proof (bm_start _ _ Hwf). pose proof (bm_blocks _ _ Hwf). pose proof (bm_end _ _ Hwf).
  destruct (bm_block _ _ Hwf bp Hbp') as (b & Hb & Hlen & Hbytes).
  assert (lockable (start_block_id bm + bp) h) as Hl by (apply Hlk; unfold bm_region; lia).
  assert (slice (Z.to_nat 0) (Z.to_nat BLOCK_SZ) b = b) as Hsl.
  { unfold slice. rewrite drop_0, take_ge by lia. done. }
  pose proof (word_range b w Hlen Hbytes Hw) as Hr.
  rewrite bm_bit_at, Hb by done. unfold Bitmap_dealloc. rewrite decomposition_at by done.
  assert (bp +u start_block_id bm = start_block_id bm + bp) as -> by mach.
  destruct (Z.testbit (arr_get 8 b w) t) eqn:Hbit.
  - set (b' := arr_set 8 b w (arr_get 8 b w -u (1 <<u t))).
    assert (length b' = length b) as Hlb by (by apply length_arr_set, word_in).
    exists (<[start_block_id bm + bp := b']> d). split.
    + replace b' with (splice (Z.to_nat 0) b' b).
      2:{ unfold splice. simpl. rewrite drop_ge by lia. apply app_nil_r. }
      eapply (runs_modify_pure _ _ _ _ _ _ b); [done..| |simpl; lia].
      rewrite Hsl, test_bit_spec, Hbit by done. done.
    + split.
      * intros j Hj. destruct (bit_at_surj j) as (bp' & w' & t' & -> & ? & Hw' & Ht'); [lia|].
        rewrite (bm_bit_insert _ _ _ b) by done. rewrite bm_bit_at by done.
        destruct (decide (bp' = bp)) as [->|Hne].
        -- rewrite Hb. unfold b'. destruct (decide (w' = w)) as [->|Hnw].
           ++ rewrite arr_get_set_eq; [|by apply word_in|apply clear_bit_range].
              rewrite clear_bit_spec by (done || lia).
              destruct (decide (t' = t)) as [->|Hnt]; [by rewrite decide_True|].
              rewrite decide_False; [done|].
              intros Heq. apply bit_at_inj in Heq; naive_solver.
           ++ rewrite arr_get_set_ne by (by apply word_in || lia).
              rewrite decide_False; [done|].
              intros Heq. apply bit_at_inj in Heq; naive_solver.
        -- rewrite decide_False; [done|]. intros Heq. apply bit_at_inj in Heq; naive_solver.
      * intros id Hid. rewrite lookup_insert_ne; [done|]. unfold bm_region in Hid. lia.
      * apply bm_wf_insert; [done|lia|]. by apply arr_set_bytes.
  - unfold modify. rewrite (run_lock _ _ _ _ b) by done. simpl (in_block _ _).
    cbn iota. apply run_bind_stop. rewrite Hsl, test_bit_spec, Hbit by done. done.
Qed.
