(* ===== verification/Layout.v ===== *)
(** * Layout: the on-disk structures (easy-fs/src/layout.rs)

    The super block, the inode with its direct, indirect and doubly indirect
    block indices, and the directory entry, with their byte layouts
    ([#[repr(C)]]) and every operation of [DiskInode].  The proofs about them
    are in [InodeIndex] and [InodeData]. *)

From stdpp Require Import base gmap list numbers.
From S2P Require Import Prelude Bytes BlockIO.

Definition EFS_MAGIC : Z := 0x3b800001.
Definition INODE_DIRECT_COUNT : Z := 28.
Definition NAME_LENGTH_LIMIT : Z := 27.
Definition INODE_INDIRECT1_COUNT : Z := BLOCK_SZ / 4.
Definition INODE_INDIRECT2_COUNT : Z := INODE_INDIRECT1_COUNT * INODE_INDIRECT1_COUNT.
Definition DIRECT_BOUND : Z := INODE_DIRECT_COUNT.
Definition INDIRECT1_BOUND : Z := DIRECT_BOUND + INODE_INDIRECT1_COUNT.
Definition INDIRECT2_BOUND : Z := INDIRECT1_BOUND + INODE_INDIRECT2_COUNT.
Definition DIRENT_SZ : Z := 32.

(** ** The super block *)
Record SuperBlock : Type := mkSuperBlock {
  magic : Z;
  total_blocks_of : Z;
  inode_bitmap_blocks : Z;
  inode_area_blocks : Z;
  data_bitmap_blocks : Z;
  data_area_blocks : Z;
}.

Definition SUPER_BLOCK_SIZE : Z := 24.

Definition SuperBlock_decode (b : list Z) : SuperBlock :=
  mkSuperBlock (arr_get 4 b 0) (arr_get 4 b 1) (arr_get 4 b 2)
    (arr_get 4 b 3) (arr_get 4 b 4) (arr_get 4 b 5).

Definition SuperBlock_encode (sb : SuperBlock) : list Z :=
  concat (le_bytes 4 <$> [magic sb; total_blocks_of sb; inode_bitmap_blocks sb;
    inode_area_blocks sb; data_bitmap_blocks sb; data_area_blocks sb]).

Definition SuperBlock_initialize
    (total_blocks inode_bitmap_blocks inode_area_blocks data_bitmap_blocks
     data_area_blocks : Z) : SuperBlock :=
  mkSuperBlock EFS_MAGIC total_blocks inode_bitmap_blocks inode_area_blocks
    data_bitmap_blocks data_area_blocks.

Definition SuperBlock_is_valid (sb : SuperBlock) : bool := magic sb =? EFS_MAGIC.

(** ** Inodes *)
Inductive DiskInodeType : Type := File | Directory.

#[export] Instance DiskInodeType_eq_dec : EqDecision DiskInodeType.
Proof. solve_decision. Defined.

Record DiskInode : Type := mkDiskInode {
  size : Z;
  direct : list Z;
  indirect1 : Z;
  indirect2 : Z;
  type_ : DiskInodeType;
}.

(** [core::mem::size_of::<DiskInode>()]: 31 u32 fields, a one-byte tag and
    three bytes of padding. *)
Definition DISK_INODE_SIZE : Z := 128.

(** The enum's tag; any other byte is not a value of the type. *)
Definition type_of_tag (t : Z) : option DiskInodeType :=
  if t =? 0 then Some File else if t =? 1 then Some Directory else None.
Definition tag_of_type (t : DiskInodeType) : Z :=
  match t with File => 0 | Directory => 1 end.

Definition DiskInode_decode (b : list Z) : option DiskInode :=
  tag ← b !! 124%nat;
  t ← type_of_tag tag;
  Some (mkDiskInode (arr_get 4 b 0) ((λ i, arr_get 4 b (1 + i)) <$> seqZ 0 28)
    (arr_get 4 b 29) (arr_get 4 b 30) t).

(** The bytes of the fields; the padding keeps what [old] has there. *)
Definition DiskInode_encode (ino : DiskInode) (old : list Z) : list Z :=
  splice 0 (concat (le_bytes 4 <$> (size ino :: direct ino ++ [indirect1 ino; indirect2 ino]))
            ++ [tag_of_type (type_ ino)]) old.

Definition set_size (n : Z) (ino : DiskInode) : DiskInode :=
  mkDiskInode n (direct ino) (indirect1 ino) (indirect2 ino) (type_ ino).
Definition set_direct (l : list Z) (ino : DiskInode) : DiskInode :=
  mkDiskInode (size ino) l (indirect1 ino) (indirect2 ino) (type_ ino).
Definition set_indirect1 (x : Z) (ino : DiskInode) : DiskInode :=
  mkDiskInode (size ino) (direct ino) x (indirect2 ino) (type_ ino).
Definition set_indirect2 (x : Z) (ino : DiskInode) : DiskInode :=
  mkDiskInode (size ino) (direct ino) (indirect1 ino) x (type_ ino).

Definition DiskInode_initialize (t : DiskInodeType) (ino : DiskInode) : DiskInode :=
  mkDiskInode 0 ((λ _, 0) <$> direct ino) 0 0 t.

Definition is_dir (ino : DiskInode) : bool := bool_decide (type_ ino = Directory).
Definition is_file (ino : DiskInode) : bool := bool_decide (type_ ino = File).

Definition _data_blocks (size : Z) : Z := (size +u32 BLOCK_SZ -u32 1) / BLOCK_SZ.
Definition data_blocks (ino : DiskInode) : Z := _data_blocks (size ino).

Definition total_blocks (size : Z) : Z :=
  let data_blocks := _data_blocks size in
  let total := data_blocks in
  let total := if INODE_DIRECT_COUNT <? data_blocks then total +u 1 else total in
  let total :=
    if INDIRECT1_BOUND <? data_blocks then
      total +u 1 +u
      (data_blocks -u INDIRECT1_BOUND +u INODE_INDIRECT1_COUNT -u 1) / INODE_INDIRECT1_COUNT
    else total in
  wrap 32 total.

Definition blocks_num_needed (ino : DiskInode) (new_size : Z) : res Z :=
  if size ino <=? new_size then Ok (total_blocks new_size -u32 total_blocks (size ino))
  else Stop Panicked.

(** [indirect_block[i]] of an [IndirectBlock], with its bounds check. *)
Definition indirect_get (b : list Z) (i : Z) : res Z :=
  if i <? INODE_INDIRECT1_COUNT then Ok (arr_get 4 b i) else Stop Panicked.

Definition get_block_id (ino : DiskInode) (inner_id : Z) : prog Z :=
  if inner_id <? INODE_DIRECT_COUNT then
    punwrap (direct ino !! Z.to_nat inner_id)
  else if inner_id <? INDIRECT1_BOUND then
    read (indirect1 ino) 0 BLOCK_SZ (λ indirect_block,
      plift (indirect_get indirect_block (inner_id -u INODE_DIRECT_COUNT)))
  else
    let last := inner_id -u INDIRECT1_BOUND in
    read (indirect2 ino) 0 BLOCK_SZ (λ indirect2,
      plift (indirect_get indirect2 (last / INODE_INDIRECT1_COUNT))) ≫= λ indirect1,
    read indirect1 0 BLOCK_SZ (λ indirect1,
      plift (indirect_get indirect1 (last mod INODE_INDIRECT1_COUNT))).

(** [while cur < lim { x[cur] = new_blocks.next().unwrap(); cur += 1 }]. *)
Fixpoint fill_loop {X} (put : Z → Z → X → X) (fuel : nat) (cur lim : Z) (x : X)
    (new_blocks : list Z) : res (X * Z * list Z) :=
  if cur <? lim then
    match fuel with
    | O => Stop OutOfFuel
    | S fuel =>
        match new_blocks with
        | [] => Stop Panicked
        | v :: new_blocks => fill_loop put fuel (cur +u32 1) lim (put cur v x) new_blocks
        end
    end
  else Ok (x, cur, new_blocks).

Definition put_direct (i v : Z) (l : list Z) : list Z := <[Z.to_nat i := v]> l.
Definition put_indirect (i v : Z) (b : list Z) : list Z := arr_set 4 b i v.

(** The body of the loop of [increase_size] over the doubly indirect block:
    [b] holds the block's bytes, (a0, b0) is the position to fill. *)
Definition fill_step (a0 b0 : Z) (b new_blocks : list Z) : prog (list Z * list Z) :=
  (if b0 =? 0 then
     match new_blocks with
     | [] => Halt Panicked
     | v :: new_blocks =>
         if a0 <? INODE_INDIRECT1_COUNT then Ret (arr_set 4 b a0 v, new_blocks)
         else Halt Panicked
     end
   else Ret (b, new_blocks)) ≫= λ '(b, new_blocks),
  (* fill current *)
  plift (indirect_get b a0) ≫= λ sub,
  modify sub 0 BLOCK_SZ (λ sub_b,
    match new_blocks with
    | [] => Halt Panicked
    | v :: new_blocks => Ret (new_blocks, arr_set 4 sub_b b0 v)
    end) ≫= λ new_blocks,
  Ret (b, new_blocks).

Fixpoint fill_indirect2 (fuel : nat) (a0 b0 a1 b1 : Z) (b : list Z) (new_blocks : list Z) :
    prog (list Z) :=
  if (a0 <? a1) || ((a0 =? a1) && (b0 <? b1)) then
    match fuel with
    | O => Halt OutOfFuel
    | S fuel =>
        fill_step a0 b0 b new_blocks ≫= λ '(b, new_blocks),
        (* move to next *)
        let b0 := b0 +u 1 in
        if b0 =? INODE_INDIRECT1_COUNT
        then fill_indirect2 fuel (a0 +u 1) 0 a1 b1 b new_blocks
        else fill_indirect2 fuel a0 b0 a1 b1 b new_blocks
    end
  else Ret b.

(** The last part of [increase_size]: allocate the doubly indirect block and
    fill it from (a0, b0) to (a1, b1). *)
Definition grow_indirect2 (ino : DiskInode) (current_blocks total_blocks : Z)
    (new_blocks : list Z) : prog DiskInode :=
  (* alloc indirect2 *)
  (if current_blocks =? INODE_INDIRECT1_COUNT then
     match new_blocks with
     | [] => Halt Panicked
     | v :: new_blocks => Ret (set_indirect2 v ino, new_blocks)
     end
   else Ret (ino, new_blocks)) ≫= λ '(ino, new_blocks),
  let current_blocks := current_blocks -u32 INODE_INDIRECT1_COUNT in
  let total_blocks := total_blocks -u32 INODE_INDIRECT1_COUNT in
  (* fill indirect2 from (a0, b0) -> (a1, b1) *)
  let a0 := current_blocks / INODE_INDIRECT1_COUNT in
  let b0 := current_blocks mod INODE_INDIRECT1_COUNT in
  let a1 := total_blocks / INODE_INDIRECT1_COUNT in
  let b1 := total_blocks mod INODE_INDIRECT1_COUNT in
  modify (indirect2 ino) 0 BLOCK_SZ (λ b,
    fill_indirect2 (Z.to_nat (total_blocks - current_blocks)) a0 b0 a1 b1 b new_blocks
      ≫= λ b, Ret ((), b)) ≫= λ _,
  Ret ino.

(** The middle part: allocate and fill the indirect block, and go on. *)
Definition grow_indirect1 (ino : DiskInode) (current_blocks total_blocks : Z)
    (new_blocks : list Z) : prog DiskInode :=
  (* alloc indirect1 *)
  (if current_blocks =? INODE_DIRECT_COUNT then
     match new_blocks with
     | [] => Halt Panicked
     | v :: new_blocks => Ret (set_indirect1 v ino, new_blocks)
     end
   else Ret (ino, new_blocks)) ≫= λ '(ino, new_blocks),
  let current_blocks := current_blocks -u32 INODE_DIRECT_COUNT in
  let total_blocks := total_blocks -u32 INODE_DIRECT_COUNT in
  (* fill indirect1 *)
  modify (indirect1 ino) 0 BLOCK_SZ (λ b,
    plift (fill_loop put_indirect (Z.to_nat INODE_INDIRECT1_COUNT) current_blocks
             (Z.min total_blocks INODE_INDIRECT1_COUNT) b new_blocks)
      ≫= λ '(b, current_blocks, new_blocks), Ret ((current_blocks, new_blocks), b))
    ≫= λ '(current_blocks, new_blocks),
  if INODE_INDIRECT1_COUNT <? total_blocks
  then grow_indirect2 ino current_blocks total_blocks new_blocks
  else Ret ino.

(** [DiskInode::increase_size]; the result is the updated inode. *)
Definition increase_size (ino : DiskInode) (new_size : Z) (new_blocks : list Z) :
    prog DiskInode :=
  let current_blocks := data_blocks ino in
  let ino := set_size new_size ino in
  let total_blocks := data_blocks ino in
  (* fill direct *)
  plift (fill_loop put_direct (Z.to_nat INODE_DIRECT_COUNT) current_blocks
           (Z.min total_blocks INODE_DIRECT_COUNT) (direct ino) new_blocks)
    ≫= λ '(dir, current_blocks, new_blocks),
  let ino := set_direct dir ino in
  if INODE_DIRECT_COUNT <? total_blocks
  then grow_indirect1 ino current_blocks total_blocks new_blocks
  else Ret ino.

(** [while cur < lim { v.push(direct[cur]); direct[cur] = 0; cur += 1 }]. *)
Fixpoint clear_direct (fuel : nat) (cur lim : Z) (dir v : list Z) : res (list Z * list Z) :=
  if cur <? lim then
    match fuel with
    | O => Stop OutOfFuel
    | S fuel =>
        match dir !! Z.to_nat cur with
        | Some x => clear_direct fuel (cur +u 1) lim (<[Z.to_nat cur := 0]> dir) (v ++ [x])
        | None => Stop Panicked
        end
    end
  else Ok (dir, v).

(** [for entry in indirect2.iter_mut().take(a1)]: push the entry and the whole
    block it names. *)
Fixpoint clear_full (entries : list Z) (v : list Z) : prog (list Z) :=
  match entries with
  | [] => Ret v
  | e :: entries =>
      let v := v ++ [e] in
      modify e 0 BLOCK_SZ (λ b, Ret (v ++ arr_list 4 INODE_INDIRECT1_COUNT b, b)) ≫= λ v,
      clear_full entries v
  end.

(** [DiskInode::clear_size]: the block ids to give back, and the inode. *)
Definition clear_size (ino : DiskInode) : prog (list Z * DiskInode) :=
  let data_blocks := data_blocks ino in
  let ino := set_size 0 ino in
  (* direct *)
  plift (clear_direct (Z.to_nat INODE_DIRECT_COUNT) 0 (Z.min data_blocks INODE_DIRECT_COUNT)
           (direct ino) []) ≫= λ '(dir, v),
  let ino := set_direct dir ino in
  (* indirect1 block *)
  if INODE_DIRECT_COUNT <? data_blocks then
    let v := v ++ [indirect1 ino] in
    let data_blocks := data_blocks -u INODE_DIRECT_COUNT in
    (* indirect1 *)
    modify (indirect1 ino) 0 BLOCK_SZ (λ b,
      Ret (v ++ take (Z.to_nat (Z.min data_blocks INODE_INDIRECT1_COUNT))
                  (arr_list 4 INODE_INDIRECT1_COUNT b), b)) ≫= λ v,
    let ino := set_indirect1 0 ino in
    (* indirect2 block *)
    if INODE_INDIRECT1_COUNT <? data_blocks then
      let v := v ++ [indirect2 ino] in
      let data_blocks := data_blocks -u INODE_INDIRECT1_COUNT in
      passert (data_blocks <=? INODE_INDIRECT2_COUNT) ≫= λ _,
      let a1 := data_blocks / INODE_INDIRECT1_COUNT in
      let b1 := data_blocks mod INODE_INDIRECT1_COUNT in
      modify (indirect2 ino) 0 BLOCK_SZ (λ b,
        (* full indirect1 blocks *)
        clear_full (take (Z.to_nat a1) (arr_list 4 INODE_INDIRECT1_COUNT b)) v ≫= λ v,
        (* last indirect1 block *)
        (if 0 <? b1 then
           plift (indirect_get b a1) ≫= λ e,
           let v := v ++ [e] in
           modify e 0 BLOCK_SZ (λ b',
             Ret (v ++ take (Z.to_nat b1) (arr_list 4 INODE_INDIRECT1_COUNT b'), b'))
         else Ret v) ≫= λ v,
        Ret (v, b)) ≫= λ v,
      let ino := set_indirect2 0 ino in
      Ret (v, ino)
    else Ret (v, ino)
  else Ret (v, ino).

(** ** File contents *)

(** [&mut buf[lo..lo+n]], with its bounds check. *)
Definition in_buf (buf : list Z) (lo n : Z) : bool := lo + n <=? Z.of_nat (length buf).

Fixpoint read_loop (fuel : nat) (ino : DiskInode) (start end_ start_block read_size : Z)
    (buf : list Z) : prog (Z * list Z) :=
  match fuel with
  | O => Halt OutOfFuel
  | S fuel =>
      let end_current_block := Z.min ((start / BLOCK_SZ +u 1) *u BLOCK_SZ) end_ in
      let block_read_size := end_current_block -u start in
      passert (in_buf buf read_size block_read_size) ≫= λ _,
      get_block_id ino (wrap 32 start_block) ≫= λ id,
      read id 0 BLOCK_SZ (λ data_block,
        passert (in_buf data_block (start mod BLOCK_SZ) block_read_size) ≫= λ _,
        Ret (splice (Z.to_nat read_size)
              (slice (Z.to_nat (start mod BLOCK_SZ)) (Z.to_nat block_read_size) data_block)
              buf)) ≫= λ buf,
      let read_size := read_size +u block_read_size in
      if end_current_block =? end_ then Ret (read_size, buf)
      else read_loop fuel ino end_current_block end_ (start_block +u 1) read_size buf
  end.

(** [DiskInode::read_at]: the number of bytes read, and the buffer. *)
Definition read_at (ino : DiskInode) (offset : Z) (buf : list Z) : prog (Z * list Z) :=
  let end_ := Z.min (offset +u Z.of_nat (length buf)) (size ino) in
  if end_ <=? offset then Ret (0, buf)
  else read_loop (S (Z.to_nat (end_ - offset))) ino offset end_ (offset / BLOCK_SZ) 0 buf.

Fixpoint write_loop (fuel : nat) (ino : DiskInode) (start end_ start_block write_size : Z)
    (buf : list Z) : prog Z :=
  match fuel with
  | O => Halt OutOfFuel
  | S fuel =>
      let end_current_block := Z.min ((start / BLOCK_SZ +u 1) *u BLOCK_SZ) end_ in
      let block_write_size := end_current_block -u start in
      get_block_id ino (wrap 32 start_block) ≫= λ id,
      modify id 0 BLOCK_SZ (λ data_block,
        passert (in_buf buf write_size block_write_size) ≫= λ _,
        passert (in_buf data_block (start mod BLOCK_SZ) block_write_size) ≫= λ _,
        Ret ((), splice (Z.to_nat (start mod BLOCK_SZ))
                   (slice (Z.to_nat write_size) (Z.to_nat block_write_size) buf)
                   data_block)) ≫= λ _,
      let write_size := write_size +u block_write_size in
      if end_current_block =? end_ then Ret write_size
      else write_loop fuel ino end_current_block end_ (start_block +u 1) write_size buf
  end.

(** [DiskInode::write_at]: the number of bytes written. *)
Definition write_at (ino : DiskInode) (offset : Z) (buf : list Z) : prog Z :=
  let end_ := Z.min (offset +u Z.of_nat (length buf)) (size ino) in
  passert (offset <=? end_) ≫= λ _,
  write_loop (S (Z.to_nat (end_ - offset))) ino offset end_ (offset / BLOCK_SZ) 0 buf.

(** ** Directory entries *)

(** A continuation byte of UTF-8. *)
Definition utf8_cont (b : Z) : bool := (0x80 <=? b) && (b <=? 0xBF).
Definition between (lo b hi : Z) : bool := (lo <=? b) && (b <=? hi).

(** [core::str::from_utf8(s).is_ok()]: the well-formed byte sequences. *)
Fixpoint utf8_valid (s : list Z) : bool :=
  match s with
  | [] => true
  | a :: s1 =>
      if a <? 0x80 then utf8_valid s1 else
      match s1 with
      | [] => false
      | b :: s2 =>
          if between 0xC2 a 0xDF then utf8_cont b && utf8_valid s2 else
          match s2 with
          | [] => false
          | c :: s3 =>
              if a =? 0xE0 then between 0xA0 b 0xBF && utf8_cont c && utf8_valid s3
              else if a =? 0xED then between 0x80 b 0x9F && utf8_cont c && utf8_valid s3
              else if between 0xE1 a 0xEF then utf8_cont b && utf8_cont c && utf8_valid s3
              else
                match s3 with
                | [] => false
                | e :: s4 =>
                    (if a =? 0xF0 then between 0x90 b 0xBF
                     else if a =? 0xF4 then between 0x80 b 0x8F
                     else between 0xF1 a 0xF3 && utf8_cont b) &&
                    utf8_cont c && utf8_cont e && utf8_valid s4
                end
          end
      end
  end.

Record DirEntry : Type := mkDirEntry {
  name_bytes : list Z;
  inode_number : Z;
}.

Definition DirEntry_empty : DirEntry :=
  mkDirEntry (replicate (Z.to_nat (NAME_LENGTH_LIMIT + 1)) 0) 0.

(** A [&str] is the list of its bytes. *)
Definition DirEntry_new (name : list Z) (inode_number : Z) : res DirEntry :=
  let bytes := replicate (Z.to_nat (NAME_LENGTH_LIMIT + 1)) 0 in
  if Z.of_nat (length name) <=? NAME_LENGTH_LIMIT + 1
  then Ok (mkDirEntry (splice 0 name bytes) inode_number)
  else Stop Panicked.

Definition DirEntry_as_bytes (e : DirEntry) : list Z :=
  name_bytes e ++ le_bytes 4 (inode_number e).

(** What the entry is after its bytes were written through [as_bytes_mut]. *)
Definition DirEntry_of_bytes (b : list Z) : DirEntry :=
  mkDirEntry (slice 0 28 b) (le_val (slice 28 4 b)).

(** [DirEntry::name]: the search for the terminator runs off the array, and
    panics, when there is none. *)
Definition DirEntry_name (e : DirEntry) : res (list Z) :=
  match find_index (λ b, b =? 0) (name_bytes e) with
  | Some len =>
      let s := take len (name_bytes e) in
      if utf8_valid s then Ok s else Stop Panicked
  | None => Stop Panicked
  end.
