(* ===== verification/InodeIndex.v ===== *)
(** * InodeIndex: the block index of an inode

    [inode_list d ino n] lists the blocks an inode uses for its first [n] data
    blocks, index blocks included, in the order in which [increase_size] takes
    them and [clear_size] returns them.  [get_block_id] looks data blocks up in
    it, [increase_size] extends it by exactly the blocks it is given, and
    [clear_size] returns it. *)

From stdpp Require Import base gmap list numbers.
From S2P Require Import Prelude Bytes BlockIO Bitmap Layout.

(** ** The index as a list *)

(** An index block as the list of its 128 entries. *)
Definition entries (b : list Z) : list Z := arr_list 4 INODE_INDIRECT1_COUNT b.

(** The part below the doubly indirect block: [subs] are its entries, [n] the
    number of data blocks there. *)
Fixpoint sub_lists (d : gmap Z (list Z)) (subs : list Z) (n : Z) : option (list Z) :=
  if n <=? 0 then Some [] else
  match subs with
  | [] => None
  | x :: subs =>
      b ← d !! x;
      rest ← sub_lists d subs (n - 128);
      Some (x :: take (Z.to_nat n) (entries b) ++ rest)
  end.

Definition inode_list (d : gmap Z (list Z)) (ino : DiskInode) (n : Z) : option (list Z) :=
  if n <=? 28 then Some (take (Z.to_nat n) (direct ino)) else
  b1 ← d !! indirect1 ino;
  if n <=? 156 then
    Some (direct ino ++ indirect1 ino :: take (Z.to_nat (n - 28)) (entries b1))
  else
    b2 ← d !! indirect2 ino;
    subs ← sub_lists d (entries b2) (n - 156);
    Some (direct ino ++ indirect1 ino :: entries b1 ++ indirect2 ino :: subs).

(** Where data block [i] stands in that list. *)
Definition sub_pos (j : Z) : Z := j + j / 128 + 1.
Definition pos (i : Z) : Z :=
  if i <? 28 then i else if i <? 156 then i + 1 else 158 + sub_pos (i - 156).

(** The length of the list. *)
Definition sub_count (n : Z) : Z := n + (n + 127) / 128.
Definition block_count (n : Z) : Z :=
  if n <=? 28 then n else if n <=? 156 then n + 1 else 158 + sub_count (n - 156).

(** The largest number of data blocks an inode can index. *)
Definition MAX_DATA_BLOCKS : Z := INDIRECT2_BOUND.

(** ** Entries *)
Lemma length_entries b : length (entries b) = 128%nat.
Proof. apply length_arr_list. Qed.
#[export] Hint Rewrite length_entries : len.
#[global] Arguments entries : simpl never.

Lemma lookup_entries b i : 0 ≤ i < 128 → entries b !! Z.to_nat i = Some (arr_get 4 b i).
Proof.
  intros Hi. unfold entries. rewrite lookup_arr_list.
  - by rewrite Z2Nat.id by lia.
  - change INODE_INDIRECT1_COUNT with 128. lia.
Qed.

Lemma entry_in b i : length b = Z.to_nat BLOCK_SZ → 0 ≤ i < 128 → arr_in 4 b i.
Proof. intros Hl Hi. apply (arr_in_iff 4 b 128); [by rewrite Hl|done]. Qed.

Lemma entries_set b i v :
  length b = Z.to_nat BLOCK_SZ → 0 ≤ i < 128 → in_u 32 v →
  entries (arr_set 4 b i v) = <[Z.to_nat i := v]> (entries b).
Proof.
  intros Hl Hi Hv. apply list_eq. intros j.
  destruct (decide (j < 128)%nat) as [Hj|Hj].
  - rewrite <- (Nat2Z.id j), lookup_entries by lia.
    destruct (decide (Z.of_nat j = i)) as [->|Hne].
    + rewrite list_lookup_insert_eq by (rewrite length_entries; lia).
      f_equal. by apply arr_get_set_eq; [apply entry_in|].
    + rewrite list_lookup_insert_ne by lia. rewrite lookup_entries by lia.
      f_equal. apply arr_get_set_ne; [by apply entry_in|lia|done].
  - rewrite !lookup_ge_None_2; [done|len..].
Qed.

(** ** The list below the doubly indirect block *)
Lemma sub_lists_0 d subs n : n ≤ 0 → sub_lists d subs n = Some [].
Proof. intros H. destruct subs; simpl; by destruct (Z.leb_spec n 0); [|lia]. Qed.

Lemma sub_lists_cons d x subs n l :
  0 < n →
  sub_lists d (x :: subs) n = Some l ↔
  ∃ b rest, d !! x = Some b ∧ sub_lists d subs (n - 128) = Some rest ∧
    l = x :: take (Z.to_nat n) (entries b) ++ rest.
Proof.
  intros Hn. simpl. destruct (Z.leb_spec n 0); [lia|].
  destruct (d !! x) as [b|]; simpl.
  - destruct (sub_lists d subs (n - 128)) as [r|]; simpl; naive_solver.
  - naive_solver.
Qed.

Lemma sub_lists_nil d n l : sub_lists d [] n = Some l → n ≤ 0 ∧ l = [].
Proof. simpl. destruct (Z.leb_spec n 0); naive_solver. Qed.

Lemma sub_count_step n : 128 < n → sub_count n = 129 + sub_count (n - 128).
Proof.
  intros H. unfold sub_count. replace (n + 127) with (n - 128 + 127 + 1 * 128) by lia.
  rewrite Z.div_add by lia. lia.
Qed.

Lemma sub_count_first n : 0 < n ≤ 128 → sub_count n = n + 1.
Proof.
  intros H. unfold sub_count. f_equal.
  symmetry. apply (Z.div_unique_pos _ _ _ (n - 1)); lia.
Qed.

Lemma length_sub_lists d subs n l :
  sub_lists d subs n = Some l → 0 ≤ n → Z.of_nat (length l) = sub_count n.
Proof.
  revert n l. induction subs as [|x subs IH]; intros n l Hl Hn.
  { apply sub_lists_nil in Hl as [? ->]. by replace n with 0 by lia. }
  destruct (decide (n = 0)) as [->|Hne].
  { rewrite sub_lists_0 in Hl by lia. injection Hl as <-. done. }
  apply sub_lists_cons in Hl as (b & rest & Hb & Hrest & ->); [|lia].
  destruct (decide (n ≤ 128)).
  - rewrite sub_lists_0 in Hrest by lia. injection Hrest as <-.
    rewrite sub_count_first by lia. len.
  - apply IH in Hrest; [|lia]. rewrite sub_count_step by lia. len.
Qed.

Lemma sub_pos_step j : 128 ≤ j → sub_pos j = 129 + sub_pos (j - 128).
Proof.
  intros H. unfold sub_pos. replace (j / 128) with ((j - 128 + 1 * 128) / 128) by (f_equal; lia).
  rewrite Z.div_add by lia. lia.
Qed.

Lemma sub_pos_first j : 0 ≤ j < 128 → sub_pos j = j + 1.
Proof. intros H. unfold sub_pos. rewrite Z.div_small by lia. lia. Qed.

(** Data block [j] below the doubly indirect block: its index block is entry
    [j / 128], and its own id entry [j mod 128] there. *)
Lemma sub_lists_lookup d subs n l j :
  sub_lists d subs n = Some l → 0 ≤ j < n →
  ∃ x b, subs !! Z.to_nat (j / 128) = Some x ∧ d !! x = Some b ∧ x ∈ l ∧
    l !! Z.to_nat (sub_pos j) = Some (arr_get 4 b (j mod 128)).
Proof.
  revert n l j. induction subs as [|x subs IH]; intros n l j Hl Hj.
  { apply sub_lists_nil in Hl as [? _]. lia. }
  apply sub_lists_cons in Hl as (b & rest & Hb & Hrest & ->); [|lia].
  destruct (decide (j < 128)) as [Hlt|Hge].
  - exists x, b. rewrite Z.div_small, Z.mod_small by lia. split_and!; [done..|set_solver|].
    rewrite sub_pos_first by lia. replace (Z.to_nat (j + 1)) with (S (Z.to_nat j)) by lia.
    rewrite lookup_S_cons. rewrite lookup_app_l by len.
    rewrite lookup_take_lt by lia. apply lookup_entries. lia.
  - destruct (IH _ _ (j - 128) Hrest) as (y & c & Hy & Hc & Hin & Hlk); [lia|].
    exists y, c. rewrite sub_pos_step by lia.
    assert (j / 128 = 1 + (j - 128) / 128) as ->.
    { replace j with (j - 128 + 1 * 128) at 1 by lia. rewrite Z.div_add by lia. lia. }
    assert (j mod 128 = (j - 128) mod 128) as ->.
    { replace j with (j - 128 + 1 * 128) at 1 by lia. by rewrite Z.mod_add by lia. }
    assert (0 ≤ (j - 128) / 128) by (apply Z.div_pos; lia).
    rewrite Z2Nat.inj_add by lia. split_and!; [done..|set_solver|].
    rewrite <- Hlk. replace (Z.to_nat (129 + sub_pos (j - 128)))
      with (S (128 + Z.to_nat (sub_pos (j - 128)))) by (unfold sub_pos in *; lia).
    rewrite lookup_S_cons. rewrite lookup_app_r by len. f_equal. len.
Qed.

(** Changing blocks the list does not mention does not change the list. *)
Lemma sub_lists_frame d d' subs n l :
  sub_lists d subs n = Some l → (∀ x, x ∈ l → d' !! x = d !! x) →
  sub_lists d' subs n = Some l.
Proof.
  revert n l. induction subs as [|x subs IH]; intros n l Hl Hd; [done|].
  destruct (decide (n ≤ 0)) as [|Hn]; [by rewrite sub_lists_0 in *|].
  apply sub_lists_cons in Hl as (b & rest & Hb & Hrest & ->); [|lia].
  apply sub_lists_cons; [lia|]. exists b, rest. split_and!; [|apply IH; [done|]|done].
  - rewrite Hd; [done|elt].
  - intros y Hy. apply Hd. elt.
Qed.

(** One more data block in the index block that is being filled. *)
Lemma sub_lists_extend d (a0 : nat) b0 subs x bx y l :
  sub_lists d subs (128 * Z.of_nat a0 + b0) = Some l → NoDup l → 0 < b0 < 128 →
  subs !! a0 = Some x → d !! x = Some bx → length bx = Z.to_nat BLOCK_SZ → in_u 32 y →
  sub_lists (<[x := arr_set 4 bx b0 y]> d) subs (128 * Z.of_nat a0 + b0 + 1) = Some (l ++ [y]) ∧
  l !! (129 * a0)%nat = Some x.
Proof.
  revert subs l. induction a0 as [|a0 IH]; intros subs l Hl Hnd Hb0 Hx Hbx Hlen Hy;
    (destruct subs as [|s subs]; [done|]);
    apply sub_lists_cons in Hl as (b & rest & Hb & Hrest & ->); try lia;
    rewrite sub_lists_cons by lia.
  - injection Hx as ->. rewrite Hbx in Hb. injection Hb as <-.
    rewrite sub_lists_0 in Hrest by lia. injection Hrest as <-. split; [|done].
    eexists _, []. rewrite lookup_insert_eq, sub_lists_0 by lia.
    split_and!; [done..|]. rewrite entries_set by (done || lia).
    rewrite !app_nil_r. cbn [app]. f_equal.
    replace (Z.to_nat (128 * Z.of_nat 0 + b0 + 1)) with (S (Z.to_nat b0)) by lia.
    erewrite take_S_r; [|apply list_lookup_insert_eq; len].
    rewrite take_insert_ge by lia. done.
  - assert (rest !! (129 * a0)%nat = Some x) as Hxr.
    { apply (IH subs rest); try done; [by replace (128 * Z.of_nat a0 + b0)
        with (128 * Z.of_nat (S a0) + b0 - 128) by lia|].
      apply list.NoDup_cons in Hnd as [_ [_ [_ Hnd]]%list.NoDup_app]. done. }
    assert (x ≠ s) as Hne.
    { intros ->. apply list.NoDup_cons in Hnd as [Hs _]. apply Hs, elem_of_app. right.
      by eapply list_elem_of_lookup_2. }
    split.
    2:{ replace (129 * S a0)%nat with (S (128 + 129 * a0)) by lia. rewrite lookup_S_cons.
      rewrite take_ge by (rewrite length_entries; lia).
      rewrite lookup_app_r; rewrite length_entries; [|lia].
      by replace (128 + 129 * a0 - 128)%nat with (129 * a0)%nat by lia. }
    exists b, (rest ++ [y]). rewrite lookup_insert_ne by done. split_and!; [done| |].
    + replace (128 * Z.of_nat (S a0) + b0 + 1 - 128) with (128 * Z.of_nat a0 + b0 + 1) by lia.
      apply IH; try done; [by replace (128 * Z.of_nat a0 + b0)
        with (128 * Z.of_nat (S a0) + b0 - 128) by lia|].
      by apply list.NoDup_cons in Hnd as [_ [_ [_ Hnd]]%list.NoDup_app].
    + cbn [app]. f_equal. rewrite <- app_assoc. f_equal. rewrite !take_ge by len. done.
Qed.

(** The first data block of a new index block [x]. *)
Lemma sub_lists_extend_new d (a0 : nat) subs x bx y l :
  sub_lists d subs (128 * Z.of_nat a0) = Some l → x ∉ l →
  (a0 < length subs)%nat → d !! x = Some bx → length bx = Z.to_nat BLOCK_SZ → in_u 32 y →
  sub_lists (<[x := arr_set 4 bx 0 y]> d) (<[a0 := x]> subs) (128 * Z.of_nat a0 + 1)
    = Some (l ++ [x; y]).
Proof.
  revert subs l. induction a0 as [|a0 IH]; intros subs l Hl Hx Ha0 Hbx Hlen Hy;
    (destruct subs as [|s subs]; [simpl in Ha0; lia|]).
  - rewrite sub_lists_0 in Hl by lia. injection Hl as <-.
    cbn [insert list_insert app]. rewrite sub_lists_cons by lia.
    eexists _, []. rewrite lookup_insert_eq, sub_lists_0 by lia. split_and!; [done..|].
    rewrite entries_set by (done || lia). rewrite app_nil_r. done.
  - apply sub_lists_cons in Hl as (b & rest & Hb & Hrest & ->); [|lia].
    cbn [insert list_insert]. rewrite sub_lists_cons by lia.
    exists b, (rest ++ [x; y]).
    rewrite lookup_insert_ne by set_solver. split_and!; [done| |].
    + replace (128 * Z.of_nat (S a0) + 1 - 128) with (128 * Z.of_nat a0 + 1) by lia.
      apply IH; try done; [|set_solver|simpl in Ha0; lia].
      by replace (128 * Z.of_nat a0) with (128 * Z.of_nat (S a0) - 128) by lia.
    + cbn [app]. f_equal. rewrite <- app_assoc. f_equal. rewrite !take_ge by len. done.
Qed.

(** ** The whole list *)
Definition inode_ok (ino : DiskInode) : Prop := length (direct ino) = 28%nat.

Lemma inode_list_small d ino n :
  n ≤ 28 → inode_list d ino n = Some (take (Z.to_nat n) (direct ino)).
Proof. intros H. unfold inode_list. by destruct (Z.leb_spec n 28); [|lia]. Qed.

Lemma inode_list_mid d ino n l :
  28 < n ≤ 156 →
  inode_list d ino n = Some l ↔
  ∃ b1, d !! indirect1 ino = Some b1 ∧
    l = direct ino ++ indirect1 ino :: take (Z.to_nat (n - 28)) (entries b1).
Proof.
  intros H. unfold inode_list. destruct (Z.leb_spec n 28); [lia|].
  destruct (Z.leb_spec n 156); [|lia]. split.
  - intros (b1 & Hb1 & [= <-])%bind_Some. by exists b1.
  - intros (b1 & Hb1 & ->). by rewrite Hb1.
Qed.

Lemma inode_list_big d ino n l :
  156 < n →
  inode_list d ino n = Some l ↔
  ∃ b1 b2 subs, d !! indirect1 ino = Some b1 ∧ d !! indirect2 ino = Some b2 ∧
    sub_lists d (entries b2) (n - 156) = Some subs ∧
    l = direct ino ++ indirect1 ino :: entries b1 ++ indirect2 ino :: subs.
Proof.
  intros H. unfold inode_list. destruct (Z.leb_spec n 28); [lia|].
  destruct (Z.leb_spec n 156); [lia|].
  split.
  - intros (b1 & Hb1 & (b2 & Hb2 & (subs & Hs & [= <-])%bind_Some)%bind_Some)%bind_Some.
    by exists b1, b2, subs.
  - intros (b1 & b2 & subs & Hb1 & Hb2 & Hs & ->). rewrite Hb1, Hb2.
    cbn [mbind option_bind]. by rewrite Hs.
Qed.

Lemma length_inode_list d ino n l :
  inode_ok ino → 0 ≤ n → inode_list d ino n = Some l → Z.of_nat (length l) = block_count n.
Proof.
  unfold inode_ok, block_count. intros Hok Hn Hl.
  destruct (Z.leb_spec n 28).
  { rewrite inode_list_small in Hl by lia. injection Hl as <-. len. }
  destruct (Z.leb_spec n 156).
  - apply inode_list_mid in Hl as (b1 & _ & ->); [|lia]. len.
  - apply inode_list_big in Hl as (b1 & b2 & subs & _ & _ & Hs & ->); [|lia].
    apply length_sub_lists in Hs; [|lia]. len.
Qed.

(** [pos] is an injection of data-block numbers into the list. *)
Lemma pos_lt i j : 0 ≤ i < j → 0 ≤ pos i < pos j.
Proof.
  intros H. unfold pos, sub_pos.
  destruct (Z.ltb_spec i 28), (Z.ltb_spec j 28), (Z.ltb_spec i 156), (Z.ltb_spec j 156); try lia.
  all: assert (0 ≤ (j - 156) / 128) by (apply Z.div_pos; lia).
  all: try lia.
  assert (0 ≤ (i - 156) / 128) by (apply Z.div_pos; lia).
  assert ((i - 156) / 128 ≤ (j - 156) / 128) by (apply Z.div_le_mono; lia). lia.
Qed.

Lemma pos_inj i j : 0 ≤ i → 0 ≤ j → pos i = pos j → i = j.
Proof.
  intros Hi Hj Heq. destruct (Z.lt_trichotomy i j) as [H|[H|H]]; [|done|].
  - pose proof (pos_lt i j). lia.
  - pose proof (pos_lt j i). lia.
Qed.

Lemma inode_list_frame d d' ino n l :
  inode_list d ino n = Some l → (∀ x, x ∈ l → d' !! x = d !! x) →
  inode_list d' ino n = Some l.
Proof.
  intros Hl Hd. destruct (decide (n ≤ 28)); [by rewrite inode_list_small in *|].
  destruct (decide (n ≤ 156)).
  - apply inode_list_mid in Hl as (b1 & Hb1 & ->); [|lia]. apply inode_list_mid; [lia|].
    exists b1. rewrite Hd; [done|elt].
  - apply inode_list_big in Hl as (b1 & b2 & subs & Hb1 & Hb2 & Hs & ->); [|lia].
    apply inode_list_big; [lia|]. exists b1, b2, subs.
    rewrite (Hd (indirect1 ino)), (Hd (indirect2 ino)) by elt.
    split_and!; [done..| |done].
    eapply sub_lists_frame; [done|]. intros x Hx. apply Hd. elt.
Qed.

(** The header fields other than the index do not matter. *)
Lemma inode_list_eq d ino ino' n :
  direct ino' = direct ino → indirect1 ino' = indirect1 ino →
  indirect2 ino' = indirect2 ino → inode_list d ino' n = inode_list d ino n.
Proof. intros H1 H2 H3. unfold inode_list. by rewrite H1, H2, H3. Qed.

(** ** Lookup *)

(** [get_block_id] returns the entry of the list that [pos] points at, and
    changes nothing. *)
Lemma get_block_id_list d ino n l i h :
  inode_ok ino → inode_list d ino n = Some l → n ≤ MAX_DATA_BLOCKS → 0 ≤ i < n →
  (∀ x, x ∈ l → lockable x h ∧ block_ok d x) →
  ∃ x, l !! Z.to_nat (pos i) = Some x ∧ runs (get_block_id ino i) h d x d.
Proof.
  unfold inode_ok, MAX_DATA_BLOCKS. change INDIRECT2_BOUND with 16540.
  intros Hok Hl Hn Hi Hlk. unfold get_block_id, pos.
  change INODE_DIRECT_COUNT with 28. change INDIRECT1_BOUND with 156.
  change INODE_INDIRECT1_COUNT with 128.
  destruct (Z.ltb_spec i 28) as [H28|H28].
  { destruct (lookup_lt_is_Some_2 (direct ino) (Z.to_nat i)) as [x Hx]; [lia|].
    exists x. rewrite Hx. split; [|done]. destruct (decide (n ≤ 28)).
    - rewrite inode_list_small in Hl by lia. injection Hl as <-.
      by rewrite lookup_take_lt by lia.
    - destruct (decide (n ≤ 156)).
      + apply inode_list_mid in Hl as (b1 & _ & ->); [|lia]. by rewrite lookup_app_l by lia.
      + apply inode_list_big in Hl as (b1 & b2 & subs & _ & _ & _ & ->); [|lia].
        by rewrite lookup_app_l by lia. }
  destruct (Z.ltb_spec i 156) as [H156|H156].
  { assert (∃ b1 rest, d !! indirect1 ino = Some b1 ∧
      l = direct ino ++ indirect1 ino :: take (Z.to_nat (n - 28)) (entries b1) ++ rest)
      as (b1 & rest & Hb1 & ->).
    { destruct (decide (n ≤ 156)).
      - apply inode_list_mid in Hl as (b1 & ? & ->); [|lia]. exists b1, [].
        by rewrite app_nil_r.
      - apply inode_list_big in Hl as (b1 & b2 & subs & ? & _ & _ & ->); [|lia].
        exists b1, (indirect2 ino :: subs). by rewrite take_ge by len. }
    exists (arr_get 4 b1 (i - 28)). split.
    - rewrite lookup_app_r by lia.
      replace (Z.to_nat (i + 1) - length (direct ino))%nat with (S (Z.to_nat (i - 28))) by lia.
      rewrite lookup_S_cons, lookup_app_l by len. rewrite lookup_take_lt by lia.
      apply lookup_entries. lia.
    - destruct (Hlk (indirect1 ino)) as [Hlk1 (b & Hb & Hlen & _)]; [elt|].
      rewrite Hb1 in Hb. injection Hb as <-. eapply runs_read_block; [done..|].
      assert (i -u 28 = i - 28) as -> by mach. unfold indirect_get.
      change INODE_INDIRECT1_COUNT with 128. by destruct (Z.ltb_spec (i - 28) 128); [|lia]. }
  apply inode_list_big in Hl as (b1 & b2 & subs & Hb1 & Hb2 & Hs & ->); [|lia].
  destruct (sub_lists_lookup _ _ _ _ (i - 156) Hs) as (x & b & Hx & Hb & Hin & Hlook); [lia|].
  exists (arr_get 4 b ((i - 156) mod 128)). split.
  { assert (0 ≤ (i - 156) / 128) as Hq by (apply Z.div_pos; lia).
    erewrite lookup_app_cons; [erewrite lookup_app_cons; [exact Hlook|]|].
    - reflexivity.
    - rewrite length_entries. unfold sub_pos in *. lia. }
  assert (i -u 156 = i - 156) as -> by mach.
  assert (0 ≤ (i - 156) / 128 < 128) as Hq by (split; [apply Z.div_pos; lia|apply Z.div_lt_upper_bound; lia]).
  rewrite lookup_entries in Hx by done. injection Hx as Hx.
  destruct (Hlk (indirect2 ino)) as [Hlk2 (c & Hc & Hlc & _)]; [elt|].
  rewrite Hb2 in Hc. injection Hc as <-.
  destruct (Hlk x) as [Hlkx (c & Hc & Hlx & _)]; [elt|].
  rewrite Hb in Hc. injection Hc as <-.
  eapply runs_bind.
  - eapply runs_read_block; [done..|]. unfold indirect_get.
    change INODE_INDIRECT1_COUNT with 128. destruct (Z.ltb_spec ((i - 156) / 128) 128); [|lia].
    rewrite Hx. apply runs_ret.
  - eapply runs_read_block; [done..|]. unfold indirect_get.
    change INODE_INDIRECT1_COUNT with 128.
    pose proof (Z.mod_pos_bound (i - 156) 128).
    destruct (Z.ltb_spec ((i - 156) mod 128) 128); [apply runs_ret|lia].
Qed.


(** ** Growth *)

(** The blocks of [L] are distinct, exist, and the thread can lock them. *)
Record fresh_blocks (d : gmap Z (list Z)) (h L : list Z) : Prop := {
  fb_nodup : NoDup L;
  fb_lock x : x ∈ L → lockable x h;
  fb_block x : x ∈ L → block_ok d x;
}.

Lemma lockable_cons x y h :
  lockable x h → x ≠ y → Z.of_nat (length h) < BLOCK_CACHE_SIZE - 1 → lockable x (y :: h).
Proof.
  unfold lockable. intros (H1 & H2 & H3) Hne Hl. cbn [length].
  split_and!; [done| |lia]. rewrite elem_of_cons. tauto.
Qed.

Lemma block_ok_insert d x b y :
  length b = Z.to_nat BLOCK_SZ → Forall is_byte b → block_ok d y → block_ok (<[x := b]> d) y.
Proof.
  intros Hl Hb Hy. destruct (decide (x = y)) as [->|Hne].
  - exists b. by rewrite lookup_insert_eq.
  - destruct Hy as (c & ? & ?). exists c. by rewrite lookup_insert_ne.
Qed.

Lemma fresh_blocks_insert d h L x b :
  length b = Z.to_nat BLOCK_SZ → Forall is_byte b →
  fresh_blocks d h L → fresh_blocks (<[x := b]> d) h L.
Proof.
  intros Hl Hb [H1 H2 H3]. split; [done..|]. intros y Hy. apply block_ok_insert; auto.
Qed.

Lemma fresh_blocks_u32 d h L x : fresh_blocks d h L → x ∈ L → in_u 32 x.
Proof. intros H Hx. by destruct (fb_lock _ _ _ H x Hx). Qed.

(** [fill_loop] on anything that looks like an array of block ids. *)
Lemma fill_loop_spec {X} (put : Z → Z → X → X) (view : X → list Z) (good : X → Prop) :
  (∀ i v x, good x → 0 ≤ i < Z.of_nat (length (view x)) → in_u 32 v →
     good (put i v x) ∧ view (put i v x) = <[Z.to_nat i := v]> (view x)) →
  ∀ fuel cur lim x nb,
  good x → 0 ≤ cur → lim ≤ Z.of_nat (length (view x)) → lim < 2 ^ 32 →
  (Z.to_nat (lim - cur) ≤ fuel)%nat → (Z.to_nat (lim - cur) ≤ length nb)%nat →
  Forall (in_u 32) nb →
  ∃ x', fill_loop put fuel cur lim x nb
          = Ok (x', Z.max cur lim, drop (Z.to_nat (lim - cur)) nb) ∧ good x' ∧
        view x' = splice (Z.to_nat cur) (take (Z.to_nat (lim - cur)) nb) (view x).
Proof.
  intros Hput fuel. induction fuel as [|fuel IH]; intros cur lim x nb Hg Hc Hl H32 Hf Hnb Hu.
  all: cbn [fill_loop]; destruct (Z.ltb_spec cur lim) as [Hlt|Hge]; try lia.
  2: destruct nb as [|v nb]; [simpl in Hnb; lia|].
  2: { apply list.Forall_cons in Hu as [Hv Hu]. destruct (Hput cur v x) as [Hg' Hv']; [done|lia|done|].
    assert (cur +u32 1 = cur + 1) as -> by mach.
    destruct (IH (cur + 1) lim (put cur v x) nb) as (x' & -> & Hgx & Hx');
      [done|lia|rewrite Hv', length_insert; lia|done|lia|simpl in Hnb; lia|done|].
    exists x'. replace (Z.to_nat (lim - cur)) with (S (Z.to_nat (lim - (cur + 1)))) by lia.
    replace (Z.max (cur + 1) lim) with (Z.max cur lim) by lia. split_and!; [done..|].
    rewrite Hx', Hv'. replace (Z.to_nat (cur + 1)) with (S (Z.to_nat cur)) by lia.
    apply splice_insert. lia. }
  all: exists x; replace (Z.to_nat (lim - cur)) with O by lia.
  all: rewrite Z.max_l by lia; split_and!; [done..|].
  all: unfold splice; simpl; by rewrite Nat.add_0_r, take_drop.
Qed.

Lemma sub_count_at a0 b0 :
  0 ≤ b0 < 128 → sub_count (128 * a0 + b0) = 129 * a0 + b0 + (if b0 =? 0 then 0 else 1).
Proof.
  intros H. unfold sub_count.
  replace (128 * a0 + b0 + 127) with (b0 + 127 + a0 * 128) by lia. rewrite Z.div_add by lia.
  destruct (Z.eqb_spec b0 0) as [->|Hne]; [rewrite Z.div_small by lia; lia|].
  replace (b0 + 127) with (b0 - 1 + 1 * 128) by lia. rewrite Z.div_add, Z.div_small by lia. lia.
Qed.

(** The two disks differ at most in the blocks of [L] at the positions [idx],
    the index blocks. *)
Record only_index (idx : nat → Prop) (L : list Z) (d d' : gmap Z (list Z)) : Prop := {
  oi_frame x : d' !! x = d !! x ∨ ∃ p, L !! p = Some x ∧ idx p;
  oi_ok x : block_ok d x → block_ok d' x;
}.

Lemma only_index_refl idx L d : only_index idx L d d.
Proof. split; [by left|done]. Qed.

Lemma only_index_out idx L d d' x : only_index idx L d d' → x ∉ L → d' !! x = d !! x.
Proof.
  intros Hoi Hx. destruct (oi_frame _ _ _ _ Hoi x) as [|(p & Hp & _)]; [done|].
  by apply list_elem_of_lookup_2 in Hp.
Qed.

Lemma only_index_trans (idx1 idx2 : nat → Prop) L1 L2 d1 d2 d3 :
  (∀ p x, L1 !! p = Some x → idx1 p → ∃ q, L2 !! q = Some x ∧ idx2 q) →
  only_index idx1 L1 d1 d2 → only_index idx2 L2 d2 d3 → only_index idx2 L2 d1 d3.
Proof.
  intros Hsub [H1 K1] [H2 K2]. split; [|by auto]. intros x.
  destruct (H2 x) as [->|?]; [|by right]. destruct (H1 x) as [->|(p & Hp & Hi)]; [by left|].
  right. eauto.
Qed.

Definition sub_idx (p : nat) : Prop := ∃ q, p = (129 * q)%nat.

Lemma only_index_insert (idx : nat → Prop) L d x b p :
  L !! p = Some x → idx p → length b = Z.to_nat BLOCK_SZ → Forall is_byte b →
  only_index idx L d (<[x := b]> d).
Proof.
  intros Hp Hi Hl Hb. split; [|intros z; by apply block_ok_insert].
  intros z. destruct (decide (z = x)) as [->|Hzx]; [right; eauto|].
  left. by rewrite lookup_insert_ne.
Qed.

Lemma indirect_get_ok b (i : Z) : i < 128 → indirect_get b i = Ok (arr_get 4 b i).
Proof.
  intros H. unfold indirect_get. change INODE_INDIRECT1_COUNT with 128.
  by destruct (Z.ltb_spec i 128); [|lia].
Qed.

(** What one step of the loop achieves at position 128 * a0 + b0. *)
Definition fill_step_ok d h b (a0 : nat) b0 s nb : Prop :=
  ∃ nb1 nb2 b' d', nb = nb1 ++ nb2 ∧
    runs (fill_step (Z.of_nat a0) b0 b nb) h d (b', nb2) d' ∧
    length b' = Z.to_nat BLOCK_SZ ∧ Forall is_byte b' ∧
    sub_lists d' (entries b') (128 * Z.of_nat a0 + b0 + 1) = Some (s ++ nb1) ∧
    only_index sub_idx (s ++ nb1) d d'.

(** A new index block and its first entry. *)
Lemma fill_step_new d h b (a0 : nat) s x y nb :
  sub_lists d (entries b) (128 * Z.of_nat a0) = Some s → (a0 < 128)%nat →
  length b = Z.to_nat BLOCK_SZ → Forall is_byte b → fresh_blocks d h (s ++ x :: y :: nb) →
  fill_step_ok d h b a0 0 s (x :: y :: nb).
Proof.
  intros Hs Ha0 Hlb Hbb Hfb.
  assert (x ∈ s ++ x :: y :: nb) as Hx by elt. assert (y ∈ s ++ x :: y :: nb) as Hy by elt.
  pose proof (length_sub_lists _ _ _ _ Hs ltac:(lia)) as Hls.
  rewrite <- (Z.add_0_r (128 * _)), sub_count_at in Hls by done. change (0 =? 0) with true in Hls.
  destruct (fb_block _ _ _ Hfb x Hx) as (bx & Hbx & Hlx & Hxx).
  assert (arr_in 4 b (Z.of_nat a0)) as Hin by (apply entry_in; [done|lia]).
  assert (arr_in 4 bx 0) as Hinx by (apply entry_in; [done|lia]).
  assert (in_u 32 x) as Hux by (by apply fresh_blocks_u32 with d h (s ++ x :: y :: nb)).
  exists [x; y], nb, (arr_set 4 b (Z.of_nat a0) x), (<[x := arr_set 4 bx 0 y]> d).
  rewrite length_arr_set, entries_set by (done || lia).
  split_and!; [done| |done|by apply arr_set_bytes| |].
  - unfold fill_step. change INODE_INDIRECT1_COUNT with 128. change (0 =? 0) with true.
    destruct (Z.ltb_spec (Z.of_nat a0) 128); [|lia].
    eapply runs_bind; [apply runs_ret|]. cbn beta iota.
    rewrite indirect_get_ok, arr_get_set_eq by (done || lia).
    eapply runs_bind; [apply runs_ret|]. eapply runs_bind; [|apply runs_ret].
    eapply runs_modify_block_pure; [by apply (fb_lock _ _ _ Hfb)|done..|].
    by rewrite length_arr_set.
  - rewrite Z.add_0_r, Nat2Z.id. apply sub_lists_extend_new; try done.
    + pose proof (fb_nodup _ _ _ Hfb) as (_ & Hd & _)%list.NoDup_app.
      intros Hin'. apply (Hd x Hin'). elt.
    + by apply fresh_blocks_u32 with d h (s ++ x :: y :: nb).
  - apply only_index_insert with (129 * a0)%nat;
      [|by exists a0|by rewrite length_arr_set|by apply arr_set_bytes].
    rewrite lookup_app_r by lia. by replace (129 * a0 - length s)%nat with O by lia.
Qed.

(** One more entry of the index block being filled. *)
Lemma fill_step_old d h b (a0 : nat) b0 s y nb :
  sub_lists d (entries b) (128 * Z.of_nat a0 + b0) = Some s → 0 < b0 < 128 → (a0 < 128)%nat →
  length b = Z.to_nat BLOCK_SZ → Forall is_byte b → fresh_blocks d h (s ++ y :: nb) →
  fill_step_ok d h b a0 b0 s (y :: nb).
Proof.
  intros Hs Hb0 Ha0 Hlb Hbb Hfb.
  destruct (lookup_lt_is_Some_2 (entries b) a0) as [x Hx]; [rewrite length_entries; lia|].
  assert (∃ bx, d !! x = Some bx ∧ x ∈ s) as (bx & Hbx & Hxs).
  { destruct (sub_lists_lookup _ _ _ _ (128 * Z.of_nat a0) Hs) as (x' & c & Hx' & Hc & Hin & _);
      [lia|]. rewrite Z.mul_comm, Z.div_mul, Nat2Z.id in Hx' by lia.
    rewrite Hx in Hx'. injection Hx' as <-. eauto. }
  assert (x ∈ s ++ y :: nb) as Hx' by elt.
  destruct (fb_block _ _ _ Hfb x Hx') as (c & Hc & Hlx & Hxx).
  rewrite Hbx in Hc. injection Hc as <-.
  assert (arr_in 4 bx b0) as Hinx by (apply entry_in; [done|lia]).
  destruct (sub_lists_extend d a0 b0 (entries b) x bx y s) as [Hext Hpos]; try done.
  { by pose proof (fb_nodup _ _ _ Hfb) as (? & _ & _)%list.NoDup_app. }
  { apply fresh_blocks_u32 with d h (s ++ y :: nb); [done|elt]. }
  exists [y], nb, b, (<[x := arr_set 4 bx b0 y]> d).
  split_and!; [done| |done..|].
  - unfold fill_step. destruct (Z.eqb_spec b0 0); [lia|].
    eapply runs_bind; [apply runs_ret|]. cbn beta iota. rewrite indirect_get_ok by lia.
    rewrite <- (Nat2Z.id a0), lookup_entries in Hx by lia. injection Hx as ->.
    eapply runs_bind; [apply runs_ret|]. eapply runs_bind; [|apply runs_ret].
    eapply runs_modify_block_pure; [by apply (fb_lock _ _ _ Hfb)|done..|].
    by rewrite length_arr_set.
  - apply only_index_insert with (129 * a0)%nat;
      [by apply lookup_app_l_Some|by exists a0|by rewrite length_arr_set|by apply arr_set_bytes].
Qed.

Lemma fresh_blocks_mono d d' h L :
  (∀ x, block_ok d x → block_ok d' x) → fresh_blocks d h L → fresh_blocks d' h L.
Proof. intros H [H1 H2 H3]. split; auto. Qed.

Lemma fill_step_spec d h b (a0 : nat) b0 a1 b1 s nb :
  sub_lists d (entries b) (128 * Z.of_nat a0 + b0) = Some s → 0 ≤ b0 < 128 → 0 ≤ b1 < 128 →
  128 * Z.of_nat a0 + b0 < 128 * a1 + b1 ≤ 16384 →
  Z.of_nat (length nb) = sub_count (128 * a1 + b1) - sub_count (128 * Z.of_nat a0 + b0) →
  length b = Z.to_nat BLOCK_SZ → Forall is_byte b → fresh_blocks d h (s ++ nb) →
  fill_step_ok d h b a0 b0 s nb.
Proof.
  intros Hs Hb0 Hb1 Hlt Hnb Hlb Hbb Hfb. rewrite !sub_count_at in Hnb by done.
  destruct (Z.eqb_spec b0 0) as [->|Hne].
  - destruct nb as [|x [|y nb]]; [destruct (b1 =? 0) eqn:?; simpl in Hnb; lia..|].
    rewrite Z.add_0_r in Hs. apply fill_step_new; try done. lia.
  - destruct nb as [|y nb]; [destruct (b1 =? 0) eqn:?; simpl in Hnb; lia|].
    apply fill_step_old; try done; lia.
Qed.

Lemma only_index_sub_app s nb1 nb2 d1 d2 d3 :
  only_index sub_idx (s ++ nb1) d1 d2 → only_index sub_idx ((s ++ nb1) ++ nb2) d2 d3 →
  only_index sub_idx ((s ++ nb1) ++ nb2) d1 d3.
Proof.
  apply only_index_trans. intros p x Hp Hi. exists p. split; [|done]. by apply lookup_app_l_Some.
Qed.

(** The loop takes exactly the blocks it needs, in order. *)
Lemma fill_indirect2_spec h a1 b1 fuel : ∀ d b (a0 : nat) b0 s nb,
  sub_lists d (entries b) (128 * Z.of_nat a0 + b0) = Some s → 0 ≤ b0 < 128 → 0 ≤ b1 < 128 →
  128 * Z.of_nat a0 + b0 ≤ 128 * a1 + b1 ≤ 16384 →
  128 * a1 + b1 - (128 * Z.of_nat a0 + b0) ≤ Z.of_nat fuel →
  Z.of_nat (length nb) = sub_count (128 * a1 + b1) - sub_count (128 * Z.of_nat a0 + b0) →
  length b = Z.to_nat BLOCK_SZ → Forall is_byte b → fresh_blocks d h (s ++ nb) →
  ∃ b' d', runs (fill_indirect2 fuel (Z.of_nat a0) b0 a1 b1 b nb) h d b' d' ∧
    length b' = Z.to_nat BLOCK_SZ ∧ Forall is_byte b' ∧
    sub_lists d' (entries b') (128 * a1 + b1) = Some (s ++ nb) ∧
    only_index sub_idx (s ++ nb) d d'.
Proof.
  induction fuel as [|fuel IH]; intros d b a0 b0 s nb Hs Hb0 Hb1 Hle Hf Hnb Hlb Hbb Hfb.
  all: cbn [fill_indirect2].
  all: destruct (decide (128 * Z.of_nat a0 + b0 = 128 * a1 + b1)) as [Heq|Hne].
  1,3: assert (Z.of_nat a0 = a1 ∧ b0 = b1) as [<- <-] by lia.
  1,2: rewrite !Z.ltb_irrefl, Z.eqb_refl; cbn [orb andb].
  1,2: assert (nb = []) as -> by (apply length_zero_iff_nil; lia).
  1,2: exists b, d; rewrite app_nil_r.
  1,2: split_and!; [done..|apply only_index_refl].
  1: lia.
  destruct (fill_step_spec d h b a0 b0 a1 b1 s nb) as
    (nb1 & nb2 & b' & d' & -> & Hrun & Hlb' & Hbb' & Hs' & Hoi); try done; [lia|].
  replace ((Z.of_nat a0 <? a1) || (Z.of_nat a0 =? a1) && (b0 <? b1)) with true.
  2:{ symmetry. destruct (Z.ltb_spec (Z.of_nat a0) a1); [done|].
    apply andb_true_iff. split; [apply Z.eqb_eq|apply Z.ltb_lt]; lia. }
  assert (∃ (a0' : nat) b0', 0 ≤ b0' < 128 ∧ 128 * Z.of_nat a0' + b0' = 128 * Z.of_nat a0 + b0 + 1 ∧
    (if b0 +u 1 =? INODE_INDIRECT1_COUNT
     then fill_indirect2 fuel (Z.of_nat a0 +u 1) 0 a1 b1 b' nb2
     else fill_indirect2 fuel (Z.of_nat a0) (b0 +u 1) a1 b1 b' nb2) =
    fill_indirect2 fuel (Z.of_nat a0') b0' a1 b1 b' nb2) as (a0' & b0' & Hb0' & Hpos & Hnext).
  { change INODE_INDIRECT1_COUNT with 128. mach_simpl. destruct (Z.eqb_spec (b0 + 1) 128).
    - exists (S a0), 0. split_and!; [lia..|]. by rewrite Nat2Z.inj_succ.
    - exists a0, (b0 + 1). split_and!; [lia..|done]. }
  rewrite <- Hpos in Hs'. rewrite app_assoc in *.
  destruct (IH d' b' a0' b0' (s ++ nb1) nb2) as (b'' & d'' & Hrun' & ? & ? & ? & ?); try done.
  - lia.
  - lia.
  - apply length_sub_lists in Hs'; [|lia]. apply length_sub_lists in Hs; [|lia].
    rewrite length_app in *. lia.
  - eapply fresh_blocks_mono; [apply Hoi|done].
  - exists b'', d''. split_and!; [|done..|by eapply only_index_sub_app].
    eapply runs_bind; [done|]. cbn beta iota zeta. by rewrite Hnext.
Qed.

Lemma fresh_blocks_suffix d h L1 L2 : fresh_blocks d h (L1 ++ L2) → fresh_blocks d h L2.
Proof.
  intros [H1 H2 H3]. split.
  - by apply list.NoDup_app in H1 as (_ & _ & ?).
  - intros x Hx. apply H2. elt.
  - intros x Hx. apply H3. elt.
Qed.

(** Holding the lock of one of the blocks. *)
Lemma fresh_blocks_hold d h x L :
  Z.of_nat (length h) < BLOCK_CACHE_SIZE - 1 → fresh_blocks d h (x :: L) → fresh_blocks d (x :: h) L.
Proof.
  intros Hh [[Hx H1]%list.NoDup_cons H2 H3]. split; [done| |].
  - intros y Hy. apply lockable_cons; [apply H2; elt|by intros ->|done].
  - intros y Hy. apply H3. elt.
Qed.

(** Where the index blocks stand in the list of an inode. *)
Definition index_pos (p : nat) : Prop := p = 28%nat ∨ p = 157%nat ∨ ∃ q, p = (158 + 129 * q)%nat.

Lemma pos_not_index i : 0 ≤ i → ¬ index_pos (Z.to_nat (pos i)).
Proof.
  intros Hi. unfold pos, sub_pos, index_pos.
  destruct (Z.ltb_spec i 28); [|destruct (Z.ltb_spec i 156)].
  - intros [?|[?|[q ?]]]; lia.
  - intros [?|[?|[q ?]]]; lia.
  - pose proof (Z.div_mod (i - 156) 128 ltac:(lia)). pose proof (Z.mod_pos_bound (i - 156) 128).
    assert (0 ≤ (i - 156) / 128) by (apply Z.div_pos; lia).
    intros [?|[?|[q ?]]]; lia.
Qed.

(** The fields are u32 values. *)
Definition inode_u32 (ino : DiskInode) : Prop :=
  in_u 32 (size ino) ∧ Forall (in_u 32) (direct ino) ∧
  in_u 32 (indirect1 ino) ∧ in_u 32 (indirect2 ino).

(** What the growth of an inode from [l] to [l ++ nb] achieves. *)
Record grown_ok (d : gmap Z (list Z)) (ino : DiskInode) (L : list Z) (m : Z)
    (ino' : DiskInode) (d' : gmap Z (list Z)) : Prop := {
  gr_list : inode_list d' ino' m = Some L;
  gr_ok : inode_ok ino';
  gr_size : size ino' = size ino;
  gr_type : type_ ino' = type_ ino;
  gr_u32 : inode_u32 ino → inode_u32 ino';
  gr_index : only_index index_pos L d d';
}.

(** The doubly indirect part, once its block is there. *)
Lemma fill_indirect2_inode d h ino b1 b2 s nb t c :
  inode_ok ino → Z.of_nat (length h) < BLOCK_CACHE_SIZE - 1 → 0 ≤ c ≤ t → 0 < t ≤ 16384 →
  d !! indirect1 ino = Some b1 → d !! indirect2 ino = Some b2 →
  sub_lists d (entries b2) c = Some s → Z.of_nat (length nb) = sub_count t - sub_count c →
  fresh_blocks d h (direct ino ++ indirect1 ino :: entries b1 ++ indirect2 ino :: s ++ nb) →
  ∃ d', runs (modify (indirect2 ino) 0 BLOCK_SZ (λ b,
          fill_indirect2 (Z.to_nat (t - c)) (c / 128) (c mod 128) (t / 128) (t mod 128) b nb
            ≫= λ b, Ret ((), b))) h d () d' ∧
    grown_ok d ino (direct ino ++ indirect1 ino :: entries b1 ++ indirect2 ino :: s ++ nb)
      (156 + t) ino d'.
Proof.
  set (L := direct ino ++ _). intros Hok Hh Hc Ht Hb1 Hb2 Hs Hnb Hfb.
  assert (∃ L1, L = L1 ++ indirect2 ino :: s ++ nb ∧ indirect1 ino ∈ L1 ∧ length L1 = 157%nat)
    as (L1 & HL & Hi1 & HL1).
  { exists (direct ino ++ indirect1 ino :: entries b1). subst L.
    rewrite <- app_assoc. split_and!; [done|elt|].
    rewrite length_app, length_cons, length_entries, Hok. done. }
  pose proof Hfb as Hfb'. rewrite HL in Hfb'.
  pose proof (fb_nodup _ _ _ Hfb') as (_ & Hdisj & [Hx2 _]%list.NoDup_cons)%list.NoDup_app.
  apply fresh_blocks_suffix in Hfb'.
  destruct (fb_block _ _ _ Hfb' (indirect2 ino)) as (c2 & Hc2 & Hl2 & Hb2'); [elt|].
  rewrite Hb2 in Hc2. injection Hc2 as <-.
  pose proof (Z.div_mod c 128 ltac:(lia)). pose proof (Z.mod_pos_bound c 128 ltac:(lia)).
  pose proof (Z.div_mod t 128 ltac:(lia)). pose proof (Z.mod_pos_bound t 128 ltac:(lia)).
  assert (0 ≤ c / 128) by (apply Z.div_pos; lia).
  destruct (fill_indirect2_spec (indirect2 ino :: h) (t / 128) (t mod 128) (Z.to_nat (t - c))
    d b2 (Z.to_nat (c / 128)) (c mod 128) s nb) as (b' & d' & Hrun & Hlb & Hbb & Hs' & Hoi);
    rewrite ?Z2Nat.id by lia; try done; rewrite <- ?Z.div_mod by lia; try done; try lia.
  { by apply fresh_blocks_hold. }
  rewrite Z2Nat.id in Hrun by lia. rewrite <- Z.div_mod in Hs' by lia.
  assert (∀ x, x ∉ s ++ nb → d' !! x = d !! x) as Hfr by (intros x; by apply (only_index_out _ _ _ _ _ Hoi)).
  exists (<[indirect2 ino := b']> d'). split.
  - eapply runs_modify_block; [by apply (fb_lock _ _ _ Hfb'); elt|done..| | | |done].
    + eapply runs_bind; [done|apply runs_ret].
    + by rewrite Hfr.
    + done.
  - split; try done.
    + apply inode_list_big; [lia|]. exists b1, b', (s ++ nb).
      assert (indirect1 ino ∉ indirect2 ino :: s ++ nb) as Hn1 by (by apply Hdisj).
      rewrite lookup_insert_eq, lookup_insert_ne by (intros Heq; apply Hn1; rewrite <- Heq; elt).
      rewrite Hfr by (intros ?; apply Hn1; elt). split_and!; [done..| |done].
      replace (156 + t - 156) with t by lia. eapply sub_lists_frame; [done|].
      intros x Hx. rewrite lookup_insert_ne; [done|]. intros Heq. by rewrite <- Heq in Hx.
    + eapply only_index_trans; [|exact Hoi|].
      * intros p x Hp [q ->]. exists (158 + 129 * q)%nat. split; [|right; right; by exists q].
        rewrite HL. erewrite lookup_app_cons; [done|lia].
      * apply only_index_insert with 157%nat; [|by right; left|done..].
        rewrite HL, lookup_app_r by lia. by rewrite HL1.
Qed.

Lemma block_count_big n : 156 < n → block_count n = 158 + sub_count (n - 156).
Proof. intros H. unfold block_count. destruct (Z.leb_spec n 28), (Z.leb_spec n 156); lia. Qed.
Lemma block_count_mid n : 28 < n ≤ 156 → block_count n = n + 1.
Proof. intros H. unfold block_count. destruct (Z.leb_spec n 28), (Z.leb_spec n 156); lia. Qed.
Lemma block_count_small n : n ≤ 28 → block_count n = n.
Proof. intros H. unfold block_count. destruct (Z.leb_spec n 28); lia. Qed.
Lemma sub_count_pos n : 0 < n → n + 1 ≤ sub_count n.
Proof.
  intros H. unfold sub_count. assert (1 ≤ (n + 127) / 128); [|lia].
  apply Z.div_le_lower_bound; lia.
Qed.

Lemma grow_indirect2_spec d h ino n m l nb :
  inode_ok ino → Z.of_nat (length h) < BLOCK_CACHE_SIZE - 1 →
  156 ≤ n ≤ m → 156 < m ≤ MAX_DATA_BLOCKS → inode_list d ino n = Some l →
  Z.of_nat (length nb) = block_count m - block_count n → fresh_blocks d h (l ++ nb) →
  ∃ ino' d', runs (grow_indirect2 ino (n - 28) (m - 28) nb) h d ino' d' ∧
    grown_ok d ino (l ++ nb) m ino' d'.
Proof.
  unfold MAX_DATA_BLOCKS. change INDIRECT2_BOUND with 16540.
  intros Hok Hh Hn Hm Hl Hnb Hfb. rewrite (block_count_big m) in Hnb by lia.
  unfold grow_indirect2. change INODE_INDIRECT1_COUNT with 128.
  assert (n - 28 -u32 128 = n - 156) as -> by mach.
  assert (m - 28 -u32 128 = m - 156) as -> by mach.
  destruct (decide (n = 156)) as [->|Hne].
  - rewrite block_count_mid in Hnb by lia. pose proof (sub_count_pos (m - 156)).
    destruct nb as [|x nb]; [simpl in Hnb; lia|].
    apply inode_list_mid in Hl as (b1 & Hb1 & ->); [|lia].
    rewrite take_ge in Hfb |- * by (rewrite length_entries; lia).
    destruct (fb_block _ _ _ Hfb x) as (b2 & Hb2 & _); [elt|].
    rewrite <- app_assoc in Hfb |- *.
    destruct (fill_indirect2_inode d h (set_indirect2 x ino) b1 b2 [] nb (m - 156) 0)
      as (d' & Hrun & [H1 H2 H3 H4 H5 H6]); try done; try lia.
    { change (sub_count 0) with 0. rewrite length_cons in Hnb. lia. }
    exists (set_indirect2 x ino), d'. split; [|split; try done].
    3:{ intros (? & ? & ? & ?). split_and!; try done.
      apply fresh_blocks_u32 with (1 := Hfb). elt. }
    + eapply runs_bind; [apply runs_ret|]. eapply runs_bind; [exact Hrun|apply runs_ret].
    + by replace (156 + (m - 156)) with m in H1 by lia.
  - rewrite (block_count_big n) in Hnb by lia.
    apply inode_list_big in Hl as (b1 & b2 & s & Hb1 & Hb2 & Hs & ->); [|lia].
    rewrite <- app_assoc in Hfb |- *. cbn [app] in *. rewrite <- app_assoc in Hfb |- *.
    destruct (fill_indirect2_inode d h ino b1 b2 s nb (m - 156) (n - 156))
      as (d' & Hrun & [H1 H2 H3 H4 H5 H6]); try done; try lia.
    exists ino, d'. split; [|split; try done].
    + destruct (Z.eqb_spec (n - 28) 128); [lia|].
      eapply runs_bind; [apply runs_ret|]. eapply runs_bind; [exact Hrun|apply runs_ret].
    + by replace (156 + (m - 156)) with m in H1 by lia.
Qed.

(** Filling an index block. *)
Lemma fill_index_block d h x b cur lim nb :
  lockable x h → d !! x = Some b → length b = Z.to_nat BLOCK_SZ → Forall is_byte b →
  0 ≤ cur → lim ≤ 128 → (Z.to_nat (lim - cur) ≤ length nb)%nat → Forall (in_u 32) nb →
  ∃ b', runs (modify x 0 BLOCK_SZ (λ b,
      plift (fill_loop put_indirect (Z.to_nat 128) cur lim b nb)
        ≫= λ '(b, cur, nb), Ret ((cur, nb), b))) h d
      (Z.max cur lim, drop (Z.to_nat (lim - cur)) nb) (<[x := b']> d) ∧
    length b' = Z.to_nat BLOCK_SZ ∧ Forall is_byte b' ∧
    entries b' = splice (Z.to_nat cur) (take (Z.to_nat (lim - cur)) nb) (entries b).
Proof.
  intros Hlk Hb Hl Hbb Hc Hlim Hnb Hu.
  destruct (fill_loop_spec put_indirect entries
    (λ b, length b = Z.to_nat BLOCK_SZ ∧ Forall is_byte b)) with (fuel := Z.to_nat 128)
    (cur := cur) (lim := lim) (x := b) (nb := nb) as (b' & Hfill & [Hl' Hb'] & He);
    rewrite ?length_entries; try done; try lia.
  { intros i v y [Hy1 Hy2] Hi Hv. rewrite length_entries in Hi. unfold put_indirect.
    rewrite length_arr_set by (apply entry_in; [done|lia]). split_and!; [done| |].
    - by apply arr_set_bytes.
    - apply entries_set; [done|lia|done]. }
  exists b'. split_and!; [|done..]. eapply runs_modify_block_pure; try done.
  by rewrite Hfill.
Qed.

Lemma fresh_blocks_Forall d h l nb : fresh_blocks d h (l ++ nb) → Forall (in_u 32) nb.
Proof.
  intros Hfb. apply list.Forall_forall. intros x Hx. eapply fresh_blocks_u32; [done|elt].
Qed.

(** The indirect part brings the inode to n2 = max n (min m 156) blocks. *)
Definition grow_mid_ok d h ino n m l nb : Prop :=
  let n2 := Z.max n (Z.min m 156) in
  ∃ ino2 nb1 nb2 d2, nb = nb1 ++ nb2 ∧
    run (grow_indirect1 ino n m nb) h d =
    run (if 128 <? m - 28 then grow_indirect2 ino2 (n2 - 28) (m - 28) nb2 else Ret ino2) h d2 ∧
    grown_ok d ino (l ++ nb1) n2 ino2 d2.

Lemma grow_mid_new d h ino m l nb :
  inode_ok ino → 28 < m ≤ MAX_DATA_BLOCKS → inode_list d ino 28 = Some l →
  Z.of_nat (length nb) = block_count m - block_count 28 → fresh_blocks d h (l ++ nb) →
  grow_mid_ok d h ino 28 m l nb.
Proof.
  unfold MAX_DATA_BLOCKS, inode_ok. change INDIRECT2_BOUND with 16540.
  intros Hok Hm Hl Hnb Hfb. rewrite inode_list_small in Hl by lia. injection Hl as <-.
  rewrite take_ge in * by lia. change (block_count 28) with 28 in Hnb.
  set (k := Z.min (m - 28) 128).
  assert (k + 1 ≤ Z.of_nat (length nb)) as Hk.
  { unfold block_count in Hnb. destruct (Z.leb_spec m 28), (Z.leb_spec m 156); try lia.
    pose proof (sub_count_pos (m - 156)). lia. }
  destruct nb as [|x nb]; [simpl in Hk; lia|]. rewrite length_cons in *.
  destruct (fb_block _ _ _ Hfb x) as (b & Hb & Hlb & Hbb); [elt|].
  destruct (fill_index_block d h x b 0 k nb) as (b' & Hrun & Hlb' & Hbb' & He); try done; try lia.
  { apply (fb_lock _ _ _ Hfb). elt. }
  { apply (fresh_blocks_Forall d h (direct ino ++ [x])). by rewrite <- app_assoc. }
  rewrite Z.sub_0_r, Z.max_r in * by lia.
  exists (set_indirect1 x ino), (x :: take (Z.to_nat k) nb), (drop (Z.to_nat k) nb), (<[x := b']> d).
  split_and!; [by rewrite <- app_comm_cons, take_drop| |split; try done].
  - unfold grow_indirect1. change INODE_DIRECT_COUNT with 28. change INODE_INDIRECT1_COUNT with 128.
    rewrite Z.eqb_refl. erewrite run_bind_runs; [|apply runs_ret]. cbn beta iota zeta.
    assert (28 -u32 28 = 0) as -> by mach. assert (m -u32 28 = m - 28) as -> by mach.
    erewrite run_bind_runs; [|exact Hrun]. cbn beta iota.
    by replace (Z.max 28 (Z.min m 156) - 28) with k by lia.
  - apply inode_list_mid; [lia|]. exists b'. cbn [indirect1 set_indirect1].
    rewrite lookup_insert_eq. split; [done|]. cbn [direct set_indirect1].
    rewrite He. do 2 f_equal. change (Z.to_nat 0) with O. unfold splice. rewrite take_0. cbn [app].
    rewrite take_app_length'; [done|]. rewrite length_take. lia.
  - intros (? & ? & ? & ?). split_and!; try done.
    apply fresh_blocks_u32 with (1 := Hfb). elt.
  - apply only_index_insert with 28%nat; [|by left|done..].
    rewrite lookup_app_r by lia. by rewrite Hok.
Qed.

Lemma grow_mid_old d h ino n m l nb :
  inode_ok ino → 28 < n ≤ 156 → n ≤ m ≤ MAX_DATA_BLOCKS → inode_list d ino n = Some l →
  Z.of_nat (length nb) = block_count m - block_count n → fresh_blocks d h (l ++ nb) →
  grow_mid_ok d h ino n m l nb.
Proof.
  unfold MAX_DATA_BLOCKS, inode_ok. change INDIRECT2_BOUND with 16540.
  intros Hok Hn Hm Hl Hnb Hfb. rewrite (block_count_mid n) in Hnb by lia.
  apply inode_list_mid in Hl as (b & Hb & ->); [|lia].
  set (k := Z.min (m - 28) 128). set (i := Z.to_nat (k - (n - 28))).
  assert (i ≤ length nb)%nat as Hk.
  { unfold block_count in Hnb. destruct (Z.leb_spec m 28), (Z.leb_spec m 156); try lia.
    pose proof (sub_count_pos (m - 156)). lia. }
  destruct (fb_block _ _ _ Hfb (indirect1 ino)) as (c & Hc & Hlb & Hbb); [elt|].
  rewrite Hb in Hc. injection Hc as <-.
  destruct (fill_index_block d h (indirect1 ino) b (n - 28) k nb) as (b' & Hrun & Hlb' & Hbb' & He);
    try done; try lia.
  { apply (fb_lock _ _ _ Hfb). elt. }
  { by apply fresh_blocks_Forall in Hfb. }
  exists ino, (take i nb), (drop i nb), (<[indirect1 ino := b']> d).
  split_and!; [by rewrite take_drop| |split; try done].
  - unfold grow_indirect1. change INODE_DIRECT_COUNT with 28. change INODE_INDIRECT1_COUNT with 128.
    destruct (Z.eqb_spec n 28); [lia|]. erewrite run_bind_runs; [|apply runs_ret].
    cbn beta iota zeta.
    assert (n -u32 28 = n - 28) as -> by mach. assert (m -u32 28 = m - 28) as -> by mach.
    erewrite run_bind_runs; [|exact Hrun]. cbn beta iota.
    by replace (Z.max (n - 28) k) with (Z.max n (Z.min m 156) - 28) by lia.
  - apply inode_list_mid; [lia|]. exists b'. rewrite lookup_insert_eq. split; [done|].
    rewrite <- app_assoc. cbn [app]. do 2 f_equal. rewrite He.
    rewrite <- take_splice by (rewrite length_entries; lia). f_equal. rewrite length_take. lia.
  - apply only_index_insert with 28%nat; [|by left|done..].
    rewrite lookup_app_l, lookup_app_r by (rewrite ?length_app, ?length_cons; lia). by rewrite Hok.
Qed.

Lemma grow_mid_done d h ino n m l nb :
  inode_ok ino → 156 < n ≤ m → m ≤ MAX_DATA_BLOCKS → inode_list d ino n = Some l →
  fresh_blocks d h (l ++ nb) → grow_mid_ok d h ino n m l nb.
Proof.
  unfold MAX_DATA_BLOCKS, inode_ok. change INDIRECT2_BOUND with 16540.
  intros Hok Hn Hm Hl Hfb.
  apply inode_list_big in Hl as (b & b2 & s & Hb & Hb2 & Hs & ->); [|lia].
  destruct (fb_block _ _ _ Hfb (indirect1 ino)) as (c & Hc & Hlb & Hbb); [elt|].
  rewrite Hb in Hc. injection Hc as <-.
  destruct (fill_index_block d h (indirect1 ino) b (n - 28) 128 nb)
    as (b' & Hrun & Hlb' & Hbb' & He); try done; try lia.
  { apply (fb_lock _ _ _ Hfb). elt. }
  { by apply fresh_blocks_Forall in Hfb. }
  replace (Z.to_nat (128 - (n - 28))) with O in * by lia.
  rewrite drop_0, Z.max_l in Hrun by lia.
  assert (entries b' = entries b) as He'.
  { rewrite He. unfold splice. simpl. by rewrite Nat.add_0_r, take_drop. }
  pose proof (fb_nodup _ _ _ Hfb) as (Hnd & _)%list.NoDup_app.
  apply list.NoDup_app in Hnd as (_ & _ & [Hi1 _]%list.NoDup_cons).
  exists ino, [], nb, (<[indirect1 ino := b']> d).
  rewrite app_nil_r, Z.max_l by lia. split_and!; [done| |split; try done].
  - unfold grow_indirect1. change INODE_DIRECT_COUNT with 28. change INODE_INDIRECT1_COUNT with 128.
    destruct (Z.eqb_spec n 28); [lia|]. erewrite run_bind_runs; [|apply runs_ret].
    cbn beta iota zeta.
    assert (n -u32 28 = n - 28) as -> by mach. assert (m -u32 28 = m - 28) as -> by mach.
    rewrite Z.min_r by lia. erewrite run_bind_runs; [|exact Hrun]. done.
  - apply inode_list_big; [lia|]. exists b', b2, s. rewrite lookup_insert_eq, He'.
    rewrite lookup_insert_ne by (intros Heq; apply Hi1; rewrite Heq; elt).
    split_and!; [done..| |done]. eapply sub_lists_frame; [done|]. intros x Hx.
    rewrite lookup_insert_ne; [done|]. intros Heq. apply Hi1. rewrite Heq. elt.
  - apply only_index_insert with 28%nat; [|by left|done..].
    rewrite lookup_app_r by lia. by rewrite Hok.
Qed.

Lemma grown_trans d ino L1 n ino1 d1 nb m ino2 d2 :
  grown_ok d ino L1 n ino1 d1 → grown_ok d1 ino1 (L1 ++ nb) m ino2 d2 →
  grown_ok d ino (L1 ++ nb) m ino2 d2.
Proof.
  intros [H1 H2 H3 H4 H5 H6] [K1 K2 K3 K4 K5 K6]. split; [done|done|congruence..|by auto|].
  eapply only_index_trans; [|exact H6|exact K6]. intros p x Hp Hi. exists p.
  split; [by apply lookup_app_l_Some|done].
Qed.

Lemma grow_indirect1_spec d h ino n m l nb :
  inode_ok ino → Z.of_nat (length h) < BLOCK_CACHE_SIZE - 1 →
  28 ≤ n ≤ m → 28 < m ≤ MAX_DATA_BLOCKS → inode_list d ino n = Some l →
  Z.of_nat (length nb) = block_count m - block_count n → fresh_blocks d h (l ++ nb) →
  ∃ ino' d', runs (grow_indirect1 ino n m nb) h d ino' d' ∧ grown_ok d ino (l ++ nb) m ino' d'.
Proof.
  intros Hok Hh Hn Hm Hl Hnb Hfb.
  assert (grow_mid_ok d h ino n m l nb) as (ino2 & nb1 & nb2 & d2 & -> & Hrun & Hgr).
  { destruct (decide (n = 28)) as [->|]; [by apply grow_mid_new|].
    destruct (decide (n ≤ 156)); [apply grow_mid_old|apply grow_mid_done]; try done; try lia. }
  unfold runs. rewrite Hrun. rewrite app_assoc in Hfb |- *.
  assert (Z.of_nat (length nb2) = block_count m - block_count (Z.max n (Z.min m 156))) as Hnb2.
  { pose proof (gr_list _ _ _ _ _ _ Hgr) as Hl2.
    apply length_inode_list in Hl2; [|apply Hgr|lia].
    apply length_inode_list in Hl; [|done|lia]. rewrite length_app in *. lia. }
  destruct (Z.ltb_spec 128 (m - 28)).
  - destruct (grow_indirect2_spec d2 h ino2 (Z.max n (Z.min m 156)) m (l ++ nb1) nb2)
      as (ino' & d' & Hrun' & Hgr'); try apply Hgr; try done; try lia.
    { eapply fresh_blocks_mono; [apply Hgr|done]. }
    exists ino', d'. split; [done|]. by eapply grown_trans.
  - replace (Z.max n (Z.min m 156)) with m in * by lia. rewrite Z.sub_diag in Hnb2.
    assert (nb2 = []) as -> by (apply length_zero_iff_nil; lia).
    exists ino2, d2. by rewrite app_nil_r.
Qed.

(** ** Sizes *)

(** The largest file, in bytes. *)
Definition MAX_FILE_SIZE : Z := MAX_DATA_BLOCKS * BLOCK_SZ.

Lemma _data_blocks_eq s : 0 ≤ s ≤ MAX_FILE_SIZE → _data_blocks s = (s + 511) / 512.
Proof.
  change MAX_FILE_SIZE with 8468480. intros Hs. unfold _data_blocks. change BLOCK_SZ with 512.
  f_equal. mach_simpl. lia.
Qed.

Lemma _data_blocks_bounds s :
  0 ≤ s ≤ MAX_FILE_SIZE →
  0 ≤ _data_blocks s ≤ MAX_DATA_BLOCKS ∧ s ≤ 512 * _data_blocks s < s + 512.
Proof.
  intros Hs. rewrite _data_blocks_eq by done. change MAX_FILE_SIZE with 8468480 in Hs.
  change MAX_DATA_BLOCKS with 16540.
  pose proof (Z.div_mod (s + 511) 512 ltac:(lia)). pose proof (Z.mod_pos_bound (s + 511) 512 ltac:(lia)).
  lia.
Qed.

Lemma _data_blocks_mono s s' :
  0 ≤ s ≤ s' → s' ≤ MAX_FILE_SIZE → _data_blocks s ≤ _data_blocks s'.
Proof. intros Hs Hs'. rewrite !_data_blocks_eq by lia. apply Z.div_le_mono; lia. Qed.

(** [total_blocks] counts the blocks of the list: data and index blocks. *)
Lemma total_blocks_count s :
  0 ≤ s ≤ MAX_FILE_SIZE → total_blocks s = block_count (_data_blocks s).
Proof.
  intros Hs. destruct (_data_blocks_bounds s Hs) as [Hb _]. change MAX_DATA_BLOCKS with 16540 in Hb.
  unfold total_blocks. change INODE_DIRECT_COUNT with 28. change INDIRECT1_BOUND with 156.
  change INODE_INDIRECT1_COUNT with 128. generalize dependent (_data_blocks s). intros n Hn.
  assert (n ≤ 156 ∨ (n -u 156 +u 128 -u 1) = n - 156 + 127) as Hq.
  { destruct (decide (n ≤ 156)); [by left|]. right. mach_simpl. lia. }
  pose proof (Z.div_mod (n - 156 + 127) 128 ltac:(lia)).
  pose proof (Z.mod_pos_bound (n - 156 + 127) 128 ltac:(lia)).
  unfold block_count, sub_count.
  destruct (Z.ltb_spec 28 n), (Z.ltb_spec 156 n), (Z.leb_spec n 28), (Z.leb_spec n 156); try lia.
  - destruct Hq as [|Hq]; [lia|]. rewrite Hq. mach_simpl. rewrite wrap_small by (mach_unfold; lia). lia.
  - mach_simpl. apply wrap_small. mach_unfold. lia.
  - apply wrap_small. mach_unfold. lia.
Qed.

Lemma block_count_mono n m : 0 ≤ n ≤ m → block_count n ≤ block_count m.
Proof.
  intros H. unfold block_count, sub_count.
  destruct (Z.leb_spec n 28), (Z.leb_spec m 28), (Z.leb_spec n 156), (Z.leb_spec m 156); try lia.
  all: assert (0 ≤ (m - 156 + 127) / 128) by (apply Z.div_pos; lia); try lia.
  assert ((n - 156 + 127) / 128 ≤ (m - 156 + 127) / 128) by (apply Z.div_le_mono; lia). lia.
Qed.

Lemma block_count_bound n : 0 ≤ n ≤ MAX_DATA_BLOCKS → 0 ≤ block_count n ≤ 16670.
Proof.
  intros Hn. split; [by apply (block_count_mono 0 n); lia|].
  transitivity (block_count MAX_DATA_BLOCKS); [apply block_count_mono; lia|done].
Qed.

(** How many blocks a growth needs. *)
Lemma blocks_num_needed_spec ino new_size :
  0 ≤ size ino ≤ new_size → new_size ≤ MAX_FILE_SIZE →
  0 ≤ total_blocks new_size - total_blocks (size ino) ∧
  blocks_num_needed ino new_size = Ok (total_blocks new_size - total_blocks (size ino)).
Proof.
  intros Hs Hm. rewrite !total_blocks_count by lia.
  pose proof (_data_blocks_mono (size ino) new_size Hs Hm).
  destruct (_data_blocks_bounds new_size ltac:(lia)) as [H1 _].
  destruct (_data_blocks_bounds (size ino) ltac:(lia)) as [H2 _].
  pose proof (block_count_mono (_data_blocks (size ino)) (_data_blocks new_size) ltac:(lia)).
  pose proof (block_count_bound _ H1). pose proof (block_count_bound _ H2).
  split; [lia|]. unfold blocks_num_needed. destruct (Z.leb_spec (size ino) new_size); [|lia].
  rewrite !total_blocks_count by lia. f_equal. apply usub32_small. mach_unfold. lia.
Qed.

Lemma increase_size_spec d h ino new_size l nb :
  inode_ok ino → Z.of_nat (length h) < BLOCK_CACHE_SIZE - 1 →
  0 ≤ size ino ≤ new_size → new_size ≤ MAX_FILE_SIZE →
  inode_list d ino (data_blocks ino) = Some l →
  Z.of_nat (length nb) = total_blocks new_size - total_blocks (size ino) →
  fresh_blocks d h (l ++ nb) →
  ∃ ino' d', runs (increase_size ino new_size nb) h d ino' d' ∧
    grown_ok d (set_size new_size ino) (l ++ nb) (_data_blocks new_size) ino' d'.
Proof.
  intros Hok Hh Hs Hmax Hl Hnb Hfb. rewrite !total_blocks_count in Hnb by lia.
  fold (data_blocks ino) in Hnb. unfold increase_size.
  pose proof (_data_blocks_mono (size ino) new_size ltac:(lia) Hmax) as Hle.
  destruct (_data_blocks_bounds (size ino) ltac:(lia)) as [Hn _].
  destruct (_data_blocks_bounds new_size ltac:(lia)) as [Hm _].
  unfold data_blocks in *. cbn [size direct set_size].
  set (n := _data_blocks (size ino)) in *. set (m := _data_blocks new_size) in *.
  change MAX_DATA_BLOCKS with 16540 in *. change INODE_DIRECT_COUNT with 28.
  unfold inode_ok in Hok. set (k := Z.to_nat (Z.min m 28 - n)).
  assert (k ≤ length nb)%nat as Hk.
  { destruct (decide (n ≤ 28)); [|lia]. rewrite (block_count_small n) in Hnb by done.
    unfold block_count in Hnb. destruct (Z.leb_spec m 28), (Z.leb_spec m 156); try lia.
    pose proof (sub_count_pos (m - 156)). lia. }
  destruct (fill_loop_spec put_direct (λ l, l) (λ l, length l = 28%nat)) with
    (fuel := Z.to_nat 28) (cur := n) (lim := Z.min m 28) (x := direct ino) (nb := nb)
    as (dir & Hfill & Hdir & Hview); try done; try lia.
  { intros i v x Hx _ _. unfold put_direct. by rewrite length_insert. }
  { by apply fresh_blocks_Forall in Hfb. }
  fold k in Hfill, Hview. rewrite Hfill. set (n1 := Z.max n (Z.min m 28)) in *.
  set (ino1 := set_direct dir (set_size new_size ino)).
  assert (inode_list d ino1 n1 = Some (l ++ take k nb)) as Hl1.
  { destruct (decide (n < 28)).
    - rewrite inode_list_small in Hl |- * by lia. injection Hl as <-. f_equal.
      cbn [direct set_direct ino1]. rewrite Hview, <- take_splice by lia. f_equal.
      rewrite length_take. lia.
    - replace k with O by lia. rewrite take_0, app_nil_r. replace n1 with n by lia.
      rewrite <- Hl. apply inode_list_eq; try done. cbn [direct set_direct ino1].
      rewrite Hview. replace k with O by lia. unfold splice. simpl.
      by rewrite Nat.add_0_r, take_drop. }
  assert (inode_u32 (set_size new_size ino) → inode_u32 ino1) as Hu1.
  { intros (? & Hd & ? & ?). split_and!; try done. cbn [direct set_direct ino1].
    rewrite Hview. unfold splice. apply fresh_blocks_Forall in Hfb.
    rewrite !Forall_app; split_and!; by repeat (apply Forall_take || apply Forall_drop). }
  rewrite <- (take_drop k nb), app_assoc in Hfb |- *.
  assert (Z.of_nat (length (drop k nb)) = block_count m - block_count n1) as Hnb1.
  { apply length_inode_list in Hl; [|done|lia]. apply length_inode_list in Hl1; [|done|lia].
    rewrite length_app, length_take in Hl1. rewrite length_drop. lia. }
  destruct (Z.ltb_spec 28 m).
  - destruct (grow_indirect1_spec d h ino1 n1 m (l ++ take k nb) (drop k nb))
      as (ino' & d' & Hrun & [H1 H2 H3 H4 H5 H6]); try done; try lia.
    { change MAX_DATA_BLOCKS with 16540. lia. }
    exists ino', d'. rewrite take_drop. split; [|split; try done; by auto].
    eapply runs_bind; [apply runs_ret|exact Hrun].
  - replace n1 with m in * by lia. rewrite Z.sub_diag in Hnb1.
    assert (drop k nb = []) as -> by (apply length_zero_iff_nil; lia).
    exists ino1, d. rewrite !app_nil_r. split; [|split; try done; apply only_index_refl].
    eapply runs_bind; [apply runs_ret|]. apply runs_ret.
Qed.

(** ** Clearing *)
Lemma clear_direct_spec fuel : ∀ cur lim dir v,
  0 ≤ cur ≤ lim → lim ≤ Z.of_nat (length dir) → lim < 2 ^ 32 → lim - cur ≤ Z.of_nat fuel →
  ∃ dir', clear_direct fuel cur lim dir v
            = Ok (dir', v ++ slice (Z.to_nat cur) (Z.to_nat (lim - cur)) dir) ∧
          length dir' = length dir ∧ (Forall (in_u 32) dir → Forall (in_u 32) dir').
Proof.
  induction fuel as [|fuel IH]; intros cur lim dir v Hc Hl H32 Hf; cbn [clear_direct].
  all: destruct (Z.ltb_spec cur lim); try lia.
  2: destruct (lookup_lt_is_Some_2 dir (Z.to_nat cur)) as [x Hx]; [lia|rewrite Hx].
  2: { assert (cur +u 1 = cur + 1) as -> by mach.
    destruct (IH (cur + 1) lim (<[Z.to_nat cur := 0]> dir) (v ++ [x])) as (dir' & -> & Hd' & Hu);
      rewrite ?length_insert; try lia.
    exists dir'. rewrite Hd', length_insert. split_and!; [|done|].
    2:{ intros Hdir. apply Hu, Forall_insert; [done|]. by apply wrap_range with (z := 0). }
    f_equal. f_equal.
    rewrite <- app_assoc. f_equal. unfold slice.
    replace (Z.to_nat (cur + 1)) with (S (Z.to_nat cur)) by lia.
    rewrite drop_insert_lt by lia.
    replace (Z.to_nat (lim - cur)) with (S (Z.to_nat (lim - (cur + 1)))) by lia.
    by rewrite (drop_S _ _ _ Hx). }
  all: exists dir; replace (Z.to_nat (lim - cur)) with O by lia.
  all: unfold slice; by rewrite take_0, app_nil_r.
Qed.

(** A [modify] that leaves the block as it was. *)
Lemma runs_modify_same {A} id (f : list Z → prog (A * list Z)) h d b a :
  lockable id h → d !! id = Some b → length b = Z.to_nat BLOCK_SZ →
  runs (f b) (id :: h) d (a, b) d → runs (modify id 0 BLOCK_SZ f) h d a d.
Proof.
  intros Hlk Hb Hl Hf. rewrite <- (insert_id d id b) at 2 by done.
  eapply runs_modify_block; done.
Qed.

Lemma sub_lists_split d (a : nat) b subs s :
  sub_lists d subs (128 * Z.of_nat a + b) = Some s → 0 ≤ b < 128 →
  ∃ s1, sub_lists d (take a subs) (128 * Z.of_nat a) = Some s1 ∧
    ((b = 0 ∧ s = s1) ∨
     0 < b ∧ ∃ x bx, subs !! a = Some x ∧ d !! x = Some bx ∧
       s = s1 ++ x :: take (Z.to_nat b) (entries bx)).
Proof.
  intros Hs Hb. revert subs s Hs. induction a as [|a IH]; intros subs s Hs.
  { exists []. split; [by destruct subs|]. destruct (decide (b = 0)) as [->|Hne].
    - left. by rewrite sub_lists_0 in Hs by lia; injection Hs as <-.
    - right. split; [lia|]. destruct subs as [|x subs]; [apply sub_lists_nil in Hs; lia|].
      apply sub_lists_cons in Hs as (bx & r & Hbx & Hr & ->); [|lia].
      rewrite sub_lists_0 in Hr by lia. injection Hr as <-. exists x, bx.
      rewrite app_nil_r. done. }
  destruct subs as [|x subs]; [apply sub_lists_nil in Hs; lia|].
  apply sub_lists_cons in Hs as (bx & r & Hbx & Hr & ->); [|lia].
  replace (128 * Z.of_nat (S a) + b - 128) with (128 * Z.of_nat a + b) in Hr by lia.
  destruct (IH _ _ Hr) as (s1 & Hs1 & Hcase). exists (x :: entries bx ++ s1). split.
  - cbn [take firstn]. apply sub_lists_cons; [lia|]. exists bx, s1. split_and!; [done| |].
    + by replace (128 * Z.of_nat (S a) - 128) with (128 * Z.of_nat a) by lia.
    + by rewrite take_ge by (rewrite length_entries; lia).
  - rewrite take_ge by (rewrite length_entries; lia).
    destruct Hcase as [[-> ->]|(Hb' & y & by_ & Hy & Hby & ->)]; [by left|right].
    split; [done|]. exists y, by_. split_and!; [done..|]. cbn [app]. by rewrite <- app_assoc.
Qed.

(** The full index blocks are returned in order. *)
Lemma clear_full_spec d h subs : ∀ s v,
  sub_lists d subs (128 * Z.of_nat (length subs)) = Some s →
  (∀ x, x ∈ s → lockable x h ∧ block_ok d x) →
  runs (clear_full subs v) h d (v ++ s) d.
Proof.
  induction subs as [|x subs IH]; intros s v Hs Hlk.
  { rewrite sub_lists_0 in Hs by (simpl; lia). injection Hs as <-. by rewrite app_nil_r. }
  apply sub_lists_cons in Hs as (bx & r & Hbx & Hr & ->); [|rewrite length_cons; lia].
  rewrite length_cons in *. rewrite take_ge in * by (rewrite length_entries; lia).
  replace (128 * Z.of_nat (S (length subs)) - 128) with (128 * Z.of_nat (length subs)) in Hr by lia.
  destruct (Hlk x) as [Hx (c & Hc & Hl & _)]; [elt|]. rewrite Hbx in Hc. injection Hc as <-.
  cbn [clear_full]. eapply runs_bind; [eapply runs_modify_same; [done..|apply runs_ret]|].
  replace (v ++ x :: entries bx ++ r) with (((v ++ [x]) ++ entries bx) ++ r)
    by (by rewrite <- !app_assoc).
  apply IH; [done|]. intros y Hy. apply Hlk. elt.
Qed.

(** The part of [clear_size] inside the doubly indirect block. *)
Lemma clear_sub_spec d h b t s v :
  sub_lists d (entries b) t = Some s → 0 < t ≤ 16384 → fresh_blocks d h s →
  runs (clear_full (take (Z.to_nat (t / 128)) (entries b)) v ≫= λ v,
        (if 0 <? t mod 128 then
           plift (indirect_get b (t / 128)) ≫= λ e,
           modify e 0 BLOCK_SZ (λ b', Ret ((v ++ [e]) ++ take (Z.to_nat (t mod 128)) (entries b'), b'))
         else Ret v) ≫= λ v, Ret (v, b)) h d (v ++ s, b) d.
Proof.
  intros Hs Ht Hfb.
  pose proof (Z.div_mod t 128 ltac:(lia)) as Hdm. pose proof (Z.mod_pos_bound t 128 ltac:(lia)).
  assert (0 ≤ t / 128 ≤ 128) as Hq by lia.
  destruct (sub_lists_split d (Z.to_nat (t / 128)) (t mod 128) (entries b) s)
    as (s1 & Hs1 & Hcase); rewrite ?Z2Nat.id in * by lia; [by rewrite <- Hdm|lia|].
  assert (length (take (Z.to_nat (t / 128)) (entries b)) = Z.to_nat (t / 128)) as Hlen
    by (rewrite length_take, length_entries; lia).
  eapply runs_bind.
  { apply (clear_full_spec d h _ s1). { by rewrite Hlen, Z2Nat.id by lia. }
    intros x Hx. assert (x ∈ s); [|split; by apply Hfb].
    destruct Hcase as [[_ ->]|(_ & ? & ? & _ & _ & ->)]; elt. }
  destruct Hcase as [[-> ->]|(Hpos & x & bx & Hx & Hbx & ->)]; [done|].
  destruct (Z.ltb_spec 0 (t mod 128)); [|lia].
  rewrite lookup_entries in Hx by lia. injection Hx as Hx.
  eapply runs_bind; [|apply runs_ret]. rewrite indirect_get_ok by lia. rewrite Hx.
  eapply runs_bind; [apply runs_ret|].
  destruct (fb_block _ _ _ Hfb x) as (c & Hc & Hl & _); [elt|]. rewrite Hbx in Hc. injection Hc as <-.
  eapply runs_modify_same; [apply (fb_lock _ _ _ Hfb); elt|done..|].
  replace ((v ++ s1) ++ [x]) with (v ++ s1 ++ [x]) by (by rewrite app_assoc).
  rewrite <- !app_assoc. apply runs_ret.
Qed.

Lemma clear_size_spec d h ino l :
  inode_ok ino → Z.of_nat (length h) < BLOCK_CACHE_SIZE - 1 → 0 ≤ size ino ≤ MAX_FILE_SIZE →
  inode_list d ino (data_blocks ino) = Some l → fresh_blocks d h l →
  ∃ ino', runs (clear_size ino) h d (l, ino') d ∧
    size ino' = 0 ∧ type_ ino' = type_ ino ∧ inode_ok ino' ∧ (inode_u32 ino → inode_u32 ino').
Proof.
  intros Hok Hh Hs Hl Hfb. destruct (_data_blocks_bounds (size ino) Hs) as [Hn _].
  fold (data_blocks ino) in Hn. change MAX_DATA_BLOCKS with 16540 in Hn. unfold inode_ok in *.
  unfold clear_size. set (n := data_blocks ino) in *. change INODE_DIRECT_COUNT with 28.
  cbn [direct set_size].
  destruct (clear_direct_spec (Z.to_nat 28) 0 (Z.min n 28) (direct ino) []) as (dir & Hcl & Hdir & Hdu);
    try lia. rewrite Hcl. clear Hcl. unfold slice. rewrite Z.sub_0_r. change (Z.to_nat 0) with O.
  rewrite drop_0. cbn [app].
  destruct (Z.ltb_spec 28 n).
  2:{ exists (set_direct dir (set_size 0 ino)). cbn [size type_ direct set_direct set_size].
    split_and!; [|done|done|lia|intros (? & ? & ? & ?); split_and!; by auto].
    rewrite inode_list_small in Hl by lia. injection Hl as <-.
    rewrite Z.min_l by lia. done. }
  rewrite (Z.min_r n 28), (take_ge (direct ino)) by lia. assert (n -u 28 = n - 28) as -> by mach.
  change INODE_INDIRECT1_COUNT with 128. cbn [indirect1 indirect2 set_direct set_size].
  set (ino1 := set_indirect1 0 (set_direct dir (set_size 0 ino))).
  assert (∃ b1, d !! indirect1 ino = Some b1 ∧ indirect1 ino ∈ l ∧
    ((n ≤ 156 ∧ l = direct ino ++ indirect1 ino :: take (Z.to_nat (n - 28)) (entries b1)) ∨
     156 < n ∧ ∃ b2 s, d !! indirect2 ino = Some b2 ∧ sub_lists d (entries b2) (n - 156) = Some s ∧
       l = direct ino ++ indirect1 ino :: entries b1 ++ indirect2 ino :: s))
    as (b1 & Hb1 & Hi1 & Hcase).
  { destruct (decide (n ≤ 156)).
    - apply inode_list_mid in Hl as (b1 & Hb1 & ->); [|lia]. exists b1. split_and!; [done|elt|by left].
    - apply inode_list_big in Hl as (b1 & b2 & s & Hb1 & Hb2 & Hs' & ->); [|lia].
      exists b1. split_and!; [done|elt|]. right. split; [lia|]. by exists b2, s. }
  destruct (fb_block _ _ _ Hfb (indirect1 ino) Hi1) as (c & Hc & Hl1 & _).
  rewrite Hb1 in Hc. injection Hc as <-.
  pose proof (fb_lock _ _ _ Hfb _ Hi1) as Hlk1.
  destruct Hcase as [[Hle ->]|(Hgt & b2 & s & Hb2 & Hs2 & ->)].
  - exists ino1. split_and!; [|done|done|cbn; lia|intros (? & ? & ? & ?); split_and!; by auto].
    eapply runs_bind; [apply runs_ret|]. cbn beta iota. eapply runs_bind.
    + eapply runs_modify_same; [done..|apply runs_ret].
    + destruct (Z.ltb_spec 128 (n - 28)); [lia|]. rewrite Z.min_l by lia.
      rewrite <- app_assoc. apply runs_ret.
  - exists (set_indirect2 0 ino1).
    split_and!; [|done|done|cbn; lia|intros (? & ? & ? & ?); split_and!; by auto].
    eapply runs_bind; [apply runs_ret|]. cbn beta iota. eapply runs_bind.
    { eapply runs_modify_same; [done..|apply runs_ret]. }
    destruct (Z.ltb_spec 128 (n - 28)); [|lia]. rewrite Z.min_r by lia.
    rewrite take_ge by (rewrite length_arr_list; done).
    assert (n - 28 -u 128 = n - 156) as -> by mach.
    eapply runs_bind; [apply runs_passert, Z.leb_le; change INODE_INDIRECT2_COUNT with 16384; lia|].
    rewrite app_comm_cons, app_assoc in Hfb. apply fresh_blocks_suffix in Hfb as Hfb2.
    destruct (fb_block _ _ _ Hfb2 (indirect2 ino)) as (c & Hc & Hl2 & _); [elt|].
    rewrite Hb2 in Hc. injection Hc as <-.
    eapply runs_bind; [eapply runs_modify_same;
      [apply (fb_lock _ _ _ Hfb2); elt|done..|]|].
    + apply (clear_sub_spec d (indirect2 ino :: h) b2 (n - 156) s); [done|lia|].
      by apply fresh_blocks_hold.
    + rewrite <- !app_assoc. apply runs_ret.
Qed.
