(* ===== verification/InodeData.v ===== *)
(** * InodeData: what an inode's blocks hold

    [contents d l n] is the concatenation of the first [n] data blocks of an
    inode whose block list is [l].  [read_at] returns a slice of it,
    [write_at] splices the buffer into it, and neither changes the index. *)

From stdpp Require Import base gmap list numbers.
From S2P Require Import Prelude Bytes BlockIO Bitmap Layout InodeIndex.

(** The ids of the first [n] data blocks, and their bytes. *)
Definition data_ids (l : list Z) (n : Z) : list Z :=
  (λ i, l !!! Z.to_nat (pos i)) <$> seqZ 0 n.
Definition block_bytes (d : gmap Z (list Z)) (x : Z) : list Z := default [] (d !! x).
Definition contents (d : gmap Z (list Z)) (l : list Z) (n : Z) : list Z :=
  concat (block_bytes d <$> data_ids l n).

(** The bytes of the file. *)
Definition file_data (d : gmap Z (list Z)) (ino : DiskInode) (l : list Z) : list Z :=
  take (Z.to_nat (size ino)) (contents d l (data_blocks ino)).

(** ** Only the index blocks matter to the list *)
Lemma sub_lists_index d d' subs : ∀ n l,
  sub_lists d subs n = Some l →
  (∀ p x, l !! p = Some x → sub_idx p → d' !! x = d !! x) → sub_lists d' subs n = Some l.
Proof.
  induction subs as [|x subs IH]; intros n l Hl Hd; [done|].
  destruct (decide (n ≤ 0)) as [|Hn]; [by rewrite sub_lists_0 in *|].
  apply sub_lists_cons in Hl as (b & rest & Hb & Hrest & ->); [|lia].
  apply sub_lists_cons; [lia|]. exists b, rest. split_and!; [| |done].
  - rewrite (Hd O); [done|done|by exists O].
  - destruct (decide (n ≤ 128)); [by rewrite sub_lists_0 in Hrest |- * by lia|].
    apply IH; [done|]. intros p y Hp [q ->]. apply (Hd (129 * S q)%nat); [|by exists (S q)].
    replace (129 * S q)%nat with (S (128 + 129 * q)) by lia. rewrite lookup_S_cons.
    rewrite take_ge, lookup_app_r; rewrite length_entries; try lia.
    by replace (128 + 129 * q - 128)%nat with (129 * q)%nat by lia.
Qed.

Lemma inode_list_index d d' ino n l :
  inode_ok ino → inode_list d ino n = Some l →
  (∀ p x, l !! p = Some x → index_pos p → d' !! x = d !! x) → inode_list d' ino n = Some l.
Proof.
  unfold inode_ok. intros Hok Hl Hd.
  destruct (decide (n ≤ 28)); [by rewrite inode_list_small in *|].
  destruct (decide (n ≤ 156)).
  - apply inode_list_mid in Hl as (b1 & Hb1 & ->); [|lia]. apply inode_list_mid; [lia|].
    exists b1. rewrite (Hd 28%nat); [done| |by left]. rewrite lookup_app_r by lia. by rewrite Hok.
  - apply inode_list_big in Hl as (b1 & b2 & subs & Hb1 & Hb2 & Hs & ->); [|lia].
    apply inode_list_big; [lia|]. exists b1, b2, subs.
    rewrite (Hd 28%nat (indirect1 ino)); [|rewrite lookup_app_r by lia; by rewrite Hok|by left].
    rewrite (Hd 157%nat (indirect2 ino)); [| |by right; left].
    2:{ erewrite lookup_app_cons with (i := 128%nat) by lia.
      rewrite lookup_app_r; rewrite length_entries; done. }
    split_and!; [done..| |done]. eapply sub_lists_index; [done|].
    intros p x Hp [q ->]. apply (Hd (158 + 129 * q)%nat); [|right; right; by exists q].
    erewrite lookup_app_cons with (i := (129 + 129 * q)%nat) by lia.
    erewrite lookup_app_cons; [done|]. rewrite length_entries. lia.
Qed.

(** ** The data blocks of a list *)
Section ids.
Context (d : gmap Z (list Z)) (ino : DiskInode) (n : Z) (l : list Z).
Hypothesis Hok : inode_ok ino.
Hypothesis Hl : inode_list d ino n = Some l.

Lemma pos_bound i : 0 ≤ i < n → (Z.to_nat (pos i) < length l)%nat.
Proof using All.
  intros Hi. apply length_inode_list in Hl; [|done|lia].
  unfold pos, block_count, sub_pos, sub_count in *.
  destruct (Z.ltb_spec i 28), (Z.leb_spec n 28), (Z.ltb_spec i 156), (Z.leb_spec n 156); try lia.
  all: pose proof (Z.div_mod (n - 156 + 127) 128 ltac:(lia)).
  all: pose proof (Z.mod_pos_bound (n - 156 + 127) 128 ltac:(lia)).
  all: pose proof (Z.div_mod (i - 156) 128 ltac:(lia)).
  all: pose proof (Z.mod_pos_bound (i - 156) 128 ltac:(lia)).
  all: assert (0 ≤ (n - 156 + 127) / 128) by (apply Z.div_pos; lia); lia.
Qed.

Lemma lookup_data_ids i : 0 ≤ i < n → data_ids l n !! Z.to_nat i = l !! Z.to_nat (pos i).
Proof using All.
  intros Hi. unfold data_ids. rewrite list_lookup_fmap, lookup_seqZ_lt by lia. simpl.
  rewrite Z2Nat.id by lia. symmetry. by apply list_lookup_lookup_total_lt, pos_bound.
Qed.

Lemma length_data_ids : length (data_ids l n) = Z.to_nat n.
Proof using Type. unfold data_ids. by rewrite length_fmap, length_seqZ. Qed.

Lemma data_ids_in x :
  x ∈ data_ids l n → ∃ i, 0 ≤ i < n ∧ l !! Z.to_nat (pos i) = Some x.
Proof using All.
  intros [j Hj]%list_elem_of_lookup. pose proof (lookup_lt_Some _ _ _ Hj) as Hlt.
  rewrite length_data_ids in Hlt. exists (Z.of_nat j). split; [lia|].
  rewrite <- lookup_data_ids by lia. by rewrite Nat2Z.id.
Qed.

Lemma data_ids_NoDup : NoDup l → NoDup (data_ids l n).
Proof using All.
  intros Hnd. apply NoDup_alt. intros i j x Hi Hj.
  pose proof (lookup_lt_Some _ _ _ Hi) as Hi'. pose proof (lookup_lt_Some _ _ _ Hj) as Hj'.
  rewrite length_data_ids in Hi', Hj'.
  rewrite <- (Nat2Z.id i), lookup_data_ids in Hi by lia.
  rewrite <- (Nat2Z.id j), lookup_data_ids in Hj by lia.
  pose proof (NoDup_lookup _ _ _ _ Hnd Hi Hj) as Heq.
  pose proof (pos_lt (Z.of_nat i) (Z.of_nat j)). pose proof (pos_lt (Z.of_nat j) (Z.of_nat i)).
  lia.
Qed.
End ids.

(** ** Contents *)

(** The hypotheses of reading and writing an inode with [n] data blocks. *)
Record inode_at (d : gmap Z (list Z)) (h : list Z) (ino : DiskInode) (n : Z) (l : list Z) : Prop := {
  ia_ok : inode_ok ino;
  ia_max : n ≤ MAX_DATA_BLOCKS;
  ia_list : inode_list d ino n = Some l;
  ia_fresh : fresh_blocks d h l;
}.

Section contents.
Context (d : gmap Z (list Z)) (h : list Z) (ino : DiskInode) (n : Z) (l : list Z).
Hypothesis Hia : inode_at d h ino n l.

(** Data block [i]: where [get_block_id] finds it, and what it holds. *)
Lemma data_block i :
  0 ≤ i < n → ∃ x b, l !! Z.to_nat (pos i) = Some x ∧ runs (get_block_id ino i) h d x d ∧
    lockable x h ∧ d !! x = Some b ∧ length b = Z.to_nat BLOCK_SZ ∧ Forall is_byte b ∧
    (block_bytes d <$> data_ids l n) !! Z.to_nat i = Some b.
Proof using All.
  intros Hi. destruct Hia as [Hok Hmax Hl Hfb].
  destruct (get_block_id_list d ino n l i h) as (x & Hx & Hrun); try done.
  { intros y Hy. split; by apply Hfb. }
  assert (x ∈ l) as Hin by (by eapply list_elem_of_lookup_2).
  destruct (fb_block _ _ _ Hfb x Hin) as (b & Hb & Hlb & Hbb).
  exists x, b. split_and!; try done; [by apply Hfb|].
  rewrite list_lookup_fmap, (lookup_data_ids d ino n l) by done. rewrite Hx. simpl.
  unfold block_bytes. by rewrite Hb.
Qed.

Lemma contents_blocks : 0 ≤ n → Forall (λ b, length b = 512%nat) (block_bytes d <$> data_ids l n).
Proof using All.
  intros Hn. apply Forall_lookup_2. intros i b Hib.
  pose proof (lookup_lt_Some _ _ _ Hib) as Hlt. rewrite length_fmap, length_data_ids in Hlt.
  destruct (data_block (Z.of_nat i)) as (x & b' & _ & _ & _ & _ & Hlb & _ & Hb'); [lia|].
  rewrite Nat2Z.id in Hb'. rewrite Hib in Hb'. by injection Hb' as <-.
Qed.

Lemma length_contents : 0 ≤ n → Z.of_nat (length (contents d l n)) = 512 * n.
Proof using All.
  intros Hn. unfold contents. rewrite (length_concat_blocks 512) by (by apply contents_blocks).
  rewrite length_fmap, length_data_ids. lia.
Qed.
End contents.

(** Writing data block [i] changes that part of the contents, and leaves the
    inode as it was. *)
Lemma contents_write d h ino n l i x b b' :
  inode_at d h ino n l → 0 ≤ i < n → l !! Z.to_nat (pos i) = Some x →
  d !! x = Some b → length b' = Z.to_nat BLOCK_SZ → Forall is_byte b' →
  inode_at (<[x := b']> d) h ino n l ∧
  contents (<[x := b']> d) l n = concat (<[Z.to_nat i := b']> (block_bytes d <$> data_ids l n)).
Proof.
  intros [Hok Hmax Hl Hfb] Hi Hx Hb Hlb Hbb. split.
  - split; [done..| |by apply fresh_blocks_insert].
    eapply inode_list_index; [done..|]. intros p y Hy Hp.
    rewrite lookup_insert_ne; [done|]. intros <-.
    pose proof (NoDup_lookup _ _ _ _ (fb_nodup _ _ _ Hfb) Hx Hy) as <-.
    by eapply pos_not_index; [|exact Hp]; lia.
  - unfold contents. f_equal. apply list_eq. intros j.
    destruct (decide (j < Z.to_nat n)%nat) as [Hj|Hj].
    2:{ rewrite !lookup_ge_None_2; [done|..];
        rewrite ?length_insert, length_fmap, length_data_ids; lia. }
    pose proof (data_ids_NoDup d ino n l Hok Hl (fb_nodup _ _ _ Hfb)) as Hnd.
    pose proof (lookup_data_ids d ino n l Hok Hl i Hi) as Hxi. rewrite Hx in Hxi.
    rewrite list_lookup_fmap. destruct (decide (j = Z.to_nat i)) as [->|Hne].
    + rewrite list_lookup_insert_eq by (rewrite length_fmap, length_data_ids; lia).
      rewrite Hxi. simpl. unfold block_bytes. by rewrite lookup_insert_eq.
    + rewrite list_lookup_insert_ne, list_lookup_fmap by done.
      destruct (data_ids l n !! j) as [y|] eqn:Hy; [|done]. simpl. f_equal.
      unfold block_bytes. rewrite lookup_insert_ne; [done|]. intros <-.
      by pose proof (NoDup_lookup _ _ _ _ Hnd Hxi Hy).
Qed.

(** ** Reading *)

(** The part of a transfer that lies in one block. *)
Lemma chunk_bounds start end_ :
  0 ≤ start < end_ → end_ < 2 ^ 63 →
  let e := Z.min ((start / BLOCK_SZ +u 1) *u BLOCK_SZ) end_ in
  e = Z.min (512 * (start / 512) + 512) end_ ∧ start < e ≤ end_ ∧ e -u start = e - start ∧
  start mod 512 + (e - start) ≤ 512 ∧ (e ≠ end_ → e / 512 = start / 512 + 1) ∧
  start = 512 * (start / 512) + start mod 512 ∧ 0 ≤ start mod 512 < 512 ∧ 0 ≤ start / 512.
Proof.
  intros Hs He e. change BLOCK_SZ with 512 in *. change (2 ^ 63) with 9223372036854775808 in He.
  pose proof (Z.div_mod start 512 ltac:(lia)). pose proof (Z.mod_pos_bound start 512 ltac:(lia)).
  assert (0 ≤ start / 512) by (apply Z.div_pos; lia).
  assert (e = Z.min (512 * (start / 512) + 512) end_) as ->.
  { subst e. rewrite (uadd_small _ 1), umul_small by (mach_unfold; lia). lia. }
  split_and!; try lia; [mach|]. intros Hne.
  rewrite Z.min_l by lia. symmetry. apply Z.div_unique with 0; lia.
Qed.

Lemma in_buf_true buf lo n : lo + n ≤ Z.of_nat (length buf) → in_buf buf lo n = true.
Proof. intros H. by apply Z.leb_le. Qed.

Lemma read_loop_spec d h ino n l : inode_at d h ino n l → ∀ fuel start end_ r buf,
  0 ≤ start < end_ → end_ ≤ 512 * n → (Z.to_nat (end_ - start) < fuel)%nat →
  0 ≤ r → r + (end_ - start) ≤ Z.of_nat (length buf) < 2 ^ 63 →
  runs (read_loop fuel ino start end_ (start / 512) r buf) h d
    (r + (end_ - start),
     splice (Z.to_nat r) (slice (Z.to_nat start) (Z.to_nat (end_ - start)) (contents d l n)) buf) d.
Proof.
  intros Hia fuel. induction fuel as [|fuel IH]; intros start end_ r buf Hs He Hf Hr Hbuf; [lia|].
  pose proof (ia_max _ _ _ _ _ Hia) as Hmax. change MAX_DATA_BLOCKS with 16540 in Hmax.
  change (2 ^ 63) with 9223372036854775808 in *.
  destruct (chunk_bounds start end_) as (Heq & Hse & Hk & Hin & Hnext & Hst & Hmod & Hdiv); [done|lia|].
  cbn [read_loop]. cbn zeta.
  set (e := Z.min ((start / BLOCK_SZ +u 1) *u BLOCK_SZ) end_) in *. change BLOCK_SZ with 512. rewrite Hk.
  destruct (data_block d h ino n l Hia (start / 512)) as (x & b & _ & Hget & Hlk & Hb & Hlb & _ & Hbi);
    [lia|]. change (Z.to_nat BLOCK_SZ) with 512%nat in Hlb.
  assert (slice (Z.to_nat (start mod 512)) (Z.to_nat (e - start)) b =
    slice (Z.to_nat start) (Z.to_nat (e - start)) (contents d l n)) as Hsl.
  { symmetry. unfold contents. replace (Z.to_nat start)
      with (512 * Z.to_nat (start / 512) + Z.to_nat (start mod 512))%nat by lia.
    apply concat_slice; [|done|lia]. apply (contents_blocks d h ino n l); [done|lia]. }
  pose proof (length_contents d h ino n l Hia ltac:(lia)) as HC.
  assert (length (slice (Z.to_nat start) (Z.to_nat (e - start)) (contents d l n))
    = Z.to_nat (e - start)) as Hlen by (rewrite length_slice; lia).
  eapply runs_bind; [by apply runs_passert, in_buf_true; lia|].
  rewrite wrap_small by (mach_unfold; lia). eapply runs_bind; [exact Hget|].
  eapply runs_bind.
  { eapply runs_read_block; [done..|]. eapply runs_bind; [by apply runs_passert, in_buf_true; lia|].
    rewrite Hsl. apply runs_ret. }
  assert (r +u (e - start) = r + (e - start)) as -> by mach.
  destruct (Z.eqb_spec e end_) as [Heend|Hne]; [by rewrite Heend|].
  rewrite (uadd_small _ 1) by (mach_unfold; lia). rewrite <- Hnext by done.
  set (buf' := splice _ _ _).
  assert (length buf' = length buf) as Hl' by (apply length_splice; lia).
  specialize (IH e end_ (r + (e - start)) buf').
  replace (r + (e - start) + (end_ - e)) with (r + (end_ - start)) in IH by lia.
  replace (splice (Z.to_nat r) (slice (Z.to_nat start) (Z.to_nat (end_ - start)) (contents d l n)) buf)
    with (splice (Z.to_nat (r + (e - start)))
      (slice (Z.to_nat e) (Z.to_nat (end_ - e)) (contents d l n)) buf'); [apply IH; lia|].
  replace (Z.to_nat (end_ - start)) with (Z.to_nat (e - start) + Z.to_nat (end_ - e))%nat by lia.
  rewrite slice_app. replace (Z.to_nat start + Z.to_nat (e - start))%nat with (Z.to_nat e) by lia.
  rewrite <- splice_app by (rewrite Hlen, length_slice; lia). rewrite Hlen.
  by replace (Z.to_nat r + Z.to_nat (e - start))%nat with (Z.to_nat (r + (e - start))) by lia.
Qed.

(** [read_at] copies the part of the file that the buffer covers. *)
Lemma read_at_spec d h ino l off buf :
  inode_at d h ino (data_blocks ino) l → 0 ≤ size ino ≤ MAX_FILE_SIZE →
  0 ≤ off < 2 ^ 62 → Z.of_nat (length buf) < 2 ^ 62 →
  let k := Z.max 0 (Z.min (off + Z.of_nat (length buf)) (size ino) - off) in
  runs (read_at ino off buf) h d
    (k, splice 0 (slice (Z.to_nat off) (Z.to_nat k) (file_data d ino l)) buf) d.
Proof.
  intros Hia Hs Hoff Hbuf k. destruct (_data_blocks_bounds (size ino) Hs) as [Hn Hsz].
  fold (data_blocks ino) in *. unfold read_at.
  change (2 ^ 62) with 4611686018427387904 in *.
  assert (off +u Z.of_nat (length buf) = off + Z.of_nat (length buf)) as -> by mach.
  set (end_ := Z.min _ _) in *. destruct (Z.leb_spec end_ off).
  { assert (k = 0) as -> by lia. unfold slice. simpl. apply runs_ret. }
  assert (k = end_ - off) as -> by lia. change BLOCK_SZ with 512.
  replace (slice (Z.to_nat off) (Z.to_nat (end_ - off)) (file_data d ino l))
    with (slice (Z.to_nat off) (Z.to_nat (end_ - off)) (contents d l (data_blocks ino))).
  - change 0%nat with (Z.to_nat 0). eapply read_loop_spec; [done|lia..].
  - unfold slice, file_data. rewrite !take_drop_commute, take_take. do 2 f_equal. lia.
Qed.

(** ** Writing *)

(** What a write that changes the contents to [C] leaves alone. *)
Record written (d : gmap Z (list Z)) (h : list Z) (ino : DiskInode) (n : Z) (l C : list Z)
    (d' : gmap Z (list Z)) : Prop := {
  wr_inode : inode_at d' h ino n l;
  wr_contents : contents d' l n = C;
  wr_frame x : x ∉ data_ids l n → d' !! x = d !! x;
  wr_ok x : block_ok d x → block_ok d' x;
}.

Lemma written_trans d h ino n l C1 d1 C2 d2 :
  written d h ino n l C1 d1 → written d1 h ino n l C2 d2 → written d h ino n l C2 d2.
Proof.
  intros [H1 H2 H3 H4] [K1 K2 K3 K4]. split; auto. intros x Hx. rewrite K3, H3; done.
Qed.

Lemma splice_bytes off v b : Forall is_byte v → Forall is_byte b → Forall is_byte (splice off v b).
Proof.
  intros Hv Hb. unfold splice. rewrite !Forall_app. split_and!; [by apply Forall_take|done|].
  by apply Forall_drop.
Qed.

Lemma slice_bytes off k b : Forall is_byte b → Forall is_byte (slice off k b).
Proof. intros Hb. by apply Forall_take, Forall_drop. Qed.

(** Writing [v] into data block [i] at offset [o]. *)
Lemma write_chunk d h ino n l i o v :
  inode_at d h ino n l → 0 ≤ i < n → 0 ≤ o → o + Z.of_nat (length v) ≤ 512 → Forall is_byte v →
  ∃ x b, runs (get_block_id ino i) h d x d ∧ lockable x h ∧ d !! x = Some b ∧
    length b = Z.to_nat BLOCK_SZ ∧ length (splice (Z.to_nat o) v b) = Z.to_nat BLOCK_SZ ∧
    written d h ino n l (splice (Z.to_nat (512 * i + o)) v (contents d l n))
      (<[x := splice (Z.to_nat o) v b]> d).
Proof.
  intros Hia Hi Ho Hv Hvb.
  destruct (data_block d h ino n l Hia i) as (x & b & Hx & Hget & Hlk & Hb & Hlb & Hbb & Hbi); [lia|].
  exists x, b. pose proof Hlb as Hlb0. change (Z.to_nat BLOCK_SZ) with 512%nat in Hlb0.
  assert (length (splice (Z.to_nat o) v b) = Z.to_nat BLOCK_SZ) as Hl'
    by (rewrite length_splice; lia).
  assert (Forall is_byte (splice (Z.to_nat o) v b)) as Hbb' by (by apply splice_bytes).
  destruct (contents_write d h ino n l i x b (splice (Z.to_nat o) v b)) as [Hia' HC']; try done.
  split_and!; try done. split; [done| | |intros y; by apply block_ok_insert].
  - rewrite HC', <- (concat_splice 512); [|apply (contents_blocks d h ino n l); [done|lia]|done|lia].
    f_equal. lia.
  - intros y Hy. rewrite lookup_insert_ne; [done|]. intros ->. apply Hy.
    apply list_elem_of_lookup_2 with (Z.to_nat i).
    rewrite (lookup_data_ids d ino n l); [done|apply Hia|apply Hia|lia].
Qed.

Lemma write_loop_spec h ino n l : ∀ fuel d start end_ w buf,
  inode_at d h ino n l → Forall is_byte buf →
  0 ≤ start < end_ → end_ ≤ 512 * n → (Z.to_nat (end_ - start) < fuel)%nat →
  0 ≤ w → w + (end_ - start) ≤ Z.of_nat (length buf) < 2 ^ 63 →
  ∃ d', runs (write_loop fuel ino start end_ (start / 512) w buf) h d (w + (end_ - start)) d' ∧
    written d h ino n l (splice (Z.to_nat start)
      (slice (Z.to_nat w) (Z.to_nat (end_ - start)) buf) (contents d l n)) d'.
Proof.
  intros fuel. induction fuel as [|fuel IH];
    intros d start end_ w buf Hia Hbytes Hs He Hf Hw Hbuf; [lia|].
  pose proof (ia_max _ _ _ _ _ Hia) as Hmax. change MAX_DATA_BLOCKS with 16540 in Hmax.
  change (2 ^ 63) with 9223372036854775808 in *.
  destruct (chunk_bounds start end_) as (Heq & Hse & Hk & Hin & Hnext & Hst & Hmod & Hdiv); [done|lia|].
  cbn [write_loop]. cbn zeta.
  set (e := Z.min ((start / BLOCK_SZ +u 1) *u BLOCK_SZ) end_) in *. change BLOCK_SZ with 512. rewrite Hk.
  assert (length (slice (Z.to_nat w) (Z.to_nat (e - start)) buf) = Z.to_nat (e - start)) as Hlv
    by (rewrite length_slice; lia).
  destruct (write_chunk d h ino n l (start / 512) (start mod 512)
    (slice (Z.to_nat w) (Z.to_nat (e - start)) buf))
    as (x & b & Hget & Hlk & Hb & Hlb & Hlb' & Hwr); try done; try lia; [by apply slice_bytes|].
  rewrite <- Hst in Hwr. rewrite wrap_small by (mach_unfold; lia). unfold runs.
  erewrite run_bind_runs; [|exact Hget]. erewrite run_bind_runs.
  2:{ eapply runs_modify_block_pure; [done..| |done].
    change (Z.to_nat BLOCK_SZ) with 512%nat in Hlb. rewrite !in_buf_true by lia. done. }
  assert (w +u (e - start) = w + (e - start)) as -> by mach.
  destruct (Z.eqb_spec e end_) as [Heend|Hne]; [rewrite Heend in *; by eexists|].
  rewrite (uadd_small _ 1) by (mach_unfold; lia). rewrite <- Hnext by done.
  destruct (IH _ e end_ (w + (e - start)) buf (wr_inode _ _ _ _ _ _ _ Hwr)) as (d' & Hrun & Hwr');
    try done; try lia.
  exists d'. replace (w + (e - start) + (end_ - e)) with (w + (end_ - start)) in Hrun by lia.
  split; [done|]. eapply written_trans; [done|].
  rewrite (wr_contents _ _ _ _ _ _ _ Hwr) in Hwr'.
  replace (Z.to_nat (end_ - start)) with (Z.to_nat (e - start) + Z.to_nat (end_ - e))%nat by lia.
  rewrite slice_app.
  replace (Z.to_nat w + Z.to_nat (e - start))%nat with (Z.to_nat (w + (e - start))) by lia.
  pose proof (length_contents d h ino n l Hia ltac:(lia)) as HC.
  rewrite <- splice_app by (rewrite Hlv, length_slice; lia). rewrite Hlv.
  by replace (Z.to_nat start + Z.to_nat (e - start))%nat with (Z.to_nat e) by lia.
Qed.

(** [write_at] puts the part of the buffer that fits the file into it. *)
Lemma write_at_spec d h ino l off buf :
  inode_at d h ino (data_blocks ino) l → 0 ≤ size ino ≤ MAX_FILE_SIZE → Forall is_byte buf →
  0 ≤ off < size ino → 0 < Z.of_nat (length buf) < 2 ^ 62 →
  let k := Z.min (off + Z.of_nat (length buf)) (size ino) - off in
  ∃ d', runs (write_at ino off buf) h d k d' ∧
    written d h ino (data_blocks ino) l
      (splice (Z.to_nat off) (take (Z.to_nat k) buf) (contents d l (data_blocks ino))) d'.
Proof.
  intros Hia Hs Hbytes Hoff Hbuf k. destruct (_data_blocks_bounds (size ino) Hs) as [Hn Hsz].
  fold (data_blocks ino) in *. unfold write_at. change MAX_FILE_SIZE with 8468480 in Hs.
  change (2 ^ 62) with 4611686018427387904 in *.
  assert (off +u Z.of_nat (length buf) = off + Z.of_nat (length buf)) as -> by mach.
  set (end_ := Z.min _ _) in *. unfold runs.
  erewrite run_bind_runs; [|apply runs_passert, Z.leb_le; lia]. change BLOCK_SZ with 512.
  destruct (write_loop_spec h ino (data_blocks ino) l (S (Z.to_nat (end_ - off))) d off end_ 0 buf)
    as (d' & Hrun & Hwr); try done; try lia.
  exists d'. split; [exact Hrun|]. unfold slice in Hwr. change (Z.to_nat 0) with O in Hwr.
  by rewrite drop_0 in Hwr.
Qed.
