(* ===== verification/LayoutCodec.v ===== *)
(** * LayoutCodec: the on-disk structures and their bytes

    Writing a super block, an inode or a directory entry and reading it back
    gives the same value; names come back from directory entries. *)

From stdpp Require Import base gmap list numbers.
From S2P Require Import Prelude Bytes BlockIO Layout InodeIndex InodeData.

Lemma slice_app_l {A} off n (a b : list A) :
  (off + n ≤ length a)%nat → slice off n (a ++ b) = slice off n a.
Proof. intros H. unfold slice. by rewrite drop_app_le, take_app_le by len. Qed.

Lemma splice_0 {A} (x b : list A) : splice 0 x b = x ++ drop (length x) b.
Proof. done. Qed.

(** Word [i] of a sequence of words. *)
Lemma arr_get_words vs rest i v :
  vs !! i = Some v → in_u 32 v →
  arr_get 4 (concat (le_bytes 4 <$> vs) ++ rest) (Z.of_nat i) = v.
Proof.
  intros Hi Hv. unfold arr_get. rewrite Nat2Z.id.
  assert (Forall (λ b, length b = 4%nat) (le_bytes 4 <$> vs)) as Hf
    by (apply Forall_fmap, Forall_true; intros x; apply length_le_bytes).
  apply lookup_lt_Some in Hi as Hlt.
  rewrite slice_app_l by (rewrite (length_concat_blocks 4), length_fmap by done; lia).
  rewrite <- (Nat.add_0_r (4 * i)), (concat_slice 4 _ Hf i (le_bytes 4 v)); [| |lia].
  - rewrite <- (length_le_bytes 4 v) at 1. rewrite slice_all. by apply (le_val_bytes_id 4).
  - by rewrite list_lookup_fmap, Hi.
Qed.

Lemma length_words vs : length (concat (le_bytes 4 <$> vs)) = (4 * length vs)%nat.
Proof.
  rewrite (length_concat_blocks 4), length_fmap; [done|].
  apply Forall_fmap, Forall_true. intros x. apply length_le_bytes.
Qed.

Lemma words_bytes vs : Forall is_byte (concat (le_bytes 4 <$> vs)).
Proof.
  induction vs as [|v vs IH]; [constructor|]. cbn [fmap list_fmap concat].
  apply Forall_app. split; [apply le_bytes_byte|done].
Qed.

(** ** The super block *)
Definition super_u32 (sb : SuperBlock) : Prop :=
  in_u 32 (magic sb) ∧ in_u 32 (total_blocks_of sb) ∧ in_u 32 (inode_bitmap_blocks sb) ∧
  in_u 32 (inode_area_blocks sb) ∧ in_u 32 (data_bitmap_blocks sb) ∧ in_u 32 (data_area_blocks sb).

Lemma SuperBlock_decode_encode sb rest :
  super_u32 sb → SuperBlock_decode (SuperBlock_encode sb ++ rest) = sb.
Proof.
  intros (H0 & H1 & H2 & H3 & H4 & H5). unfold SuperBlock_decode, SuperBlock_encode.
  destruct sb as [m t ib ia db da]. cbn [magic total_blocks_of inode_bitmap_blocks
    inode_area_blocks data_bitmap_blocks data_area_blocks] in *.
  f_equal; [eapply (arr_get_words _ _ 0)|eapply (arr_get_words _ _ 1)|eapply (arr_get_words _ _ 2)
    |eapply (arr_get_words _ _ 3)|eapply (arr_get_words _ _ 4)|eapply (arr_get_words _ _ 5)];
    done.
Qed.

Lemma length_SuperBlock_encode sb : length (SuperBlock_encode sb) = Z.to_nat SUPER_BLOCK_SIZE.
Proof. unfold SuperBlock_encode. by rewrite length_words. Qed.

(** ** Inodes *)
Lemma type_of_tag_of_type t : type_of_tag (tag_of_type t) = Some t.
Proof. by destruct t. Qed.

Section inode.
Context (ino : DiskInode) (old : list Z).
Hypothesis Hok : inode_ok ino.
Hypothesis Hu : inode_u32 ino.
Hypothesis Hold : length old = Z.to_nat DISK_INODE_SIZE.

Let ws : list Z := size ino :: direct ino ++ [indirect1 ino; indirect2 ino].

Lemma length_inode_words : length ws = 31%nat.
Proof using Hok. unfold ws. rewrite length_cons, length_app, Hok. done. Qed.

Lemma length_DiskInode_encode : length (DiskInode_encode ino old) = Z.to_nat DISK_INODE_SIZE.
Proof using Hok Hold.
  unfold DiskInode_encode. rewrite length_splice; [done|].
  rewrite length_app. fold ws. rewrite length_words, length_inode_words, Hold.
  change (Z.to_nat DISK_INODE_SIZE) with 128%nat. cbn [length]. lia.
Qed.

Lemma DiskInode_encode_eq :
  DiskInode_encode ino old
  = concat (le_bytes 4 <$> ws) ++ [tag_of_type (type_ ino)] ++ drop 125 old.
Proof using Hok.
  unfold DiskInode_encode. fold ws. rewrite splice_0, <- app_assoc, length_app, length_words,
    length_inode_words. done.
Qed.

Lemma DiskInode_decode_encode : DiskInode_decode (DiskInode_encode ino old) = Some ino.
Proof using Hok Hu Hold.
  rewrite DiskInode_encode_eq. unfold DiskInode_decode.
  assert ((concat (le_bytes 4 <$> ws) ++ [tag_of_type (type_ ino)] ++ drop 125 old) !! 124%nat
    = Some (tag_of_type (type_ ino))) as ->.
  { rewrite lookup_app_r; rewrite length_words, length_inode_words; [done|lia]. }
  cbn [mbind option_bind]. rewrite type_of_tag_of_type. cbn [mbind option_bind].
  destruct Hu as (Hs & Hd & H1 & H2). unfold inode_ok in Hok.
  assert (∀ i v, ws !! i = Some v → arr_get 4 (concat (le_bytes 4 <$> ws) ++
    [tag_of_type (type_ ino)] ++ drop 125 old) (Z.of_nat i) = v) as Hget.
  { intros i v Hi. apply arr_get_words; [done|]. apply (Forall_lookup_1 (in_u 32) ws i v); [|done].
    unfold ws. rewrite list.Forall_cons, Forall_app, !list.Forall_cons. split_and!; done || constructor. }
  f_equal. destruct ino as [sz dir i1 i2 t]. cbn [size direct indirect1 indirect2 type_] in *.
  f_equal.
  - by apply (Hget 0%nat).
  - apply list_eq. intros i. rewrite list_lookup_fmap.
    destruct (decide (i < 28)%nat).
    + rewrite lookup_seqZ_lt by lia. simpl.
      destruct (lookup_lt_is_Some_2 dir i) as [v Hv]; [lia|]. rewrite Hv. f_equal.
      replace (1 + (0 + Z.of_nat i)) with (Z.of_nat (S i)) by lia. apply Hget.
      unfold ws. rewrite lookup_S_cons. by apply lookup_app_l_Some.
    + rewrite lookup_seqZ_ge, lookup_ge_None_2 by lia. done.
  - apply (Hget 29%nat). unfold ws. rewrite lookup_S_cons, lookup_app_r by lia. by rewrite Hok.
  - apply (Hget 30%nat). unfold ws. rewrite lookup_S_cons, lookup_app_r by lia. by rewrite Hok.
Qed.

Lemma DiskInode_encode_bytes : Forall is_byte old → Forall is_byte (DiskInode_encode ino old).
Proof using Type.
  intros Hb. unfold DiskInode_encode. apply splice_bytes; [|done]. apply Forall_app. split.
  - apply words_bytes.
  - apply list.Forall_cons. split; [|constructor]. unfold is_byte. by destruct (type_ ino).
Qed.
End inode.

Lemma DiskInode_decode_length b ino : DiskInode_decode b = Some ino → inode_ok ino.
Proof. by intros (tag & _ & (t & _ & [= <-])%bind_Some)%bind_Some. Qed.

(** A decoded inode has 28 direct entries, and u32 fields. *)
Lemma DiskInode_decode_ok b ino :
  DiskInode_decode b = Some ino → length b = Z.to_nat DISK_INODE_SIZE → Forall is_byte b →
  inode_ok ino ∧ inode_u32 ino.
Proof.
  intros (tag & _ & (t & _ & [= <-])%bind_Some)%bind_Some Hl Hb.
  assert (∀ i, 0 ≤ i < 32 → in_u 32 (arr_get 4 b i)) as Hr.
  { intros i Hi. apply (arr_get_range 4); [|done]. apply (arr_in_iff 4 b 32); [by rewrite Hl|done]. }
  split; [done|]. split_and!; cbn [size direct indirect1 indirect2]; try (apply Hr; lia).
  rewrite !list.Forall_cons. split_and!; [apply Hr; lia..|constructor].
Qed.

(** ** Directory entries *)
Lemma DirEntry_of_as_bytes e :
  length (name_bytes e) = 28%nat → in_u 32 (inode_number e) →
  DirEntry_of_bytes (DirEntry_as_bytes e) = e.
Proof.
  intros Hl Hu. destruct e as [nm id]. unfold DirEntry_of_bytes, DirEntry_as_bytes.
  cbn [name_bytes inode_number] in *. f_equal.
  - rewrite slice_app_l by lia. rewrite <- Hl. apply slice_all.
  - unfold slice. rewrite drop_app_length' by done.
    rewrite take_ge by (rewrite length_le_bytes; done). by apply (le_val_bytes_id 4).
Qed.

Lemma length_DirEntry_as_bytes e :
  length (name_bytes e) = 28%nat → length (DirEntry_as_bytes e) = Z.to_nat DIRENT_SZ.
Proof. intros H. unfold DirEntry_as_bytes. rewrite length_app, H, length_le_bytes. done. Qed.

Lemma DirEntry_as_bytes_bytes e :
  Forall is_byte (name_bytes e) → Forall is_byte (DirEntry_as_bytes e).
Proof. intros H. apply Forall_app. split; [done|apply le_bytes_byte]. Qed.

(** A name that fits, with its terminator: no NUL byte in it. *)
Definition good_name (s : list Z) : Prop :=
  Z.of_nat (length s) ≤ NAME_LENGTH_LIMIT ∧ Forall (λ b, is_byte b ∧ b ≠ 0) s ∧ utf8_valid s = true.

Lemma DirEntry_new_ok name id :
  Z.of_nat (length name) ≤ NAME_LENGTH_LIMIT + 1 →
  DirEntry_new name id = Ok (mkDirEntry (name ++ replicate (28 - length name) 0) id).
Proof.
  intros Hl. unfold DirEntry_new. destruct (Z.leb_spec (Z.of_nat (length name)) (NAME_LENGTH_LIMIT + 1));
    [|lia]. do 2 f_equal. rewrite splice_0, drop_replicate. done.
Qed.

Lemma DirEntry_new_too_long name id :
  NAME_LENGTH_LIMIT + 1 < Z.of_nat (length name) → DirEntry_new name id = Stop Panicked.
Proof.
  intros Hl. unfold DirEntry_new.
  by destruct (Z.leb_spec (Z.of_nat (length name)) (NAME_LENGTH_LIMIT + 1)); [lia|].
Qed.

Lemma DirEntry_name_new name id :
  good_name name → DirEntry_name (mkDirEntry (name ++ replicate (28 - length name) 0) id) = Ok name.
Proof.
  intros (Hl & Hb & Hu). unfold DirEntry_name. cbn [name_bytes]. change NAME_LENGTH_LIMIT with 27 in Hl.
  assert (find_index (λ b, b =? 0) (name ++ replicate (28 - length name) 0) = Some (length name)) as ->.
  - apply find_index_Some. exists 0. split_and!; [|done|].
    + rewrite lookup_app_r, Nat.sub_diag by lia. apply lookup_replicate. lia.
    + intros j y Hj Hy. rewrite lookup_app_l in Hy by lia.
      pose proof (Forall_lookup_1 _ _ _ _ Hb Hy) as [_ Hy0]. by apply Z.eqb_neq.
  - rewrite take_app_length. by rewrite Hu.
Qed.

(** A 28-byte name without a NUL byte is stored, but cannot be read back. *)
Lemma DirEntry_name_full name id :
  length name = 28%nat → Forall (λ b, b ≠ 0) name →
  ∃ e, DirEntry_new name id = Ok e ∧ DirEntry_name e = Stop Panicked.
Proof.
  intros Hl Hb. eexists. rewrite DirEntry_new_ok by (rewrite Hl; done). split; [done|].
  unfold DirEntry_name. cbn [name_bytes]. rewrite Hl. simpl. rewrite app_nil_r.
  assert (find_index (λ b, b =? 0) name = None) as ->; [|done].
  apply find_index_None. intros x Hx. apply Z.eqb_neq.
  by eapply (list.Forall_forall (λ b, b ≠ 0) name) in Hb.
Qed.
