(* ===== verification/Efs.v ===== *)
(** * Efs: the file system on a block device (easy-fs/src/efs.rs)

    The regions of the disk are the super block (block 0), the inode bitmap,
    the inode area, the data bitmap and the data area.  [EasyFileSystem] holds
    where they start; it never changes after [create] or [open], so the
    [Arc<Mutex<EasyFileSystem>>] that inodes share is a value here.  Each public
    operation of [Inode] takes the mutex once and calls nothing that takes it
    again. *)

From stdpp Require Import base gmap list numbers.
From S2P Require Import Prelude Bytes BlockIO Bitmap Layout.

Record EasyFileSystem : Type := mkEfs {
  inode_bitmap : Bitmap;
  data_bitmap : Bitmap;
  inode_area_start_block : Z;
  data_area_start_block : Z;
}.

(** [Bitmap::new]. *)
Definition Bitmap_new (start blocks : Z) : Bitmap := mkBitmap start blocks.

Definition get_disk_inode_pos (fs : EasyFileSystem) (inode_id : Z) : Z * Z :=
  let inode_size := DISK_INODE_SIZE in
  let inodes_per_block := wrap 32 (BLOCK_SZ / inode_size) in
  let block_id := inode_area_start_block fs +u32 inode_id / inodes_per_block in
  (block_id, (inode_id mod inodes_per_block) *u inode_size).

Definition get_data_block_id (fs : EasyFileSystem) (data_block_id : Z) : Z :=
  data_area_start_block fs +u32 data_block_id.

Definition alloc_inode (fs : EasyFileSystem) : prog Z :=
  Bitmap_alloc (inode_bitmap fs) ≫= λ o, punwrap o ≫= λ k, Ret (wrap 32 k).

(** Ids of data blocks are ids on the device, not bit numbers. *)
Definition alloc_data (fs : EasyFileSystem) : prog Z :=
  Bitmap_alloc (data_bitmap fs) ≫= λ o, punwrap o ≫= λ k,
  Ret (wrap 32 k +u32 data_area_start_block fs).

(** [for byte in data_block.iter_mut() { *byte = 0 }] on a whole block. *)
Definition zero_block (id : Z) : prog () :=
  modify id 0 BLOCK_SZ (λ b, Ret ((), (λ _, 0) <$> b)).

Definition dealloc_data (fs : EasyFileSystem) (block_id : Z) : prog () :=
  zero_block block_id ≫= λ _,
  Bitmap_dealloc (data_bitmap fs) (block_id -u32 data_area_start_block fs).

(** An inode in its 128 bytes on the disk; a byte pattern that is not a
    [DiskInode] is outside what the language defines. *)
Definition with_inode {A} (f : DiskInode → prog A) (b : list Z) : prog A :=
  match DiskInode_decode b with Some ino => f ino | None => Halt Undefined end.

Definition efs_create (total_blocks inode_bitmap_blocks : Z) : prog EasyFileSystem :=
  (* calculate block size of areas *)
  let inode_bitmap := Bitmap_new 1 inode_bitmap_blocks in
  let inode_num := Bitmap_maximum inode_bitmap in
  let inode_area_blocks :=
    wrap 32 ((inode_num *u DISK_INODE_SIZE +u BLOCK_SZ -u 1) / BLOCK_SZ) in
  let inode_total_blocks := inode_bitmap_blocks +u32 inode_area_blocks in
  let data_total_blocks := total_blocks -u32 1 -u32 inode_total_blocks in
  let data_bitmap_blocks := (data_total_blocks +u32 4096) / 4097 in
  let data_area_blocks := data_total_blocks -u32 data_bitmap_blocks in
  let data_bitmap :=
    Bitmap_new (1 +u32 inode_bitmap_blocks +u32 inode_area_blocks) data_bitmap_blocks in
  let efs := mkEfs inode_bitmap data_bitmap (1 +u32 inode_bitmap_blocks)
               (1 +u32 inode_total_blocks +u32 data_bitmap_blocks) in
  (* clear all blocks *)
  pfold (seqZ 0 total_blocks) (λ i _, zero_block i) () ≫= λ _,
  (* initialize SuperBlock *)
  modify 0 0 SUPER_BLOCK_SIZE (λ b,
    Ret ((), SuperBlock_encode (SuperBlock_initialize total_blocks inode_bitmap_blocks
                inode_area_blocks data_bitmap_blocks data_area_blocks))) ≫= λ _,
  (* create a inode for root node "/" *)
  alloc_inode efs ≫= λ id,
  passert (id =? 0) ≫= λ _,
  let '(root_inode_block_id, root_inode_offset) := get_disk_inode_pos efs 0 in
  modify root_inode_block_id root_inode_offset DISK_INODE_SIZE (λ b,
    with_inode (λ ino, Ret ((), DiskInode_encode (DiskInode_initialize Directory ino) b)) b)
    ≫= λ _,
  block_cache_sync_all ≫= λ _,
  Ret efs.

Definition efs_open : prog EasyFileSystem :=
  read 0 0 SUPER_BLOCK_SIZE (λ b,
    let super_block := SuperBlock_decode b in
    passert (SuperBlock_is_valid super_block) ≫= λ _,
    let inode_total_blocks :=
      inode_bitmap_blocks super_block +u32 inode_area_blocks super_block in
    Ret (mkEfs (Bitmap_new 1 (inode_bitmap_blocks super_block))
      (Bitmap_new (1 +u32 inode_total_blocks) (data_bitmap_blocks super_block))
      (1 +u32 inode_bitmap_blocks super_block)
      (1 +u32 inode_total_blocks +u32 data_bitmap_blocks super_block))).
