(* ===== verification/Vfs.v ===== *)
(** * Vfs: inodes as the users of the file system see them
    (easy-fs/src/vfs.rs, easy-fs-fuse/src/main.rs)

    Every operation reaches its [DiskInode] through the cache entry of the
    block that holds it, and keeps that block locked while it runs.  Names are
    lists of bytes. *)

From stdpp Require Import base gmap list numbers.
From S2P Require Import Prelude Bytes BlockIO Bitmap Layout Efs.

(** [Inode]; the shared file system is a field, the device is the one the
    programs run on. *)
Record Inode : Type := mkInode {
  block_id : Z;
  block_offset : Z;
  fs : EasyFileSystem;
}.

Definition Inode_new (block_id block_offset : Z) (fs : EasyFileSystem) : Inode :=
  mkInode block_id block_offset fs.

(** [EasyFileSystem::root_inode]. *)
Definition root_inode (efs : EasyFileSystem) : Inode :=
  let '(block_id, block_offset) := get_disk_inode_pos efs 0 in
  Inode_new block_id block_offset efs.

Definition read_disk_inode {V} (self : Inode) (f : DiskInode → prog V) : prog V :=
  read (block_id self) (block_offset self) DISK_INODE_SIZE (with_inode f).

(** The closure returns its result and the inode it leaves behind. *)
Definition modify_disk_inode {V} (self : Inode) (f : DiskInode → prog (V * DiskInode)) : prog V :=
  modify (block_id self) (block_offset self) DISK_INODE_SIZE (λ b,
    with_inode (λ ino, f ino ≫= λ '(v, ino'), Ret (v, DiskInode_encode ino' b)) b).

(** The loop of [find_inode_id]; [dirent] is the entry buffer the iterations
    share. *)
Fixpoint find_loop (name : list Z) (disk_inode : DiskInode) (idxs : list Z) (dirent : DirEntry) :
    prog (option Z) :=
  match idxs with
  | [] => Ret None
  | i :: idxs =>
      read_at disk_inode (DIRENT_SZ *u i) (DirEntry_as_bytes dirent) ≫= λ '(n, bytes),
      passert (n =? DIRENT_SZ) ≫= λ _,
      let dirent := DirEntry_of_bytes bytes in
      plift (DirEntry_name dirent) ≫= λ s,
      if bool_decide (s = name) then Ret (Some (inode_number dirent))
      else find_loop name disk_inode idxs dirent
  end.

Definition find_inode_id (name : list Z) (disk_inode : DiskInode) : prog (option Z) :=
  passert (is_dir disk_inode) ≫= λ _,
  let file_count := size disk_inode / DIRENT_SZ in
  find_loop name disk_inode (seqZ 0 file_count) DirEntry_empty.

Definition find (self : Inode) (name : list Z) : prog (option Inode) :=
  read_disk_inode self (λ disk_inode,
    find_inode_id name disk_inode ≫= λ o,
    match o with
    | Some inode_id =>
        let '(block_id, block_offset) := get_disk_inode_pos (fs self) inode_id in
        Ret (Some (Inode_new block_id block_offset (fs self)))
    | None => Ret None
    end).

(** [for _ in 0..n { v.push(fs.alloc_data()) }]. *)
Fixpoint alloc_blocks (efs : EasyFileSystem) (n : nat) (v : list Z) : prog (list Z) :=
  match n with
  | O => Ret v
  | S n => alloc_data efs ≫= λ x, alloc_blocks efs n (v ++ [x])
  end.

(** [Inode::increase_size]; the result is the updated inode. *)
Definition Inode_increase_size (self : Inode) (new_size : Z) (disk_inode : DiskInode) :
    prog DiskInode :=
  if new_size <? size disk_inode then Ret disk_inode else
  plift (blocks_num_needed disk_inode new_size) ≫= λ blocks_needed,
  alloc_blocks (fs self) (Z.to_nat blocks_needed) [] ≫= λ v,
  increase_size disk_inode new_size v.

Definition create (self : Inode) (name : list Z) : prog (option Inode) :=
  read_disk_inode self (λ root_inode,
    passert (is_dir root_inode) ≫= λ _,
    find_inode_id name root_inode) ≫= λ o,
  match o with
  | Some _ => Ret None
  | None =>
      alloc_inode (fs self) ≫= λ new_inode_id,
      let '(new_inode_block_id, new_inode_block_offset) :=
        get_disk_inode_pos (fs self) new_inode_id in
      modify new_inode_block_id new_inode_block_offset DISK_INODE_SIZE (λ b,
        with_inode (λ ino, Ret ((), DiskInode_encode (DiskInode_initialize File ino) b)) b)
        ≫= λ _,
      modify_disk_inode self (λ root_inode,
        let file_count := size root_inode / DIRENT_SZ in
        let new_size := (file_count +u 1) *u DIRENT_SZ in
        Inode_increase_size self (wrap 32 new_size) root_inode ≫= λ root_inode,
        plift (DirEntry_new name new_inode_id) ≫= λ dirent,
        write_at root_inode (file_count *u DIRENT_SZ) (DirEntry_as_bytes dirent) ≫= λ _,
        Ret ((), root_inode)) ≫= λ _,
      let '(block_id, block_offset) := get_disk_inode_pos (fs self) new_inode_id in
      block_cache_sync_all ≫= λ _,
      Ret (Some (Inode_new block_id block_offset (fs self)))
  end.

Definition ls (self : Inode) : prog (list (list Z)) :=
  read_disk_inode self (λ disk_inode,
    let file_count := size disk_inode / DIRENT_SZ in
    pfold (seqZ 0 file_count) (λ i v,
      read_at disk_inode (i *u DIRENT_SZ) (DirEntry_as_bytes DirEntry_empty) ≫= λ '(n, bytes),
      passert (n =? DIRENT_SZ) ≫= λ _,
      plift (DirEntry_name (DirEntry_of_bytes bytes)) ≫= λ s,
      Ret (v ++ [s])) []).

(** The number of bytes read, and the buffer. *)
Definition Inode_read_at (self : Inode) (offset : Z) (buf : list Z) : prog (Z * list Z) :=
  read_disk_inode self (λ disk_inode, read_at disk_inode offset buf).

Definition Inode_write_at (self : Inode) (offset : Z) (buf : list Z) : prog Z :=
  modify_disk_inode self (λ disk_inode,
    Inode_increase_size self (wrap 32 (offset +u Z.of_nat (length buf))) disk_inode
      ≫= λ disk_inode,
    write_at disk_inode offset buf ≫= λ n,
    Ret (n, disk_inode)) ≫= λ size,
  block_cache_sync_all ≫= λ _,
  Ret size.

Definition clear (self : Inode) : prog () :=
  modify_disk_inode self (λ disk_inode,
    let size := size disk_inode in
    clear_size disk_inode ≫= λ '(data_blocks_dealloc, disk_inode),
    passert (Z.of_nat (length data_blocks_dealloc) =? total_blocks size) ≫= λ _,
    pfold data_blocks_dealloc (λ data_block _, dealloc_data (fs self) data_block) () ≫= λ _,
    Ret ((), disk_inode)) ≫= λ _,
  block_cache_sync_all.

(** ** The packer (easy-fs-fuse)

    [easy_fs_pack] after the host's directory and files have been read:
    [apps] are the file names with the extension dropped, and their bytes.
    The result is what the listing prints. *)
Definition pack_apps (root : Inode) (apps : list (list Z * list Z)) : prog () :=
  pfold apps (λ '(app, all_data) _,
    create root app ≫= λ o, punwrap o ≫= λ inode,
    Inode_write_at inode 0 all_data ≫= λ _, Ret ()) ().

Definition easy_fs_pack (apps : list (list Z * list Z)) : prog (list (list Z)) :=
  efs_create (16 * 2048) 1 ≫= λ efs,
  let root := root_inode efs in
  pack_apps root apps ≫= λ _,
  ls root.
