(* ===== verification/FsState.v ===== *)
(** * FsState: what a consistent easy-fs disk is

    [fs_inv d e total G A]: on the disk [d] of [total] blocks, the file system
    [e] holds the inodes [G] (inode number to inode and block list), whose
    blocks are [A].  The bitmaps say exactly that, files share no blocks, free
    data blocks are zero and so is what follows a file's last byte in its last
    block.  This file has the allocation layer over that invariant. *)

From stdpp Require Import base gmap list numbers.
From S2P Require Import Prelude Bytes BlockIO Bitmap Layout InodeIndex InodeData LayoutCodec Efs Vfs.

Definition zeros : list Z := replicate (Z.to_nat BLOCK_SZ) 0.

(** ** The regions of the disk *)
Notation ib e := (blocks (inode_bitmap e)).
Notation dbb e := (blocks (data_bitmap e)).
Notation ia e := (inode_area_start_block e).
Notation da e := (data_area_start_block e).

Record geometry (e : EasyFileSystem) (total : Z) : Prop := {
  geo_ib : 0 < ib e ≤ 2 ^ 20;
  geo_ibs : start_block_id (inode_bitmap e) = 1;
  geo_ia : ia e = 1 + ib e;
  geo_dbs : start_block_id (data_bitmap e) = 1 + 1025 * ib e;
  geo_dbb : 0 ≤ dbb e;
  geo_da : da e = 1 + 1025 * ib e + dbb e;
  geo_total : da e ≤ total < 2 ^ 32;
  geo_cover : total - da e ≤ 4096 * dbb e;
}.

(** The inode with number [k] as an [Inode]. *)
Definition inode_of (e : EasyFileSystem) (k : Z) : Inode :=
  mkInode (ia e + k / 4) (128 * (k mod 4)) e.

(** The 128 bytes of inode [k]. *)
Definition slot (d : gmap Z (list Z)) (e : EasyFileSystem) (k : Z) : option (list Z) :=
  slice (Z.to_nat (128 * (k mod 4))) 128 <$> d !! (ia e + k / 4).

Lemma get_disk_inode_pos_eq e total k :
  geometry e total → 0 ≤ k < 4096 * ib e →
  get_disk_inode_pos e k = (ia e + k / 4, 128 * (k mod 4)).
Proof.
  intros Hg Hk. unfold get_disk_inode_pos. change (wrap 32 (BLOCK_SZ / DISK_INODE_SIZE)) with 4.
  change DISK_INODE_SIZE with 128.
  pose proof (geo_ib _ _ Hg). pose proof (geo_ia _ _ Hg).
  change (2 ^ 20) with 1048576 in *.
  pose proof (Z.mod_pos_bound k 4 ltac:(lia)). pose proof (Z.div_mod k 4 ltac:(lia)).
  f_equal; [|mach_simpl; lia]. apply uadd32_small. mach_unfold. lia.
Qed.

Lemma slot_region e total k :
  geometry e total → 0 ≤ k < 4096 * ib e →
  ia e ≤ ia e + k / 4 < start_block_id (data_bitmap e).
Proof.
  intros Hg Hk. rewrite (geo_ia _ _ Hg), (geo_dbs _ _ Hg).
  pose proof (Z.mod_pos_bound k 4 ltac:(lia)). pose proof (Z.div_mod k 4 ltac:(lia)). lia.
Qed.

(** ** Bitmaps and sets of ids *)

(** Bit [k] of the bitmap says whether [base + k] is in [A], for [k < n]. *)
Record bm_set (d : gmap Z (list Z)) (bm : Bitmap) (base n : Z) (A : gset Z) : Prop := {
  bs_wf : bm_wf d bm;
  bs_bits k : 0 ≤ k < n → bm_bit d bm k = bool_decide (base + k ∈ A);
  bs_dom x : x ∈ A → base ≤ x < base + n;
}.

(** Fewer than [n] ids taken: one is free. *)
Lemma free_id base n (A : gset Z) :
  (∀ x, x ∈ A → base ≤ x < base + n) → Z.of_nat (base.size A) < n →
  ∃ k, 0 ≤ k < n ∧ base + k ∉ A.
Proof.
  intros Hdom Hsz. destruct (decide (Forall (λ x, x ∈ A) (seqZ base n))) as [Hall|Hnot].
  - exfalso. assert (list_to_set (seqZ base n) ⊆ A) as Hsub.
    { intros x Hx%elem_of_list_to_set. by eapply (list.Forall_forall (λ x, x ∈ A)) in Hall. }
    apply subseteq_size in Hsub. rewrite size_list_to_set in Hsub by apply NoDup_seqZ.
    rewrite length_seqZ in Hsub. lia.
  - apply not_Forall_Exists in Hnot; [|apply _].
    apply list.Exists_exists in Hnot as (x & Hx%elem_of_seqZ & Hn). exists (x - base).
    split; [lia|]. by replace (base + (x - base)) with x by lia.
Qed.

Lemma bm_bit_frame d d' bm k :
  0 ≤ k < blocks bm * 4096 → (∀ x, bm_region bm x → d' !! x = d !! x) →
  bm_bit d' bm k = bm_bit d bm k.
Proof.
  intros Hk Hd. destruct (bit_at_surj k ltac:(lia)) as (bp & w & t & -> & Hbp & Hw & Ht).
  rewrite !bm_bit_at by done. rewrite Hd; [done|]. unfold bm_region, bit_at in *. lia.
Qed.

Lemma bm_wf_frame d d' bm :
  (∀ x, bm_region bm x → d' !! x = d !! x) → bm_wf d bm → bm_wf d' bm.
Proof.
  intros Hd [H1 H2 H3 H4]. split; [done..|]. intros i Hi.
  destruct (H4 i Hi) as (b & Hb & ?). exists b. rewrite Hd; [done|]. unfold bm_region. lia.
Qed.

Lemma bm_set_frame d d' bm base n A :
  n ≤ blocks bm * 4096 → (∀ x, bm_region bm x → d' !! x = d !! x) →
  bm_set d bm base n A → bm_set d' bm base n A.
Proof.
  intros Hn Hd [H1 H2 H3]. split; [by eapply bm_wf_frame| |done].
  intros k Hk. rewrite <- H2 by done. apply bm_bit_frame; [lia|done].
Qed.

(** Allocating from a bitmap that has a free bit below [n]. *)
Lemma bm_set_alloc d bm base n A h :
  bm_set d bm base n A → n ≤ blocks bm * 4096 → Z.of_nat (base.size A) < n →
  (∀ id, bm_region bm id → lockable id h) →
  ∃ k d', runs (Bitmap_alloc bm) h d (Some k) d' ∧ 0 ≤ k < n ∧ base + k ∉ A ∧
    bm_set d' bm base n ({[base + k]} ∪ A) ∧ (∀ x, ¬ bm_region bm x → d' !! x = d !! x) ∧
    (∀ j, 0 ≤ j < k → base + j ∈ A).
Proof.
  intros [Hwf Hbits Hdom] Hn Hsz Hlk. destruct (free_id base n A Hdom Hsz) as (f & Hf & HfA).
  assert (bm_bit d bm f = false) as Hff by (rewrite Hbits by done; by apply bool_decide_eq_false).
  destruct (Bitmap_alloc_spec d bm h Hwf Hlk) as [(k & d' & Hrun & [H1 H2 H3 H4 H5] & Hlow)|[_ Hfull]].
  2:{ rewrite Hfull in Hff by lia. done. }
  assert (k ≤ f) as Hkf.
  { destruct (Z.le_gt_cases k f) as [|Hgt]; [done|]. rewrite Hlow in Hff by lia. done. }
  assert (base + k ∉ A) as HkA.
  { rewrite Hbits in H2 by lia. by apply bool_decide_eq_false in H2. }
  exists k, d'. split_and!; [done|lia|lia|done| |done|].
  2:{ intros j Hj. specialize (Hlow j Hj). rewrite Hbits in Hlow by lia.
    by apply bool_decide_eq_true in Hlow. }
  split; [done| |].
  - intros j Hj. rewrite H3 by lia. case_decide as Hd.
    + subst. symmetry. apply bool_decide_eq_true. set_solver.
    + rewrite Hbits by done. apply bool_decide_ext. rewrite elem_of_union, elem_of_singleton.
      split; [by right|]. intros [?|?]; [lia|done].
  - intros x [->%elem_of_singleton|Hx]%elem_of_union; [lia|by apply Hdom].
Qed.

(** Giving an allocated id back. *)
Lemma bm_set_dealloc d bm base n A h k :
  bm_set d bm base n A → n ≤ blocks bm * 4096 → base + k ∈ A →
  (∀ id, bm_region bm id → lockable id h) →
  ∃ d', runs (Bitmap_dealloc bm k) h d () d' ∧ bm_set d' bm base n (A ∖ {[base + k]}) ∧
    (∀ x, ¬ bm_region bm x → d' !! x = d !! x).
Proof.
  intros [Hwf Hbits Hdom] Hn Hin Hlk. pose proof (Hdom _ Hin) as Hk.
  pose proof (Bitmap_dealloc_spec d bm h k Hwf ltac:(lia) Hlk) as Hspec.
  rewrite Hbits, bool_decide_eq_true_2 in Hspec by (done || lia).
  destruct Hspec as (d' & Hrun & [H1 H2 H3]). exists d'. split_and!; [done| |done]. split; [done| |].
  - intros j Hj. rewrite H1 by lia. case_decide as Hd.
    + subst. symmetry. apply bool_decide_eq_false. set_solver.
    + rewrite Hbits by done. apply bool_decide_ext. rewrite elem_of_difference, elem_of_singleton.
      split; [intros ?; split; [done|lia]|by intros [? _]].
  - intros x [Hx _]%elem_of_difference. by apply Hdom.
Qed.

(** ** Data blocks *)
Notation data_set d e total A :=
  (bm_set d (data_bitmap e) (da e) (total - da e) A).

(** The locks the thread holds are locks of blocks before the data bitmap,
    and few enough. *)
Definition low_locks (e : EasyFileSystem) (h : list Z) : Prop :=
  (∀ x, x ∈ h → x < start_block_id (data_bitmap e)) ∧
  Z.of_nat (length h) < BLOCK_CACHE_SIZE - 1.

Lemma low_lockable e total h x :
  geometry e total → low_locks e h → start_block_id (data_bitmap e) ≤ x < total → lockable x h.
Proof.
  intros Hg [Hh Hl] Hx. pose proof (geo_total _ _ Hg). pose proof (geo_ib _ _ Hg).
  rewrite (geo_dbs _ _ Hg) in *. split_and!; [unfold ok_id, in_u; lia| |lia].
  intros Hin%Hh. lia.
Qed.

Section alloc.
Context (e : EasyFileSystem) (total : Z).
Hypothesis Hg : geometry e total.

Lemma region_lockable h id :
  low_locks e h → bm_region (data_bitmap e) id → lockable id h.
Proof using Hg.
  intros Hh Hr. eapply low_lockable; [done..|]. unfold bm_region in Hr.
  pose proof (geo_dbs _ _ Hg). pose proof (geo_da _ _ Hg). pose proof (geo_total _ _ Hg). lia.
Qed.

Lemma area_not_region x : da e ≤ x → ¬ bm_region (data_bitmap e) x.
Proof using Hg.
  intros Hx. unfold bm_region. rewrite (geo_dbs _ _ Hg). pose proof (geo_da _ _ Hg). lia.
Qed.

Lemma alloc_data_spec d A h :
  data_set d e total A → Z.of_nat (base.size A) < total - da e → low_locks e h →
  ∃ x d', runs (alloc_data e) h d x d' ∧ da e ≤ x < total ∧ x ∉ A ∧
    data_set d' e total ({[x]} ∪ A) ∧
    (∀ y, ¬ bm_region (data_bitmap e) y → d' !! y = d !! y).
Proof using Hg.
  intros Hset Hsz Hh. pose proof (geo_cover _ _ Hg). pose proof (geo_total _ _ Hg).
  pose proof (geo_da _ _ Hg). pose proof (geo_ib _ _ Hg). pose proof (geo_dbb _ _ Hg).
  destruct (bm_set_alloc d (data_bitmap e) (da e) (total - da e) A h)
    as (k & d' & Hrun & Hk & HkA & Hset' & Hfr & _); try done; [lia|intros id; by apply region_lockable|].
  exists (da e + k), d'. split_and!; try done; try lia.
  unfold alloc_data. eapply runs_bind; [exact Hrun|]. eapply runs_bind; [apply runs_ret|].
  rewrite wrap_small by (mach_unfold; lia). rewrite uadd32_small by (mach_unfold; lia).
  rewrite Z.add_comm. apply runs_ret.
Qed.

Lemma alloc_blocks_spec h n : ∀ d A v,
  data_set d e total A → Z.of_nat (base.size A) + Z.of_nat n ≤ total - da e → low_locks e h →
  ∃ w d', runs (alloc_blocks e n v) h d (v ++ w) d' ∧ length w = n ∧ NoDup w ∧
    (∀ x, x ∈ w → da e ≤ x < total ∧ x ∉ A) ∧ data_set d' e total (list_to_set w ∪ A) ∧
    (∀ y, ¬ bm_region (data_bitmap e) y → d' !! y = d !! y).
Proof using Hg.
  induction n as [|n IH]; intros d A v Hset Hsz Hh.
  { exists [], d. split_and!; try done; [by rewrite app_nil_r|constructor|by intros x ?%elem_of_nil|].
    by replace (list_to_set [] ∪ A) with A by set_solver. }
  destruct (alloc_data_spec d A h) as (x & d1 & Hrun & Hx & HxA & Hset1 & Hfr1); try done; [lia|].
  destruct (IH d1 ({[x]} ∪ A) (v ++ [x])) as (w & d2 & Hrun2 & Hl & Hnd & Hw & Hset2 & Hfr2);
    [done| |done|].
  { rewrite size_union, size_singleton by set_solver. lia. }
  exists (x :: w), d2. rewrite <- app_assoc in Hrun2. split_and!.
  - cbn [alloc_blocks]. eapply runs_bind; [exact Hrun|exact Hrun2].
  - cbn [length]. lia.
  - apply list.NoDup_cons. split; [|done]. intros Hin%Hw. set_solver.
  - intros y [->|Hy]%elem_of_cons; [done|]. apply Hw in Hy as [? Hy]. split; [done|]. set_solver.
  - by replace (list_to_set (x :: w) ∪ A) with (list_to_set w ∪ ({[x]} ∪ A)) by set_solver.
  - intros y Hy. rewrite Hfr2, Hfr1; done.
Qed.

Lemma zero_block_spec h d x b :
  lockable x h → d !! x = Some b → length b = Z.to_nat BLOCK_SZ →
  runs (zero_block x) h d () (<[x := zeros]> d).
Proof using Type.
  intros Hlk Hb Hl. eapply runs_modify_block_pure; [done..| |done].
  do 2 f_equal. unfold zeros. rewrite <- Hl. clear. induction b as [|y b IH]; [done|].
  cbn [fmap list_fmap length replicate]. by f_equal.
Qed.

Lemma dealloc_data_spec d A h x :
  data_set d e total A → x ∈ A → block_ok d x → low_locks e h →
  ∃ d', runs (dealloc_data e x) h d () d' ∧ d' !! x = Some zeros ∧
    data_set d' e total (A ∖ {[x]}) ∧
    (∀ y, y ≠ x → ¬ bm_region (data_bitmap e) y → d' !! y = d !! y).
Proof using Hg.
  intros Hset Hx (b & Hb & Hl & _) Hh. pose proof (bs_dom _ _ _ _ _ Hset x Hx) as Hdom.
  pose proof (geo_cover _ _ Hg). pose proof (geo_total _ _ Hg).
  pose proof (geo_da _ _ Hg). pose proof (geo_dbs _ _ Hg). pose proof (geo_dbb _ _ Hg).
  pose proof (geo_ib _ _ Hg).
  assert (¬ bm_region (data_bitmap e) x) as Hxr by (apply area_not_region; lia).
  assert (data_set (<[x := zeros]> d) e total A) as Hset1.
  { eapply bm_set_frame; [lia| |exact Hset]. intros y Hy. rewrite lookup_insert_ne; [done|].
    by intros ->. }
  destruct (bm_set_dealloc (<[x := zeros]> d) (data_bitmap e) (da e) (total - da e) A h (x - da e))
    as (d' & Hrun & Hset' & Hfr); try done; [lia| |intros id; by apply region_lockable|].
  { by replace (da e + (x - da e)) with x by lia. }
  replace (da e + (x - da e)) with x in Hset' by lia.
  exists d'. split_and!; [|by rewrite Hfr, lookup_insert_eq by done|done|].
  - unfold dealloc_data. eapply runs_bind; [eapply zero_block_spec; [|done..]|].
    + eapply low_lockable; [done..|lia].
    + rewrite usub32_small by (mach_unfold; lia). exact Hrun.
  - intros y Hy Hyr. rewrite Hfr by done. by rewrite lookup_insert_ne.
Qed.

Lemma dealloc_all_spec h l : ∀ d A,
  data_set d e total A → NoDup l → (∀ x, x ∈ l → x ∈ A ∧ block_ok d x) → low_locks e h →
  ∃ d', runs (pfold l (λ x _, dealloc_data e x) ()) h d () d' ∧
    (∀ x, x ∈ l → d' !! x = Some zeros) ∧ data_set d' e total (A ∖ list_to_set l) ∧
    (∀ y, y ∉ l → ¬ bm_region (data_bitmap e) y → d' !! y = d !! y).
Proof using Hg.
  induction l as [|x l IH]; intros d A Hset Hnd Hl Hh.
  { exists d. split_and!; try done; [by intros x ?%elem_of_nil|].
    by replace (A ∖ list_to_set []) with A by set_solver. }
  apply list.NoDup_cons in Hnd as [Hxl Hnd]. destruct (Hl x) as [HxA Hxb]; [elt|].
  destruct (dealloc_data_spec d A h x) as (d1 & Hrun1 & Hz1 & Hset1 & Hfr1); try done.
  assert (∀ y, y ∈ l → d1 !! y = d !! y) as Hsame.
  { intros y Hy. apply Hfr1; [by intros ->|]. apply area_not_region.
    destruct (Hl y) as [HyA _]; [elt|]. by apply (bs_dom _ _ _ _ _ Hset). }
  destruct (IH d1 (A ∖ {[x]})) as (d2 & Hrun2 & Hz2 & Hset2 & Hfr2); try done.
  { intros y Hy. destruct (Hl y) as [HyA (b & Hb & ?)]; [elt|]. split.
    - apply elem_of_difference. split; [done|]. by intros ->%elem_of_singleton.
    - exists b. by rewrite Hsame. }
  exists d2. split_and!.
  - cbn [pfold]. eapply runs_bind; [exact Hrun1|exact Hrun2].
  - intros y [->|Hy]%elem_of_cons; [|by apply Hz2]. rewrite Hfr2; [done|done|].
    apply area_not_region. by apply (bs_dom _ _ _ _ _ Hset).
  - by replace (A ∖ list_to_set (x :: l)) with (A ∖ {[x]} ∖ list_to_set l) by set_solver.
  - intros y Hy Hyr. rewrite Hfr2, Hfr1; try done; intros ?; apply Hy; set_solver.
Qed.
End alloc.

(** ** The invariant *)
Definition all_zero (b : list Z) : Prop := Forall (λ x, x = 0) b.

Record file_ok (d : gmap Z (list Z)) (e : EasyFileSystem) (total : Z)
    (ino : DiskInode) (l : list Z) : Prop := {
  fo_ok : inode_ok ino;
  fo_u32 : inode_u32 ino;
  fo_size : 0 ≤ Layout.size ino ≤ MAX_FILE_SIZE;
  fo_list : inode_list d ino (data_blocks ino) = Some l;
  fo_nodup : NoDup l;
  fo_area x : x ∈ l → da e ≤ x < total;
  fo_tail : all_zero (drop (Z.to_nat (Layout.size ino)) (contents d l (data_blocks ino)));
}.

Record fs_inv (d : gmap Z (list Z)) (e : EasyFileSystem) (total : Z)
    (G : gmap Z (DiskInode * list Z)) (A : gset Z) : Prop := {
  fi_geo : geometry e total;
  fi_block x : 0 < x < total → block_ok d x;
  fi_ibits : bm_set d (inode_bitmap e) 0 (4096 * ib e) (dom G);
  fi_dbits : data_set d e total A;
  fi_slots k : 0 ≤ k < 4096 * ib e → ∃ b ino, slot d e k = Some b ∧ DiskInode_decode b = Some ino;
  fi_slot k ino l : G !! k = Some (ino, l) → slot d e k ≫= DiskInode_decode = Some ino;
  fi_file k ino l : G !! k = Some (ino, l) → file_ok d e total ino l;
  fi_own x : x ∈ A ↔ ∃ k ino l, G !! k = Some (ino, l) ∧ x ∈ l;
  fi_disj k1 k2 i1 i2 l1 l2 x :
    G !! k1 = Some (i1, l1) → G !! k2 = Some (i2, l2) → x ∈ l1 → x ∈ l2 → k1 = k2;
  fi_zero x : da e ≤ x < total → x ∉ A → d !! x = Some zeros;
}.

Lemma fi_range d e total G A k ino l :
  fs_inv d e total G A → G !! k = Some (ino, l) → 0 ≤ k < 4096 * ib e.
Proof.
  intros Hfi Hk. apply (bs_dom _ _ _ _ _ (fi_ibits _ _ _ _ _ Hfi)). by eapply elem_of_dom_2.
Qed.

(** The contents of a file depend on its own blocks only. *)
Lemma contents_frame d d' l n :
  (∀ x, x ∈ data_ids l n → d' !! x = d !! x) → contents d' l n = contents d l n.
Proof.
  intros Hd. unfold contents. f_equal. apply list_fmap_ext. intros i x Hx. unfold block_bytes.
  rewrite Hd; [done|]. by eapply list_elem_of_lookup_2.
Qed.

Lemma data_ids_subset d ino n l x :
  inode_ok ino → inode_list d ino n = Some l → x ∈ data_ids l n → x ∈ l.
Proof.
  intros Hok Hl (i & Hi & Hx)%(data_ids_in d ino n l Hok Hl). by eapply list_elem_of_lookup_2.
Qed.

Lemma file_ok_frame d d' e total ino l :
  (∀ x, x ∈ l → d' !! x = d !! x) → file_ok d e total ino l → file_ok d' e total ino l.
Proof.
  intros Hd [H1 H2 H3 H4 H5 H6 H7]. split; try done.
  - by eapply inode_list_frame.
  - rewrite (contents_frame d d'); [done|]. intros x Hx. apply Hd.
    by eapply data_ids_subset.
Qed.

(** The part of the disk before the data bitmap stays, but for the slot of
    inode [k]. *)
Record low_same (d d' : gmap Z (list Z)) (e : EasyFileSystem) (k : Z) : Prop := {
  ls_bits x : bm_region (inode_bitmap e) x → d' !! x = d !! x;
  ls_slots j : 0 ≤ j < 4096 * ib e → j ≠ k → slot d' e j = slot d e j;
}.

(** Replacing one file keeps the invariant. *)
Lemma fs_update d d' e total G A A' k ino l ino' l' :
  fs_inv d e total G A → G !! k = Some (ino, l) →
  (∀ x, 0 < x < total → block_ok d' x) → low_same d d' e k →
  slot d' e k ≫= DiskInode_decode = Some ino' → data_set d' e total A' →
  (∀ x, x ∈ A' ↔ x ∈ l' ∨ x ∈ A ∧ x ∉ l) → (∀ x, x ∈ l' → x ∈ l ∨ x ∉ A) →
  (∀ x, da e ≤ x < total → x ∉ l → x ∉ l' → d' !! x = d !! x) →
  (∀ x, x ∈ l → x ∉ l' → d' !! x = Some zeros) →
  file_ok d' e total ino' l' →
  fs_inv d' e total (<[k := (ino', l')]> G) A'.
Proof.
  intros Hfi Hk Hblk [Hlb Hls] Hslot Hset HA' Hl' Hfr Hz Hfile.
  pose proof (fi_range _ _ _ _ _ _ _ _ Hfi Hk) as Hkr.
  assert (∀ j ino1 l1 x, j ≠ k → G !! j = Some (ino1, l1) → x ∈ l1 → x ∉ l ∧ x ∉ l') as Hother.
  { intros j ino1 l1 x Hj Hg1 Hx. assert (x ∉ l) as Hxl.
    { intros Hxl. apply Hj. by eapply (fi_disj _ _ _ _ _ Hfi). }
    split; [done|]. intros [?|HxA]%Hl'; [done|]. apply HxA, (fi_own _ _ _ _ _ Hfi). eauto. }
  split; try done.
  - by apply Hfi.
  - rewrite dom_insert_lookup_L by eauto. eapply bm_set_frame; [|done|by apply Hfi]. lia.
  - intros j Hj. destruct (decide (j = k)) as [->|Hne].
    + destruct (slot d' e k) as [b|]; [|done]. eauto.
    + rewrite Hls by done. by apply Hfi.
  - intros j ino1 l1 [[-> [= <- <-]]|[Hne Hg1]]%lookup_insert_Some; [done|].
    rewrite Hls; [by eapply Hfi| |done]. by eapply fi_range.
  - intros j ino1 l1 [[-> [= <- <-]]|[Hne Hg1]]%lookup_insert_Some; [done|].
    eapply file_ok_frame; [|by eapply Hfi]. intros x Hx.
    destruct (Hother j ino1 l1 x) as [? ?]; try done. apply Hfr; try done.
    by apply (fo_area _ _ _ _ _ (fi_file _ _ _ _ _ Hfi _ _ _ Hg1)).
  - intros x. rewrite HA'. split.
    + intros [Hx|[Hx Hxl]]; [exists k, ino', l'; by rewrite lookup_insert_eq|].
      apply (fi_own _ _ _ _ _ Hfi) in Hx as (j & ino1 & l1 & Hg1 & Hx).
      exists j, ino1, l1. rewrite lookup_insert_ne; [done|]. intros <-.
      rewrite Hk in Hg1. by injection Hg1 as <- <-.
    + intros (j & ino1 & l1 & [[-> [= <- <-]]|[Hne Hg1]]%lookup_insert_Some & Hx); [by left|].
      right. split; [apply (fi_own _ _ _ _ _ Hfi); eauto|]. by eapply Hother.
  - intros j1 j2 i1 i2 l1 l2 x [[-> [= <- <-]]|[Hne1 Hg1]]%lookup_insert_Some
      [[-> [= <- <-]]|[Hne2 Hg2]]%lookup_insert_Some Hx1 Hx2; try done.
    + by destruct (Hother j2 i2 l2 x) as [_ []].
    + by destruct (Hother j1 i1 l1 x) as [_ []].
    + by eapply (fi_disj _ _ _ _ _ Hfi).
  - intros x Hx HxA. rewrite HA' in HxA. destruct (decide (x ∈ l)) as [Hxl|Hxl].
    + apply Hz; [done|]. tauto.
    + rewrite Hfr by (done || tauto). apply Hfi; [done|]. tauto.
Qed.

(** ** Storing an inode in its slot *)

(** What a store of [ino] into slot [k] does to the disk. *)
Record slot_stored (d : gmap Z (list Z)) (e : EasyFileSystem) (k : Z) (ino : DiskInode)
    (d' : gmap Z (list Z)) : Prop := {
  ss_slot : slot d' e k ≫= DiskInode_decode = Some ino;
  ss_block : block_ok d' (ia e + k / 4);
  ss_frame x : x ≠ ia e + k / 4 → d' !! x = d !! x;
  ss_slots j : j ≠ k → slot d' e j = slot d e j;
}.

Lemma slot_in_block k : in_block (128 * (k mod 4)) DISK_INODE_SIZE = true.
Proof.
  pose proof (Z.mod_pos_bound k 4 ltac:(lia)). unfold in_block.
  change DISK_INODE_SIZE with 128. change BLOCK_SZ with 512.
  destruct (Z.leb_spec (128 * (k mod 4) + 128) 512), (Z.ltb_spec (128 * (k mod 4)) 512); done || lia.
Qed.

Lemma slot_store d e k b ino :
  d !! (ia e + k / 4) = Some b → length b = Z.to_nat BLOCK_SZ → Forall is_byte b →
  inode_ok ino → inode_u32 ino →
  let v := DiskInode_encode ino (slice (Z.to_nat (128 * (k mod 4))) 128 b) in
  (Z.to_nat (128 * (k mod 4)) + length v ≤ length b)%nat ∧
  slot_stored d e k ino (<[ia e + k / 4 := splice (Z.to_nat (128 * (k mod 4))) v b]> d).
Proof.
  intros Hb Hl Hbb Hok Hu v. pose proof (Z.mod_pos_bound k 4 ltac:(lia)).
  pose proof Hl as Hl0. change (Z.to_nat BLOCK_SZ) with 512%nat in Hl0.
  assert (length (slice (Z.to_nat (128 * (k mod 4))) 128 b) = Z.to_nat DISK_INODE_SIZE) as Hlo.
  { rewrite length_slice. change (Z.to_nat DISK_INODE_SIZE) with 128%nat. lia. }
  pose proof (length_DiskInode_encode ino _ Hok Hlo) as Hlen. fold v in Hlen.
  change (Z.to_nat DISK_INODE_SIZE) with 128%nat in Hlen. split; [lia|]. split.
  - unfold slot. rewrite lookup_insert_eq. simpl.
    rewrite <- Hlen, slice_splice_eq by lia. by apply DiskInode_decode_encode.
  - eexists. rewrite lookup_insert_eq. split_and!; [done|rewrite length_splice; lia|].
    apply splice_bytes; [|done]. by apply DiskInode_encode_bytes, slice_bytes.
  - intros x Hx. by rewrite lookup_insert_ne.
  - intros j Hj. unfold slot. destruct (decide (k / 4 = j / 4)) as [Heq|Hne].
    + rewrite <- Heq, lookup_insert_eq, Hb. simpl. f_equal.
      pose proof (Z.mod_pos_bound j 4 ltac:(lia)). apply slice_splice_ne; [lia|].
      assert (k mod 4 ≠ j mod 4); [|lia].
      intros Hmod. apply Hj. rewrite (Z.div_mod k 4), (Z.div_mod j 4) by lia. lia.
    + rewrite lookup_insert_ne by lia. done.
Qed.
