(* ===== verification/FsOps.v ===== *)
(** * FsOps: the operations of [Inode] keep the file system consistent

    Each operation of easy-fs/src/vfs.rs, started on a consistent disk without
    locks, returns, leaves a consistent disk, and changes the contents of the
    files the way its contract says. *)

From stdpp Require Import base gmap list numbers.
From S2P Require Import Prelude Bytes BlockIO Bitmap Layout InodeIndex InodeData LayoutCodec Efs.
From S2P Require Import Vfs FsState.

(** ** Reaching the disk inode *)
Section disk_inode.
Context (d : gmap Z (list Z)) (e : EasyFileSystem) (total : Z)
  (G : gmap Z (DiskInode * list Z)) (A : gset Z).
Hypothesis Hfi : fs_inv d e total G A.

Lemma inode_block k ino l :
  G !! k = Some (ino, l) →
  ∃ b, d !! (ia e + k / 4) = Some b ∧ length b = Z.to_nat BLOCK_SZ ∧ Forall is_byte b ∧
    DiskInode_decode (slice (Z.to_nat (128 * (k mod 4))) 128 b) = Some ino ∧
    lockable (ia e + k / 4) [] ∧ in_block (128 * (k mod 4)) DISK_INODE_SIZE = true ∧
    low_locks e [ia e + k / 4].
Proof using Hfi.
  intros Hk. pose proof (fi_range _ _ _ _ _ _ _ _ Hfi Hk) as Hkr.
  pose proof (fi_geo _ _ _ _ _ Hfi) as Hg.
  pose proof (slot_region e total k Hg Hkr) as Hr. pose proof (geo_total _ _ Hg).
  pose proof (geo_da _ _ Hg). pose proof (geo_dbs _ _ Hg). pose proof (geo_ia _ _ Hg).
  pose proof (geo_dbb _ _ Hg). pose proof (geo_ib _ _ Hg).
  destruct (fi_block _ _ _ _ _ Hfi (ia e + k / 4)) as (b & Hb & Hl & Hbb); [lia|].
  exists b. pose proof (fi_slot _ _ _ _ _ Hfi k ino l Hk) as Hslot. unfold slot in Hslot.
  rewrite Hb in Hslot. split_and!; try done.
  - split; [unfold ok_id, in_u; lia|]. split; [apply not_elem_of_nil|done].
  - apply slot_in_block.
  - split; [|done]. intros x ->%list_elem_of_singleton. lia.
Qed.

Lemma read_disk_inode_spec {V} k ino l (f : DiskInode → prog V) v d' :
  G !! k = Some (ino, l) → runs (f ino) [ia e + k / 4] d v d' →
  runs (read_disk_inode (inode_of e k) f) [] d v d'.
Proof using Hfi.
  intros Hk Hf. destruct (inode_block k ino l Hk) as (b & Hb & Hl & _ & Hdec & Hlk & Hin & _).
  eapply runs_read; [done..|]. unfold with_inode. cbn [block_offset inode_of].
  change (Z.to_nat DISK_INODE_SIZE) with 128%nat. by rewrite Hdec.
Qed.

Lemma modify_disk_inode_spec {V} k ino l (f : DiskInode → prog (V * DiskInode)) v ino' d1 :
  G !! k = Some (ino, l) → runs (f ino) [ia e + k / 4] d (v, ino') d1 →
  d1 !! (ia e + k / 4) = d !! (ia e + k / 4) → inode_ok ino' → inode_u32 ino' →
  ∃ d2, runs (modify_disk_inode (inode_of e k) f) [] d v d2 ∧ slot_stored d1 e k ino' d2.
Proof using Hfi.
  intros Hk Hf Hsame Hok Hu.
  destruct (inode_block k ino l Hk) as (b & Hb & Hl & Hbb & Hdec & Hlk & Hin & _).
  rewrite Hb in Hsame. destruct (slot_store d1 e k b ino' Hsame Hl Hbb Hok Hu) as [Hfit Hst].
  eexists. split; [|exact Hst].
  eapply runs_modify; [done|exact Hb|done| |done|exact Hfit].
  unfold with_inode. cbn [block_offset inode_of]. change (Z.to_nat DISK_INODE_SIZE) with 128%nat.
  rewrite Hdec. eapply runs_bind; [exact Hf|apply runs_ret].
Qed.

(** What reading and writing a file relies on holds while its inode is locked. *)
Lemma inode_at_file k ino l :
  G !! k = Some (ino, l) → inode_at d [ia e + k / 4] ino (data_blocks ino) l.
Proof using Hfi.
  intros Hk. pose proof (fi_file _ _ _ _ _ Hfi _ _ _ Hk) as [H1 H2 H3 H4 H5 H6 H7].
  destruct (inode_block k ino l Hk) as (_ & _ & _ & _ & _ & _ & _ & Hlow).
  pose proof (fi_geo _ _ _ _ _ Hfi) as Hg. pose proof (geo_da _ _ Hg). pose proof (geo_dbs _ _ Hg).
  pose proof (geo_dbb _ _ Hg). pose proof (geo_ib _ _ Hg).
  split; [done| |done|].
  - by apply _data_blocks_bounds.
  - split; [done| |].
    + intros x Hx%H6. eapply low_lockable; [done..|lia].
    + intros x Hx%H6. apply (fi_block _ _ _ _ _ Hfi). lia.
Qed.

(** [Inode::read_at] returns the part of the file the buffer covers. *)
Lemma Inode_read_at_spec k ino l off buf :
  G !! k = Some (ino, l) → 0 ≤ off < 2 ^ 62 → Z.of_nat (length buf) < 2 ^ 62 →
  let n := Z.max 0 (Z.min (off + Z.of_nat (length buf)) (Layout.size ino) - off) in
  runs (Inode_read_at (inode_of e k) off buf) [] d
    (n, splice 0 (slice (Z.to_nat off) (Z.to_nat n) (file_data d ino l)) buf) d.
Proof using Hfi.
  intros Hk Hoff Hbuf n. eapply read_disk_inode_spec; [done|].
  eapply read_at_spec; [by eapply inode_at_file|by eapply fi_file|done..].
Qed.
End disk_inode.

(** ** Growing a file *)
Lemma pos_ge n i : 0 ≤ n ≤ i → block_count n ≤ pos i.
Proof.
  intros H. unfold block_count, pos, sub_count, sub_pos.
  destruct (Z.leb_spec n 28), (Z.leb_spec n 156), (Z.ltb_spec i 28), (Z.ltb_spec i 156); try lia.
  all: assert (0 ≤ (i - 156) / 128) by (apply Z.div_pos; lia); try lia.
  assert ((n - 156 + 127) / 128 ≤ (i - 156 + 1 * 128) / 128) as Hle by (apply Z.div_le_mono; lia).
  rewrite Z.div_add in Hle by lia. lia.
Qed.

Lemma concat_zeros {X} (s : list X) (f : X → list Z) :
  (∀ x, x ∈ s → f x = zeros) → concat (f <$> s) = replicate (512 * length s) 0.
Proof.
  induction s as [|x s IH]; intros Hf; [done|]. cbn [fmap list_fmap concat length].
  rewrite Hf by elt. rewrite IH by (intros y Hy; apply Hf; elt).
  unfold zeros. rewrite <- replicate_add. f_equal. change (Z.to_nat BLOCK_SZ) with 512%nat. lia.
Qed.

(** The new blocks are appended to the contents, and they are zero. *)
Lemma contents_grow d d' ino ino' n m l nb :
  inode_ok ino → inode_ok ino' → 0 ≤ n ≤ m →
  inode_list d ino n = Some l → inode_list d' ino' m = Some (l ++ nb) → NoDup (l ++ nb) →
  (∀ x, x ∈ nb → d !! x = Some zeros) → only_index index_pos (l ++ nb) d d' →
  Z.of_nat (length (contents d l n)) = 512 * n →
  contents d' (l ++ nb) m = pad (Z.to_nat (512 * m)) (contents d l n).
Proof.
  intros Hok Hok' Hnm Hl Hl' Hnd Hz Hoi HC.
  assert (∀ i x, 0 ≤ i → (l ++ nb) !! Z.to_nat (pos i) = Some x → d' !! x = d !! x) as Hsame.
  { intros i x Hi Hx. destruct (oi_frame _ _ _ _ Hoi x) as [?|(p & Hp & Hip)]; [done|].
    pose proof (NoDup_lookup _ _ _ _ Hnd Hx Hp) as <-. by destruct (pos_not_index i Hi). }
  unfold pad. unfold contents at 1. unfold data_ids.
  replace (seqZ 0 m) with (seqZ 0 n ++ seqZ n (m - n)).
  2:{ rewrite <- (Z.add_0_l n) at 2. rewrite <- seqZ_app by lia. f_equal. lia. }
  rewrite !fmap_app, concat_app. f_equal.
  - unfold contents, data_ids. f_equal. rewrite <- !list_fmap_compose. apply list_fmap_ext.
    intros j i Hi%list_elem_of_lookup_2%elem_of_seqZ. unfold compose.
    pose proof (pos_bound d ino n l Hok Hl i ltac:(lia)) as Hp.
    destruct (lookup_lt_is_Some_2 l _ Hp) as [x Hx].
    pose proof (lookup_app_l_Some _ nb _ _ Hx) as Hx'.
    rewrite (list_lookup_total_correct _ _ _ Hx), (list_lookup_total_correct _ _ _ Hx').
    unfold block_bytes. by rewrite (Hsame i x) by (done || lia).
  - rewrite <- list_fmap_compose. rewrite concat_zeros.
    + f_equal. rewrite length_seqZ. lia.
    + intros i Hi%elem_of_seqZ. unfold compose.
      pose proof (pos_bound d' ino' m (l ++ nb) Hok' Hl' i ltac:(lia)) as Hp.
      destruct (lookup_lt_is_Some_2 _ _ Hp) as [x Hx].
      rewrite (list_lookup_total_correct _ _ _ Hx). unfold block_bytes.
      assert (x ∈ nb) as Hxn.
      { apply length_inode_list in Hl; [|done|lia]. pose proof (pos_ge n i ltac:(lia)).
        rewrite lookup_app_r in Hx by lia. by eapply list_elem_of_lookup_2. }
      rewrite (Hsame i x), Hz by (done || lia). done.
Qed.

(** A file that was grown to [new_size] while its inode's block is locked. *)
Record grown_file (d : gmap Z (list Z)) (e : EasyFileSystem) (total : Z) (A : gset Z)
    (ino : DiskInode) (l : list Z) (new_size : Z)
    (ino' : DiskInode) (nb : list Z) (d' : gmap Z (list Z)) : Prop := {
  gf_size : Layout.size ino' = new_size;
  gf_type : type_ ino' = type_ ino;
  gf_file : file_ok d' e total ino' (l ++ nb);
  gf_new x : x ∈ nb → da e ≤ x < total ∧ x ∉ A;
  gf_set : data_set d' e total (list_to_set nb ∪ A);
  gf_block x : 0 < x < total → block_ok d' x;
  gf_frame x : x ∉ l ++ nb → ¬ bm_region (data_bitmap e) x → d' !! x = d !! x;
  gf_data : file_data d' ino' (l ++ nb) = pad (Z.to_nat new_size) (file_data d ino l);
}.

Section grow.
Context (d : gmap Z (list Z)) (e : EasyFileSystem) (total : Z)
  (G : gmap Z (DiskInode * list Z)) (A : gset Z).
Hypothesis Hfi : fs_inv d e total G A.

Lemma file_in_A k ino l x : G !! k = Some (ino, l) → x ∈ l → x ∈ A.
Proof using Hfi. intros Hk Hx. apply (fi_own _ _ _ _ _ Hfi). eauto. Qed.

(** Changes to the data bitmap and to the blocks [L] keep blocks blocks. *)
Lemma block_ok_region (d1 : gmap Z (list Z)) A' (L : list Z) x :
  data_set d1 e total A' → (∀ y, y ∈ L → block_ok d1 y) →
  (∀ y, y ∉ L → ¬ bm_region (data_bitmap e) y → d1 !! y = d !! y) → 0 < x < total → block_ok d1 x.
Proof using Hfi.
  intros Hset HL Hfr Hx. destruct (decide (x ∈ L)) as [Hxl|Hxl]; [by apply HL|].
  destruct (decide (start_block_id (data_bitmap e) ≤ x < start_block_id (data_bitmap e) + dbb e))
    as [Hin|Hout].
  - pose proof (bm_block _ _ (bs_wf _ _ _ _ _ Hset) (x - start_block_id (data_bitmap e)) ltac:(lia))
      as Hb. by replace (start_block_id (data_bitmap e) + (x - start_block_id (data_bitmap e)))
      with x in Hb by lia.
  - destruct (fi_block _ _ _ _ _ Hfi x Hx) as (b & Hb & ?). exists b. by rewrite Hfr.
Qed.

(** The pieces of a growth put together: [nb] taken from the bitmap, then the
    index filled. *)
Lemma grown_file_intro k ino l new_size nb d1 ino' d' :
  G !! k = Some (ino, l) → Layout.size ino ≤ new_size ≤ MAX_FILE_SIZE → NoDup (l ++ nb) →
  (∀ x, x ∈ nb → da e ≤ x < total ∧ x ∉ A) → data_set d1 e total (list_to_set nb ∪ A) →
  (∀ x, 0 < x < total → block_ok d1 x) →
  (∀ y, ¬ bm_region (data_bitmap e) y → d1 !! y = d !! y) →
  grown_ok d1 (set_size new_size ino) (l ++ nb) (_data_blocks new_size) ino' d' →
  grown_file d e total A ino l new_size ino' nb d'.
Proof using Hfi.
  intros Hk Hns Hnd Hnb Hset1 Hbo1 Hfr1 [Hlist Hok Hsz Hty Hu Hoi]. cbn in Hsz, Hty.
  pose proof (fi_file _ _ _ _ _ Hfi _ _ _ Hk) as Hfo. pose proof (fi_geo _ _ _ _ _ Hfi) as Hg.
  pose proof (fo_size _ _ _ _ _ Hfo) as [Hs0 Hs1].
  assert (∀ x, x ∈ l ++ nb → da e ≤ x < total) as Harea.
  { intros x [Hx|Hx]%elem_of_app; [by apply Hfo|by apply Hnb]. }
  assert (∀ x, da e ≤ x → d1 !! x = d !! x) as Hd1.
  { intros x Hx. apply Hfr1. by eapply area_not_region. }
  assert (∀ x, x ∉ l ++ nb → d' !! x = d1 !! x) as Hout
    by (intros x; by apply (only_index_out _ _ _ _ _ Hoi)).
  destruct (_data_blocks_bounds (Layout.size ino) ltac:(lia)) as [Hn Hnn].
  destruct (_data_blocks_bounds new_size ltac:(lia)) as [Hm Hmm].
  pose proof (_data_blocks_mono (Layout.size ino) new_size ltac:(lia) ltac:(lia)) as Hmono.
  fold (data_blocks ino) in *.
  assert (contents d1 l (data_blocks ino) = contents d l (data_blocks ino)) as HC1.
  { apply contents_frame. intros x Hx. apply Hd1, (fo_area _ _ _ _ _ Hfo).
    eapply data_ids_subset; [..|exact Hx]; by apply Hfo. }
  pose proof (length_contents d _ ino (data_blocks ino) l
    (inode_at_file d e total G A Hfi k ino l Hk) ltac:(lia)) as HlC.
  assert (contents d' (l ++ nb) (_data_blocks new_size)
    = pad (Z.to_nat (512 * _data_blocks new_size)) (contents d l (data_blocks ino))) as HC'.
  { rewrite <- HC1. apply (contents_grow d1 d' ino ino'); try done; try lia; [by apply Hfo| | |by rewrite HC1].
    - eapply inode_list_frame; [by apply Hfo|]. intros x Hx. by apply Hd1, (fo_area _ _ _ _ _ Hfo).
    - intros x Hx. destruct (Hnb x Hx). rewrite Hd1 by lia. by apply Hfi. }
  assert (data_blocks ino' = _data_blocks new_size) as Hdb by (unfold data_blocks; by rewrite Hsz).
  split; try done.
  - split; try done.
    + apply Hu. destruct (fo_u32 _ _ _ _ _ Hfo) as (? & ? & ? & ?). split; [|done].
      change MAX_FILE_SIZE with 8468480 in Hns. cbn [Layout.size set_size]. mach_unfold. lia.
    + rewrite Hsz. lia.
    + by rewrite Hdb.
    + rewrite Hdb, HC', Hsz. apply drop_pad_zero. eapply drop_zero_mono; [|by apply Hfo]. lia.
  - eapply bm_set_frame; [|intros x Hx; apply Hout|exact Hset1].
    + pose proof (geo_cover _ _ Hg). lia.
    + intros Hin%Harea. eapply area_not_region; [done| |done]. lia.
  - intros x Hx. apply Hoi. by apply Hbo1.
  - intros x Hx Hxr. rewrite Hout, Hfr1; done.
  - unfold file_data. rewrite Hdb, HC', Hsz. apply take_pad; [by apply Hfo|lia|lia].
Qed.

Lemma Inode_increase_size_spec k ino l new_size :
  G !! k = Some (ino, l) → Layout.size ino ≤ new_size ≤ MAX_FILE_SIZE →
  Z.of_nat (base.size A) + (total_blocks new_size - total_blocks (Layout.size ino)) ≤ total - da e →
  ∃ ino' nb d', runs (Inode_increase_size (inode_of e k) new_size ino) [ia e + k / 4] d ino' d' ∧
    grown_file d e total A ino l new_size ino' nb d'.
Proof using Hfi.
  intros Hk Hns Hcap. pose proof (fi_file _ _ _ _ _ Hfi _ _ _ Hk) as Hfo.
  pose proof (fi_geo _ _ _ _ _ Hfi) as Hg. destruct (fo_size _ _ _ _ _ Hfo) as [Hs0 Hs1].
  destruct (inode_block d e total G A Hfi k ino l Hk) as (_ & _ & _ & _ & _ & _ & _ & Hlow).
  destruct (blocks_num_needed_spec ino new_size) as [Hneed Hbn]; [lia..|].
  set (need := total_blocks new_size - total_blocks (Layout.size ino)) in *.
  destruct (alloc_blocks_spec e total Hg [ia e + k / 4] (Z.to_nat need) d A [])
    as (nb & d1 & Hrun1 & Hlen & Hnd & Hnb & Hset1 & Hfr1); [by apply Hfi|lia|done|].
  assert (NoDup (l ++ nb)) as HndL.
  { apply list.NoDup_app. split_and!; [by apply Hfo| |done]. intros x Hx Hx'%Hnb.
    apply Hx'. by eapply file_in_A. }
  assert (∀ x, x ∈ l ++ nb → da e ≤ x < total) as Harea.
  { intros x [Hx|Hx]%elem_of_app; [by apply Hfo|by apply Hnb]. }
  assert (∀ x, 0 < x < total → block_ok d1 x) as Hbo1.
  { intros x Hx. eapply (block_ok_region d1 _ []); [exact Hset1| |by auto|done].
    by intros y ?%elem_of_nil. }
  pose proof (geo_da _ _ Hg). pose proof (geo_dbs _ _ Hg). pose proof (geo_dbb _ _ Hg).
  pose proof (geo_ib _ _ Hg).
  destruct (increase_size_spec d1 [ia e + k / 4] ino new_size l nb)
    as (ino' & d' & Hrun2 & Hgr); try done; try lia; [by apply Hfo| |split|].
  - eapply inode_list_frame; [by apply Hfo|]. intros x Hx. apply Hfr1.
    eapply area_not_region; [done|]. by apply (fo_area _ _ _ _ _ Hfo).
  - done.
  - intros x Hx%Harea. eapply low_lockable; [done..|lia].
  - intros x Hx%Harea. apply Hbo1. lia.
  - exists ino', nb, d'. split; [|by eapply grown_file_intro].
    unfold Inode_increase_size. destruct (Z.ltb_spec new_size (Layout.size ino)); [lia|].
    rewrite Hbn. eapply runs_bind; [apply runs_ret|]. eapply runs_bind; [exact Hrun1|exact Hrun2].
Qed.
End grow.

(** ** Changing one file *)

(** The other files keep their contents. *)
Definition others_same (G : gmap Z (DiskInode * list Z)) (k : Z) (d d' : gmap Z (list Z)) : Prop :=
  ∀ j ino l, j ≠ k → G !! j = Some (ino, l) → file_data d' ino l = file_data d ino l.

Section change.
Context (d : gmap Z (list Z)) (e : EasyFileSystem) (total : Z)
  (G : gmap Z (DiskInode * list Z)) (A : gset Z).
Hypothesis Hfi : fs_inv d e total G A.

Lemma file_data_frame d' ino l :
  file_ok d e total ino l → (∀ x, x ∈ l → d' !! x = d !! x) → file_data d' ino l = file_data d ino l.
Proof using Type.
  intros Hfo Hd. unfold file_data. rewrite (contents_frame d d'); [done|].
  intros x Hx. apply Hd. eapply data_ids_subset; [..|exact Hx]; apply Hfo.
Qed.

Lemma others_same_intro k ino l (l' : list Z) (d' : gmap Z (list Z)) :
  G !! k = Some (ino, l) → (∀ x, x ∈ l' → x ∈ l ∨ x ∉ A) →
  (∀ x, da e ≤ x < total → x ∉ l → x ∉ l' → d' !! x = d !! x) → others_same G k d d'.
Proof using Hfi.
  intros Hk Hl' Hfr j ino1 l1 Hj Hg1. pose proof (fi_file _ _ _ _ _ Hfi _ _ _ Hg1) as Hfo1.
  apply file_data_frame; [done|]. intros x Hx.
  assert (x ∉ l) as Hxl by (intros Hxl; apply Hj; by eapply (fi_disj _ _ _ _ _ Hfi)).
  apply Hfr; [by apply Hfo1|done|]. intros [?|HxA]%Hl'; [done|].
  apply HxA. by eapply file_in_A.
Qed.

(** A region of low blocks is not touched by changes to data blocks and the
    data bitmap. *)
Lemma low_frame (d1 : gmap Z (list Z)) (L : list Z) x :
  (∀ y, y ∈ L → da e ≤ y < total) → x < start_block_id (data_bitmap e) →
  (∀ y, y ∉ L → ¬ bm_region (data_bitmap e) y → d1 !! y = d !! y) → d1 !! x = d !! x.
Proof using Hfi.
  intros HL Hx Hfr. pose proof (fi_geo _ _ _ _ _ Hfi) as Hg.
  pose proof (geo_da _ _ Hg). pose proof (geo_dbs _ _ Hg). pose proof (geo_dbb _ _ Hg).
  apply Hfr; [intros Hin%HL; lia|]. unfold bm_region. lia.
Qed.

Lemma low_same_intro k (d2 d3 : gmap Z (list Z)) (L : list Z) :
  0 ≤ k < 4096 * ib e → (∀ y, y ∈ L → da e ≤ y < total) →
  (∀ y, y ∉ L → ¬ bm_region (data_bitmap e) y → d2 !! y = d !! y) →
  (∀ x, x ≠ ia e + k / 4 → d3 !! x = d2 !! x) → (∀ j, j ≠ k → slot d3 e j = slot d2 e j) →
  low_same d d3 e k.
Proof using Hfi.
  intros Hk HL Hfr H3 Hslots. pose proof (fi_geo _ _ _ _ _ Hfi) as Hg.
  pose proof (geo_ia _ _ Hg). pose proof (geo_dbs _ _ Hg). pose proof (geo_ibs _ _ Hg).
  pose proof (geo_ib _ _ Hg). pose proof (slot_region e total k Hg Hk).
  split.
  - intros x Hx. unfold bm_region in Hx. rewrite H3 by lia.
    eapply low_frame; [done| |done]. lia.
  - intros j Hj Hjk. rewrite Hslots by done. unfold slot. f_equal.
    eapply low_frame; [done| |done]. by pose proof (slot_region e total j Hg Hj); lia.
Qed.

Lemma length_file_data k ino l :
  G !! k = Some (ino, l) → length (file_data d ino l) = Z.to_nat (Layout.size ino).
Proof using Hfi.
  intros Hk. pose proof (fi_file _ _ _ _ _ Hfi _ _ _ Hk) as Hfo.
  destruct (_data_blocks_bounds _ (fo_size _ _ _ _ _ Hfo)) as [Hn Hnn]. fold (data_blocks ino) in *.
  pose proof (length_contents d _ ino (data_blocks ino) l
    (inode_at_file d e total G A Hfi k ino l Hk) ltac:(lia)) as HlC.
  unfold file_data. rewrite length_take. lia.
Qed.

(** Not growing is growing by nothing. *)
Lemma grown_file_refl k ino l :
  G !! k = Some (ino, l) → grown_file d e total A ino l (Layout.size ino) ino [] d.
Proof using Hfi.
  intros Hk. pose proof (fi_file _ _ _ _ _ Hfi _ _ _ Hk) as Hfo.
  assert (list_to_set [] ∪ A = A) as Hset by set_solver.
  split; rewrite ?app_nil_r, ?Hset; try done; try apply Hfi.
  - by intros x ?%elem_of_nil.
  - unfold pad. rewrite (length_file_data k ino l Hk), Nat.sub_diag. simpl. by rewrite app_nil_r.
Qed.

Lemma file_length d' ino l :
  file_ok d' e total ino l → Z.of_nat (length l) = total_blocks (Layout.size ino).
Proof using Type.
  intros Hfo. rewrite total_blocks_count by apply Hfo.
  eapply length_inode_list; [apply Hfo| |apply Hfo]. by apply _data_blocks_bounds, Hfo.
Qed.

(** The number of blocks in use grows by what the larger size needs. *)
Lemma grown_file_used k ino l new_size ino1 nb d1 :
  G !! k = Some (ino, l) → grown_file d e total A ino l new_size ino1 nb d1 →
  Z.of_nat (base.size (list_to_set nb ∪ A))
  = Z.of_nat (base.size A) + (total_blocks new_size - total_blocks (Layout.size ino)).
Proof using Hfi.
  intros Hk Hgf. pose proof (file_length _ _ _ (fi_file _ _ _ _ _ Hfi _ _ _ Hk)) as Hl.
  pose proof (file_length _ _ _ (gf_file _ _ _ _ _ _ _ _ _ _ Hgf)) as Hl1.
  rewrite (gf_size _ _ _ _ _ _ _ _ _ _ Hgf), length_app in Hl1.
  pose proof (fo_nodup _ _ _ _ _ (gf_file _ _ _ _ _ _ _ _ _ _ Hgf)) as (_ & _ & Hnd)%list.NoDup_app.
  rewrite size_union, size_list_to_set by (done || (intros x Hx%elem_of_list_to_set Hx';
    by apply (gf_new _ _ _ _ _ _ _ _ _ _ Hgf) in Hx as [_ ?])). lia.
Qed.

(** The grown file can be written while its inode's block is locked. *)
Lemma inode_at_grown k ino l new_size ino1 nb d1 :
  G !! k = Some (ino, l) → grown_file d e total A ino l new_size ino1 nb d1 →
  inode_at d1 [ia e + k / 4] ino1 (data_blocks ino1) (l ++ nb).
Proof using Hfi.
  intros Hk Hgf. pose proof (gf_file _ _ _ _ _ _ _ _ _ _ Hgf) as Hfo1.
  destruct (inode_block d e total G A Hfi k ino l Hk) as (_ & _ & _ & _ & _ & _ & _ & Hlow).
  pose proof (fi_geo _ _ _ _ _ Hfi) as Hg. pose proof (geo_da _ _ Hg). pose proof (geo_dbs _ _ Hg).
  pose proof (geo_dbb _ _ Hg). pose proof (geo_ib _ _ Hg).
  split; [apply Hfo1| |apply Hfo1|].
  - by apply _data_blocks_bounds, Hfo1.
  - split; [apply Hfo1| |].
    + intros x Hx%(fo_area _ _ _ _ _ Hfo1). eapply low_lockable; [done..|lia].
    + intros x Hx%(fo_area _ _ _ _ _ Hfo1). apply Hgf. lia.
Qed.

Lemma modify_file {V} k ino l (f : DiskInode → prog (V * DiskInode)) v ino1 nb d1 d2 new_size C :
  G !! k = Some (ino, l) → grown_file d e total A ino l new_size ino1 nb d1 →
  written d1 [ia e + k / 4] ino1 (data_blocks ino1) (l ++ nb) C d2 →
  all_zero (drop (Z.to_nat (Layout.size ino1)) C) →
  runs (f ino) [ia e + k / 4] d (v, ino1) d2 →
  ∃ d3, runs (modify_disk_inode (inode_of e k) f) [] d v d3 ∧
    fs_inv d3 e total (<[k := (ino1, l ++ nb)]> G) (list_to_set nb ∪ A) ∧
    file_data d3 ino1 (l ++ nb) = take (Z.to_nat (Layout.size ino1)) C ∧ others_same G k d d3.
Proof using Hfi.
  intros Hk Hgf Hwr Hz Hf. pose proof (fi_geo _ _ _ _ _ Hfi) as Hg.
  pose proof (gf_file _ _ _ _ _ _ _ _ _ _ Hgf) as Hfo1.
  pose proof (fi_range _ _ _ _ _ _ _ _ Hfi Hk) as Hkr. pose proof (slot_region e total k Hg Hkr) as Hsr.
  pose proof (geo_da _ _ Hg) as Hda. pose proof (geo_dbs _ _ Hg) as Hdbs. pose proof (geo_dbb _ _ Hg).
  assert (∀ x, x ∈ data_ids (l ++ nb) (data_blocks ino1) → x ∈ l ++ nb) as Hids.
  { intros x Hx. eapply data_ids_subset; [..|exact Hx]; apply Hfo1. }
  assert (∀ x, x ∉ l ++ nb → ¬ bm_region (data_bitmap e) x → d2 !! x = d !! x) as Hfr2.
  { intros x Hx Hxr. rewrite (wr_frame _ _ _ _ _ _ _ Hwr), (gf_frame _ _ _ _ _ _ _ _ _ _ Hgf); auto. }
  destruct (modify_disk_inode_spec d e total G A Hfi k ino l f v ino1 d2)
    as (d3 & Hrun & [Hslot Hbk Hd3 Hslots]); try done; [|apply Hfo1..|].
  { eapply low_frame; [apply Hfo1| |done]. lia. }
  assert (∀ x, da e ≤ x → d3 !! x = d2 !! x) as Hd3a by (intros x Hx; apply Hd3; lia).
  assert (∀ x, da e ≤ x < total → x ∉ l → x ∉ l ++ nb → d3 !! x = d !! x) as Hfr3.
  { intros x Hx _ HxL. rewrite Hd3a by lia. apply Hfr2; [done|]. eapply area_not_region; [done|lia]. }
  assert (∀ x, x ∈ l ++ nb → x ∈ l ∨ x ∉ A) as Hnew.
  { intros x [?|Hx%(gf_new _ _ _ _ _ _ _ _ _ _ Hgf)]%elem_of_app; [by left|right; apply Hx]. }
  assert (contents d3 (l ++ nb) (data_blocks ino1) = C) as HC3.
  { rewrite (contents_frame d2); [apply Hwr|]. intros x Hx%Hids%(fo_area _ _ _ _ _ Hfo1).
    apply Hd3a. lia. }
  exists d3. split_and!; [done| |unfold file_data; by rewrite HC3|by eapply others_same_intro].
  eapply fs_update; try done.
  - intros x Hx. destruct (decide (x = ia e + k / 4)) as [->|Hne]; [done|].
    destruct (wr_ok _ _ _ _ _ _ _ Hwr x) as (b & Hb & ?); [by apply Hgf|].
    exists b. by rewrite Hd3.
  - eapply low_same_intro; [done|apply Hfo1|done..].
  - eapply bm_set_frame; [|intros x Hx|apply Hgf]; [pose proof (geo_cover _ _ Hg); lia|].
    unfold bm_region in Hx. rewrite Hd3 by lia. apply Hwr.
    intros Hin%Hids%(fo_area _ _ _ _ _ Hfo1). lia.
  - intros x. rewrite elem_of_union, elem_of_list_to_set, elem_of_app. split.
    + intros [?|HxA]; [by left; right|]. destruct (decide (x ∈ l)); [by left; left|by right].
    + intros [[Hx|?]|[? ?]]; [right; by eapply file_in_A|by left|by right].
  - intros x Hx HxL. destruct HxL. elt.
  - destruct Hfo1 as [H1 H2 H3 H4 H5 H6 H7]. split; try done; [|by rewrite HC3].
    eapply inode_list_frame; [apply Hwr|]. intros x Hx%H6. apply Hd3a. lia.
Qed.

(** Writing [buf] at [off] into a file grown to hold it. *)
Lemma write_file {V} k ino l (f : DiskInode → prog (V * DiskInode)) v ino1 nb d1 new_size off buf :
  G !! k = Some (ino, l) → grown_file d e total A ino l new_size ino1 nb d1 →
  Forall is_byte buf → 0 < Z.of_nat (length buf) → 0 ≤ off →
  off + Z.of_nat (length buf) ≤ new_size →
  (∀ d2, runs (write_at ino1 off buf) [ia e + k / 4] d1 (Z.of_nat (length buf)) d2 →
     runs (f ino) [ia e + k / 4] d (v, ino1) d2) →
  ∃ d3, runs (modify_disk_inode (inode_of e k) f) [] d v d3 ∧
    fs_inv d3 e total (<[k := (ino1, l ++ nb)]> G) (list_to_set nb ∪ A) ∧
    file_data d3 ino1 (l ++ nb)
      = splice (Z.to_nat off) buf (pad (Z.to_nat new_size) (file_data d ino l)) ∧
    others_same G k d d3.
Proof using Hfi.
  intros Hk Hgf Hbytes Hlen Hoff Hend Hf.
  pose proof (gf_file _ _ _ _ _ _ _ _ _ _ Hgf) as Hfo1. pose proof (gf_size _ _ _ _ _ _ _ _ _ _ Hgf) as Hsz.
  pose proof (inode_at_grown k ino l new_size ino1 nb d1 Hk Hgf) as Hia1.
  pose proof (fo_size _ _ _ _ _ Hfo1) as Hs1. pose proof Hs1 as Hs2.
  change MAX_FILE_SIZE with 8468480 in Hs2.
  destruct (_data_blocks_bounds _ Hs1) as [Hn Hnn]. fold (data_blocks ino1) in *.
  pose proof (length_contents d1 _ ino1 (data_blocks ino1) (l ++ nb) Hia1 ltac:(lia)) as HlC.
  destruct (write_at_spec d1 [ia e + k / 4] ino1 (l ++ nb) off buf) as (d2 & Hrun & Hwr);
    try done; try lia.
  rewrite Z.min_l in Hrun, Hwr by lia.
  replace (off + Z.of_nat (length buf) - off) with (Z.of_nat (length buf)) in Hrun, Hwr by lia.
  rewrite Nat2Z.id, take_ge in Hwr by lia.
  destruct (modify_file k ino l f v ino1 nb d1 d2 new_size _ Hk Hgf Hwr) as (d3 & Hr3 & Hfi3 & Hfd3 & Hos).
  - rewrite drop_splice by lia. apply Hfo1.
  - by apply Hf.
  - exists d3. split_and!; try done. rewrite Hfd3, take_splice_in by lia.
    f_equal. rewrite <- (gf_data _ _ _ _ _ _ _ _ _ _ Hgf). done.
Qed.

(** What a write of [buf] at [off] makes of the contents [c]. *)
Definition write_data (c : list Z) (off : Z) (buf : list Z) : list Z :=
  splice (Z.to_nat off) buf (pad (Z.to_nat off + length buf) c).

(** [Inode::write_at]: the file is grown with zeros if needed, the buffer is
    written, everything else stays. *)
Lemma Inode_write_at_spec k ino l off buf :
  G !! k = Some (ino, l) → Forall is_byte buf → 0 < Z.of_nat (length buf) → 0 ≤ off →
  off + Z.of_nat (length buf) ≤ MAX_FILE_SIZE →
  Z.of_nat (base.size A) + (total_blocks (Z.max (Layout.size ino) (off + Z.of_nat (length buf)))
    - total_blocks (Layout.size ino)) ≤ total - da e →
  ∃ ino' nb d', runs (Inode_write_at (inode_of e k) off buf) [] d (Z.of_nat (length buf)) d' ∧
    fs_inv d' e total (<[k := (ino', l ++ nb)]> G) (list_to_set nb ∪ A) ∧
    Z.of_nat (base.size (list_to_set nb ∪ A)) = Z.of_nat (base.size A)
      + (total_blocks (Z.max (Layout.size ino) (off + Z.of_nat (length buf)))
         - total_blocks (Layout.size ino)) ∧
    type_ ino' = type_ ino ∧ Layout.size ino' = Z.max (Layout.size ino) (off + Z.of_nat (length buf)) ∧
    file_data d' ino' (l ++ nb) = write_data (file_data d ino l) off buf ∧ others_same G k d d'.
Proof using Hfi.
  intros Hk Hbytes Hlen Hoff Hmax Hcap. set (ns := off + Z.of_nat (length buf)) in *.
  pose proof (length_file_data k ino l Hk) as Hld.
  pose proof (fo_size _ _ _ _ _ (fi_file _ _ _ _ _ Hfi _ _ _ Hk)) as Hs.
  change MAX_FILE_SIZE with 8468480 in *.
  assert (wrap 32 (off +u Z.of_nat (length buf)) = ns) as Hns.
  { rewrite uadd_small by (mach_unfold; lia). apply wrap_small. mach_unfold. lia. }
  assert (∃ ino1 nb d1, runs (Inode_increase_size (inode_of e k) ns ino) [ia e + k / 4] d ino1 d1 ∧
    grown_file d e total A ino l (Z.max (Layout.size ino) ns) ino1 nb d1)
    as (ino1 & nb & d1 & Hrun1 & Hgf).
  { destruct (decide (Layout.size ino ≤ ns)).
    - rewrite Z.max_r in * by lia. apply (Inode_increase_size_spec d e total G A Hfi); try done; lia.
    - exists ino, [], d. rewrite Z.max_l by lia. split; [|by eapply grown_file_refl].
      unfold Inode_increase_size. by destruct (Z.ltb_spec ns (Layout.size ino)); [|lia]. }
  destruct (write_file k ino l (λ ino, Inode_increase_size (inode_of e k)
      (wrap 32 (off +u Z.of_nat (length buf))) ino ≫= λ ino,
      write_at ino off buf ≫= λ n, Ret (n, ino)) (Z.of_nat (length buf)) ino1 nb d1
      (Z.max (Layout.size ino) ns) off buf) as (d3 & Hrun & Hfi3 & Hfd & Hos); try done; [lia| |].
  { intros d2 Hw. rewrite Hns. eapply runs_bind; [exact Hrun1|].
    eapply runs_bind; [exact Hw|apply runs_ret]. }
  exists ino1, nb, d3. split_and!; try done; try apply Hgf; [|by eapply grown_file_used|].
  - unfold Inode_write_at. eapply runs_bind; [exact Hrun|]. eapply runs_bind; [apply runs_sync_all|].
    apply runs_ret.
  - rewrite Hfd. unfold write_data, pad. rewrite Hld. do 3 f_equal. lia.
Qed.

(** An empty file owns no blocks. *)
Lemma file_ok_empty d' ino :
  inode_ok ino → inode_u32 ino → Layout.size ino = 0 → file_ok d' e total ino [].
Proof using Type.
  intros Hok Hu Hs. assert (data_blocks ino = 0) as Hdb by (unfold data_blocks; by rewrite Hs).
  split; try done.
  - by rewrite Hs.
  - rewrite Hdb, inode_list_small by lia. by rewrite take_0.
  - constructor.
  - by intros x ?%elem_of_nil.
  - rewrite Hdb. apply Forall_drop. constructor.
Qed.

Lemma cleared_used k ino l :
  G !! k = Some (ino, l) →
  Z.of_nat (base.size (A ∖ list_to_set l)) = Z.of_nat (base.size A) - total_blocks (Layout.size ino).
Proof using Hfi.
  intros Hk. pose proof (fi_file _ _ _ _ _ Hfi _ _ _ Hk) as Hfo.
  assert ((list_to_set l : gset Z) ⊆ A) as Hsub.
  { intros x Hx%elem_of_list_to_set. by eapply file_in_A. }
  pose proof (subseteq_size _ _ Hsub) as Hle. rewrite size_difference by done.
  rewrite size_list_to_set in * by apply Hfo. rewrite <- (file_length d ino l) by done. lia.
Qed.

(** [Inode::clear] empties the file and gives every block of it back. *)
Lemma clear_spec k ino l :
  G !! k = Some (ino, l) →
  ∃ ino' d', runs (clear (inode_of e k)) [] d () d' ∧
    fs_inv d' e total (<[k := (ino', [])]> G) (A ∖ list_to_set l) ∧
    Z.of_nat (base.size (A ∖ list_to_set l))
      = Z.of_nat (base.size A) - total_blocks (Layout.size ino) ∧
    Layout.size ino' = 0 ∧ type_ ino' = type_ ino ∧ others_same G k d d'.
Proof using Hfi.
  intros Hk. pose proof (fi_geo _ _ _ _ _ Hfi) as Hg. pose proof (fi_file _ _ _ _ _ Hfi _ _ _ Hk) as Hfo.
  pose proof (fi_range _ _ _ _ _ _ _ _ Hfi Hk) as Hkr. pose proof (slot_region e total k Hg Hkr) as Hsr.
  pose proof (geo_da _ _ Hg). pose proof (geo_dbs _ _ Hg). pose proof (geo_dbb _ _ Hg).
  pose proof (geo_ib _ _ Hg).
  destruct (inode_block d e total G A Hfi k ino l Hk) as (_ & _ & _ & _ & _ & _ & _ & Hlow).
  pose proof (inode_at_file d e total G A Hfi k ino l Hk) as Hia.
  destruct (clear_size_spec d [ia e + k / 4] ino l) as (ino' & Hrun1 & Hs' & Ht' & Hok' & Hu');
    [apply Hfo|apply Hlow|apply Hfo|apply Hfo|apply Hia|].
  destruct (dealloc_all_spec e total Hg [ia e + k / 4] l d A) as (d2 & Hrun2 & Hz2 & Hset2 & Hfr2);
    [apply Hfi|apply Hfo| |done|].
  { intros x Hx. split; [by eapply file_in_A|]. by apply (fb_block _ _ _ (ia_fresh _ _ _ _ _ Hia)). }
  assert (∀ x, 0 < x < total → block_ok d2 x) as Hbo2.
  { intros x Hx. eapply (block_ok_region d e total G A Hfi d2 _ l); [exact Hset2| |done..].
    intros y Hy. exists zeros. rewrite Hz2 by done. split_and!; [done..|]. by apply Forall_replicate. }
  destruct (modify_disk_inode_spec d e total G A Hfi k ino l (λ disk_inode,
      clear_size disk_inode ≫= λ '(bs, ino2),
      passert (Z.of_nat (length bs) =? total_blocks (Layout.size disk_inode)) ≫= λ _,
      pfold bs (λ b _, dealloc_data e b) () ≫= λ _, Ret ((), ino2)) () ino' d2)
    as (d3 & Hrun & [Hslot Hbk Hd3 Hslots]); try done; [| |by apply Hu', Hfo|].
  { eapply runs_bind; [exact Hrun1|]. cbn beta iota. eapply runs_bind.
    - apply runs_passert, Z.eqb_eq. by eapply file_length.
    - eapply runs_bind; [exact Hrun2|apply runs_ret]. }
  { eapply low_frame; [apply Hfo| |done]. lia. }
  assert (∀ x, da e ≤ x → d3 !! x = d2 !! x) as Hd3a by (intros x Hx; apply Hd3; lia).
  assert (∀ x, da e ≤ x < total → x ∉ l → x ∉ [] → d3 !! x = d !! x) as Hfr3.
  { intros x Hx Hxl _. rewrite Hd3a by lia. apply Hfr2; [done|]. eapply area_not_region; [done|lia]. }
  exists ino', d3. split_and!; [|eapply fs_update|by eapply cleared_used| | |eapply others_same_intro];
    try done.
  - unfold clear. eapply runs_bind; [exact Hrun|apply runs_sync_all].
  - intros x Hx. destruct (decide (x = ia e + k / 4)) as [->|Hne]; [done|].
    destruct (Hbo2 x Hx) as (b & Hb & ?). exists b. by rewrite Hd3.
  - eapply low_same_intro; [done|apply Hfo|done..].
  - eapply bm_set_frame; [|intros x Hx|exact Hset2]; [pose proof (geo_cover _ _ Hg); lia|].
    unfold bm_region in Hx. apply Hd3. lia.
  - intros x. rewrite elem_of_difference, elem_of_list_to_set, elem_of_nil. tauto.
  - by intros x ?%elem_of_nil.
  - intros x Hx _. rewrite Hd3a by (by apply (fo_area _ _ _ _ _ Hfo)). by apply Hz2.
  - by apply file_ok_empty; [..|apply Hu', Hfo|].
  - by intros x ?%elem_of_nil.
Qed.
End change.
