(* ===== verification/FsDir.v ===== *)
(** * FsDir: the root directory, and the file system as its users see it

    [fs_rep d e total D F u] relates a disk to what the users of easy-fs see:
    the directory [D] (names and inode numbers, in creation order), the
    contents [F] of the files, and the number [u] of data blocks in use.  The
    operations of the root [Inode] and of the files are shown to implement the
    obvious operations on [D] and [F]. *)

From stdpp Require Import base gmap list numbers.
From S2P Require Import Prelude Bytes BlockIO Bitmap Layout InodeIndex InodeData LayoutCodec Efs.
From S2P Require Import Vfs FsState FsOps.

(** ** A new inode *)
Lemma DiskInode_initialize_ok t ino :
  inode_ok ino → inode_ok (DiskInode_initialize t ino) ∧ inode_u32 (DiskInode_initialize t ino).
Proof.
  unfold inode_ok. intros Hok. split; [cbn; by rewrite length_fmap|].
  split; [done|]. split; [|done]. cbn. apply Forall_fmap, Forall_true. done.
Qed.

Section new_inode.
Context (d : gmap Z (list Z)) (e : EasyFileSystem) (total : Z)
  (G : gmap Z (DiskInode * list Z)) (A : gset Z).
Hypothesis Hfi : fs_inv d e total G A.

Lemma alloc_inode_spec :
  Z.of_nat (base.size (dom G)) < 4096 * ib e →
  ∃ k d', runs (alloc_inode e) [] d k d' ∧ 0 ≤ k < 4096 * ib e ∧ G !! k = None ∧
    bm_set d' (inode_bitmap e) 0 (4096 * ib e) ({[k]} ∪ dom G) ∧
    (∀ x, ¬ bm_region (inode_bitmap e) x → d' !! x = d !! x) ∧ (∀ j, 0 ≤ j < k → is_Some (G !! j)).
Proof using Hfi.
  intros Hsz. pose proof (fi_geo _ _ _ _ _ Hfi) as Hg. pose proof (geo_ib _ _ Hg).
  pose proof (geo_ibs _ _ Hg). change (2 ^ 20) with 1048576 in *.
  destruct (bm_set_alloc d (inode_bitmap e) 0 (4096 * ib e) (dom G) [])
    as (k & d' & Hrun & Hk & HkG & Hset & Hfr & Hlow); [apply Hfi|lia|done| |].
  { intros x Hx. unfold bm_region in Hx. split; [unfold ok_id; mach_unfold; lia|].
    split; [apply not_elem_of_nil|done]. }
  rewrite Z.add_0_l in *. exists k, d'. split_and!; try done; try lia.
  - unfold alloc_inode. eapply runs_bind; [exact Hrun|]. eapply runs_bind; [apply runs_ret|].
    rewrite wrap_small by (mach_unfold; lia). apply runs_ret.
  - by apply not_elem_of_dom.
  - intros j Hj. by apply elem_of_dom, Hlow.
Qed.

(** [modify] of a slot of the inode area that initializes it. *)
Lemma slot_initialize d1 k (t : DiskInodeType) :
  0 ≤ k < 4096 * ib e → (∀ x, ¬ bm_region (inode_bitmap e) x → d1 !! x = d !! x) →
  ∃ d2 ino1, runs (modify (ia e + k / 4) (128 * (k mod 4)) DISK_INODE_SIZE (λ b,
      with_inode (λ ino, Ret ((), DiskInode_encode (DiskInode_initialize t ino) b)) b)) [] d1 () d2 ∧
    inode_ok ino1 ∧ inode_u32 ino1 ∧ Layout.size ino1 = 0 ∧ type_ ino1 = t ∧
    slot_stored d1 e k ino1 d2.
Proof using Hfi.
  intros Hk Hfr. pose proof (fi_geo _ _ _ _ _ Hfi) as Hg. pose proof (slot_region e total k Hg Hk) as Hr.
  pose proof (geo_total _ _ Hg). pose proof (geo_da _ _ Hg). pose proof (geo_dbs _ _ Hg).
  pose proof (geo_ia _ _ Hg). pose proof (geo_dbb _ _ Hg). pose proof (geo_ib _ _ Hg).
  pose proof (geo_ibs _ _ Hg). pose proof (Z.mod_pos_bound k 4 ltac:(lia)).
  destruct (fi_block _ _ _ _ _ Hfi (ia e + k / 4)) as (b & Hb & Hl & Hbb); [lia|].
  rewrite <- Hfr in Hb by (unfold bm_region; lia).
  destruct (fi_slots _ _ _ _ _ Hfi k Hk) as (old & ino & Hslot & Hdec). unfold slot in Hslot.
  rewrite <- Hfr, Hb in Hslot by (unfold bm_region; lia). injection Hslot as Hold.
  assert (inode_ok ino) as Hok by (eapply DiskInode_decode_length; exact Hdec).
  destruct (DiskInode_initialize_ok t ino Hok) as [Hok' Hu'].
  destruct (slot_store d1 e k b (DiskInode_initialize t ino) Hb Hl Hbb Hok' Hu') as [Hfit Hst].
  eexists _, (DiskInode_initialize t ino). split_and!; [|done..].
  eapply runs_modify_pure; [|exact Hb|apply slot_in_block| |exact Hfit].
  - split; [unfold ok_id; mach_unfold; lia|]. split; [apply not_elem_of_nil|done].
  - change (Z.to_nat DISK_INODE_SIZE) with 128%nat. unfold with_inode. by rewrite Hold, Hdec.
Qed.

(** A fresh inode with an empty file in it keeps the file system consistent. *)
Lemma fs_add k d1 d2 ino1 :
  0 ≤ k < 4096 * ib e → G !! k = None →
  bm_set d1 (inode_bitmap e) 0 (4096 * ib e) ({[k]} ∪ dom G) →
  (∀ x, ¬ bm_region (inode_bitmap e) x → d1 !! x = d !! x) →
  inode_ok ino1 → inode_u32 ino1 → Layout.size ino1 = 0 → slot_stored d1 e k ino1 d2 →
  fs_inv d2 e total (<[k := (ino1, [])]> G) A ∧ (∀ x, da e ≤ x → d2 !! x = d !! x).
Proof using Hfi.
  intros Hk HGk Hset1 Hfr1 Hok Hu Hs [Hslot Hbk Hd2 Hslots]. pose proof (fi_geo _ _ _ _ _ Hfi) as Hg.
  pose proof (slot_region e total k Hg Hk) as Hr. pose proof (geo_total _ _ Hg).
  pose proof (geo_da _ _ Hg). pose proof (geo_dbs _ _ Hg). pose proof (geo_ia _ _ Hg).
  pose proof (geo_dbb _ _ Hg). pose proof (geo_ib _ _ Hg). pose proof (geo_ibs _ _ Hg).
  assert (∀ x, ia e ≤ x → x ≠ ia e + k / 4 → d2 !! x = d !! x) as Hsame.
  { intros x Hx Hne. rewrite Hd2, Hfr1; [done| |done]. unfold bm_region. lia. }
  assert (∀ x, da e ≤ x → d2 !! x = d !! x) as Harea by (intros x Hx; apply Hsame; lia).
  assert (∀ j, 0 ≤ j < 4096 * ib e → j ≠ k → slot d2 e j = slot d e j) as Hsl.
  { intros j Hj Hne. rewrite Hslots by done. unfold slot. f_equal. apply Hfr1. unfold bm_region.
    pose proof (slot_region e total j Hg Hj). lia. }
  split; [|done]. split; try done.
  - intros x Hx. destruct (decide (x = ia e + k / 4)) as [->|Hne]; [done|].
    destruct (decide (1 ≤ x < 1 + ib e)).
    + destruct (bm_block _ _ (bs_wf _ _ _ _ _ Hset1) (x - 1) ltac:(lia)) as (b & Hb & ?).
      exists b. rewrite Hd2 by done. by replace x with (start_block_id (inode_bitmap e) + (x - 1)) by lia.
    + destruct (fi_block _ _ _ _ _ Hfi x Hx) as (b & Hb & ?). exists b.
      rewrite Hd2, Hfr1 by (done || unfold bm_region; lia). done.
  - rewrite dom_insert_L. eapply bm_set_frame; [| |exact Hset1]; [lia|].
    intros x Hx. unfold bm_region in Hx. apply Hd2. lia.
  - eapply bm_set_frame; [pose proof (geo_cover _ _ Hg); lia| |apply Hfi].
    intros x Hx. unfold bm_region in Hx. apply Hsame; lia.
  - intros j Hj. destruct (decide (j = k)) as [->|Hne].
    + destruct (slot d2 e k) as [b|]; [|done]. eauto.
    + rewrite Hsl by done. by apply Hfi.
  - intros j ino l [[-> [= <- <-]]|[Hne Hg1]]%lookup_insert_Some; [done|].
    rewrite Hsl; [by eapply Hfi|by eapply fi_range|done].
  - intros j ino l [[-> [= <- <-]]|[Hne Hg1]]%lookup_insert_Some.
    + by apply file_ok_empty.
    + pose proof (fi_file _ _ _ _ _ Hfi _ _ _ Hg1) as Hfo. eapply file_ok_frame; [|exact Hfo].
      intros x Hx%(fo_area _ _ _ _ _ Hfo). apply Harea. lia.
  - intros x. rewrite (fi_own _ _ _ _ _ Hfi). split.
    + intros (j & ino & l & Hg1 & Hx). exists j, ino, l. rewrite lookup_insert_ne; [done|].
      intros <-. congruence.
    + intros (j & ino & l & [[-> [= <- <-]]|[Hne Hg1]]%lookup_insert_Some & Hx); [|by eauto].
      by apply elem_of_nil in Hx.
  - intros j1 j2 i1 i2 l1 l2 x [[-> [= <- <-]]|[Hne1 Hg1]]%lookup_insert_Some
      [[-> [= <- <-]]|[Hne2 Hg2]]%lookup_insert_Some Hx1 Hx2; try done;
      try (by apply elem_of_nil in Hx1); try (by apply elem_of_nil in Hx2).
    by eapply (fi_disj _ _ _ _ _ Hfi).
  - intros x Hx HxA. rewrite Harea by lia. by apply Hfi.
Qed.
End new_inode.

(** ** The directory *)

(** The bytes of a directory entry. *)
Definition dirent_bytes (nm : list Z * Z) : list Z :=
  DirEntry_as_bytes (mkDirEntry (nm.1 ++ replicate (28 - length nm.1) 0) nm.2).

Definition good_entry (nm : list Z * Z) : Prop := good_name nm.1 ∧ in_u 32 nm.2.

(** The first entry with that name. *)
Fixpoint dir_find (name : list Z) (D : list (list Z * Z)) : option Z :=
  match D with
  | [] => None
  | (s, id) :: D => if bool_decide (s = name) then Some id else dir_find name D
  end.

Lemma good_entry_length nm :
  good_entry nm → length (nm.1 ++ replicate (28 - length nm.1) 0) = 28%nat.
Proof.
  intros [(Hl & _) _]. change NAME_LENGTH_LIMIT with 27 in Hl. rewrite length_app, length_replicate. lia.
Qed.

Lemma length_dirent_bytes nm : good_entry nm → length (dirent_bytes nm) = 32%nat.
Proof. intros H. by apply length_DirEntry_as_bytes, good_entry_length. Qed.

Lemma dirent_of_bytes nm :
  good_entry nm →
  DirEntry_of_bytes (dirent_bytes nm) = mkDirEntry (nm.1 ++ replicate (28 - length nm.1) 0) nm.2.
Proof. intros H. apply DirEntry_of_as_bytes; [by apply good_entry_length|apply H]. Qed.

Lemma dirent_bytes_bytes nm : good_entry nm → Forall is_byte (dirent_bytes nm).
Proof.
  intros [(_ & Hb & _) _]. apply DirEntry_as_bytes_bytes. cbn. apply Forall_app. split.
  - eapply list.Forall_impl; [exact Hb|]. by intros x [? ?].
  - by apply Forall_replicate.
Qed.

(** An inode that holds the directory [D]. *)
Record dir_ok (d : gmap Z (list Z)) (ino : DiskInode) (l : list Z) (D : list (list Z * Z)) : Prop := {
  do_type : type_ ino = Directory;
  do_size : Layout.size ino = 32 * Z.of_nat (length D);
  do_data : file_data d ino l = concat (dirent_bytes <$> D);
  do_good : Forall good_entry D;
}.

Section dir_loops.
Context (d : gmap Z (list Z)) (h : list Z) (ino : DiskInode) (l : list Z) (D : list (list Z * Z)).
Hypothesis Hia : inode_at d h ino (data_blocks ino) l.
Hypothesis Hsize : 0 ≤ Layout.size ino ≤ MAX_FILE_SIZE.
Hypothesis Hdir : dir_ok d ino l D.

(** Reading entry [i] into a 32-byte buffer. *)
Lemma read_entry i nm buf :
  D !! i = Some nm → length buf = 32%nat →
  runs (read_at ino (32 * Z.of_nat i) buf) h d (DIRENT_SZ, dirent_bytes nm) d.
Proof using All.
  intros Hi Hbuf. destruct Hdir as [Ht Hs Hd Hgood]. apply lookup_lt_Some in Hi as Hlt.
  pose proof Hsize as Hsz. change MAX_FILE_SIZE with 8468480 in Hsz.
  pose proof (read_at_spec d h ino l (32 * Z.of_nat i) buf Hia Hsize ltac:(lia) ltac:(lia)) as Hr.
  cbv zeta in Hr. rewrite Hbuf, Hd in Hr.
  replace (Z.max 0 (Z.min (32 * Z.of_nat i + Z.of_nat 32) (Layout.size ino) - 32 * Z.of_nat i))
    with 32 in Hr by lia.
  replace (slice (Z.to_nat (32 * Z.of_nat i)) (Z.to_nat 32) (concat (dirent_bytes <$> D)))
    with (dirent_bytes nm) in Hr.
  - pose proof (length_dirent_bytes nm (Forall_lookup_1 _ _ _ _ Hgood Hi)) as Hl.
    rewrite splice_0, drop_ge, app_nil_r in Hr by lia. done.
  - assert (Forall (λ b, length b = 32%nat) (dirent_bytes <$> D)) as Hf.
    { apply Forall_fmap. eapply list.Forall_impl; [exact Hgood|]. apply length_dirent_bytes. }
    replace (Z.to_nat (32 * Z.of_nat i)) with (32 * i + 0)%nat by lia.
    rewrite (concat_slice 32 _ Hf i (dirent_bytes nm)); [|by rewrite list_lookup_fmap, Hi|done].
    change (Z.to_nat 32) with 32%nat.
    rewrite <- (length_dirent_bytes nm (Forall_lookup_1 _ _ _ _ Hgood Hi)). by rewrite slice_all.
Qed.

Lemma entry_name nm i : D !! i = Some nm → DirEntry_name (DirEntry_of_bytes (dirent_bytes nm)) = Ok nm.1.
Proof using Hdir.
  intros Hi. pose proof (Forall_lookup_1 _ _ _ _ (do_good _ _ _ _ Hdir) Hi) as Hg.
  rewrite dirent_of_bytes by done. apply DirEntry_name_new, Hg.
Qed.

Lemma find_loop_spec name D2 : ∀ i dirent,
  drop i D = D2 → length (DirEntry_as_bytes dirent) = 32%nat →
  runs (find_loop name ino (seqZ (Z.of_nat i) (Z.of_nat (length D2))) dirent) h d (dir_find name D2) d.
Proof using All.
  induction D2 as [|nm D2 IH]; intros i dirent Hdrop Hbuf; [apply runs_ret|].
  assert (D !! i = Some nm) as Hi by (rewrite <- (Nat.add_0_r i), <- lookup_drop, Hdrop; done).
  apply lookup_lt_Some in Hi as Hlt. pose proof Hsize as Hsz. rewrite (do_size _ _ _ _ Hdir) in Hsz.
  change MAX_FILE_SIZE with 8468480 in Hsz.
  rewrite length_cons, seqZ_cons by lia. cbn [find_loop].
  change DIRENT_SZ with 32. rewrite umul_small by (mach_unfold; lia).
  eapply runs_bind; [by apply (read_entry i nm)|]. cbn beta iota.
  eapply runs_bind; [by apply runs_passert|]. rewrite (entry_name nm i Hi).
  eapply runs_bind; [apply runs_ret|]. rewrite dirent_of_bytes
    by (exact (Forall_lookup_1 _ _ _ _ (do_good _ _ _ _ Hdir) Hi)).
  destruct nm as [s id]. cbn [dir_find fst snd inode_number]. case_bool_decide; [apply runs_ret|].
  replace (Z.pred (Z.of_nat (S (length D2)))) with (Z.of_nat (length D2)) by lia.
  rewrite <- Nat2Z.inj_succ. apply IH.
  - rewrite <- Nat.add_1_r, <- drop_drop, Hdrop. done.
  - by apply (length_dirent_bytes (s, id)), (Forall_lookup_1 _ _ _ _ (do_good _ _ _ _ Hdir) Hi).
Qed.

Lemma find_inode_id_spec name : runs (find_inode_id name ino) h d (dir_find name D) d.
Proof using All.
  unfold find_inode_id, is_dir. rewrite (do_type _ _ _ _ Hdir). eapply runs_bind; [by apply runs_passert|].
  rewrite (do_size _ _ _ _ Hdir). change DIRENT_SZ with 32. rewrite Z.mul_comm, Z.div_mul by lia.
  by apply (find_loop_spec name D 0).
Qed.

Lemma ls_loop_spec D2 : ∀ i v,
  drop i D = D2 →
  runs (pfold (seqZ (Z.of_nat i) (Z.of_nat (length D2))) (λ i v,
      read_at ino (i *u DIRENT_SZ) (DirEntry_as_bytes DirEntry_empty) ≫= λ '(n, bytes),
      passert (n =? DIRENT_SZ) ≫= λ _,
      plift (DirEntry_name (DirEntry_of_bytes bytes)) ≫= λ s,
      Ret (v ++ [s])) v) h d (v ++ D2.*1) d.
Proof using All.
  induction D2 as [|nm D2 IH]; intros i v Hdrop; [rewrite app_nil_r; apply runs_ret|].
  assert (D !! i = Some nm) as Hi by (rewrite <- (Nat.add_0_r i), <- lookup_drop, Hdrop; done).
  apply lookup_lt_Some in Hi as Hlt. pose proof Hsize as Hsz. rewrite (do_size _ _ _ _ Hdir) in Hsz.
  change MAX_FILE_SIZE with 8468480 in Hsz.
  rewrite length_cons, seqZ_cons by lia. cbn [pfold].
  eapply runs_bind.
  - change DIRENT_SZ with 32. rewrite umul_small by (mach_unfold; lia). rewrite Z.mul_comm.
    eapply runs_bind; [by apply (read_entry i nm)|]. cbn beta iota.
    eapply runs_bind; [by apply runs_passert|]. rewrite (entry_name nm i Hi).
    eapply runs_bind; apply runs_ret.
  - replace (Z.pred (Z.of_nat (S (length D2)))) with (Z.of_nat (length D2)) by lia.
    rewrite <- Nat2Z.inj_succ. cbn [fmap list_fmap].
    replace (v ++ nm.1 :: D2.*1) with ((v ++ [nm.1]) ++ D2.*1) by (by rewrite <- app_assoc).
    apply IH. rewrite <- Nat.add_1_r, <- drop_drop, Hdrop. done.
Qed.
End dir_loops.
