(* ===== verification/Fs.v ===== *)
(** * Fs: the contract of easy-fs

    [fs_rep d e total D F u]: the disk [d] of [total] blocks holds the file
    system [e] with the directory [D] (names and inode numbers in creation
    order), the file contents [F], and [u] data blocks in use.  Every operation
    of easy-fs/src/vfs.rs is shown against it. *)

From stdpp Require Import base gmap list numbers.
From S2P Require Import Prelude Bytes BlockIO Bitmap Layout InodeIndex InodeData LayoutCodec Efs.
From S2P Require Import Vfs FsState FsOps FsDir.

Record rep_of (d : gmap Z (list Z)) (e : EasyFileSystem) (total : Z) (D : list (list Z * Z))
    (F : gmap Z (list Z)) (G : gmap Z (DiskInode * list Z)) (A : gset Z)
    (root : DiskInode) (lr : list Z) : Prop := {
  ro_inv : fs_inv d e total G A;
  ro_root : G !! 0 = Some (root, lr);
  ro_dir : dir_ok d root lr D;
  ro_names : NoDup D.*1;
  ro_ids : NoDup D.*2;
  ro_nz : 0 ∉ D.*2;
  ro_dom : dom G = {[0]} ∪ list_to_set D.*2;
  ro_files k : k ∈ D.*2 →
    ∃ ino l, G !! k = Some (ino, l) ∧ type_ ino = File ∧ F !! k = Some (file_data d ino l);
  ro_fdom : dom F = list_to_set D.*2;
}.

Definition fs_rep (d : gmap Z (list Z)) (e : EasyFileSystem) (total : Z) (D : list (list Z * Z))
    (F : gmap Z (list Z)) (u : Z) : Prop :=
  ∃ G A root lr, rep_of d e total D F G A root lr ∧ u = Z.of_nat (base.size A).

(** The number of blocks a file of that many bytes takes. *)
Notation blocks_of c := (total_blocks (Z.of_nat (length c))).

Lemma rep_geometry d e total D F u : fs_rep d e total D F u → geometry e total.
Proof. intros (G & A & root & lr & Hrep & _). apply (ro_inv _ _ _ _ _ _ _ _ _ Hrep). Qed.

Lemma root_inode_eq e total : geometry e total → root_inode e = inode_of e 0.
Proof.
  intros Hg. unfold root_inode. rewrite (get_disk_inode_pos_eq e total 0 Hg); [done|].
  pose proof (geo_ib _ _ Hg). lia.
Qed.

(** The file with inode number [k]. *)
Lemma rep_file d e total D F G A root lr k c :
  rep_of d e total D F G A root lr → F !! k = Some c →
  k ∈ D.*2 ∧ ∃ ino l, G !! k = Some (ino, l) ∧ type_ ino = File ∧ file_data d ino l = c ∧
    Layout.size ino = Z.of_nat (length c).
Proof.
  intros Hrep Hk. assert (k ∈ D.*2) as Hin.
  { apply elem_of_dom_2 in Hk. rewrite (ro_fdom _ _ _ _ _ _ _ _ _ Hrep) in Hk.
    by apply elem_of_list_to_set in Hk. }
  destruct (ro_files _ _ _ _ _ _ _ _ _ Hrep k Hin) as (ino & l & HG & Ht & HF).
  split; [done|]. exists ino, l. rewrite Hk in HF. injection HF as ->. split_and!; try done.
  rewrite (length_file_data _ _ _ _ _ (ro_inv _ _ _ _ _ _ _ _ _ Hrep) k ino l HG).
  pose proof (fo_size _ _ _ _ _ (fi_file _ _ _ _ _ (ro_inv _ _ _ _ _ _ _ _ _ Hrep) _ _ _ HG)). lia.
Qed.

(** Replacing the contents of one file. *)
Lemma rep_replace d d' e total D F G A A' root lr k ino' l' :
  rep_of d e total D F G A root lr → k ∈ D.*2 →
  fs_inv d' e total (<[k := (ino', l')]> G) A' → others_same G k d d' → type_ ino' = File →
  rep_of d' e total D (<[k := file_data d' ino' l']> F) (<[k := (ino', l')]> G) A' root lr.
Proof.
  intros [H1 H2 H3 H4 H5 H6 H7 H8 H9] Hk Hinv Hos Ht.
  assert (k ≠ 0) as Hk0 by (by intros ->).
  assert (is_Some (G !! k)) as HGk.
  { apply elem_of_dom. rewrite H7. apply elem_of_union. right. by apply elem_of_list_to_set. }
  split; try done.
  - by rewrite lookup_insert_ne.
  - destruct H3 as [D1 D2 D3 D4]. split; try done. by rewrite <- D3, (Hos 0).
  - by rewrite dom_insert_lookup_L.
  - intros j Hj. destruct (decide (j = k)) as [->|Hne].
    + exists ino', l'. by rewrite !lookup_insert_eq.
    + destruct (H8 j Hj) as (ino & l & HG & Htj & HF). exists ino, l.
      rewrite !lookup_insert_ne by done. split_and!; try done. by rewrite (Hos j ino l).
  - rewrite dom_insert_lookup_L, H9; [done|]. apply elem_of_dom. rewrite H9.
    by apply elem_of_list_to_set.
Qed.

Section contract.
Context (d : gmap Z (list Z)) (e : EasyFileSystem) (total : Z) (D : list (list Z * Z))
  (F : gmap Z (list Z)) (u : Z).
Hypothesis Hrep : fs_rep d e total D F u.

Lemma rep_find name :
  runs (find (root_inode e) name) [] d (inode_of e <$> dir_find name D) d.
Proof using Hrep.
  destruct Hrep as (G & A & root & lr & Hr & _). pose proof (ro_inv _ _ _ _ _ _ _ _ _ Hr) as Hfi.
  pose proof (fi_geo _ _ _ _ _ Hfi) as Hg. rewrite (root_inode_eq e total Hg).
  pose proof (ro_root _ _ _ _ _ _ _ _ _ Hr) as H0.
  eapply read_disk_inode_spec; [done..|]. eapply runs_bind.
  { eapply find_inode_id_spec; [by eapply inode_at_file|by eapply fi_file|apply Hr]. }
  destruct (dir_find name D) as [id|] eqn:Hid; [|apply runs_ret].
  cbn [fs inode_of]. rewrite (get_disk_inode_pos_eq e total id Hg); [apply runs_ret|].
  assert (id ∈ D.*2) as Hin.
  { clear -Hid. induction D as [|[s j] D' IH]; [done|]. cbn in *. case_bool_decide.
    - injection Hid as ->. elt.
    - rewrite elem_of_cons. auto. }
  destruct (ro_files _ _ _ _ _ _ _ _ _ Hr id Hin) as (ino & l & HG & _). by eapply fi_range.
Qed.

Lemma rep_ls : runs (ls (root_inode e)) [] d D.*1 d.
Proof using Hrep.
  destruct Hrep as (G & A & root & lr & Hr & _). pose proof (ro_inv _ _ _ _ _ _ _ _ _ Hr) as Hfi.
  pose proof (fi_geo _ _ _ _ _ Hfi) as Hg. rewrite (root_inode_eq e total Hg).
  pose proof (ro_root _ _ _ _ _ _ _ _ _ Hr) as H0. pose proof (ro_dir _ _ _ _ _ _ _ _ _ Hr) as Hdir.
  eapply read_disk_inode_spec; [done..|]. rewrite (do_size _ _ _ _ Hdir).
  change (32 * Z.of_nat (length D) / DIRENT_SZ) with (32 * Z.of_nat (length D) / 32).
  rewrite (Z.mul_comm 32), Z.div_mul by lia.
  apply (ls_loop_spec d _ root lr D (inode_at_file _ _ _ _ _ Hfi 0 root lr H0)
    (fo_size _ _ _ _ _ (fi_file _ _ _ _ _ Hfi _ _ _ H0)) Hdir D 0 []). done.
Qed.

Lemma rep_read k c off buf :
  F !! k = Some c → 0 ≤ off < 2 ^ 62 → Z.of_nat (length buf) < 2 ^ 62 →
  let n := Z.max 0 (Z.min (off + Z.of_nat (length buf)) (Z.of_nat (length c)) - off) in
  runs (Inode_read_at (inode_of e k) off buf) [] d
    (n, splice 0 (slice (Z.to_nat off) (Z.to_nat n) c) buf) d.
Proof using Hrep.
  intros Hk Hoff Hbuf. destruct Hrep as (G & A & root & lr & Hr & _).
  destruct (rep_file _ _ _ _ _ _ _ _ _ k c Hr Hk) as (_ & ino & l & HG & _ & <- & Hs).
  rewrite <- Hs. eapply Inode_read_at_spec; [apply Hr|done..].
Qed.

Lemma rep_write k c off buf :
  F !! k = Some c → Forall is_byte buf → 0 < Z.of_nat (length buf) → 0 ≤ off →
  off + Z.of_nat (length buf) ≤ MAX_FILE_SIZE →
  let c' := write_data c off buf in
  u + (blocks_of c' - blocks_of c) ≤ total - da e →
  ∃ d', runs (Inode_write_at (inode_of e k) off buf) [] d (Z.of_nat (length buf)) d' ∧
    fs_rep d' e total D (<[k := c']> F) (u + (blocks_of c' - blocks_of c)).
Proof using Hrep.
  intros Hk Hb Hlen Hoff Hmax c' Hcap. destruct Hrep as (G & A & root & lr & Hr & ->).
  destruct (rep_file _ _ _ _ _ _ _ _ _ k c Hr Hk) as (Hin & ino & l & HG & Ht & Hc & Hs).
  assert (Z.of_nat (length c') = Z.max (Layout.size ino) (off + Z.of_nat (length buf))) as Hlc'.
  { subst c'. unfold write_data. rewrite length_splice; unfold pad;
      rewrite length_app, length_replicate; lia. }
  rewrite Hlc', <- Hs in *.
  destruct (Inode_write_at_spec d e total G A (ro_inv _ _ _ _ _ _ _ _ _ Hr) k ino l off buf)
    as (ino' & nb & d' & Hrun & Hfi' & Hu & Ht' & Hs' & Hfd & Hos); try done.
  exists d'. split; [done|]. eexists _, _, root, lr. split; [|by rewrite <- Hu].
  subst c'. rewrite <- Hc, <- Hfd. eapply rep_replace; [done..|congruence].
Qed.

Lemma rep_clear k c :
  F !! k = Some c →
  ∃ d', runs (clear (inode_of e k)) [] d () d' ∧
    fs_rep d' e total D (<[k := []]> F) (u - blocks_of c).
Proof using Hrep.
  intros Hk. destruct Hrep as (G & A & root & lr & Hr & ->).
  destruct (rep_file _ _ _ _ _ _ _ _ _ k c Hr Hk) as (Hin & ino & l & HG & Ht & Hc & Hs).
  destruct (clear_spec d e total G A (ro_inv _ _ _ _ _ _ _ _ _ Hr) k ino l HG)
    as (ino' & d' & Hrun & Hfi' & Hu & Hs' & Ht' & Hos).
  exists d'. split; [done|]. eexists _, _, root, lr. split; [|by rewrite <- Hs, <- Hu].
  assert ([] = file_data d' ino' []) as -> by (unfold file_data; by rewrite Hs').
  eapply rep_replace; [done..|congruence].
Qed.

(** The name is taken: nothing happens. *)
Lemma rep_create_taken name id :
  dir_find name D = Some id → runs (create (root_inode e) name) [] d None d.
Proof using Hrep.
  intros Hid. destruct Hrep as (G & A & root & lr & Hr & _).
  pose proof (ro_inv _ _ _ _ _ _ _ _ _ Hr) as Hfi. pose proof (fi_geo _ _ _ _ _ Hfi) as Hg.
  rewrite (root_inode_eq e total Hg). pose proof (ro_root _ _ _ _ _ _ _ _ _ Hr) as H0.
  pose proof (ro_dir _ _ _ _ _ _ _ _ _ Hr) as Hdir.
  unfold create. eapply (runs_bind _ _ _ _ (Some id)); [|apply runs_ret].
  eapply read_disk_inode_spec; [done..|]. unfold is_dir. rewrite (do_type _ _ _ _ Hdir). eapply runs_bind; [by apply runs_passert|].
  rewrite <- Hid. eapply find_inode_id_spec; [by eapply inode_at_file|by eapply fi_file|done].
Qed.
End contract.

(** Appending an entry to the bytes of a directory. *)
Lemma splice_append (c x : list Z) : splice (length c) x (pad (length c + length x) c) = c ++ x.
Proof.
  unfold splice, pad. rewrite take_app_length. f_equal.
  rewrite drop_ge; [apply app_nil_r|]. len.
Qed.

Lemma length_dir_bytes D :
  Forall good_entry D → length (concat (dirent_bytes <$> D)) = (32 * length D)%nat.
Proof.
  intros Hg. rewrite (length_concat_blocks 32), length_fmap; [done|].
  apply Forall_fmap. eapply list.Forall_impl; [exact Hg|]. apply length_dirent_bytes.
Qed.

(** Adding an entry to the root directory while nothing else changes: the
    second half of [create]. *)
Lemma append_entry d e total G A root lr D name id :
  fs_inv d e total G A → G !! 0 = Some (root, lr) → dir_ok d root lr D →
  good_name name → in_u 32 id → 32 * (Z.of_nat (length D) + 1) ≤ MAX_FILE_SIZE →
  Z.of_nat (base.size A) + (total_blocks (32 * (Z.of_nat (length D) + 1))
    - total_blocks (32 * Z.of_nat (length D))) ≤ total - da e →
  ∃ root' nb d', runs (modify_disk_inode (inode_of e 0) (λ root_inode,
        let file_count := Layout.size root_inode / DIRENT_SZ in
        let new_size := (file_count +u 1) *u DIRENT_SZ in
        Inode_increase_size (inode_of e 0) (wrap 32 new_size) root_inode ≫= λ root_inode,
        plift (DirEntry_new name id) ≫= λ dirent,
        write_at root_inode (file_count *u DIRENT_SZ) (DirEntry_as_bytes dirent) ≫= λ _,
        Ret ((), root_inode))) [] d () d' ∧
    fs_inv d' e total (<[0 := (root', lr ++ nb)]> G) (list_to_set nb ∪ A) ∧
    Z.of_nat (base.size (list_to_set nb ∪ A)) = Z.of_nat (base.size A)
      + (total_blocks (32 * (Z.of_nat (length D) + 1)) - total_blocks (32 * Z.of_nat (length D))) ∧
    dir_ok d' root' (lr ++ nb) (D ++ [(name, id)]) ∧ others_same G 0 d d'.
Proof.
  intros Hfi H0 [Dt Ds Dd Dg] Hname Hid Hmax Hcap. set (n := Z.of_nat (length D)) in *.
  pose proof Hmax as Hmax'. change MAX_FILE_SIZE with 8468480 in Hmax'.
  destruct (Inode_increase_size_spec d e total G A Hfi 0 root lr (32 * (n + 1)))
    as (root' & nb & d1 & Hrun1 & Hgf); [done|lia|by rewrite Ds|].
  assert (good_entry (name, id)) as Hge by done.
  pose proof (length_dirent_bytes _ Hge) as Hlen.
  destruct (write_file d e total G A Hfi 0 root lr (λ root_inode,
        let file_count := Layout.size root_inode / DIRENT_SZ in
        let new_size := (file_count +u 1) *u DIRENT_SZ in
        Inode_increase_size (inode_of e 0) (wrap 32 new_size) root_inode ≫= λ root_inode,
        plift (DirEntry_new name id) ≫= λ dirent,
        write_at root_inode (file_count *u DIRENT_SZ) (DirEntry_as_bytes dirent) ≫= λ _,
        Ret ((), root_inode)) () root' nb d1 (32 * (n + 1)) (32 * n) (dirent_bytes (name, id)))
    as (d3 & Hrun & Hfi3 & Hfd & Hos); try done; try lia; [by apply dirent_bytes_bytes| |].
  { intros d2 Hw. cbv zeta. rewrite Ds. change DIRENT_SZ with 32. rewrite Z.mul_comm, Z.div_mul by lia.
    mach_simpl. rewrite wrap_small by (mach_unfold; lia). rewrite (Z.mul_comm (n + 1)), (Z.mul_comm n).
    eapply runs_bind; [exact Hrun1|]. destruct Hname as [Hnl ?].
    rewrite DirEntry_new_ok by (change NAME_LENGTH_LIMIT with 27 in *; lia).
    eapply runs_bind; [apply runs_ret|]. eapply runs_bind; [exact Hw|apply runs_ret]. }
  exists root', nb, d3. split_and!; try done.
  - rewrite (grown_file_used d e total G A Hfi 0 root lr (32 * (n + 1)) root' nb d1) by done. by rewrite Ds.
  - pose proof (length_dir_bytes D Dg) as Hld. split.
    + rewrite (gf_type _ _ _ _ _ _ _ _ _ _ Hgf). done.
    + rewrite (gf_size _ _ _ _ _ _ _ _ _ _ Hgf), length_app. cbn [length]. lia.
    + rewrite Hfd, Dd, fmap_app, concat_app. cbn [fmap list_fmap concat]. rewrite app_nil_r.
      rewrite <- splice_append. f_equal; [lia|]. f_equal. lia.
    + apply Forall_app. split; [done|]. by apply list.Forall_cons.
Qed.

Lemma dir_find_snoc name D nm id :
  dir_find name (D ++ [(nm, id)]) =
  match dir_find name D with Some i => Some i | None => if bool_decide (nm = name) then Some id else None end.
Proof. induction D as [|[s i] D IH]; cbn; [done|]. destruct (bool_decide (s = name)); [done|]. exact IH. Qed.

Lemma dir_find_None name D : dir_find name D = None → name ∉ D.*1.
Proof.
  induction D as [|[s j] D IH]; cbn; [by intros _ ?%elem_of_nil|]. case_bool_decide as Hs; [done|].
  intros Hf. rewrite elem_of_cons. intros [->|Hin]; [done|]. by apply IH.
Qed.

Lemma size_rep_dom d e total D F G A root lr :
  rep_of d e total D F G A root lr → base.size (dom G) = S (length D).
Proof.
  intros Hr. rewrite (ro_dom _ _ _ _ _ _ _ _ _ Hr), size_union, size_singleton, size_list_to_set.
  - by rewrite length_fmap.
  - apply Hr.
  - intros x ->%elem_of_singleton Hx%elem_of_list_to_set. by apply (ro_nz _ _ _ _ _ _ _ _ _ Hr).
Qed.

(** The representation after [create]. *)
Lemma rep_added d d2 d3 e total D F G A A' root lr root' lr' ino1 name id :
  rep_of d e total D F G A root lr → G !! id = None → name ∉ D.*1 →
  fs_inv d2 e total (<[id := (ino1, [])]> G) A → (∀ x, da e ≤ x → d2 !! x = d !! x) →
  Layout.size ino1 = 0 → type_ ino1 = File →
  fs_inv d3 e total (<[0 := (root', lr')]> (<[id := (ino1, [])]> G)) A' →
  dir_ok d3 root' lr' (D ++ [(name, id)]) → others_same (<[id := (ino1, [])]> G) 0 d2 d3 →
  rep_of d3 e total (D ++ [(name, id)]) (<[id := []]> F)
    (<[0 := (root', lr')]> (<[id := (ino1, [])]> G)) A' root' lr'.
Proof.
  intros Hr Hid Hnm Hfi2 Harea Hs1 Ht1 Hfi3 Hdir3 Hos.
  pose proof (ro_inv _ _ _ _ _ _ _ _ _ Hr) as Hfi. pose proof (ro_dom _ _ _ _ _ _ _ _ _ Hr) as Hdom.
  assert (id ≠ 0) as Hid0 by (intros ->; by rewrite (ro_root _ _ _ _ _ _ _ _ _ Hr) in Hid).
  assert (id ∉ D.*2) as Hidn.
  { intros Hin. apply not_elem_of_dom in Hid. apply Hid. rewrite Hdom. apply elem_of_union. right.
    by apply elem_of_list_to_set. }
  assert (file_data d3 ino1 [] = []) as He1 by (unfold file_data; by rewrite Hs1).
  split; rewrite ?fmap_app; cbn [fmap list_fmap fst snd]; try done.
  - by rewrite lookup_insert_eq.
  - apply list.NoDup_app. split_and!; [apply Hr| |apply NoDup_singleton].
    intros x Hx ->%list_elem_of_singleton. done.
  - apply list.NoDup_app. split_and!; [apply Hr| |apply NoDup_singleton].
    intros x Hx ->%list_elem_of_singleton. done.
  - rewrite elem_of_app, list_elem_of_singleton. intros [Hin|?]; [|done].
    by apply (ro_nz _ _ _ _ _ _ _ _ _ Hr).
  - rewrite dom_insert_lookup_L, dom_insert_L, Hdom, list_to_set_app_L; [set_solver|].
    rewrite lookup_insert_ne by done. rewrite (ro_root _ _ _ _ _ _ _ _ _ Hr). eauto.
  - intros k [Hk| ->%list_elem_of_singleton]%elem_of_app.
    + assert (k ≠ id) by (by intros ->). assert (k ≠ 0) by (intros ->; by apply (ro_nz _ _ _ _ _ _ _ _ _ Hr)).
      destruct (ro_files _ _ _ _ _ _ _ _ _ Hr k Hk) as (ino & l & HG & Ht & HF).
      exists ino, l. rewrite !lookup_insert_ne by done. split_and!; try done.
      rewrite HF. f_equal. rewrite (Hos k ino l); [|done|by rewrite lookup_insert_ne].
      symmetry. apply (file_data_frame d e total); [by eapply fi_file|].
      intros x Hx. apply Harea. by apply (fo_area _ _ _ _ _ (fi_file _ _ _ _ _ Hfi _ _ _ HG)).
    + exists ino1, []. rewrite lookup_insert_ne, !lookup_insert_eq by done. by rewrite He1.
  - rewrite dom_insert_L, (ro_fdom _ _ _ _ _ _ _ _ _ Hr), list_to_set_app_L. set_solver.
Qed.

(** [create] with a new name: a fresh inode number, an empty file, one more
    entry at the end of the directory. *)
Lemma rep_create d e total D F u name :
  fs_rep d e total D F u → dir_find name D = None → good_name name →
  Z.of_nat (length D) + 1 < 4096 * ib e → 32 * (Z.of_nat (length D) + 1) ≤ MAX_FILE_SIZE →
  let u' := u + (total_blocks (32 * (Z.of_nat (length D) + 1)) - total_blocks (32 * Z.of_nat (length D))) in
  u' ≤ total - da e →
  ∃ id d', runs (create (root_inode e) name) [] d (Some (inode_of e id)) d' ∧ F !! id = None ∧
    fs_rep d' e total (D ++ [(name, id)]) (<[id := []]> F) u'.
Proof.
  intros (G & A & root & lr & Hr & ->) Hnone Hname Hinodes Hmax u' Hcap.
  pose proof (ro_inv _ _ _ _ _ _ _ _ _ Hr) as Hfi. pose proof (fi_geo _ _ _ _ _ Hfi) as Hg.
  rewrite (root_inode_eq e total Hg). pose proof (ro_root _ _ _ _ _ _ _ _ _ Hr) as H0.
  pose proof (ro_dir _ _ _ _ _ _ _ _ _ Hr) as Hdir. pose proof (geo_ib _ _ Hg) as Hib.
  destruct (alloc_inode_spec d e total G A Hfi) as (id & d1 & Hrun1 & Hid & HGid & Hset1 & Hfr1 & _).
  { rewrite (size_rep_dom _ _ _ _ _ _ _ _ _ Hr). lia. }
  destruct (slot_initialize d e total G A Hfi d1 id File) as (d2 & ino1 & Hrun2 & Hok1 & Hu1 & Hs1 & Ht1 & Hst);
    [done..|].
  destruct (fs_add d e total G A Hfi id d1 d2 ino1) as [Hfi2 Harea]; [done..|].
  assert (id ≠ 0) as Hid0 by (intros ->; by rewrite H0 in HGid).
  destruct (append_entry d2 e total (<[id := (ino1, [])]> G) A root lr D name id)
    as (root' & nb & d3 & Hrun3 & Hfi3 & Hu3 & Hdir3 & Hos3); try done.
  { by rewrite lookup_insert_ne. }
  { destruct Hdir as [D1 D2 D3 D4]. split; try done. rewrite <- D3.
    apply (file_data_frame d e total); [by eapply fi_file|]. intros x Hx. apply Harea.
    by apply (fo_area _ _ _ _ _ (fi_file _ _ _ _ _ Hfi _ _ _ H0)). }
  { change (2 ^ 20) with 1048576 in Hib. mach_unfold. lia. }
  exists id, d3. split_and!.
  - unfold create. eapply (runs_bind _ _ _ _ None).
    { eapply read_disk_inode_spec; [done..|]. unfold is_dir. rewrite (do_type _ _ _ _ Hdir).
      eapply runs_bind; [by apply runs_passert|]. rewrite <- Hnone.
      eapply find_inode_id_spec; [by eapply (inode_at_file d e total G A Hfi)| |done].
      apply (fi_file _ _ _ _ _ Hfi _ _ _ H0). }
    cbn [fs inode_of]. eapply runs_bind; [exact Hrun1|].
    rewrite (get_disk_inode_pos_eq e total id Hg Hid). eapply runs_bind; [exact Hrun2|].
    eapply runs_bind; [exact Hrun3|]. eapply runs_bind; [apply runs_sync_all|apply runs_ret].
  - apply not_elem_of_dom. rewrite (ro_fdom _ _ _ _ _ _ _ _ _ Hr). apply not_elem_of_dom in HGid.
    rewrite (ro_dom _ _ _ _ _ _ _ _ _ Hr) in HGid. set_solver.
  - eexists _, _, root', (lr ++ nb). split; [|symmetry; exact Hu3].
    eapply rep_added; try done. by apply dir_find_None.
Qed.
