(* ===== verification/FsFormat.v ===== *)
(** * FsFormat: making and opening a file system

    [EasyFileSystem::create] turns any device of enough blocks into an empty,
    consistent file system, and [open] gives back the same [EasyFileSystem]. *)

From stdpp Require Import base gmap list numbers.
From S2P Require Import Prelude Bytes BlockIO Bitmap Layout InodeIndex InodeData LayoutCodec Efs.
From S2P Require Import Vfs FsState FsOps FsDir Fs.

(** The sizes [create] computes. *)
Definition data_total (total ib : Z) : Z := total - 1 - 1025 * ib.
Definition data_bm (total ib : Z) : Z := (data_total total ib + 4096) / 4097.

Definition layout_of (total ib : Z) : EasyFileSystem :=
  mkEfs (mkBitmap 1 ib) (mkBitmap (1 + 1025 * ib) (data_bm total ib)) (1 + ib)
    (1 + 1025 * ib + data_bm total ib).

Definition super_of (total ib : Z) : SuperBlock :=
  mkSuperBlock EFS_MAGIC total ib (1024 * ib) (data_bm total ib)
    (data_total total ib - data_bm total ib).

(** A device [create] can format: at least one block for the inode bitmap, and
    room for the metadata. *)
Definition formattable (total ib : Z) : Prop :=
  0 < ib ≤ 2 ^ 20 ∧ 1 + 1025 * ib ≤ total < 2 ^ 32 - 4096.

Lemma data_bm_bounds total ib :
  formattable total ib →
  0 ≤ data_bm total ib ≤ data_total total ib ∧ data_total total ib ≤ 4097 * data_bm total ib.
Proof.
  intros [Hib Ht]. unfold data_bm.
  assert (0 ≤ data_total total ib) by (unfold data_total; lia).
  pose proof (Z.div_mod (data_total total ib + 4096) 4097 ltac:(lia)).
  pose proof (Z.mod_pos_bound (data_total total ib + 4096) 4097 ltac:(lia)).
  assert (0 ≤ (data_total total ib + 4096) / 4097) by (apply Z.div_pos; lia). lia.
Qed.

Lemma layout_geometry total ib : formattable total ib → geometry (layout_of total ib) total.
Proof.
  intros Hf. destruct (data_bm_bounds total ib Hf) as [H1 H2]. destruct Hf as [Hib Ht].
  unfold data_total in *. split; cbn; lia.
Qed.

(** ** Zeroing the device *)
Lemma zero_all_spec n : ∀ i d,
  0 ≤ i → i + Z.of_nat n ≤ 2 ^ 32 → (∀ x, i ≤ x < i + Z.of_nat n → block_ok d x) →
  ∃ d', runs (pfold (seqZ i (Z.of_nat n)) (λ i _, zero_block i) ()) [] d () d' ∧
    ∀ x, d' !! x = if decide (i ≤ x < i + Z.of_nat n) then Some zeros else d !! x.
Proof.
  induction n as [|n IH]; intros i d Hi Hn Hb.
  { exists d. split; [done|]. intros x. rewrite decide_False by lia. done. }
  destruct (Hb i) as (b & Hbi & Hl & _); [lia|].
  destruct (IH (i + 1) (<[i := zeros]> d)) as (d' & Hrun & Hd'); [lia|lia| |].
  { intros x Hx. apply block_ok_insert; [done|by apply Forall_replicate|apply Hb; lia]. }
  exists d'. rewrite seqZ_cons by lia. cbn [pfold].
  replace (Z.pred (Z.of_nat (S n))) with (Z.of_nat n) by lia. split.
  - eapply runs_bind; [|exact Hrun]. eapply zero_block_spec; [|done..].
    split; [unfold ok_id; mach_unfold; lia|]. split; [apply not_elem_of_nil|done].
  - intros x. rewrite Hd'. destruct (decide (x = i)) as [->|Hne].
    + rewrite decide_False, lookup_insert_eq by lia. by rewrite decide_True by lia.
    + rewrite lookup_insert_ne by done. destruct (decide (i + 1 ≤ x < i + 1 + Z.of_nat n)).
      * by rewrite decide_True by lia.
      * by rewrite decide_False by lia.
Qed.

Lemma arr_get_zero_block w i : arr_get w zeros i = 0.
Proof. apply arr_get_zeros. Qed.

Lemma length_zeros : length zeros = 512%nat.
Proof. done. Qed.

Lemma slice_zeros off n : (off + n ≤ 512)%nat → slice off n zeros = replicate n 0.
Proof.
  intros H. unfold slice, zeros. rewrite drop_replicate, take_replicate. f_equal.
  change (Z.to_nat BLOCK_SZ) with 512%nat. lia.
Qed.

Lemma bm_set_zeros d bm base n :
  0 ≤ start_block_id bm → 0 ≤ blocks bm → start_block_id bm + blocks bm < 2 ^ 32 →
  n ≤ blocks bm * 4096 → (∀ x, bm_region bm x → d !! x = Some zeros) → bm_set d bm base n ∅.
Proof.
  intros H1 H2 H3 Hn Hz. split.
  - split; [done..|]. intros i Hi. exists zeros. rewrite Hz by (unfold bm_region; lia).
    split_and!; [done..|]. by apply Forall_replicate.
  - intros k Hk. destruct (bit_at_surj k ltac:(lia)) as (bp & w & t & -> & Hbp & Hw & Ht).
    rewrite bm_bit_at by done. rewrite Hz by (unfold bm_region, bit_at in *; lia).
    rewrite arr_get_zero_block, Z.bits_0. symmetry. by apply bool_decide_eq_false, not_elem_of_empty.
  - by intros x ?%elem_of_empty.
Qed.

(** A zeroed disk is consistent, and has no files. *)
Lemma fs_inv_zeros d e total :
  geometry e total → (∀ x, 0 < x < total → d !! x = Some zeros) →
  fs_inv d e total ∅ ∅.
Proof.
  intros Hg Hz. pose proof (geo_ib _ _ Hg). pose proof (geo_ibs _ _ Hg). pose proof (geo_ia _ _ Hg).
  pose proof (geo_dbs _ _ Hg). pose proof (geo_da _ _ Hg). pose proof (geo_dbb _ _ Hg).
  pose proof (geo_total _ _ Hg). pose proof (geo_cover _ _ Hg).
  split; try done; try (intros; by rewrite lookup_empty in *).
  - intros x Hx. exists zeros. rewrite Hz by lia.
    split_and!; [done..|]. by apply Forall_replicate.
  - rewrite dom_empty_L. apply bm_set_zeros; try lia. intros x Hx. unfold bm_region in Hx. apply Hz. lia.
  - apply bm_set_zeros; try lia. intros x Hx. unfold bm_region in Hx. apply Hz. lia.
  - intros k Hk. pose proof (slot_region e total k Hg Hk). unfold slot. rewrite Hz by lia. simpl.
    pose proof (Z.mod_pos_bound k 4 ltac:(lia)). rewrite slice_zeros by lia. eauto.
  - intros x. split; [by intros ?%elem_of_empty|]. intros (k & ino & l & Hk & _).
    by rewrite lookup_empty in Hk.
  - intros x Hx _. apply Hz. lia.
Qed.

(** ** [create] and [open] *)
Lemma create_sizes total ib :
  formattable total ib →
  wrap 32 ((Bitmap_maximum (Bitmap_new 1 ib) *u DISK_INODE_SIZE +u BLOCK_SZ -u 1) / BLOCK_SZ) = 1024 * ib ∧
  ib +u32 1024 * ib = 1025 * ib ∧ total -u32 1 -u32 1025 * ib = data_total total ib ∧
  (data_total total ib +u32 4096) / 4097 = data_bm total ib ∧
  data_total total ib -u32 data_bm total ib = data_total total ib - data_bm total ib ∧
  1 +u32 ib +u32 1024 * ib = 1 + 1025 * ib ∧ 1 +u32 ib = 1 + ib ∧
  1 +u32 1025 * ib +u32 data_bm total ib = 1 + 1025 * ib + data_bm total ib.
Proof.
  intros Hf. destruct (data_bm_bounds total ib Hf) as [H1 H2]. destruct Hf as [Hib Ht].
  change (2 ^ 20) with 1048576 in *. rewrite pow2_32 in *. unfold Bitmap_maximum, Bitmap_new.
  cbn [blocks]. change BLOCK_BITS with 4096. change DISK_INODE_SIZE with 128. change BLOCK_SZ with 512.
  unfold data_total in *. split_and!; try (mach_simpl; lia).
  - mach_simpl. replace ((ib * 4096 * 128 + 512 - 1) / 512) with (1024 * ib).
    + apply wrap_small. mach_unfold. lia.
    + apply Z.div_unique_pos with (r := 511); lia.
  - unfold data_bm, data_total. f_equal. mach_simpl. lia.
Qed.

(** After [create], the device holds an empty file system with the layout
    computed from its size. *)
Lemma efs_create_spec d total ib :
  formattable total ib → (∀ x, 0 ≤ x < total → block_ok d x) →
  ∃ d', runs (efs_create total ib) [] d (layout_of total ib) d' ∧
    fs_rep d' (layout_of total ib) total [] ∅ 0 ∧
    slice 0 (Z.to_nat SUPER_BLOCK_SIZE) <$> d' !! 0 = Some (SuperBlock_encode (super_of total ib)).
Proof.
  intros Hf Hb. destruct (create_sizes total ib Hf) as (E1 & E2 & E3 & E4 & E5 & E6 & E7 & E8).
  pose proof (layout_geometry total ib Hf) as Hg. set (e := layout_of total ib) in *.
  destruct Hf as [Hib Ht]. change (2 ^ 20) with 1048576 in *.
  destruct (zero_all_spec (Z.to_nat total) 0 d) as (d1 & Hrun1 & Hd1); [lia|lia|intros x Hx; apply Hb; lia|].
  rewrite Z2Nat.id in * by lia.
  set (sb := SuperBlock_encode (super_of total ib)).
  assert (length sb = 24%nat) as Hsb by apply length_SuperBlock_encode.
  set (d2 := <[0 := splice 0 sb zeros]> d1).
  assert (fs_inv d2 e total ∅ ∅) as Hfi2.
  { apply fs_inv_zeros; [done|]. intros x Hx. subst d2. rewrite lookup_insert_ne, Hd1 by lia.
    by rewrite decide_True by lia. }
  destruct (alloc_inode_spec d2 e total ∅ ∅ Hfi2) as (id & d3 & Hrun3 & Hid & _ & Hset3 & Hfr3 & Hlow).
  { rewrite dom_empty_L, size_empty. pose proof (geo_ib _ _ Hg). lia. }
  assert (id = 0) as ->.
  { destruct (decide (id = 0)) as [|Hne]; [done|]. destruct (Hlow 0) as [? Hx]; [lia|].
    by rewrite lookup_empty in Hx. }
  destruct (slot_initialize d2 e total ∅ ∅ Hfi2 d3 0 Directory)
    as (d4 & ino1 & Hrun4 & Hok1 & Hu1 & Hs1 & Ht1 & Hst); [done..|].
  destruct (fs_add d2 e total ∅ ∅ Hfi2 0 d3 d4 ino1) as [Hfi4 _]; try done.
  exists d4. split_and!.
  - unfold efs_create. rewrite E1, E2, E3, E4, E5, E6, E7, E8. cbv zeta.
    eapply runs_bind; [exact Hrun1|]. eapply (runs_bind _ _ _ _ () d2).
    { eapply runs_modify_pure with (b := zeros); [|by rewrite Hd1, decide_True by lia|done|done|].
      - split; [unfold ok_id; mach_unfold; lia|]. split; [apply not_elem_of_nil|done].
      - fold sb. rewrite Hsb, length_zeros. simpl. lia. }
    eapply runs_bind; [exact Hrun3|]. eapply runs_bind; [by apply runs_passert|].
    change (mkEfs _ _ _ _) with e. rewrite (get_disk_inode_pos_eq e total 0 Hg Hid).
    eapply runs_bind; [exact Hrun4|]. eapply runs_bind; [apply runs_sync_all|apply runs_ret].
  - exists (<[0 := (ino1, [])]> ∅), ∅, ino1, []. split; [|by rewrite size_empty].
    split; [done| | |constructor|constructor|apply not_elem_of_nil| |by intros k ?%elem_of_nil|done].
    + by rewrite lookup_insert_eq.
    + split; [done..| |constructor]. unfold file_data. by rewrite Hs1.
    + rewrite dom_insert_L, dom_empty_L. set_solver.
  - pose proof (geo_ia _ _ Hg). pose proof (geo_ib _ _ Hg). pose proof (geo_ibs _ _ Hg).
    rewrite (ss_frame _ _ _ _ _ Hst) by (change (0 / 4) with 0; lia).
    rewrite Hfr3 by (unfold bm_region; lia).
    subst d2. by rewrite lookup_insert_eq.
Qed.

(** [open] reads the layout back from the super block. *)
Lemma efs_open_spec d total ib b :
  formattable total ib → d !! 0 = Some b → length b = Z.to_nat BLOCK_SZ →
  slice 0 (Z.to_nat SUPER_BLOCK_SIZE) b = SuperBlock_encode (super_of total ib) →
  runs efs_open [] d (layout_of total ib) d.
Proof.
  intros Hf Hb Hl Hs. destruct (create_sizes total ib Hf) as (E1 & E2 & E3 & E4 & E5 & E6 & E7 & E8).
  destruct (data_bm_bounds total ib Hf) as [H1 H2]. destruct Hf as [Hib Ht].
  change (2 ^ 20) with 1048576 in *.
  assert (SuperBlock_decode (SuperBlock_encode (super_of total ib)) = super_of total ib) as Hdec.
  { rewrite <- (app_nil_r (SuperBlock_encode _)). apply SuperBlock_decode_encode.
    unfold data_total in *. split_and!; cbn; mach_unfold; unfold data_total; try lia; done. }
  eapply runs_read; [|exact Hb|done|].
  { split; [unfold ok_id; mach_unfold; lia|]. split; [apply not_elem_of_nil|done]. }
  change (Z.to_nat 0) with O. rewrite Hs, Hdec. eapply runs_bind; [by apply runs_passert|]. cbv zeta.
  cbn [super_of inode_bitmap_blocks inode_area_blocks data_bitmap_blocks].
  rewrite E2, E7, E8. assert (1 +u32 1025 * ib = 1 + 1025 * ib) as -> by mach. apply runs_ret.
Qed.
