(* ===== verification/FsPack.v ===== *)
(** * FsPack: the image builder (easy-fs-fuse/src/main.rs)

    [easy_fs_pack] formats the image and stores the user programs in it.  Run on
    any device of 32768 blocks, with programs that fit, it leaves an image in
    which every program is found under its name with its bytes, and prints the
    names. *)

From stdpp Require Import base gmap list numbers.
From S2P Require Import Prelude Bytes BlockIO Bitmap Layout InodeIndex InodeData LayoutCodec Efs.
From S2P Require Import Vfs FsState FsOps FsDir Fs FsFormat.

(** The data blocks a list of programs takes, and the directory entries of
    [n] programs. *)
Definition app_blocks (apps : list (list Z * list Z)) : Z :=
  foldr (λ a z, blocks_of a.2 + z) 0 apps.
Definition dir_blocks (n : Z) : Z := total_blocks (32 * n).

(** A program the packer can store. *)
Definition good_app (a : list Z * list Z) : Prop :=
  good_name a.1 ∧ Forall is_byte a.2 ∧ 0 < Z.of_nat (length a.2) ≤ MAX_FILE_SIZE.

(** The inode numbers [ids] hold the programs [apps]. *)
Definition stored (F : gmap Z (list Z)) (apps : list (list Z * list Z)) (ids : list Z) : Prop :=
  Forall2 (λ a id, F !! id = Some a.2) apps ids.

Lemma blocks_of_nonneg (c : list Z) :
  Z.of_nat (length c) ≤ MAX_FILE_SIZE → 0 ≤ blocks_of c.
Proof.
  intros H. rewrite total_blocks_count by lia.
  apply block_count_bound. by apply _data_blocks_bounds; lia.
Qed.

Lemma app_blocks_nonneg apps : Forall good_app apps → 0 ≤ app_blocks apps.
Proof.
  induction 1 as [|a apps (_ & _ & Ha) _ IH]; cbn; [done|].
  pose proof (blocks_of_nonneg a.2 ltac:(lia)). unfold app_blocks in IH. lia.
Qed.

Lemma dir_blocks_mono n m : 0 ≤ n ≤ m → 32 * m ≤ MAX_FILE_SIZE → dir_blocks n ≤ dir_blocks m.
Proof.
  intros H Hm. unfold dir_blocks. rewrite !total_blocks_count by lia. apply block_count_mono.
  split; [apply _data_blocks_bounds; lia|]. apply _data_blocks_mono; lia.
Qed.

Lemma write_data_empty c : write_data [] 0 c = c.
Proof.
  unfold write_data. change (Z.to_nat 0) with 0%nat. rewrite splice_0. unfold pad.
  rewrite drop_ge; [apply app_nil_r|]. len.
Qed.

Lemma blocks_of_nil : blocks_of (@nil Z) = 0.
Proof. done. Qed.

Lemma pack_apps_spec e total apps : ∀ d D F u,
  fs_rep d e total D F u → Forall good_app apps → NoDup (D.*1 ++ apps.*1) →
  Z.of_nat (length D + length apps) < 4096 * ib e →
  32 * Z.of_nat (length D + length apps) ≤ MAX_FILE_SIZE →
  u + app_blocks apps + (dir_blocks (Z.of_nat (length D + length apps)) - dir_blocks (Z.of_nat (length D)))
    ≤ total - da e →
  ∃ d' ids F' u', runs (pack_apps (root_inode e) apps) [] d () d' ∧
    fs_rep d' e total (D ++ zip apps.*1 ids) F' u' ∧ length ids = length apps ∧
    stored F' apps ids ∧ (∀ k c, F !! k = Some c → F' !! k = Some c).
Proof.
  induction apps as [|[name data] apps IH]; intros d D F u Hrep Hgood Hnd Hinodes Hmax Hcap.
  { exists d, [], F, u. rewrite app_nil_r. split_and!; try done. constructor. }
  apply list.Forall_cons in Hgood as [(Hname & Hbytes & Hlen) Hgood]. cbn [fst snd] in *.
  cbn [fmap list_fmap fst] in Hnd. rewrite length_cons in *. cbn [app_blocks foldr snd] in Hcap.
  fold (app_blocks apps) in Hcap. pose proof (app_blocks_nonneg apps Hgood) as Happs.
  pose proof (blocks_of_nonneg data ltac:(lia)) as Hdata.
  assert (dir_find name D = None) as Hnone.
  { destruct (dir_find name D) as [id|] eqn:Hf; [|done]. exfalso.
    apply list.NoDup_app in Hnd as (_ & Hd & _). apply (Hd name); [|elt].
    clear -Hf. induction D as [|[s j] D IH]; [done|]. cbn in *. case_bool_decide as Hs; [subst; elt|].
    apply elem_of_cons. auto. }
  assert (dir_blocks (Z.of_nat (length D) + 1) ≤ dir_blocks (Z.of_nat (length D + S (length apps)))) as Hdm
    by (apply dir_blocks_mono; lia).
  assert (dir_blocks (Z.of_nat (length D)) ≤ dir_blocks (Z.of_nat (length D) + 1)) as Hdm0
    by (apply dir_blocks_mono; lia).
  unfold dir_blocks in *.
  destruct (rep_create d e total D F u name Hrep Hnone Hname) as (id & d1 & Hrun1 & HFid & Hrep1);
    [lia|lia|lia|].
  destruct (rep_write d1 e total _ _ _ Hrep1 id [] 0 data) as (d2 & Hrun2 & Hrep2);
    rewrite ?write_data_empty in *; rewrite ?blocks_of_nil in *; try done; try lia.
  { by rewrite lookup_insert_eq. }
  rewrite insert_insert_eq in Hrep2.
  destruct (IH d2 (D ++ [(name, id)]) (<[id := data]> F) _ Hrep2) as (d' & ids & F' & u' & Hrun' & Hrep' & Hl' & Hst' & Hkeep);
    rewrite ?length_app; cbn [length]; try done.
  { rewrite fmap_app, <- app_assoc. done. }
  { by replace (length D + 1 + length apps)%nat with (length D + S (length apps))%nat by lia. }
  { by replace (length D + 1 + length apps)%nat with (length D + S (length apps))%nat by lia. }
  { replace (length D + 1 + length apps)%nat with (length D + S (length apps))%nat by lia.
    replace (Z.of_nat (length D + 1)) with (Z.of_nat (length D) + 1) by lia. unfold dir_blocks. lia. }
  exists d', (id :: ids), F', u'. split_and!.
  - unfold pack_apps in *. cbn [pfold]. eapply runs_bind; [|exact Hrun'].
    eapply runs_bind; [exact Hrun1|]. eapply runs_bind; [apply runs_ret|].
    eapply runs_bind; [exact Hrun2|apply runs_ret].
  - rewrite <- app_assoc in Hrep'. exact Hrep'.
  - cbn [length]. lia.
  - constructor; [|done]. apply Hkeep. by rewrite lookup_insert_eq.
  - intros k c Hk. apply Hkeep. rewrite lookup_insert_ne; [done|]. intros <-. congruence.
Qed.
