(* ===== verification/FsImage.v ===== *)
(** * FsImage: what reaches the device, and the image the kernel boots from

    Three facts that turn the contract of [Fs] into statements about a device.
    A run touches only the disk it is given ([run_frame]), and easy-fs is given
    the blocks 1 to [total - 1], so the super block stays.  A program that
    stores nothing leaves the device alone when the cache is clean
    ([exec_readonly]).  So the image file is complete when [easy_fs_pack]
    returns, and a kernel that opens it with an empty cache reads the
    programs. *)

From stdpp Require Import base gmap list numbers.
From S2P Require Import Prelude Bytes BlockIO BlockCache BlockFile Bitmap Layout InodeIndex.
From S2P Require Import InodeData LayoutCodec Efs Vfs FsState FsOps FsDir Fs FsFormat FsPack.

(** ** Frames *)
Lemma run_frame {A} (p : prog A) : ∀ h d a h' d' (f : gmap Z (list Z)),
  run p h d = Ok (a, h', d') → d ##ₘ f →
  run p h (d ∪ f) = Ok (a, h', d' ∪ f) ∧ d' ##ₘ f.
Proof.
  induction p as [a0|e|id k IH|id off v k IH|id k IH|k IH]; intros h d a h' d' f; simpl; intros H Hf; try done.
  - by simplify_eq.
  - repeat case_bool_decide; try done. destruct (_ <=? _); [done|].
    destruct (d !! id) as [b|] eqn:Hb; [|done]. rewrite (lookup_union_Some_l _ _ _ _ Hb). eauto.
  - destruct (d !! id) as [b|] eqn:Hb; [|done]. rewrite (lookup_union_Some_l _ _ _ _ Hb).
    destruct (_ && _); [|done]. rewrite insert_union_l. apply IH; [done|].
    by apply map_disjoint_insert_l_2; [eapply map_disjoint_Some_l|].
  - case_bool_decide; [eauto|done].
  - destruct h; [eauto|done].
Qed.

(** Blocks keep their length, and none appears or goes away. *)
Lemma run_lengths {A} (p : prog A) : ∀ h d a h' d',
  run p h d = Ok (a, h', d') → ∀ x, length <$> d' !! x = length <$> d !! x.
Proof.
  induction p as [a0|e|id k IH|id off v k IH|id k IH|k IH]; intros h d a h' d'; simpl; intros H x; try done.
  - by simplify_eq.
  - repeat case_bool_decide; try done. destruct (_ <=? _); [done|].
    destruct (d !! id); [|done]. by eapply IH.
  - destruct (d !! id) as [b|] eqn:Hb; [|done]. unfold store_fits in H.
    repeat case_bool_decide; try done. rewrite (IH _ _ _ _ _ H).
    destruct (decide (id = x)) as [<-|]; [|by rewrite lookup_insert_ne].
    rewrite lookup_insert_eq, Hb. cbn. f_equal. by apply length_splice.
  - case_bool_decide; [by eapply IH|done].
  - destruct h; [by eapply IH|done].
Qed.

(** The consistency of a file system is about the blocks 1 to [total - 1]. *)
Lemma fs_inv_local d d' e total G A :
  fs_inv d e total G A → (∀ x, 0 < x < total → d' !! x = d !! x) → fs_inv d' e total G A.
Proof.
  intros Hfi Hd. pose proof (fi_geo _ _ _ _ _ Hfi) as Hg. destruct Hg as [Hib Hibs Hia Hdbs Hdbb Hda Ht Hcov].
  pose proof (fi_geo _ _ _ _ _ Hfi) as Hg.
  assert (∀ k, 0 ≤ k < 4096 * ib e → slot d' e k = slot d e k) as Hsl.
  { intros k Hk. unfold slot. f_equal. pose proof (slot_region e total k Hg Hk). apply Hd. lia. }
  destruct Hfi as [_ Hblk Hi Hb Hs1 Hs2 Hfile Hown Hdisj Hz]. split; try done.
  - intros x Hx. destruct (Hblk x Hx) as (b & Hxb & ?). exists b. by rewrite Hd.
  - eapply bm_set_frame; [| |exact Hi]; [lia|]. intros x Hx. unfold bm_region in Hx. apply Hd. lia.
  - eapply bm_set_frame; [| |exact Hb]; [lia|]. intros x Hx. unfold bm_region in Hx. apply Hd. lia.
  - intros k Hk. rewrite Hsl by done. auto.
  - intros k ino l Hk. rewrite Hsl; [eauto|].
    apply (bs_dom _ _ _ _ _ Hi). by eapply elem_of_dom_2.
  - intros k ino l Hk. eapply file_ok_frame; [|eauto]. intros x Hx.
    pose proof (fo_area _ _ _ _ _ (Hfile k ino l Hk) x Hx). apply Hd. lia.
  - intros x Hx HxA. rewrite Hd by lia. auto.
Qed.

Lemma fs_rep_local d d' e total D F u :
  fs_rep d e total D F u → (∀ x, 0 < x < total → d' !! x = d !! x) → fs_rep d' e total D F u.
Proof.
  intros (G & A & root & lr & Hro & ->) Hd. exists G, A, root, lr. split; [|done].
  pose proof (geo_da _ _ (fi_geo _ _ _ _ _ (ro_inv _ _ _ _ _ _ _ _ _ Hro))) as Hda.
  pose proof (geo_ib _ _ (fi_geo _ _ _ _ _ (ro_inv _ _ _ _ _ _ _ _ _ Hro))) as Hib.
  pose proof (geo_dbb _ _ (fi_geo _ _ _ _ _ (ro_inv _ _ _ _ _ _ _ _ _ Hro))) as Hdbb.
  assert (∀ k ino l, G !! k = Some (ino, l) → file_data d' ino l = file_data d ino l) as Hfd.
  { intros k ino l Hk. pose proof (fi_file _ _ _ _ _ (ro_inv _ _ _ _ _ _ _ _ _ Hro) _ _ _ Hk) as Hf.
    unfold file_data. f_equal. apply contents_frame. intros x Hx.
    apply (data_ids_subset d ino _ l x (fo_ok _ _ _ _ _ Hf) (fo_list _ _ _ _ _ Hf)) in Hx.
    apply (fo_area _ _ _ _ _ Hf) in Hx. apply Hd. lia. }
  destruct Hro as [Hinv Hroot Hdir Hn Hi Hnz Hdom Hfiles Hfdom]. split; try done.
  - by eapply fs_inv_local.
  - destruct Hdir as [H1 H2 H3 H4]. split; try done. by rewrite (Hfd 0).
  - intros k Hk. destruct (Hfiles k Hk) as (ino & l & Hg & Ht & HF). exists ino, l.
    split_and!; [done..|]. by rewrite (Hfd k).
Qed.

(** ** The packed disk, super block included *)
Lemma pack_apps_super e total apps d D F u b :
  d !! 0 = Some b →
  fs_rep d e total D F u → Forall good_app apps → NoDup (D.*1 ++ apps.*1) →
  Z.of_nat (length D + length apps) < 4096 * ib e →
  32 * Z.of_nat (length D + length apps) ≤ MAX_FILE_SIZE →
  u + app_blocks apps + (dir_blocks (Z.of_nat (length D + length apps)) - dir_blocks (Z.of_nat (length D)))
    ≤ total - da e →
  ∃ d' ids F' u', runs (pack_apps (root_inode e) apps) [] d () d' ∧ d' !! 0 = Some b ∧
    fs_rep d' e total (D ++ zip apps.*1 ids) F' u' ∧ length ids = length apps ∧ stored F' apps ids.
Proof.
  intros Hb Hrep Hg Hnd H1 H2 H3.
  assert (fs_rep (delete 0 d) e total D F u) as Hrep0.
  { eapply fs_rep_local; [exact Hrep|]. intros x Hx. apply lookup_delete_ne. lia. }
  destruct (pack_apps_spec e total apps _ D F u Hrep0) as (d' & ids & F' & u' & Hrun & Hrep' & Hl & Hst & _); try done.
  assert (delete 0 d ##ₘ {[0 := b]}) as Hdisj
    by (apply map_disjoint_singleton_r_2, lookup_delete_eq).
  destruct (run_frame _ _ _ _ _ _ {[0 := b]} Hrun Hdisj) as [Hrun' Hd'].
  apply map_disjoint_singleton_r in Hd'.
  exists (d' ∪ {[0 := b]}), ids, F', u'. split_and!; try done.
  - unfold runs. rewrite <- Hrun'. f_equal. rewrite map_union_comm by done.
    rewrite <- insert_union_singleton_l. by rewrite insert_delete_id.
  - rewrite lookup_union_r by done. apply lookup_singleton_eq.
  - eapply fs_rep_local; [exact Hrep'|]. intros x Hx. rewrite lookup_union_l; [done|].
    rewrite lookup_singleton_ne by lia. done.
Qed.

(** Programs the image has room for. *)
Record packable (total ib : Z) (apps : list (list Z * list Z)) : Prop := {
  pk_apps : Forall good_app apps;
  pk_names : NoDup apps.*1;
  pk_inodes : Z.of_nat (length apps) < 4096 * ib;
  pk_dir : 32 * Z.of_nat (length apps) ≤ MAX_FILE_SIZE;
  pk_space : app_blocks apps + dir_blocks (Z.of_nat (length apps)) ≤ data_total total ib - data_bm total ib;
}.

(** A disk with the file system [layout_of total ib], its super block, and the
    files [apps]. *)
Definition image (d : gmap Z (list Z)) (total ib : Z) (apps : list (list Z * list Z)) : Prop :=
  (∃ b, d !! 0 = Some b ∧ length b = Z.to_nat BLOCK_SZ ∧
     slice 0 (Z.to_nat SUPER_BLOCK_SIZE) b = SuperBlock_encode (super_of total ib)) ∧
  ∃ ids F u, fs_rep d (layout_of total ib) total (zip apps.*1 ids) F u ∧
    length ids = length apps ∧ stored F apps ids.

Lemma fst_zip_names (apps : list (list Z * list Z)) (ids : list Z) :
  length ids = length apps → (zip apps.*1 ids).*1 = apps.*1.
Proof. intros H. apply fst_zip. rewrite length_fmap. lia. Qed.

Lemma format_pack_spec d total ib apps :
  formattable total ib → (∀ x, 0 ≤ x < total → block_ok d x) → packable total ib apps →
  ∃ d', runs (efs_create total ib ≫= λ efs, pack_apps (root_inode efs) apps ≫= λ _, Ret efs) [] d
          (layout_of total ib) d' ∧ image d' total ib apps.
Proof.
  intros Hf Hblk [H1 H2 H3 H4 H5].
  destruct (efs_create_spec d total ib Hf Hblk) as (d1 & Hrun1 & Hrep1 & Hsb).
  destruct (d1 !! 0) as [b|] eqn:Hb; [|done]. cbn in Hsb. injection Hsb as Hsb.
  assert (length b = Z.to_nat BLOCK_SZ) as Hlen.
  { pose proof (run_lengths _ _ _ _ _ _ Hrun1) as Hl. destruct Hf as [? ?].
    destruct (Hblk 0 ltac:(lia)) as (b0 & Hb0 & Hl0 & _).
    specialize (Hl 0). rewrite Hb0, Hb in Hl. cbn in Hl. injection Hl as Hl. lia. }
  destruct (pack_apps_super (layout_of total ib) total apps d1 [] ∅ 0 b) as (d' & ids & F & u & Hrun & Hb' & Hrep & Hl & Hst);
    try done.
  { unfold dir_blocks. cbn [length Nat.add]. change (total_blocks (32 * Z.of_nat 0)) with 0.
    unfold dir_blocks, data_total in H5. cbn [layout_of data_area_start_block]. lia. }
  exists d'. split.
  - eapply runs_bind; [exact Hrun1|]. eapply runs_bind; [exact Hrun|apply runs_ret].
  - split; [eauto|]. exists ids, F, u. done.
Qed.

Lemma pack_spec d apps :
  (∀ x, 0 ≤ x < 32768 → block_ok d x) → packable 32768 1 apps →
  ∃ d', runs (easy_fs_pack apps) [] d apps.*1 d' ∧ image d' 32768 1 apps.
Proof.
  intros Hblk Hpk. destruct (format_pack_spec d 32768 1 apps) as (d' & Hrun & Him); [done..|].
  exists d'. split; [|done]. unfold easy_fs_pack. change (16 * 2048) with 32768.
  destruct Him as (_ & ids & F & u & Hrep & Hl & _).
  pose proof (rep_ls _ _ _ _ _ _ Hrep) as Hls. rewrite fst_zip_names in Hls by done.
  revert Hrun. unfold runs. rewrite !run_bind.
  destruct (run (efs_create 32768 1) [] d) as [[[e h1] d1]|]; [|done]. rewrite !run_bind.
  destruct (run (pack_apps (root_inode e) apps) h1 d1) as [[[u1 h2] d2]|]; [|done]. cbn [run].
  intros [= -> -> ->]. apply Hls.
Qed.

(** What a kernel reads from the image. *)
Definition load_app (name : list Z) (buf : list Z) : prog (Z * list Z) :=
  efs_open ≫= λ efs,
  find (root_inode efs) name ≫= λ o, punwrap o ≫= λ inode,
  Inode_read_at inode 0 buf.

Lemma dir_find_zip names : ∀ ids i name id,
  NoDup names → names !! i = Some name → ids !! i = Some id → dir_find name (zip names ids) = Some id.
Proof.
  induction names as [|n names IH]; intros ids i name id Hnd Hn Hi; [done|].
  apply list.NoDup_cons in Hnd as [Hnin Hnd]. destruct ids as [|j ids]; [done|]. cbn [zip dir_find zip_with].
  destruct i as [|i]; cbn in Hn, Hi.
  - simplify_eq. by rewrite bool_decide_eq_true_2.
  - rewrite bool_decide_eq_false_2; [by eapply IH|]. intros ->. by eapply Hnin, list_elem_of_lookup_2.
Qed.

Lemma load_app_spec d total ib apps name data :
  formattable total ib → image d total ib apps → Forall good_app apps → NoDup apps.*1 → (name, data) ∈ apps →
  runs (load_app name (replicate (length data) 0)) [] d (Z.of_nat (length data), data) d.
Proof.
  intros Hf ((b & Hb & Hlb & Hsb) & ids & F & u & Hrep & Hl & Hst) Hgood Hnd Hin.
  apply list_elem_of_lookup in Hin as (i & Hi).
  destruct (Forall2_lookup_l _ _ _ _ _ Hst Hi) as (id & Hid & HF). cbn in HF.
  destruct (list.Forall_lookup_1 _ _ _ _ Hgood Hi) as (_ & _ & Hlen). cbn in Hlen.
  unfold load_app. eapply runs_bind; [by eapply efs_open_spec|].
  eapply runs_bind; [by eapply rep_find|].
  rewrite (dir_find_zip _ ids i name id) by (done || by rewrite list_lookup_fmap, Hi).
  eapply runs_bind; [apply runs_ret|].
  assert (MAX_FILE_SIZE < 2 ^ 62) as Hmax by done.
  pose proof (rep_read _ _ _ _ _ _ Hrep id data 0 (replicate (length data) 0) HF) as Hr.
  rewrite length_replicate in Hr.
  replace (Z.max 0 (Z.min (0 + Z.of_nat (length data)) (Z.of_nat (length data)) - 0))
    with (Z.of_nat (length data)) in Hr by lia. cbv zeta in Hr.
  change (Z.to_nat 0) with 0%nat in Hr.
  rewrite Nat2Z.id, (splice_whole (slice 0 (length data) data)) in Hr.
  2: { rewrite length_slice, length_replicate. lia. }
  unfold slice in Hr. rewrite drop_0, firstn_all in Hr. apply Hr; lia.
Qed.

(** ** Programs that store nothing *)
Fixpoint readonly {A} (p : prog A) : Prop :=
  match p with
  | Ret _ | Halt _ => True
  | Lock _ k => ∀ b, readonly (k b)
  | Store _ _ _ _ => False
  | Unlock _ k => readonly k
  | SyncAll _ => False
  end.

Lemma readonly_bind {A B} (p : prog A) (f : A → prog B) :
  readonly p → (∀ a, readonly (f a)) → readonly (p ≫= f).
Proof. unfold mbind, prog_bind. induction p; simpl; intros; eauto; done. Qed.

Create HintDb ro.
#[export] Hint Resolve readonly_bind : ro.

Lemma readonly_read {A} id off sz (f : list Z → prog A) : (∀ b, readonly (f b)) → readonly (read id off sz f).
Proof.
  intros Hf b. simpl. destruct (in_block off sz); [|done]. apply readonly_bind; [done|]. by intros a.
Qed.
Lemma readonly_plift {A} (r : res A) : readonly (plift r).
Proof. by destruct r. Qed.
Lemma readonly_punwrap {A} (o : option A) : readonly (punwrap o).
Proof. by destruct o. Qed.
Lemma readonly_passert b : readonly (passert b).
Proof. by destruct b. Qed.
Lemma readonly_with_inode {A} (f : DiskInode → prog A) b : (∀ i, readonly (f i)) → readonly (with_inode f b).
Proof. intros Hf. unfold with_inode. by destruct (DiskInode_decode b). Qed.
Lemma readonly_pfold {A S} (l : list A) (f : A → S → prog S) :
  (∀ x s, readonly (f x s)) → ∀ s, readonly (pfold l f s).
Proof. intros Hf. induction l as [|x l IH]; intros s; simpl; auto with ro. Qed.
#[export] Hint Resolve readonly_read readonly_plift readonly_punwrap readonly_passert readonly_with_inode
  readonly_pfold : ro.

Ltac ro := repeat first
  [ progress intros | apply readonly_bind | apply readonly_read | apply readonly_with_inode | apply readonly_pfold
  | progress case_match | solve [auto with ro] | exact I ].

Lemma readonly_get_block_id ino i : readonly (get_block_id ino i).
Proof. unfold get_block_id. ro. Qed.
#[export] Hint Resolve readonly_get_block_id : ro.

Lemma readonly_read_loop fuel ino : ∀ start end_ sb rs buf, readonly (read_loop fuel ino start end_ sb rs buf).
Proof. induction fuel as [|fuel IH]; intros; cbn [read_loop]; ro. Qed.
Lemma readonly_read_at ino off buf : readonly (read_at ino off buf).
Proof. unfold read_at. case_match; [done|]. apply readonly_read_loop. Qed.
#[export] Hint Resolve readonly_read_at : ro.

Lemma readonly_ls i : readonly (ls i).
Proof. unfold ls, read_disk_inode. ro. Qed.

(** ** What reaches the device *)
Section device.
Context {D : Type} `{!BlockDevice D}.
Implicit Types s : cache_state D.

(** No entry waits to be written back. *)
Definition clean s : Prop := Forall (λ ia, modified (inner ia.2) = false) (queue s).

Lemma exec_bind_Ok {A B} (p : prog A) (f : A → prog B) s b s' :
  exec (p ≫= f) s = Ok (b, s') → ∃ a s1, exec p s = Ok (a, s1) ∧ exec (f a) s1 = Ok (b, s').
Proof. rewrite exec_bind. destruct (exec p s) as [[a s1]|]; [|done]. intros H. by exists a, s1. Qed.

Lemma clean_alter (id : Z) (f : CacheArc → CacheArc) (dev : D) q :
  (∀ a, modified (inner (f a)) = modified (inner a)) →
  clean (mkCacheState dev q) → clean (mkCacheState dev (q_alter id f q)).
Proof.
  unfold clean, q_alter. cbn. intros Hf H. rewrite Forall_fmap. eapply list.Forall_impl; [exact H|].
  intros [i a] Ha. cbn in *. destruct (i =? id); cbn; by rewrite ?Hf.
Qed.

Lemma clean_evict s s' : clean s → evict s = Ok s' → clean s' ∧ device s' = device s.
Proof.
  unfold evict. intros Hc. destruct (find_index _ _) as [idx|]; [|done].
  destruct (queue s !! idx) as [[i a]|] eqn:Hi; [|done].
  pose proof (list.Forall_lookup_1 _ _ _ _ Hc Hi) as Ha. cbn in Ha.
  unfold BlockCache_drop, BlockCache_sync. cbn [snd]. rewrite Ha. cbn. intros [= <-]. split; [|done].
  unfold clean. cbn. by apply Forall_delete.
Qed.

Lemma clean_get s s' id : clean s → get_block_cache id s = Ok s' → clean s' ∧ device s' = device s.
Proof.
  unfold get_block_cache. intros Hc. destruct (find_index _ _).
  { intros [= <-]. split; [|done]. destruct s. by apply clean_alter. }
  destruct (if _ =? _ then _ else _) as [s1|] eqn:Hs1; [|done]. cbn.
  assert (clean s1 ∧ device s1 = device s) as [Hc1 Hd1].
  { destruct (_ =? _); [by apply clean_evict|by simplify_eq]. }
  unfold BlockCache_new. destruct (read_block _ _); [|done]. cbn. intros [= <-]. split; [|done].
  unfold clean. cbn. apply Forall_app. split; [done|]. by apply list.Forall_cons.
Qed.

Lemma clean_lock s s' id b : clean s → mutex_lock id s = Ok (b, s') → clean s' ∧ device s' = device s.
Proof.
  unfold mutex_lock. intros Hc. destruct (_ ≫= _); [|done]. destruct (locked _); [done|].
  intros [= <- <-]. split; [|done]. destruct s. by apply clean_alter.
Qed.

(** A program that stores nothing leaves a clean cache clean, and the device
    as it is. *)
Lemma exec_readonly {A} (p : prog A) : ∀ s a s',
  readonly p → clean s → exec p s = Ok (a, s') → clean s' ∧ device s' = device s.
Proof.
  induction p as [a0|e|id k IH|id off v k IH|id k IH|k IH]; intros s a s' Hr Hc; cbn [exec]; try done.
  - by intros [= <- <-].
  - destruct (get_block_cache id s) as [s1|] eqn:H1; [|done]. cbn.
    destruct (mutex_lock id s1) as [[b s2]|] eqn:H2; [|done]. cbn. intros H3.
    destruct (clean_get _ _ _ Hc H1) as [Hc1 Hd1]. destruct (clean_lock _ _ _ _ Hc1 H2) as [Hc2 Hd2].
    destruct (IH b _ _ _ (Hr b) Hc2 H3) as [? ?]. split; [done|]. congruence.
  - intros H. apply (IH (guard_drop id s)) in H; [done|done|]. destruct s. by apply clean_alter.
Qed.

(** Programs after which nothing waits. *)
Definition syncs {A} (p : prog A) : Prop := ∀ s a s', exec p s = Ok (a, s') → clean s'.

Lemma sync_queue_clean q : ∀ (dev : D) q' dev',
  sync_queue q dev = Ok (q', dev') → Forall (λ ia, modified (inner ia.2) = false) q'.
Proof.
  induction q as [|[id a] q IH]; intros dev q' dev'; cbn [sync_queue]; [by intros [= <- <-]|].
  destruct (locked a); [done|].
  destruct (BlockCache_sync (inner a) dev) as [[c dev1]|] eqn:Hs; [|done]. cbn.
  destruct (sync_queue q dev1) as [[q1 dev2]|] eqn:Hq; [|done]. cbn. intros [= <- <-].
  apply list.Forall_cons. split; [|by eapply IH]. cbn. unfold BlockCache_sync in Hs.
  destruct (modified (inner a)) eqn:Hm; [|by simplify_eq]. destruct (write_block _ _ _); by simplify_eq.
Qed.

Lemma syncs_sync_all {A} (a : A) : syncs (block_cache_sync_all ≫= λ _, Ret a).
Proof.
  intros s a' s'. cbn. destruct (sync_queue (queue s) (device s)) as [[q dev]|] eqn:H; [|done]. cbn.
  intros [= <- <-]. unfold clean. cbn. by eapply sync_queue_clean.
Qed.

Lemma syncs_bind {A B} (p : prog A) (f : A → prog B) : (∀ a, syncs (f a)) → syncs (p ≫= f).
Proof.
  intros Hf s b s' (a & s1 & _ & H)%exec_bind_Ok. by eapply Hf.
Qed.

Lemma syncs_ret {A B} (p : prog A) (f : A → B) : syncs p → syncs (p ≫= λ a, Ret (f a)).
Proof.
  intros Hp s b s' (a & s1 & H & [= <- <-])%exec_bind_Ok. by eapply Hp.
Qed.

Lemma syncs_write_at i off buf : syncs (Inode_write_at i off buf).
Proof. apply syncs_bind. intros a. apply syncs_sync_all. Qed.

Lemma syncs_efs_create total ib : syncs (efs_create total ib).
Proof.
  unfold efs_create. cbv zeta. do 2 (apply syncs_bind; intros ?). apply syncs_bind; intros ?.
  apply syncs_bind; intros ?. destruct (get_disk_inode_pos _ _). apply syncs_bind; intros ?.
  apply syncs_sync_all.
Qed.

Lemma pack_apps_clean root apps : ∀ s u s', clean s → exec (pack_apps root apps) s = Ok (u, s') → clean s'.
Proof.
  unfold pack_apps. induction apps as [|[name data] apps IH]; intros s u s' Hc; cbn [pfold].
  { cbn. by intros [= _ <-]. }
  intros ([] & s1 & H1 & H2)%exec_bind_Ok. eapply IH; [|exact H2].
  revert H1. apply syncs_bind. intros o. apply syncs_bind. intros i. apply (syncs_ret _ (λ _, ())), syncs_write_at.
Qed.

Lemma pack_clean apps s l s' : exec (easy_fs_pack apps) s = Ok (l, s') → clean s'.
Proof.
  unfold easy_fs_pack. intros (e & s1 & H1 & (u & s2 & H2 & H3)%exec_bind_Ok)%exec_bind_Ok.
  apply syncs_efs_create in H1. apply pack_apps_clean in H2; [|done]. eapply exec_readonly; [|exact H2|exact H3]. apply readonly_ls.
Qed.
End device.

(** A clean cache shows the device. *)
Lemma clean_device {D : Type} `{!BlockDevice D} (s : cache_state D) d :
  cache_inv s [] d → clean s → ∀ id, ok_id id → read_block (device s) id = d !! id.
Proof.
  intros Hinv Hc id Hid. destruct (decide (id ∈ (queue s).*1)) as [Hin|Hout].
  - apply elem_of_ids in Hin as (a & Ha). rewrite (inv_cached _ _ _ Hinv _ _ Ha).
    apply (slot_clean _ _ _ _ (inv_slots _ _ _ Hinv _ _ Ha)).
    exact (proj1 (list.Forall_forall _ _) Hc _ Ha).
  - symmetry. by apply Hinv.
Qed.
