(* ===== verification/FsProps.v ===== *)
(** * FsProps: the properties of easy-fs

    The theorems about the block cache, the bitmaps, inodes, the file system
    and the packer, each with an instance at concrete inputs. *)

From stdpp Require Import base gmap list numbers.
From S2P Require Import Prelude Bytes BlockIO BlockCache BlockFile Bitmap Layout InodeIndex.
From S2P Require Import InodeData LayoutCodec Efs Vfs FsState FsOps FsDir Fs FsFormat FsPack.
From S2P Require Import FsImage.

(** ** Sample disks *)

(** A disk of [n] zero blocks, and the image file with the same bytes. *)
Definition blank (n : Z) : gmap Z (list Z) := list_to_map ((λ i, (i, zeros)) <$> seqZ 0 n).
Definition blank_file (n : Z) : BlockFile := mkBlockFile (replicate (Z.to_nat n * 512) 0).

Lemma lookup_blank n i : blank n !! i = if decide (0 ≤ i < n) then Some zeros else None.
Proof.
  unfold blank. case_decide as Hi.
  - apply elem_of_list_to_map_1.
    + rewrite <- list_fmap_compose. cbn. rewrite list_fmap_id. apply NoDup_seqZ.
    + apply list_elem_of_fmap. exists i. split; [done|]. apply elem_of_seqZ. lia.
  - apply not_elem_of_list_to_map_1. rewrite <- list_fmap_compose. cbn. rewrite list_fmap_id.
    rewrite elem_of_seqZ. lia.
Qed.

Lemma blank_ok n x : 0 ≤ x < n → block_ok (blank n) x.
Proof.
  intros Hx. exists zeros. rewrite lookup_blank, decide_True by lia. split_and!; [done| |].
  - apply length_replicate.
  - by apply Forall_replicate.
Qed.

Lemma slice_replicate {A} off n m (x : A) : (off + n ≤ m)%nat → slice off n (replicate m x) = replicate n x.
Proof. intros H. unfold slice. rewrite drop_replicate, take_replicate. f_equal. lia. Qed.

Lemma blank_device n id :
  0 ≤ n → ok_id id → blank n !! id = read_block (blank_file n) id.
Proof.
  intros Hn Hid. unfold ok_id, in_u in Hid. change (read_block _ id) with (BlockFile_read_block (blank_file n) id).
  destruct (BlockFile_read_block (blank_file n) id) as [b|] eqn:Hb.
  - apply BlockFile_read_iff in Hb as [Hl ->]; [|done]. cbn [blank_file file_bytes] in *.
    rewrite length_replicate in Hl. rewrite slice_replicate by done.
    rewrite lookup_blank, decide_True by lia. done.
  - rewrite lookup_blank, decide_False; [done|]. intros Hlt.
    assert (BlockFile_read_block (blank_file n) id = Some (slice (Z.to_nat id * 512) 512 (file_bytes (blank_file n)))) as Hs.
    { apply BlockFile_read_iff; [done|]. cbn [blank_file file_bytes]. rewrite length_replicate. split; [lia|done]. }
    by rewrite Hb in Hs.
Qed.

Definition sample_efs : EasyFileSystem := layout_of 1100 1.

Lemma sample_formattable : formattable 1100 1.
Proof. done. Qed.

(** A formatted disk of 1100 blocks, and one with an empty file. *)
Lemma sample_empty : ∃ d, fs_rep d sample_efs 1100 [] ∅ 0.
Proof.
  destruct (efs_create_spec (blank 1100) 1100 1 sample_formattable) as (d & _ & Hrep & _); [|by exists d].
  intros x Hx. by apply blank_ok.
Qed.

Lemma sample_file : ∃ d id, fs_rep d sample_efs 1100 [([97], id)] {[id := []]} 1.
Proof.
  destruct sample_empty as (d & Hrep).
  destruct (rep_create _ _ _ _ _ _ [97] Hrep) as (id & d' & _ & _ & Hrep'); try done.
  { split; [done|]. split; [|done]. by repeat constructor. }
  exists d', id. done.
Qed.

(** With five bytes in the file, in one block. *)
Lemma sample_written : ∃ d id, fs_rep d sample_efs 1100 [([97], id)] {[id := [0; 0; 0; 1; 2]]} 2.
Proof.
  destruct sample_file as (d & id & Hrep).
  destruct (rep_write _ _ _ _ _ _ Hrep id [] 3 [1; 2]) as (d' & _ & Hrep'); try done.
  - by rewrite lookup_singleton_eq.
  - by repeat constructor.
  - exists d', id. by rewrite insert_singleton_eq in Hrep'.
Qed.

(** ** The block cache *)

(** C4: Every easy-fs program behaves on the write-back cache (sixteen entries,
    eviction, dirty flags, locks) as it does on the plain disk the cache stands
    for: same result, same panic, same self-deadlock, and the cache goes on
    standing for the resulting disk.  Accesses outside a block are the one case
    left open. *)
Theorem cache_refines_disk {D : Type} `{!BlockDevice D, !BlockDeviceLaws D} {A} (p : prog A)
    (s : cache_state D) (h : list Z) (d : gmap Z (list Z)) :
  cache_inv s h d →
  match run p h d with
  | Ok (a, h', d') => ∃ s', exec p s = Ok (a, s') ∧ cache_inv s' h' d'
  | Stop Undefined => True
  | Stop e => exec p s = Stop e
  end.
Proof. apply exec_run. Qed.

Lemma cache_refines_disk_witness :
  ∃ s', exec (efs_create 1100 1) (mkCacheState (blank_file 1100) []) = Ok (sample_efs, s').
Proof.
  destruct (efs_create_spec (blank 1100) 1100 1 sample_formattable (blank_ok 1100)) as (d & Hrun & _).
  pose proof (cache_refines_disk (efs_create 1100 1) (mkCacheState (blank_file 1100) []) [] (blank 1100)) as H.
  rewrite Hrun in H. destruct H as (s' & Hs' & _); [|by exists s'].
  apply cache_inv_init. intros id Hid. by apply blank_device.
Defined.

(** C33: [block_cache_sync_all] makes the disk durable: when the program that ran
    on an initially empty cache holds no block any more, writing back every
    entry succeeds, and then each block read straight from the device is the
    block of the disk the program has built. *)
Theorem sync_all_durable {D : Type} `{!BlockDevice D, !BlockDeviceLaws D} {A} (p : prog A)
    (dev : D) (d : gmap Z (list Z)) (a : A) (d' : gmap Z (list Z)) :
  (∀ id, ok_id id → d !! id = read_block dev id) → runs p [] d a d' →
  ∃ s, exec (p ≫= λ x, block_cache_sync_all ≫= λ _, Ret x) (mkCacheState dev []) = Ok (a, s) ∧
    ∀ id, ok_id id → read_block (device s) id = d' !! id.
Proof.
  intros Hd Hrun. pose proof (exec_run p _ _ _ (cache_inv_init dev d Hd)) as H. rewrite Hrun in H.
  destruct H as (s1 & Hs1 & Hinv). destruct (sync_step s1 d' Hinv) as (q & dev' & Hq & _ & Hdev).
  exists (mkCacheState dev' q). split; [|done]. rewrite exec_bind, Hs1. cbn. by rewrite Hq.
Qed.

Lemma sync_all_durable_witness :
  ∃ (d' : gmap Z (list Z)) s, exec (efs_create 1100 1 ≫= λ x, block_cache_sync_all ≫= λ _, Ret x)
            (mkCacheState (blank_file 1100) []) = Ok (sample_efs, s) ∧
    ∀ id, ok_id id → read_block (device s) id = d' !! id.
Proof.
  destruct (efs_create_spec (blank 1100) 1100 1 sample_formattable (blank_ok 1100)) as (d & Hrun & _).
  exists d. apply (sync_all_durable _ _ (blank 1100)); [|done]. intros id Hid. by apply blank_device.
Defined.


(** ** Bitmaps *)

(** [Bitmap::alloc] takes the lowest free bit, sets that bit and no other,
    and stores to the bitmap's blocks only; it returns [None] exactly when
    every bit is taken, and then changes nothing. *)
Lemma bitmap_alloc_first_free d bm h :
  bm_wf d bm → (∀ id, bm_region bm id → lockable id h) →
  (∃ k d', runs (Bitmap_alloc bm) h d (Some k) d' ∧ 0 ≤ k < blocks bm * 4096 ∧
     bm_bit d bm k = false ∧ (∀ j, 0 ≤ j < k → bm_bit d bm j = true) ∧
     (∀ j, 0 ≤ j < blocks bm * 4096 →
        bm_bit d' bm j = if decide (j = k) then true else bm_bit d bm j) ∧
     (∀ id, ¬ bm_region bm id → d' !! id = d !! id)) ∨
  (runs (Bitmap_alloc bm) h d None d ∧ ∀ j, 0 ≤ j < blocks bm * 4096 → bm_bit d bm j = true).
Proof.
  intros Hwf Hlk. destruct (Bitmap_alloc_spec d bm h Hwf Hlk) as [(k & d' & Hrun & [] & Hlow)|]; [|by right].
  left. by exists k, d'.
Qed.

Definition sample_bm : Bitmap := mkBitmap 1 1.

Lemma sample_bm_wf : bm_wf (blank 2) sample_bm.
Proof. split; cbn; try lia. intros i Hi. apply blank_ok. lia. Qed.
Lemma sample_bm_lock id : bm_region sample_bm id → lockable id [].
Proof.
  unfold bm_region. cbn. intros Hid. split; [unfold ok_id, in_u; lia|]. split; [apply not_elem_of_nil|done].
Qed.

(** [Bitmap::dealloc] clears the one bit it is given, and panics on a bit
    that is free already, so a block cannot be given back twice. *)
Lemma bitmap_dealloc_exact d bm h k :
  bm_wf d bm → 0 ≤ k < blocks bm * 4096 → (∀ id, bm_region bm id → lockable id h) →
  if bm_bit d bm k then
    ∃ d', runs (Bitmap_dealloc bm k) h d () d' ∧
      (∀ j, 0 ≤ j < blocks bm * 4096 → bm_bit d' bm j = if decide (j = k) then false else bm_bit d bm j) ∧
      (∀ id, ¬ bm_region bm id → d' !! id = d !! id) ∧
      run (Bitmap_dealloc bm k) h d' = Stop Panicked
  else run (Bitmap_dealloc bm k) h d = Stop Panicked.
Proof.
  intros Hwf Hk Hlk. pose proof (Bitmap_dealloc_spec d bm h k Hwf Hk Hlk) as H.
  destruct (bm_bit d bm k); [|done]. destruct H as (d' & Hrun & [Hb Ho Hw]). exists d'. split_and!; try done.
  pose proof (Bitmap_dealloc_spec d' bm h k Hw Hk Hlk) as H. by rewrite Hb, decide_True in H by done.
Qed.

(** ** Inodes *)

(** The inode after the file has grown to [new_size] over the blocks [L], data
    and index blocks together. *)
Definition indexed (d : gmap Z (list Z)) (h : list Z) (ino : DiskInode) (L : list Z) : Prop :=
  NoDup (data_ids L (data_blocks ino)) ∧
  ∀ i, 0 ≤ i < data_blocks ino →
    ∃ x, data_ids L (data_blocks ino) !! Z.to_nat i = Some x ∧ runs (get_block_id ino i) h d x d.

(** C30: [DiskInode::increase_size] grows a file over its direct, indirect and
    doubly indirect blocks up to [MAX_FILE_SIZE], given exactly the number of
    new blocks [blocks_num_needed] asks for.  Afterwards [get_block_id] finds a
    block for every index, a different one for each, among the old and the
    new blocks; blocks that are not the file's are untouched; and
    [clear_size] gives back exactly the old and the new blocks. *)
Theorem grow_index_clear d h ino new_size l nb :
  inode_ok ino → Z.of_nat (length h) < BLOCK_CACHE_SIZE - 1 →
  0 ≤ size ino ≤ new_size → new_size ≤ MAX_FILE_SIZE →
  inode_list d ino (data_blocks ino) = Some l →
  blocks_num_needed ino new_size = Ok (Z.of_nat (length nb)) →
  fresh_blocks d h (l ++ nb) →
  ∃ ino' d', runs (increase_size ino new_size nb) h d ino' d' ∧
    size ino' = new_size ∧ type_ ino' = type_ ino ∧ indexed d' h ino' (l ++ nb) ∧
    (∀ x, x ∉ l ++ nb → d' !! x = d !! x) ∧
    ∃ ino0, runs (clear_size ino') h d' (l ++ nb, ino0) d' ∧ size ino0 = 0.
Proof.
  intros Hok Hh Hs Hmax Hl Hnb Hfr.
  assert (Z.of_nat (length nb) = total_blocks new_size - total_blocks (size ino)) as Hnb'
    by (destruct (blocks_num_needed_spec ino new_size) as [_ Hbn]; [lia..|]; congruence).
  destruct (increase_size_spec d h ino new_size l nb) as (ino' & d' & Hrun & [Hlist Hok' Hsz Hty _ Hoi]); try done.
  cbn in Hsz, Hty. destruct (_data_blocks_bounds new_size ltac:(lia)) as [Hn Hnn].
  assert (data_blocks ino' = _data_blocks new_size) as Hdb by (unfold data_blocks; by rewrite Hsz).
  rewrite <- Hdb in Hlist.
  assert (fresh_blocks d' h (l ++ nb)) as Hfr'.
  { destruct Hfr as [H1 H2 H3]. split; [done..|]. intros x Hx. by apply Hoi, H3. }
  exists ino', d'. split_and!; try done.
  - split; [by eapply data_ids_NoDup, Hfr|]. intros i Hi.
    destruct (get_block_id_list d' ino' (data_blocks ino') (l ++ nb) i h) as (x & Hx & Hg); try done.
    { rewrite Hdb. lia. }
    { intros x Hx. split; by apply Hfr'. }
    exists x. split; [|done]. by erewrite lookup_data_ids.
  - intros x Hx. by apply (only_index_out _ _ _ _ _ Hoi).
  - destruct (clear_size_spec d' h ino' (l ++ nb)) as (ino0 & Hc & H0 & _); try done; [lia|]. by exists ino0.
Qed.

Definition sample_inode : DiskInode := mkDiskInode 0 (replicate 28 0) 0 0 File.

Lemma sample_fresh n : n ≤ 1000 → fresh_blocks (blank 1000) [] (seqZ 5 (n - 5)).
Proof.
  intros Hn. split; [apply NoDup_seqZ| |]; intros x Hx%elem_of_seqZ.
  - split; [unfold ok_id, in_u; lia|]. split; [apply not_elem_of_nil|done].
  - apply blank_ok. lia.
Qed.

(** An empty file grows to forty blocks: twenty-eight direct ones, the indirect
    block and twelve more. *)
Lemma grow_index_clear_witness :
  ∃ ino' d', runs (increase_size sample_inode 20480 (seqZ 5 41)) [] (blank 1000) ino' d' ∧
    size ino' = 20480 ∧ type_ ino' = File ∧ indexed d' [] ino' (seqZ 5 41) ∧
    (∀ x, x ∉ seqZ 5 41 → d' !! x = blank 1000 !! x) ∧
    ∃ ino0, runs (clear_size ino') [] d' (seqZ 5 41, ino0) d' ∧ size ino0 = 0.
Proof.
  apply (grow_index_clear (blank 1000) [] sample_inode 20480 [] (seqZ 5 41)); try done.
  exact (sample_fresh 46 ltac:(lia)).
Defined.

(** C37: A file name of up to 27 non-zero bytes of UTF-8 is read back from its
    directory entry.  A name of 29 bytes or more makes [DirEntry::new] panic;
    a name of 28 bytes is accepted by [DirEntry::new], but then no zero byte
    ends it and [DirEntry::name] panics. *)
Theorem entry_names name id :
  (good_name name → ∃ e, DirEntry_new name id = Ok e ∧ DirEntry_name e = Ok name) ∧
  (28 < Z.of_nat (length name) → DirEntry_new name id = Stop Panicked) ∧
  (length name = 28%nat → Forall (λ b, b ≠ 0) name →
     ∃ e, DirEntry_new name id = Ok e ∧ DirEntry_name e = Stop Panicked).
Proof.
  split_and!.
  - intros Hn. eexists. split; [apply DirEntry_new_ok|by apply DirEntry_name_new]. destruct Hn. lia.
  - intros Hn. by apply DirEntry_new_too_long.
  - apply DirEntry_name_full.
Qed.

Lemma entry_names_witness :
  (∃ e, DirEntry_new [97; 98] 3 = Ok e ∧ DirEntry_name e = Ok [97; 98]) ∧
  DirEntry_new (replicate 29 97) 3 = Stop Panicked ∧
  ∃ e, DirEntry_new (replicate 28 97) 3 = Ok e ∧ DirEntry_name e = Stop Panicked.
Proof.
  split; [|split].
  - apply (proj1 (entry_names [97; 98] 3)). split; [done|]. split; [|done]. by repeat constructor.
  - apply (proj1 (proj2 (entry_names (replicate 29 97) 3))). done.
  - apply (proj2 (proj2 (entry_names (replicate 28 97) 3))); [done|]. by apply Forall_replicate.
Defined.


(** ** The file system *)

(** C11: [EasyFileSystem::create] formats any device that is large enough: the
    result is a consistent, empty file system, and [open] on the device finds
    the very same regions. *)
Theorem format_then_open d total ib :
  formattable total ib → (∀ x, 0 ≤ x < total → block_ok d x) →
  ∃ d', runs (efs_create total ib) [] d (layout_of total ib) d' ∧
    fs_rep d' (layout_of total ib) total [] ∅ 0 ∧
    runs efs_open [] d' (layout_of total ib) d'.
Proof.
  intros Hf Hblk. destruct (format_pack_spec d total ib []) as (d' & Hrun & (b & Hb & Hl & Hsb) & _); try done.
  { destruct (data_bm_bounds total ib Hf). destruct Hf. split; try done; [by constructor|cbn; lia|].
    unfold dir_blocks. change (total_blocks (32 * Z.of_nat (length []))) with 0. cbn. lia. }
  destruct (efs_create_spec d total ib Hf Hblk) as (d1 & Hrun1 & Hrep1 & _).
  revert Hrun. unfold runs. rewrite run_bind, Hrun1. cbn. intros [= <-].
  exists d1. split_and!; [done..|]. by eapply efs_open_spec.
Qed.

Lemma format_then_open_witness :
  ∃ d', runs (efs_create 1100 1) [] (blank 1100) (layout_of 1100 1) d' ∧
    fs_rep d' (layout_of 1100 1) 1100 [] ∅ 0 ∧ runs efs_open [] d' (layout_of 1100 1) d'.
Proof. apply (format_then_open (blank 1100) 1100 1 sample_formattable (blank_ok 1100)). Defined.

(** C10: [Inode::create] on the root directory adds an empty file under a fresh
    inode number, which [find] returns for the new name; every other name is
    found as before, the listing gets the name at its end, and the contents of
    the other files stay.  Creating a name that exists returns [None] and
    changes nothing. *)
Theorem create_then_find d e total D F u name :
  fs_rep d e total D F u → good_name name →
  Z.of_nat (length D) + 1 < 4096 * ib e → 32 * (Z.of_nat (length D) + 1) ≤ MAX_FILE_SIZE →
  let u' := u + (total_blocks (32 * (Z.of_nat (length D) + 1)) - total_blocks (32 * Z.of_nat (length D))) in
  u' ≤ total - da e →
  match dir_find name D with
  | Some _ => runs (create (root_inode e) name) [] d None d
  | None =>
      ∃ id d', runs (create (root_inode e) name) [] d (Some (inode_of e id)) d' ∧
        F !! id = None ∧ fs_rep d' e total (D ++ [(name, id)]) (<[id := []]> F) u' ∧
        runs (find (root_inode e) name) [] d' (Some (inode_of e id)) d' ∧
        (∀ other, other ≠ name →
           runs (find (root_inode e) other) [] d' (inode_of e <$> dir_find other D) d') ∧
        runs (ls (root_inode e)) [] d' (D.*1 ++ [name]) d'
  end.
Proof.
  intros Hrep Hn Hi Hd u' Hu. destruct (dir_find name D) as [id|] eqn:Hf.
  { by eapply rep_create_taken. }
  destruct (rep_create d e total D F u name Hrep Hf Hn Hi Hd Hu) as (id & d' & Hrun & HF & Hrep').
  exists id, d'. split_and!; try done.
  - pose proof (rep_find _ _ _ _ _ _ Hrep' name) as H. by rewrite dir_find_snoc, Hf, bool_decide_eq_true_2 in H.
  - intros other Hne. pose proof (rep_find _ _ _ _ _ _ Hrep' other) as H.
    rewrite dir_find_snoc in H. destruct (dir_find other D); [done|]. by rewrite bool_decide_eq_false_2 in H.
  - pose proof (rep_ls _ _ _ _ _ _ Hrep') as H. by rewrite fmap_app in H.
Qed.

Lemma create_then_find_witness :
  ∃ d id d', runs (create (root_inode sample_efs) [97]) [] d (Some (inode_of sample_efs id)) d' ∧
    runs (find (root_inode sample_efs) [97]) [] d' (Some (inode_of sample_efs id)) d'.
Proof.
  destruct sample_empty as (d & Hrep). exists d.
  destruct (create_then_find d sample_efs 1100 [] ∅ 0 [97] Hrep) as (id & d' & H1 & _ & _ & H2 & _); try done.
  { split; [done|]. split; [|done]. by repeat constructor. }
  by exists id, d'.
Defined.

(** C7: Write then read: a non-empty write at any offset that fits the largest
    file grows the file when needed, with zeros in the gap, and reports the whole
    length.  A read of the same range then gives back the bytes written; a read
    of any range gives the bytes of the new contents, shorter at the end of
    file; directory and other files stay as they are, and exactly the blocks
    the growth needs are taken. *)
Theorem write_then_read d e total D F u k c off buf :
  fs_rep d e total D F u → F !! k = Some c → Forall is_byte buf → 0 < Z.of_nat (length buf) → 0 ≤ off →
  off + Z.of_nat (length buf) ≤ MAX_FILE_SIZE →
  let c' := write_data c off buf in
  u + (blocks_of c' - blocks_of c) ≤ total - da e →
  ∃ d', runs (Inode_write_at (inode_of e k) off buf) [] d (Z.of_nat (length buf)) d' ∧
    fs_rep d' e total D (<[k := c']> F) (u + (blocks_of c' - blocks_of c)) ∧
    runs (Inode_read_at (inode_of e k) off (replicate (length buf) 0)) [] d' (Z.of_nat (length buf), buf) d' ∧
    ∀ k2 c2 off2 buf2, <[k := c']> F !! k2 = Some c2 → 0 ≤ off2 < 2 ^ 62 → Z.of_nat (length buf2) < 2 ^ 62 →
      let n := Z.max 0 (Z.min (off2 + Z.of_nat (length buf2)) (Z.of_nat (length c2)) - off2) in
      runs (Inode_read_at (inode_of e k2) off2 buf2) [] d'
        (n, splice 0 (slice (Z.to_nat off2) (Z.to_nat n) c2) buf2) d'.
Proof.
  intros Hrep HF Hb Hlen Hoff Hmax c' Hcap.
  destruct (rep_write d e total D F u Hrep k c off buf) as (d' & Hrun & Hrep'); try done.
  assert (MAX_FILE_SIZE < 2 ^ 62) as Hm by done.
  exists d'. split_and!; try done.
  - pose proof (rep_read _ _ _ _ _ _ Hrep' k c' off (replicate (length buf) 0)
      ltac:(by rewrite lookup_insert_eq) ltac:(lia) ltac:(rewrite length_replicate; lia)) as Hr.
    cbv zeta in Hr. rewrite length_replicate in Hr.
    assert (length c' = (Z.to_nat off + length buf) `max` length c)%nat as Hc'.
    { unfold c', write_data. rewrite length_splice; unfold pad; len. }
    replace (Z.max 0 (Z.min (off + Z.of_nat (length buf)) (Z.of_nat (length c')) - off))
      with (Z.of_nat (length buf)) in Hr by lia.
    rewrite Nat2Z.id in Hr. unfold c' in Hr at 1. unfold write_data in Hr.
    rewrite slice_splice_eq in Hr by (unfold pad; len).
    change 0%nat with (Z.to_nat 0) in Hr. by rewrite splice_whole in Hr by (by rewrite length_replicate).
  - intros k2 c2 off2 buf2 HF2 Ho Hl. by eapply rep_read.
Qed.

Lemma write_then_read_witness :
  ∃ d id d', runs (Inode_write_at (inode_of sample_efs id) 3 [1; 2]) [] d 2 d' ∧
    runs (Inode_read_at (inode_of sample_efs id) 3 [0; 0]) [] d' (2, [1; 2]) d'.
Proof.
  destruct sample_file as (d & id & Hrep). exists d, id.
  destruct (write_then_read d sample_efs 1100 _ _ _ id [] 3 [1; 2] Hrep) as (d' & H1 & _ & H2 & _); try done.
  - by rewrite lookup_singleton_eq.
  - by repeat constructor.
  - by exists d'.
Defined.

(** C29: [Inode::clear] empties a file: a read finds no byte, all blocks the
    file had are given back to the data area, and the directory and the other
    files are as before. *)
Theorem clear_empties d e total D F u k c :
  fs_rep d e total D F u → F !! k = Some c →
  ∃ d', runs (clear (inode_of e k)) [] d () d' ∧
    fs_rep d' e total D (<[k := []]> F) (u - blocks_of c) ∧
    (∀ off buf, 0 ≤ off < 2 ^ 62 → Z.of_nat (length buf) < 2 ^ 62 →
       runs (Inode_read_at (inode_of e k) off buf) [] d' (0, buf) d').
Proof.
  intros Hrep HF. destruct (rep_clear _ _ _ _ _ _ Hrep k c HF) as (d' & Hrun & Hrep').
  exists d'. split_and!; [done..|]. intros off buf Ho Hl.
  pose proof (rep_read _ _ _ _ _ _ Hrep' k [] off buf ltac:(by rewrite lookup_insert_eq) Ho Hl) as Hr.
  cbv zeta in Hr. cbn [length] in Hr. rewrite Z.max_l in Hr by lia.
  replace (splice 0 (slice (Z.to_nat off) (Z.to_nat 0) []) buf) with buf in Hr; [done|].
  rewrite splice_0. unfold slice. change (Z.to_nat 0) with 0%nat. rewrite drop_nil. done.
Qed.

Lemma clear_empties_witness :
  ∃ d id d', fs_rep d sample_efs 1100 [([97], id)] {[id := [0; 0; 0; 1; 2]]} 2 ∧
    runs (clear (inode_of sample_efs id)) [] d () d' ∧
    fs_rep d' sample_efs 1100 [([97], id)] {[id := []]} 1 ∧
    runs (Inode_read_at (inode_of sample_efs id) 3 [7; 7]) [] d' (0, [7; 7]) d'.
Proof.
  destruct sample_written as (d & id & Hrep). exists d, id.
  destruct (clear_empties d sample_efs 1100 _ _ _ id [0; 0; 0; 1; 2] Hrep) as (d' & H1 & H2 & H3).
  - by rewrite lookup_singleton_eq.
  - exists d'. split; [exact Hrep|]. split; [exact H1|]. rewrite insert_singleton_eq in H2.
    split; [exact H2|]. apply H3; [done|reflexivity].
Defined.

(** C3: The image a build makes is the image a kernel boots from.  Run through
    the block cache on any device of 32768 blocks, with programs that have
    distinct good names and fit the image, [easy_fs_pack] returns the list of
    the names; although it does not end with a sync, every block has reached
    the device by then: with a new, empty cache on that device, [open], [find]
    and [read_at] give every program's bytes. *)
Theorem packed_image_boots {D : Type} `{!BlockDevice D, !BlockDeviceLaws D} (dev : D)
    (d : gmap Z (list Z)) (apps : list (list Z * list Z)) :
  (∀ id, ok_id id → d !! id = read_block dev id) → (∀ x, 0 ≤ x < 32768 → block_ok d x) →
  packable 32768 1 apps →
  ∃ s, exec (easy_fs_pack apps) (mkCacheState dev []) = Ok (apps.*1, s) ∧
    ∀ name data, (name, data) ∈ apps →
      ∃ s', exec (load_app name (replicate (length data) 0)) (mkCacheState (device s) [])
            = Ok ((Z.of_nat (length data), data), s').
Proof.
  intros Hd Hblk Hpk. destruct (pack_spec d apps Hblk Hpk) as (d' & Hrun & Him).
  pose proof (exec_run (easy_fs_pack apps) _ _ _ (cache_inv_init dev d Hd)) as H. rewrite Hrun in H.
  destruct H as (s & Hs & Hinv). exists s. split; [done|]. intros name data Hin.
  pose proof (clean_device s d' Hinv (pack_clean _ _ _ _ Hs)) as Hdev.
  pose proof (load_app_spec d' 32768 1 apps name data ltac:(done) Him (pk_apps _ _ _ Hpk) (pk_names _ _ _ Hpk) Hin) as Hl.
  pose proof (exec_run (load_app name (replicate (length data) 0)) (mkCacheState (device s) []) [] d') as H2.
  rewrite Hl in H2. destruct H2 as (s' & Hs' & _); [|by exists s'].
  apply cache_inv_init. intros id Hid. symmetry. by apply Hdev.
Qed.

Lemma packed_image_boots_witness :
  ∃ s s', exec (easy_fs_pack [([97], [1; 2; 3])]) (mkCacheState (blank_file 32768) []) = Ok ([[97]], s) ∧
    exec (load_app [97] [0; 0; 0]) (mkCacheState (device s) []) = Ok ((3, [1; 2; 3]), s').
Proof.
  destruct (packed_image_boots (blank_file 32768) (blank 32768) [([97], [1; 2; 3])]) as (s & Hs & Hload).
  - intros id Hid. by apply blank_device.
  - intros x Hx. by apply blank_ok.
  - split; try done; [|apply NoDup_singleton]. apply list.Forall_cons. split; [|done].
    split; [split; [done|split; [by repeat constructor|done]]|]. split; [by repeat constructor|done].
  - destruct (Hload [97] [1; 2; 3]) as (s' & Hs'); [by apply list_elem_of_singleton|].
    exists s, s'. split; [exact Hs|exact Hs'].
Defined.

(** ** A full data area *)

(** The data bitmap of a formatted device has spare bits unless the blocks after the
    inode area divide evenly between bitmap and area. *)
Lemma layout_spare total ib : formattable total ib →
  total - da (layout_of total ib) < 4096 * dbb (layout_of total ib) ↔ data_total total ib mod 4097 ≠ 0.
Proof.
  intros Hf. assert (0 ≤ data_total total ib) as H0 by (destruct Hf; unfold data_total; lia).
  cbn [data_area_start_block data_bitmap layout_of blocks].
  assert (total - (1 + 1025 * ib + data_bm total ib) = data_total total ib - data_bm total ib) as ->
    by (unfold data_total; lia).
  unfold data_bm. set (n := data_total total ib) in *.
  pose proof (Z.div_mod n 4097 ltac:(lia)) as H1. pose proof (Z.mod_pos_bound n 4097 ltac:(lia)) as H2.
  pose proof (Z.div_mod (n + 4096) 4097 ltac:(lia)) as H3.
  pose proof (Z.mod_pos_bound (n + 4096) 4097 ltac:(lia)) as H4. lia.
Qed.

Lemma full_alloc total ib d A h (e := layout_of total ib) :
  formattable total ib → bm_set d (data_bitmap e) (da e) (total - da e) A →
  (∀ x, da e ≤ x < total → x ∈ A) → low_locks e h →
  (∃ k d', total - da e ≤ k < 4096 * dbb e ∧ bm_bit d (data_bitmap e) k = false ∧
     (∀ j, 0 ≤ j < k → bm_bit d (data_bitmap e) j = true) ∧ runs (alloc_data e) h d (da e + k) d') ∨
  ((∀ j, 0 ≤ j < 4096 * dbb e → bm_bit d (data_bitmap e) j = true) ∧
     run (alloc_data e) h d = Stop Panicked).
Proof.
  intros Hf Hset HA Hh. pose proof (layout_geometry _ _ Hf) as Hg. fold e in Hg.
  destruct (Bitmap_alloc_spec d (data_bitmap e) h (bs_wf _ _ _ _ _ Hset)) as [(k & d' & Hrun & Hok & Hlow)|[Hrun Hfull]].
  { intros id Hid. by eapply region_lockable. }
  - left. pose proof (alloc_bound _ _ _ _ Hok) as Hk. pose proof (alloc_free _ _ _ _ Hok) as Hfree.
    assert (total - da e ≤ k).
    { destruct (decide (k < total - da e)) as [Hlt|]; [|lia].
      rewrite (bs_bits _ _ _ _ _ Hset) in Hfree by lia. apply bool_decide_eq_false in Hfree.
      destruct Hfree. apply HA. lia. }
    exists k, d'. split; [lia|]. split; [done|]. split; [done|].
    unfold alloc_data. eapply runs_bind; [exact Hrun|]. eapply runs_bind; [apply runs_ret|].
    replace (wrap 32 k +u32 da e) with (da e + k); [apply runs_ret|].
    assert (0 ≤ da e ∧ da e + 4096 * dbb e < 2 ^ 32) as [Hd1 Hd2].
    { unfold e. cbn [data_area_start_block data_bitmap layout_of blocks].
      destruct (data_bm_bounds total ib Hf). destruct Hf. unfold data_bm, data_total in *.
      pose proof (Z.div_mod (total - 1 - 1025 * ib + 4096) 4097 ltac:(lia)).
      pose proof (Z.mod_pos_bound (total - 1 - 1025 * ib + 4096) 4097 ltac:(lia)). lia. }
    rewrite (wrap_small 32 k) by (mach_unfold; lia).
    rewrite uadd32_small by (mach_unfold; lia). lia.
  - right. split; [intros j Hj; apply Hfull; lia|].
    unfold alloc_data. unfold runs in Hrun. rewrite run_bind, Hrun. done.
Qed.

(** The first block of an empty data area, with the next bit still clear. *)
Lemma first_data_block e total d : geometry e total →
  bm_set d (data_bitmap e) (da e) 2 ∅ → 2 ≤ 4096 * dbb e → da e < total →
  ∃ d', runs (alloc_data e) [] d (da e) d' ∧
    bm_set d' (data_bitmap e) (da e) 1 {[da e]} ∧ bm_bit d' (data_bitmap e) 1 = false.
Proof.
  intros Hg Hset Hd Hda. pose proof (geo_total _ _ Hg). pose proof (geo_da _ _ Hg).
  pose proof (geo_ib _ _ Hg). pose proof (geo_dbb _ _ Hg).
  assert (low_locks e []) as Hh by (split; [intros x Hx; by apply not_elem_of_nil in Hx|done]).
  destruct (bm_set_alloc d (data_bitmap e) (da e) 2 ∅ []) as (k & d' & Hrun & Hk & _ & Hset' & _ & Hlow);
    [done|lia|by rewrite size_empty|intros id Hid; by eapply region_lockable|].
  assert (k = 0) as ->.
  { destruct (decide (k = 0)); [done|]. by destruct (not_elem_of_empty (C := gset Z) _ (Hlow 0 ltac:(lia))). }
  rewrite Z.add_0_r, union_empty_r_L in Hset'. exists d'. split; [|split].
  - unfold alloc_data. eapply runs_bind; [exact Hrun|]. eapply runs_bind; [apply runs_ret|].
    change (wrap 32 0) with 0. rewrite uadd32_small by (mach_unfold; lia). apply runs_ret.
  - destruct Hset' as [W B Dm]. split; [done|intros k Hk1; apply B; lia|].
    intros x Hx%elem_of_singleton. lia.
  - rewrite (bs_bits _ _ _ _ _ Hset') by lia. apply bool_decide_eq_false.
    intros Hx%elem_of_singleton. lia.
Qed.

(** C38: What [alloc_data] does when the data area of a formatted device is full.  The
    data bitmap has room for more blocks than the area has, unless the blocks after
    the inode area are a multiple of 4097.  When every bit is set [alloc_data]
    panics, so in that case it always does.  Otherwise it does not fail: it hands
    out a block at or past the end of the device, the block [total] when the first
    spare bit is clear, as formatting leaves it. *)
Theorem alloc_data_past_end total ib d (A : gset Z) h :
  let e := layout_of total ib in
  let n := total - da e in
  formattable total ib → bm_set d (data_bitmap e) (da e) n A →
  (∀ x, da e ≤ x < total → x ∈ A) → low_locks e h →
  (n < 4096 * dbb e ↔ data_total total ib mod 4097 ≠ 0) ∧
  ((∃ k d', n ≤ k < 4096 * dbb e ∧ bm_bit d (data_bitmap e) k = false ∧
      (∀ j, 0 ≤ j < k → bm_bit d (data_bitmap e) j = true) ∧
      runs (alloc_data e) h d (da e + k) d' ∧ total ≤ da e + k) ∨
   ((∀ j, 0 ≤ j < 4096 * dbb e → bm_bit d (data_bitmap e) j = true) ∧
    run (alloc_data e) h d = Stop Panicked)) ∧
  (n < 4096 * dbb e → bm_bit d (data_bitmap e) n = false → ∃ d', runs (alloc_data e) h d total d').
Proof.
  intros e n Hf Hset HA Hh. split; [exact (layout_spare total ib Hf)|].
  destruct (full_alloc total ib d A h Hf Hset HA Hh) as [(k & d' & Hk & Hfree & Hlow & Hrun)|[Hfull Hrun]].
  - split.
    + left. exists k, d'. unfold n in Hk. split; [exact Hk|]. split; [exact Hfree|]. split; [exact Hlow|].
      split; [exact Hrun|]. fold e in Hk. lia.
    + intros Hs Hn. exists d'. replace total with (da e + k) at 1; [exact Hrun|].
      destruct (decide (n < k)) as [Hlt|Hge]; [|unfold n, e in *; lia].
      rewrite Hlow in Hn; [discriminate|]. pose proof (geo_total _ _ (layout_geometry _ _ Hf)).
      unfold n, e in *. lia.
  - split; [right; split; [exact Hfull|exact Hrun]|]. intros Hs Hn.
    pose proof (geo_total _ _ (layout_geometry _ _ Hf)). rewrite Hfull in Hn; [discriminate|].
    unfold n, e in *. lia.
Qed.

(** A device of 1028 blocks has one data block, the last one; with that taken, the
    next block is 1028. *)
Lemma alloc_data_past_end_witness : ∃ d d',
  runs (alloc_data (layout_of 1028 1)) [] (blank 1028) 1027 d ∧
  runs (alloc_data (layout_of 1028 1)) [] d 1028 d'.
Proof.
  assert (formattable 1028 1) as Hf by done.
  pose proof (layout_geometry 1028 1 Hf) as Hg.
  assert (low_locks (layout_of 1028 1) []) as Hh by (split; [intros x Hx; by apply not_elem_of_nil in Hx|done]).
  assert (Hset : bm_set (blank 1028) (data_bitmap (layout_of 1028 1)) 1027 2 ∅).
  { apply bm_set_zeros; [done..|]. intros x Hx. change (1026 ≤ x < 1027) in Hx.
    rewrite lookup_blank, decide_True by lia. done. }
  destruct (first_data_block (layout_of 1028 1) 1028 (blank 1028) Hg Hset) as (d & Hrun & Hset1 & Hfree); [done..|].
  exists d.
  destruct (alloc_data_past_end 1028 1 d {[1027]} [] Hf Hset1) as (_ & _ & Hnext).
  - intros x Hx. change (1027 ≤ x < 1028) in Hx. apply elem_of_singleton. lia.
  - exact Hh.
  - destruct (Hnext eq_refl Hfree) as (d' & Hrun2). exists d'. split; [exact Hrun|exact Hrun2].
Defined.
