(* ===== verification/FsTyped.v ===== *)
(** * FsTyped: the operations of easy-fs store bytes

    A block is an array of u8, but a model over integers does not say so.
    [typed Q p]: given blocks of bytes, the program [p] stores bytes only, and its
    result satisfies [Q].  Every operation of the file system is typed. *)

From stdpp Require Import base gmap list numbers.
From S2P Require Import Prelude Bytes BlockIO Bitmap Layout Efs Vfs.

Notation bytes b := (Forall is_byte b).

Fixpoint typed {A} (Q : A → Prop) (p : prog A) : Prop :=
  match p with
  | Ret a => Q a
  | Halt _ => True
  | Lock _ k => ∀ b, bytes b → typed Q (k b)
  | Store _ _ v k => bytes v ∧ typed Q k
  | Unlock _ k => typed Q k
  | SyncAll k => typed Q k
  end.

(** Any result will do. *)
Notation well_typed p := (typed (λ _, True) p).

Create HintDb typed.

(** ** The combinators *)

Lemma typed_mono {A} (P Q : A → Prop) p : typed P p → (∀ a, P a → Q a) → typed Q p.
Proof.
  intros Hp HPQ. induction p as [a|e|id k IH|id off v k IH|id k IH|k IH]; simpl in *; auto.
  destruct Hp. auto.
Qed.

Lemma typed_bind {A B} (P : A → Prop) (Q : B → Prop) (p : prog A) (f : A → prog B) :
  typed P p → (∀ a, P a → typed Q (f a)) → typed Q (p ≫= f).
Proof.
  unfold mbind, prog_bind. intros Hp Hf.
  induction p as [a|e|id k IH|id off v k IH|id k IH|k IH]; simpl in *; auto.
  destruct Hp. auto.
Qed.

Lemma typed_seq {A B} (Q : B → Prop) (p : prog A) (f : A → prog B) :
  well_typed p → (∀ a, typed Q (f a)) → typed Q (p ≫= f).
Proof. intros Hp Hf. apply (typed_bind (λ _, True)); auto. Qed.

Lemma typed_ret {A} (Q : A → Prop) a : Q a → typed Q (Ret a).
Proof. done. Qed.

Lemma typed_passert b : well_typed (passert b).
Proof. by destruct b. Qed.

Lemma typed_punwrap {A} (Q : A → Prop) o : (∀ a, o = Some a → Q a) → typed Q (punwrap o).
Proof. destruct o; simpl; auto. Qed.

Lemma typed_plift {A} (Q : A → Prop) r : (∀ a, r = Ok a → Q a) → typed Q (plift r).
Proof. destruct r; simpl; auto. Qed.

Lemma bytes_slice n m b : bytes b → bytes (slice n m b).
Proof. intros Hb. by apply Forall_take, Forall_drop. Qed.

Lemma bytes_splice n v b : bytes v → bytes b → bytes (splice n v b).
Proof. intros Hv Hb. unfold splice. rewrite !Forall_app. auto using Forall_take, Forall_drop. Qed.

Lemma typed_read {A} (Q : A → Prop) id off size f :
  (∀ b, bytes b → typed Q (f b)) → typed Q (read id off size f).
Proof.
  intros Hf b Hb. destruct (in_block off size); [|done].
  eapply typed_bind; [by apply Hf, bytes_slice|done].
Qed.

Lemma typed_modify {A} (Q : A → Prop) id off size (f : list Z → prog (A * list Z)) :
  (∀ b, bytes b → typed (λ '(a, v), Q a ∧ bytes v) (f b)) → typed Q (modify id off size f).
Proof.
  intros Hf b Hb. destruct (in_block off size); [|done].
  eapply typed_bind; [by apply Hf, bytes_slice|]. intros [a v] [Ha Hv]. done.
Qed.

Lemma typed_pfold {A S} (I : S → Prop) l (f : A → S → prog S) s :
  (∀ x s, I s → typed I (f x s)) → I s → typed I (pfold l f s).
Proof.
  intros Hf. revert s. induction l as [|x l IH]; intros s Hs; [done|].
  cbn [pfold]. eapply typed_bind; [by apply Hf|done].
Qed.

#[export] Hint Resolve typed_seq typed_ret typed_passert typed_punwrap typed_plift typed_read typed_modify
  bytes_slice bytes_splice arr_set_bytes le_bytes_byte : typed.

(** ** Bitmaps *)

Lemma bitmap_block_alloc_bytes b : bytes b → bytes (bitmap_block_alloc b).2.
Proof.
  intros Hb. unfold bitmap_block_alloc. destruct (find_index _ _); simpl; auto with typed.
Qed.

Lemma alloc_from_typed bm ids : well_typed (alloc_from bm ids).
Proof.
  induction ids as [|id ids IH]; [done|]. cbn [alloc_from]. apply typed_seq.
  - apply typed_modify. intros b Hb. pose proof (bitmap_block_alloc_bytes b Hb) as Hb'.
    by destruct (bitmap_block_alloc b) as [[[]|] b'].
  - by intros [|].
Qed.

Lemma Bitmap_dealloc_typed bm bit : well_typed (Bitmap_dealloc bm bit).
Proof.
  unfold Bitmap_dealloc. destruct (decomposition bit) as [[bp wp] ip].
  apply typed_modify. intros b Hb. apply typed_seq; [apply typed_passert|]. simpl. auto with typed.
Qed.

(** ** Inodes *)

Lemma bytes_concat l : bytes (concat (le_bytes 4 <$> l)).
Proof. induction l as [|x l IH]; [constructor|]. apply Forall_app. auto with typed. Qed.

Lemma encode_inode_bytes ino b : bytes b → bytes (DiskInode_encode ino b).
Proof.
  intros Hb. apply bytes_splice; [|done]. apply Forall_app. split; [apply bytes_concat|].
  constructor; [|constructor]. unfold is_byte. destruct (type_ ino); simpl; lia.
Qed.

#[export] Hint Resolve bytes_concat encode_inode_bytes : typed.

Lemma get_block_id_typed ino i : well_typed (get_block_id ino i).
Proof.
  unfold get_block_id. destruct (_ <? _); [auto with typed|]. destruct (_ <? _); auto 8 with typed.
Qed.

Lemma fill_loop_bytes fuel cur lim b new r : bytes b →
  fill_loop put_indirect fuel cur lim b new = Ok r → bytes r.1.1.
Proof.
  revert cur b new. induction fuel as [|fuel IH]; intros cur b new Hb; cbn [fill_loop];
    (destruct (cur <? lim); [|by intros [= <-]]); [done|].
  destruct new as [|v new]; [done|]. apply IH. by apply arr_set_bytes.
Qed.

Lemma fill_step_typed a0 b0 b new : bytes b → typed (λ '(b, _), bytes b) (fill_step a0 b0 b new).
Proof.
  intros Hb. unfold fill_step. apply (typed_bind (λ '(b, _), bytes b)).
  - destruct (b0 =? 0); [|done]. destruct new; [done|].
    destruct (a0 <? _); [|done]. by apply arr_set_bytes.
  - clear b Hb. intros [b new'] Hb. apply typed_seq; [auto with typed|]. intros sub.
    apply typed_seq; [|done]. apply typed_modify. intros sb Hsb.
    destruct new'; [done|]. split; auto with typed.
Qed.

Lemma fill_indirect2_typed fuel a0 b0 a1 b1 b new : bytes b →
  typed (λ b, bytes b) (fill_indirect2 fuel a0 b0 a1 b1 b new).
Proof.
  revert a0 b0 b new. induction fuel as [|fuel IH]; intros a0 b0 b new Hb; cbn [fill_indirect2];
    (destruct (_ || _); [|done]); [done|].
  eapply typed_bind; [by apply fill_step_typed|]. intros [b' new'] Hb'.
  destruct (_ =? _); by apply IH.
Qed.

Lemma grow_indirect2_typed ino cur tot new : well_typed (grow_indirect2 ino cur tot new).
Proof.
  unfold grow_indirect2. apply typed_seq.
  - destruct (_ =? _); [|done]. by destruct new.
  - intros [ino' new']. apply typed_seq; [|done]. apply typed_modify. intros b Hb.
    eapply typed_bind; [by apply fill_indirect2_typed|]. done.
Qed.

Lemma grow_indirect1_typed ino cur tot new : well_typed (grow_indirect1 ino cur tot new).
Proof.
  unfold grow_indirect1. apply typed_seq.
  - destruct (_ =? _); [|done]. by destruct new.
  - intros [ino' new']. apply typed_seq.
    + apply typed_modify. intros b Hb.
      apply (typed_bind (λ x, bytes x.1.1)); [|by intros [[] ]].
      apply typed_plift. intros r. by apply fill_loop_bytes.
    + intros [cur' new'']. destruct (_ <? _); [|done]. apply grow_indirect2_typed.
Qed.

Lemma increase_size_typed ino n new : well_typed (increase_size ino n new).
Proof.
  unfold increase_size. apply typed_seq; [auto with typed|]. intros [[dir cur] new'].
  destruct (_ <? _); [|done]. apply grow_indirect1_typed.
Qed.

(** Reading through [modify] and leaving the block as it is. *)
Lemma typed_modify_same {A} id (f : list Z → A) : well_typed (modify id 0 BLOCK_SZ (λ b, Ret (f b, b))).
Proof. by apply typed_modify. Qed.

#[export] Hint Resolve typed_modify_same get_block_id_typed increase_size_typed alloc_from_typed
  Bitmap_dealloc_typed : typed.

Lemma clear_full_typed es v : well_typed (clear_full es v).
Proof.
  revert v. induction es as [|e es IH]; intros v; [done|]. cbn [clear_full]. auto with typed.
Qed.

Lemma clear_size_typed ino : well_typed (clear_size ino).
Proof.
  unfold clear_size. apply typed_seq; [auto with typed|]. intros [dir v].
  destruct (_ <? _); [|done]. apply typed_seq; [auto with typed|]. clear v. intros v.
  destruct (_ <? _); [|done]. apply typed_seq; [auto with typed|]. intros _.
  apply typed_seq; [|done]. apply typed_modify. intros b Hb.
  apply typed_seq; [apply clear_full_typed|]. intros v'. apply typed_seq; [|done].
  destruct (0 <? _); [|done]. apply typed_seq; auto with typed.
Qed.

(** What is read from blocks of bytes is bytes. *)
Lemma read_loop_typed fuel ino s e sb n buf : bytes buf →
  typed (λ r, bytes r.2) (read_loop fuel ino s e sb n buf).
Proof.
  revert s sb n buf. induction fuel as [|fuel IH]; intros s sb n buf Hb; [done|].
  cbn [read_loop]. apply typed_seq; [auto with typed|]. intros _.
  apply typed_seq; [auto with typed|]. intros id.
  apply (typed_bind (λ b, bytes b)).
  - apply typed_read. intros b Hb'. apply typed_seq; [auto with typed|]. intros _. simpl. auto with typed.
  - intros buf' Hb'. destruct (_ =? _); [done|]. by apply IH.
Qed.

Lemma read_at_typed ino off buf : bytes buf → typed (λ r, bytes r.2) (read_at ino off buf).
Proof. intros Hb. unfold read_at. destruct (_ <=? _); [done|]. by apply read_loop_typed. Qed.

Lemma write_loop_typed fuel ino s e sb n buf : bytes buf →
  well_typed (write_loop fuel ino s e sb n buf).
Proof.
  intros Hb. revert s sb n. induction fuel as [|fuel IH]; intros s sb n; [done|].
  cbn [write_loop]. apply typed_seq; [auto with typed|]. intros id. apply typed_seq.
  - apply typed_modify. intros b Hb'. apply typed_seq; [auto with typed|]. intros _.
    apply typed_seq; [auto with typed|]. intros _. simpl. auto with typed.
  - intros _. destruct (_ =? _); [done|]. apply IH.
Qed.

Lemma write_at_typed ino off buf : bytes buf → well_typed (write_at ino off buf).
Proof.
  intros Hb. unfold write_at. apply typed_seq; [auto with typed|]. intros _. by apply write_loop_typed.
Qed.

(** ** The file system *)

Lemma alloc_inode_typed efs : well_typed (alloc_inode efs).
Proof. unfold alloc_inode, Bitmap_alloc. auto 8 with typed. Qed.

Lemma alloc_data_typed efs : well_typed (alloc_data efs).
Proof. unfold alloc_data, Bitmap_alloc. auto 8 with typed. Qed.

Lemma zero_block_typed id : well_typed (zero_block id).
Proof.
  apply typed_modify. intros b Hb. split; [done|]. apply Forall_fmap, Forall_true. unfold is_byte; simpl. lia.
Qed.

Lemma dealloc_data_typed efs id : well_typed (dealloc_data efs id).
Proof. unfold dealloc_data. apply typed_seq; [apply zero_block_typed|]. auto with typed. Qed.

Lemma with_inode_typed {A} (Q : A → Prop) f b : (∀ ino, typed Q (f ino)) → typed Q (with_inode f b).
Proof. intros Hf. unfold with_inode. by destruct (DiskInode_decode b). Qed.

Lemma init_inode_typed id off t : well_typed (modify id off DISK_INODE_SIZE (λ b,
  with_inode (λ ino, Ret ((), DiskInode_encode (DiskInode_initialize t ino) b)) b)).
Proof.
  apply typed_modify. intros b Hb. apply with_inode_typed. intros ino. simpl. auto with typed.
Qed.

#[export] Hint Resolve alloc_inode_typed alloc_data_typed zero_block_typed dealloc_data_typed
  init_inode_typed clear_size_typed write_at_typed : typed.

Lemma efs_create_typed total ib : well_typed (efs_create total ib).
Proof.
  unfold efs_create. apply typed_seq; [by apply typed_pfold; auto with typed|]. intros _.
  apply typed_seq; [apply typed_modify; intros b Hb; split; [done|apply bytes_concat]|]. intros _.
  apply typed_seq; [auto with typed|]. intros id. apply typed_seq; [auto with typed|]. intros _.
  destruct (get_disk_inode_pos _ _) as [rb ro]. apply typed_seq; [auto with typed|]. done.
Qed.

Lemma efs_open_typed : well_typed efs_open.
Proof. unfold efs_open. apply typed_read. intros b Hb. auto with typed. Qed.

(** ** Files and directories *)

Lemma read_disk_inode_typed {A} (Q : A → Prop) self f :
  (∀ ino, typed Q (f ino)) → typed Q (read_disk_inode self f).
Proof. intros Hf. apply typed_read. intros b Hb. by apply with_inode_typed. Qed.

Lemma modify_disk_inode_typed {A} self (f : DiskInode → prog (A * DiskInode)) :
  (∀ ino, well_typed (f ino)) → well_typed (modify_disk_inode self f).
Proof.
  intros Hf. apply typed_modify. intros b Hb. apply with_inode_typed. intros ino.
  apply typed_seq; [done|]. intros [v ino']. simpl. auto with typed.
Qed.

Lemma as_bytes_bytes e : bytes (name_bytes e) → bytes (DirEntry_as_bytes e).
Proof. intros He. apply Forall_app. auto with typed. Qed.

Lemma zeros_bytes n : bytes (replicate n 0).
Proof. apply Forall_replicate. unfold is_byte. lia. Qed.

Lemma find_loop_typed name ino idxs e : bytes (name_bytes e) → well_typed (find_loop name ino idxs e).
Proof.
  revert e. induction idxs as [|i idxs IH]; intros e He; [done|]. cbn [find_loop].
  eapply typed_bind; [by apply read_at_typed, as_bytes_bytes|]. intros [n b] Hb.
  apply typed_seq; [auto with typed|]. intros _. apply typed_seq; [auto with typed|]. intros s.
  case_bool_decide; [done|]. apply IH. cbn [name_bytes DirEntry_of_bytes]. by apply bytes_slice.
Qed.

Lemma find_inode_id_typed name ino : well_typed (find_inode_id name ino).
Proof.
  unfold find_inode_id. apply typed_seq; [auto with typed|]. intros _.
  apply find_loop_typed, zeros_bytes.
Qed.

#[export] Hint Resolve read_disk_inode_typed modify_disk_inode_typed find_inode_id_typed : typed.

Lemma find_typed self name : well_typed (find self name).
Proof.
  apply read_disk_inode_typed. intros ino. apply typed_seq; [auto with typed|].
  intros [i|]; [|done]. by destruct (get_disk_inode_pos _ _).
Qed.

Lemma alloc_blocks_typed efs n v : well_typed (alloc_blocks efs n v).
Proof. revert v. induction n as [|n IH]; intros v; [done|]. cbn [alloc_blocks]. auto with typed. Qed.

Lemma Inode_increase_size_typed self n ino : well_typed (Inode_increase_size self n ino).
Proof.
  unfold Inode_increase_size. destruct (_ <? _); [done|]. apply typed_seq; [auto with typed|]. intros k.
  apply typed_seq; [apply alloc_blocks_typed|]. auto with typed.
Qed.

#[export] Hint Resolve Inode_increase_size_typed : typed.

Lemma create_typed self name : bytes name → well_typed (create self name).
Proof.
  intros Hn. unfold create. apply typed_seq; [auto with typed|]. intros [|]; [done|].
  apply typed_seq; [auto with typed|]. intros i. destruct (get_disk_inode_pos _ _) as [bi bo].
  apply typed_seq; [auto with typed|]. intros _. apply typed_seq; [|done].
  apply modify_disk_inode_typed. intros ino. apply typed_seq; [auto with typed|]. intros ino'.
  apply (typed_bind (λ e, bytes (name_bytes e))).
  - apply typed_plift. intros e. unfold DirEntry_new. destruct (_ <=? _); [|done]. intros [= <-].
    apply bytes_splice; [done|apply (zeros_bytes (Z.to_nat (NAME_LENGTH_LIMIT + 1)))].
  - intros e He. apply typed_seq; [|done]. by apply write_at_typed, as_bytes_bytes.
Qed.

Lemma ls_typed self : well_typed (ls self).
Proof.
  apply read_disk_inode_typed. intros ino. apply typed_pfold; [|done]. intros i v _.
  apply typed_seq.
  - eapply typed_mono; [apply read_at_typed, as_bytes_bytes, zeros_bytes|done].
  - intros [n b]. auto with typed.
Qed.

Lemma Inode_read_at_typed self off buf : bytes buf → typed (λ r, bytes r.2) (Inode_read_at self off buf).
Proof. intros Hb. apply read_disk_inode_typed. intros ino. by apply read_at_typed. Qed.

Lemma Inode_write_at_typed self off buf : bytes buf → well_typed (Inode_write_at self off buf).
Proof.
  intros Hb. unfold Inode_write_at. apply typed_seq; [|done]. apply modify_disk_inode_typed.
  intros ino. auto with typed.
Qed.

Lemma clear_typed self : well_typed (clear self).
Proof.
  unfold clear. apply typed_seq; [|done]. apply modify_disk_inode_typed. intros ino.
  apply typed_seq; [auto with typed|]. intros [l ino']. apply typed_seq; [auto with typed|]. intros _.
  apply typed_seq; [|done]. apply typed_pfold; [|done]. intros x _ _. auto with typed.
Qed.

Lemma easy_fs_pack_typed apps : Forall (λ a, bytes a.1 ∧ bytes a.2) apps →
  well_typed (easy_fs_pack apps).
Proof.
  intros Ha. unfold easy_fs_pack. apply typed_seq; [apply efs_create_typed|]. intros efs.
  apply typed_seq; [|intros _; apply ls_typed]. unfold pack_apps.
  induction Ha as [|[app data] apps [H1 H2] _ IH]; [done|]. cbn [pfold].
  apply typed_seq; [|by intros []]. apply typed_seq; [by apply create_typed|]. intros o.
  apply typed_seq; [auto with typed|]. intros ino. apply typed_seq; [by apply Inode_write_at_typed|done].
Qed.

(** ** What it means for a run *)

(** The blocks of a disk are bytes. *)
Definition disk_bytes (d : gmap Z (list Z)) : Prop := ∀ id b, d !! id = Some b → bytes b.

Lemma typed_run {A} (Q : A → Prop) (p : prog A) h d a h' d' :
  typed Q p → run p h d = Ok (a, h', d') → disk_bytes d → disk_bytes d' ∧ Q a.
Proof.
  revert h d. induction p as [x|e|id k IH|id off v k IH|id k IH|k IH]; intros h d Ht Hrun Hd; cbn [run] in Hrun.
  - by injection Hrun as <- _ <-.
  - done.
  - case_bool_decide; [|done]. case_bool_decide; [done|]. destruct (_ <=? _); [done|].
    destruct (d !! id) as [b|] eqn:Hb; [|done]. eapply IH; [apply Ht; by eapply Hd|done..].
  - destruct (d !! id) as [b|] eqn:Hb; [|done]. destruct (_ && _); [|done]. destruct Ht as [Hv Ht].
    eapply IH; [done..|]. intros i c [[_ <-]|[_ Hc]]%lookup_insert_Some; [|by eapply Hd].
    apply bytes_splice; [done|by eapply Hd].
  - case_bool_decide; [|done]. by eapply IH.
  - destruct h; [|done]. by eapply IH.
Qed.
