(* ===== verification/CacheDriver.v ===== *)
(** * CacheDriver: the block cache over a driver with state

    [BlockCache] sees a device as a value; a driver is code that changes the state
    of the hardware, on reads as well.  Here the cache runs over such a driver
    ([BlockDriver]), and a driver that keeps the hardware in a relation to a
    device value ([DriverLaws]) makes it behave as over that device. *)

From stdpp Require Import base gmap list numbers.
From S2P Require Import Prelude Bytes BlockIO BlockCache FsTyped.

(** The fuel bounds the loops that wait for the hardware. *)
Class BlockDriver (T : Type) := {
  drv_read : nat → Z → M T (list Z);
  drv_write : nat → Z → list Z → M T () }.

(** ** The cache over a driver (block_cache.rs) *)

Section driver.
Context {T : Type} `{!BlockDriver T}.
Context (fuel : nat).
Implicit Types s : cache_state T.

(** [BlockCache::new], [sync] and [drop]. *)
Definition drv_new (id : Z) : M T BlockCache := b ← drv_read fuel id; mret (mkBlockCache b id false).

Definition drv_sync (c : BlockCache) : M T BlockCache :=
  if modified c then
    drv_write fuel (block_id c) (cache c) ;;
    mret (mkBlockCache (cache c) (block_id c) false)
  else mret c.

Definition drv_evict (q : list (Z * CacheArc)) : M T (list (Z * CacheArc)) :=
  idx ← unwrap (find_index (λ p, bool_decide (strong_count p.2 = 1%nat)) q);
  p ← unwrap (q !! idx);
  _ ← drv_sync (inner p.2);
  mret (delete idx q).

Definition drv_get_block_cache (id : Z) (q : list (Z * CacheArc)) : M T (list (Z * CacheArc)) :=
  match find_index (λ p, p.1 =? id) q with
  | Some _ => mret (q_alter id arc_clone q)
  | None =>
      q ← (if Z.of_nat (length q) =? BLOCK_CACHE_SIZE then drv_evict q else mret q);
      c ← drv_new id;
      mret (q ++ [(id, mkCacheArc 2 false c)])
  end.

Fixpoint drv_sync_queue (q : list (Z * CacheArc)) : M T (list (Z * CacheArc)) :=
  match q with
  | [] => mret []
  | (id, a) :: q =>
      if locked a then halt Deadlocked
      else
        c ← drv_sync (inner a);
        q ← drv_sync_queue q;
        mret ((id, mkCacheArc (strong_count a) (locked a) c) :: q)
  end.

(** A program; the state is that of the driver, with the queue of the cache. *)
Fixpoint drv_exec {A} (p : prog A) (s : cache_state T) : res (A * cache_state T) :=
  match p with
  | Ret a => Ok (a, s)
  | Halt e => Stop e
  | Lock id k =>
      drv_get_block_cache id (queue s) (device s) ≫= λ '(q, t),
      mutex_lock id (mkCacheState t q) ≫= λ '(b, s), drv_exec (k b) s
  | Store id off v k =>
      drv_exec k (mkCacheState (device s) (q_alter id (arc_write off v) (queue s)))
  | Unlock id k => drv_exec k (guard_drop id s)
  | SyncAll k =>
      drv_sync_queue (queue s) (device s) ≫= λ '(q, t), drv_exec k (mkCacheState t q)
  end.
End driver.

(** ** What a driver promises *)

(** [P] holds for all fuel from some point on. *)
Definition enough (P : nat → Prop) : Prop := ∃ N, ∀ fuel, (N ≤ fuel)%nat → P fuel.

Lemma enough_all (P : nat → Prop) : (∀ n, P n) → enough P.
Proof. intros H. by exists O. Qed.

Lemma enough_mono (P Q : nat → Prop) : enough P → (∀ n, P n → Q n) → enough Q.
Proof. intros [N HP] H. exists N. auto. Qed.

Lemma enough_mono2 (P Q R : nat → Prop) : enough P → enough Q → (∀ n, P n → Q n → R n) → enough R.
Proof. intros [N HP] [M HQ] H. exists (N + M)%nat. intros n Hn. apply H; [apply HP|apply HQ]; lia. Qed.

Class DriverLaws (T D : Type) `{!BlockDriver T} `{!BlockDevice D} := {
  drv_rel : D → T → Prop;
  drv_read_ok d t id b : drv_rel d t → ok_id id → read_block d id = Some b →
    bytes b ∧ ∃ t', enough (λ n, drv_read n id t = Ok (b, t')) ∧ drv_rel d t';
  drv_write_ok d t id b d' : drv_rel d t → ok_id id → length b = Z.to_nat BLOCK_SZ → bytes b →
    is_Some (read_block d id) → write_block d id b = Some d' →
    ∃ t', enough (λ n, drv_write n id b t = Ok ((), t')) ∧ drv_rel d' t' }.

Section simulation.
Context {T D : Type} `{!BlockDriver T} `{!BlockDevice D} `{!DriverLaws T D}.
Implicit Types t : T.
Implicit Types dev : D.

(** The entries of a queue hold bytes. *)
Definition queue_bytes (q : list (Z * CacheArc)) : Prop :=
  ∀ id a, (id, a) ∈ q → bytes (cache (inner a)).

Lemma drv_sync_sim c dev c' dev' t : BlockCache_sync c dev = Ok (c', dev') → drv_rel dev t →
  ok_id (block_id c) → length (cache c) = Z.to_nat BLOCK_SZ → bytes (cache c) →
  is_Some (read_block dev (block_id c)) →
  ∃ t', enough (λ n, drv_sync n c t = Ok (c', t')) ∧ drv_rel dev' t' ∧ cache c' = cache c.
Proof.
  intros Hs Hr Hid Hl Hb Hon. unfold BlockCache_sync in Hs. unfold drv_sync.
  destruct (modified c); [|injection Hs as <- <-; exists t; by split; [apply enough_all|]].
  destruct (write_block dev (block_id c) (cache c)) as [d1|] eqn:Hw; [|done].
  injection Hs as <- <-. destruct (drv_write_ok _ _ _ _ _ Hr Hid Hl Hb Hon Hw) as (t' & H & Hr').
  exists t'. split; [|done]. apply (enough_mono _ _ H). intros n Hn. by run Hn.
Qed.

(** An entry that the cache's invariant covers is written back. *)
Lemma drv_sync_slot dev h id a c' dev' t : slot_ok dev h id a → bytes (cache (inner a)) →
  BlockCache_sync (inner a) dev = Ok (c', dev') → drv_rel dev t →
  ∃ t', enough (λ n, drv_sync n (inner a) t = Ok (c', t')) ∧ drv_rel dev' t' ∧ cache c' = cache (inner a).
Proof.
  intros [Hok Hbid Hlen _ _ Hon _] Hb Hs Hr.
  apply (drv_sync_sim _ dev); rewrite ?Hbid; done.
Qed.

Lemma drv_evict_sim s h d t s' : cache_inv s h d → queue_bytes (queue s) → drv_rel (device s) t →
  evict s = Ok s' →
  ∃ t', enough (λ n, drv_evict n (queue s) t = Ok (queue s', t')) ∧ drv_rel (device s') t' ∧ queue_bytes (queue s').
Proof.
  intros Hinv Hb Hr He. unfold evict in He. unfold drv_evict.
  destruct (find_index _ _) as [idx|]; [|done].
  destruct (queue s !! idx) as [[id a]|] eqn:Hq; [|done].
  unfold BlockCache_drop in He. cbn [snd] in *.
  destruct (BlockCache_sync (inner a) (device s)) as [[c' dev']|] eqn:Hs; [|done].
  injection He as <-. pose proof (list_elem_of_lookup_2 _ _ _ Hq) as Hin.
  destruct (drv_sync_slot (device s) h id a c' dev' t) as (t' & H & Hr' & _);
    [by apply (inv_slots _ _ _ Hinv)|by apply (Hb id)|done..|].
  exists t'. split.
  { apply (enough_mono _ _ H). intros n Hn. rewrite M_unwrap_bind, Hq, M_unwrap_bind. cbn [snd]. by run Hn. }
  split; [done|]. cbn [queue]. intros i x Hx.
  apply (Hb i). apply (elem_of_submseteq _ _ _ Hx), sublist_submseteq, sublist_delete.
Qed.

Lemma drv_get_sim s h d id t s' : cache_inv s h d → queue_bytes (queue s) → drv_rel (device s) t →
  ok_id id → get_block_cache id s = Ok s' →
  ∃ t', enough (λ n, drv_get_block_cache n id (queue s) t = Ok (queue s', t')) ∧ drv_rel (device s') t' ∧
    queue_bytes (queue s').
Proof.
  intros Hinv Hb Hr Hid Hg. unfold get_block_cache in Hg. unfold drv_get_block_cache.
  destruct (find_index _ _).
  { injection Hg as <-. exists t. split; [by apply enough_all|]. split; [done|]. cbn [queue].
    intros i a (a0 & Ha & ->)%elem_of_q_alter. specialize (Hb i a0 Ha). by destruct (i =? id). }
  assert (Hev : ∀ s1, (if Z.of_nat (length (queue s)) =? BLOCK_CACHE_SIZE then evict s else Ok s) = Ok s1 →
    ∃ t1, enough (λ n, (if Z.of_nat (length (queue s)) =? BLOCK_CACHE_SIZE then drv_evict n (queue s)
        else mret (queue s)) t = Ok (queue s1, t1)) ∧ drv_rel (device s1) t1 ∧ queue_bytes (queue s1)).
  { intros s1 H1. destruct (_ =? _); [by apply (drv_evict_sim s h d)|]. injection H1 as <-.
    exists t. by split; [apply enough_all|]. }
  destruct (if _ =? _ then evict s else Ok s) as [s1|]; [|done].
  destruct (Hev s1 eq_refl) as (t1 & H1 & Hr1 & Hb1). cbn [mbind res_bind] in Hg.
  unfold BlockCache_new in Hg. destruct (read_block (device s1) id) as [b|] eqn:Hrd; [|done].
  injection Hg as <-. destruct (drv_read_ok _ _ _ _ Hr1 Hid Hrd) as (Hbb & t2 & H2 & Hr2).
  exists t2. split.
  { apply (enough_mono2 _ _ _ H1 H2). intros n Hn1 Hn2. run Hn1. unfold drv_new. rewrite M_bind_assoc. by run Hn2. }
  split; [done|].
  cbn [queue]. intros i a [Ha|Ha]%elem_of_app; [by apply (Hb1 i)|].
  apply list_elem_of_singleton in Ha. injection Ha as -> ->. exact Hbb.
Qed.

(** The lock does not touch the device. *)
Lemma mutex_lock_sim id q dev t b s : mutex_lock id (mkCacheState dev q) = Ok (b, s) →
  mutex_lock id (mkCacheState t q) = Ok (b, mkCacheState t (queue s)) ∧ device s = dev ∧
  ∃ a, (id, a) ∈ q ∧ cache (inner a) = b ∧ queue s = q_alter id (arc_set_locked true) q.
Proof.
  unfold mutex_lock. cbn [queue device]. destruct (find_index _ _) as [i|] eqn:Hi; [|done]. cbn.
  apply find_id_Some in Hi as (a & Hi & Ha). rewrite Hi. destruct (locked _); [done|].
  intros [= <- <-]. split; [done|]. split; [done|]. by exists a.
Qed.

Context `{!BlockDeviceLaws D}.

Lemma drv_sync_queue_sim q dev q' dev' t : sync_queue q dev = Ok (q', dev') → drv_rel dev t →
  queue_bytes q → NoDup q.*1 → (∀ id a, (id, a) ∈ q → slot_ok dev [] id a) →
  ∃ t', enough (λ n, drv_sync_queue n q t = Ok (q', t')) ∧ drv_rel dev' t' ∧ queue_bytes q'.
Proof.
  revert dev q' t. induction q as [|[id a] q IH]; intros dev q' t Hs Hr Hb Hnd Hok.
  { injection Hs as <- <-. exists t. split; [by apply enough_all|]. split; [done|]. intros i x. set_solver. }
  cbn [sync_queue drv_sync_queue] in *. destruct (locked a); [done|].
  rewrite fmap_cons, list.NoDup_cons in Hnd. destruct Hnd as [Hid Hnd]. cbn [fst] in Hid.
  assert (Ha : slot_ok dev [] id a) by (apply Hok; by left).
  pose proof Ha as [Hi Hbid Hlen _ _ Hon Hcl].
  destruct (sync_spec dev [] (inner a) id) as (dev1 & Hsy & _ & Hne); [done..|].
  rewrite Hsy in Hs. cbn [mbind res_bind] in Hs.
  destruct (sync_queue q dev1) as [[q1 dev2]|] eqn:Hq; [|done]. injection Hs as <- <-.
  destruct (drv_sync_slot dev [] id a _ dev1 t Ha (Hb id a ltac:(by left)) Hsy Hr) as (t1 & H1 & Hr1 & Hc1).
  destruct (IH dev1 q1 t1 Hq Hr1) as (t2 & H2 & Hr2 & Hb2); [|done| |].
  - intros i x Hx. apply (Hb i). by right.
  - intros i x Hx. apply (slot_ok_dev dev); [apply Hok; by right|].
    apply Hne; [apply (Hok i x); by right|]. intros ->. apply Hid, elem_of_ids. eauto.
  - exists t2. split.
    { apply (enough_mono2 _ _ _ H1 H2). intros n Hn1 Hn2. run Hn1. by run Hn2. }
    split; [done|].
    intros i x [[= -> ->]|Hx]%elem_of_cons; [|by apply (Hb2 i)]. cbn. apply (Hb id a). by left.
Qed.

(** ** The simulation *)

(** The driver has run the cache to the state [s]. *)
Definition driven (s : cache_state D) (st : cache_state T) : Prop :=
  queue st = queue s ∧ drv_rel (device s) (device st) ∧ queue_bytes (queue s).

Lemma driven_lock s h d id b s' st : cache_inv s h d → driven s st → ok_id id →
  get_block_cache id s ≫= mutex_lock id = Ok (b, s') →
  bytes b ∧ ∃ st', driven s' st' ∧
    enough (λ n, ∀ A (k : list Z → prog A), drv_exec n (Lock id k) st = drv_exec n (k b) st').
Proof.
  intros Hinv (Hq & Hr & Hb) Hid Hl. destruct (get_block_cache id s) as [s1|] eqn:Hg; [|done].
  destruct (drv_get_sim s h d id _ s1 Hinv Hb Hr Hid Hg) as (t1 & H1 & Hr1 & Hb1).
  cbn [mbind res_bind] in Hl. destruct s1 as [dev1 q1]. cbn [queue device] in *.
  destruct (mutex_lock_sim id q1 dev1 t1 b s' Hl) as (H2 & Hd & a & Ha & Hab & Hq').
  assert (Hbb : bytes b) by (rewrite <- Hab; by apply (Hb1 id)). split; [done|].
  exists (mkCacheState t1 (queue s')). split.
  - split; [done|]. split; [cbn [device]; by rewrite Hd|]. rewrite Hq'.
    intros i x (x0 & Hx & ->)%elem_of_q_alter. specialize (Hb1 i x0 Hx). by destruct (i =? id).
  - apply (enough_mono _ _ H1). intros n Hn A k. cbn [drv_exec]. rewrite Hq, Hn. cbn [mbind res_bind]. by rewrite H2.
Qed.

Lemma driven_alter s st id f : driven s st →
  (∀ a, bytes (cache (inner a)) → bytes (cache (inner (f a)))) →
  driven (mkCacheState (device s) (q_alter id f (queue s)))
    (mkCacheState (device st) (q_alter id f (queue st))).
Proof.
  intros (Hq & Hr & Hb) Hf. split; [cbn [queue]; by rewrite Hq|]. split; [done|]. cbn [queue].
  intros i x (x0 & Hx & ->)%elem_of_q_alter. specialize (Hb i x0 Hx). destruct (i =? id); auto.
Qed.

(** A typed program that runs on the plain disk runs on the cache over the driver,
    with the same result, and the hardware stands for the new disk. *)
Lemma drv_exec_run {A} (Q : A → Prop) (p : prog A) s h d st a h' d' :
  cache_inv s h d → driven s st → typed Q p → run p h d = Ok (a, h', d') →
  ∃ s' st', enough (λ n, drv_exec n p st = Ok (a, st')) ∧ exec p s = Ok (a, s') ∧
    cache_inv s' h' d' ∧ driven s' st' ∧ Q a.
Proof.
  revert s h d st. induction p as [x|e|id k IH|id off v k IH|id k IH|k IH];
    intros s h d st Hinv Hdr Ht Hrun.
  - injection Hrun as <- <- <-. exists s, st. by split; [apply enough_all|].
  - done.
  - pose proof (exec_run (Lock id Ret) s h d Hinv) as Hl. cbn [run exec] in Hrun, Hl.
    case_bool_decide as Hid; [|done]. case_bool_decide; [done|]. destruct (_ <=? _); [done|].
    destruct (d !! id) as [b|]; [|done]. destruct Hl as (s1 & Hl & Hinv1).
    assert (Hl' : get_block_cache id s ≫= mutex_lock id = Ok (b, s1)).
    { destruct (get_block_cache id s) as [s0|]; [|done]. cbn in Hl |- *.
      destruct (mutex_lock id s0) as [[b0 s2]|]; [|done]. done. }
    destruct (driven_lock s h d id b s1 st Hinv Hdr Hid Hl') as (Hb & st1 & Hdr1 & Hst).
    destruct (IH b s1 _ d st1 Hinv1 Hdr1 (Ht b Hb) Hrun) as (s' & st' & H1 & H2 & H3).
    exists s', st'. split; [apply (enough_mono2 _ _ _ Hst H1); intros n -> Hn; exact Hn|].
    split; [|done]. cbn [exec].
    destruct (get_block_cache id s) as [s0|]; [|done]. cbn [mbind res_bind] in Hl' |- *.
    rewrite Hl'. exact H2.
  - cbn [run] in Hrun. destruct (d !! id) as [b|] eqn:Hd; [|done].
    case_bool_decide as Hh; [|done]. unfold store_fits in Hrun. case_bool_decide as Hl; [|done].
    destruct Ht as [Hv Ht]. cbn [andb] in Hrun.
    apply (IH (mkCacheState (device s) (q_alter id (arc_write off v) (queue s))) h
             (<[id:=splice off v b]> d)); [by apply store_step| |done|done].
    apply driven_alter; [done|]. intros x Hx. by apply bytes_splice.
  - cbn [run] in Hrun. case_bool_decide as Hh; [|done].
    apply (IH (guard_drop id s) (filter (λ i, i ≠ id) h) d); [by apply unlock_step| |done|done].
    by apply driven_alter.
  - cbn [run] in Hrun. destruct h as [|x h]; [|done].
    destruct (sync_step s d Hinv) as (q' & dev' & Hq & Hinv' & _). destruct Hdr as (Hqs & Hr & Hb).
    destruct (drv_sync_queue_sim (queue s) (device s) q' dev' (device st) Hq Hr Hb)
      as (t' & H1 & Hr' & Hb'); [apply Hinv|by apply (inv_slots _ _ _ Hinv)|].
    destruct (IH (mkCacheState dev' q') [] d (mkCacheState t' q')) as (s' & st' & H2 & H3); [done..|].
    exists s', st'. cbn [exec]. rewrite Hq. split; [|exact H3].
    apply (enough_mono2 _ _ _ H1 H2). intros n Hn1 Hn2. cbn [drv_exec]. by rewrite Hqs, Hn1.
Qed.

(** From an empty cache, with the cache synced at the end, the hardware holds the
    disk the program has built. *)
Lemma drv_exec_durable {A} (Q : A → Prop) (p : prog A) dev t d a d' :
  (∀ id, ok_id id → d !! id = read_block dev id) → drv_rel dev t →
  typed Q p → runs p [] d a d' →
  ∃ dev' t' q, enough (λ n, drv_exec n (p ≫= λ x, block_cache_sync_all ≫= λ _, Ret x)
      (mkCacheState t []) = Ok (a, mkCacheState t' q)) ∧
    drv_rel dev' t' ∧ (∀ id, ok_id id → read_block dev' id = d' !! id) ∧ Q a.
Proof.
  intros Hd Hr Ht Hrun. pose proof (cache_inv_init dev d Hd) as Hinv.
  set (p' := p ≫= λ x, block_cache_sync_all ≫= λ _, Ret x).
  assert (Hrun' : run p' [] d = Ok (a, [], d')) by (unfold p'; by rewrite run_bind, Hrun).
  assert (Ht' : typed Q p') by (apply (typed_bind Q); auto).
  destruct (drv_exec_run Q p' (mkCacheState dev []) [] d (mkCacheState t []) a [] d' Hinv)
    as (s' & st' & Hst & Hs & _ & (Hq & Hr' & _) & Ha); [|done|done|].
  { split; [done|]. split; [done|]. intros i x Hx. by apply elem_of_nil in Hx. }
  pose proof (exec_run p _ _ _ Hinv) as H. rewrite Hrun in H.
  destruct H as (s1 & Hs1 & Hinv1). destruct (sync_step s1 d' Hinv1) as (q & dev' & Hsq & _ & Hdev).
  assert (Hs' : exec p' (mkCacheState dev []) = Ok (a, mkCacheState dev' q))
    by (unfold p'; rewrite exec_bind, Hs1; cbn; by rewrite Hsq).
  rewrite Hs' in Hs. injection Hs as <-. destruct st' as [t' q']. by exists dev', t', q'.
Qed.
End simulation.
