(* ===== verification/Address.v ===== *)
(** * Address: addresses and page numbers (os/src/memory/address.rs, os/src/config.rs)

    Physical and virtual addresses and page numbers of SV39 are usize values;
    each tuple struct is a [Z] here.  Conversions between an address and a page
    number that assert alignment return an outcome. *)

From stdpp Require Import base list numbers.
From S2P Require Import Prelude.

(** ** Configuration *)
Definition USER_STACK_SIZE : Z := 4096 * 2.
Definition KERNEL_STACK_SIZE : Z := 4096 * 2.
Definition MEMORY_END : Z := 0x80800000.
Definition PAGE_SIZE : Z := 0x1000.
Definition PAGE_SIZE_BITS : Z := 0xc.
Definition usize_MAX : Z := 2 ^ 64 - 1.
Definition TRAMPOLINE : Z := usize_MAX - PAGE_SIZE + 1.
Definition TRAP_CONTEXT : Z := TRAMPOLINE - PAGE_SIZE.

Definition PA_WIDTH_SV39 : Z := 56.
Definition PPN_WIDTH_SV39 : Z := PA_WIDTH_SV39 - PAGE_SIZE_BITS.
Definition VA_WIDTH_SV39 : Z := 39.
Definition VPN_WIDTH_SV39 : Z := VA_WIDTH_SV39 - PAGE_SIZE_BITS.

(** ** Conversions from and to usize *)
Definition PhysAddr_from (v : Z) : Z := Z.land v (2 ^ PA_WIDTH_SV39 - 1).
Definition PhysPageNum_from (v : Z) : Z := Z.land v (2 ^ PPN_WIDTH_SV39 - 1).
Definition VirtAddr_from (v : Z) : Z := Z.land v (2 ^ VA_WIDTH_SV39 - 1).
Definition VirtPageNum_from (v : Z) : Z := Z.land v (2 ^ VPN_WIDTH_SV39 - 1).

(** ** Addresses and page numbers

    [PhysAddr] and [VirtAddr] have the same four methods. *)
Definition page_offset (a : Z) : Z := Z.land a (PAGE_SIZE - 1).
Definition floor (a : Z) : Z := a / PAGE_SIZE.
Definition ceil (a : Z) : Z := (a -u 1 +u PAGE_SIZE) / PAGE_SIZE.
Definition aligned (a : Z) : bool := page_offset a =? 0.

(** [From<PhysAddr> for PhysPageNum] and [From<VirtAddr> for VirtPageNum]. *)
Definition page_num_of_addr (a : Z) : res Z :=
  assert_res (page_offset a =? 0) ≫= λ _, Ok (floor a).

(** [From<PhysPageNum> for PhysAddr] and [From<VirtPageNum> for VirtAddr]. *)
Definition addr_of_page_num (p : Z) : Z := p <<u PAGE_SIZE_BITS.

(** [VirtPageNum::indexes]: the loop runs over i = 2, 1, 0. *)
Definition indexes_step (s : Z * list Z) (i : nat) : Z * list Z :=
  let '(vpn, idx) := s in (Z.shiftr vpn 9, <[i := Z.land vpn 511]> idx).
Definition indexes (vpn : Z) : list Z :=
  snd (foldl indexes_step (vpn, [0; 0; 0]) [2; 1; 0]%nat).

(** [StepByOne::step]. *)
Definition step (p : Z) : Z := p +u 1.

(** ** Ranges of page numbers *)
Record SimpleRange : Type := mkRange { range_l : Z; range_r : Z }.

Definition SimpleRange_new (start end_ : Z) : res SimpleRange :=
  assert_res (start <=? end_) ≫= λ _, Ok (mkRange start end_).
Definition get_start (r : SimpleRange) : Z := range_l r.
Definition get_end (r : SimpleRange) : Z := range_r r.

(** [SimpleRangeIterator::next]: the item and the iterator after it. *)
Definition range_next (current end_ : Z) : option (Z * Z) :=
  if current =? end_ then None else Some (current, step current).

(** What a [for] loop over the range visits. *)
Fixpoint range_iter (fuel : nat) (current end_ : Z) : res (list Z) :=
  match range_next current end_ with
  | None => Ok []
  | Some (t, current) =>
      match fuel with
      | O => Stop OutOfFuel
      | S fuel => range_iter fuel current end_ ≫= λ l, Ok (t :: l)
      end
  end.

Definition range_list (r : SimpleRange) : res (list Z) :=
  range_iter (Z.to_nat (range_r r - range_l r)) (range_l r) (range_r r).

(** ** Facts *)
Lemma page_offset_mod a : page_offset a = a mod 4096.
Proof. apply (land_ones_mod a 12). done. Qed.

Lemma addr_split a : a = 4096 * floor a + page_offset a ∧ 0 ≤ page_offset a < 4096.
Proof.
  rewrite page_offset_mod. unfold floor. change PAGE_SIZE with 4096.
  pose proof (Z.div_mod a 4096 ltac:(lia)). pose proof (Z.mod_pos_bound a 4096 ltac:(lia)). lia.
Qed.

Lemma addr_of_page_num_eq p : 0 ≤ p < 2 ^ 52 → addr_of_page_num p = 4096 * p.
Proof.
  intros Hp. unfold addr_of_page_num, ushl. change PAGE_SIZE_BITS with 12.
  rewrite Z.shiftl_mul_pow2 by done. change (2 ^ 52) with 4503599627370496 in Hp.
  rewrite wrap_small by (mach_unfold; lia). lia.
Qed.

Lemma page_num_of_addr_of_page_num p :
  0 ≤ p < 2 ^ 52 → page_num_of_addr (addr_of_page_num p) = Ok p.
Proof.
  intros Hp. rewrite addr_of_page_num_eq by done. unfold page_num_of_addr.
  rewrite page_offset_mod, Z.mul_comm, Z.mod_mul by lia. unfold floor. change PAGE_SIZE with 4096.
  cbn [assert_res]. by rewrite Z.div_mul by lia.
Qed.

(** [ceil] rounds up, also at 0, where the subtraction wraps around. *)
Lemma ceil_eq a : 0 ≤ a < 2 ^ 63 → ceil a = (a + 4095) / 4096.
Proof.
  change (2 ^ 63) with 9223372036854775808. intros Ha. unfold ceil. change PAGE_SIZE with 4096. f_equal.
  destruct (decide (a = 0)) as [->|Hne]; [done|]. mach_simpl. lia.
Qed.

Lemma ceil_bounds a : 0 ≤ a < 2 ^ 63 → a ≤ 4096 * ceil a < a + 4096.
Proof.
  intros Ha. rewrite ceil_eq by done.
  pose proof (Z.div_mod (a + 4095) 4096 ltac:(lia)). pose proof (Z.mod_pos_bound (a + 4095) 4096 ltac:(lia)).
  lia.
Qed.

Lemma floor_range a : 0 ≤ a < 2 ^ 39 → 0 ≤ floor a < 2 ^ 27.
Proof.
  intros Ha. destruct (addr_split a). change (2 ^ 39) with 549755813888 in Ha.
  change (2 ^ 27) with 134217728. lia.
Qed.

(** The three indexes, from the root level down. *)
Lemma indexes_eq vpn :
  0 ≤ vpn < 2 ^ 27 → indexes vpn = [vpn / 2 ^ 18; vpn / 2 ^ 9 mod 512; vpn mod 512].
Proof.
  intros Hv. unfold indexes. cbn [foldl indexes_step insert list_insert alter list_alter snd].
  rewrite !Z.shiftr_div_pow2, !(land_ones_mod _ 9) by done.
  rewrite Z.div_div by done. f_equal. change (2 ^ 9 * 2 ^ 9) with (2 ^ 18).
  apply Z.mod_small. split; [apply Z.div_pos; lia|]. apply Z.div_lt_upper_bound; [done|].
  change (2 ^ 18 * 2 ^ 9) with (2 ^ 27). lia.
Qed.

Lemma range_iter_seqZ n : ∀ cur,
  0 ≤ cur → cur + Z.of_nat n < 2 ^ 64 →
  range_iter n cur (cur + Z.of_nat n) = Ok (seqZ cur (Z.of_nat n)).
Proof.
  induction n as [|n IH]; intros cur Hc Hn; cbn [range_iter]; unfold range_next.
  { replace (cur + Z.of_nat 0) with cur by lia. by rewrite Z.eqb_refl. }
  destruct (Z.eqb_spec cur (cur + Z.of_nat (S n))); [lia|]. unfold step.
  rewrite uadd_small by (mach_unfold; lia).
  replace (cur + Z.of_nat (S n)) with (cur + 1 + Z.of_nat n) by lia.
  rewrite IH by lia. rewrite (seqZ_cons cur) by lia.
  by replace (Z.pred (Z.of_nat (S n))) with (Z.of_nat n) by lia.
Qed.

(** A loop over a range visits every page number once, in order. *)
Lemma range_list_seqZ l r :
  0 ≤ l ≤ r → r < 2 ^ 64 → range_list (mkRange l r) = Ok (seqZ l (r - l)).
Proof.
  intros Hl Hr. unfold range_list. cbn [range_l range_r].
  pose proof (range_iter_seqZ (Z.to_nat (r - l)) l ltac:(lia) ltac:(lia)) as H.
  rewrite Z2Nat.id in H by lia. by replace (l + (r - l)) with r in H by lia.
Qed.
