(* ===== verification/FrameAllocator.v ===== *)
(** * FrameAllocator: physical memory and its frames
    (os/src/memory/frame_allocator.rs, os/src/memory/address.rs)

    The kernel reaches physical memory through its identity mapping: a pointer
    made from a physical address reads or writes the frame with that number.
    [ram] holds the frames that exist, 4096 bytes each; an access to any other
    physical address stops the run with [Faulted].  The allocator is a stack of
    recycled frames over a range of frames never handed out. *)

From stdpp Require Import base gmap list numbers.
From S2P Require Import Prelude Bytes Address.

(** ** The allocator *)
Record StackFrameAllocator : Type := mkSFA {
  current : Z;
  end_ : Z;
  (* the last element of the Vec comes first *)
  recycled : list Z;
}.

Definition SFA_new : StackFrameAllocator := mkSFA 0 0 [].

Definition SFA_init (l r : Z) (a : StackFrameAllocator) : StackFrameAllocator :=
  mkSFA l r (recycled a).

Definition SFA_alloc (a : StackFrameAllocator) : option Z * StackFrameAllocator :=
  match recycled a with
  | ppn :: rest => (Some (PhysPageNum_from ppn), mkSFA (current a) (end_ a) rest)
  | [] =>
      if current a =? end_ a then (None, a)
      else
        let a := mkSFA (current a +u 1) (end_ a) [] in
        (Some (PhysPageNum_from (current a -u 1)), a)
  end.

Definition SFA_dealloc (ppn : Z) (a : StackFrameAllocator) : res StackFrameAllocator :=
  if (current a <=? ppn) || bool_decide (ppn ∈ recycled a) then Stop Panicked
  else Ok (mkSFA (current a) (end_ a) (ppn :: recycled a)).

(** ** Memory *)
Record mem : Type := mkMem {
  ram : gmap Z (list Z);
  falloc : StackFrameAllocator;
}.

Definition set_ram (r : gmap Z (list Z)) (m : mem) : mem := mkMem r (falloc m).

(** [PhysPageNum::get_bytes_array]: the bytes of the frame. *)
Definition get_bytes_array (ppn : Z) : M mem (list Z) := λ m,
  match ram m !! floor (addr_of_page_num ppn) with
  | Some b => Ok (b, m)
  | None => Stop Faulted
  end.

(** A store through that reference. *)
Definition put_bytes_array (ppn : Z) (b : list Z) : M mem () := λ m,
  match ram m !! floor (addr_of_page_num ppn) with
  | Some _ => Ok ((), set_ram (<[floor (addr_of_page_num ppn) := b]> (ram m)) m)
  | None => Stop Faulted
  end.

(** [FrameTracker::new]: the frame's bytes are zeroed; the tracker is the
    frame's number, and whoever holds it owns the frame. *)
Definition FrameTracker_new (ppn : Z) : M mem Z :=
  get_bytes_array ppn ≫= λ b,
  put_bytes_array ppn ((λ _, 0) <$> b) ≫= λ _,
  mret ppn.

Definition frame_alloc : M mem (option Z) := λ m,
  let '(o, a) := SFA_alloc (falloc m) in
  match o with
  | None => Ok (None, mkMem (ram m) a)
  | Some ppn => (FrameTracker_new ppn ≫= λ f, mret (Some f)) (mkMem (ram m) a)
  end.

Definition frame_dealloc (ppn : Z) : M mem () := λ m,
  match SFA_dealloc ppn (falloc m) with
  | Ok a => Ok ((), mkMem (ram m) a)
  | Stop e => Stop e
  end.

(** Dropping a vector of trackers drops them in order. *)
Definition drop_frames (l : list Z) : M mem () := for_each l frame_dealloc.

(** [init_frame_allocator]; [ekernel] is the address of the end of the kernel
    image, a symbol of the linker script. *)
Definition init_frame_allocator (ekernel : Z) : M mem () := λ m,
  Ok ((), mkMem (ram m)
    (SFA_init (ceil (PhysAddr_from ekernel)) (floor (PhysAddr_from MEMORY_END)) (falloc m))).

(** [frame_allocator_test]. *)
Fixpoint alloc_n (n : nat) (v : list Z) : M mem (list Z) :=
  match n with
  | O => mret v
  | S n => frame_alloc ≫= λ o, unwrap o ≫= λ f, alloc_n n (v ++ [f])
  end.
Definition frame_allocator_test : M mem () :=
  alloc_n 5 [] ≫= λ v,
  drop_frames v ≫= λ _,
  alloc_n 5 [] ≫= λ v,
  drop_frames v.

(** ** What the allocator promises

    [fa_inv a lo U]: the frames of [lo, end) that are in use are exactly [U]. *)
Record fa_inv (a : StackFrameAllocator) (lo : Z) (U : gset Z) : Prop := {
  fa_range : 0 ≤ lo ≤ current a ∧ current a ≤ end_ a < 2 ^ 44;
  fa_nodup : NoDup (recycled a);
  fa_recycled x : x ∈ recycled a → lo ≤ x < current a;
  fa_used x : x ∈ U ↔ lo ≤ x < current a ∧ x ∉ recycled a;
}.

Lemma PhysPageNum_from_id p : 0 ≤ p < 2 ^ 44 → PhysPageNum_from p = p.
Proof.
  intros Hp. unfold PhysPageNum_from. change PPN_WIDTH_SV39 with 44.
  rewrite land_ones_mod by done. by apply Z.mod_small.
Qed.

(** [alloc] hands out a frame that is not in use, and fails only when every
    frame is. *)
Lemma SFA_alloc_spec a lo U :
  fa_inv a lo U →
  match SFA_alloc a with
  | (Some p, a') => lo ≤ p < end_ a ∧ p ∉ U ∧ fa_inv a' lo ({[p]} ∪ U) ∧ end_ a' = end_ a
  | (None, a') => a' = a ∧ ∀ x, lo ≤ x < end_ a → x ∈ U
  end.
Proof.
  change (2 ^ 44) with 17592186044416. intros [Hr Hnd Hrec Hu]. unfold SFA_alloc.
  destruct (recycled a) as [|p rest] eqn:Hreq.
  - destruct (Z.eqb_spec (current a) (end_ a)) as [Heq|Hne].
    + split; [done|]. intros x Hx. apply Hu. split; [lia|apply not_elem_of_nil].
    + cbn [current]. assert (current a +u 1 -u 1 = current a) as -> by mach.
      assert (current a +u 1 = current a + 1) as -> by mach.
      rewrite PhysPageNum_from_id by (change (2 ^ 44) with 17592186044416; lia).
      split_and!; [lia|lia|rewrite Hu; lia| |done].
      split; cbn [current end_ recycled]; [change (2 ^ 44) with 17592186044416; lia|constructor| |].
      * by intros x ?%elem_of_nil.
      * intros x. rewrite elem_of_union, elem_of_singleton, Hu. split.
        -- intros [->|[? ?]]; (split; [lia|apply not_elem_of_nil]).
        -- intros [? ?]. destruct (decide (x = current a)); [by left|].
           right. split; [lia|apply not_elem_of_nil].
  - assert (lo ≤ p < current a) as Hp by (apply Hrec; elt).
    rewrite PhysPageNum_from_id by (change (2 ^ 44) with 17592186044416; lia).
    apply list.NoDup_cons in Hnd as [Hpr Hnd].
    split_and!; [lia|lia|rewrite Hu; intros [_ []]; elt| |done].
    split; cbn [current end_ recycled]; [change (2 ^ 44) with 17592186044416; lia|done| |].
    + intros x Hx. apply Hrec. elt.
    + intros x. rewrite elem_of_union, elem_of_singleton, Hu, elem_of_cons.
      destruct (decide (x = p)) as [->|]; [tauto|tauto].
Qed.

(** [dealloc] takes back exactly the frames that are in use; anything else in
    the range is a panic. *)
Lemma SFA_dealloc_spec a lo U p :
  fa_inv a lo U → lo ≤ p →
  if decide (p ∈ U) then
    ∃ a', SFA_dealloc p a = Ok a' ∧ fa_inv a' lo (U ∖ {[p]}) ∧ end_ a' = end_ a ∧
      SFA_alloc a' = (Some p, a)
  else SFA_dealloc p a = Stop Panicked.
Proof.
  change (2 ^ 44) with 17592186044416. intros [Hr Hnd Hrec Hu] Hlo. unfold SFA_dealloc.
  case_decide as Hp.
  - apply Hu in Hp as [Hp1 Hp2]. destruct (Z.leb_spec (current a) p); [lia|].
    rewrite bool_decide_eq_false_2 by done. cbn [orb]. eexists. split; [done|].
    split_and!; [|done|].
    + split; cbn [current end_ recycled]; [done|by apply list.NoDup_cons| |].
      * intros x [->|Hx]%elem_of_cons; [done|by apply Hrec].
      * intros x. rewrite elem_of_difference, elem_of_singleton, Hu, elem_of_cons. tauto.
    + unfold SFA_alloc. cbn [recycled current end_].
      rewrite PhysPageNum_from_id by (change (2 ^ 44) with 17592186044416 in *; lia). by destruct a.
  - destruct (Z.leb_spec (current a) p); [done|].
    rewrite bool_decide_eq_true_2; [done|]. destruct (decide (p ∈ recycled a)); [done|].
    destruct Hp. by apply Hu.
Qed.

(** A frame below the range passes both checks of [dealloc], and is handed out by
    the next [alloc]. *)
Lemma SFA_dealloc_below a lo U p :
  fa_inv a lo U → 0 ≤ p < lo → ∃ a', SFA_dealloc p a = Ok a' ∧ SFA_alloc a' = (Some p, a).
Proof.
  intros [Hr Hnd Hrec Hu] Hp. unfold SFA_dealloc. destruct (Z.leb_spec (current a) p); [lia|].
  rewrite bool_decide_eq_false_2 by (intros Hin%Hrec; lia). cbn [orb]. eexists. split; [done|].
  unfold SFA_alloc. cbn [recycled current end_]. rewrite PhysPageNum_from_id by lia. by destruct a.
Qed.

(** ** Memory with its allocator *)
Definition zero_frame : list Z := replicate (Z.to_nat PAGE_SIZE) 0.

Definition frame_ok (b : list Z) : Prop := length b = Z.to_nat PAGE_SIZE ∧ Forall is_byte b.

(** Every frame that exists has 4096 bytes, the allocator's frames exist, and
    [U] are the frames in use.  [free_frames] are left. *)
Record mem_ok (m : mem) (lo : Z) (U : gset Z) : Prop := {
  mo_alloc : fa_inv (falloc m) lo U;
  mo_frame x b : ram m !! x = Some b → frame_ok b;
  mo_ram x : lo ≤ x < end_ (falloc m) → is_Some (ram m !! x);
}.

Definition free_frames (m : mem) (lo : Z) (U : gset Z) : Z :=
  end_ (falloc m) - lo - Z.of_nat (size U).

Lemma frame_index p : 0 ≤ p < 2 ^ 52 → floor (addr_of_page_num p) = p.
Proof.
  intros Hp. rewrite addr_of_page_num_eq by done. unfold floor. change PAGE_SIZE with 4096.
  by rewrite Z.mul_comm, Z.div_mul by lia.
Qed.

Lemma zero_frame_ok : frame_ok zero_frame.
Proof. split; [done|]. by apply Forall_replicate. Qed.

Lemma fmap_zero (b : list Z) : length b = Z.to_nat PAGE_SIZE → (λ _, 0) <$> b = zero_frame.
Proof.
  intros Hl. unfold zero_frame. rewrite <- Hl. clear. induction b as [|x b IH]; [done|].
  cbn [fmap list_fmap length replicate]. by f_equal.
Qed.

Lemma fa_used_size a lo U : fa_inv a lo U → Z.of_nat (size U) ≤ end_ a - lo.
Proof.
  intros [Hr Hnd Hrec Hu].
  assert (U ⊆ list_to_set (seqZ lo (end_ a - lo))) as Hsub.
  { intros x [Hx _]%Hu. apply elem_of_list_to_set, elem_of_seqZ. lia. }
  apply subseteq_size in Hsub. rewrite size_list_to_set, length_seqZ in Hsub by apply NoDup_seqZ. lia.
Qed.

Lemma free_frames_pos m lo U : mem_ok m lo U → 0 ≤ free_frames m lo U.
Proof.
  intros [Hfa _ _]. apply fa_used_size in Hfa. unfold free_frames. lia.
Qed.

(** A frame access inside [ram]. *)
Lemma get_bytes_run m p b :
  0 ≤ p < 2 ^ 52 → ram m !! p = Some b → get_bytes_array p m = Ok (b, m).
Proof. intros Hp Hb. unfold get_bytes_array. by rewrite frame_index, Hb. Qed.

Lemma put_bytes_run m p b b' :
  0 ≤ p < 2 ^ 52 → ram m !! p = Some b →
  put_bytes_array p b' m = Ok ((), set_ram (<[p := b']> (ram m)) m).
Proof. intros Hp Hb. unfold put_bytes_array. by rewrite frame_index, Hb. Qed.

Lemma frame_alloc_spec m lo U :
  mem_ok m lo U → 0 < free_frames m lo U →
  ∃ p m', frame_alloc m = Ok (Some p, m') ∧ lo ≤ p < end_ (falloc m) ∧ p ∉ U ∧
    mem_ok m' lo ({[p]} ∪ U) ∧ free_frames m' lo ({[p]} ∪ U) = free_frames m lo U - 1 ∧
    ram m' = <[p := zero_frame]> (ram m).
Proof.
  intros [Hfa Hfr Hram] Hfree. pose proof (SFA_alloc_spec _ _ _ Hfa) as Hspec.
  unfold frame_alloc. destruct (SFA_alloc (falloc m)) as [[p|] a'] eqn:Hal.
  2:{ exfalso. destruct Hspec as [_ Hall]. unfold free_frames in Hfree.
    assert (list_to_set (seqZ lo (end_ (falloc m) - lo)) ⊆ U) as Hsub.
    { intros x Hx%elem_of_list_to_set%elem_of_seqZ. apply Hall. lia. }
    apply subseteq_size in Hsub. rewrite size_list_to_set, length_seqZ in Hsub by apply NoDup_seqZ. lia. }
  destruct Hspec as (Hp & HpU & Hfa' & Hend). destruct (Hram p Hp) as [b Hb].
  pose proof (fa_range _ _ _ Hfa) as Hrng. assert (0 ≤ p < 2 ^ 52) as Hp52.
  { change (2 ^ 44) with 17592186044416 in Hrng. change (2 ^ 52) with 4503599627370496. lia. }
  exists p, (mkMem (<[p := zero_frame]> (ram m)) a'). split_and!; try done; try lia.
  - unfold mbind, M_bind, FrameTracker_new, mbind, M_bind.
    rewrite (get_bytes_run (mkMem (ram m) a') p b) by done.
    rewrite (put_bytes_run (mkMem (ram m) a') p b) by done.
    by rewrite fmap_zero by (by apply (Hfr p)).
  - split; [done| |]; cbn [ram falloc].
    + intros x c [[-> <-]|[_ Hc]]%lookup_insert_Some; [apply zero_frame_ok|by eapply Hfr].
    + intros x Hx. rewrite Hend in Hx. destruct (decide (x = p)) as [->|].
      * rewrite lookup_insert_eq. eauto.
      * rewrite lookup_insert_ne by done. by apply Hram.
  - unfold free_frames. cbn [falloc]. rewrite Hend, size_union, size_singleton by set_solver. lia.
Qed.

Lemma frame_alloc_none m lo U :
  mem_ok m lo U → free_frames m lo U = 0 → frame_alloc m = Ok (None, m).
Proof.
  intros [Hfa _ _] Hfree. pose proof (SFA_alloc_spec _ _ _ Hfa) as Hspec. unfold frame_alloc.
  destruct (SFA_alloc (falloc m)) as [[p|] a'].
  - exfalso. destruct Hspec as (_ & HpU & Hfa' & Hend). pose proof (fa_used_size _ _ _ Hfa') as Hs.
    rewrite size_union, size_singleton in Hs by set_solver. unfold free_frames in Hfree. lia.
  - destruct Hspec as [-> _]. by destruct m.
Qed.

Lemma frame_dealloc_spec m lo U p :
  mem_ok m lo U → p ∈ U →
  ∃ m', frame_dealloc p m = Ok ((), m') ∧ mem_ok m' lo (U ∖ {[p]}) ∧ ram m' = ram m ∧
    free_frames m' lo (U ∖ {[p]}) = free_frames m lo U + 1.
Proof.
  intros [Hfa Hfr Hram] Hp. pose proof Hp as [Hrng _]%(fa_used _ _ _ Hfa).
  pose proof (SFA_dealloc_spec _ _ _ p Hfa ltac:(lia)) as Hspec. rewrite decide_True in Hspec by done.
  destruct Hspec as (a' & Hde & Hfa' & Hend & _).
  exists (mkMem (ram m) a'). unfold frame_dealloc. rewrite Hde. split_and!; try done.
  - split; [done..|]. cbn. by rewrite Hend.
  - unfold free_frames. cbn [falloc]. rewrite Hend.
    assert ({[p]} ⊆ U) as Hsub by set_solver. pose proof (subseteq_size _ _ Hsub).
    rewrite size_difference by done. rewrite size_singleton in *. lia.
Qed.

(** Dropping trackers gives their frames back, and leaves memory alone. *)
Lemma drop_frames_spec lo l : ∀ m U,
  mem_ok m lo U → NoDup l → (∀ x, x ∈ l → x ∈ U) →
  ∃ m', drop_frames l m = Ok ((), m') ∧ mem_ok m' lo (U ∖ list_to_set l) ∧ ram m' = ram m ∧
    free_frames m' lo (U ∖ list_to_set l) = free_frames m lo U + Z.of_nat (length l).
Proof.
  induction l as [|p l IH]; intros m U Hok Hnd Hl.
  { exists m. replace (U ∖ list_to_set []) with U by set_solver. split_and!; try done. simpl. lia. }
  apply list.NoDup_cons in Hnd as [Hpl Hnd].
  destruct (frame_dealloc_spec m lo U p Hok) as (m1 & Hrun1 & Hok1 & Hram1 & Hfree1); [apply Hl; elt|].
  destruct (IH m1 (U ∖ {[p]})) as (m2 & Hrun2 & Hok2 & Hram2 & Hfree2); [done|done| |].
  { intros x Hx. apply elem_of_difference. split; [apply Hl; elt|].
    by intros ->%elem_of_singleton. }
  exists m2. replace (U ∖ list_to_set (p :: l)) with (U ∖ {[p]} ∖ list_to_set l) by set_solver.
  split_and!; [|done|congruence|rewrite Hfree2, Hfree1, length_cons; lia].
  unfold drop_frames in *. cbn [for_each]. by rewrite (M_bind_run _ _ _ _ _ Hrun1).
Qed.
