(* ===== verification/PageTable.v ===== *)
(** * PageTable: SV39 page tables (os/src/memory/page_table.rs)

    A page-table node is a frame of 512 entries of 8 bytes.  A reference to an
    entry, as [find_pte] returns it, is the frame and the index it points at. *)

From stdpp Require Import base gmap list numbers.
From S2P Require Import Prelude Bytes Address FrameAllocator.

(** ** Entries *)
Definition PTE_V : Z := 1.
Definition PTE_R : Z := 2.
Definition PTE_W : Z := 4.
Definition PTE_X : Z := 8.
Definition PTE_U : Z := 16.

Definition PTE_new (ppn flags : Z) : Z := Z.lor (ppn <<u 10) flags.
Definition PTE_empty : Z := 0.
Definition PTE_ppn (bits : Z) : Z :=
  PhysPageNum_from (Z.land (Z.shiftr bits 10) (2 ^ 44 - 1)).
(** [PTEFlags::from_bits(self.bits as u8).unwrap()]: every bit of a byte is a
    flag, so [from_bits] succeeds. *)
Definition PTE_flags (bits : Z) : Z := wrap 8 bits.
Definition is_valid (bits : Z) : bool := negb (Z.land (PTE_flags bits) PTE_V =? 0).
Definition readable (bits : Z) : bool := negb (Z.land (PTE_flags bits) PTE_R =? 0).
Definition writable (bits : Z) : bool := negb (Z.land (PTE_flags bits) PTE_W =? 0).
Definition executable (bits : Z) : bool := negb (Z.land (PTE_flags bits) PTE_X =? 0).

(** ** Page tables *)
Record PageTable : Type := mkPT {
  root_ppn : Z;
  frames : list Z;
}.

Definition PageTable_new : M mem PageTable :=
  frame_alloc ≫= λ o, unwrap o ≫= λ frame, mret (mkPT frame [frame]).

(** [ppn.get_pte_array()[idx]], read and written. *)
Definition read_pte (l : Z * Z) : M mem Z :=
  get_bytes_array l.1 ≫= λ b,
  assertM (l.2 <? 512) ≫= λ _,
  mret (arr_get 8 b l.2).
Definition write_pte (l : Z * Z) (v : Z) : M mem () :=
  get_bytes_array l.1 ≫= λ b,
  assertM (l.2 <? 512) ≫= λ _,
  put_bytes_array l.1 (arr_set 8 b l.2 v).

(** One level of [find_pte_create] above the leaves: the child of entry [idx]
    of the node [ppn], made if it does not exist; [fr] is the vector of
    trackers. *)
Definition child_or_new (ppn idx : Z) (fr : list Z) : M mem (Z * list Z) :=
  read_pte (ppn, idx) ≫= λ pte,
  (if negb (is_valid pte) then
     frame_alloc ≫= λ o, unwrap o ≫= λ frame,
     write_pte (ppn, idx) (PTE_new frame PTE_V) ≫= λ _,
     mret (fr ++ [frame])
   else mret fr) ≫= λ fr,
  read_pte (ppn, idx) ≫= λ pte,
  mret (PTE_ppn pte, fr).

(** The loop over the remaining indexes: [i] is the level, [ppn] the current
    node. *)
Fixpoint find_pte_create_loop (idxs : list Z) (i : Z) (ppn : Z) (fr : list Z) :
    M mem (option (Z * Z) * list Z) :=
  match idxs with
  | [] => mret (None, fr)
  | idx :: idxs =>
      if i =? 2 then mret (Some (ppn, idx), fr)
      else
        child_or_new ppn idx fr ≫= λ '(ppn, fr),
        find_pte_create_loop idxs (i + 1) ppn fr
  end.

Definition find_pte_create (pt : PageTable) (vpn : Z) : M mem (option (Z * Z) * PageTable) :=
  find_pte_create_loop (indexes vpn) 0 (root_ppn pt) (frames pt) ≫= λ '(r, fr),
  mret (r, mkPT (root_ppn pt) fr).

Fixpoint find_pte_loop (idxs : list Z) (i : Z) (ppn : Z) : M mem (option (Z * Z)) :=
  match idxs with
  | [] => mret None
  | idx :: idxs =>
      if i =? 2 then mret (Some (ppn, idx))
      else
        read_pte (ppn, idx) ≫= λ pte,
        if negb (is_valid pte) then mret None
        else find_pte_loop idxs (i + 1) (PTE_ppn pte)
  end.

Definition find_pte (pt : PageTable) (vpn : Z) : M mem (option (Z * Z)) :=
  find_pte_loop (indexes vpn) 0 (root_ppn pt).

Definition pt_map (pt : PageTable) (vpn ppn flags : Z) : M mem PageTable :=
  find_pte_create pt vpn ≫= λ '(o, pt),
  unwrap o ≫= λ l,
  read_pte l ≫= λ pte,
  assertM (negb (is_valid pte)) ≫= λ _,
  write_pte l (PTE_new ppn (Z.lor flags PTE_V)) ≫= λ _,
  mret pt.

Definition pt_unmap (pt : PageTable) (vpn : Z) : M mem () :=
  find_pte pt vpn ≫= λ o,
  unwrap o ≫= λ l,
  read_pte l ≫= λ pte,
  assertM (is_valid pte) ≫= λ _,
  write_pte l PTE_empty.

Definition from_token (satp : Z) : PageTable :=
  mkPT (PhysPageNum_from (Z.land satp (2 ^ 44 - 1))) [].

Definition translate (pt : PageTable) (vpn : Z) : M mem (option Z) :=
  find_pte pt vpn ≫= λ o,
  match o with
  | Some l => read_pte l ≫= λ pte, mret (Some pte)
  | None => mret None
  end.

Definition translate_va (pt : PageTable) (va : Z) : M mem (option Z) :=
  find_pte pt (floor va) ≫= λ o,
  match o with
  | Some l =>
      read_pte l ≫= λ pte,
      let aligned_pa := addr_of_page_num (PTE_ppn pte) in
      let offset := page_offset va in
      mret (Some (PhysAddr_from (aligned_pa +u offset)))
  | None => mret None
  end.

Definition token (pt : PageTable) : Z := Z.lor (8 <<u 60) (root_ppn pt).

(** ** Access to user memory through a page table

    A [&'static mut [u8]] into physical memory is its physical address and its
    length. *)
Record slice_ref : Type := mkSlice { slice_pa : Z; slice_len : Z }.

(** A byte at a physical address. *)
Definition load_byte (pa : Z) : M mem Z := λ m,
  match ram m !! floor pa ≫= λ b, b !! Z.to_nat (page_offset pa) with
  | Some v => Ok (v, m)
  | None => Stop Faulted
  end.
Definition store_byte (pa v : Z) : M mem () := λ m,
  match ram m !! floor pa with
  | Some b => Ok ((), set_ram (<[floor pa := <[Z.to_nat (page_offset pa) := v]> b]> (ram m)) m)
  | None => Stop Faulted
  end.

(** The loop of [translated_byte_buffer]. *)
Fixpoint tbb_loop (fuel : nat) (pt : PageTable) (start end_ : Z) (v : list slice_ref) :
    M mem (list slice_ref) :=
  if start <? end_ then
    match fuel with
    | O => halt OutOfFuel
    | S fuel =>
        let start_va := VirtAddr_from start in
        let vpn := floor start_va in
        translate pt vpn ≫= λ o, unwrap o ≫= λ pte,
        let ppn := PTE_ppn pte in
        let vpn := step vpn in
        let end_va := addr_of_page_num vpn in
        let end_va := Z.min end_va (VirtAddr_from end_) in
        let hi := if page_offset end_va =? 0 then PAGE_SIZE else page_offset end_va in
        assertM (page_offset start_va <=? hi) ≫= λ _,
        let s := mkSlice (addr_of_page_num ppn + page_offset start_va)
                   (hi - page_offset start_va) in
        tbb_loop fuel pt end_va end_ (v ++ [s])
    end
  else mret v.

Definition translated_byte_buffer (token ptr len : Z) : M mem (list slice_ref) :=
  let page_table := from_token token in
  let start := ptr in
  let end_ := start +u len in
  tbb_loop (S (Z.to_nat len)) page_table start end_ [].

(** [translated_str]: the loop ends at the first NUL byte; [fuel] bounds the
    number of bytes looked at.  A [String] is the list of its characters. *)
Fixpoint ts_loop (fuel : nat) (pt : PageTable) (va : Z) (string : list Z) : M mem (list Z) :=
  match fuel with
  | O => halt OutOfFuel
  | S fuel =>
      translate_va pt (VirtAddr_from va) ≫= λ o, unwrap o ≫= λ pa,
      load_byte pa ≫= λ ch,
      if ch =? 0 then mret string
      else ts_loop fuel pt (va +u 1) (string ++ [ch])
  end.
Definition translated_str (fuel : nat) (token ptr : Z) : M mem (list Z) :=
  ts_loop fuel (from_token token) ptr [].

(** [translated_refmut]: the physical address the reference points at;
    [PhysAddr::get_mut] panics on the null pointer. *)
Definition translated_refmut (token ptr : Z) : M mem Z :=
  translate_va (from_token token) (VirtAddr_from ptr) ≫= λ o, unwrap o ≫= λ pa,
  if pa =? 0 then halt Panicked else mret pa.

(** ** [UserBuffer] *)
Definition UserBuffer_len (buffers : list slice_ref) : Z :=
  foldl (λ total b, total +u slice_len b) 0 buffers.

(** [UserBufferIterator] and its [next]: the pointer, and the iterator after
    it. *)
Record UserBufferIterator : Type := mkUBI {
  buffers : list slice_ref;
  current_buffer : nat;
  current_idx : Z;
}.
Definition into_iter (bs : list slice_ref) : UserBufferIterator := mkUBI bs 0 0.
Definition ubi_next (it : UserBufferIterator) : res (option (Z * UserBufferIterator)) :=
  match buffers it !! current_buffer it with
  | None => Ok None
  | Some b =>
      assert_res (current_idx it <? slice_len b) ≫= λ _,
      let r := slice_pa b + current_idx it in
      Ok (Some (r,
        if current_idx it +u 1 =? slice_len b
        then mkUBI (buffers it) (S (current_buffer it)) 0
        else mkUBI (buffers it) (current_buffer it) (current_idx it +u 1)))
  end.
