(* ===== verification/PageTableInv.v ===== *)
(** * PageTableInv: a page table is a finite map

    [pt_inv r pt mid leaf]: in the memory [r], [pt] is a well-formed tree whose
    second-level nodes are [mid] and whose leaf nodes are [leaf].  [pt_abs]
    reads the map from page numbers to entries off the leaves; [map], [unmap]
    and [translate] are insertion, deletion and lookup on it. *)

From stdpp Require Import base gmap list numbers.
From S2P Require Import Prelude Bytes Address FrameAllocator PageTable.

(** ** Entries *)
Lemma PTE_new_eq p f : 0 ≤ p < 2 ^ 44 → 0 ≤ f < 256 → PTE_new p f = p * 1024 + f.
Proof.
  intros Hp Hf. unfold PTE_new, ushl. rewrite Z.shiftl_mul_pow2 by done.
  change (2 ^ 44) with 17592186044416 in Hp. change (2 ^ 10) with 1024.
  rewrite wrap_small by (mach_unfold; lia).
  pose proof (shiftl_lor_add p f 10 ltac:(done) ltac:(change (2 ^ 10) with 1024; lia)) as Hadd.
  rewrite Z.shiftl_mul_pow2 in Hadd by done. exact Hadd.
Qed.

Lemma PTE_new_range p f : 0 ≤ p < 2 ^ 44 → 0 ≤ f < 256 → in_u 64 (PTE_new p f).
Proof.
  intros Hp Hf. rewrite PTE_new_eq by done. change (2 ^ 44) with 17592186044416 in Hp.
  mach_unfold. lia.
Qed.

(** The frame number and the flags come back out of an entry. *)
Lemma PTE_ppn_new p f : 0 ≤ p < 2 ^ 44 → 0 ≤ f < 256 → PTE_ppn (PTE_new p f) = p.
Proof.
  intros Hp Hf. rewrite PTE_new_eq by done. unfold PTE_ppn.
  rewrite Z.shiftr_div_pow2, land_ones_mod by done. change (2 ^ 10) with 1024.
  rewrite Z.add_comm, Z.div_add, Z.div_small, Z.add_0_l by lia.
  rewrite Z.mod_small by done. by apply PhysPageNum_from_id.
Qed.

Lemma PTE_flags_new p f : 0 ≤ p < 2 ^ 44 → 0 ≤ f < 256 → PTE_flags (PTE_new p f) = f.
Proof.
  intros Hp Hf. rewrite PTE_new_eq by done. unfold PTE_flags, wrap. change (2 ^ 8) with 256.
  replace (p * 1024 + f) with (f + (p * 4) * 256) by lia. rewrite Z.mod_add by lia.
  apply Z.mod_small. lia.
Qed.

Lemma is_valid_odd f : Z.land f PTE_V = f mod 2.
Proof. apply (land_ones_mod f 1). done. Qed.

Lemma lor_V_odd f : Z.lor f PTE_V mod 2 = 1.
Proof.
  rewrite <- is_valid_odd. unfold PTE_V. apply Z.bits_inj'. intros i Hi.
  rewrite Z.land_spec, Z.lor_spec. destruct (decide (i = 0)) as [->|].
  - by rewrite orb_true_r.
  - change 1 with (2 ^ 0). rewrite Z.pow2_bits_false by lia. by rewrite orb_false_r, andb_false_r.
Qed.

Lemma lor_V_range f : 0 ≤ f < 256 → 0 ≤ Z.lor f PTE_V < 256.
Proof.
  intros Hf. split; [apply Z.lor_nonneg; split; [lia|done]|]. change 256 with (2 ^ 8).
  destruct (decide (Z.lor f PTE_V = 0)) as [->|Hne]; [done|].
  assert (0 ≤ Z.lor f PTE_V) by (apply Z.lor_nonneg; split; [lia|done]).
  apply Z.log2_lt_pow2; [lia|]. rewrite Z.log2_lor by (done || lia). apply Z.max_lub_lt; [|done].
  destruct (decide (f = 0)) as [->|]; [done|]. apply Z.log2_lt_pow2; lia.
Qed.

Lemma is_valid_new p f :
  0 ≤ p < 2 ^ 44 → 0 ≤ f < 256 → is_valid (PTE_new p f) = negb (f mod 2 =? 0).
Proof. intros Hp Hf. unfold is_valid. by rewrite PTE_flags_new, is_valid_odd. Qed.

Lemma is_valid_node p : 0 ≤ p < 2 ^ 44 → is_valid (PTE_new p PTE_V) = true.
Proof. intros Hp. by rewrite is_valid_new. Qed.

(** ** Reading and writing entries *)
Definition pte_of (r : gmap Z (list Z)) (p i : Z) : Z := arr_get 8 (default [] (r !! p)) i.

Lemma pte_in b i : length b = Z.to_nat PAGE_SIZE → 0 ≤ i < 512 → arr_in 8 b i.
Proof. intros Hl Hi. apply (arr_in_iff 8 b 512); [by rewrite Hl|done]. Qed.

Lemma pte_of_range r p i b :
  r !! p = Some b → frame_ok b → 0 ≤ i < 512 → in_u 64 (pte_of r p i).
Proof.
  intros Hb [Hl Hbb] Hi. unfold pte_of. rewrite Hb. cbn [default].
  apply (arr_get_range 8); [by apply pte_in|done].
Qed.

Lemma pte_of_insert r p b i v x j :
  r !! p = Some b → length b = Z.to_nat PAGE_SIZE → 0 ≤ i < 512 → 0 ≤ j → in_u 64 v →
  pte_of (<[p := arr_set 8 b i v]> r) x j = if decide (x = p ∧ j = i) then v else pte_of r x j.
Proof.
  intros Hb Hl Hi Hj Hv. unfold pte_of. destruct (decide (x = p)) as [->|Hne].
  - rewrite lookup_insert_eq, Hb. cbn [default]. destruct (decide (j = i)) as [->|Hji].
    + rewrite decide_True by done. by apply arr_get_set_eq; [apply pte_in|].
    + rewrite decide_False by tauto. apply arr_get_set_ne; [by apply pte_in|done..].
  - rewrite lookup_insert_ne by done. rewrite decide_False by tauto. done.
Qed.

Lemma pte_of_ne r p b x j : x ≠ p → pte_of (<[p := b]> r) x j = pte_of r x j.
Proof. intros H. unfold pte_of. by rewrite lookup_insert_ne. Qed.

Lemma pte_of_zero r p j : pte_of (<[p := zero_frame]> r) p j = 0.
Proof. unfold pte_of. rewrite lookup_insert_eq. apply arr_get_zeros. Qed.

Lemma read_pte_run m p i b :
  0 ≤ p < 2 ^ 44 → ram m !! p = Some b → i < 512 → read_pte (p, i) m = Ok (pte_of (ram m) p i, m).
Proof.
  intros Hp Hb Hi. unfold read_pte, mbind, M_bind. cbn [fst snd].
  assert (0 ≤ p < 2 ^ 52) by (change (2 ^ 44) with 17592186044416 in Hp;
    change (2 ^ 52) with 4503599627370496; lia).
  rewrite (get_bytes_run m p b) by done. unfold assertM, lift_res.
  destruct (Z.ltb_spec i 512); [|lia]. cbn. unfold pte_of. by rewrite Hb.
Qed.

Lemma write_pte_run m p i b v :
  0 ≤ p < 2 ^ 44 → ram m !! p = Some b → i < 512 →
  write_pte (p, i) v m = Ok ((), set_ram (<[p := arr_set 8 b i v]> (ram m)) m).
Proof.
  intros Hp Hb Hi. unfold write_pte, mbind, M_bind. cbn [fst snd].
  assert (0 ≤ p < 2 ^ 52) by (change (2 ^ 44) with 17592186044416 in Hp;
    change (2 ^ 52) with 4503599627370496; lia).
  rewrite (get_bytes_run m p b) by done. unfold assertM, lift_res.
  destruct (Z.ltb_spec i 512); [|lia]. cbn [assert_res]. by rewrite (put_bytes_run m p b).
Qed.

Lemma mem_ok_set m lo U p b :
  mem_ok m lo U → frame_ok b → is_Some (ram m !! p) →
  mem_ok (set_ram (<[p := b]> (ram m)) m) lo U.
Proof.
  intros [H1 H2 H3] Hb Hp. split; [done| |]; cbn [ram set_ram falloc].
  - intros x c [[-> <-]|[_ Hc]]%lookup_insert_Some; [done|by eapply H2].
  - intros x Hx. destruct (decide (x = p)) as [->|]; [rewrite lookup_insert_eq; eauto|].
    rewrite lookup_insert_ne by done. by apply H3.
Qed.

(** ** The tree *)
Definition VPN_END : Z := 2 ^ 27.

(** An inner entry: empty, or valid and naming the child. *)
Definition child_entry (o : option Z) : Z := from_option (λ p, PTE_new p PTE_V) 0 o.

(** [kids] maps a node and an index to the child node, [lvl] a node to its
    level: 0 for the root, 2 for the leaves. *)
Record pt_inv (r : gmap Z (list Z)) (pt : PageTable) (kids : gmap (Z * Z) Z) (lvl : gmap Z Z) : Prop := {
  pi_frames x : x ∈ frames pt ↔ is_Some (lvl !! x);
  pi_nodup : NoDup (frames pt);
  pi_root : lvl !! root_ppn pt = Some 0;
  pi_node x n : lvl !! x = Some n → 0 ≤ x < 2 ^ 44 ∧ ∃ b, r !! x = Some b ∧ frame_ok b;
  pi_kid p i c : kids !! (p, i) = Some c →
    ∃ n, lvl !! p = Some n ∧ 0 ≤ n < 2 ∧ lvl !! c = Some (n + 1);
  pi_inj e1 e2 c : kids !! e1 = Some c → kids !! e2 = Some c → e1 = e2;
  pi_entry p n i : lvl !! p = Some n → 0 ≤ n < 2 → 0 ≤ i < 512 →
    pte_of r p i = child_entry (kids !! (p, i));
}.

(** The leaf node for a page number. *)
Definition leaf_of (pt : PageTable) (kids : gmap (Z * Z) Z) (vpn : Z) : option Z :=
  p ← kids !! (root_ppn pt, vpn / 512 / 512); kids !! (p, (vpn / 512) mod 512).

(** The map from virtual page numbers to valid entries. *)
Definition pt_abs (r : gmap Z (list Z)) (pt : PageTable) (kids : gmap (Z * Z) Z) (vpn : Z) : option Z :=
  q ← leaf_of pt kids vpn;
  let e := pte_of r q (vpn mod 512) in
  if is_valid e then Some e else None.

Lemma indexes_split vpn :
  0 ≤ vpn < VPN_END →
  indexes vpn = [vpn / 512 / 512; (vpn / 512) mod 512; vpn mod 512] ∧
  0 ≤ vpn / 512 / 512 < 512 ∧ 0 ≤ (vpn / 512) mod 512 < 512 ∧ 0 ≤ vpn mod 512 < 512.
Proof.
  intros Hv. rewrite indexes_eq by done. rewrite Z.div_div by done.
  change (512 * 512) with (2 ^ 18). change (2 ^ 9) with 512.
  pose proof (Z.mod_pos_bound vpn 512). pose proof (Z.mod_pos_bound (vpn / 512) 512).
  split_and!; try lia; [done|apply Z.div_pos; lia|].
  apply Z.div_lt_upper_bound; [done|]. change (2 ^ 18 * 512) with VPN_END. lia.
Qed.

Lemma leaf_of_inj r pt kids lvl v w q :
  pt_inv r pt kids lvl → leaf_of pt kids v = Some q → leaf_of pt kids w = Some q → v / 512 = w / 512.
Proof.
  intros Hinv (p & Hp & Hq)%bind_Some (p' & Hp' & Hq')%bind_Some.
  pose proof (pi_inj _ _ _ _ Hinv _ _ _ Hq Hq') as [= <- Hm].
  pose proof (pi_inj _ _ _ _ Hinv _ _ _ Hp Hp') as [= Hd].
  rewrite (Z.div_mod (v / 512) 512), (Z.div_mod (w / 512) 512) by lia. congruence.
Qed.

Section walk.
Context (m : mem) (pt : PageTable) (kids : gmap (Z * Z) Z) (lvl : gmap Z Z).
Hypothesis Hinv : pt_inv (ram m) pt kids lvl.

(** Reading an inner entry. *)
Lemma read_inner p n i :
  lvl !! p = Some n → 0 ≤ n < 2 → 0 ≤ i < 512 →
  read_pte (p, i) m = Ok (child_entry (kids !! (p, i)), m).
Proof using Hinv.
  intros Hp Hn Hi. destruct (pi_node _ _ _ _ Hinv _ _ Hp) as (Hr & b & Hb & _).
  rewrite (read_pte_run m _ i b) by (done || lia). by erewrite (pi_entry _ _ _ _ Hinv).
Qed.

Lemma kid_range e c : kids !! e = Some c → 0 ≤ c < 2 ^ 44.
Proof using Hinv.
  destruct e as [p i]. intros (n & _ & _ & Hc)%(pi_kid _ _ _ _ Hinv). by apply (pi_node _ _ _ _ Hinv) in Hc as [? _].
Qed.

Lemma leaf_level vpn q : leaf_of pt kids vpn = Some q → lvl !! q = Some 2.
Proof using Hinv.
  intros (p & Hp & Hq)%bind_Some. apply (pi_kid _ _ _ _ Hinv) in Hp as (n & Hn & _ & Hp).
  rewrite (pi_root _ _ _ _ Hinv) in Hn. injection Hn as <-.
  apply (pi_kid _ _ _ _ Hinv) in Hq as (n & Hn & _ & Hq). rewrite Hp in Hn. by injection Hn as <-.
Qed.

(** [find_pte] returns the leaf entry's place, valid or not, when the leaf
    node exists. *)
Lemma find_pte_run vpn :
  0 ≤ vpn < VPN_END → find_pte pt vpn m = Ok ((λ q, (q, vpn mod 512)) <$> leaf_of pt kids vpn, m).
Proof using Hinv.
  intros Hv. destruct (indexes_split vpn Hv) as (Hidx & H0 & H1 & H2).
  unfold find_pte, leaf_of. rewrite Hidx. cbn [find_pte_loop].
  change (0 =? 2) with false. cbn iota.
  run (read_inner _ _ _ (pi_root _ _ _ _ Hinv) ltac:(lia) H0).
  destruct (kids !! (root_ppn pt, vpn / 512 / 512)) as [p|] eqn:Hp; [|done].
  cbn [child_entry from_option mbind option_bind]. pose proof (kid_range _ _ Hp) as Hpr.
  rewrite is_valid_node, PTE_ppn_new by done. cbn [negb find_pte_loop].
  change (0 + 1 =? 2) with false. cbn iota.
  pose proof Hp as (n & Hn & _ & Hpl)%(pi_kid _ _ _ _ Hinv).
  rewrite (pi_root _ _ _ _ Hinv) in Hn. injection Hn as <-.
  run (read_inner _ _ _ Hpl ltac:(lia) H1).
  destruct (kids !! (p, (vpn / 512) mod 512)) as [q|] eqn:Hq; [|done].
  cbn [child_entry from_option]. pose proof (kid_range _ _ Hq) as Hqr.
  by rewrite is_valid_node, PTE_ppn_new by done.
Qed.

(** A leaf entry, read. *)
Lemma read_leaf vpn q :
  leaf_of pt kids vpn = Some q → read_pte (q, vpn mod 512) m = Ok (pte_of (ram m) q (vpn mod 512), m).
Proof using Hinv.
  intros Hq. destruct (pi_node _ _ _ _ Hinv _ _ (leaf_level _ _ Hq)) as (Hr & b & Hb & _).
  pose proof (Z.mod_pos_bound vpn 512 ltac:(lia)). by rewrite (read_pte_run m q _ b) by (done || lia).
Qed.

(** [translate] returns the leaf entry, valid or not. *)
Lemma translate_run vpn :
  0 ≤ vpn < VPN_END →
  translate pt vpn m = Ok ((λ q, pte_of (ram m) q (vpn mod 512)) <$> leaf_of pt kids vpn, m).
Proof using Hinv.
  intros Hv. unfold translate. run (find_pte_run vpn Hv).
  destruct (leaf_of pt kids vpn) as [q|] eqn:Hq; [|done]. cbn [fmap option_fmap option_map].
  by run (read_leaf vpn q Hq).
Qed.
End walk.

(** ** Changing the tree *)
Lemma pt_inv_frame r r' pt kids lvl :
  (∀ x, x ∈ frames pt → r' !! x = r !! x) → pt_inv r pt kids lvl → pt_inv r' pt kids lvl.
Proof.
  intros Hr [H1 H2 H3 H4 H5 H6 H7]. split; try done.
  - intros x n Hx. rewrite Hr by (apply H1; eauto). by eapply H4.
  - intros p n i Hp Hn Hi. unfold pte_of. rewrite Hr by (apply H1; eauto). by eapply H7.
Qed.

Lemma pt_abs_frame r r' pt kids lvl v :
  pt_inv r pt kids lvl → (∀ q, lvl !! q = Some 2 → r' !! q = r !! q) →
  pt_abs r' pt kids v = pt_abs r pt kids v.
Proof.
  intros Hinv Hr. unfold pt_abs. destruct (leaf_of pt kids v) as [q|] eqn:Hq; [|done].
  cbn [mbind option_bind]. unfold pte_of. rewrite Hr; [done|].
  destruct (leaf_level (mkMem r SFA_new) pt kids lvl Hinv v q Hq). done.
Qed.

(** A frame as a table node. *)
Lemma frame_ok_set b i v : frame_ok b → 0 ≤ i < 512 → frame_ok (arr_set 8 b i v).
Proof.
  intros [Hl Hb] Hi. split; [|by apply arr_set_bytes].
  rewrite length_arr_set; [done|by apply pte_in].
Qed.

(** A new node [c] below the inner node [p]. *)
Lemma pt_inv_add r pt kids lvl p n i c b :
  pt_inv r pt kids lvl → lvl !! p = Some n → 0 ≤ n < 2 → 0 ≤ i < 512 → kids !! (p, i) = None →
  c ∉ frames pt → 0 ≤ c < 2 ^ 44 → r !! c = Some zero_frame → r !! p = Some b →
  pt_inv (<[p := arr_set 8 b i (PTE_new c PTE_V)]> r)
    (mkPT (root_ppn pt) (frames pt ++ [c])) (<[(p, i) := c]> kids) (<[c := n + 1]> lvl).
Proof.
  intros [H1 H2 H3 H4 H5 H6 H7] Hp Hn Hi Hk Hc Hcr Hz Hb.
  assert (lvl !! c = None) as Hlc.
  { destruct (lvl !! c) eqn:Hl; [|done]. destruct Hc. apply H1. eauto. }
  assert (c ≠ p) as Hcp by (by intros ->; rewrite Hp in Hlc).
  assert (∀ e, kids !! e ≠ Some c) as Hkc.
  { intros [p' i'] (n' & _ & _ & Hl)%H5. congruence. }
  assert (frame_ok b) as Hbok by (destruct (H4 _ _ Hp) as (_ & b' & Hb' & ?); congruence).
  pose proof (PTE_new_range c PTE_V Hcr ltac:(done)) as Hu.
  assert (∀ x, is_Some (lvl !! x) → x ≠ c) as Hlx by (intros x [? Hx] ->; congruence).
  split; cbn [frames root_ppn].
  - intros x. rewrite elem_of_app, list_elem_of_singleton, H1.
    destruct (decide (x = c)) as [->|]; [rewrite lookup_insert_eq; split; [eauto|tauto]|].
    rewrite lookup_insert_ne by done. tauto.
  - apply list.NoDup_app. split_and!; [done| |apply NoDup_singleton].
    by intros x Hx ->%list_elem_of_singleton.
  - by rewrite lookup_insert_ne by (symmetry; apply Hlx; eauto).
  - intros x nx Hx. destruct (decide (x = p)) as [->|Hxp].
    + destruct (H4 _ _ Hp) as [? _]. split; [done|]. rewrite lookup_insert_eq.
      eexists. split; [done|]. by apply frame_ok_set.
    + rewrite lookup_insert_ne by done. apply lookup_insert_Some in Hx as [[<- _]|[_ Hx]]; [|by eapply H4].
      split; [done|]. eexists. split; [done|]. apply zero_frame_ok.
  - intros p' i' c' [[[= <- <-] <-]|[_ Hk']]%lookup_insert_Some.
    + exists n. by rewrite lookup_insert_eq, lookup_insert_ne.
    + destruct (H5 _ _ _ Hk') as (n' & Hp' & Hn' & Hc'). exists n'.
      by rewrite !lookup_insert_ne by (symmetry; apply Hlx; eauto).
  - intros e1 e2 x [[<- <-]|[Hn1 He1]]%lookup_insert_Some [[<- Heq]|[Hn2 He2]]%lookup_insert_Some;
      try done; [by destruct (Hkc e2)| |by eapply H6]. subst. by destruct (Hkc e1).
  - intros x nx j Hx Hnx Hj. apply lookup_insert_Some in Hx as [[<- <-]|[Hne Hx]].
    + rewrite pte_of_ne by done. rewrite lookup_insert_ne by congruence.
      assert (pte_of r c j = 0) as -> by (unfold pte_of; rewrite Hz; apply arr_get_zeros).
      destruct (kids !! (c, j)) as [c'|] eqn:Hk'; [|done].
      destruct (H5 _ _ _ Hk') as (n' & Hc' & _). congruence.
    + rewrite (pte_of_insert r _ b) by (done || apply Hbok || lia).
      destruct (decide (x = p ∧ j = i)) as [[-> ->]|Hd]; [by rewrite lookup_insert_eq|].
      rewrite lookup_insert_ne by (intros [= <- <-]; tauto). by eapply H7.
Qed.

(** A new node is empty: it maps nothing. *)
Lemma pt_abs_add r pt kids lvl p n i c b fr v :
  pt_inv r pt kids lvl → lvl !! p = Some n → 0 ≤ n < 2 → kids !! (p, i) = None →
  c ∉ frames pt → r !! c = Some zero_frame → r !! p = Some b →
  pt_abs (<[p := arr_set 8 b i (PTE_new c PTE_V)]> r) (mkPT (root_ppn pt) fr) (<[(p, i) := c]> kids) v
  = pt_abs r pt kids v.
Proof.
  intros Hinv Hp Hn Hk Hc Hz Hb.
  assert (lvl !! c = None) as Hlc.
  { destruct (lvl !! c) eqn:Hl; [|done]. destruct Hc. apply (pi_frames _ _ _ _ Hinv). eauto. }
  assert (c ≠ p) as Hcp by (by intros ->; rewrite Hp in Hlc).
  assert (∀ j, kids !! (c, j) = None) as Hkc.
  { intros j. destruct (kids !! (c, j)) as [c'|] eqn:Hk'; [|done].
    destruct (pi_kid _ _ _ _ Hinv _ _ _ Hk') as (n' & Hc' & _). congruence. }
  unfold pt_abs, leaf_of. cbn [root_ppn].
  destruct (kids !! (root_ppn pt, v / 512 / 512)) as [p1|] eqn:Hp1.
  - rewrite lookup_insert_ne, Hp1 by congruence. cbn [mbind option_bind].
    destruct (kids !! (p1, (v / 512) mod 512)) as [q|] eqn:Hq.
    + rewrite lookup_insert_ne, Hq by congruence. cbn [mbind option_bind].
      assert (lvl !! q = Some 2) as Hlq.
      { apply (leaf_level (mkMem r SFA_new) pt kids lvl Hinv v). unfold leaf_of. by rewrite Hp1. }
      rewrite pte_of_ne; [done|]. intros ->. rewrite Hp in Hlq. injection Hlq as ->. lia.
    + destruct (decide ((p, i) = (p1, (v / 512) mod 512))) as [<-|Hne].
      * rewrite lookup_insert_eq. cbn [mbind option_bind]. rewrite pte_of_ne by done.
        unfold pte_of. rewrite Hz. cbn [default from_option id].
        change zero_frame with (replicate (Z.to_nat PAGE_SIZE) 0). by rewrite (arr_get_zeros 8).
      * by rewrite lookup_insert_ne, Hq.
  - destruct (decide ((p, i) = (root_ppn pt, v / 512 / 512))) as [<-|Hne].
    + rewrite lookup_insert_eq. cbn [mbind option_bind]. rewrite lookup_insert_ne by congruence.
      by rewrite Hkc.
    + by rewrite lookup_insert_ne, Hp1.
Qed.

(** The tree [pt'] extends [pt] by nodes that map nothing: [nf] new frames. *)
Record pt_ext (lo : Z) (m : mem) (U : gset Z) (pt : PageTable) (kids : gmap (Z * Z) Z)
    (m' : mem) (U' : gset Z) (pt' : PageTable) (kids' : gmap (Z * Z) Z) (nf : list Z) : Prop := {
  pe_mem : mem_ok m' lo U';
  pe_root : root_ppn pt' = root_ppn pt;
  pe_frames : frames pt' = frames pt ++ nf;
  pe_used : U' = list_to_set nf ∪ U;
  pe_new x : x ∈ nf → x ∉ U;
  pe_free : free_frames m' lo U' = free_frames m lo U - Z.of_nat (length nf);
  pe_abs v : pt_abs (ram m') pt' kids' v = pt_abs (ram m) pt kids v;
  pe_ram x : x ∉ frames pt' → ram m' !! x = ram m !! x;
  pe_kids e c : kids !! e = Some c → kids' !! e = Some c;
}.

Lemma pt_ext_refl lo m U pt kids : mem_ok m lo U → pt_ext lo m U pt kids m U pt kids [].
Proof.
  intros Hm. split; try done.
  - by rewrite app_nil_r.
  - set_solver.
  - by intros x ?%elem_of_nil.
  - simpl. lia.
Qed.

Lemma pt_ext_trans lo m1 U1 pt1 k1 m2 U2 pt2 k2 m3 U3 pt3 k3 nf1 nf2 :
  pt_ext lo m1 U1 pt1 k1 m2 U2 pt2 k2 nf1 → pt_ext lo m2 U2 pt2 k2 m3 U3 pt3 k3 nf2 →
  pt_ext lo m1 U1 pt1 k1 m3 U3 pt3 k3 (nf1 ++ nf2).
Proof.
  intros [A1 A2 A3 A4 A5 A6 A7 A8 A9] [B1 B2 B3 B4 B5 B6 B7 B8 B9]. split; try done.
  - congruence.
  - by rewrite B3, A3, app_assoc.
  - rewrite B4, A4, list_to_set_app_L. set_solver.
  - intros x [Hx|Hx]%elem_of_app; [by apply A5|]. apply B5 in Hx. set_solver.
  - rewrite B6, A6, length_app. lia.
  - intros v. by rewrite B7, A7.
  - intros x Hx. rewrite B8, A8; [done| |done]. intros Hin. apply Hx. rewrite B3. elt.
  - auto.
Qed.

(** [child_or_new] walks to the child, made if needed. *)
Lemma child_or_new_spec lo m U pt kids lvl p n i :
  mem_ok m lo U → pt_inv (ram m) pt kids lvl → (∀ x, x ∈ frames pt → x ∈ U) →
  lvl !! p = Some n → 0 ≤ n < 2 → 0 ≤ i < 512 → (kids !! (p, i) = None → 0 < free_frames m lo U) →
  ∃ c m' U' pt' kids' lvl' nf, child_or_new p i (frames pt) m = Ok ((c, frames pt'), m') ∧
    pt_inv (ram m') pt' kids' lvl' ∧ pt_ext lo m U pt kids m' U' pt' kids' nf ∧
    kids' !! (p, i) = Some c ∧ lvl' !! c = Some (n + 1) ∧
    (∀ j, kids' !! (c, j) = match kids !! (p, i) with Some _ => kids !! (c, j) | None => None end) ∧
    length nf = (if kids !! (p, i) is Some _ then 0 else 1)%nat.
Proof.
  intros Hm Hinv HU Hp Hn Hi Hfree. unfold child_or_new.
  run (read_inner m pt kids lvl Hinv p n i Hp Hn Hi).
  destruct (kids !! (p, i)) as [c|] eqn:Hk; cbn [child_entry from_option].
  - pose proof (kid_range m pt kids lvl Hinv _ _ Hk) as Hc. rewrite is_valid_node by done. cbn [negb].
    exists c, m, U, pt, kids, lvl, []. split_and!; try done; [|by apply pt_ext_refl|].
    + rewrite M_ret_bind.
      run (read_inner m pt kids lvl Hinv p n i Hp Hn Hi).
      rewrite Hk. cbn [child_entry from_option]. by rewrite PTE_ppn_new.
    + destruct (pi_kid _ _ _ _ Hinv _ _ _ Hk) as (n' & Hp' & _ & Hc'). congruence.
  - change (is_valid 0) with false. cbn [negb].
    destruct (frame_alloc_spec m lo U Hm (Hfree eq_refl)) as (c & m1 & Hal & Hcr & HcU & Hm1 & Hfr1 & Hram1).
    assert (c ∉ frames pt) as Hcf by (intros Hin; by apply HcU, HU).
    pose proof (fa_range _ _ _ (mo_alloc _ _ _ Hm)) as Hrng.
    destruct (pi_node _ _ _ _ Hinv _ _ Hp) as (Hpr & b & Hb & Hbok).
    assert (c ≠ p) as Hcp by (intros ->; apply Hcf, (pi_frames _ _ _ _ Hinv); eauto).
    assert (ram m1 !! p = Some b) as Hb1 by (rewrite Hram1, lookup_insert_ne; done).
    assert (pt_inv (ram m1) pt kids lvl) as Hinv1.
    { eapply pt_inv_frame; [|exact Hinv]. intros x Hx. rewrite Hram1, lookup_insert_ne; [done|].
      by intros ->. }
    assert (ram m1 !! c = Some zero_frame) as Hz by (rewrite Hram1; by rewrite lookup_insert_eq).
    pose proof (pt_inv_add (ram m1) pt kids lvl p n i c b Hinv1 Hp Hn Hi Hk Hcf ltac:(lia) Hz Hb1) as Hinv2.
    set (m2 := set_ram (<[p := arr_set 8 b i (PTE_new c PTE_V)]> (ram m1)) m1).
    set (pt2 := mkPT (root_ppn pt) (frames pt ++ [c])) in *.
    set (kids2 := <[(p, i) := c]> kids) in *. set (lvl2 := <[c := n + 1]> lvl) in *.
    exists c, m2, ({[c]} ∪ U), pt2, kids2, lvl2, [c]. split_and!; try done.
    + rewrite (M_bind_run _ _ m (frames pt ++ [c]) m2).
      2:{ run Hal. rewrite M_unwrap_bind. by run (write_pte_run m1 p i b (PTE_new c PTE_V) Hpr Hb1 (proj2 Hi)). }
      assert (lvl2 !! p = Some n) as Hp2 by (subst lvl2; by rewrite lookup_insert_ne).
      run (read_inner m2 pt2 kids2 lvl2 Hinv2 p n i Hp2 Hn Hi).
      subst kids2. rewrite lookup_insert_eq. cbn [child_entry from_option]. by rewrite PTE_ppn_new by (done || lia).
    + split; try done.
      * apply mem_ok_set; [done|by apply frame_ok_set|eauto].
      * set_solver.
      * by intros x ->%list_elem_of_singleton.
      * intros v. cbn [ram set_ram m2]. subst pt2 kids2.
        rewrite (pt_abs_add (ram m1) pt kids lvl p n i c b) by done.
        eapply pt_abs_frame; [exact Hinv|]. intros q Hq. rewrite Hram1, lookup_insert_ne; [done|].
        intros ->. apply Hcf, (pi_frames _ _ _ _ Hinv). eauto.
      * intros x Hx. cbn [ram set_ram m2]. cbn [frames pt2] in Hx. rewrite elem_of_app, list_elem_of_singleton in Hx.
        rewrite lookup_insert_ne, Hram1, lookup_insert_ne; [done|intros ->; tauto|].
        intros ->. apply Hx. left. apply (pi_frames _ _ _ _ Hinv). eauto.
      * intros e c' He. subst kids2. rewrite lookup_insert_ne; [done|]. intros <-. congruence.
    + subst kids2. by rewrite lookup_insert_eq.
    + subst lvl2. by rewrite lookup_insert_eq.
    + intros j. subst kids2. rewrite lookup_insert_ne by congruence.
      destruct (kids !! (c, j)) as [c'|] eqn:Hk'; [|done].
      destruct (pi_kid _ _ _ _ Hinv _ _ _ Hk') as (n' & Hc' & _).
      destruct Hcf. apply (pi_frames _ _ _ _ Hinv). eauto.
Qed.

(** The nodes on the way to [vpn] that do not exist yet. *)
Definition missing_nodes (pt : PageTable) (kids : gmap (Z * Z) Z) (vpn : Z) : nat :=
  match kids !! (root_ppn pt, vpn / 512 / 512) with
  | None => 2
  | Some p => if kids !! (p, (vpn / 512) mod 512) is Some _ then 0 else 1
  end.

Lemma pt_ext_incl lo m U pt kids m' U' pt' kids' nf :
  pt_ext lo m U pt kids m' U' pt' kids' nf → (∀ x, x ∈ frames pt → x ∈ U) → ∀ x, x ∈ frames pt' → x ∈ U'.
Proof.
  intros [_ _ -> -> _ _ _ _ _] HU x. rewrite elem_of_app, elem_of_union, elem_of_list_to_set. naive_solver.
Qed.

Lemma find_pte_create_spec lo m U pt kids lvl vpn :
  mem_ok m lo U → pt_inv (ram m) pt kids lvl → (∀ x, x ∈ frames pt → x ∈ U) →
  0 ≤ vpn < VPN_END → Z.of_nat (missing_nodes pt kids vpn) ≤ free_frames m lo U →
  ∃ q m' U' pt' kids' lvl' nf, find_pte_create pt vpn m = Ok ((Some (q, vpn mod 512), pt'), m') ∧
    pt_inv (ram m') pt' kids' lvl' ∧ pt_ext lo m U pt kids m' U' pt' kids' nf ∧
    leaf_of pt' kids' vpn = Some q ∧ length nf = missing_nodes pt kids vpn.
Proof.
  intros Hm Hinv HU Hv Hfree. destruct (indexes_split vpn Hv) as (Hidx & H0 & H1 & _).
  unfold find_pte_create. rewrite Hidx. cbn [find_pte_create_loop].
  change (0 =? 2) with false. cbn iota. unfold missing_nodes in *.
  destruct (child_or_new_spec lo m U pt kids lvl (root_ppn pt) 0 (vpn / 512 / 512) Hm Hinv HU
    (pi_root _ _ _ _ Hinv) ltac:(lia) H0)
    as (p & m1 & U1 & pt1 & kids1 & lvl1 & nf1 & Hr1 & Hinv1 & Hx1 & Hp & Hlp & Hkp & Hn1).
  { intros Hk. rewrite Hk in Hfree. lia. }
  assert (kids !! (root_ppn pt, vpn / 512 / 512) = Some p ∨ kids !! (root_ppn pt, vpn / 512 / 512) = None) as Hor.
  { destruct (kids !! (root_ppn pt, vpn / 512 / 512)) as [p'|] eqn:Hk; [|by right]. left.
    apply (pe_kids _ _ _ _ _ _ _ _ _ _ Hx1) in Hk. congruence. }
  rewrite M_bind_assoc. run Hr1. change (0 + 1 =? 2) with false. cbn iota.
  destruct (child_or_new_spec lo m1 U1 pt1 kids1 lvl1 p (0 + 1) ((vpn / 512) mod 512)
    (pe_mem _ _ _ _ _ _ _ _ _ _ Hx1) Hinv1 (pt_ext_incl _ _ _ _ _ _ _ _ _ _ Hx1 HU) Hlp ltac:(lia) H1)
    as (q & m2 & U2 & pt2 & kids2 & lvl2 & nf2 & Hr2 & Hinv2 & Hx2 & Hq & _ & _ & Hn2).
  { rewrite (pe_free _ _ _ _ _ _ _ _ _ _ Hx1), Hn1, Hkp. destruct Hor as [Hk|Hk]; rewrite Hk in *.
    - intros Hk2. rewrite Hk2 in Hfree. lia.
    - lia. }
  rewrite M_bind_assoc. run Hr2. change (0 + 1 + 1 =? 2) with true. cbn iota. rewrite M_ret_bind.
  pose proof (pt_ext_trans _ _ _ _ _ _ _ _ _ _ _ _ _ _ _ Hx1 Hx2) as Hx.
  pose proof (pe_root _ _ _ _ _ _ _ _ _ _ Hx) as Hroot.
  exists q, m2, U2, pt2, kids2, lvl2, (nf1 ++ nf2). rewrite <- Hroot. split_and!; try done.
  - by destruct pt2.
  - unfold leaf_of. rewrite Hroot, (pe_kids _ _ _ _ _ _ _ _ _ _ Hx2 _ _ Hp). done.
  - rewrite Hroot, length_app, Hn1, Hn2, Hkp. by destruct Hor as [Hk|Hk]; rewrite Hk.
Qed.

(** Storing a leaf entry changes the map at its page only. *)
Lemma leaf_store r pt kids lvl vpn q b v :
  pt_inv r pt kids lvl → leaf_of pt kids vpn = Some q → r !! q = Some b → in_u 64 v →
  let r' := <[q := arr_set 8 b (vpn mod 512) v]> r in
  pt_inv r' pt kids lvl ∧
  ∀ w, pt_abs r' pt kids w = (if decide (w = vpn) then if is_valid v then Some v else None else pt_abs r pt kids w).
Proof.
  intros Hinv Hq Hb Hv r'. pose proof (leaf_level (mkMem r SFA_new) pt kids lvl Hinv vpn q Hq) as Hlq.
  pose proof (Z.mod_pos_bound vpn 512 ltac:(lia)) as Hi.
  destruct (pi_node _ _ _ _ Hinv _ _ Hlq) as (_ & b' & Hb' & Hbok). rewrite Hb in Hb'. injection Hb' as <-.
  split.
  - destruct Hinv as [H1 H2 H3 H4 H5 H6 H7]. split; try done.
    + intros x n Hx. subst r'. destruct (decide (x = q)) as [->|].
      * rewrite lookup_insert_eq. destruct (H4 _ _ Hx) as [? _]. eauto using frame_ok_set.
      * rewrite lookup_insert_ne by done. by eapply H4.
    + intros p n i Hp Hn. subst r'. rewrite pte_of_ne; [by eapply H7|]. intros <-. rewrite Hp in Hlq. injection Hlq. lia.
  - intros w. unfold pt_abs. destruct (decide (w = vpn)) as [->|Hw].
    + rewrite Hq. cbn [mbind option_bind]. subst r'.
      rewrite (pte_of_insert r _ b) by (done || apply Hbok || lia). by rewrite decide_True by done.
    + destruct (leaf_of pt kids w) as [qw|] eqn:Hqw; [|done]. cbn [mbind option_bind]. subst r'.
      destruct (decide (qw = q)) as [->|]; [|by rewrite pte_of_ne].
      pose proof (Z.mod_pos_bound w 512 ltac:(lia)).
      rewrite (pte_of_insert r _ b) by (done || apply Hbok || lia).
      rewrite decide_False; [done|]. intros [_ Hm]. apply Hw.
      pose proof (leaf_of_inj _ _ _ _ _ _ _ Hinv Hq Hqw).
      rewrite (Z.div_mod w 512), (Z.div_mod vpn 512) by lia. congruence.
Qed.
