(* ===== verification/PageTableRep.v ===== *)
(** * PageTableRep: a page table is a finite map (os/src/memory/page_table.rs)

    [pt_rep m pt A]: in the memory [m] the page table [pt] stands for the map
    [A] from virtual page numbers to entries.  [map], [unmap] and [translate]
    are insertion, deletion and lookup on it; the accesses to user memory
    follow it byte by byte. *)

From stdpp Require Import base gmap list numbers.
From S2P Require Import Prelude Bytes Address FrameAllocator PageTable PageTableInv.

Definition pt_rep (m : mem) (pt : PageTable) (A : gmap Z Z) : Prop :=
  ∃ kids lvl, pt_inv (ram m) pt kids lvl ∧
    (∀ v, 0 ≤ v < VPN_END → pt_abs (ram m) pt kids v = A !! v) ∧
    (∀ v e, A !! v = Some e → 0 ≤ v < VPN_END).

(** The table took the frames [nf] from the allocator and wrote its own
    frames only. *)
Record pt_grown (lo : Z) (m : mem) (U : gset Z) (pt : PageTable) (m' : mem) (pt' : PageTable)
    (nf : list Z) : Prop := {
  pg_mem : mem_ok m' lo (list_to_set nf ∪ U);
  pg_root : root_ppn pt' = root_ppn pt;
  pg_frames : frames pt' = frames pt ++ nf;
  pg_new x : x ∈ nf → x ∉ U;
  pg_free : free_frames m' lo (list_to_set nf ∪ U) = free_frames m lo U - Z.of_nat (length nf);
  pg_ram x : x ∉ frames pt' → ram m' !! x = ram m !! x;
}.

Lemma pt_rep_frame m m' pt A :
  pt_rep m pt A → (∀ x, x ∈ frames pt → ram m' !! x = ram m !! x) → pt_rep m' pt A.
Proof.
  intros (kids & lvl & Hinv & HA & Hr) Hram. exists kids, lvl. split_and!; [|intros v Hv|done].
  - by eapply pt_inv_frame.
  - rewrite <- HA by done. eapply pt_abs_frame; [done|]. intros q Hq. apply Hram, (pi_frames _ _ _ _ Hinv). eauto.
Qed.

(** The frames of a table are distinct, and in the range of page numbers. *)
Lemma pt_rep_frames m pt A :
  pt_rep m pt A → NoDup (frames pt) ∧ root_ppn pt ∈ frames pt ∧ (∀ x, x ∈ frames pt → 0 ≤ x < 2 ^ 44).
Proof.
  intros (kids & lvl & Hinv & _). split_and!; [apply (pi_nodup _ _ _ _ Hinv)| |].
  - apply (pi_frames _ _ _ _ Hinv). rewrite (pi_root _ _ _ _ Hinv). eauto.
  - intros x [n Hx]%(pi_frames _ _ _ _ Hinv). by apply (pi_node _ _ _ _ Hinv) in Hx as [? _].
Qed.

(** A new table maps nothing. *)
Lemma PageTable_new_spec m lo U :
  mem_ok m lo U → 0 < free_frames m lo U →
  ∃ p m', PageTable_new m = Ok (mkPT p [p], m') ∧ pt_rep m' (mkPT p [p]) ∅ ∧ p ∉ U ∧
    mem_ok m' lo ({[p]} ∪ U) ∧ free_frames m' lo ({[p]} ∪ U) = free_frames m lo U - 1 ∧
    ram m' = <[p := zero_frame]> (ram m).
Proof.
  intros Hm Hfree. destruct (frame_alloc_spec m lo U Hm Hfree) as (p & m' & Hal & Hp & HpU & Hm' & Hfr & Hram).
  pose proof (fa_range _ _ _ (mo_alloc _ _ _ Hm)) as Hrng.
  exists p, m'. unfold PageTable_new. run Hal. rewrite M_unwrap_bind. split_and!; try done.
  exists ∅, {[p := 0]}. rewrite Hram. split_and!; [split|..]; cbn [frames root_ppn].
  - intros x. rewrite list_elem_of_singleton. destruct (decide (x = p)) as [->|];
      [rewrite lookup_singleton_eq|rewrite lookup_singleton_ne by done; split; [done|by intros [? ?]]].
    split; eauto.
  - apply NoDup_singleton.
  - by rewrite lookup_singleton_eq.
  - intros x n [<- _]%lookup_singleton_Some. split; [lia|]. rewrite lookup_insert_eq.
    eexists. split; [done|apply zero_frame_ok].
  - by intros ??? ?%lookup_empty_Some.
  - by intros ??? ?%lookup_empty_Some.
  - intros x n i [<- _]%lookup_singleton_Some _ _. by rewrite pte_of_zero.
  - intros v _. done.
  - by intros v e ?%lookup_empty_Some.
Qed.

(** A page of the same leaf node is mapped: the nodes for [vpn] exist. *)
Definition warm (A : gmap Z Z) (vpn : Z) : Prop := ∃ w e, A !! w = Some e ∧ w / 512 = vpn / 512.

(** [k] frames are enough for the nodes that mapping [vpn] needs. *)
Definition node_budget (A : gmap Z Z) (vpn : Z) (k : nat) : Prop := warm A vpn ∨ (2 ≤ k)%nat.

Lemma missing_budget m pt kids lvl A vpn k :
  pt_inv (ram m) pt kids lvl → (∀ v, 0 ≤ v < VPN_END → pt_abs (ram m) pt kids v = A !! v) →
  (∀ v e, A !! v = Some e → 0 ≤ v < VPN_END) → node_budget A vpn k → (missing_nodes pt kids vpn ≤ k)%nat.
Proof.
  intros Hinv HA Hr [(w & e & He & Hw)|Hk]; [|unfold missing_nodes; repeat case_match; lia].
  pose proof (HA w (Hr _ _ He)) as Habs. rewrite He in Habs. unfold pt_abs, leaf_of in Habs. rewrite Hw in Habs.
  unfold missing_nodes. destruct (kids !! (root_ppn pt, vpn / 512 / 512)) as [p|]; [|done]. cbn [mbind option_bind] in Habs.
  destruct (kids !! (p, (vpn / 512) mod 512)); [lia|done].
Qed.

Section ops.
Context (m : mem) (lo : Z) (U : gset Z) (pt : PageTable) (A : gmap Z Z).
Hypothesis Hm : mem_ok m lo U.
Hypothesis Hrep : pt_rep m pt A.
Hypothesis HU : ∀ x, x ∈ frames pt → x ∈ U.

Lemma translate_rep vpn :
  0 ≤ vpn < VPN_END →
  match A !! vpn with
  | Some e => translate pt vpn m = Ok (Some e, m) ∧ is_valid e = true
  | None => translate pt vpn m = Ok (None, m) ∨ ∃ e, translate pt vpn m = Ok (Some e, m) ∧ is_valid e = false
  end.
Proof using Hrep.
  intros Hv. destruct Hrep as (kids & lvl & Hinv & HA & _). rewrite (translate_run m pt kids lvl Hinv vpn Hv).
  rewrite <- HA by done. unfold pt_abs. destruct (leaf_of pt kids vpn) as [q|]; cbn; [|by left].
  destruct (is_valid _) eqn:He; [done|]. right. eauto.
Qed.

(** What [find_pte_create] leaves: the entry's place, and the same map. *)
Lemma pt_map_fresh vpn ppn flags k :
  0 ≤ vpn < VPN_END → 0 ≤ ppn < 2 ^ 44 → 0 ≤ flags < 256 → node_budget A vpn k →
  Z.of_nat k ≤ free_frames m lo U → A !! vpn = None →
  ∃ m' pt' nf, pt_map pt vpn ppn flags m = Ok (pt', m') ∧
    pt_rep m' pt' (<[vpn := PTE_new ppn (Z.lor flags PTE_V)]> A) ∧
    pt_grown lo m U pt m' pt' nf ∧ (length nf ≤ k)%nat.
Proof using Hm Hrep HU.
  intros Hv Hp Hf Hk Hfree Hnone. destruct Hrep as (kids & lvl & Hinv & HA & Hr).
  pose proof (missing_budget m pt kids lvl A vpn k Hinv HA Hr Hk) as Hmiss.
  destruct (find_pte_create_spec lo m U pt kids lvl vpn Hm Hinv HU Hv)
    as (q & m1 & U1 & pt1 & kids1 & lvl1 & nf & Hfind & Hinv1 & Hx & Hq & Hnf).
  { lia. }
  pose proof (leaf_level m1 pt1 kids1 lvl1 Hinv1 vpn q Hq) as Hlq.
  destruct (pi_node _ _ _ _ Hinv1 _ _ Hlq) as (Hqr & b & Hb & Hbok).
  assert (0 ≤ Z.lor flags PTE_V < 256) as Hfl by (by apply lor_V_range).
  set (e := PTE_new ppn (Z.lor flags PTE_V)).
  pose proof (PTE_new_range ppn _ Hp Hfl) as He.
  destruct (leaf_store _ _ _ _ _ _ _ e Hinv1 Hq Hb He) as [Hinv2 Habs].
  pose proof (Z.mod_pos_bound vpn 512 ltac:(lia)) as Hi.
  set (m2 := set_ram (<[q := arr_set 8 b (vpn mod 512) e]> (ram m1)) m1).
  assert (pt_abs (ram m1) pt1 kids1 vpn = None) as Hinvalid.
  { by rewrite (pe_abs _ _ _ _ _ _ _ _ _ _ Hx), HA. }
  unfold pt_abs in Hinvalid. rewrite Hq in Hinvalid. cbn [mbind option_bind] in Hinvalid.
  exists m2, pt1, nf. split_and!.
  - unfold pt_map. run Hfind. rewrite M_unwrap_bind. run (read_leaf m1 pt1 kids1 lvl1 Hinv1 vpn q Hq).
    rewrite M_assert_bind by (by destruct (is_valid (pte_of _ _ _))).
    by run (write_pte_run m1 q (vpn mod 512) b e Hqr Hb (proj2 Hi)).
  - exists kids1, lvl1. split_and!; [done| |].
    + intros v Hvr. cbn [ram set_ram m2]. rewrite Habs. destruct (decide (v = vpn)) as [->|].
      * rewrite lookup_insert_eq. subst e. by rewrite is_valid_new, lor_V_odd by done.
      * by rewrite lookup_insert_ne, (pe_abs _ _ _ _ _ _ _ _ _ _ Hx), HA.
    + intros v e' [[<- _]|[_ ?]]%lookup_insert_Some; [done|by eapply Hr].
  - destruct Hx as [X1 X2 X3 -> X5 X6 X7 X8 X9]. split; try done.
    + apply mem_ok_set; [done|by apply frame_ok_set|eauto].
    + intros x Hx. cbn [ram set_ram m2]. rewrite lookup_insert_ne; [by apply X8|]. intros ->.
      apply Hx, (pi_frames _ _ _ _ Hinv1). eauto.
  - by rewrite Hnf.
Qed.

(** Mapping a page twice is caught. *)
Lemma pt_map_taken vpn ppn flags e :
  A !! vpn = Some e → pt_map pt vpn ppn flags m = Stop Panicked.
Proof using Hm Hrep HU.
  intros He. destruct Hrep as (kids & lvl & Hinv & HA & Hr). pose proof (Hr _ _ He) as Hv.
  pose proof (HA _ Hv) as Habs. rewrite He in Habs. unfold pt_abs in Habs.
  apply bind_Some in Habs as (q & Hq & Hval).
  destruct (find_pte_create_spec lo m U pt kids lvl vpn Hm Hinv HU Hv)
    as (q1 & m1 & U1 & pt1 & kids1 & lvl1 & nf & Hfind & Hinv1 & Hx & Hq1 & Hnf).
  { pose proof (free_frames_pos m lo U Hm). apply bind_Some in Hq as (p & Hp & Hq).
    unfold missing_nodes. rewrite Hp, Hq. lia. }
  unfold pt_map. run Hfind. rewrite M_unwrap_bind. run (read_leaf m1 pt1 kids1 lvl1 Hinv1 vpn q1 Hq1).
  apply M_assert_fail. pose proof (pe_abs _ _ _ _ _ _ _ _ _ _ Hx vpn) as Hsame.
  rewrite HA, He in Hsame by done. unfold pt_abs in Hsame. rewrite Hq1 in Hsame. cbn [mbind option_bind] in Hsame.
  by destruct (is_valid (pte_of (ram m1) q1 (vpn mod 512))).
Qed.

Lemma pt_unmap_mapped vpn e :
  A !! vpn = Some e →
  ∃ m', pt_unmap pt vpn m = Ok ((), m') ∧ pt_rep m' pt (delete vpn A) ∧ mem_ok m' lo U ∧
    falloc m' = falloc m ∧ (∀ x, x ∉ frames pt → ram m' !! x = ram m !! x) ∧
    translate pt vpn m' = Ok (Some PTE_empty, m').
Proof using Hm Hrep.
  intros He. destruct Hrep as (kids & lvl & Hinv & HA & Hr). pose proof (Hr _ _ He) as Hv.
  pose proof (HA _ Hv) as Habs. rewrite He in Habs. unfold pt_abs in Habs.
  apply bind_Some in Habs as (q & Hq & Hval).
  pose proof (leaf_level m pt kids lvl Hinv vpn q Hq) as Hlq.
  destruct (pi_node _ _ _ _ Hinv _ _ Hlq) as (Hqr & b & Hb & Hbok).
  destruct (leaf_store _ _ _ _ _ _ _ PTE_empty Hinv Hq Hb ltac:(done)) as [Hinv2 Hset].
  pose proof (Z.mod_pos_bound vpn 512 ltac:(lia)) as Hi.
  set (m2 := set_ram (<[q := arr_set 8 b (vpn mod 512) PTE_empty]> (ram m)) m).
  exists m2. split_and!; try done.
  - unfold pt_unmap. run (find_pte_run m pt kids lvl Hinv vpn Hv). rewrite Hq. cbn [fmap option_fmap option_map].
    rewrite M_unwrap_bind. run (read_leaf m pt kids lvl Hinv vpn q Hq).
    rewrite M_assert_bind by (by destruct (is_valid (pte_of _ _ _))). apply (write_pte_run m q (vpn mod 512) b PTE_empty Hqr Hb (proj2 Hi)).
  - exists kids, lvl. split_and!; [done| |].
    + intros v Hvr. cbn [ram set_ram m2]. rewrite Hset. destruct (decide (v = vpn)) as [->|].
      * by rewrite lookup_delete_eq.
      * by rewrite lookup_delete_ne, HA.
    + intros v e' [_ ?]%lookup_delete_Some. by eapply Hr.
  - apply mem_ok_set; [done|by apply frame_ok_set|eauto].
  - intros x Hx. cbn [ram set_ram m2]. rewrite lookup_insert_ne; [done|]. intros ->.
    apply Hx, (pi_frames _ _ _ _ Hinv). eauto.
  - rewrite (translate_run m2 pt kids lvl Hinv2 vpn Hv), Hq. cbn [fmap option_fmap option_map ram set_ram m2].
    rewrite (pte_of_insert _ _ b) by (done || apply Hbok || lia). by rewrite decide_True.
Qed.

Lemma pt_unmap_unmapped vpn :
  0 ≤ vpn < VPN_END → A !! vpn = None → pt_unmap pt vpn m = Stop Panicked.
Proof using Hrep.
  intros Hv He. destruct Hrep as (kids & lvl & Hinv & HA & Hr).
  pose proof (HA _ Hv) as Habs. rewrite He in Habs. unfold pt_abs in Habs.
  unfold pt_unmap. run (find_pte_run m pt kids lvl Hinv vpn Hv).
  destruct (leaf_of pt kids vpn) as [q|] eqn:Hq; [|done]. cbn [mbind option_bind] in Habs. cbn [fmap option_fmap option_map].
  rewrite M_unwrap_bind. run (read_leaf m pt kids lvl Hinv vpn q Hq).
  apply M_assert_fail. by destruct (is_valid _).
Qed.
End ops.
