(* ===== verification/UserMem.v ===== *)
(** * UserMem: the kernel's accesses to user memory (os/src/memory/page_table.rs)

    [translated_byte_buffer], [translated_str] and [translated_refmut] look up
    a user page table by its token.  Each is stated against the table's map:
    the byte at virtual address [va] is the byte at physical address
    [phys A va]. *)

From stdpp Require Import base gmap list numbers.
From S2P Require Import Prelude Bytes Address FrameAllocator PageTable PageTableInv PageTableRep.

Definition VA_END : Z := 2 ^ 39.

Definition phys (A : gmap Z Z) (va : Z) : Z := 4096 * PTE_ppn (default 0 (A !! floor va)) + page_offset va.

(** The byte a user program finds at [va]. *)
Definition user_byte (m : mem) (A : gmap Z Z) (va : Z) : option Z :=
  e ← A !! floor va; b ← ram m !! PTE_ppn e; b !! Z.to_nat (page_offset va).

Definition slice_addrs (s : slice_ref) : list Z := seqZ (slice_pa s) (slice_len s).

(** A slice a kernel reference can be: not empty, and inside one frame. *)
Definition slice_ok (s : slice_ref) : Prop :=
  0 < slice_len s ∧ 0 ≤ slice_pa s ∧ slice_pa s mod 4096 + slice_len s ≤ 4096.

Lemma PTE_ppn_range e : 0 ≤ PTE_ppn e < 2 ^ 44.
Proof.
  unfold PTE_ppn, PhysPageNum_from. change PPN_WIDTH_SV39 with 44. rewrite !land_ones_mod by done.
  by apply Z.mod_pos_bound.
Qed.

Lemma VirtAddr_from_id va : 0 ≤ va < VA_END → VirtAddr_from va = va.
Proof.
  intros Hva. unfold VirtAddr_from. change VA_WIDTH_SV39 with 39. rewrite land_ones_mod by done.
  by apply Z.mod_small.
Qed.

Lemma phys_floor A va : floor (phys A va) = PTE_ppn (default 0 (A !! floor va)) ∧ page_offset (phys A va) = page_offset va.
Proof.
  pose proof (addr_split va) as [_ Ho]. unfold floor at 1. rewrite (page_offset_mod (phys A va)).
  unfold phys. change PAGE_SIZE with 4096. rewrite (Z.add_comm (4096 * _)), Z.mul_comm.
  rewrite Z.div_add, Z.div_small, Z.mod_add, Z.mod_small by lia. done.
Qed.

(** Physical addresses are consecutive within a page. *)
Lemma phys_seq A start n :
  start + n ≤ 4096 * (floor start + 1) → phys A <$> seqZ start n = seqZ (phys A start) n.
Proof.
  intros Hn. replace (phys A start) with (phys A start - start + start) by lia.
  rewrite <- fmap_add_seqZ. apply list_fmap_ext. intros i x Hx%list_elem_of_lookup_2%elem_of_seqZ.
  destruct (addr_split start) as [Hs Hso]. destruct (addr_split x) as [Hx1 Hxo]. unfold phys.
  assert (floor x = floor start) as -> by lia. lia.
Qed.

(** ** Tokens *)

(** The token of a table names its root. *)
Lemma root_of_token pt : 0 ≤ root_ppn pt < 2 ^ 44 → root_ppn (from_token (token pt)) = root_ppn pt.
Proof.
  intros Hr. unfold from_token, token. cbn [root_ppn].
  change (8 <<u 60) with (2 ^ 19 * 2 ^ 44).
  rewrite land_ones_mod, PhysPageNum_from_id by (done || by apply Z.mod_pos_bound).
  rewrite <- Z.shiftl_mul_pow2 by done. rewrite shiftl_lor_add by done.
  rewrite Z.add_comm, Z.mod_add by done. by apply Z.mod_small.
Qed.

Lemma translate_root pt pt' vpn : root_ppn pt = root_ppn pt' → translate pt vpn = translate pt' vpn.
Proof. intros Hr. unfold translate, find_pte. by rewrite Hr. Qed.

Lemma translate_va_translate pt va m o m' :
  translate pt (floor va) m = Ok (o, m') →
  translate_va pt va m =
    Ok ((λ pte, PhysAddr_from (addr_of_page_num (PTE_ppn pte) +u page_offset va)) <$> o, m').
Proof.
  unfold translate, translate_va, mbind, M_bind. destruct (find_pte pt (floor va) m) as [[[l|] m1]|]; [| |done].
  - destruct (read_pte l m1) as [[pte m2]|]; [|done]. by intros [= <- <-].
  - by intros [= <- <-].
Qed.

Section user.
Context (m : mem) (pt : PageTable) (A : gmap Z Z).
Hypothesis Hrep : pt_rep m pt A.

Lemma root_range : 0 ≤ root_ppn pt < 2 ^ 44.
Proof using Hrep. destruct (pt_rep_frames _ _ _ Hrep) as (_ & Hr & Hrng). by apply Hrng. Qed.

Lemma translate_token vpn e :
  A !! vpn = Some e → translate (from_token (token pt)) vpn m = Ok (Some e, m).
Proof using Hrep.
  intros He. rewrite (translate_root _ pt) by (apply root_of_token, root_range).
  pose proof Hrep as (_ & _ & _ & _ & Hr). pose proof (translate_rep m pt A Hrep vpn (Hr _ _ He)) as Ht.
  rewrite He in Ht. by destruct Ht.
Qed.

Lemma translate_va_rep va e :
  A !! floor va = Some e → translate_va (from_token (token pt)) va m = Ok (Some (phys A va), m).
Proof using Hrep.
  intros He. rewrite (translate_va_translate _ _ _ _ _ (translate_token _ _ He)). cbn [fmap option_fmap option_map].
  unfold phys. rewrite He. cbn [default from_option id]. pose proof (PTE_ppn_range e) as Hp.
  change (2 ^ 44) with 17592186044416 in Hp. pose proof (addr_split va) as [_ Ho].
  rewrite addr_of_page_num_eq by (change (2 ^ 52) with 4503599627370496; lia).
  rewrite uadd_small by (mach_unfold; lia). unfold PhysAddr_from. change PA_WIDTH_SV39 with 56.
  rewrite land_ones_mod by done. rewrite Z.mod_small; [done|]. change (2 ^ 56) with 72057594037927936. lia.
Qed.

Lemma load_user va v :
  user_byte m A va = Some v → load_byte (phys A va) m = Ok (v, m).
Proof using.
  unfold user_byte, load_byte. destruct (phys_floor A va) as [-> ->].
  destruct (A !! floor va) as [e|]; [|done]. cbn [mbind option_bind default from_option id]. by intros ->.
Qed.

(** [translated_byte_buffer] cuts the range at page borders; its slices are
    the bytes of the range, in order. *)
Lemma tbb_loop_spec fuel : ∀ start end_ v,
  0 ≤ start ≤ end_ → end_ < VA_END → (Z.to_nat (end_ - start) < fuel)%nat →
  (∀ va, start ≤ va < end_ → is_Some (A !! floor va)) →
  ∃ ss, tbb_loop fuel (from_token (token pt)) start end_ v m = Ok (v ++ ss, m) ∧
    concat (slice_addrs <$> ss) = phys A <$> seqZ start (end_ - start) ∧ Forall slice_ok ss.
Proof using Hrep.
  unfold VA_END. change (2 ^ 39) with 549755813888.
  induction fuel as [|fuel IH]; intros start end_ v Hs He Hf Hmap; [lia|]. cbn [tbb_loop].
  destruct (Z.ltb_spec start end_) as [Hlt|Hge].
  2:{ exists []. replace (end_ - start) with 0 by lia. by rewrite app_nil_r. }
  destruct (Hmap start ltac:(lia)) as [e Hse]. rewrite !VirtAddr_from_id by (unfold VA_END; lia).
  run (translate_token _ _ Hse). rewrite M_unwrap_bind.
  pose proof (floor_range start ltac:(lia)) as Hfl. change (2 ^ 27) with 134217728 in Hfl.
  destruct (addr_split start) as [Hs1 Hso]. unfold step. rewrite uadd_small by (mach_unfold; lia).
  pose proof (PTE_ppn_range e) as Hp. change (2 ^ 44) with 17592186044416 in Hp.
  rewrite !addr_of_page_num_eq by (change (2 ^ 52) with 4503599627370496; lia).
  set (mid := Z.min (4096 * (floor start + 1)) end_).
  assert (start < mid ≤ end_ ∧ mid ≤ 4096 * (floor start + 1)) as Hmid by lia.
  set (hi := if page_offset mid =? 0 then PAGE_SIZE else page_offset mid).
  assert (hi = mid - 4096 * floor start) as Hhi.
  { subst hi. destruct (addr_split mid) as [Hm1 Hmo]. change PAGE_SIZE with 4096.
    destruct (Z.eqb_spec (page_offset mid) 0); lia. }
  rewrite M_assert_bind by (apply Z.leb_le; lia).
  set (s := mkSlice _ _). destruct (IH mid end_ (v ++ [s])) as (ss & Hrun & Hcat & Hok); try lia.
  { intros va Hva. apply Hmap. lia. }
  exists (s :: ss). rewrite <- app_assoc in Hrun. split_and!; [done| |constructor; [|done]].
  - rewrite fmap_cons. cbn [concat]. rewrite Hcat.
    replace (end_ - start) with ((mid - start) + (end_ - mid)) by lia. rewrite seqZ_app by lia.
    rewrite fmap_app, (phys_seq A start (mid - start)) by (clear -Hmid; lia). replace (start + (mid - start)) with mid by lia. f_equal.
    unfold slice_addrs, s, phys. cbn [slice_pa slice_len]. rewrite Hse. cbn [default from_option id]. f_equal. lia.
  - unfold slice_ok, s. cbn [slice_pa slice_len]. rewrite Z.add_comm, Z.mul_comm, Z.mod_add, Z.mod_small by lia. lia.
Qed.

Lemma translated_byte_buffer_spec ptr len :
  0 ≤ ptr → 0 ≤ len → ptr + len < VA_END →
  (∀ va, ptr ≤ va < ptr + len → is_Some (A !! floor va)) →
  ∃ ss, translated_byte_buffer (token pt) ptr len m = Ok (ss, m) ∧
    concat (slice_addrs <$> ss) = phys A <$> seqZ ptr len ∧ Forall slice_ok ss.
Proof using Hrep.
  intros Hp Hl He Hmap. unfold translated_byte_buffer. change VA_END with 549755813888 in *.
  rewrite uadd_small by (mach_unfold; lia).
  destruct (tbb_loop_spec (S (Z.to_nat len)) ptr (ptr + len) []) as (ss & Hrun & Hcat & Hok);
    [lia|done|lia|done|]. exists ss. by replace (ptr + len - ptr) with len in Hcat by lia.
Qed.

(** The string [s] lies at [va], ended by a NUL. *)
Definition str_at (va : Z) (s : list Z) : Prop :=
  (∀ i c, s !! i = Some c → user_byte m A (va + Z.of_nat i) = Some c ∧ c ≠ 0) ∧
  user_byte m A (va + Z.of_nat (length s)) = Some 0.

Lemma ts_loop_step fuel va acc c :
  0 ≤ va < VA_END → user_byte m A va = Some c →
  ts_loop (S fuel) (from_token (token pt)) va acc m =
  if c =? 0 then Ok (acc, m) else ts_loop fuel (from_token (token pt)) (va + 1) (acc ++ [c]) m.
Proof using Hrep.
  intros Hva Hc. cbn [ts_loop]. rewrite VirtAddr_from_id by done.
  assert (is_Some (A !! floor va)) as [e He].
  { unfold user_byte in Hc. by destruct (A !! floor va); [eauto|]. }
  run (translate_va_rep _ _ He). rewrite M_unwrap_bind. run (load_user _ _ Hc).
  destruct (c =? 0); [done|]. change VA_END with 549755813888 in Hva.
  by rewrite uadd_small by (mach_unfold; lia).
Qed.

Lemma translated_str_loop s : ∀ fuel va acc,
  0 ≤ va → va + Z.of_nat (length s) < VA_END → str_at va s → (length s < fuel)%nat →
  ts_loop fuel (from_token (token pt)) va acc m = Ok (acc ++ s, m).
Proof using Hrep.
  induction s as [|c s IH]; intros fuel va acc Hva Hend [Hs Hz] Hf; (destruct fuel as [|fuel]; [simpl in Hf; lia|]).
  - simpl in Hz, Hend. rewrite (ts_loop_step fuel va acc 0) by (lia || by rewrite Z.add_0_r in Hz).
    by rewrite app_nil_r.
  - cbn [length] in *. destruct (Hs 0%nat c eq_refl) as [Hc Hne].
    rewrite (ts_loop_step fuel va acc c) by (lia || by rewrite Z.add_0_r in Hc).
    destruct (Z.eqb_spec c 0); [done|]. rewrite IH; [by rewrite <- app_assoc|lia|lia| |lia].
    split; [|rewrite <- Hz; f_equal; lia]. intros i c' Hi.
    replace (va + 1 + Z.of_nat i) with (va + Z.of_nat (S i)) by lia. by apply Hs.
Qed.
End user.

(** ** The iterator over a buffer *)

(** Every pointer the iterator yields. *)
Fixpoint ubi_drain (fuel : nat) (it : UserBufferIterator) : res (list Z) :=
  match fuel with
  | O => Stop OutOfFuel
  | S fuel =>
      ubi_next it ≫= λ o,
      match o with
      | None => Ok []
      | Some (p, it) => ubi_drain fuel it ≫= λ l, Ok (p :: l)
      end
  end.

Lemma ubi_drain_from fuel : ∀ bs1 b bs2 j,
  Forall slice_ok (b :: bs2) → 0 ≤ j < slice_len b →
  (length (concat (slice_addrs <$> (b :: bs2))) < fuel + Z.to_nat j)%nat →
  ubi_drain fuel (mkUBI (bs1 ++ b :: bs2) (length bs1) j) =
  Ok (seqZ (slice_pa b + j) (slice_len b - j) ++ concat (slice_addrs <$> bs2)).
Proof.
  induction fuel as [|fuel IH]; intros bs1 b bs2 j Hok Hj Hf.
  { rewrite fmap_cons in Hf. cbn [concat] in Hf. rewrite length_app in Hf. unfold slice_addrs at 1 in Hf.
    rewrite length_seqZ in Hf. lia. }
  pose proof Hok as [(Hl & _ & Hl2) Hok2]%list.Forall_cons.
  pose proof (Z.mod_pos_bound (slice_pa b) 4096 ltac:(lia)).
  cbn [ubi_drain]. unfold ubi_next. cbn [buffers current_buffer current_idx].
  rewrite list_lookup_middle by done. cbn [mbind res_bind]. destruct (Z.ltb_spec j (slice_len b)); [|lia].
  cbn [assert_res mbind res_bind]. rewrite uadd_small by (mach_unfold; lia).
  rewrite (seqZ_cons (slice_pa b + j)) by lia. replace (Z.succ (slice_pa b + j)) with (slice_pa b + (j + 1)) by lia.
  replace (Z.pred (slice_len b - j)) with (slice_len b - (j + 1)) by lia.
  destruct (Z.eqb_spec (j + 1) (slice_len b)) as [Heq|Hne].
  - replace (slice_len b - (j + 1)) with 0 by lia. cbn [seqZ app].
    replace (bs1 ++ b :: bs2) with ((bs1 ++ [b]) ++ bs2) by (by rewrite <- app_assoc).
    replace (S (length bs1)) with (length (bs1 ++ [b])) by (rewrite length_app; simpl; lia).
    rewrite fmap_cons in Hf. cbn [concat] in Hf. rewrite length_app in Hf. unfold slice_addrs at 1 in Hf.
    rewrite length_seqZ in Hf. destruct bs2 as [|b2 bs2].
    + destruct fuel as [|fuel]; [simpl in Hf; lia|]. cbn [ubi_drain]. unfold ubi_next.
      cbn [buffers current_buffer]. by rewrite app_nil_r, lookup_ge_None_2 by lia.
    + apply list.Forall_cons in Hok2 as Hok2'. destruct Hok2' as [[Hl' _] _].
      rewrite IH by (done || lia). by rewrite Z.add_0_r, Z.sub_0_r.
  - by rewrite IH by (done || lia).
Qed.

Lemma ubi_drain_all bs fuel :
  Forall slice_ok bs → (length (concat (slice_addrs <$> bs)) < fuel)%nat →
  ubi_drain fuel (into_iter bs) = Ok (concat (slice_addrs <$> bs)).
Proof.
  intros Hok Hf. destruct bs as [|b bs].
  { by destruct fuel; [simpl in Hf; lia|]. }
  pose proof Hok as [[Hl _] _]%list.Forall_cons.
  etrans; [apply (ubi_drain_from fuel [] b bs 0); [done|lia|lia]|]. by rewrite Z.add_0_r, Z.sub_0_r.
Qed.

(** [UserBuffer::len] counts the bytes of the slices. *)
Lemma UserBuffer_len_from bs : ∀ acc,
  Forall slice_ok bs → 0 ≤ acc → acc + Z.of_nat (length (concat (slice_addrs <$> bs))) < 2 ^ 64 →
  foldl (λ total b, total +u slice_len b) acc bs = acc + Z.of_nat (length (concat (slice_addrs <$> bs))).
Proof.
  induction bs as [|b bs IH]; intros acc Hok Ha Hlt; cbn [foldl fmap list_fmap concat length] in *; [lia|].
  apply list.Forall_cons in Hok as [[Hb _] Hok]. rewrite length_app in *.
  unfold slice_addrs at 1 in Hlt. unfold slice_addrs at 1. rewrite length_seqZ in *.
  rewrite uadd_small by (mach_unfold; lia). rewrite IH by (done || lia). lia.
Qed.

Lemma UserBuffer_len_addrs bs :
  Forall slice_ok bs → Z.of_nat (length (concat (slice_addrs <$> bs))) < 2 ^ 64 →
  UserBuffer_len bs = Z.of_nat (length (concat (slice_addrs <$> bs))).
Proof. intros Hok Hlt. by apply (UserBuffer_len_from bs 0). Qed.
