(* ===== verification/MemorySet.v ===== *)
(** * MemorySet: address spaces (os/src/memory/memory_set.rs)

    A [MapArea] is a range of virtual pages; a [MemorySet] is a page table and
    its areas.  [data_frames], a [BTreeMap], is the list of its pairs in key
    order, which is also the order in which it drops its frames.

    Symbols of the linker script are an argument ([kernel_symbols]), and so is
    what the crate xmas_elf finds in an ELF image ([ElfFile]). *)

From stdpp Require Import base gmap list numbers.
From S2P Require Import Prelude Bytes Address FrameAllocator PageTable.

Inductive MapType : Type :=
| Identical
| Framed.

#[export] Instance MapType_eq_dec : EqDecision MapType.
Proof. solve_decision. Defined.

Definition MapPermission_R : Z := 2.
Definition MapPermission_W : Z := 4.
Definition MapPermission_X : Z := 8.
Definition MapPermission_U : Z := 16.

Record MapArea : Type := mkArea {
  vpn_range : SimpleRange;
  data_frames : list (Z * Z);
  map_type : MapType;
  map_perm : Z;
}.

Record MemorySet : Type := mkMS {
  page_table : PageTable;
  areas : list MapArea;
}.

(** ** [BTreeMap<VirtPageNum, FrameTracker>] *)

(** [insert]: the value the key had, and the map. *)
Fixpoint bt_insert (k v : Z) (l : list (Z * Z)) : option Z * list (Z * Z) :=
  match l with
  | [] => (None, [(k, v)])
  | (k', v') :: l' =>
      if k <? k' then (None, (k, v) :: l)
      else if k =? k' then (Some v', (k, v) :: l')
      else let '(o, r) := bt_insert k v l' in (o, (k', v') :: r)
  end.

(** [remove]: the value the key had, and the map. *)
Fixpoint bt_remove (k : Z) (l : list (Z * Z)) : option Z * list (Z * Z) :=
  match l with
  | [] => (None, [])
  | (k', v') :: l' =>
      if k =? k' then (Some v', l')
      else let '(o, r) := bt_remove k l' in (o, (k', v') :: r)
  end.

(** An [Option<FrameTracker>] that goes out of scope. *)
Definition drop_tracker (o : option Z) : M mem () :=
  match o with Some f => frame_dealloc f | None => mret () end.

(** ** [MapArea] *)
Definition MapArea_new (start_va end_va : Z) (map_type : MapType) (map_perm : Z) : res MapArea :=
  let start_vpn := floor start_va in
  let end_vpn := ceil end_va in
  SimpleRange_new start_vpn end_vpn ≫= λ r, Ok (mkArea r [] map_type map_perm).

Definition from_another (another : MapArea) : res MapArea :=
  SimpleRange_new (get_start (vpn_range another)) (get_end (vpn_range another)) ≫= λ r,
  Ok (mkArea r [] (map_type another) (map_perm another)).

Definition set_data_frames (d : list (Z * Z)) (a : MapArea) : MapArea :=
  mkArea (vpn_range a) d (map_type a) (map_perm a).

(** [map_one]: the area and the page table after it. *)
Definition map_one (a : MapArea) (pt : PageTable) (vpn : Z) : M mem (MapArea * PageTable) :=
  (match map_type a with
   | Identical => mret (vpn, a)
   | Framed =>
       frame_alloc ≫= λ o, unwrap o ≫= λ frame,
       let '(old, d) := bt_insert vpn frame (data_frames a) in
       drop_tracker old ≫= λ _,
       mret (frame, set_data_frames d a)
   end) ≫= λ '(ppn, a),
  pt_map pt vpn ppn (map_perm a) ≫= λ pt,
  mret (a, pt).

Definition unmap_one (a : MapArea) (pt : PageTable) (vpn : Z) : M mem MapArea :=
  (if decide (map_type a = Framed) then
     let '(old, d) := bt_remove vpn (data_frames a) in
     drop_tracker old ≫= λ _, mret (set_data_frames d a)
   else mret a) ≫= λ a,
  pt_unmap pt vpn ≫= λ _,
  mret a.

Fixpoint map_loop (vpns : list Z) (a : MapArea) (pt : PageTable) : M mem (MapArea * PageTable) :=
  match vpns with
  | [] => mret (a, pt)
  | vpn :: vpns => map_one a pt vpn ≫= λ '(a, pt), map_loop vpns a pt
  end.
Definition area_map (a : MapArea) (pt : PageTable) : M mem (MapArea * PageTable) :=
  lift_res (range_list (vpn_range a)) ≫= λ vpns, map_loop vpns a pt.

Fixpoint unmap_loop (vpns : list Z) (a : MapArea) (pt : PageTable) : M mem MapArea :=
  match vpns with
  | [] => mret a
  | vpn :: vpns => unmap_one a pt vpn ≫= λ a, unmap_loop vpns a pt
  end.
Definition area_unmap (a : MapArea) (pt : PageTable) : M mem MapArea :=
  lift_res (range_list (vpn_range a)) ≫= λ vpns, unmap_loop vpns a pt.

(** The loop of [copy_data]: one page per turn.  [start] grows by a page each
    turn, so the length of [data] bounds the number of turns. *)
Fixpoint copy_loop (fuel : nat) (pt : PageTable) (data : list Z) (start current_vpn : Z) : M mem () :=
  match fuel with
  | O => halt OutOfFuel
  | S fuel =>
      let len := Z.of_nat (length data) in
      let src := slice (Z.to_nat start) (Z.to_nat (Z.min len (start +u PAGE_SIZE) - start)) data in
      translate pt current_vpn ≫= λ o, unwrap o ≫= λ pte,
      get_bytes_array (PTE_ppn pte) ≫= λ b,
      put_bytes_array (PTE_ppn pte) (splice 0 src b) ≫= λ _,
      let start := start +u PAGE_SIZE in
      if len <=? start then mret () else copy_loop fuel pt data start (step current_vpn)
  end.
Definition copy_data (a : MapArea) (pt : PageTable) (data : list Z) : M mem () :=
  assertM (bool_decide (map_type a = Framed)) ≫= λ _,
  copy_loop (S (length data)) pt data 0 (get_start (vpn_range a)).

(** ** [MemorySet] *)
Definition new_bare : M mem MemorySet :=
  PageTable_new ≫= λ pt, mret (mkMS pt []).

Definition ms_token (ms : MemorySet) : Z := token (page_table ms).

Definition push (ms : MemorySet) (map_area : MapArea) (data : option (list Z)) : M mem MemorySet :=
  area_map map_area (page_table ms) ≫= λ '(map_area, pt),
  (match data with
   | Some data => copy_data map_area pt data
   | None => mret ()
   end) ≫= λ _,
  mret (mkMS pt (areas ms ++ [map_area])).

(** What the linker script defines. *)
Record kernel_symbols : Type := mkSyms {
  stext : Z; etext : Z;
  srodata : Z; erodata : Z;
  sdata : Z; edata : Z;
  sbss_with_stack : Z; ebss : Z;
  ekernel : Z;
  strampoline : Z;
}.

Definition map_trampoline (syms : kernel_symbols) (ms : MemorySet) : M mem MemorySet :=
  lift_res (page_num_of_addr (VirtAddr_from TRAMPOLINE)) ≫= λ vpn,
  lift_res (page_num_of_addr (PhysAddr_from (strampoline syms))) ≫= λ ppn,
  pt_map (page_table ms) vpn ppn (Z.lor PTE_R PTE_X) ≫= λ pt,
  mret (mkMS pt (areas ms)).

(** [find] on the areas: the first one that starts at [start_vpn]. *)
Fixpoint find_area (start_vpn : Z) (l : list MapArea) (i : nat) : option (nat * MapArea) :=
  match l with
  | [] => None
  | a :: l => if get_start (vpn_range a) =? start_vpn then Some (i, a) else find_area start_vpn l (S i)
  end.

(** A [MapArea] that is dropped gives its frames back. *)
Definition drop_area (a : MapArea) : M mem () := drop_frames (data_frames a).*2.

Definition remove_area_with_start_vpn (ms : MemorySet) (start_vpn : Z) : M mem MemorySet :=
  match find_area start_vpn (areas ms) 0 with
  | Some (idx, area) =>
      area_unmap area (page_table ms) ≫= λ area,
      drop_area area ≫= λ _,
      mret (mkMS (page_table ms) (delete idx (areas ms)))
  | None => mret ms
  end.

Definition insert_framed_area (ms : MemorySet) (start_va end_va permission : Z) : M mem MemorySet :=
  lift_res (MapArea_new start_va end_va Framed permission) ≫= λ a, push ms a None.

(** [MapArea::new] followed by [push], as [new_kernel] does for each section. *)
Definition push_identical (ms : MemorySet) (start end_ perm : Z) : M mem MemorySet :=
  lift_res (MapArea_new (VirtAddr_from start) (VirtAddr_from end_) Identical perm) ≫= λ a,
  push ms a None.

Fixpoint push_mmio (ms : MemorySet) (pairs : list (Z * Z)) : M mem MemorySet :=
  match pairs with
  | [] => mret ms
  | p :: pairs =>
      push_identical ms p.1 (p.1 +u p.2) (Z.lor MapPermission_R MapPermission_W) ≫= λ ms,
      push_mmio ms pairs
  end.

(** [MMIO] is a constant of the board's configuration. *)
Definition new_kernel (syms : kernel_symbols) (MMIO : list (Z * Z)) : M mem MemorySet :=
  new_bare ≫= λ ms,
  map_trampoline syms ms ≫= λ ms,
  push_identical ms (stext syms) (etext syms) (Z.lor MapPermission_R MapPermission_X) ≫= λ ms,
  push_identical ms (srodata syms) (erodata syms) MapPermission_R ≫= λ ms,
  push_identical ms (sdata syms) (edata syms) (Z.lor MapPermission_R MapPermission_W) ≫= λ ms,
  push_identical ms (sbss_with_stack syms) (ebss syms) (Z.lor MapPermission_R MapPermission_W) ≫= λ ms,
  push_identical ms (ekernel syms) MEMORY_END (Z.lor MapPermission_R MapPermission_W) ≫= λ ms,
  push_mmio ms MMIO.

(** ** ELF images

    What xmas_elf reads from an image: the header's magic number and entry
    point, and the program headers.  A program header that cannot be read, or
    whose type cannot, is [None]. *)
Record ProgramHeader : Type := mkPH {
  ph_type_load : option bool;
  ph_virtual_addr : Z;
  ph_mem_size : Z;
  ph_offset : Z;
  ph_file_size : Z;
  ph_read : bool;
  ph_write : bool;
  ph_execute : bool;
}.
Record ElfFile : Type := mkElf {
  elf_magic : list Z;
  elf_entry_point : Z;
  elf_program_headers : list (option ProgramHeader);
}.

(** [MapPermission::U] and the flags of the header. *)
Definition ph_perm (ph : ProgramHeader) : Z :=
  let map_perm := MapPermission_U in
  let map_perm := if ph_read ph then Z.lor map_perm MapPermission_R else map_perm in
  let map_perm := if ph_write ph then Z.lor map_perm MapPermission_W else map_perm in
  if ph_execute ph then Z.lor map_perm MapPermission_X else map_perm.

(** [&elf.input[lo..hi]]. *)
Definition elf_slice (input : list Z) (lo hi : Z) : res (list Z) :=
  assert_res ((lo <=? hi) && (hi <=? Z.of_nat (length input))) ≫= λ _,
  Ok (slice (Z.to_nat lo) (Z.to_nat (hi - lo)) input).

(** The loop over the program headers. *)
Fixpoint load_segments (input : list Z) (phs : list (option ProgramHeader)) (ms : MemorySet)
    (max_end_vpn : Z) : M mem (MemorySet * Z) :=
  match phs with
  | [] => mret (ms, max_end_vpn)
  | oph :: phs =>
      unwrap oph ≫= λ ph,
      unwrap (ph_type_load ph) ≫= λ load,
      if (load : bool) then
        let start_va := VirtAddr_from (ph_virtual_addr ph) in
        let end_va := VirtAddr_from (ph_virtual_addr ph +u ph_mem_size ph) in
        lift_res (MapArea_new start_va end_va Framed (ph_perm ph)) ≫= λ map_area,
        let max_end_vpn := get_end (vpn_range map_area) in
        lift_res (elf_slice input (ph_offset ph) (ph_offset ph +u ph_file_size ph)) ≫= λ data,
        push ms map_area (Some data) ≫= λ ms,
        load_segments input phs ms max_end_vpn
      else load_segments input phs ms max_end_vpn
  end.

Section elf.
(** [xmas_elf::ElfFile::new]; [None] when it fails. *)
Context (ElfFile_new : list Z → option ElfFile).

(** [from_elf]: the address space, the top of the user stack and the entry
    point. *)
Definition from_elf (syms : kernel_symbols) (elf_data : list Z) : M mem (MemorySet * Z * Z) :=
  new_bare ≫= λ ms,
  map_trampoline syms ms ≫= λ ms,
  unwrap (ElfFile_new elf_data) ≫= λ elf,
  assertM (bool_decide (elf_magic elf = [0x7f; 0x45; 0x4c; 0x46])) ≫= λ _,
  load_segments elf_data (elf_program_headers elf) ms 0 ≫= λ '(ms, max_end_vpn),
  let user_stack_bottom := addr_of_page_num max_end_vpn in
  let user_stack_bottom := user_stack_bottom +u PAGE_SIZE in
  let user_stack_top := user_stack_bottom +u USER_STACK_SIZE in
  lift_res (MapArea_new (VirtAddr_from user_stack_bottom) (VirtAddr_from user_stack_top) Framed
    (Z.lor (Z.lor MapPermission_R MapPermission_W) MapPermission_U)) ≫= λ a,
  push ms a None ≫= λ ms,
  lift_res (MapArea_new (VirtAddr_from TRAP_CONTEXT) (VirtAddr_from TRAMPOLINE) Framed
    (Z.lor MapPermission_R MapPermission_W)) ≫= λ a,
  push ms a None ≫= λ ms,
  mret (ms, user_stack_top, elf_entry_point elf).
End elf.

(** ** Copying an address space *)

(** The inner loop of [from_existed_user]: the bytes of each page. *)
Fixpoint copy_pages (vpns : list Z) (src_pt dst_pt : PageTable) : M mem () :=
  match vpns with
  | [] => mret ()
  | vpn :: vpns =>
      translate src_pt vpn ≫= λ o, unwrap o ≫= λ src_pte,
      translate dst_pt vpn ≫= λ o, unwrap o ≫= λ dst_pte,
      get_bytes_array (PTE_ppn src_pte) ≫= λ b,
      put_bytes_array (PTE_ppn dst_pte) b ≫= λ _,
      copy_pages vpns src_pt dst_pt
  end.

Fixpoint copy_areas (src_pt : PageTable) (l : list MapArea) (ms : MemorySet) : M mem MemorySet :=
  match l with
  | [] => mret ms
  | area :: l =>
      lift_res (from_another area) ≫= λ new_area,
      push ms new_area None ≫= λ ms,
      lift_res (range_list (vpn_range area)) ≫= λ vpns,
      copy_pages vpns src_pt (page_table ms) ≫= λ _,
      copy_areas src_pt l ms
  end.

Definition from_existed_user (syms : kernel_symbols) (user_space : MemorySet) : M mem MemorySet :=
  new_bare ≫= λ ms,
  map_trampoline syms ms ≫= λ ms,
  copy_areas (page_table user_space) (areas user_space) ms.

Definition ms_translate (ms : MemorySet) (vpn : Z) : M mem (option Z) := translate (page_table ms) vpn.

(** ** Giving memory back *)
Definition recycle_data_pages (ms : MemorySet) : M mem MemorySet :=
  for_each (areas ms) drop_area ≫= λ _,
  mret (mkMS (page_table ms) []).

(** Dropping a [MemorySet] drops its page table, then its areas. *)
Definition drop_memory_set (ms : MemorySet) : M mem () :=
  drop_frames (frames (page_table ms)) ≫= λ _,
  for_each (areas ms) drop_area.

(** ** [remap_test] *)
Definition remap_test (syms : kernel_symbols) (kernel_space : MemorySet) : M mem () :=
  let mid_text := VirtAddr_from ((stext syms +u etext syms) / 2) in
  let mid_rodata := VirtAddr_from ((srodata syms +u erodata syms) / 2) in
  let mid_data := VirtAddr_from ((sdata syms +u edata syms) / 2) in
  ms_translate kernel_space (floor mid_text) ≫= λ o, unwrap o ≫= λ pte,
  assertM (negb (writable pte)) ≫= λ _,
  ms_translate kernel_space (floor mid_rodata) ≫= λ o, unwrap o ≫= λ pte,
  assertM (negb (writable pte)) ≫= λ _,
  ms_translate kernel_space (floor mid_data) ≫= λ o, unwrap o ≫= λ pte,
  assertM (negb (executable pte)).
