(* ===== verification/AllocOrder.v ===== *)
(** * AllocOrder: frames given back are used before new ones
    (os/src/memory/frame_allocator.rs)

    Code that only allocates takes the recycled frames first.  The kernel relies
    on it when it starts: the frames of the allocator's self-test are used up by
    the kernel's page tables, so that the virtio driver finds consecutive
    frames. *)

From stdpp Require Import base gmap list numbers.
From S2P Require Import Prelude Bytes Address FrameAllocator PageTable MemorySet.

Record alloc_order (a a' : StackFrameAllocator) : Prop := {
  ao_suffix : recycled a' `suffix_of` recycled a;
  ao_current : recycled a' = [] ∨ current a' = current a;
  ao_end : end_ a' = end_ a;
}.

#[export] Instance alloc_order_preorder : PreOrder alloc_order.
Proof.
  split; [intros a; by split; [|right|]|]. intros a b c [H1 H2 H3] [H4 H5 H6].
  split; [by etrans| |congruence]. destruct H5 as [H5|H5]; [by left|].
  destruct H2 as [H2|H2]; [|right; congruence]. left. rewrite H2 in H4. by apply suffix_nil_inv in H4.
Qed.

Definition allocs {A} (f : M mem A) : Prop := ∀ m a m', f m = Ok (a, m') → alloc_order (falloc m) (falloc m').

Create HintDb allocs.

Lemma allocs_bind {A B} (f : M mem A) (g : A → M mem B) : allocs f → (∀ a, allocs (g a)) → allocs (f ≫= g).
Proof. intros Hf Hg m b m' (a & m1 & H1 & H2)%M_bind_Ok. etrans; [by eapply Hf|by eapply Hg]. Qed.
Lemma allocs_lift {A} (r : res A) : allocs (lift_res r).
Proof. intros m a m'. unfold lift_res. destruct r; [|done]. by intros [= _ <-]. Qed.
Lemma allocs_unwrap {A} (o : option A) : allocs (unwrap o).
Proof. apply allocs_lift. Qed.
Lemma allocs_assert b : allocs (assertM b).
Proof. apply allocs_lift. Qed.
Lemma allocs_ret {A} (a : A) : allocs (mret a).
Proof. by intros m b m' [= _ <-]. Qed.
Lemma allocs_get p : allocs (get_bytes_array p).
Proof. intros m a m'. unfold get_bytes_array. destruct (ram m !! _); [|done]. by intros [= _ <-]. Qed.
Lemma allocs_put p b : allocs (put_bytes_array p b).
Proof. intros m a m'. unfold put_bytes_array. destruct (ram m !! _); [|done]. by intros [= _ <-]. Qed.
#[export] Hint Resolve allocs_lift allocs_unwrap allocs_assert allocs_ret allocs_get allocs_put : allocs.

(** Follow the shape of the code. *)
Ltac allocs := repeat first
  [ progress intros | solve [auto with allocs] | apply allocs_bind | progress case_match ].

Lemma allocs_frame_alloc : allocs frame_alloc.
Proof.
  intros m o m'. unfold frame_alloc. destruct (SFA_alloc (falloc m)) as [r a] eqn:Ha.
  assert (alloc_order (falloc m) a) as Hao.
  { unfold SFA_alloc in Ha. destruct (recycled (falloc m)) as [|p rest] eqn:Hr.
    - destruct (_ =? _); injection Ha as _ <-; [done|]. split; cbn; [|by left|done]. rewrite Hr. done.
    - injection Ha as _ <-. split; cbn; [|by right|done]. rewrite Hr. by apply suffix_cons_r. }
  destruct r as [p|]; [|by intros [= _ <-]]. intros H. etrans; [exact Hao|].
  assert (allocs (FrameTracker_new p ≫= λ f, mret (Some f))) as Hf by (unfold FrameTracker_new; allocs).
  exact (Hf _ _ _ H).
Qed.
#[export] Hint Resolve allocs_frame_alloc : allocs.

Lemma allocs_read_pte l : allocs (read_pte l).
Proof. unfold read_pte. allocs. Qed.
Lemma allocs_write_pte l e : allocs (write_pte l e).
Proof. unfold write_pte. allocs. Qed.
#[export] Hint Resolve allocs_read_pte allocs_write_pte : allocs.
Lemma allocs_child ppn idx fr : allocs (child_or_new ppn idx fr).
Proof. unfold child_or_new. allocs. Qed.
#[export] Hint Resolve allocs_child : allocs.
Lemma allocs_create_loop idxs : ∀ i ppn fr, allocs (find_pte_create_loop idxs i ppn fr).
Proof. induction idxs as [|x idxs IH]; intros i ppn fr; cbn [find_pte_create_loop]; allocs. Qed.
#[export] Hint Resolve allocs_create_loop : allocs.
Lemma allocs_pt_map pt vpn ppn fl : allocs (pt_map pt vpn ppn fl).
Proof. unfold pt_map, find_pte_create. allocs. Qed.
#[export] Hint Resolve allocs_pt_map : allocs.

Lemma allocs_map_loop vpns : ∀ a pt, map_type a = Identical → allocs (map_loop vpns a pt).
Proof.
  induction vpns as [|v vpns IH]; intros a pt Ha; cbn [map_loop]; [allocs|].
  intros m r m' ([a1 pt1] & m1 & H1 & H2)%M_bind_Ok. unfold map_one in H1. rewrite Ha, M_ret_bind in H1.
  apply M_bind_Ok in H1 as (pt2 & m2 & H1 & [= <- <- <-]). etrans; [by eapply allocs_pt_map|by eapply IH].
Qed.

Lemma allocs_push_identical ms s e p : allocs (push_identical ms s e p).
Proof.
  unfold push_identical. intros m ms' m' (a & m1 & H1 & H2)%M_bind_Ok. unfold lift_res in H1.
  destruct (MapArea_new _ _ _ _) as [a0|] eqn:Ha; [|done]. injection H1 as <- <-.
  apply res_bind_Ok in Ha as (r & _ & [= <-]).
  revert H2. apply allocs_bind; [|allocs]. unfold area_map. apply allocs_bind; [allocs|]. intros l. by apply allocs_map_loop.
Qed.
#[export] Hint Resolve allocs_push_identical : allocs.

Lemma allocs_push_mmio pairs : ∀ ms, allocs (push_mmio ms pairs).
Proof. induction pairs as [|p pairs IH]; intros ms; cbn [push_mmio]; allocs. Qed.
#[export] Hint Resolve allocs_push_mmio : allocs.

Lemma allocs_new_kernel syms MMIO : allocs (new_kernel syms MMIO).
Proof. unfold new_kernel, new_bare, PageTable_new, map_trampoline. allocs. Qed.

Lemma allocs_alloc_n n : ∀ v, allocs (alloc_n n v).
Proof. induction n as [|n IH]; intros v; cbn [alloc_n]; allocs. Qed.

(** ** Counting *)

(** The frames ever handed out are in use or recycled. *)
Lemma fa_count a lo U : fa_inv a lo U → Z.of_nat (size U) + Z.of_nat (length (recycled a)) = current a - lo.
Proof.
  intros [Hr Hnd Hrec Hu].
  assert (U ∪ list_to_set (recycled a) = list_to_set (seqZ lo (current a - lo)) :> gset Z) as Hset.
  { apply set_eq. intros x. rewrite elem_of_union, !elem_of_list_to_set, elem_of_seqZ, Hu. split.
    - intros [[? _]|Hx%Hrec]; lia.
    - intros Hx. destruct (decide (x ∈ recycled a)); [by right|left]. split; [lia|done]. }
  apply (f_equal size) in Hset. rewrite size_list_to_set, length_seqZ in Hset by apply NoDup_seqZ.
  rewrite size_union, size_list_to_set in Hset by (done || (intros x [_ Hx]%Hu Hx2%elem_of_list_to_set; done)).
  lia.
Qed.

(** With enough allocations nothing recycled is left. *)
Lemma recycled_used a a' lo U' :
  alloc_order a a' → fa_inv a' lo U' → current a - lo ≤ Z.of_nat (size U') → recycled a' = [].
Proof.
  intros [_ [H|H] _] Hfa Hn; [done|]. pose proof (fa_count _ _ _ Hfa). destruct (recycled a'); [done|]. cbn in *. lia.
Qed.

(** ** The self-test of the allocator *)
Lemma alloc_n_spec lo n : ∀ v m U, mem_ok m lo U → Z.of_nat n ≤ free_frames m lo U →
  ∃ l m', alloc_n n v m = Ok (v ++ l, m') ∧ length l = n ∧ NoDup l ∧ (∀ x, x ∈ l → x ∉ U) ∧
    mem_ok m' lo (list_to_set l ∪ U) ∧ free_frames m' lo (list_to_set l ∪ U) = free_frames m lo U - Z.of_nat n.
Proof.
  induction n as [|n IH]; intros v m U Hok Hf.
  { exists [], m. replace (list_to_set [] ∪ U) with U by set_solver. rewrite app_nil_r. split_and!; try done; [constructor|by intros x ?%elem_of_nil|lia]. }
  destruct (frame_alloc_spec m lo U Hok) as (p & m1 & H1 & _ & HpU & Hok1 & Hf1 & _); [lia|].
  destruct (IH (v ++ [p]) m1 _ Hok1) as (l & m' & H2 & Hl & Hnd & Hnew & Hok' & Hf'); [lia|].
  exists (p :: l), m'. replace (list_to_set (p :: l) ∪ U) with (list_to_set l ∪ ({[p]} ∪ U)) by (cbn; set_solver).
  split_and!; [|cbn; lia| | |done|lia].
  - cbn [alloc_n]. run H1. rewrite M_unwrap_bind, H2, <- app_assoc. done.
  - apply list.NoDup_cons. split; [|done]. intros Hp%Hnew. set_solver.
  - intros x [->|Hx]%elem_of_cons; [done|]. apply Hnew in Hx. set_solver.
Qed.

Lemma drop_frames_current l : ∀ m m', drop_frames l m = Ok ((), m') → current (falloc m') = current (falloc m).
Proof.
  induction l as [|p l IH]; intros m m'; [by intros [= <-]|]. unfold drop_frames in *. cbn [for_each].
  intros ([] & m1 & H1 & H2)%M_bind_Ok. rewrite (IH _ _ H2). unfold frame_dealloc in H1.
  destruct (SFA_dealloc p (falloc m)) as [a|] eqn:Ha; [|done]. injection H1 as <-. unfold SFA_dealloc in Ha.
  destruct (_ || _); [done|]. by injection Ha as <-.
Qed.

(** One half of the test: five frames, taken and given back. *)
Lemma alloc_drop lo m U bound :
  mem_ok m lo U → 5 ≤ free_frames m lo U → current (falloc m) ≤ bound → lo + Z.of_nat (size U) + 5 ≤ bound →
  ∃ m', (alloc_n 5 [] ≫= drop_frames) m = Ok ((), m') ∧ mem_ok m' lo U ∧ free_frames m' lo U = free_frames m lo U ∧
    current (falloc m') ≤ bound.
Proof.
  intros Hok Hf Hc Hb. destruct (alloc_n_spec lo 5 [] m U Hok Hf) as (l & m1 & H1 & Hl & Hnd & Hnew & Hok1 & Hf1).
  destruct (drop_frames_spec lo l m1 _ Hok1 Hnd) as (m2 & H2 & Hok2 & _ & Hf2); [set_solver|].
  assert ((list_to_set l ∪ U) ∖ list_to_set l = U) as HU by set_solver. rewrite HU in Hok2, Hf2.
  exists m2. split_and!; [by run H1|done|lia|]. rewrite (drop_frames_current _ _ _ H2).
  destruct (ao_current _ _ (allocs_alloc_n _ _ _ _ _ H1)) as [Hr|Hr]; [|lia].
  pose proof (fa_count _ _ _ (mo_alloc _ _ _ Hok1)) as Hcnt. rewrite Hr in Hcnt. cbn in Hcnt.
  rewrite size_union, size_list_to_set, Hl in Hcnt by (done || set_solver). lia.
Qed.

Lemma frame_allocator_test_spec lo m U :
  mem_ok m lo U → 5 ≤ free_frames m lo U → current (falloc m) ≤ lo + Z.of_nat (size U) + 5 →
  ∃ m', frame_allocator_test m = Ok ((), m') ∧ mem_ok m' lo U ∧ free_frames m' lo U = free_frames m lo U ∧
    current (falloc m') ≤ lo + Z.of_nat (size U) + 5.
Proof.
  intros Hok Hf Hc. destruct (alloc_drop lo m U _ Hok Hf Hc ltac:(done)) as (m1 & H1 & Hok1 & Hf1 & Hc1).
  destruct (alloc_drop lo m1 U _ Hok1 ltac:(lia) Hc1 ltac:(done)) as (m2 & H2 & Hok2 & Hf2 & Hc2).
  exists m2. split_and!; [|done|lia|done]. unfold frame_allocator_test.
  apply M_bind_Ok in H1 as (v & m0 & H1 & H1'). run H1. run H1'. exact H2.
Qed.
