(* ===== verification/AreaMap.v ===== *)
(** * AreaMap: mapping and unmapping one area (os/src/memory/memory_set.rs)

    [map] over an area inserts one entry per page and, for a framed area,
    takes one zeroed frame per page; [unmap] undoes it. *)

From stdpp Require Import base gmap list numbers.
From S2P Require Import Prelude Bytes Address FrameAllocator PageTable PageTableInv PageTableRep MemorySet.

(** ** Taking frames

    From [m] to [m'] the frames [nf] were allocated, and of the other frames
    only those of [W] were written. *)
Record grows (lo : Z) (m : mem) (U : gset Z) (m' : mem) (nf : list Z) (W : list Z) : Prop := {
  gw_mem : mem_ok m' lo (list_to_set nf ∪ U);
  gw_nodup : NoDup nf;
  gw_new x : x ∈ nf → x ∉ U;
  gw_free : free_frames m' lo (list_to_set nf ∪ U) = free_frames m lo U - Z.of_nat (length nf);
  gw_ram x : x ∉ W → x ∉ nf → ram m' !! x = ram m !! x;
}.

Lemma grows_refl lo m U W : mem_ok m lo U → grows lo m U m [] W.
Proof.
  intros Hm. assert (list_to_set [] ∪ U = U) as HU by set_solver. split; rewrite ?HU; try done.
  - constructor.
  - by intros x ?%elem_of_nil.
  - simpl. lia.
Qed.

Lemma grows_trans lo m1 U m2 m3 nf1 nf2 W W2 :
  grows lo m1 U m2 nf1 W → grows lo m2 (list_to_set nf1 ∪ U) m3 nf2 W2 →
  (∀ x, x ∈ W2 → x ∈ W ∨ x ∈ nf1) → grows lo m1 U m3 (nf1 ++ nf2) W.
Proof.
  intros [A1 A2 A3 A4 A5] [B1 B2 B3 B4 B5] HW.
  assert (list_to_set (nf1 ++ nf2) ∪ U = list_to_set nf2 ∪ (list_to_set nf1 ∪ U)) as HU.
  { rewrite list_to_set_app_L. set_solver. }
  split; rewrite ?HU; try done.
  - apply list.NoDup_app. split_and!; [done| |done]. intros x Hx1 Hx2%B3. set_solver.
  - intros x [Hx|Hx]%elem_of_app; [by apply A3|]. apply B3 in Hx. set_solver.
  - rewrite B4, A4, length_app. lia.
  - intros x Hx Hn. rewrite not_elem_of_app in Hn. destruct Hn as [Hn1 Hn2].
    rewrite B5, A5; try done. intros [?|?]%HW; done.
Qed.

Lemma grows_perm lo m U m' nf nf' W : nf ≡ₚ nf' → grows lo m U m' nf W → grows lo m U m' nf' W.
Proof.
  intros Hp [A1 A2 A3 A4 A5]. assert (list_to_set nf' =@{gset Z} list_to_set nf) as Hs.
  { apply list_to_set_perm_L. by symmetry. }
  split; rewrite ?Hs; try done.
  - by rewrite <- Hp.
  - intros x. rewrite <- Hp. apply A3.
  - by rewrite <- Hp.
  - intros x Hx Hn. apply A5; [done|]. by rewrite Hp.
Qed.

Lemma app_interleave {A} (a b c d : list A) : (a ++ b) ++ (c ++ d) ≡ₚ (a ++ c) ++ (b ++ d).
Proof.
  rewrite <- !app_assoc. apply Permutation_app_head. rewrite !app_assoc.
  apply Permutation_app_tail, Permutation_app_comm.
Qed.

Lemma grows_incl lo m U m' nf W x : grows lo m U m' nf W → x ∈ U → x ∉ nf.
Proof. intros Hg Hx Hn. by apply (gw_new _ _ _ _ _ _ Hg) in Hn. Qed.

Lemma pt_grown_grows lo m U pt m' pt' nf :
  pt_grown lo m U pt m' pt' nf → NoDup (frames pt') → grows lo m U m' nf (frames pt).
Proof.
  intros [A1 A2 A3 A4 A5 A6] Hd. split; try done.
  - rewrite A3, list.NoDup_app in Hd. tauto.
  - intros x Hx Hn. apply A6. rewrite A3, elem_of_app. tauto.
Qed.

(** ** One page *)
Lemma bt_insert_last k v l : (∀ k', k' ∈ l.*1 → k' < k) → bt_insert k v l = (None, l ++ [(k, v)]).
Proof.
  induction l as [|[k' v'] l IH]; intros Hk; cbn [bt_insert]; [done|].
  assert (k' < k) by (apply Hk; rewrite fmap_cons; elt).
  destruct (Z.ltb_spec k k'); [lia|]. destruct (Z.eqb_spec k k'); [lia|].
  rewrite IH; [done|]. intros x Hx. apply Hk. rewrite fmap_cons. elt.
Qed.

(** The entry an area makes for a page that lies in frame [ppn]. *)
Definition area_pte (a : MapArea) (ppn : Z) : Z := PTE_new ppn (Z.lor (map_perm a) PTE_V).

Lemma map_one_identical lo m U pt A a vpn k :
  mem_ok m lo U → pt_rep m pt A → (∀ x, x ∈ frames pt → x ∈ U) → map_type a = Identical →
  0 ≤ vpn < VPN_END → 0 ≤ map_perm a < 256 → A !! vpn = None →
  node_budget A vpn k → Z.of_nat k ≤ free_frames m lo U →
  ∃ m' pt' nn, map_one a pt vpn m = Ok ((a, pt'), m') ∧
    pt_rep m' pt' (<[vpn := area_pte a vpn]> A) ∧ grows lo m U m' nn (frames pt) ∧
    frames pt' = frames pt ++ nn ∧ (length nn ≤ k)%nat.
Proof.
  intros Hm Hrep HU Hty Hv Hp Hnone Hk Hfree. change VPN_END with 134217728 in Hv.
  destruct (pt_map_fresh m lo U pt A Hm Hrep HU vpn vpn (map_perm a) k) as (m' & pt' & nn & Hrun & Hrep' & Hg & Hn);
    try done; [change (2 ^ 44) with 17592186044416; lia|].
  exists m', pt', nn. split_and!; try done.
  - unfold map_one. rewrite Hty, M_ret_bind. by run Hrun.
  - eapply pt_grown_grows; [done|]. apply (pt_rep_frames _ _ _ Hrep').
  - apply (pg_frames _ _ _ _ _ _ _ Hg).
Qed.

Lemma map_one_framed lo m U pt A a vpn k :
  mem_ok m lo U → pt_rep m pt A → (∀ x, x ∈ frames pt → x ∈ U) → map_type a = Framed →
  0 ≤ vpn < VPN_END → 0 ≤ map_perm a < 256 → A !! vpn = None →
  node_budget A vpn k → 1 + Z.of_nat k ≤ free_frames m lo U → (∀ x, x ∈ (data_frames a).*1 → x < vpn) →
  ∃ m' pt' f nn, map_one a pt vpn m = Ok ((set_data_frames (data_frames a ++ [(vpn, f)]) a, pt'), m') ∧
    pt_rep m' pt' (<[vpn := area_pte a f]> A) ∧ grows lo m U m' (f :: nn) (frames pt) ∧
    frames pt' = frames pt ++ nn ∧ (length nn ≤ k)%nat ∧ ram m' !! f = Some zero_frame.
Proof.
  intros Hm Hrep HU Hty Hv Hp Hnone Hk Hfree Hkeys.
  destruct (frame_alloc_spec m lo U Hm ltac:(lia)) as (f & m1 & Hal & Hf & HfU & Hm1 & Hfr1 & Hram1).
  pose proof (fa_range _ _ _ (mo_alloc _ _ _ Hm)) as Hrng.
  assert (grows lo m U m1 [f] (frames pt)) as Hg1.
  { assert (list_to_set [f] ∪ U =@{gset Z} {[f]} ∪ U) as HU1 by set_solver.
    split; rewrite ?HU1; try done; [apply NoDup_singleton|by intros x ->%list_elem_of_singleton|].
    intros x _ Hx%not_elem_of_cons. rewrite Hram1, lookup_insert_ne; [done|]. destruct Hx; congruence. }
  assert (pt_rep m1 pt A) as Hrep1.
  { eapply pt_rep_frame; [done|]. intros x Hx. rewrite Hram1, lookup_insert_ne; [done|].
    intros ->. by apply HfU, HU. }
  destruct (pt_map_fresh m1 lo ({[f]} ∪ U) pt A Hm1 Hrep1) with (vpn := vpn) (ppn := f) (flags := map_perm a) (k := k)
    as (m' & pt' & nn & Hrun & Hrep' & Hg & Hn); try done; [set_solver|lia|lia|].
  pose proof (pt_grown_grows _ _ _ _ _ _ _ Hg (proj1 (pt_rep_frames _ _ _ Hrep'))) as Hg2.
  exists m', pt', f, nn. split_and!; try done.
  - unfold map_one. rewrite Hty, M_bind_assoc. run Hal. rewrite M_bind_assoc, M_unwrap_bind.
    rewrite bt_insert_last by done. cbn [drop_tracker]. rewrite M_bind_assoc, M_ret_bind, M_ret_bind.
    cbn [map_perm set_data_frames]. by run Hrun.
  - replace ({[f]} ∪ U) with (list_to_set [f] ∪ U) in Hg2 by set_solver.
    apply (grows_trans _ _ _ _ _ _ _ _ _ Hg1 Hg2). intros x Hx. by left.
  - apply (pg_frames _ _ _ _ _ _ _ Hg).
  - rewrite (gw_ram _ _ _ _ _ _ Hg2), Hram1; [apply lookup_insert_eq| |].
    + intros Hin. by apply HfU, HU.
    + intros Hin%(gw_new _ _ _ _ _ _ Hg2). set_solver.
Qed.

(** ** All pages of an area *)

(** The frames a framed area takes for [n] pages; an identical area takes
    none. *)
Definition frames_for (a : MapArea) (n : nat) (fs : list Z) : Prop :=
  length fs = match map_type a with Identical => 0%nat | Framed => n end.

(** Where the pages lie. *)
Definition backing (a : MapArea) (vpns fs : list Z) : list Z :=
  match map_type a with Identical => vpns | Framed => fs end.

Definition area_entries (a : MapArea) (vpns fs : list Z) : list (Z * Z) :=
  zip vpns (area_pte a <$> backing a vpns fs).

(** What mapping costs: a frame per page of a framed area, and the nodes. *)
Definition frame_cost (a : MapArea) (n : nat) : Z :=
  match map_type a with Identical => 0 | Framed => Z.of_nat n end.

Lemma map_one_spec lo m U pt A a vpn k :
  mem_ok m lo U → pt_rep m pt A → (∀ x, x ∈ frames pt → x ∈ U) →
  0 ≤ vpn < VPN_END → 0 ≤ map_perm a < 256 → A !! vpn = None → node_budget A vpn k →
  frame_cost a 1 + Z.of_nat k ≤ free_frames m lo U → (∀ x, x ∈ (data_frames a).*1 → x < vpn) →
  ∃ m' pt' fs nn, map_one a pt vpn m = Ok ((set_data_frames (data_frames a ++ zip [vpn] fs) a, pt'), m') ∧
    frames_for a 1 fs ∧ pt_rep m' pt' (list_to_map (area_entries a [vpn] fs) ∪ A) ∧
    grows lo m U m' (fs ++ nn) (frames pt) ∧ frames pt' = frames pt ++ nn ∧ (length nn ≤ k)%nat ∧
    (∀ f, f ∈ fs → ram m' !! f = Some zero_frame).
Proof.
  intros Hm Hrep HU Hv Hp Hnone Hk Hfree Hkeys. unfold area_entries, backing, frames_for, frame_cost in *.
  assert (∀ e, list_to_map (zip [vpn] [e]) ∪ A = <[vpn := e]> A) as Hins.
  { intros e. cbn. by rewrite insert_empty, insert_union_singleton_l. }
  destruct (map_type a) eqn:Hty.
  - destruct (map_one_identical lo m U pt A a vpn k) as (m' & pt' & nn & Hrun & Hrep' & Hg & Hfr & Hn); try done.
    exists m', pt', [], nn. cbn [fmap list_fmap]. rewrite Hins. split_and!; try done; [|by intros f ?%elem_of_nil].
    rewrite Hrun. destruct a. unfold set_data_frames. cbn. by rewrite app_nil_r.
  - destruct (map_one_framed lo m U pt A a vpn k) as (m' & pt' & f & nn & Hrun & Hrep' & Hg & Hfr & Hn & Hz); try done.
    exists m', pt', [f], nn. cbn [fmap list_fmap]. rewrite Hins. split_and!; try done.
    by intros x ->%list_elem_of_singleton.
Qed.

Lemma area_entries_cons a v vs fs1 fs2 :
  frames_for a 1 fs1 → area_entries a (v :: vs) (fs1 ++ fs2) = area_entries a [v] fs1 ++ area_entries a vs fs2.
Proof.
  unfold frames_for, area_entries, backing. destruct (map_type a); intros Hl; [done|].
  destruct fs1 as [|f [|]]; try done.
Qed.

Lemma area_entries_one a v fs :
  frames_for a 1 fs → ∃ e, area_entries a [v] fs = [(v, e)].
Proof.
  unfold frames_for, area_entries, backing. destruct (map_type a); intros Hl; [by eexists|].
  destruct fs as [|f [|]]; try done. by eexists.
Qed.

Lemma zip_cons_frames a (v : Z) vs fs1 fs2 :
  frames_for a 1 fs1 → frames_for a (length vs) fs2 →
  zip (v :: vs) (fs1 ++ fs2) = zip [v] fs1 ++ zip vs fs2.
Proof.
  unfold frames_for. destruct (map_type a); intros Hl Hl2.
  - destruct fs1; [|done]. destruct fs2; [|done]. by destruct vs.
  - destruct fs1 as [|f [|]]; try done.
Qed.

Lemma area_entries_keys a vs fs : frames_for a (length vs) fs → (area_entries a vs fs).*1 = vs.
Proof.
  unfold frames_for, area_entries, backing. intros Hl. apply fst_zip. rewrite length_fmap.
  destruct (map_type a); lia.
Qed.

Lemma list_to_map_disjoint (l1 l2 : list (Z * Z)) :
  (∀ k, k ∈ l1.*1 → k ∉ l2.*1) → (list_to_map l1 : gmap Z Z) ##ₘ list_to_map l2.
Proof.
  intros Hd. apply map_disjoint_spec. intros k x y H1%elem_of_list_to_map_2 H2%elem_of_list_to_map_2.
  apply (Hd k); by apply (list_elem_of_fmap_2 fst) in H1, H2.
Qed.

(** The nodes for the pages [l, l + n), when those for [l] itself cost [k]:
    two more at every border of 512 pages. *)
Definition node_cost (k : nat) (l : Z) (n : nat) : Z :=
  match n with
  | O => 0
  | S n => Z.of_nat k + 2 * ((l + Z.of_nat n) / 512 - l / 512)
  end.

(** The cost at [l + 1], after [l] has been mapped. *)
Definition next_cost (l : Z) : nat := if (l + 1) / 512 =? l / 512 then 0 else 2.

Lemma node_cost_step k l n : node_cost k l (S n) = Z.of_nat k + node_cost (next_cost l) (l + 1) n.
Proof.
  unfold node_cost, next_cost. destruct n as [|n]; [rewrite Z.add_0_r; lia|].
  replace (l + 1 + Z.of_nat n) with (l + Z.of_nat (S n)) by lia.
  pose proof (Z.div_mod l 512 ltac:(lia)). pose proof (Z.mod_pos_bound l 512 ltac:(lia)).
  pose proof (Z.div_mod (l + 1) 512 ltac:(lia)). pose proof (Z.mod_pos_bound (l + 1) 512 ltac:(lia)).
  destruct (Z.eqb_spec ((l + 1) / 512) (l / 512)); lia.
Qed.

Lemma node_cost_nonneg k l n : 0 ≤ node_cost k l n.
Proof.
  unfold node_cost. destruct n as [|n]; [done|]. pose proof (Z.div_le_mono l (l + Z.of_nat n) 512 ltac:(lia) ltac:(lia)). lia.
Qed.

Lemma next_budget A l e : node_budget (<[l := e]> A) (l + 1) (next_cost l).
Proof.
  unfold node_budget, next_cost. destruct (Z.eqb_spec ((l + 1) / 512) (l / 512)) as [He|]; [left|by right].
  exists l, e. by rewrite lookup_insert_eq.
Qed.

Lemma map_loop_spec lo n : ∀ l k m U pt A a,
  mem_ok m lo U → pt_rep m pt A → (∀ x, x ∈ frames pt → x ∈ U) →
  0 ≤ l → l + Z.of_nat n ≤ VPN_END → 0 ≤ map_perm a < 256 →
  (∀ v, l ≤ v < l + Z.of_nat n → A !! v = None) → node_budget A l k →
  frame_cost a n + node_cost k l n ≤ free_frames m lo U → (∀ x, x ∈ (data_frames a).*1 → x < l) →
  let vs := seqZ l (Z.of_nat n) in
  ∃ m' pt' fs nn, map_loop vs a pt m = Ok ((set_data_frames (data_frames a ++ zip vs fs) a, pt'), m') ∧
    frames_for a n fs ∧ pt_rep m' pt' (list_to_map (area_entries a vs fs) ∪ A) ∧
    grows lo m U m' (fs ++ nn) (frames pt) ∧ frames pt' = frames pt ++ nn ∧ Z.of_nat (length nn) ≤ node_cost k l n ∧
    (∀ f, f ∈ fs → ram m' !! f = Some zero_frame).
Proof.
  induction n as [|n IH]; intros l k m U pt A a Hm Hrep HU Hl Hend Hp Hnone Hk Hfree Hkeys vs.
  { exists m, pt, [], []. subst vs. change (seqZ l (Z.of_nat 0)) with (@nil Z).
    split_and!; try done; [|unfold frames_for; by destruct (map_type a)|
      |by apply grows_refl|by rewrite app_nil_r|by intros f ?%elem_of_nil].
    - destruct a. unfold set_data_frames. cbn. by rewrite app_nil_r.
    - unfold area_entries. cbn. by rewrite map_empty_union. }
  subst vs. rewrite seqZ_cons by lia. replace (Z.pred (Z.of_nat (S n))) with (Z.of_nat n) by lia.
  replace (Z.succ l) with (l + 1) by lia. cbn [map_loop].
  pose proof (node_cost_nonneg (next_cost l) (l + 1) n). rewrite node_cost_step in *.
  assert (frame_cost a (S n) = frame_cost a 1 + frame_cost a n) as Hfc by (unfold frame_cost; destruct (map_type a); lia).
  assert (0 ≤ frame_cost a n) by (unfold frame_cost; destruct (map_type a); lia).
  destruct (map_one_spec lo m U pt A a l k) as (m1 & pt1 & fs1 & nn1 & Hrun1 & Hf1 & Hrep1 & Hg1 & Hfr1 & Hn1 & Hz1);
    try done; [lia|apply Hnone; lia|lia|].
  run Hrun1.
  assert (Z.of_nat (length fs1) = frame_cost a 1) as Hl1 by (unfold frames_for, frame_cost in *; destruct (map_type a); lia).
  set (vs := seqZ (l + 1) (Z.of_nat n)).
  destruct (IH (l + 1) (next_cost l) m1 (list_to_set (fs1 ++ nn1) ∪ U) pt1 (list_to_map (area_entries a [l] fs1) ∪ A)
    (set_data_frames (data_frames a ++ zip [l] fs1) a))
    as (m2 & pt2 & fs2 & nn2 & Hrun2 & Hf2 & Hrep2 & Hg2 & Hfr2 & Hn2 & Hz2); try done; try lia.
  { apply (gw_mem _ _ _ _ _ _ Hg1). }
  { intros x. rewrite Hfr1, elem_of_app, elem_of_union, elem_of_list_to_set, elem_of_app. naive_solver. }
  { intros v Hv. apply lookup_union_None. split; [|apply Hnone; lia].
    apply not_elem_of_list_to_map_1. rewrite area_entries_keys by done.
    intros ->%list_elem_of_singleton. lia. }
  { destruct (area_entries_one a l fs1 Hf1) as [e ->]. cbn. rewrite insert_empty, <- insert_union_singleton_l. apply next_budget. }
  { rewrite (gw_free _ _ _ _ _ _ Hg1), length_app. change (frame_cost (set_data_frames _ a) n) with (frame_cost a n). lia. }
  { cbn [data_frames set_data_frames]. intros x. rewrite fmap_app, elem_of_app. intros [Hx%Hkeys|Hx]; [lia|].
    destruct fs1 as [|f fs1]; cbn in Hx; [by apply elem_of_nil in Hx|]. apply list_elem_of_singleton in Hx. lia. }
  change (frames_for a n fs2) in Hf2.
  exists m2, pt2, (fs1 ++ fs2), (nn1 ++ nn2).
  assert (n = length vs) as Hnv by (subst vs; rewrite length_seqZ; lia).
  split_and!.
  - etrans; [exact Hrun2|]. fold vs. cbn [data_frames set_data_frames].
    rewrite (zip_cons_frames a) by (done || by rewrite <- Hnv). by rewrite app_assoc.
  - unfold frames_for in *. rewrite length_app, Hf1, Hf2. by destruct (map_type a).
  - rewrite area_entries_cons by done. rewrite list_to_map_app, <- map_union_assoc.
    rewrite map_union_assoc, (map_union_comm (list_to_map (area_entries a [l] fs1))), <- map_union_assoc; [done|].
    apply list_to_map_disjoint. rewrite !area_entries_keys by (done || by rewrite <- Hnv).
    intros x ->%list_elem_of_singleton Hx%elem_of_seqZ. lia.
  - eapply grows_perm; [apply app_interleave|]. eapply grows_trans; [done|exact Hg2|].
    intros x. rewrite Hfr1, !elem_of_app. tauto.
  - by rewrite Hfr2, Hfr1, app_assoc.
  - rewrite length_app. lia.
  - intros f [Hf|Hf]%elem_of_app; [|by apply Hz2]. rewrite (gw_ram _ _ _ _ _ _ Hg2); [by apply Hz1| |].
    + rewrite Hfr1, elem_of_app. pose proof (gw_nodup _ _ _ _ _ _ Hg1) as Hnd.
      apply list.NoDup_app in Hnd as (_ & Hd & _). intros [Hin%HU|Hin]; [|by eapply Hd].
      revert Hin. apply (gw_new _ _ _ _ _ _ Hg1). elt.
    + intros Hin%(gw_new _ _ _ _ _ _ Hg2). set_solver.
Qed.

(** The memory shrinks: the frames [fs] went back, and only frames of [W]
    were written. *)
Record shrinks (lo : Z) (m : mem) (U : gset Z) (m' : mem) (fs : list Z) (W : list Z) : Prop := {
  sh_mem : mem_ok m' lo (U ∖ list_to_set fs);
  sh_free : free_frames m' lo (U ∖ list_to_set fs) = free_frames m lo U + Z.of_nat (length fs);
  sh_ram x : x ∉ W → ram m' !! x = ram m !! x;
}.

Lemma shrinks_trans lo m1 U m2 m3 fs1 fs2 W :
  shrinks lo m1 U m2 fs1 W → shrinks lo m2 (U ∖ list_to_set fs1) m3 fs2 W → shrinks lo m1 U m3 (fs1 ++ fs2) W.
Proof.
  intros [A1 A2 A3] [B1 B2 B3].
  assert (U ∖ list_to_set (fs1 ++ fs2) = U ∖ list_to_set fs1 ∖ list_to_set fs2) as HU.
  { rewrite list_to_set_app_L. set_solver. }
  split; rewrite ?HU; [done| |].
  - rewrite B2, A2, length_app. lia.
  - intros x Hx. by rewrite B3, A3.
Qed.

(** Giving frames back, as a drop of trackers does. *)
Lemma drop_frames_shrinks lo m U l W :
  mem_ok m lo U → NoDup l → (∀ x, x ∈ l → x ∈ U) →
  ∃ m', drop_frames l m = Ok ((), m') ∧ shrinks lo m U m' l W ∧ ram m' = ram m.
Proof.
  intros Hm Hnd Hl. destruct (drop_frames_spec lo l m U Hm Hnd Hl) as (m' & Hrun & Hm' & Hram & Hfree).
  exists m'. split_and!; [done|split|done]; try done. intros x _. by rewrite Hram.
Qed.

Lemma unmap_one_spec lo m U pt A a vpn e fs d :
  mem_ok m lo U → pt_rep m pt A → (∀ x, x ∈ frames pt → x ∈ U) → A !! vpn = Some e →
  frames_for a 1 fs → data_frames a = zip [vpn] fs ++ d → (∀ f, f ∈ fs → f ∈ U ∧ f ∉ frames pt) →
  ∃ m', unmap_one a pt vpn m = Ok (set_data_frames d a, m') ∧ pt_rep m' pt (delete vpn A) ∧
    shrinks lo m U m' fs (frames pt).
Proof.
  intros Hm Hrep HU He Hfs Hd Hf. unfold unmap_one, frames_for in *.
  destruct (map_type a) eqn:Hty.
  - destruct fs; [|done]. rewrite decide_False, M_ret_bind by done.
    destruct (pt_unmap_mapped m lo U pt A Hm Hrep vpn e He) as (m' & Hrun & Hrep' & Hm' & Hfa & Hram & _).
    exists m'. run Hrun. assert (U ∖ list_to_set [] = U) as HU0 by set_solver.
    split_and!; [|done|split; rewrite ?HU0; try done].
    + destruct a. unfold set_data_frames. cbn in *. by subst.
    + unfold free_frames. rewrite Hfa. simpl. lia.
  - destruct fs as [|f [|]]; try done. destruct (Hf f ltac:(elt)) as [HfU Hfp].
    destruct (drop_frames_shrinks lo m U [f] (frames pt)) as (m1 & Hrun1 & Hs1 & Hram1);
      [done|apply NoDup_singleton|by intros x ->%list_elem_of_singleton|].
    assert (pt_rep m1 pt A) as Hrep1 by (eapply pt_rep_frame; [done|]; intros; by rewrite Hram1).
    destruct (pt_unmap_mapped m1 lo _ pt A (sh_mem _ _ _ _ _ _ Hs1) Hrep1 vpn e He)
      as (m' & Hrun & Hrep' & Hm' & Hfa & Hram & _).
    exists m'. rewrite decide_True, Hd by done. cbn [zip zip_with app bt_remove]. rewrite Z.eqb_refl.
    assert (frame_dealloc f m = Ok ((), m1)) as Hrun1'.
    { unfold drop_frames in Hrun1. cbn [for_each] in Hrun1. apply M_bind_Ok in Hrun1 as ([] & s & H1 & H2).
      cbn in H2. by injection H2 as ->. }
    rewrite M_bind_assoc. cbn [drop_tracker]. run Hrun1'. rewrite M_ret_bind. run Hrun.
    split_and!; [done|done|]. destruct Hs1 as [S1 S2 S3]. split; try done.
    + unfold free_frames in *. by rewrite Hfa, S2.
    + intros x Hx. by rewrite Hram, S3.
Qed.

Lemma frames_for_cons a n fs :
  frames_for a (S n) fs → ∃ fs1 fs2, fs = fs1 ++ fs2 ∧ frames_for a 1 fs1 ∧ frames_for a n fs2.
Proof.
  unfold frames_for. destruct (map_type a); intros Hl.
  - destruct fs; [|done]. by exists [], [].
  - destruct fs as [|f fs]; [done|]. exists [f], fs. split_and!; try done. by injection Hl.
Qed.

Lemma unmap_loop_spec lo n : ∀ l m U pt A a fs,
  mem_ok m lo U → let vs := seqZ l (Z.of_nat n) in
  pt_rep m pt (list_to_map (area_entries a vs fs) ∪ A) → (∀ x, x ∈ frames pt → x ∈ U) →
  frames_for a n fs → NoDup fs → data_frames a = zip vs fs →
  (∀ f, f ∈ fs → f ∈ U ∧ f ∉ frames pt) → (∀ v, v ∈ vs → A !! v = None) →
  ∃ m', unmap_loop vs a pt m = Ok (set_data_frames [] a, m') ∧ pt_rep m' pt A ∧
    shrinks lo m U m' fs (frames pt).
Proof.
  induction n as [|n IH]; intros l m U pt A a fs Hm vs Hrep HU Hfs Hnd Hd Hf HA.
  { subst vs. change (seqZ l (Z.of_nat 0)) with (@nil Z) in *. exists m. unfold frames_for in Hfs.
    assert (fs = []) as -> by (by destruct (map_type a), fs). split_and!.
    - destruct a. cbn in *. by subst.
    - unfold area_entries in Hrep. cbn in Hrep. by rewrite map_empty_union in Hrep.
    - assert (U ∖ list_to_set [] = U) as HU0 by set_solver. split; rewrite ?HU0; try done. simpl. lia. }
  subst vs. rewrite seqZ_cons in * by lia. replace (Z.pred (Z.of_nat (S n))) with (Z.of_nat n) in * by lia.
  replace (Z.succ l) with (l + 1) in * by lia. set (vs := seqZ (l + 1) (Z.of_nat n)) in *. cbn [unmap_loop].
  assert (n = length vs) as Hnv by (subst vs; rewrite length_seqZ; lia).
  destruct (frames_for_cons a n fs Hfs) as (fs1 & fs2 & -> & Hfs1 & Hfs2).
  apply list.NoDup_app in Hnd as (Hnd1 & Hdisj & Hnd2).
  rewrite area_entries_cons in Hrep by done. rewrite (zip_cons_frames a) in Hd by (done || by rewrite <- Hnv).
  destruct (area_entries_one a l fs1 Hfs1) as [e Hent]. rewrite Hent in Hrep. cbn [app list_to_map foldr fst snd] in Hrep.
  change (foldr _ _ _) with (list_to_map (area_entries a vs fs2) : gmap Z Z) in Hrep.
  rewrite <- insert_union_l in Hrep.
  destruct (unmap_one_spec lo m U pt _ a l e fs1 (zip vs fs2) Hm Hrep HU) as (m1 & Hrun1 & Hrep1 & Hs1); try done.
  { apply lookup_insert_eq. }
  { intros f Hin. apply Hf. elt. }
  rewrite delete_insert_id in Hrep1.
  2:{ apply lookup_union_None. split; [|apply HA; elt]. apply not_elem_of_list_to_map_1.
    rewrite area_entries_keys by (by rewrite <- Hnv). intros Hin%elem_of_seqZ. lia. }
  run Hrun1. destruct (IH (l + 1) m1 (U ∖ list_to_set fs1) pt A (set_data_frames (zip vs fs2) a) fs2)
    as (m2 & Hrun2 & Hrep2 & Hs2); try done.
  { apply (sh_mem _ _ _ _ _ _ Hs1). }
  { intros x Hx. apply elem_of_difference. split; [by apply HU|]. rewrite elem_of_list_to_set. intros Hin.
    apply (Hf x); [elt|done]. }
  { intros f Hin. destruct (Hf f ltac:(elt)) as [H1 H2]. split; [|done]. apply elem_of_difference.
    split; [done|]. rewrite elem_of_list_to_set. intros Hin1. by apply (Hdisj f). }
  { intros v Hv. apply HA. elt. }
  exists m2. split_and!; [exact Hrun2|done|]. by eapply shrinks_trans.
Qed.
