(* ===== verification/AreaCopy.v ===== *)
(** * AreaCopy: filling the pages of an area (os/src/memory/memory_set.rs)

    [copy_data] and the page copies of [from_existed_user]: what each frame
    holds afterwards, and that no other frame changes. *)

From stdpp Require Import base gmap list numbers.
From S2P Require Import Prelude Bytes Address FrameAllocator PageTable PageTableInv PageTableRep UserMem.
From S2P Require Import MemorySet AreaMap.

(** [fs] are the frames of the pages from [cur] on. *)
Definition pages_at (A : gmap Z Z) (cur : Z) (fs : list Z) : Prop :=
  ∀ i f, fs !! i = Some f → ∃ e, A !! (cur + Z.of_nat i) = Some e ∧ PTE_ppn e = f.

Lemma pages_at_tail A cur f fs : pages_at A cur (f :: fs) → pages_at A (cur + 1) fs.
Proof.
  intros Hp i g Hg. destruct (Hp (S i) g Hg) as (e & He & Hf). exists e. split; [|done].
  rewrite <- He. f_equal. lia.
Qed.

(** The size of a page, as the length of a list. *)
Definition page_len : nat := Z.to_nat PAGE_SIZE.

Lemma page_len_Z : Z.of_nat page_len = 4096.
Proof. apply Z2Nat.id. done. Qed.

#[global] Opaque page_len.

(** The part of [data] that page number [i] of the area gets. *)
Definition chunk (data : list Z) (start i : nat) : list Z := slice (start + page_len * i) page_len data.

Lemma chunk_bytes data start i : Forall is_byte data → Forall is_byte (chunk data start i).
Proof. intros H. unfold chunk, slice. by apply Forall_take, Forall_drop. Qed.

Lemma splice_frame_ok b x : frame_ok b → Forall is_byte x → (length x ≤ page_len)%nat → frame_ok (splice 0 x b).
Proof.
  intros [Hl Hb] Hx Hlen. change (Z.to_nat PAGE_SIZE) with page_len in *. split.
  - change (Z.to_nat PAGE_SIZE) with page_len. rewrite length_splice; lia.
  - unfold splice. rewrite take_0. cbn [app]. apply Forall_app_2; [done|by apply Forall_drop].
Qed.

(** Writing a frame that is not a node of the table. *)
Lemma put_data lo m U pt A f b c :
  mem_ok m lo U → pt_rep m pt A → f ∉ frames pt → 0 ≤ f < 2 ^ 44 → ram m !! f = Some b → frame_ok c →
  let m' := set_ram (<[f := c]> (ram m)) m in
  put_bytes_array f c m = Ok ((), m') ∧ mem_ok m' lo U ∧ pt_rep m' pt A.
Proof.
  intros Hm Hrep Hf Hr Hb Hc m'. split_and!.
  - apply (put_bytes_run m f b); [|done]. change (2 ^ 44) with 17592186044416 in Hr.
    change (2 ^ 52) with 4503599627370496. lia.
  - apply mem_ok_set; [done|done|eauto].
  - eapply pt_rep_frame; [done|]. intros x Hx. subst m'. cbn [ram set_ram].
    rewrite lookup_insert_ne; [done|]. by intros ->.
Qed.

Lemma get_data m f b : 0 ≤ f < 2 ^ 44 → ram m !! f = Some b → get_bytes_array f m = Ok (b, m).
Proof.
  intros Hr Hb. apply get_bytes_run; [|done]. change (2 ^ 44) with 17592186044416 in Hr.
  change (2 ^ 52) with 4503599627370496. lia.
Qed.

Lemma translate_mapped m pt A vpn e :
  pt_rep m pt A → A !! vpn = Some e → translate pt vpn m = Ok (Some e, m).
Proof.
  intros Hrep He. pose proof Hrep as (_ & _ & _ & _ & Hr).
  pose proof (translate_rep m pt A Hrep vpn (Hr _ _ He)) as Ht. rewrite He in Ht. by destruct Ht.
Qed.

Section copy.
Context (lo : Z) (U : gset Z) (pt : PageTable) (A : gmap Z Z) (data : list Z).
Hypothesis Hdata : Forall is_byte data.

(** The source of one turn. *)
Lemma copy_src (start : nat) :
  Z.of_nat start + 4096 < 2 ^ 64 →
  slice (Z.to_nat (Z.of_nat start))
    (Z.to_nat (Z.min (Z.of_nat (length data)) (Z.of_nat start +u PAGE_SIZE) - Z.of_nat start)) data
  = chunk data start 0.
Proof using.
  change (2 ^ 64) with 18446744073709551616. intros Hs. rewrite uadd_small by (mach_unfold; change PAGE_SIZE with 4096; lia).
  change PAGE_SIZE with 4096. unfold chunk, slice. rewrite Nat2Z.id, Nat.mul_0_r, Nat.add_0_r.
  pose proof page_len_Z. destruct (decide (length data ≤ start + page_len)%nat).
  - rewrite !take_ge; rewrite ?length_drop; [done|lia|lia].
  - f_equal. lia.
Qed.

Lemma chunk_shift start i : chunk data (start + page_len) i = chunk data start (S i).
Proof using. unfold chunk. f_equal. lia. Qed.

Lemma chunk_end start i : (length data ≤ start + page_len * i)%nat → chunk data start i = [].
Proof using. intros H. unfold chunk, slice. by rewrite drop_ge, take_nil. Qed.

(** [copy_data] puts the data at the start of the frames, page after page,
    and leaves the rest of each frame. *)
Lemma copy_loop_spec fs : ∀ fuel (start : nat) cur m,
  mem_ok m lo U → pt_rep m pt A → pages_at A cur fs → NoDup fs → fs ≠ [] →
  (∀ f, f ∈ fs → f ∉ frames pt ∧ is_Some (ram m !! f)) →
  (length data ≤ start + page_len * length fs)%nat → (length data - start < page_len * fuel)%nat →
  Z.of_nat start + 4096 * Z.of_nat (length fs) < 2 ^ 63 → 0 ≤ cur → cur + Z.of_nat (length fs) ≤ VPN_END →
  ∃ m', copy_loop fuel pt data (Z.of_nat start) cur m = Ok ((), m') ∧ mem_ok m' lo U ∧ pt_rep m' pt A ∧
    falloc m' = falloc m ∧
    (∀ i f, fs !! i = Some f → ram m' !! f = splice 0 (chunk data start i) <$> ram m !! f) ∧
    (∀ x, x ∉ fs → ram m' !! x = ram m !! x).
Proof using Hdata.
  change (2 ^ 63) with 9223372036854775808. change VPN_END with 134217728. pose proof page_len_Z as Hpl.
  induction fs as [|f fs IH]; intros fuel start cur m Hm Hrep Hp Hnd Hne Hf Hlen Hfuel Hst Hcur Hend; [done|].
  cbn [length] in *. destruct fuel as [|fuel]; [lia|]. cbn [copy_loop].
  rewrite copy_src by (change (2 ^ 64) with 18446744073709551616; lia).
  destruct (Hp 0%nat f eq_refl) as (e & He & Hef). rewrite Z.add_0_r in He.
  run (translate_mapped m pt A cur e Hrep He). rewrite M_unwrap_bind, Hef.
  pose proof (PTE_ppn_range e) as Hfr. rewrite Hef in Hfr. destruct (Hf f ltac:(elt)) as [Hfp [b Hb]].
  run (get_data m f b Hfr Hb).
  assert (frame_ok (splice 0 (chunk data start 0) b)) as Hok.
  { apply splice_frame_ok; [by eapply mo_frame|by apply chunk_bytes|]. unfold chunk. rewrite length_slice. lia. }
  destruct (put_data lo m U pt A f b _ Hm Hrep Hfp Hfr Hb Hok) as (Hput & Hm1 & Hrep1).
  run Hput. set (m1 := set_ram _ _) in *. apply list.NoDup_cons in Hnd as [Hnf Hnd].
  rewrite uadd_small by (mach_unfold; change PAGE_SIZE with 4096; lia). change PAGE_SIZE with 4096.
  assert (∀ x, x ≠ f → ram m1 !! x = ram m !! x) as Hother.
  { intros x Hx. subst m1. cbn [ram set_ram]. by rewrite lookup_insert_ne. }
  destruct (Z.leb_spec (Z.of_nat (length data)) (Z.of_nat start + 4096)) as [Hdone|Hmore].
  - exists m1. split_and!; try done.
    + intros [|i] g Hg; cbn in Hg.
      * injection Hg as <-. subst m1. cbn [ram set_ram]. by rewrite lookup_insert_eq, Hb.
      * assert (g ∈ fs) as Hgin by (by eapply list_elem_of_lookup_2).
        rewrite Hother by (by intros ->). rewrite chunk_end by lia.
        destruct (ram m !! g) as [c|]; [|done]. cbn. by rewrite splice_nil by lia.
    + intros x Hx. apply Hother. intros ->. apply Hx. elt.
  - assert (fs ≠ []) as Hfs by (intros ->; simpl in *; lia).
    replace (Z.of_nat start + 4096) with (Z.of_nat (start + page_len)) by lia.
    unfold step. rewrite uadd_small by (mach_unfold; lia).
    destruct (IH fuel (start + page_len)%nat (cur + 1) m1) as (m2 & Hrun & Hm2 & Hrep2 & Hfa & Hin & Hout);
      try done; try lia; [by eapply pages_at_tail| |].
    { intros g Hg. rewrite Hother by (by intros ->). apply Hf. elt. }
    exists m2. split_and!; try done.
    + intros [|i] g Hg; cbn in Hg.
      * injection Hg as <-. rewrite Hout by done. subst m1. cbn [ram set_ram]. by rewrite lookup_insert_eq, Hb.
      * rewrite (Hin i g Hg), chunk_shift. f_equal. apply Hother. intros ->. apply Hnf. by eapply list_elem_of_lookup_2.
    + intros x Hx. apply not_elem_of_cons in Hx as [Hx1 Hx2]. by rewrite Hout, Hother.
Qed.

(** The copies of [from_existed_user]: page by page, the target's frame gets
    the source's bytes. *)
Lemma copy_pages_spec spt B gs : ∀ fs cur m,
  mem_ok m lo U → pt_rep m pt A → pt_rep m spt B → pages_at A cur fs → pages_at B cur gs → NoDup fs →
  length fs = length gs → (∀ f, f ∈ fs → f ∉ frames pt ∧ f ∉ frames spt ∧ f ∉ gs ∧ is_Some (ram m !! f)) →
  (∀ g, g ∈ gs → is_Some (ram m !! g)) →
  ∃ m', copy_pages (seqZ cur (Z.of_nat (length fs))) spt pt m = Ok ((), m') ∧ mem_ok m' lo U ∧ pt_rep m' pt A ∧
    falloc m' = falloc m ∧
    (∀ i f g, fs !! i = Some f → gs !! i = Some g → ram m' !! f = ram m !! g) ∧
    (∀ x, x ∉ fs → ram m' !! x = ram m !! x).
Proof using.
  induction gs as [|g gs IH]; intros fs cur m Hm Hrep HrepB Hp Hq Hnd Hlen Hf Hg.
  { destruct fs; [|done]. exists m. by split_and!. }
  destruct fs as [|f fs]; [done|]. cbn [length] in *. rewrite seqZ_cons by lia. cbn [copy_pages].
  replace (Z.succ cur) with (cur + 1) by lia. replace (Z.pred (Z.of_nat (S (length fs)))) with (Z.of_nat (length fs)) by lia.
  destruct (Hp 0%nat f eq_refl) as (e & He & Hef). destruct (Hq 0%nat g eq_refl) as (e' & He' & Heg).
  rewrite Z.add_0_r in He, He'. run (translate_mapped m spt B cur e' HrepB He'). rewrite M_unwrap_bind.
  run (translate_mapped m pt A cur e Hrep He). rewrite M_unwrap_bind, Hef, Heg.
  pose proof (PTE_ppn_range e) as Hfr. rewrite Hef in Hfr. pose proof (PTE_ppn_range e') as Hgr. rewrite Heg in Hgr.
  destruct (Hf f ltac:(elt)) as (Hfp & Hfs & Hfg & [b Hb]). destruct (Hg g ltac:(elt)) as [c Hc].
  run (get_data m g c Hgr Hc).
  destruct (put_data lo m U pt A f b c Hm Hrep Hfp Hfr Hb (mo_frame _ _ _ Hm _ _ Hc)) as (Hput & Hm1 & Hrep1).
  run Hput. set (m1 := set_ram _ _) in *. apply list.NoDup_cons in Hnd as [Hnf Hnd].
  assert (∀ x, x ≠ f → ram m1 !! x = ram m !! x) as Hother.
  { intros x Hx. subst m1. cbn [ram set_ram]. by rewrite lookup_insert_ne. }
  destruct (IH fs (cur + 1) m1) as (m2 & Hrun & Hm2 & Hrep2 & Hfa & Hin & Hout); try done.
  { eapply pt_rep_frame; [exact HrepB|]. intros x Hx. apply Hother. by intros ->. }
  { by eapply pages_at_tail. }
  { by eapply pages_at_tail. }
  { lia. }
  { intros x Hx. destruct (Hf x ltac:(elt)) as (H1 & H2 & H3 & H4). split_and!; try done.
    - intros Hin. apply H3. elt.
    - rewrite Hother; [done|]. by intros ->. }
  { intros x Hx. rewrite Hother; [apply Hg; elt|]. intros ->. apply Hfg. elt. }
  exists m2. split_and!; try done.
  - intros [|i] x y Hx Hy; cbn in Hx, Hy.
    + injection Hx as <-. injection Hy as <-. rewrite Hout by done. subst m1. cbn [ram set_ram].
      by rewrite lookup_insert_eq.
    + rewrite (Hin i x y Hx Hy). apply Hother. intros ->. apply Hfg. apply list_elem_of_further. by eapply list_elem_of_lookup_2.
  - intros x Hx. apply not_elem_of_cons in Hx as [Hx1 Hx2]. by rewrite Hout, Hother.
Qed.
End copy.
