(* ===== verification/AddressSpace.v ===== *)
(** * AddressSpace: the invariant of an address space (os/src/memory/memory_set.rs)

    [ms_inv]: the page table maps exactly the pages of the areas (and the
    trampoline), no page twice, and the frames of the table and of the areas
    are distinct frames of the allocator.  [push] keeps it, and dropping an
    address space gives back every frame it owns. *)

From stdpp Require Import base gmap list numbers.
From S2P Require Import Prelude Bytes Address FrameAllocator PageTable PageTableInv PageTableRep UserMem.
From S2P Require Import MemorySet AreaMap AreaCopy.

(** ** Areas and their pages *)
Definition area_pages (a : MapArea) : list Z :=
  seqZ (range_l (vpn_range a)) (range_r (vpn_range a) - range_l (vpn_range a)).
(** The frames that mapping an area takes at most: one per page if it is
    framed, and the nodes of the page table. *)
Definition area_cost (a : MapArea) : Z :=
  frame_cost a (length (area_pages a)) + node_cost 2 (range_l (vpn_range a)) (length (area_pages a)).
Definition areas_cost (l : list MapArea) : Z := foldr (λ a s, area_cost a + s) 0 l.

Definition area_fs (a : MapArea) : list Z := (data_frames a).*2.

Lemma areas_cost_nonneg l : 0 ≤ areas_cost l.
Proof.
  induction l as [|a l IH]; [done|]. cbn [areas_cost foldr]. fold (areas_cost l). unfold area_cost, frame_cost.
  pose proof (node_cost_nonneg 2 (range_l (vpn_range a)) (length (area_pages a))). destruct (map_type a); lia.
Qed.

(** A range and permissions an area can be made with. *)
Definition area_range (a : MapArea) : Prop :=
  0 ≤ range_l (vpn_range a) ≤ range_r (vpn_range a) ∧ range_r (vpn_range a) ≤ VPN_END ∧ 0 ≤ map_perm a < 256.

(** A mapped area: one frame per page if it is framed. *)
Definition area_ok (a : MapArea) : Prop :=
  area_range a ∧ frames_for a (length (area_pages a)) (area_fs a) ∧
  data_frames a = zip (area_pages a) (area_fs a).

Definition area_maps (a : MapArea) : list (Z * Z) := area_entries a (area_pages a) (area_fs a).

Definition ms_entries (tr : list (Z * Z)) (ms : MemorySet) : list (Z * Z) :=
  concat (area_maps <$> areas ms) ++ tr.
Definition ms_map (tr : list (Z * Z)) (ms : MemorySet) : gmap Z Z := list_to_map (ms_entries tr ms).

(** The frames an address space owns: those of its table, and its data. *)
Definition data_owned (l : list MapArea) : list Z := concat (area_fs <$> l).
Definition owned (ms : MemorySet) : list Z := frames (page_table ms) ++ data_owned (areas ms).

Record ms_inv (m : mem) (lo : Z) (U : gset Z) (tr : list (Z * Z)) (ms : MemorySet) : Prop := {
  mi_mem : mem_ok m lo U;
  mi_rep : pt_rep m (page_table ms) (ms_map tr ms);
  mi_keys : NoDup (ms_entries tr ms).*1;
  mi_areas : Forall area_ok (areas ms);
  mi_nodup : NoDup (owned ms);
  mi_owned x : x ∈ owned ms → x ∈ U;
}.

(** The area after [map]. *)
Definition mapped (a : MapArea) (fs : list Z) : MapArea := set_data_frames (zip (area_pages a) fs) a.

Lemma mapped_fs a fs : frames_for a (length (area_pages a)) fs → area_fs (mapped a fs) = fs.
Proof.
  unfold frames_for, area_fs. intros Hl. cbn [data_frames mapped set_data_frames]. apply snd_zip.
  destruct (map_type a); lia.
Qed.

Lemma mapped_ok a fs :
  area_range a → frames_for a (length (area_pages a)) fs → area_ok (mapped a fs).
Proof. intros Hr Hf. unfold area_ok. by rewrite mapped_fs. Qed.

Lemma area_maps_keys a : area_ok a → (area_maps a).*1 = area_pages a.
Proof. intros (_ & Hf & _). by apply area_entries_keys. Qed.

Lemma ms_map_push tr pt l a :
  NoDup (ms_entries tr (mkMS pt (l ++ [a]))).*1 →
  ms_map tr (mkMS pt (l ++ [a])) = list_to_map (area_maps a) ∪ list_to_map (concat (area_maps <$> l) ++ tr).
Proof.
  intros Hnd. unfold ms_map, ms_entries in *. cbn [areas] in *. rewrite <- list_to_map_app.
  apply list_to_map_proper; [done|]. rewrite fmap_app, concat_app. cbn [fmap list_fmap concat].
  rewrite app_nil_r, !app_assoc. apply Permutation_app_tail, Permutation_app_comm.
Qed.

Lemma ms_keys_push tr pt l a :
  area_ok a → NoDup (ms_entries tr (mkMS pt l)).*1 → (∀ v, v ∈ area_pages a → v ∉ (ms_entries tr (mkMS pt l)).*1) →
  NoDup (ms_entries tr (mkMS pt (l ++ [a]))).*1.
Proof.
  intros Ha Hnd Hd. unfold ms_entries in *. cbn [areas] in *.
  assert ((concat (area_maps <$> (l ++ [a])) ++ tr) ≡ₚ area_maps a ++ (concat (area_maps <$> l) ++ tr)) as ->.
  { rewrite fmap_app, concat_app. cbn [fmap list_fmap concat].
    rewrite app_nil_r, !app_assoc. apply Permutation_app_tail, Permutation_app_comm. }
  rewrite fmap_app, list.NoDup_app, area_maps_keys by done. split_and!; [apply NoDup_seqZ|done|done].
Qed.

(** ** [push] *)

(** What [push] needs of the optional data. *)
Definition data_fits (a : MapArea) (data : option (list Z)) : Prop :=
  match data with
  | None => True
  | Some d => map_type a = Framed ∧ area_pages a ≠ [] ∧ (length d ≤ page_len * length (area_pages a))%nat ∧
              Forall is_byte d
  end.

Lemma seq_pages a : area_range a →
  area_pages a = seqZ (range_l (vpn_range a)) (Z.of_nat (length (area_pages a))) ∧
  range_r (vpn_range a) = range_l (vpn_range a) + Z.of_nat (length (area_pages a)).
Proof. intros (Hl & _ & _). unfold area_pages. rewrite length_seqZ, Z2Nat.id by lia. split; [done|lia]. Qed.

Lemma area_map_spec lo m U pt A a :
  mem_ok m lo U → pt_rep m pt A → (∀ x, x ∈ frames pt → x ∈ U) → area_range a → data_frames a = [] →
  (∀ v, v ∈ area_pages a → A !! v = None) → area_cost a ≤ free_frames m lo U →
  ∃ m' pt' fs nn, area_map a pt m = Ok ((mapped a fs, pt'), m') ∧
    frames_for a (length (area_pages a)) fs ∧
    pt_rep m' pt' (list_to_map (area_maps (mapped a fs)) ∪ A) ∧
    grows lo m U m' (fs ++ nn) (frames pt) ∧ frames pt' = frames pt ++ nn ∧
    Z.of_nat (length (fs ++ nn)) ≤ area_cost a ∧ (∀ f, f ∈ fs → ram m' !! f = Some zero_frame).
Proof.
  intros Hm Hrep HU Hr Hd Hnone Hfree. destruct (seq_pages a Hr) as [Hseq Hend].
  pose proof Hr as (Hl & He & Hp). set (n := length (area_pages a)) in *.
  unfold area_cost in *. destruct (map_loop_spec lo n (range_l (vpn_range a)) 2 m U pt A a)
    as (m' & pt' & fs & nn & Hrun & Hf & Hrep' & Hg & Hfr & Hn & Hz); try done; try lia.
  { intros v Hv. apply Hnone. rewrite Hseq. apply elem_of_seqZ. lia. }
  { right. lia. }
  { rewrite Hd. by intros k ?%elem_of_nil. }
  rewrite <- Hseq, Hd in *. exists m', pt', fs, nn. split_and!; try done.
  - unfold area_map. destruct (vpn_range a) as [l r] eqn:Hvr. cbn [range_l range_r] in *.
    change VPN_END with 134217728 in He.
    rewrite range_list_seqZ by (change (2 ^ 64) with 18446744073709551616; lia). cbn [lift_res].
    rewrite (M_bind_run _ _ m (seqZ l (r - l)) m) by done.
    replace (seqZ l (r - l)) with (area_pages a) by (unfold area_pages; by rewrite Hvr). exact Hrun.
  - unfold area_maps. by rewrite mapped_fs.
  - rewrite length_app. fold n. unfold frames_for, frame_cost in *. destruct (map_type a); lia.
Qed.

(** The frame of page [i] of a framed area is mapped there. *)
Lemma area_pages_at a A : area_ok a → map_type a = Framed → (∀ f, f ∈ area_fs a → 0 ≤ f < 2 ^ 44) →
  (∀ v e, (v, e) ∈ area_maps a → A !! v = Some e) → pages_at A (range_l (vpn_range a)) (area_fs a).
Proof.
  intros (Hr & Hf & Hd) Hty Hrng HA i f Hi. exists (area_pte a f). split.
  - apply HA. unfold area_maps, area_entries, backing. rewrite Hty.
    apply list_elem_of_lookup_2 with i. rewrite lookup_zip_with, list_lookup_fmap, Hi.
    unfold frames_for in Hf. rewrite Hty in Hf. pose proof (lookup_lt_Some _ _ _ Hi) as Hlt.
    destruct (seq_pages a Hr) as [Hseq _]. rewrite Hseq, lookup_seqZ_lt by lia. done.
  - apply list_elem_of_lookup_2 in Hi. apply PTE_ppn_new; [by apply Hrng|].
    destruct Hr as (_ & _ & Hp). by apply lor_V_range.
Qed.

Lemma copy_data_spec lo m U pt A a fs d :
  mem_ok m lo U → pt_rep m pt A → area_range a → map_type a = Framed →
  length fs = length (area_pages a) → fs ≠ [] → NoDup fs → (length d ≤ page_len * length fs)%nat → Forall is_byte d →
  pages_at A (range_l (vpn_range a)) fs →
  (∀ f, f ∈ fs → f ∉ frames pt ∧ ram m !! f = Some zero_frame) →
  ∃ m', copy_data a pt d m = Ok ((), m') ∧ mem_ok m' lo U ∧ pt_rep m' pt A ∧ falloc m' = falloc m ∧
    (∀ i f, fs !! i = Some f → ram m' !! f = Some (splice 0 (chunk d 0 i) zero_frame)) ∧
    (∀ x, x ∉ fs → ram m' !! x = ram m !! x).
Proof.
  intros Hm Hrep Hr Hty Hlf Hne Hnd Hlen Hb Hp Hf. destruct (seq_pages a Hr) as [_ Hend].
  pose proof Hr as (Hl & He & _). pose proof page_len_Z as Hpl. rewrite <- Hlf in Hend.
  destruct (copy_loop_spec lo U pt A d Hb fs (S (length d)) 0 (range_l (vpn_range a)) m)
    as (m' & Hrun & Hm' & Hrep' & Hfa & Hin & Hout); try done; try lia.
  { intros f Hin. destruct (Hf f Hin) as [? ->]. eauto. }
  { change VPN_END with 134217728 in He. change (2 ^ 63) with 9223372036854775808. lia. }
  exists m'. split_and!; try done.
  - unfold copy_data. rewrite M_assert_bind by (by apply bool_decide_eq_true). exact Hrun.
  - intros i f Hi. rewrite (Hin i f Hi). destruct (Hf f) as [_ ->]; [by eapply list_elem_of_lookup_2|done].
Qed.

(** ** Looking into an address space *)
Section look.
Context (m : mem) (lo : Z) (U : gset Z) (tr : list (Z * Z)) (ms : MemorySet) (a : MapArea).
Hypothesis Hinv : ms_inv m lo U tr ms.
Hypothesis Ha : a ∈ areas ms.

Lemma area_in_owned x : x ∈ area_fs a → x ∈ data_owned (areas ms).
Proof using Ha. intros Hx. apply elem_of_concat. exists (area_fs a). split; [done|]. by apply list_elem_of_fmap_2. Qed.

Lemma used_range x : x ∈ U → 0 ≤ x < 2 ^ 44.
Proof using Hinv.
  intros Hx. pose proof (mi_mem _ _ _ _ _ Hinv) as Hm. pose proof (fa_range _ _ _ (mo_alloc _ _ _ Hm)).
  apply (fa_used _ _ _ (mo_alloc _ _ _ Hm)) in Hx. lia.
Qed.

Lemma used_ram x : x ∈ U → is_Some (ram m !! x).
Proof using Hinv.
  intros Hx. pose proof (mi_mem _ _ _ _ _ Hinv) as Hm. pose proof (fa_range _ _ _ (mo_alloc _ _ _ Hm)).
  apply (fa_used _ _ _ (mo_alloc _ _ _ Hm)) in Hx. apply (mo_ram _ _ _ Hm). lia.
Qed.

Lemma area_frame x : x ∈ area_fs a → x ∈ U ∧ x ∉ frames (page_table ms).
Proof using Hinv Ha.
  intros Hx%area_in_owned. pose proof (mi_nodup _ _ _ _ _ Hinv) as Hnd. unfold owned in Hnd.
  apply list.NoDup_app in Hnd as (_ & Hd & _). split; [apply (mi_owned _ _ _ _ _ Hinv); unfold owned; elt|].
  intros Hp. by apply (Hd x).
Qed.

Lemma area_mapped v e : (v, e) ∈ area_maps a → ms_map tr ms !! v = Some e.
Proof using Hinv Ha.
  intros Hve. apply elem_of_list_to_map_1; [apply (mi_keys _ _ _ _ _ Hinv)|]. unfold ms_entries.
  apply elem_of_app. left. apply elem_of_concat. exists (area_maps a). split; [done|]. by apply list_elem_of_fmap_2.
Qed.

Lemma ms_pages_at : map_type a = Framed → pages_at (ms_map tr ms) (range_l (vpn_range a)) (area_fs a).
Proof using Hinv Ha.
  intros Hty. apply area_pages_at; [|done| |apply area_mapped].
  - pose proof (mi_areas _ _ _ _ _ Hinv) as Hall. rewrite list.Forall_forall in Hall. by apply Hall.
  - intros f [Hf _]%area_frame. by apply used_range.
Qed.
End look.

Section push.
Context (m : mem) (lo : Z) (U : gset Z) (tr : list (Z * Z)) (ms : MemorySet).
Hypothesis Hinv : ms_inv m lo U tr ms.

Lemma owned_push pt' a fs nn m' W :
  frames pt' = frames (page_table ms) ++ nn → area_fs a = fs → grows lo m U m' (fs ++ nn) W →
  NoDup (owned (mkMS pt' (areas ms ++ [a]))) ∧
  (∀ x, x ∈ owned (mkMS pt' (areas ms ++ [a])) → x ∈ list_to_set (fs ++ nn) ∪ U).
Proof using Hinv.
  intros Hfr Hfs Hg.
  assert (owned (mkMS pt' (areas ms ++ [a])) ≡ₚ owned ms ++ (fs ++ nn)) as Hp.
  { unfold owned, data_owned. cbn [page_table areas]. rewrite Hfr, fmap_app, concat_app. cbn [fmap list_fmap concat].
    rewrite app_nil_r, Hfs, app_interleave. apply Permutation_app_head, Permutation_app_comm. }
  split.
  - rewrite Hp. apply list.NoDup_app. split_and!; [apply (mi_nodup _ _ _ _ _ Hinv)| |apply (gw_nodup _ _ _ _ _ _ Hg)].
    intros x Hx%(mi_owned _ _ _ _ _ Hinv) Hn. by apply (gw_new _ _ _ _ _ _ Hg) in Hn.
  - intros x. rewrite Hp, elem_of_app, elem_of_union, elem_of_list_to_set. intros [?%(mi_owned _ _ _ _ _ Hinv)|?]; tauto.
Qed.

Lemma pt_in_U x : x ∈ frames (page_table ms) → x ∈ U.
Proof using Hinv. intros Hx. apply (mi_owned _ _ _ _ _ Hinv). unfold owned. elt. Qed.

(** The last area of an address space, filled with [data]. *)
Lemma push_fill m1 U1 pt1 l a fs data :
  let ms1 := mkMS pt1 (l ++ [mapped a fs]) in
  ms_inv m1 lo U1 tr ms1 → data_fits a data → frames_for a (length (area_pages a)) fs → NoDup fs →
  (∀ f, f ∈ fs → ram m1 !! f = Some zero_frame) →
  ∃ m2, (match data with Some d => copy_data (mapped a fs) pt1 d | None => mret () end) m1 = Ok ((), m2) ∧
    ms_inv m2 lo U1 tr ms1 ∧ falloc m2 = falloc m1 ∧
    (∀ i f, fs !! i = Some f → ram m2 !! f = Some (splice 0 (chunk (default [] data) 0 i) zero_frame)) ∧
    (∀ x, x ∉ fs → ram m2 !! x = ram m1 !! x).
Proof using.
  intros ms1 Hinv1 Hfit Hff Hnd Hz. pose proof (mapped_fs a fs Hff) as Hmf.
  assert (mapped a fs ∈ areas ms1) as Hin1 by (subst ms1; cbn [areas]; rewrite elem_of_app, list_elem_of_singleton; by right).
  destruct data as [d|].
  - destruct Hfit as (Hty & Hne & Hlen & Hb). unfold frames_for in Hff. rewrite Hty in Hff.
    pose proof (ms_pages_at _ _ _ _ _ _ Hinv1 Hin1 Hty) as Hpa. rewrite Hmf in Hpa.
    pose proof (mi_areas _ _ _ _ _ Hinv1) as Hall. rewrite list.Forall_forall in Hall. destruct (Hall _ Hin1) as (Hr & _).
    destruct (copy_data_spec lo m1 U1 pt1 _ (mapped a fs) fs d
      (mi_mem _ _ _ _ _ Hinv1) (mi_rep _ _ _ _ _ Hinv1)) as (m2 & H1 & H2 & H3 & H4 & H5 & H6); try done.
    + intros ->. by destruct (area_pages a).
    + by rewrite Hff.
    + intros f Hf. split; [|by apply Hz]. rewrite <- Hmf in Hf. apply (area_frame _ _ _ _ _ _ Hinv1 Hin1 f Hf).
    + exists m2. split_and!; try done. destruct Hinv1 as [I1 I2 I3 I4 I5 I6]. by split.
  - exists m1. split_and!; try done. intros i f Hi. cbn [default from_option id].
    rewrite chunk_end by (simpl; lia). rewrite splice_nil by lia. apply Hz. by eapply list_elem_of_lookup_2.
Qed.

Lemma push_spec a data :
  area_range a → data_frames a = [] → data_fits a data →
  (∀ v, v ∈ area_pages a → v ∉ (ms_entries tr ms).*1) →
  area_cost a ≤ free_frames m lo U →
  ∃ m' pt' fs nn, let ms' := mkMS pt' (areas ms ++ [mapped a fs]) in
    push ms a data m = Ok (ms', m') ∧ ms_inv m' lo (list_to_set (fs ++ nn) ∪ U) tr ms' ∧
    frames_for a (length (area_pages a)) fs ∧ frames pt' = frames (page_table ms) ++ nn ∧
    grows lo m U m' (fs ++ nn) (frames (page_table ms)) ∧ Z.of_nat (length (fs ++ nn)) ≤ area_cost a ∧
    (∀ i f, fs !! i = Some f → ram m' !! f = Some (splice 0 (chunk (default [] data) 0 i) zero_frame)).
Proof using Hinv.
  intros Hr Hd Hfit Hkeys Hfree. pose proof Hinv as [Hm Hrep Hnk Har Hno Hown].
  destruct (area_map_spec lo m U (page_table ms) (ms_map tr ms) a)
    as (m1 & pt1 & fs & nn & Hrun & Hff & Hrep1 & Hg & Hfr & Hn & Hz); try done; [apply pt_in_U| |].
  { intros v Hv. by apply not_elem_of_list_to_map_1, Hkeys. }
  pose proof (mapped_ok a fs Hr Hff) as Hok. pose proof (mapped_fs a fs Hff) as Hmf.
  assert (NoDup (ms_entries tr (mkMS pt1 (areas ms ++ [mapped a fs]))).*1) as Hnk' by (by apply (ms_keys_push tr pt1)).
  pose proof (ms_map_push tr pt1 (areas ms) (mapped a fs) Hnk') as Heq.
  assert (pt_rep m1 pt1 (ms_map tr (mkMS pt1 (areas ms ++ [mapped a fs])))) as Hrep1' by (by rewrite Heq).
  destruct (owned_push pt1 (mapped a fs) fs nn m1 _ Hfr Hmf Hg) as [Hno1 Hown1].
  assert (ms_inv m1 lo (list_to_set (fs ++ nn) ∪ U) tr (mkMS pt1 (areas ms ++ [mapped a fs]))) as Hinv1.
  { split; try done; [apply (gw_mem _ _ _ _ _ _ Hg)|]. apply Forall_app_2; [done|]. by apply Forall_singleton. }
  destruct (push_fill _ _ _ _ _ fs data Hinv1 Hfit Hff) as (m2 & Hrun2 & Hinv2 & Hfa & Hin & Hout); [|done|].
  { pose proof (gw_nodup _ _ _ _ _ _ Hg) as Hnd. apply list.NoDup_app in Hnd. tauto. }
  exists m2, pt1, fs, nn. split_and!; try done.
  - unfold push. run Hrun. by run Hrun2.
  - destruct Hg as [G1 G2 G3 G4 G5]. split; try done; [apply (mi_mem _ _ _ _ _ Hinv2)|..].
    + unfold free_frames in *. by rewrite Hfa, G4.
    + intros x Hx Hn'. rewrite Hout, G5; try done. set_solver.
Qed.
End push.

(** ** Giving memory back *)
Lemma drop_areas_spec lo l : ∀ m U,
  mem_ok m lo U → NoDup (data_owned l) → (∀ x, x ∈ data_owned l → x ∈ U) →
  ∃ m', for_each l drop_area m = Ok ((), m') ∧ shrinks lo m U m' (data_owned l) [] ∧ ram m' = ram m.
Proof.
  induction l as [|a l IH]; intros m U Hm Hnd Hu.
  { exists m. split_and!; try done. unfold data_owned. cbn. assert (U ∖ list_to_set [] = U) as HU0 by set_solver.
    split; rewrite ?HU0; try done. simpl. lia. }
  unfold data_owned in *. cbn [fmap list_fmap concat] in *. apply list.NoDup_app in Hnd as (Hnd1 & Hd & Hnd2).
  destruct (drop_frames_shrinks lo m U (area_fs a) []) as (m1 & Hrun1 & Hs1 & Hr1); [done|done|set_solver|].
  destruct (IH m1 (U ∖ list_to_set (area_fs a))) as (m2 & Hrun2 & Hs2 & Hr2);
    [apply (sh_mem _ _ _ _ _ _ Hs1)|done| |].
  { intros x Hx. apply elem_of_difference. split; [set_solver|]. rewrite elem_of_list_to_set. intros Hin. by apply (Hd x). }
  exists m2. cbn [for_each]. unfold drop_area at 1. run Hrun1. split_and!; [done|by eapply shrinks_trans|congruence].
Qed.

Section drop.
Context (m : mem) (lo : Z) (U : gset Z) (tr : list (Z * Z)) (ms : MemorySet).
Hypothesis Hinv : ms_inv m lo U tr ms.

Lemma recycle_spec :
  ∃ m', recycle_data_pages ms m = Ok (mkMS (page_table ms) [], m') ∧
    shrinks lo m U m' (data_owned (areas ms)) [] ∧ ram m' = ram m.
Proof using Hinv.
  destruct Hinv as [Hm _ _ _ Hnd Hu]. unfold owned in *. apply list.NoDup_app in Hnd as (_ & _ & Hnd).
  destruct (drop_areas_spec lo (areas ms) m U) as (m' & Hrun & Hs & Hr); [done|done|set_solver|].
  exists m'. unfold recycle_data_pages. by run Hrun.
Qed.

Lemma drop_spec :
  ∃ m', drop_memory_set ms m = Ok ((), m') ∧ shrinks lo m U m' (owned ms) [] ∧ ram m' = ram m.
Proof using Hinv.
  destruct Hinv as [Hm _ _ _ Hnd Hu]. unfold owned in *. apply list.NoDup_app in Hnd as (Hnd1 & Hd & Hnd2).
  destruct (drop_frames_shrinks lo m U (frames (page_table ms)) []) as (m1 & Hrun1 & Hs1 & Hr1); [done|done|set_solver|].
  destruct (drop_areas_spec lo (areas ms) m1 (U ∖ list_to_set (frames (page_table ms)))) as (m2 & Hrun2 & Hs2 & Hr2);
    [apply (sh_mem _ _ _ _ _ _ Hs1)|done| |].
  { intros x Hx. apply elem_of_difference. split; [set_solver|]. rewrite elem_of_list_to_set. intros Hin. by apply (Hd x). }
  exists m2. unfold drop_memory_set. run Hrun1. split_and!; [done|by eapply shrinks_trans|congruence].
Qed.

(** [exit] recycles the data pages, [waitpid] drops what is left: together
    they give back all the frames. *)
Lemma recycle_drop_spec :
  ∃ ms1 m1 m2, recycle_data_pages ms m = Ok (ms1, m1) ∧ drop_memory_set ms1 m1 = Ok ((), m2) ∧
    mem_ok m2 lo (U ∖ list_to_set (owned ms)) ∧
    free_frames m2 lo (U ∖ list_to_set (owned ms)) = free_frames m lo U + Z.of_nat (length (owned ms)).
Proof using Hinv.
  destruct recycle_spec as (m1 & Hrun1 & Hs1 & Hr1).
  destruct Hinv as [Hm _ _ _ Hnd Hu]. unfold owned in *. apply list.NoDup_app in Hnd as (Hnd1 & Hd & Hnd2).
  destruct (drop_frames_shrinks lo m1 (U ∖ list_to_set (data_owned (areas ms))) (frames (page_table ms)) [])
    as (m2 & Hrun2 & Hs2 & Hr2); [apply (sh_mem _ _ _ _ _ _ Hs1)|done| |].
  { intros x Hx. apply elem_of_difference. split; [set_solver|]. rewrite elem_of_list_to_set. intros Hin. by apply (Hd x). }
  pose proof (shrinks_trans _ _ _ _ _ _ _ _ Hs1 Hs2) as [S1 S2 _].
  assert (U ∖ list_to_set (frames (page_table ms) ++ data_owned (areas ms)) =
    U ∖ list_to_set (data_owned (areas ms) ++ frames (page_table ms))) as -> by (rewrite !list_to_set_app_L; set_solver).
  exists (mkMS (page_table ms) []), m1, m2. split_and!; try done.
  - unfold drop_memory_set. cbn [page_table areas]. by run Hrun2.
  - rewrite S2, !length_app. lia.
Qed.
End drop.
