(* ===== verification/ForkSpace.v ===== *)
(** * ForkSpace: copying an address space (os/src/memory/memory_set.rs)

    [from_existed_user] makes an address space with the same pages, the same
    permissions and the same bytes, in frames of its own, and leaves the
    original as it was. *)

From stdpp Require Import base gmap list numbers.
From S2P Require Import Prelude Bytes Address FrameAllocator PageTable PageTableInv PageTableRep UserMem.
From S2P Require Import MemorySet AreaMap AreaCopy AddressSpace.

(** ** A bare address space with the trampoline *)
Definition TRAMP_VPN : Z := VPN_END - 1.

Definition tramp_entry (syms : kernel_symbols) : Z * Z :=
  (TRAMP_VPN, PTE_new (strampoline syms / 4096) (Z.lor (Z.lor PTE_R PTE_X) PTE_V)).

(** The linker script puts the trampoline at a page border. *)
Definition tramp_ok (syms : kernel_symbols) : Prop :=
  0 ≤ strampoline syms < 2 ^ 56 ∧ strampoline syms mod 4096 = 0.

Lemma tramp_ppn syms : tramp_ok syms →
  page_num_of_addr (PhysAddr_from (strampoline syms)) = Ok (strampoline syms / 4096) ∧
  0 ≤ strampoline syms / 4096 < 2 ^ 44.
Proof.
  intros [Hr Ha]. unfold PhysAddr_from. change PA_WIDTH_SV39 with 56. rewrite land_ones_mod, Z.mod_small by done.
  unfold page_num_of_addr. rewrite page_offset_mod, Ha. split; [done|]. split; [apply Z.div_pos; lia|].
  apply Z.div_lt_upper_bound; [done|]. change (4096 * 2 ^ 44) with (2 ^ 56). lia.
Qed.

Lemma new_space_spec syms m lo U :
  mem_ok m lo U → tramp_ok syms → 3 ≤ free_frames m lo U →
  ∃ m' pt, (new_bare ≫= map_trampoline syms) m = Ok (mkMS pt [], m') ∧
    ms_inv m' lo (list_to_set (frames pt) ∪ U) [tramp_entry syms] (mkMS pt []) ∧
    grows lo m U m' (frames pt) [] ∧ (length (frames pt) ≤ 3)%nat.
Proof.
  intros Hm Htr Hfree. destruct (tramp_ppn syms Htr) as [Hppn Hpr].
  destruct (PageTable_new_spec m lo U Hm ltac:(lia)) as (p & m1 & Hrun1 & Hrep1 & HpU & Hm1 & Hfr1 & Hram1).
  destruct (pt_map_fresh m1 lo ({[p]} ∪ U) (mkPT p [p]) ∅ Hm1 Hrep1) with
    (vpn := TRAMP_VPN) (ppn := strampoline syms / 4096) (flags := Z.lor PTE_R PTE_X) (k := 2%nat)
    as (m2 & pt2 & nn & Hrun2 & Hrep2 & Hg & Hn); try done; [set_solver|by right|lia|].
  pose proof (pt_rep_frames _ _ _ Hrep2) as (Hnd2 & _ & _).
  pose proof (pg_frames _ _ _ _ _ _ _ Hg) as Hfr. cbn [frames] in Hfr.
  pose proof (pt_grown_grows _ _ _ _ _ _ _ Hg Hnd2) as Hg2. cbn [frames] in Hg2.
  assert (grows lo m U m1 [p] []) as Hg1.
  { assert (list_to_set [p] ∪ U =@{gset Z} {[p]} ∪ U) as HU1 by set_solver.
    split; rewrite ?HU1; try done; [apply NoDup_singleton|by intros x ->%list_elem_of_singleton|].
    intros x _ Hx%not_elem_of_cons. rewrite Hram1, lookup_insert_ne; [done|]. destruct Hx; congruence. }
  replace ({[p]} ∪ U) with (list_to_set [p] ∪ U) in Hg2 by set_solver.
  pose proof (grows_trans _ _ _ _ _ _ _ [] _ Hg1 Hg2 ltac:(by right)) as Hg3. rewrite <- Hfr in Hg3.
  exists m2, pt2. split_and!; [|split|done|rewrite Hfr; simpl; lia].
  - unfold new_bare. rewrite M_bind_assoc. run Hrun1. rewrite M_ret_bind. unfold map_trampoline.
    rewrite (M_bind_run _ _ m1 TRAMP_VPN m1) by done. rewrite Hppn.
    rewrite (M_bind_run _ _ m1 (strampoline syms / 4096) m1) by done. by run Hrun2.
  - apply (gw_mem _ _ _ _ _ _ Hg3).
  - exact Hrep2.
  - apply NoDup_singleton.
  - constructor.
  - unfold owned, data_owned. cbn. by rewrite app_nil_r.
  - intros x. unfold owned, data_owned. cbn. rewrite app_nil_r. set_solver.
Qed.

(** ** The copy *)

(** [a'] is a copy of the framed area [a]: the same pages and permissions;
    its frames hold in [m'] what those of [a] hold in [m]. *)
Record area_copy (m m' : mem) (a a' : MapArea) : Prop := {
  ac_range : vpn_range a' = vpn_range a;
  ac_type : map_type a' = map_type a;
  ac_perm : map_perm a' = map_perm a;
  ac_len : length (area_fs a') = length (area_fs a);
  ac_bytes i f g : area_fs a' !! i = Some f → area_fs a !! i = Some g → ram m' !! f = ram m !! g;
}.

(** What the copy needs of the source areas [l], mapped in [spt]. *)
Record source_ok (m : mem) (U : gset Z) (spt : PageTable) (B : gmap Z Z) (l : list MapArea) : Prop := {
  so_rep : pt_rep m spt B;
  so_pt x : x ∈ frames spt → x ∈ U;
  so_areas : Forall (λ a, area_ok a ∧ map_type a = Framed ∧ pages_at B (range_l (vpn_range a)) (area_fs a)) l;
  so_data x : x ∈ data_owned l → x ∈ U ∧ is_Some (ram m !! x);
}.

Lemma source_ok_ext m U m' U' spt B l :
  source_ok m U spt B l → (∀ x, x ∈ U → x ∈ U') → (∀ x, x ∈ frames spt ∨ x ∈ data_owned l → ram m' !! x = ram m !! x) →
  source_ok m' U' spt B l.
Proof.
  intros [S1 S2 S3 S4] HU Hr. split; [|by auto|done|].
  - eapply pt_rep_frame; [done|]. auto.
  - intros x Hx. destruct (S4 x Hx). rewrite Hr by auto. auto.
Qed.

Lemma from_another_ok a : area_range a → from_another a = Ok (set_data_frames [] a).
Proof.
  intros ((Hl & Hr) & _). unfold from_another, SimpleRange_new. destruct a as [[l r] d t p]. cbn in *.
  by destruct (Z.leb_spec l r); [|lia].
Qed.

(** One area: [push] of the empty copy, then the pages. *)
Lemma copy_area_spec lo tr spt B a m U ms :
  ms_inv m lo U tr ms → source_ok m U spt B [a] → (∀ x, x ∈ frames spt → x ∉ owned ms) →
  (∀ x, x ∈ area_fs a → x ∉ owned ms) →
  (∀ v, v ∈ area_pages a → v ∉ (ms_entries tr ms).*1) → area_cost a ≤ free_frames m lo U →
  ∃ m2 pt1 a' fs nn, let ms1 := mkMS pt1 (areas ms ++ [a']) in
    (push ms (set_data_frames [] a) None ≫= λ ms1,
     copy_pages (area_pages a) spt (page_table ms1) ≫= λ _, mret ms1) m = Ok (ms1, m2) ∧
    ms_inv m2 lo (list_to_set (fs ++ nn) ∪ U) tr ms1 ∧ grows lo m U m2 (fs ++ nn) (frames (page_table ms)) ∧
    frames pt1 = frames (page_table ms) ++ nn ∧ area_fs a' = fs ∧ area_copy m m2 a a' ∧
    Z.of_nat (length (fs ++ nn)) ≤ area_cost a.
Proof.
  intros Hinv Hso Hspt Hsrc Hkeys Hfree. pose proof Hso as [S1 S2 S3 S4].
  apply Forall_singleton in S3 as ((Hr & Hff & Hd) & Hty & Hpa).
  unfold data_owned in S4. cbn [fmap list_fmap concat] in S4. rewrite app_nil_r in S4.
  destruct (push_spec m lo U tr ms Hinv (set_data_frames [] a) None) as (m1 & pt1 & fs & nn & Hrun1 & Hinv1 & Hf1 & Hfr1 & Hg1 & Hn1 & Hz1);
    try done.
  change (area_pages (set_data_frames [] a)) with (area_pages a) in *.
  pose proof (mapped_fs _ _ Hf1) as Hmf. set (a' := mapped (set_data_frames [] a) fs) in *.
  assert (length fs = length (area_fs a)) as Hlf.
  { unfold frames_for in Hf1, Hff. cbn [map_type set_data_frames] in Hf1. rewrite Hty in Hf1, Hff. congruence. }
  assert (a' ∈ areas (mkMS pt1 (areas ms ++ [a']))) as Hin1 by (cbn [areas]; rewrite elem_of_app, list_elem_of_singleton; by right).
  assert (∀ x, x ∈ fs → x ∉ frames pt1 ∧ x ∉ U) as Hfs1.
  { intros x Hx. split; [|apply (gw_new _ _ _ _ _ _ Hg1); elt].
    apply (area_frame _ _ _ _ _ _ Hinv1 Hin1). by rewrite Hmf. }
  assert (∀ x, x ∈ U → x ∉ owned ms → ram m1 !! x = ram m !! x) as Hsame.
  { intros x HxU Hx. apply (gw_ram _ _ _ _ _ _ Hg1).
    - intros Hin. apply Hx. unfold owned. elt.
    - by eapply grows_incl. }
  assert (length (area_pages a) = length fs) as Hlp.
  { unfold frames_for in Hf1. cbn [map_type set_data_frames] in Hf1. by rewrite Hty in Hf1. }
  destruct (copy_pages_spec lo (list_to_set (fs ++ nn) ∪ U) pt1 (ms_map tr (mkMS pt1 (areas ms ++ [a']))) spt B (area_fs a) fs
    (range_l (vpn_range a)) m1) as (m2 & Hrun2 & Hm2 & Hrep2 & Hfa & Hin & Hout);
    [apply (mi_mem _ _ _ _ _ Hinv1)|apply (mi_rep _ _ _ _ _ Hinv1)| | |done| |done| | |].
  { eapply pt_rep_frame; [exact S1|]. intros x Hx. apply Hsame; [by apply S2|by apply Hspt]. }
  { pose proof (ms_pages_at _ _ _ _ _ _ Hinv1 Hin1 Hty) as Hp'. by rewrite Hmf in Hp'. }
  { pose proof (gw_nodup _ _ _ _ _ _ Hg1) as Hnd. apply list.NoDup_app in Hnd. tauto. }
  { intros f Hf. destruct (Hfs1 f Hf) as [Hf1' Hf2]. split_and!; [done| | |].
    - intros Hx%S2. done.
    - intros Hx%S4. naive_solver.
    - apply list_elem_of_lookup in Hf as [i Hi]. rewrite (Hz1 i f Hi). eauto. }
  { intros g Hg. destruct (S4 g Hg). rewrite Hsame; [done|done|by apply Hsrc]. }
  exists m2, pt1, a', fs, nn. split_and!; try done.
  - run Hrun1. cbn [page_table]. destruct (seq_pages a Hr) as [Hseq _]. rewrite Hseq, Hlp. by run Hrun2.
  - destruct Hinv1 as [I1 I2 I3 I4 I5 I6]. by split.
  - destruct Hg1 as [G1 G2 G3 G4 G5]. split; try done.
    + unfold free_frames in *. by rewrite Hfa.
    + intros x Hx Hn. rewrite Hout; [by apply G5|]. intros Hin'. apply Hn. elt.
  - split; try done; [by rewrite Hmf|]. intros i f g Hf Hg. rewrite Hmf in Hf. rewrite (Hin i f g Hf Hg).
    apply list_elem_of_lookup_2 in Hg. destruct (S4 g Hg). apply Hsame; [done|by apply Hsrc].
Qed.

Lemma ms_keys_snoc tr pt l a :
  area_ok a → ∀ v, v ∈ (ms_entries tr (mkMS pt (l ++ [a]))).*1 ↔ v ∈ area_pages a ∨ v ∈ (ms_entries tr (mkMS pt l)).*1.
Proof.
  intros Ha v. unfold ms_entries. cbn [areas]. rewrite (fmap_app area_maps), concat_app. cbn [fmap list_fmap concat].
  rewrite app_nil_r, !fmap_app, !elem_of_app, area_maps_keys by done. tauto.
Qed.

Lemma owned_snoc ms pt a nn :
  frames pt = frames (page_table ms) ++ nn →
  owned (mkMS pt (areas ms ++ [a])) ≡ₚ owned ms ++ (area_fs a ++ nn).
Proof.
  intros Hfr. unfold owned, data_owned. cbn [page_table areas]. rewrite Hfr, (fmap_app area_fs), concat_app. cbn [fmap list_fmap concat].
  rewrite app_nil_r, app_interleave. apply Permutation_app_head, Permutation_app_comm.
Qed.

Lemma area_copy_mono m m1 m2 m' a a' :
  area_copy m1 m2 a a' → (∀ g, g ∈ area_fs a → ram m1 !! g = ram m !! g) →
  (∀ f, f ∈ area_fs a' → ram m' !! f = ram m2 !! f) → area_copy m m' a a'.
Proof.
  intros [C1 C2 C3 C4 C5] Hg Hf. split; try done. intros i f g Hi Hj.
  rewrite Hf, (C5 i f g Hi Hj), Hg; [done|by eapply list_elem_of_lookup_2|by eapply list_elem_of_lookup_2].
Qed.

Lemma data_owned_cons a l x : x ∈ data_owned (a :: l) ↔ x ∈ area_fs a ∨ x ∈ data_owned l.
Proof. unfold data_owned. cbn [fmap list_fmap concat]. by rewrite elem_of_app. Qed.

Lemma area_copies_mono m m1 m' l l' :
  Forall2 (area_copy m1 m') l l' → (∀ g, g ∈ data_owned l → ram m1 !! g = ram m !! g) →
  Forall2 (area_copy m m') l l'.
Proof.
  induction 1 as [|a a' l l' Ha _ IH]; intros Hg; [constructor|]. setoid_rewrite data_owned_cons in Hg.
  constructor; [|by auto]. eapply area_copy_mono; [done|auto|done].
Qed.

Lemma source_ok_cons m U spt B a l : source_ok m U spt B (a :: l) → source_ok m U spt B [a] ∧ source_ok m U spt B l.
Proof.
  intros [S1 S2 [S3 S3']%list.Forall_cons S4]. split; split; try done.
  - by apply Forall_singleton.
  - intros x. rewrite data_owned_cons. intros [Hx|Hx]; [|by apply elem_of_nil in Hx]. apply S4, data_owned_cons. by left.
  - intros x Hx. apply S4, data_owned_cons. by right.
Qed.

Lemma copy_areas_spec lo tr spt B l : ∀ m U ms,
  ms_inv m lo U tr ms → source_ok m U spt B l → (∀ x, x ∈ frames spt → x ∉ owned ms) →
  (∀ x, x ∈ data_owned l → x ∉ owned ms) →
  NoDup (concat (area_pages <$> l)) → (∀ v, v ∈ concat (area_pages <$> l) → v ∉ (ms_entries tr ms).*1) →
  areas_cost l ≤ free_frames m lo U →
  ∃ m' ms' nf l', copy_areas spt l ms m = Ok (ms', m') ∧ ms_inv m' lo (list_to_set nf ∪ U) tr ms' ∧
    grows lo m U m' nf (frames (page_table ms)) ∧ areas ms' = areas ms ++ l' ∧ Forall2 (area_copy m m') l l' ∧
    owned ms' ≡ₚ owned ms ++ nf ∧ Z.of_nat (length nf) ≤ areas_cost l.
Proof.
  induction l as [|a l IH]; intros m U ms Hinv Hso Hspt Hsrc Hnd Hkeys Hfree.
  { exists m, ms, [], []. pose proof (mi_mem _ _ _ _ _ Hinv). rewrite !app_nil_r.
    replace (list_to_set [] ∪ U) with U by set_solver. split_and!; try done. by apply grows_refl. }
  cbn [fmap list_fmap concat areas_cost foldr] in *. fold (areas_cost l) in Hfree.
  apply list.NoDup_app in Hnd as (_ & Hdp & Hnd2). pose proof (areas_cost_nonneg l).
  destruct (source_ok_cons _ _ _ _ _ _ Hso) as [Hso1 Hso2].
  pose proof (so_areas _ _ _ _ _ Hso1) as Ha. apply Forall_singleton in Ha as (Haok & Hty & Hpa).
  destruct (copy_area_spec lo tr spt B a m U ms Hinv Hso1 Hspt) as (m2 & pt1 & a' & fs & nn & Hrun & Hinv2 & Hg & Hfr & Hfs & Hcp & Hn).
  { intros x Hx. apply Hsrc, data_owned_cons. by left. }
  { intros v Hv. apply Hkeys. elt. }
  { lia. }
  set (ms1 := mkMS pt1 (areas ms ++ [a'])) in *. pose proof (owned_snoc ms pt1 a' nn Hfr) as Hown. rewrite Hfs in Hown. fold ms1 in Hown.
  assert (∀ x, x ∈ U → x ∉ owned ms → x ∉ owned ms1) as Hout.
  { intros x HxU Hx. rewrite Hown, elem_of_app. intros [?|Hin]; [done|]. by apply (gw_new _ _ _ _ _ _ Hg) in Hin. }
  assert (∀ x, x ∈ U → x ∉ owned ms → ram m2 !! x = ram m !! x) as Hsame.
  { intros x HxU Hx. apply (gw_ram _ _ _ _ _ _ Hg); [|by eapply grows_incl]. intros Hin. apply Hx. unfold owned. elt. }
  assert (area_ok a') as Hok'.
  { pose proof (mi_areas _ _ _ _ _ Hinv2) as Hall. cbn [areas ms1] in Hall. apply Forall_app in Hall as [_ Hall].
    by apply list.Forall_cons in Hall as [? _]. }
  assert (area_pages a' = area_pages a) as Hpg by (unfold area_pages; by rewrite (ac_range _ _ _ _ Hcp)).
  destruct (IH m2 (list_to_set (fs ++ nn) ∪ U) ms1 Hinv2) as (m' & ms' & nf & l' & Hrun' & Hinv' & Hg' & Har & Hall & Hown' & Hn'); try done.
  { eapply source_ok_ext; [done|set_solver|]. intros x [Hx|Hx].
    - apply Hsame; [by apply (so_pt _ _ _ _ _ Hso)|by apply Hspt].
    - apply Hsame; [by apply (so_data _ _ _ _ _ Hso2)|]. apply Hsrc, data_owned_cons. by right. }
  { intros x Hx. apply Hout; [by apply (so_pt _ _ _ _ _ Hso)|by apply Hspt]. }
  { intros x Hx. apply Hout; [by apply (so_data _ _ _ _ _ Hso2)|]. apply Hsrc, data_owned_cons. by right. }
  { intros v Hv. intros [Hin|Hin]%(ms_keys_snoc tr pt1 (areas ms) a' Hok'); [rewrite Hpg in Hin|];  [by apply (Hdp v)|].
    eapply Hkeys; [|exact Hin]. elt. }
  { rewrite (gw_free _ _ _ _ _ _ Hg). lia. }
  exists m', ms', ((fs ++ nn) ++ nf), (a' :: l'). split_and!.
  - cbn [copy_areas]. destruct Haok as (Hr & _). rewrite (from_another_ok a Hr).
    rewrite (M_bind_run _ _ m (set_data_frames [] a) m) by done.
    apply M_bind_Ok in Hrun as (x & s & Hx & Hrun). run Hx.
    assert (range_list (vpn_range a) = Ok (area_pages a)) as ->.
    { unfold area_pages. destruct (vpn_range a) as [lr rr] eqn:Hvr. destruct Hr as (? & ? & _). rewrite Hvr in *. cbn in *.
      change VPN_END with 134217728 in *. apply range_list_seqZ; [lia|]. change (2 ^ 64) with 18446744073709551616. lia. }
    rewrite (M_bind_run _ _ s (area_pages a) s) by done. apply M_bind_Ok in Hrun as ([] & s2 & Hc & Hrun). run Hc.
    cbn in Hrun. injection Hrun as -> ->. exact Hrun'.
  - replace (list_to_set ((fs ++ nn) ++ nf) ∪ U) with (list_to_set nf ∪ (list_to_set (fs ++ nn) ∪ U)); [done|].
    rewrite (list_to_set_app_L (fs ++ nn)). set_solver.
  - eapply grows_trans; [exact Hg|exact Hg'|]. cbn [page_table ms1]. intros x. rewrite Hfr, !elem_of_app. tauto.
  - rewrite Har. cbn [areas ms1]. by rewrite <- app_assoc.
  - constructor.
    + eapply area_copy_mono; [exact Hcp|done|]. intros f Hf.
      assert (a' ∈ areas ms1) as Hin1 by (cbn [areas ms1]; rewrite elem_of_app, list_elem_of_singleton; by right).
      destruct (area_frame _ _ _ _ _ _ Hinv2 Hin1 f Hf). apply (gw_ram _ _ _ _ _ _ Hg'); [done|by eapply grows_incl].
    + eapply area_copies_mono; [exact Hall|]. intros g Hin. apply Hsame; [by apply (so_data _ _ _ _ _ Hso2)|].
      apply Hsrc, data_owned_cons. by right.
  - rewrite Hown', Hown. by rewrite <- app_assoc.
  - fold (areas_cost l). rewrite length_app. lia.
Qed.

Lemma pages_nodup m lo U tr ms : ms_inv m lo U tr ms →
  NoDup (concat (area_pages <$> areas ms)) ∧ (∀ v, v ∈ concat (area_pages <$> areas ms) → v ∉ tr.*1).
Proof.
  intros Hinv. pose proof (mi_keys _ _ _ _ _ Hinv) as Hnd. pose proof (mi_areas _ _ _ _ _ Hinv) as Hall.
  unfold ms_entries in Hnd. rewrite fmap_app in Hnd.
  assert ((concat (area_maps <$> areas ms)).*1 = concat (area_pages <$> areas ms)) as Heq.
  { clear Hnd Hinv. induction Hall as [|a l Ha _ IH]; [done|]. cbn [fmap list_fmap concat].
    by rewrite fmap_app, IH, area_maps_keys. }
  rewrite Heq in Hnd. apply list.NoDup_app in Hnd as (H1 & H2 & _). done.
Qed.

Section fork.
Context (syms : kernel_symbols) (m : mem) (lo : Z) (U : gset Z) (src : MemorySet).
Hypothesis Hinv : ms_inv m lo U [tramp_entry syms] src.
Hypothesis Hfr : Forall (λ a, map_type a = Framed) (areas src).
Hypothesis Htr : tramp_ok syms.

Lemma source_space : source_ok m U (page_table src) (ms_map [tramp_entry syms] src) (areas src).
Proof using Hinv Hfr.
  split.
  - apply (mi_rep _ _ _ _ _ Hinv).
  - intros x Hx. apply (mi_owned _ _ _ _ _ Hinv). unfold owned. elt.
  - apply list.Forall_forall. intros a Ha. pose proof Hfr as Hfr'. rewrite list.Forall_forall in Hfr'.
    pose proof (mi_areas _ _ _ _ _ Hinv) as Hall. rewrite list.Forall_forall in Hall.
    split_and!; [by apply Hall|by apply Hfr'|]. eapply ms_pages_at; [done|done|by apply Hfr'].
  - intros x Hx. assert (x ∈ U) as HxU by (apply (mi_owned _ _ _ _ _ Hinv); unfold owned; elt).
    split; [done|]. by eapply used_ram.
Qed.

Lemma from_existed_user_spec :
  3 + areas_cost (areas src) ≤ free_frames m lo U →
  ∃ m' ms' nf, from_existed_user syms src m = Ok (ms', m') ∧
    ms_inv m' lo (list_to_set nf ∪ U) [tramp_entry syms] ms' ∧ grows lo m U m' nf [] ∧ owned ms' ≡ₚ nf ∧
    Forall2 (area_copy m m') (areas src) (areas ms') ∧ Z.of_nat (length nf) ≤ 3 + areas_cost (areas src).
Proof using Hinv Hfr Htr.
  intros Hfree. pose proof (mi_mem _ _ _ _ _ Hinv) as Hm. pose proof (areas_cost_nonneg (areas src)).
  destruct (new_space_spec syms m lo U Hm Htr ltac:(lia)) as (m1 & pt & Hrun1 & Hinv1 & Hg1 & Hn).
  destruct (pages_nodup _ _ _ _ _ Hinv) as [Hnd Hdis].
  assert (owned (mkMS pt []) = frames pt) as Hown1 by (unfold owned, data_owned; cbn; by rewrite app_nil_r).
  assert (∀ x, x ∈ owned src → x ∉ frames pt) as Hfresh.
  { intros x Hx%(mi_owned _ _ _ _ _ Hinv) Hin. by apply (gw_new _ _ _ _ _ _ Hg1) in Hin. }
  destruct (copy_areas_spec lo [tramp_entry syms] (page_table src) (ms_map [tramp_entry syms] src) (areas src)
    m1 (list_to_set (frames pt) ∪ U) (mkMS pt []) Hinv1)
    as (m' & ms' & nf & l' & Hrun & Hinv' & Hg & Har & Hall & Hown & Hn'); try done.
  { eapply source_ok_ext; [apply source_space|set_solver|]. intros x Hx.
    apply (gw_ram _ _ _ _ _ _ Hg1); [apply not_elem_of_nil|]. apply Hfresh. unfold owned. destruct Hx; elt. }
  { intros x Hx. rewrite Hown1. apply Hfresh. unfold owned. elt. }
  { intros x Hx. rewrite Hown1. apply Hfresh. unfold owned. elt. }
  { rewrite (gw_free _ _ _ _ _ _ Hg1). lia. }
  exists m', ms', (frames pt ++ nf). cbn [areas app] in Har. rewrite Har. split_and!.
  - unfold from_existed_user. apply M_bind_Ok in Hrun1 as (x & s & Hx & Hrun1). run Hx. by run Hrun1.
  - replace (list_to_set (frames pt ++ nf) ∪ U) with (list_to_set nf ∪ (list_to_set (frames pt) ∪ U)); [done|].
    rewrite list_to_set_app_L. set_solver.
  - eapply grows_trans; [exact Hg1|exact Hg|]. by right.
  - by rewrite Hown, Hown1.
  - eapply area_copies_mono; [exact Hall|]. intros g Hin. apply (gw_ram _ _ _ _ _ _ Hg1); [apply not_elem_of_nil|].
    apply Hfresh. unfold owned. elt.
  - rewrite length_app. lia.
Qed.
End fork.

(** ** What a process sees *)
Lemma page_frame m lo U tr ms a va :
  ms_inv m lo U tr ms → a ∈ areas ms → map_type a = Framed → floor va ∈ area_pages a →
  let i := Z.to_nat (floor va - range_l (vpn_range a)) in
  ∃ f, area_fs a !! i = Some f ∧ ms_map tr ms !! floor va = Some (area_pte a f) ∧
    ∀ m1 : mem, user_byte m1 (ms_map tr ms) va = ram m1 !! f ≫= λ b, b !! Z.to_nat (page_offset va).
Proof.
  intros Hinv Ha Hty Hv i. pose proof (mi_areas _ _ _ _ _ Hinv) as Hall. rewrite list.Forall_forall in Hall.
  destruct (Hall _ Ha) as (Hr & Hff & _). destruct (seq_pages a Hr) as [Hseq _]. unfold frames_for in Hff. rewrite Hty in Hff.
  rewrite Hseq in Hv. apply elem_of_seqZ in Hv. destruct (lookup_lt_is_Some_2 (area_fs a) i) as [f Hf]; [lia|].
  exists f. split; [done|]. destruct (ms_pages_at _ _ _ _ _ _ Hinv Ha Hty i f Hf) as (e & He & Hef).
  replace (range_l (vpn_range a) + Z.of_nat i) with (floor va) in He by lia.
  assert (ms_map tr ms !! floor va = Some (area_pte a f)) as Hmap.
  { eapply area_mapped; [done|done|]. unfold area_maps, area_entries, backing. rewrite Hty.
    apply list_elem_of_lookup_2 with i. rewrite lookup_zip_with, list_lookup_fmap, Hf, Hseq, lookup_seqZ_lt by lia.
    cbn. do 2 f_equal. lia. }
  split; [done|]. intros m1. unfold user_byte. rewrite He. cbn [mbind option_bind]. by rewrite Hef.
Qed.

(** An area whose frames keep their bytes is seen as before. *)
Lemma view_same m lo U tr ms a va m1 :
  ms_inv m lo U tr ms → a ∈ areas ms → map_type a = Framed → floor va ∈ area_pages a →
  (∀ f, f ∈ area_fs a → ram m1 !! f = ram m !! f) →
  user_byte m1 (ms_map tr ms) va = user_byte m (ms_map tr ms) va.
Proof.
  intros Hinv Ha Hty Hv Hf. destruct (page_frame _ _ _ _ _ _ _ Hinv Ha Hty Hv) as (f & Hfs & _ & Hb).
  rewrite !Hb. f_equal. apply Hf. by eapply list_elem_of_lookup_2.
Qed.

(** The copy of an area holds the same bytes under the same permissions. *)
Lemma copy_view m lo U tr ms m' U' tr' ms' a a' va :
  ms_inv m lo U tr ms → ms_inv m' lo U' tr' ms' → a ∈ areas ms → a' ∈ areas ms' → map_type a = Framed →
  area_copy m m' a a' → floor va ∈ area_pages a →
  user_byte m' (ms_map tr' ms') va = user_byte m (ms_map tr ms) va ∧
  PTE_flags <$> ms_map tr' ms' !! floor va = PTE_flags <$> ms_map tr ms !! floor va.
Proof.
  intros Hinv Hinv' Ha Ha' Hty Hc Hv. assert (map_type a' = Framed) as Hty' by (by rewrite (ac_type _ _ _ _ Hc)).
  assert (floor va ∈ area_pages a') as Hv' by (unfold area_pages in *; by rewrite (ac_range _ _ _ _ Hc)).
  destruct (page_frame _ _ _ _ _ _ _ Hinv Ha Hty Hv) as (g & Hg & Hmg & Hbg).
  destruct (page_frame _ _ _ _ _ _ _ Hinv' Ha' Hty' Hv') as (f & Hf & Hmf & Hbf).
  rewrite Hbf, Hbg.
  rewrite (ac_range _ _ _ _ Hc) in Hf. split; [by rewrite (ac_bytes _ _ _ _ Hc _ _ _ Hf Hg)|].
  rewrite Hmg, Hmf. cbn [fmap option_fmap option_map]. unfold area_pte. f_equal.
  pose proof (mi_areas _ _ _ _ _ Hinv) as Hall. rewrite list.Forall_forall in Hall. destruct (Hall _ Ha) as ((_ & _ & Hp) & _).
  rewrite (ac_perm _ _ _ _ Hc), !PTE_flags_new; try by apply lor_V_range.
  - done.
  - eapply used_range; [exact Hinv|]. eapply area_frame; [exact Hinv|exact Ha|]. by eapply list_elem_of_lookup_2.
  - eapply used_range; [exact Hinv'|]. eapply area_frame; [exact Hinv'|exact Ha'|]. by eapply list_elem_of_lookup_2.
Qed.
