(* ===== verification/ElfSpace.v ===== *)
(** * ElfSpace: the address space of a program (os/src/memory/memory_set.rs)

    A sequence of pushes ([push_all]), and with it [from_elf]: every loadable
    segment, the user stack and the trap context are mapped with their
    permissions, and a segment's pages hold the file's bytes followed by
    zeros; and [new_kernel]: the kernel's sections are mapped to themselves. *)

From stdpp Require Import base gmap list numbers.
From S2P Require Import Prelude Bytes Address FrameAllocator PageTable PageTableInv PageTableRep UserMem.
From S2P Require Import MemorySet AreaMap AreaCopy AddressSpace ForkSpace.

(** ** A sequence of pushes *)
Fixpoint push_all (l : list (MapArea * option (list Z))) (ms : MemorySet) : M mem MemorySet :=
  match l with
  | [] => mret ms
  | (a, d) :: l => push ms a d ≫= λ ms, push_all l ms
  end.

(** The frames of [a] hold [d], padded with zeros. *)
Definition holds (m : mem) (a : MapArea) (d : list Z) : Prop :=
  ∀ i f, area_fs a !! i = Some f → ram m !! f = Some (splice 0 (chunk d 0 i) zero_frame).

(** [a'] is the pushed area [p], mapped and filled. *)
Record filled (m : mem) (p : MapArea * option (list Z)) (a' : MapArea) : Prop := {
  fi_range : vpn_range a' = vpn_range p.1;
  fi_type : map_type a' = map_type p.1;
  fi_perm : map_perm a' = map_perm p.1;
  fi_holds : holds m a' (default [] p.2);
}.

Definition pushable (p : MapArea * option (list Z)) : Prop :=
  area_range p.1 ∧ data_frames p.1 = [] ∧ data_fits p.1 p.2.

Definition pages_of (l : list (MapArea * option (list Z))) : list Z := concat ((λ p, area_pages p.1) <$> l).

Lemma filled_mono m m' p a : filled m p a → (∀ f, f ∈ area_fs a → ram m' !! f = ram m !! f) → filled m' p a.
Proof.
  intros [F1 F2 F3 F4] Hr. split; try done. intros i f Hi. rewrite Hr; [by apply F4|by eapply list_elem_of_lookup_2].
Qed.

Lemma push_all_spec lo tr l : ∀ m U ms,
  ms_inv m lo U tr ms → Forall pushable l → NoDup (pages_of l) → (∀ v, v ∈ pages_of l → v ∉ (ms_entries tr ms).*1) →
  areas_cost l.*1 ≤ free_frames m lo U →
  ∃ m' ms' nf l', push_all l ms m = Ok (ms', m') ∧ ms_inv m' lo (list_to_set nf ∪ U) tr ms' ∧
    grows lo m U m' nf (frames (page_table ms)) ∧ areas ms' = areas ms ++ l' ∧ Forall2 (filled m') l l' ∧
    owned ms' ≡ₚ owned ms ++ nf ∧ Z.of_nat (length nf) ≤ areas_cost l.*1.
Proof.
  induction l as [|[a d] l IH]; intros m U ms Hinv Hl Hnd Hkeys Hfree.
  { exists m, ms, [], []. pose proof (mi_mem _ _ _ _ _ Hinv). rewrite !app_nil_r.
    replace (list_to_set [] ∪ U) with U by set_solver. split_and!; try done. by apply grows_refl. }
  apply list.Forall_cons in Hl as [(Hr & Hd & Hfit) Hl]. unfold pages_of in *. cbn [fmap list_fmap concat fst snd areas_cost foldr] in *.
  fold (areas_cost l.*1) in Hfree. pose proof (areas_cost_nonneg l.*1).
  apply list.NoDup_app in Hnd as (_ & Hdp & Hnd2).
  destruct (push_spec m lo U tr ms Hinv a d Hr Hd Hfit) as (m1 & pt1 & fs & nn & Hrun & Hinv1 & Hf1 & Hfr & Hg & Hn & Hz).
  { intros v Hv. apply Hkeys. elt. }
  { lia. }
  pose proof (mapped_fs _ _ Hf1) as Hmf. pose proof (mapped_ok _ _ Hr Hf1) as Hok'. set (a' := mapped a fs) in *.
  set (ms1 := mkMS pt1 (areas ms ++ [a'])) in *.
  pose proof (owned_snoc ms pt1 a' nn Hfr) as Hown. rewrite Hmf in Hown. fold ms1 in Hown.
  destruct (IH m1 (list_to_set (fs ++ nn) ∪ U) ms1 Hinv1 Hl Hnd2) as (m' & ms' & nf & l' & Hrun' & Hinv' & Hg' & Har & Hall & Hown' & Hcost').
  { intros v Hv. intros [Hin|Hin]%(ms_keys_snoc tr pt1 (areas ms) a' Hok').
    - by apply (Hdp v).
    - eapply Hkeys; [|exact Hin]. elt. }
  { rewrite (gw_free _ _ _ _ _ _ Hg). lia. }
  exists m', ms', ((fs ++ nn) ++ nf), (a' :: l'). split_and!.
  - cbn [push_all]. run Hrun. exact Hrun'.
  - replace (list_to_set ((fs ++ nn) ++ nf) ∪ U) with (list_to_set nf ∪ (list_to_set (fs ++ nn) ∪ U)); [done|].
    rewrite (list_to_set_app_L (fs ++ nn)). set_solver.
  - eapply grows_trans; [exact Hg|exact Hg'|]. cbn [page_table ms1]. intros x. rewrite Hfr, !elem_of_app. tauto.
  - rewrite Har. cbn [areas ms1]. by rewrite <- app_assoc.
  - constructor; [|done]. apply (filled_mono m1).
    + split; try done. intros i f Hi. rewrite Hmf in Hi. by apply Hz.
    + intros f Hf. assert (a' ∈ areas ms1) as Hin1 by (cbn [areas ms1]; rewrite elem_of_app, list_elem_of_singleton; by right).
      destruct (area_frame _ _ _ _ _ _ Hinv1 Hin1 f Hf). apply (gw_ram _ _ _ _ _ _ Hg'); [done|by eapply grows_incl].
  - rewrite Hown', Hown. by rewrite <- app_assoc.
  - rewrite length_app. fold (areas_cost l.*1). lia.
Qed.

(** The byte at offset [o] of page [i] of data [d]. *)
Lemma chunk_lookup d i o :
  (o < page_len)%nat → splice 0 (chunk d 0 i) zero_frame !! o = Some (default 0 (d !! (page_len * i + o)%nat)).
Proof.
  intros Ho. unfold chunk. cbn [Nat.add]. change zero_frame with (replicate page_len 0).
  set (c := slice (page_len * i) page_len d). assert (length c ≤ page_len)%nat as Hlc by (subst c; rewrite length_slice; lia).
  destruct (decide (o < length c)%nat) as [Hlt|Hge].
  - rewrite lookup_splice_new by (rewrite ?length_replicate; lia). rewrite Nat.sub_0_r. subst c.
    rewrite lookup_slice by lia. destruct (lookup_lt_is_Some_2 d (page_len * i + o)) as [x Hx]; [|by rewrite Hx].
    rewrite length_slice in Hlt. lia.
  - rewrite lookup_splice_old by (rewrite ?length_replicate; lia). rewrite lookup_replicate_2 by done.
    rewrite lookup_ge_None_2; [done|]. subst c. rewrite length_slice in Hge. lia.
Qed.

(** What a process finds in a filled area: the data from the start of the
    area's first page on, then zeros. *)
Lemma filled_view m lo U tr ms p a va :
  ms_inv m lo U tr ms → a ∈ areas ms → filled m p a → map_type p.1 = Framed → floor va ∈ area_pages p.1 →
  user_byte m (ms_map tr ms) va =
    Some (default 0 (default [] p.2 !! Z.to_nat (va - 4096 * range_l (vpn_range p.1)))) ∧
  PTE_flags <$> ms_map tr ms !! floor va = Some (Z.lor (map_perm p.1) PTE_V).
Proof.
  intros Hinv Ha [F1 F2 F3 F4] Hty Hv. assert (map_type a = Framed) as Hty' by congruence.
  assert (area_pages a = area_pages p.1) as Hpg by (unfold area_pages; by rewrite F1). rewrite <- Hpg in Hv.
  destruct (page_frame _ _ _ _ _ _ _ Hinv Ha Hty' Hv) as (f & Hf & Hmf & Hbf).
  rewrite Hbf.
  pose proof (mi_areas _ _ _ _ _ Hinv) as Hall. rewrite list.Forall_forall in Hall. destruct (Hall _ Ha) as ((Hr1 & Hr2 & Hp) & _).
  unfold area_pages in Hv. apply elem_of_seqZ in Hv. destruct (addr_split va) as [Hva Ho]. pose proof page_len_Z as Hpl.
  split.
  - rewrite (F4 _ _ Hf). cbn [mbind option_bind]. rewrite chunk_lookup by lia. do 3 f_equal. rewrite <- F1. nia.
  - rewrite Hmf. cbn [fmap option_fmap option_map]. unfold area_pte. rewrite PTE_flags_new, F3; [done| |by apply lor_V_range].
    eapply used_range; [exact Hinv|]. eapply area_frame; [exact Hinv|exact Ha|]. by eapply list_elem_of_lookup_2.
Qed.

(** ** Programs *)

(** The program headers of type LOAD; [None] when a header cannot be read. *)
Fixpoint loadable (phs : list (option ProgramHeader)) : option (list ProgramHeader) :=
  match phs with
  | [] => Some []
  | oph :: phs =>
      ph ← oph; load ← ph_type_load ph; rest ← loadable phs;
      Some (if load : bool then ph :: rest else rest)
  end.

Definition seg_end (ph : ProgramHeader) : Z := ceil (ph_virtual_addr ph + ph_mem_size ph).
Definition seg_area (ph : ProgramHeader) : MapArea :=
  mkArea (mkRange (floor (ph_virtual_addr ph)) (seg_end ph)) [] Framed (ph_perm ph).
Definition seg_data (input : list Z) (ph : ProgramHeader) : list Z :=
  slice (Z.to_nat (ph_offset ph)) (Z.to_nat (ph_file_size ph)) input.
Definition seg_push (input : list Z) (ph : ProgramHeader) : MapArea * option (list Z) :=
  (seg_area ph, Some (seg_data input ph)).

(** A segment a linker makes: not empty, inside the user half of the address
    space, its file part inside the image and no longer than its memory. *)
Record good_segment (input : list Z) (ph : ProgramHeader) : Prop := {
  gs_va : 0 ≤ ph_virtual_addr ph;
  gs_mem : 0 < ph_mem_size ph;
  gs_end : ph_virtual_addr ph + ph_mem_size ph < VA_END;
  gs_file : 0 ≤ ph_file_size ph ≤ ph_mem_size ph;
  gs_off : 0 ≤ ph_offset ph;
  gs_in : ph_offset ph + ph_file_size ph ≤ Z.of_nat (length input);
  gs_len : Z.of_nat (length input) < 2 ^ 63;
  gs_bytes : Forall is_byte input;
}.

Lemma MapArea_new_ok s e ty p :
  floor s ≤ ceil e → MapArea_new s e ty p = Ok (mkArea (mkRange (floor s) (ceil e)) [] ty p).
Proof. intros H. unfold MapArea_new, SimpleRange_new. by destruct (Z.leb_spec (floor s) (ceil e)); [|lia]. Qed.

Lemma ph_perm_range ph : 0 ≤ ph_perm ph < 256.
Proof. unfold ph_perm. destruct (ph_read ph), (ph_write ph), (ph_execute ph); vm_compute; done. Qed.

(** The pages of a segment. *)
Lemma seg_range input ph : good_segment input ph →
  0 ≤ floor (ph_virtual_addr ph) < seg_end ph ∧ seg_end ph ≤ VPN_END ∧
  ph_file_size ph ≤ 4096 * (seg_end ph - floor (ph_virtual_addr ph)).
Proof.
  intros [G1 G2 G3 G4 _ _ _]. change VA_END with 549755813888 in G3. change VPN_END with 134217728.
  unfold seg_end. pose proof (addr_split (ph_virtual_addr ph)) as [Ha Ho].
  pose proof (ceil_bounds (ph_virtual_addr ph + ph_mem_size ph)) as Hc.
  change (2 ^ 63) with 9223372036854775808 in Hc. specialize (Hc ltac:(lia)). lia.
Qed.

Lemma seg_pushable input ph : good_segment input ph → pushable (seg_push input ph).
Proof.
  intros Hg. destruct (seg_range input ph Hg) as (H1 & H2 & H3). pose proof Hg as [G1 G2 G3 G4 G5 G6 G7 G8].
  split_and!; cbn [fst snd seg_push].
  - unfold area_range. cbn [vpn_range seg_area range_l range_r map_perm]. pose proof (ph_perm_range ph). lia.
  - done.
  - unfold data_fits, area_pages. cbn [vpn_range seg_area range_l range_r map_type]. pose proof page_len_Z.
    split_and!; [done| | |].
    + rewrite seqZ_cons by lia. done.
    + rewrite length_seqZ. unfold seg_data. rewrite length_slice. nia.
    + by apply Forall_take, Forall_drop.
Qed.

(** The end of the last segment loaded. *)
Definition max_end (segs : list ProgramHeader) (d : Z) : Z := from_option seg_end d (list.last segs).

Lemma max_end_cons ph segs d : max_end (ph :: segs) d = max_end segs (seg_end ph).
Proof. unfold max_end. rewrite last_cons. by destruct (list.last segs). Qed.

Lemma load_segments_push input phs : ∀ segs ms d m,
  loadable phs = Some segs → Forall (good_segment input) segs →
  load_segments input phs ms d m = (push_all (seg_push input <$> segs) ms ≫= λ ms', mret (ms', max_end segs d)) m.
Proof.
  induction phs as [|oph phs IH]; intros segs ms d m Hl Hg; cbn [loadable] in Hl.
  { injection Hl as <-. done. }
  destruct oph as [ph|]; [|done]. cbn [mbind option_bind] in Hl.
  destruct (ph_type_load ph) as [load|] eqn:Hty; [|done]. cbn [mbind option_bind] in Hl.
  destruct (loadable phs) as [rest|] eqn:Hrest; [|done]. cbn [mbind option_bind] in Hl. injection Hl as <-.
  cbn [load_segments]. rewrite M_unwrap_bind, Hty, M_unwrap_bind. destruct load; [|by apply IH].
  apply list.Forall_cons in Hg as [Hg Hgs]. destruct (seg_range input ph Hg) as (H1 & H2 & _).
  destruct Hg as [G1 G2 G3 G4 G5 G6 G7]. change VA_END with 549755813888 in *. change (2 ^ 63) with 9223372036854775808 in G7.
  rewrite !uadd_small by (mach_unfold; lia). rewrite !VirtAddr_from_id by (change VA_END with 549755813888; lia).
  rewrite MapArea_new_ok by (unfold seg_end in H1; lia). fold (seg_end ph). fold (seg_area ph).
  rewrite (M_bind_run _ _ m (seg_area ph) m) by done.
  assert (elf_slice input (ph_offset ph) (ph_offset ph + ph_file_size ph) = Ok (seg_data input ph)) as ->.
  { unfold elf_slice, seg_data. rewrite (proj2 (Z.leb_le _ _)), (proj2 (Z.leb_le _ _)) by lia. cbn.
    do 3 f_equal. lia. }
  rewrite (M_bind_run _ _ m (seg_data input ph) m) by done.
  rewrite fmap_cons. unfold seg_push at 1. cbn [push_all]. rewrite M_bind_assoc.
  change (get_end (vpn_range (seg_area ph))) with (seg_end ph).
  apply M_bind_ext. intros ms1 m1. rewrite (IH rest ms1 (seg_end ph) m1 eq_refl Hgs). by rewrite max_end_cons.
Qed.

Lemma push_all_app l1 l2 ms m :
  push_all (l1 ++ l2) ms m = (push_all l1 ms ≫= push_all l2) m.
Proof.
  revert ms m. induction l1 as [|[a d] l1 IH]; intros ms m; [done|]. cbn [app push_all]. rewrite M_bind_assoc.
  apply M_bind_ext. intros ms1 m1. apply IH.
Qed.

Definition stack_area (e : Z) : MapArea :=
  mkArea (mkRange (e + 1) (e + 3)) [] Framed (Z.lor (Z.lor MapPermission_R MapPermission_W) MapPermission_U).
Definition trap_area : MapArea :=
  mkArea (mkRange (VPN_END - 2) (VPN_END - 1)) [] Framed (Z.lor MapPermission_R MapPermission_W).

(** What [from_elf] pushes: the segments, the stack above a guard page, and
    the page of the trap context. *)
Definition elf_layout (input : list Z) (segs : list ProgramHeader) : list (MapArea * option (list Z)) :=
  (seg_push input <$> segs) ++ [(stack_area (max_end segs 0), None); (trap_area, None)].

Definition user_stack_top (segs : list ProgramHeader) : Z := 4096 * (max_end segs 0 + 3).

Lemma max_end_range input segs :
  Forall (good_segment input) segs → 0 ≤ max_end segs 0 ≤ VPN_END.
Proof.
  intros Hg. unfold max_end. destruct (list.last segs) as [ph|] eqn:Hl; [|done]. cbn [from_option].
  apply last_Some in Hl as [l' ->]. apply Forall_app in Hg as [_ Hg]. apply list.Forall_cons in Hg as [Hg _].
  destruct (seg_range input ph Hg). lia.
Qed.

Section program.
Context (ElfFile_new : list Z → option ElfFile) (syms : kernel_symbols).
Context (input : list Z) (elf : ElfFile) (segs : list ProgramHeader).
Hypothesis Hparse : ElfFile_new input = Some elf.
Hypothesis Hmagic : elf_magic elf = [0x7f; 0x45; 0x4c; 0x46].
Hypothesis Hload : loadable (elf_program_headers elf) = Some segs.
Hypothesis Hgood : Forall (good_segment input) segs.
Hypothesis Htop : max_end segs 0 + 3 ≤ VPN_END - 2.

Lemma from_elf_push m :
  from_elf ElfFile_new syms input m =
  ((new_bare ≫= map_trampoline syms) ≫= λ ms, push_all (elf_layout input segs) ms ≫= λ ms,
    mret (ms, user_stack_top segs, elf_entry_point elf)) m.
Proof using Hparse Hmagic Hload Hgood Htop.
  unfold from_elf. rewrite M_bind_assoc. apply M_bind_ext. intros ms0 m0. apply M_bind_ext. intros ms1 m1.
  rewrite Hparse, M_unwrap_bind, M_assert_bind by (by apply bool_decide_eq_true).
  transitivity ((push_all (seg_push input <$> segs) ms1 ≫= λ ms2,
    push_all [(stack_area (max_end segs 0), None); (trap_area, None)] ms2 ≫= λ ms,
    mret (ms, user_stack_top segs, elf_entry_point elf)) m1).
  2:{ rewrite <- M_bind_assoc. apply M_bind_eq. by rewrite <- push_all_app. }
  rewrite (M_bind_eq _ _ _ _ (load_segments_push input _ segs ms1 0 m1 Hload Hgood)), M_bind_assoc.
  apply M_bind_ext. intros ms2 m2. rewrite M_ret_bind. cbn [push_all].
  pose proof (max_end_range input segs Hgood) as He. unfold user_stack_top. set (e := max_end segs 0) in *.
  change VPN_END with 134217728 in *. change PAGE_SIZE with 4096. change USER_STACK_SIZE with 8192.
  rewrite addr_of_page_num_eq by (change (2 ^ 52) with 4503599627370496; lia).
  rewrite (uadd_small (4096 * e) 4096), (uadd_small (4096 * e + 4096) 8192) by (mach_unfold; lia).
  rewrite (VirtAddr_from_id (4096 * e + 4096)), (VirtAddr_from_id (4096 * e + 4096 + 8192))
    by (change VA_END with 549755813888; lia).
  assert (floor (4096 * e + 4096) = e + 1) as Hfl.
  { destruct (addr_split (4096 * e + 4096)). lia. }
  assert (ceil (4096 * e + 4096 + 8192) = e + 3) as Hce.
  { pose proof (ceil_bounds (4096 * e + 4096 + 8192)) as Hc. change (2 ^ 63) with 9223372036854775808 in Hc. lia. }
  rewrite (MapArea_new_ok (4096 * e + 4096) (4096 * e + 4096 + 8192)) by (rewrite Hfl, Hce; lia).
  rewrite M_res_bind, Hfl, Hce. fold (stack_area e). rewrite M_bind_assoc.
  apply M_bind_ext. intros ms3 m3.
  change (MapArea_new (VirtAddr_from TRAP_CONTEXT) (VirtAddr_from TRAMPOLINE) Framed (Z.lor MapPermission_R MapPermission_W))
    with (Ok trap_area). rewrite M_res_bind, M_bind_assoc. apply M_bind_ext. intros ms4 m4.
  rewrite M_ret_bind. do 4 f_equal. lia.
Qed.

Lemma layout_pushable : Forall pushable (elf_layout input segs).
Proof using Hgood Htop.
  pose proof (max_end_range input segs Hgood) as He. change VPN_END with 134217728 in *.
  apply Forall_app_2; [|repeat constructor; try done; cbn; change VPN_END with 134217728; try lia].
  apply Forall_fmap. eapply list.Forall_impl; [exact Hgood|]. apply seg_pushable.
Qed.

(** [from_elf] on an image whose layout does not overlap itself. *)
Lemma from_elf_spec m lo U :
  mem_ok m lo U → tramp_ok syms → NoDup (pages_of (elf_layout input segs)) →
  TRAMP_VPN ∉ pages_of (elf_layout input segs) →
  3 + areas_cost (elf_layout input segs).*1 ≤ free_frames m lo U →
  ∃ m' ms nf, from_elf ElfFile_new syms input m = Ok ((ms, user_stack_top segs, elf_entry_point elf), m') ∧
    ms_inv m' lo (list_to_set nf ∪ U) [tramp_entry syms] ms ∧ grows lo m U m' nf [] ∧ owned ms ≡ₚ nf ∧
    Forall2 (filled m') (elf_layout input segs) (areas ms) ∧ Z.of_nat (length nf) ≤ 3 + areas_cost (elf_layout input segs).*1.
Proof using Hparse Hmagic Hload Hgood Htop.
  intros Hm Htr Hnd Htramp Hfree. pose proof (areas_cost_nonneg (elf_layout input segs).*1).
  destruct (new_space_spec syms m lo U Hm Htr ltac:(lia)) as (m1 & pt & Hrun1 & Hinv1 & Hg1 & Hn).
  assert (owned (mkMS pt []) = frames pt) as Hown1 by (unfold owned, data_owned; cbn; by rewrite app_nil_r).
  destruct (push_all_spec lo [tramp_entry syms] (elf_layout input segs) m1 (list_to_set (frames pt) ∪ U) (mkMS pt []) Hinv1)
    as (m' & ms' & nf & l' & Hrun & Hinv' & Hg & Har & Hall & Hown & Hcost); try done.
  { apply layout_pushable. }
  { intros v Hv Hin. cbn in Hin. apply list_elem_of_singleton in Hin as ->. done. }
  { rewrite (gw_free _ _ _ _ _ _ Hg1). lia. }
  exists m', ms', (frames pt ++ nf). cbn [areas app] in Har. rewrite Har. split_and!.
  - rewrite from_elf_push. run Hrun1. by run Hrun.
  - replace (list_to_set (frames pt ++ nf) ∪ U) with (list_to_set nf ∪ (list_to_set (frames pt) ∪ U)); [done|].
    rewrite list_to_set_app_L. set_solver.
  - eapply grows_trans; [exact Hg1|exact Hg|]. by right.
  - by rewrite Hown, Hown1.
  - done.
  - rewrite length_app. lia.
Qed.
End program.
