(* ===== verification/KernelSpace.v ===== *)
(** * KernelSpace: the kernel's address space (os/src/memory/memory_set.rs)

    [new_kernel] maps the kernel's sections, the free physical memory and the
    device registers to themselves, each with its permissions; with it
    [remap_test] passes. *)

From stdpp Require Import base gmap list numbers.
From S2P Require Import Prelude Bytes Address FrameAllocator PageTable PageTableInv PageTableRep UserMem.
From S2P Require Import MemorySet AreaMap AreaCopy AddressSpace ForkSpace ElfSpace.

(** A section: start, end, permissions. *)
Record section : Type := mkSec { sec_start : Z; sec_end : Z; sec_perm : Z }.

Definition RX : Z := Z.lor MapPermission_R MapPermission_X.
Definition RW : Z := Z.lor MapPermission_R MapPermission_W.

Definition kernel_sections (syms : kernel_symbols) (MMIO : list (Z * Z)) : list section :=
  [mkSec (stext syms) (etext syms) RX; mkSec (srodata syms) (erodata syms) MapPermission_R;
   mkSec (sdata syms) (edata syms) RW; mkSec (sbss_with_stack syms) (ebss syms) RW;
   mkSec (ekernel syms) MEMORY_END RW] ++
  ((λ p, mkSec p.1 (p.1 + p.2) RW) <$> MMIO).

Definition sec_area (s : section) : MapArea :=
  mkArea (mkRange (floor (sec_start s)) (ceil (sec_end s))) [] Identical (sec_perm s).
Definition sec_push (s : section) : MapArea * option (list Z) := (sec_area s, None).

Definition sec_ok (s : section) : Prop :=
  0 ≤ sec_start s ≤ sec_end s ∧ sec_end s < VA_END ∧ 0 ≤ sec_perm s < 256.

Lemma sec_range s : sec_ok s → 0 ≤ floor (sec_start s) ≤ ceil (sec_end s) ∧ ceil (sec_end s) ≤ VPN_END.
Proof.
  intros (H1 & H2 & _). change VA_END with 549755813888 in H2. change VPN_END with 134217728.
  pose proof (addr_split (sec_start s)) as [Ha Ho]. pose proof (ceil_bounds (sec_end s)) as Hc.
  change (2 ^ 63) with 9223372036854775808 in Hc. specialize (Hc ltac:(lia)). lia.
Qed.

Lemma push_identical_sec ms s e p m :
  sec_ok (mkSec s e p) → push_identical ms s e p m = push ms (sec_area (mkSec s e p)) None m.
Proof.
  intros Hs. pose proof (sec_range _ Hs) as [Hr _]. destruct Hs as (H1 & H2 & _). cbn [sec_start sec_end] in *.
  unfold push_identical. rewrite !VirtAddr_from_id by lia. rewrite MapArea_new_ok by lia. by rewrite M_res_bind.
Qed.

Lemma push_identical_bind {B} ms s e p (f : MemorySet → M mem B) m :
  sec_ok (mkSec s e p) → (push_identical ms s e p ≫= f) m = (push ms (sec_area (mkSec s e p)) None ≫= f) m.
Proof. intros Hs. by apply M_bind_eq, push_identical_sec. Qed.

Lemma push_mmio_sec pairs : ∀ ms m,
  Forall (λ p, sec_ok (mkSec p.1 (p.1 + p.2) RW)) pairs →
  push_mmio ms pairs m = push_all (sec_push <$> ((λ p, mkSec p.1 (p.1 + p.2) RW) <$> pairs)) ms m.
Proof.
  induction pairs as [|p pairs IH]; intros ms m Hp; [done|]. apply list.Forall_cons in Hp as [Hp Hps].
  cbn [push_mmio]. rewrite !fmap_cons. unfold sec_push at 1. cbn [push_all].
  assert (p.1 +u p.2 = p.1 + p.2) as ->.
  { destruct Hp as (H1 & H2 & _). cbn [sec_start sec_end] in *. change VA_END with 549755813888 in H2.
    apply uadd_small. mach_unfold. lia. }
  rewrite push_identical_bind by done. apply M_bind_ext. intros ms1 m1. by apply IH.
Qed.

Section kernel.
Context (syms : kernel_symbols) (MMIO : list (Z * Z)).
Let secs := kernel_sections syms MMIO.
Hypothesis Hok : Forall sec_ok secs.
Hypothesis Htr : tramp_ok syms.

Lemma new_kernel_push m :
  new_kernel syms MMIO m = ((new_bare ≫= map_trampoline syms) ≫= push_all (sec_push <$> secs)) m.
Proof using Hok.
  unfold new_kernel. rewrite M_bind_assoc. apply M_bind_ext. intros ms0 m0. apply M_bind_ext. intros ms1 m1.
  subst secs. unfold kernel_sections in *. apply Forall_app in Hok as [H1 H2]. rewrite fmap_app, push_all_app.
  repeat (apply list.Forall_cons in H1 as [?H H1]). cbn [fmap list_fmap push_all sec_push].
  do 5 (rewrite M_bind_assoc, push_identical_bind by done; apply M_bind_ext; intros ? ?).
  rewrite M_ret_bind. apply push_mmio_sec. rewrite Forall_fmap in H2. exact H2.
Qed.

Lemma secs_pushable : Forall pushable (sec_push <$> secs).
Proof using Hok.
  apply Forall_fmap. eapply list.Forall_impl; [exact Hok|]. intros s Hs. pose proof (sec_range s Hs) as [H1 H2].
  destruct Hs as (_ & _ & Hp). split_and!; try done; cbn; lia.
Qed.

Lemma new_kernel_spec m lo U :
  mem_ok m lo U → NoDup (TRAMP_VPN :: pages_of (sec_push <$> secs)) →
  3 + areas_cost (sec_area <$> secs) ≤ free_frames m lo U →
  ∃ m' ms nf, new_kernel syms MMIO m = Ok (ms, m') ∧
    ms_inv m' lo (list_to_set nf ∪ U) [tramp_entry syms] ms ∧ grows lo m U m' nf [] ∧ owned ms ≡ₚ nf ∧
    Forall2 (filled m') (sec_push <$> secs) (areas ms) ∧ Z.of_nat (length nf) ≤ 3 + areas_cost (sec_area <$> secs).
Proof using Hok Htr.
  intros Hm [Htramp Hnd]%list.NoDup_cons Hfree. pose proof (areas_cost_nonneg (sec_area <$> secs)).
  destruct (new_space_spec syms m lo U Hm Htr ltac:(lia)) as (m1 & pt & Hrun1 & Hinv1 & Hg1 & Hn).
  assert (owned (mkMS pt []) = frames pt) as Hown1 by (unfold owned, data_owned; cbn; by rewrite app_nil_r).
  assert ((sec_push <$> secs).*1 = sec_area <$> secs) as Hsa by (by rewrite <- list_fmap_compose).
  destruct (push_all_spec lo [tramp_entry syms] (sec_push <$> secs) m1 (list_to_set (frames pt) ∪ U) (mkMS pt []) Hinv1)
    as (m' & ms' & nf & l' & Hrun & Hinv' & Hg & Har & Hall & Hown & Hcost); try done.
  { apply secs_pushable. }
  { intros v Hv Hin. cbn in Hin. apply list_elem_of_singleton in Hin as ->. done. }
  { rewrite (gw_free _ _ _ _ _ _ Hg1), Hsa. lia. }
  exists m', ms', (frames pt ++ nf). cbn [areas app] in Har. rewrite Har. split_and!.
  - rewrite new_kernel_push. by run Hrun1.
  - replace (list_to_set (frames pt ++ nf) ∪ U) with (list_to_set nf ∪ (list_to_set (frames pt) ∪ U)); [done|].
    rewrite list_to_set_app_L. set_solver.
  - eapply grows_trans; [exact Hg1|exact Hg|]. by right.
  - by rewrite Hown, Hown1.
  - done.
  - rewrite Hsa in Hcost. rewrite length_app. lia.
Qed.
End kernel.

(** The pages of a section are mapped to themselves. *)
Lemma identity_view m lo U tr ms s a v :
  ms_inv m lo U tr ms → a ∈ areas ms → filled m (sec_push s) a → v ∈ area_pages (sec_area s) →
  translate (page_table ms) v m = Ok (Some (PTE_new v (Z.lor (sec_perm s) PTE_V)), m).
Proof.
  intros Hinv Ha [F1 F2 F3 _] Hv. apply (translate_mapped _ _ (ms_map tr ms)); [apply (mi_rep _ _ _ _ _ Hinv)|].
  eapply area_mapped; [done|done|]. unfold area_maps, area_entries, backing. rewrite F2. cbn [map_type sec_push sec_area fst].
  assert (area_pages a = area_pages (sec_area s)) as -> by (unfold area_pages; by rewrite F1).
  apply list_elem_of_lookup in Hv as [i Hi]. apply list_elem_of_lookup_2 with i.
  rewrite lookup_zip_with, list_lookup_fmap, Hi. unfold area_pte. by rewrite F3.
Qed.

(** Permissions of the entries [remap_test] looks at. *)
Lemma entry_perm v p : 0 ≤ v < 2 ^ 44 → 0 ≤ p < 256 →
  writable (PTE_new v (Z.lor p PTE_V)) = negb (Z.land (Z.lor p PTE_V) PTE_W =? 0) ∧
  executable (PTE_new v (Z.lor p PTE_V)) = negb (Z.land (Z.lor p PTE_V) PTE_X =? 0).
Proof.
  intros Hv Hp. unfold writable, executable. by rewrite PTE_flags_new by (done || by apply lor_V_range).
Qed.

(** The middle of a section that is not empty lies in one of its pages. *)
Lemma mid_page s :
  sec_ok s → sec_start s < sec_end s →
  let v := floor (VirtAddr_from ((sec_start s +u sec_end s) / 2)) in
  v ∈ area_pages (sec_area s) ∧ 0 ≤ v < 2 ^ 44.
Proof.
  intros Hs Hlt v. pose proof (sec_range s Hs) as [_ Hc]. destruct Hs as (H1 & H2 & _).
  change VA_END with 549755813888 in H2. change VPN_END with 134217728 in Hc.
  assert (sec_start s +u sec_end s = sec_start s + sec_end s) as Heq by (apply uadd_small; mach_unfold; lia).
  pose proof (Z.div_mod (sec_start s + sec_end s) 2 ltac:(lia)) as Hd.
  pose proof (Z.mod_pos_bound (sec_start s + sec_end s) 2 ltac:(lia)) as Hb.
  subst v. rewrite Heq, VirtAddr_from_id by (change VA_END with 549755813888; lia).
  set (mid := (sec_start s + sec_end s) / 2) in *. destruct (addr_split mid), (addr_split (sec_start s)).
  pose proof (ceil_bounds (sec_end s) ltac:(change (2 ^ 63) with 9223372036854775808; lia)).
  change (2 ^ 44) with 17592186044416. split; [|lia]. apply elem_of_seqZ. cbn [sec_area vpn_range range_l range_r]. lia.
Qed.

(** An address space that maps the sections to themselves passes
    [remap_test]. *)
Lemma remap_test_passes syms MMIO ms m :
  Forall sec_ok (kernel_sections syms MMIO) →
  (∀ s v, s ∈ kernel_sections syms MMIO → v ∈ area_pages (sec_area s) →
     translate (page_table ms) v m = Ok (Some (PTE_new v (Z.lor (sec_perm s) PTE_V)), m)) →
  stext syms < etext syms → srodata syms < erodata syms → sdata syms < edata syms →
  remap_test syms ms m = Ok ((), m).
Proof.
  intros Hok Hid Ht Hro Hda. rewrite list.Forall_forall in Hok.
  assert (∀ s, s ∈ kernel_sections syms MMIO → sec_start s < sec_end s →
    ∃ v, floor (VirtAddr_from ((sec_start s +u sec_end s) / 2)) = v ∧ 0 ≤ v < 2 ^ 44 ∧
      ms_translate ms v m = Ok (Some (PTE_new v (Z.lor (sec_perm s) PTE_V)), m)) as Hmid.
  { intros s Hs Hlt. destruct (mid_page s (Hok s Hs) Hlt) as [Hv Hr]. eexists. split_and!; [done|apply Hr..|]. by apply Hid. }
  destruct (Hmid (mkSec (stext syms) (etext syms) RX)) as (v1 & E1 & R1 & T1); [unfold kernel_sections; elt|done|].
  destruct (Hmid (mkSec (srodata syms) (erodata syms) MapPermission_R)) as (v2 & E2 & R2 & T2); [unfold kernel_sections; elt|done|].
  destruct (Hmid (mkSec (sdata syms) (edata syms) RW)) as (v3 & E3 & R3 & T3); [unfold kernel_sections; elt|done|].
  cbn [sec_start sec_end sec_perm] in *. unfold remap_test. rewrite E1, E2, E3.
  destruct (entry_perm v1 RX R1 ltac:(done)) as [W1 _]. destruct (entry_perm v2 MapPermission_R R2 ltac:(done)) as [W2 _].
  destruct (entry_perm v3 RW R3 ltac:(done)) as [_ X3].
  run T1. rewrite M_unwrap_bind, W1. cbn [negb]. rewrite M_assert_bind by done.
  run T2. rewrite M_unwrap_bind, W2. rewrite M_assert_bind by done.
  run T3. rewrite M_unwrap_bind, X3. done.
Qed.
