(* ===== verification/MemProps.v ===== *)
(** * MemProps: the properties of memory management

    The theorems about physical frames, page tables, user memory and address
    spaces, each with an instance at concrete inputs. *)

From stdpp Require Import base gmap list numbers.
From S2P Require Import Prelude Bytes Address FrameAllocator PageTable PageTableInv PageTableRep UserMem.
From S2P Require Import MemorySet AreaMap AreaCopy AddressSpace ForkSpace ElfSpace KernelSpace.

(** ** A sample machine: the frames [lo] to [hi - 1], all free, and a zero
    frame [dev] that the allocator does not manage *)
Notation dev := 100.
Definition sample_mem (lo hi : Z) : mem :=
  mkMem (<[dev := zero_frame]> (list_to_map ((λ i, (i, zero_frame)) <$> seqZ lo (hi - lo)))) (mkSFA lo hi []).

Lemma lookup_sample lo hi i :
  ram (sample_mem lo hi) !! i = if decide (i = dev ∨ lo ≤ i < hi) then Some zero_frame else None.
Proof.
  unfold sample_mem. cbn [ram]. destruct (decide (i = dev)) as [->|Hne].
  { rewrite lookup_insert_eq, decide_True by auto. done. }
  rewrite lookup_insert_ne by done. case_decide as Hi.
  - apply elem_of_list_to_map_1.
    + rewrite <- list_fmap_compose. cbn. rewrite list_fmap_id. apply NoDup_seqZ.
    + apply list_elem_of_fmap. exists i. split; [done|]. apply elem_of_seqZ. lia.
  - apply not_elem_of_list_to_map_1. rewrite <- list_fmap_compose. cbn. rewrite list_fmap_id.
    rewrite elem_of_seqZ. lia.
Qed.

Lemma sample_ok lo hi : 0 ≤ lo ≤ hi → hi < 2 ^ 44 → mem_ok (sample_mem lo hi) lo ∅.
Proof.
  intros H1 H2. split.
  - split; cbn; try lia; [constructor|by intros x ?%elem_of_nil|]. intros x. rewrite elem_of_empty. lia.
  - intros x b. rewrite lookup_sample. case_decide; [|done]. intros [= <-]. apply zero_frame_ok.
  - cbn [falloc sample_mem end_]. intros x Hx. rewrite lookup_sample, decide_True by (right; lia). eauto.
Qed.

Definition m0 : mem := sample_mem 256 512.
Lemma m0_ok : mem_ok m0 256 ∅.
Proof. by apply sample_ok. Qed.
Lemma m0_free : free_frames m0 256 ∅ = 256.
Proof. done. Qed.

(** A page table with the page 16 mapped to the frame [dev], and its memory. *)
Lemma sample_table : ∃ m pt U, mem_ok m 256 U ∧ (∀ x, x ∈ frames pt → x ∈ U) ∧ 200 ≤ free_frames m 256 U ∧
  ram m !! dev = Some zero_frame ∧ pt_rep m pt {[16 := PTE_new dev (Z.lor 15 PTE_V)]}.
Proof.
  destruct (PageTable_new_spec m0 256 ∅ m0_ok ltac:(rewrite m0_free; lia)) as (p & m1 & _ & Hrep & _ & Hm1 & Hf & Hr1).
  rewrite m0_free in Hf. revert Hr1.
  destruct (pt_map_fresh m1 256 _ _ _ Hm1 Hrep ltac:(set_solver) 16 dev 15 2) as (m2 & pt2 & nf & _ & Hrep2 & Hg & Hl);
    try done; [by right|lia|].
  assert (∀ x, x ∈ frames pt2 → x ∈ (list_to_set nf ∪ ({[p]} ∪ ∅) : gset Z)) as HU.
  { rewrite (pg_frames _ _ _ _ _ _ _ Hg). cbn [frames]. set_solver. }
  assert (256 ≤ p ∧ ∀ x, x ∈ (list_to_set nf ∪ ({[p]} ∪ ∅) : gset Z) → 256 ≤ x) as [Hp Hlt].
  { assert (∀ x, x ∈ (list_to_set nf ∪ ({[p]} ∪ ∅) : gset Z) → 256 ≤ x) as Hall; [|split; [apply Hall; set_solver|done]].
    intros x Hx. apply (fa_used _ _ _ (mo_alloc _ _ _ (pg_mem _ _ _ _ _ _ _ Hg))) in Hx. lia. }
  intros Hr1.
  exists m2, pt2, (list_to_set nf ∪ ({[p]} ∪ ∅)). split_and!; [apply Hg|exact HU| | |exact Hrep2].
  - rewrite (pg_free _ _ _ _ _ _ _ Hg), Hf. lia.
  - rewrite (pg_ram _ _ _ _ _ _ _ Hg); [rewrite Hr1, lookup_insert_ne|].
    + unfold m0. rewrite lookup_sample. rewrite decide_True by auto. reflexivity.
    + lia.
    + intros Hd%HU%Hlt. lia.
Qed.

(** ** Frames *)

(** C22: The frame allocator hands out every free frame exactly once: while one
    of the frames from [lo] to [end] is free, [frame_alloc] returns one that is
    not in use, all zero, and touches no other frame; when none is left it
    returns [None].  Of the frames from [lo] up, [frame_dealloc] takes back exactly
    those in use and panics on every other, so a double free is caught.  It does
    not check the lower end of the range: a frame below [lo], of the kernel image,
    is accepted, and is the next one that the allocator hands out. *)
Theorem frames_exclusive m lo U :
  mem_ok m lo U →
  (0 < free_frames m lo U →
     ∃ p m', frame_alloc m = Ok (Some p, m') ∧ lo ≤ p < end_ (falloc m) ∧ p ∉ U ∧
       mem_ok m' lo ({[p]} ∪ U) ∧ ram m' = <[p := zero_frame]> (ram m) ∧
       free_frames m' lo ({[p]} ∪ U) = free_frames m lo U - 1) ∧
  (free_frames m lo U = 0 → frame_alloc m = Ok (None, m)) ∧
  (∀ p, lo ≤ p →
     if decide (p ∈ U) then
       ∃ m', frame_dealloc p m = Ok ((), m') ∧ mem_ok m' lo (U ∖ {[p]}) ∧ ram m' = ram m ∧
         free_frames m' lo (U ∖ {[p]}) = free_frames m lo U + 1 ∧ frame_dealloc p m' = Stop Panicked
     else frame_dealloc p m = Stop Panicked) ∧
  (∀ p, 0 ≤ p < lo → ∃ m', frame_dealloc p m = Ok ((), m') ∧ ram m' = ram m ∧
     SFA_alloc (falloc m') = (Some p, falloc m)).
Proof.
  intros Hm. split_and!.
  - intros Hf. destruct (frame_alloc_spec m lo U Hm Hf) as (p & m' & ? & ? & ? & ? & ? & ?). by exists p, m'.
  - by apply frame_alloc_none.
  - intros p Hp. pose proof (SFA_dealloc_spec _ _ _ p (mo_alloc _ _ _ Hm) Hp) as Hs. case_decide as HU.
    + destruct (frame_dealloc_spec m lo U p Hm HU) as (m' & Hd & Hm' & Hr & Hf). exists m'. split_and!; try done.
      pose proof (SFA_dealloc_spec _ _ _ p (mo_alloc _ _ _ Hm') Hp) as Hs'.
      rewrite decide_False in Hs' by set_solver. unfold frame_dealloc. by rewrite Hs'.
    + unfold frame_dealloc. by rewrite Hs.
  - intros p Hp. destruct (SFA_dealloc_below _ _ _ p (mo_alloc _ _ _ Hm) Hp) as (a' & Hd & Ha).
    exists (mkMem (ram m) a'). unfold frame_dealloc. by rewrite Hd.
Qed.

Lemma frames_exclusive_witness :
  ∃ p m', frame_alloc m0 = Ok (Some p, m') ∧ 256 ≤ p < 512 ∧ frame_dealloc p m0 = Stop Panicked.
Proof.
  destruct (frames_exclusive m0 256 ∅ m0_ok) as (H1 & _ & H3 & _).
  destruct H1 as (p & m' & Ha & Hp & HU & _); [by rewrite m0_free|].
  exists p, m'. split_and!; [done|exact (proj1 Hp)|exact (proj2 Hp)|].
  specialize (H3 p (proj1 Hp)). rewrite decide_False in H3 by apply not_elem_of_empty. exact H3.
Defined.

(** ** Page tables *)

(** C12: Mapping in the three-level page table refines insertion in a finite
    map from page numbers to entries.  [map] on a page that is not mapped adds
    exactly that entry, takes at most the nodes that are missing (none when a
    neighbour page is mapped, two otherwise) and writes to nodes of this table
    only; on a page that is mapped it panics.  [translate] then returns the
    entry, and the entry holds the frame number and the flags. *)
Theorem map_translate m lo U pt A vpn ppn flags k :
  mem_ok m lo U → pt_rep m pt A → (∀ x, x ∈ frames pt → x ∈ U) →
  0 ≤ vpn < VPN_END → 0 ≤ ppn < 2 ^ 44 → 0 ≤ flags < 256 →
  node_budget A vpn k → Z.of_nat k ≤ free_frames m lo U →
  match A !! vpn with
  | Some _ => pt_map pt vpn ppn flags m = Stop Panicked
  | None =>
      let e := PTE_new ppn (Z.lor flags PTE_V) in
      ∃ m' pt' nf, pt_map pt vpn ppn flags m = Ok (pt', m') ∧ pt_rep m' pt' (<[vpn := e]> A) ∧
        frames pt' = frames pt ++ nf ∧ (length nf ≤ k)%nat ∧ mem_ok m' lo (list_to_set nf ∪ U) ∧
        (∀ x, x ∉ frames pt' → ram m' !! x = ram m !! x) ∧
        translate pt' vpn m' = Ok (Some e, m') ∧ PTE_ppn e = ppn ∧ PTE_flags e = Z.lor flags PTE_V ∧
        (∀ v e', A !! v = Some e' → translate pt' v m' = Ok (Some e', m'))
  end.
Proof.
  intros Hm Hrep HU Hv Hp Hfl Hb Hk. destruct (A !! vpn) as [e|] eqn:HA; [by eapply pt_map_taken|].
  destruct (pt_map_fresh m lo U pt A Hm Hrep HU vpn ppn flags k) as (m' & pt' & nf & Hrun & Hrep' & Hg & Hl); try done.
  exists m', pt', nf. split_and!; try done; try apply Hg.
  - apply (translate_mapped _ _ _ _ _ Hrep'). apply lookup_insert_eq.
  - apply PTE_ppn_new; [done|]. by apply lor_V_range.
  - apply PTE_flags_new; [done|]. by apply lor_V_range.
  - intros v e' Hv'. apply (translate_mapped _ _ _ _ _ Hrep'). rewrite lookup_insert_ne; [done|]. congruence.
Qed.

Lemma map_translate_witness :
  ∃ m pt m' pt', pt_map pt 17 301 15 m = Ok (pt', m') ∧
    translate pt' 17 m' = Ok (Some (PTE_new 301 (Z.lor 15 PTE_V)), m').
Proof.
  destruct sample_table as (m & pt & U & Hm & HU & Hf & _ & Hrep). exists m, pt.
  pose proof (map_translate m 256 U pt _ 17 301 15 0 Hm Hrep HU) as H.
  destruct H as (m' & pt' & nf & H1 & _ & _ & _ & _ & _ & H2 & _); try done; [|lia|by exists m', pt'].
  left. exists 16, (PTE_new dev (Z.lor 15 PTE_V)). split; [apply lookup_singleton_eq|done].
Defined.

(** C36: [unmap] removes exactly the entry of a mapped page, and panics on a
    page that is not mapped.  But [translate] does not fail afterwards: it
    returns the cleared entry of the leaf table, whose frame number is 0,
    as [find_pte] does not look at the valid bit of the last level. *)
Theorem unmap_translate m lo U pt A vpn :
  mem_ok m lo U → pt_rep m pt A → 0 ≤ vpn < VPN_END →
  match A !! vpn with
  | Some _ =>
      ∃ m', pt_unmap pt vpn m = Ok ((), m') ∧ pt_rep m' pt (delete vpn A) ∧ mem_ok m' lo U ∧
        (∀ x, x ∉ frames pt → ram m' !! x = ram m !! x) ∧
        translate pt vpn m' = Ok (Some PTE_empty, m') ∧ PTE_ppn PTE_empty = 0 ∧
        pt_unmap pt vpn m' = Stop Panicked
  | None => pt_unmap pt vpn m = Stop Panicked
  end.
Proof.
  intros Hm Hrep Hv. destruct (A !! vpn) as [e|] eqn:HA; [|by eapply pt_unmap_unmapped].
  destruct (pt_unmap_mapped m lo U pt A Hm Hrep vpn e HA) as (m' & H1 & H2 & H3 & _ & H4 & H5).
  exists m'. split_and!; try done. by eapply pt_unmap_unmapped, lookup_delete_eq.
Qed.

Lemma unmap_translate_witness :
  ∃ m pt m', pt_unmap pt 16 m = Ok ((), m') ∧ translate pt 16 m' = Ok (Some PTE_empty, m').
Proof.
  destruct sample_table as (m & pt & U & Hm & HU & Hf & _ & Hrep). exists m, pt.
  pose proof (unmap_translate m 256 U pt _ 16 Hm Hrep ltac:(done)) as H. rewrite lookup_singleton_eq in H.
  destruct H as (m' & H1 & _ & _ & _ & H2 & _). by exists m'.
Defined.

(** ** User memory *)

(** C32: [translated_byte_buffer], given the token of an address space, cuts a
    user buffer whose pages are all mapped into slices that each lie in one
    frame.  Taken together, in order, they are exactly the physical addresses
    of the bytes of the buffer; the iterator over the [UserBuffer] visits
    these addresses one by one and ends; and reading at them gives the
    bytes the user program sees. *)
Theorem user_buffer_exact m pt A ptr len :
  pt_rep m pt A → 0 ≤ ptr → 0 ≤ len → ptr + len < VA_END →
  (∀ va, ptr ≤ va < ptr + len → is_Some (A !! floor va)) →
  ∃ ss, translated_byte_buffer (token pt) ptr len m = Ok (ss, m) ∧
    Forall slice_ok ss ∧ UserBuffer_len ss = len ∧
    ubi_drain (S (Z.to_nat len)) (into_iter ss) = Ok (phys A <$> seqZ ptr len) ∧
    (∀ va v, ptr ≤ va < ptr + len → user_byte m A va = Some v → load_byte (phys A va) m = Ok (v, m)).
Proof.
  intros Hrep Hp Hl He Hmap.
  destruct (translated_byte_buffer_spec m pt A Hrep ptr len) as (ss & Hrun & Hc & Hok); try done.
  assert (length (concat (slice_addrs <$> ss)) = Z.to_nat len) as Hlen
    by (rewrite Hc, length_fmap; apply length_seqZ).
  exists ss. split_and!; try done.
  - rewrite UserBuffer_len_addrs; [lia|done|]. change VA_END with 549755813888 in He. lia.
  - rewrite <- Hc. apply ubi_drain_all; [done|]. lia.
  - intros va v _. by apply load_user.
Qed.

Lemma user_buffer_exact_witness :
  ∃ m pt ss, translated_byte_buffer (token pt) 65546 100 m = Ok (ss, m) ∧ UserBuffer_len ss = 100.
Proof.
  destruct sample_table as (m & pt & U & Hm & HU & Hf & _ & Hrep). exists m, pt.
  destruct (user_buffer_exact m pt _ 65546 100 Hrep) as (ss & H1 & _ & H2 & _); try done; [|by exists ss].
  intros va Hva. assert (floor va = 16) as ->; [|rewrite lookup_singleton_eq; eauto].
  unfold floor. change PAGE_SIZE with 4096. symmetry. apply (Z.div_unique _ _ _ (va - 65536)); lia.
Defined.

(** [translated_str] reads a string of the user program up to its zero byte,
    across page borders; [translated_refmut] gives the physical address of the
    byte a user pointer names, and panics when that is 0. *)
Lemma user_string_exact m pt A va s fuel :
  pt_rep m pt A → 0 ≤ va → va + Z.of_nat (length s) < VA_END → str_at m A va s → (length s < fuel)%nat →
  translated_str fuel (token pt) va m = Ok (s, m) ∧
  translated_refmut (token pt) va m = if phys A va =? 0 then Stop Panicked else Ok (phys A va, m).
Proof.
  intros Hrep Hva He Hs Hf. split.
  - unfold translated_str. by rewrite (translated_str_loop m pt A Hrep s) by done.
  - assert (is_Some (A !! floor va)) as [e HA].
    { destruct s as [|c s].
      - destruct Hs as [_ H0]. cbn [length] in H0. rewrite Z.add_0_r in H0. unfold user_byte in H0.
        destruct (A !! floor va); [eauto|done].
      - destruct (proj1 Hs 0%nat c eq_refl) as [H0 _]. rewrite Z.add_0_r in H0. unfold user_byte in H0.
        destruct (A !! floor va); [eauto|done]. }
    unfold translated_refmut. rewrite VirtAddr_from_id by lia.
    run (translate_va_rep m pt A Hrep va e HA). rewrite M_unwrap_bind. by destruct (_ =? 0).
Qed.

(** ** Address spaces *)

(** The symbols of a small kernel. *)
Definition sample_syms : kernel_symbols :=
  mkSyms 0x80200000 0x80202000 0x80202000 0x80203000 0x80203000 0x80205000 0x80205000 0x80206000 0x807fe000 0x80200000.
Lemma sample_tramp : tramp_ok sample_syms.
Proof. split; [cbn; lia|done]. Qed.

Definition sample_area : MapArea := mkArea (mkRange 16 18) [] Framed 14.

(** Pushing a framed area into an address space gives its pages fresh
    frames: the program sees the given bytes from the start of the first page
    on and zeros after them, under the permissions of the area, and what it
    sees of its other areas stays. *)
Lemma push_view m lo U tr ms a data :
  ms_inv m lo U tr ms → area_range a → data_frames a = [] → map_type a = Framed → data_fits a data →
  (∀ v, v ∈ area_pages a → v ∉ (ms_entries tr ms).*1) → area_cost a ≤ free_frames m lo U →
  ∃ m' ms' nf, push ms a data m = Ok (ms', m') ∧ ms_inv m' lo (list_to_set nf ∪ U) tr ms' ∧
    (∀ x, x ∈ nf → x ∉ U) ∧ Z.of_nat (length nf) ≤ area_cost a ∧
    (∀ va, floor va ∈ area_pages a →
       user_byte m' (ms_map tr ms') va =
         Some (default 0 (default [] data !! Z.to_nat (va - 4096 * range_l (vpn_range a)))) ∧
       PTE_flags <$> ms_map tr ms' !! floor va = Some (Z.lor (map_perm a) PTE_V)) ∧
    (∀ b va, b ∈ areas ms → map_type b = Framed → floor va ∈ area_pages b →
       user_byte m' (ms_map tr ms') va = user_byte m (ms_map tr ms) va).
Proof.
  intros Hinv Hr Hdf Hty Hfit Hdis Hcost.
  destruct (push_spec m lo U tr ms Hinv a data Hr Hdf Hfit Hdis Hcost)
    as (m' & pt' & fs & nn & Hrun & Hinv' & Hff & Hfr & Hg & Hc & Hbytes).
  exists m', (mkMS pt' (areas ms ++ [mapped a fs])), (fs ++ nn).
  split_and!; [exact Hrun|exact Hinv'|apply Hg|exact Hc| |].
  - intros va Hva. apply (filled_view m' lo _ tr _ (a, data) (mapped a fs) va Hinv'); try done.
    + cbn [areas]. elt.
    + split; try done. intros i f. rewrite (mapped_fs a fs Hff). apply Hbytes.
  - intros b va Hb Htb Hva. assert (b ∈ areas (mkMS pt' (areas ms ++ [mapped a fs]))) as Hb' by (cbn [areas]; elt).
    destruct (page_frame _ _ _ _ _ _ _ Hinv Hb Htb Hva) as (f & Hf & _ & Hby).
    destruct (page_frame _ _ _ _ _ _ _ Hinv' Hb' Htb Hva) as (g & Hg' & _ & Hby'). simplify_eq.
    rewrite Hby, Hby'. f_equal. apply list_elem_of_lookup_2 in Hf.
    destruct (area_frame _ _ _ _ _ _ Hinv Hb _ Hf) as [HfU Hfp].
    apply (gw_ram _ _ _ _ _ _ Hg); [done|]. intros Hn. by apply (gw_new _ _ _ _ _ _ Hg) in Hn.
Qed.

(** An address space with nothing but the trampoline. *)
Lemma sample_push : ∃ m U ms, ms_inv m 256 U [tramp_entry sample_syms] ms ∧ areas ms = [] ∧ 200 ≤ free_frames m 256 U.
Proof.
  destruct (new_space_spec sample_syms m0 256 ∅ m0_ok sample_tramp ltac:(rewrite m0_free; lia))
    as (m & pt & _ & Hinv & Hg & Hl).
  eexists m, _, (mkMS pt []). split_and!; [exact Hinv|done|].
  rewrite (gw_free _ _ _ _ _ _ Hg), m0_free. lia.
Qed.

Lemma sample_area_fresh (v : Z) : v ∈ area_pages sample_area → v ∉ [tramp_entry sample_syms].*1.
Proof.
  intros Hv%elem_of_seqZ. change (16 ≤ v < 18) in Hv. change ([tramp_entry sample_syms].*1) with [134217727].
  rewrite list_elem_of_singleton. lia.
Qed.

Lemma sample_area_fits : data_fits sample_area (Some [1; 2; 3]).
Proof.
  split; [done|]. split; [done|]. split; [|by repeat constructor].
  change (area_pages sample_area) with [16; 17]. cbn [length]. pose proof page_len_Z. lia.
Qed.

Notation user_map syms ms := (ms_map [tramp_entry syms] ms).

(** C13: [from_existed_user] gives a forked process its own copy of the
    parent's memory: every byte the parent sees the child sees, under the same
    permissions; the parent goes on seeing what it saw; and the child's frames
    are new ones, so no store to one of them changes what the parent sees. *)
Theorem fork_copies_memory syms m lo U src :
  ms_inv m lo U [tramp_entry syms] src → Forall (λ a, map_type a = Framed) (areas src) → tramp_ok syms →
  3 + areas_cost (areas src) ≤ free_frames m lo U →
  ∃ m' ms' nf, from_existed_user syms src m = Ok (ms', m') ∧
    ms_inv m' lo (list_to_set nf ∪ U) [tramp_entry syms] ms' ∧ owned ms' ≡ₚ nf ∧ (∀ x, x ∈ nf → x ∉ U) ∧
    (∀ a va, a ∈ areas src → floor va ∈ area_pages a →
       user_byte m' (user_map syms ms') va = user_byte m (user_map syms src) va ∧
       PTE_flags <$> user_map syms ms' !! floor va = PTE_flags <$> user_map syms src !! floor va) ∧
    (∀ m2 a va, a ∈ areas src → floor va ∈ area_pages a → (∀ x, x ∉ owned ms' → ram m2 !! x = ram m' !! x) →
       user_byte m2 (user_map syms src) va = user_byte m (user_map syms src) va).
Proof.
  intros Hinv Hfr Htr Hf. pose proof (proj1 (list.Forall_forall _ _) Hfr) as Hty.
  destruct (from_existed_user_spec syms m lo U src Hinv Hfr Htr Hf) as (m' & ms' & nf & Hrun & Hinv' & Hg & Hown & Hcp & _).
  exists m', ms', nf. split_and!; [done..|apply Hg| |].
  - intros a va Ha Hva. apply list_elem_of_lookup in Ha as [i Hi].
    destruct (Forall2_lookup_l _ _ _ _ _ Hcp Hi) as (a' & Hi' & Hc). apply list_elem_of_lookup_2 in Hi, Hi'.
    eapply copy_view; eauto.
  - intros m2 a va Ha Hva Hm2. eapply view_same; eauto. intros f Hfa.
    destruct (area_frame _ _ _ _ _ _ Hinv Ha _ Hfa) as [HfU _].
    assert (f ∉ nf) as Hnf by (intros Hn; by apply (gw_new _ _ _ _ _ _ Hg) in Hn).
    rewrite Hm2 by (by rewrite Hown). apply (gw_ram _ _ _ _ _ _ Hg); [apply not_elem_of_nil|done].
Qed.

(** An address space with one area that holds [1; 2; 3]. *)
Lemma sample_space : ∃ m U ms, ms_inv m 256 U [tramp_entry sample_syms] ms ∧ length (areas ms) = 1%nat ∧
  Forall (λ a, map_type a = Framed) (areas ms) ∧ 3 + areas_cost (areas ms) ≤ free_frames m 256 U.
Proof.
  destruct sample_push as (m & U & ms & Hinv & Har & Hf).
  destruct (push_spec m 256 U [tramp_entry sample_syms] ms Hinv sample_area (Some [1; 2; 3]))
    as (m' & pt' & fs & nn & _ & Hinv' & _ & _ & Hg & Hc & _); try done.
  - apply sample_area_fits.
  - intros v Hv. unfold ms_entries. rewrite Har. by apply sample_area_fresh.
  - etrans; [|exact Hf]. vm_compute. done.
  - eexists m', _, _. split; [exact Hinv'|]. cbn [areas]. rewrite Har. cbn [app length].
    split; [done|]. split; [by apply list.Forall_cons|].
    rewrite (gw_free _ _ _ _ _ _ Hg). change (areas_cost [mapped sample_area fs]) with (area_cost sample_area + 0).
    assert (area_cost sample_area ≤ 10) by (vm_compute; done). lia.
Qed.

Lemma fork_copies_memory_witness : ∃ m src m' ms', from_existed_user sample_syms src m = Ok (ms', m') ∧
  ∀ a va, a ∈ areas src → floor va ∈ area_pages a →
    user_byte m' (user_map sample_syms ms') va = user_byte m (user_map sample_syms src) va.
Proof.
  destruct sample_space as (m & U & ms & Hinv & _ & Hty & Hf). exists m, ms.
  destruct (fork_copies_memory sample_syms m 256 U ms Hinv Hty sample_tramp Hf) as (m' & ms' & nf & H1 & _ & _ & _ & H2 & _).
  exists m', ms'. split; [done|]. intros a va Ha Hva. exact (proj1 (H2 a va Ha Hva)).
Defined.

(** C28: No frame is lost in the life of a process: what [from_existed_user]
    takes for the child, [recycle_data_pages] (when the child exits) and the drop
    of its address space (when it is reaped) give back to the last frame. *)
Theorem fork_exit_no_leak syms m lo U src :
  ms_inv m lo U [tramp_entry syms] src → Forall (λ a, map_type a = Framed) (areas src) → tramp_ok syms →
  3 + areas_cost (areas src) ≤ free_frames m lo U →
  ∃ m1 ms1 m2 ms2 m3, from_existed_user syms src m = Ok (ms1, m1) ∧
    recycle_data_pages ms1 m1 = Ok (ms2, m2) ∧ areas ms2 = [] ∧ drop_memory_set ms2 m2 = Ok ((), m3) ∧
    mem_ok m3 lo U ∧ free_frames m3 lo U = free_frames m lo U.
Proof.
  intros Hinv Hfr Htr Hf.
  destruct (from_existed_user_spec syms m lo U src Hinv Hfr Htr Hf) as (m1 & ms1 & nf & Hrun & Hinv1 & Hg & Hown & _).
  destruct (recycle_drop_spec m1 lo _ _ ms1 Hinv1) as (ms2 & m2 & m3 & Hr & Hd & Hok & Hfree).
  assert ((list_to_set nf ∪ U) ∖ list_to_set (owned ms1) = U) as HU.
  { apply set_eq. intros x. rewrite elem_of_difference, elem_of_union, !elem_of_list_to_set, Hown.
    pose proof (gw_new _ _ _ _ _ _ Hg x). destruct (decide (x ∈ nf)); tauto. }
  rewrite HU in *. exists m1, ms1, m2, ms2, m3. split_and!; try done.
  - destruct (recycle_spec m1 lo _ _ ms1 Hinv1) as (m2' & Hr' & _). rewrite Hr' in Hr. by injection Hr as <-.
  - rewrite Hfree, (gw_free _ _ _ _ _ _ Hg), Hown. lia.
Qed.

Lemma fork_exit_no_leak_witness : ∃ m src m1 ms1 m2 ms2 m3, from_existed_user sample_syms src m = Ok (ms1, m1) ∧
  recycle_data_pages ms1 m1 = Ok (ms2, m2) ∧ drop_memory_set ms2 m2 = Ok ((), m3).
Proof.
  destruct sample_space as (m & U & ms & Hinv & _ & Hty & Hf). exists m, ms.
  destruct (fork_exit_no_leak sample_syms m 256 U ms Hinv Hty sample_tramp Hf)
    as (m1 & ms1 & m2 & ms2 & m3 & H1 & H2 & _ & H3 & _).
  by exists m1, ms1, m2, ms2, m3.
Defined.

(** C20: [from_elf] lays a program out as its headers say: when the headers are
    readable and the segments, the stack above the end of the last one and the
    trap-context page do not overlap, it returns the entry point and the top of
    a two-page user stack, and every page of a segment has the segment's
    permissions and the U bit.  A byte of a segment is the byte of the file at
    the same distance from the start of the segment's first page, and zero past
    the data: the bytes are right for a segment that starts at a page border,
    and shifted by the page offset for any other. *)
Theorem elf_loaded (ElfFile_new : list Z → option ElfFile) syms input elf segs m lo U :
  ElfFile_new input = Some elf → elf_magic elf = [0x7f; 0x45; 0x4c; 0x46] →
  loadable (elf_program_headers elf) = Some segs → Forall (good_segment input) segs →
  max_end segs 0 + 3 ≤ VPN_END - 2 → mem_ok m lo U → tramp_ok syms →
  NoDup (pages_of (elf_layout input segs)) → TRAMP_VPN ∉ pages_of (elf_layout input segs) →
  3 + areas_cost (elf_layout input segs).*1 ≤ free_frames m lo U →
  ∃ m' ms nf, from_elf ElfFile_new syms input m = Ok ((ms, user_stack_top segs, elf_entry_point elf), m') ∧
    ms_inv m' lo (list_to_set nf ∪ U) [tramp_entry syms] ms ∧ owned ms ≡ₚ nf ∧ (∀ x, x ∈ nf → x ∉ U) ∧
    (∀ ph va, ph ∈ segs → floor va ∈ area_pages (seg_area ph) →
       user_byte m' (user_map syms ms) va =
         Some (default 0 (seg_data input ph !! Z.to_nat (va - 4096 * floor (ph_virtual_addr ph)))) ∧
       PTE_flags <$> user_map syms ms !! floor va = Some (Z.lor (ph_perm ph) PTE_V)) ∧
    (∀ va, user_stack_top segs - USER_STACK_SIZE ≤ va < user_stack_top segs →
       user_byte m' (user_map syms ms) va = Some 0).
Proof.
  intros H1 H2 H3 H4 H5 Hm Htr Hnd Ht Hf.
  destruct (from_elf_spec ElfFile_new syms input elf segs H1 H2 H3 H4 H5 m lo U Hm Htr Hnd Ht Hf)
    as (m' & ms & nf & Hrun & Hinv & Hg & Hown & Hfill & _).
  assert (∀ p va, p ∈ elf_layout input segs → map_type p.1 = Framed → floor va ∈ area_pages p.1 →
    user_byte m' (user_map syms ms) va =
      Some (default 0 (default [] p.2 !! Z.to_nat (va - 4096 * range_l (vpn_range p.1)))) ∧
    PTE_flags <$> user_map syms ms !! floor va = Some (Z.lor (map_perm p.1) PTE_V)) as Hview.
  { intros p va Hp Hty Hva. apply list_elem_of_lookup in Hp as [i Hi].
    destruct (Forall2_lookup_l _ _ _ _ _ Hfill Hi) as (a & Ha & Hfa). apply list_elem_of_lookup_2 in Ha.
    eapply filled_view; eauto. }
  exists m', ms, nf. split_and!; [done..|apply Hg| |].
  - intros ph va Hph Hva. apply (Hview (seg_push input ph) va); [|done..].
    apply elem_of_app. left. by apply list_elem_of_fmap_2.
  - intros va Hva. destruct (Hview (stack_area (max_end segs 0), None) va) as [Hb _]; [unfold elf_layout; elt|done| |exact Hb].
    cbn [fst]. unfold area_pages, stack_area. cbn [vpn_range range_l range_r]. apply elem_of_seqZ.
    unfold user_stack_top, USER_STACK_SIZE in Hva. destruct (addr_split va). lia.
Qed.

(** A program of one page, from a one-header file. *)
Definition sample_ph : ProgramHeader := mkPH (Some true) 0x10000 4 0 3 true false true.
Definition sample_elf : ElfFile := mkElf [0x7f; 0x45; 0x4c; 0x46] 0x10000 [Some sample_ph].

Lemma elf_loaded_witness :
  ∃ m' ms, from_elf (λ _, Some sample_elf) sample_syms [7; 8; 9] m0 = Ok ((ms, 0x14000, 0x10000), m') ∧
    user_byte m' (user_map sample_syms ms) 0x10001 = Some 8.
Proof.
  destruct (elf_loaded (λ _, Some sample_elf) sample_syms [7; 8; 9] sample_elf [sample_ph] m0 256 ∅)
    as (m' & ms & nf & H1 & _ & _ & _ & H2 & _).
  - reflexivity.
  - reflexivity.
  - reflexivity.
  - apply list.Forall_cons. split; [|done]. split; [done..|by repeat constructor].
  - vm_compute. done.
  - apply m0_ok.
  - apply sample_tramp.
  - apply (bool_decide_unpack _). vm_compute. exact I.
  - apply (bool_decide_unpack _). vm_compute. exact I.
  - rewrite m0_free. vm_compute. done.
  - exists m', ms. split; [exact H1|].
    destruct (H2 sample_ph 0x10001) as [H _]; [by apply list_elem_of_singleton|vm_compute; by constructor|]. exact H.
Defined.

(** ** The kernel's address space *)

(** C21: [new_kernel] maps every page of the kernel's sections, of the free
    physical memory and of the device registers to itself with the
    section's permissions: text is executable and not writable, read-only data
    neither, data and bss not executable.  The self-check [remap_test]
    passes on it. *)
Theorem kernel_identity_map syms MMIO m lo U :
  let secs := kernel_sections syms MMIO in
  Forall sec_ok secs → tramp_ok syms → mem_ok m lo U →
  NoDup (TRAMP_VPN :: pages_of (sec_push <$> secs)) → 3 + areas_cost (sec_area <$> secs) ≤ free_frames m lo U →
  stext syms < etext syms → srodata syms < erodata syms → sdata syms < edata syms →
  ∃ m' ms nf, new_kernel syms MMIO m = Ok (ms, m') ∧ ms_inv m' lo (list_to_set nf ∪ U) [tramp_entry syms] ms ∧
    (∀ s v, s ∈ secs → floor (sec_start s) ≤ v < ceil (sec_end s) →
       translate (page_table ms) v m' = Ok (Some (PTE_new v (Z.lor (sec_perm s) PTE_V)), m')) ∧
    remap_test syms ms m' = Ok ((), m').
Proof.
  intros secs Hok Htr Hm Hnd Hf Ht Hro Hda.
  destruct (new_kernel_spec syms MMIO Hok Htr m lo U Hm Hnd Hf) as (m' & ms & nf & Hrun & Hinv & _ & _ & Hfill & _).
  assert (∀ s v, s ∈ secs → v ∈ area_pages (sec_area s) →
    translate (page_table ms) v m' = Ok (Some (PTE_new v (Z.lor (sec_perm s) PTE_V)), m')) as Hid.
  { intros s v Hs Hv. apply (list_elem_of_fmap_2 sec_push) in Hs. apply list_elem_of_lookup in Hs as [i Hi].
    destruct (Forall2_lookup_l _ _ _ _ _ Hfill Hi) as (a & Ha & Hfa). apply list_elem_of_lookup_2 in Ha.
    eapply identity_view; eauto. }
  exists m', ms, nf. split_and!; [done..| |].
  - intros s v Hs Hv. apply Hid; [done|]. apply elem_of_seqZ. cbn. lia.
  - eapply remap_test_passes; eauto.
Qed.

Lemma kernel_identity_map_witness :
  ∃ m' ms, new_kernel sample_syms [(0x10001000, 0x1000)] m0 = Ok (ms, m') ∧ remap_test sample_syms ms m' = Ok ((), m').
Proof.
  destruct (kernel_identity_map sample_syms [(0x10001000, 0x1000)] m0 256 ∅) as (m' & ms & nf & H1 & _ & _ & H2).
  - by repeat constructor.
  - apply sample_tramp.
  - apply m0_ok.
  - apply (bool_decide_unpack _). vm_compute. exact I.
  - rewrite m0_free. vm_compute. done.
  - done.
  - done.
  - done.
  - exists m', ms. split; [exact H1|exact H2].
Defined.
