(* ===== verification/Pid.v ===== *)
(** * Pid: process identifiers and kernel stacks (os/src/task/pid.rs)

    The allocator hands out the last identifier given back, or a new one; the
    kernel stack of a process lies at an address computed from its
    identifier. *)

From stdpp Require Import base gmap list numbers.
From S2P Require Import Prelude Address.

(** [recycled] has its top, the end of the vector, first. *)
Record PidAllocator : Type := mkPids {
  pa_current : Z;
  pa_recycled : list Z;
}.

Definition PidAllocator_new : PidAllocator := mkPids 0 [].

Definition pa_alloc (a : PidAllocator) : Z * PidAllocator :=
  match pa_recycled a with
  | pid :: r => (pid, mkPids (pa_current a) r)
  | [] => let current := pa_current a +u 1 in (current -u 1, mkPids current [])
  end.

Definition pa_dealloc (pid : Z) (a : PidAllocator) : res PidAllocator :=
  assert_res (pid <? pa_current a) ≫= λ _,
  assert_res (negb (bool_decide (pid ∈ pa_recycled a))) ≫= λ _,
  Ok (mkPids (pa_current a) (pid :: pa_recycled a)).

(** (bottom, top) of a kernel stack. *)
Definition kernel_stack_position (app_id : Z) : Z * Z :=
  let top := TRAMPOLINE -u (app_id *u (KERNEL_STACK_SIZE +u PAGE_SIZE)) in
  let bottom := top -u KERNEL_STACK_SIZE in
  (bottom, top).

(** [KernelStack::get_top]. *)
Definition get_top (pid : Z) : Z := snd (kernel_stack_position pid).

(** ** The allocator's invariant

    [U] are the identifiers in use. *)
Record pa_inv (a : PidAllocator) (U : gset Z) : Prop := {
  pa_range : 0 ≤ pa_current a < 2 ^ 64 - 1;
  pa_nodup : NoDup (pa_recycled a);
  pa_rec x : x ∈ pa_recycled a → 0 ≤ x < pa_current a;
  pa_used x : x ∈ U ↔ 0 ≤ x < pa_current a ∧ x ∉ pa_recycled a;
}.

Lemma PidAllocator_new_inv : pa_inv PidAllocator_new ∅.
Proof.
  split; cbn; [done|constructor|by intros x ?%elem_of_nil|]. intros x. rewrite elem_of_empty. lia.
Qed.

(** [alloc] gives an identifier that nobody has. *)
Lemma pa_alloc_spec a U :
  pa_inv a U → pa_current a + 1 < 2 ^ 64 - 1 →
  let '(pid, a') := pa_alloc a in pid ∉ U ∧ 0 ≤ pid ∧ pa_inv a' ({[pid]} ∪ U).
Proof.
  change (2 ^ 64) with 18446744073709551616.
  intros [Hr Hnd Hrec Hu] Hc. change (2 ^ 64) with 18446744073709551616 in Hr. unfold pa_alloc.
  destruct (pa_recycled a) as [|p rest] eqn:Heq.
  - assert (pa_current a +u 1 = pa_current a + 1) as -> by (apply uadd_small; mach_unfold; lia).
    assert (pa_current a + 1 -u 1 = pa_current a) as -> by mach.
    split_and!; [rewrite Hu; lia|lia|]. split; cbn; [lia|constructor|by intros x ?%elem_of_nil|].
    intros x. rewrite elem_of_union, elem_of_singleton, Hu. split.
    + intros [->|[? _]]; (split; [lia|apply not_elem_of_nil]).
    + intros [Hx _]. destruct (decide (x = pa_current a)); [by left|right]. split; [lia|apply not_elem_of_nil].
  - apply list.NoDup_cons in Hnd as [Hp Hnd]. pose proof (Hrec p ltac:(elt)) as Hpr.
    split_and!; [rewrite Hu; intros [_ H]; apply H; elt|lia|]. split; cbn; [lia|done| |].
    + intros x Hx. apply Hrec. elt.
    + intros x. rewrite elem_of_union, elem_of_singleton, Hu, not_elem_of_cons. split.
      * intros [->|(? & _ & ?)]; done.
      * intros [Hx Hn]. destruct (decide (x = p)); [by left|by right].
Qed.

(** [dealloc] takes back an identifier in use, and panics on any other. *)
Lemma pa_dealloc_spec a U pid :
  pa_inv a U → 0 ≤ pid →
  if decide (pid ∈ U) then ∃ a', pa_dealloc pid a = Ok a' ∧ pa_inv a' (U ∖ {[pid]}) ∧ pa_alloc a' = (pid, a)
  else pa_dealloc pid a = Stop Panicked.
Proof.
  intros [Hr Hnd Hrec Hu] Hp. unfold pa_dealloc. case_decide as Hin.
  - apply Hu in Hin as [Hlt Hn]. rewrite (proj2 (Z.ltb_lt _ _)) by lia. rewrite bool_decide_false by done.
    exists (mkPids (pa_current a) (pid :: pa_recycled a)). cbn. split_and!; [done| |by destruct a].
    split; cbn; [done|by apply list.NoDup_cons| |].
    + intros x [->|Hx]%elem_of_cons; [lia|by apply Hrec].
    + intros x. rewrite elem_of_difference, elem_of_singleton, Hu, not_elem_of_cons. tauto.
  - destruct (Z.ltb_spec pid (pa_current a)) as [Hlt|]; [|done]. cbn.
    rewrite bool_decide_true; [done|]. destruct (decide (pid ∈ pa_recycled a)); [done|]. destruct Hin. by apply Hu.
Qed.

(** ** Kernel stacks

    Process identifiers whose stacks lie in the upper half of the address
    space. *)
Definition MAX_PID : Z := 2 ^ 24.

Lemma kernel_stack_position_eq pid :
  0 ≤ pid < MAX_PID →
  kernel_stack_position pid = (2 ^ 64 - 4096 - 12288 * pid - 8192, 2 ^ 64 - 4096 - 12288 * pid).
Proof.
  unfold MAX_PID. change (2 ^ 24) with 16777216. change (2 ^ 64) with 18446744073709551616. intros Hp.
  unfold kernel_stack_position. change TRAMPOLINE with 18446744073709547520.
  change (KERNEL_STACK_SIZE +u PAGE_SIZE) with 12288. change KERNEL_STACK_SIZE with 8192.
  rewrite (umul_small pid 12288) by (mach_unfold; lia).
  rewrite (usub_small 18446744073709547520), (usub_small (_ - _)) by (mach_unfold; lia). f_equal; lia.
Qed.

(** The pages of the stack of [pid]: two, below a guard page that belongs to
    no stack. *)
Definition stack_vpn (pid : Z) : Z := 2 ^ 27 - 3 * pid - 3.

Lemma VirtAddr_from_high a : 2 ^ 64 - 2 ^ 39 ≤ a < 2 ^ 64 → VirtAddr_from a = a - (2 ^ 64 - 2 ^ 39).
Proof.
  intros Ha. unfold VirtAddr_from. change VA_WIDTH_SV39 with 39. rewrite land_ones_mod by done.
  rewrite <- (Z.mod_add a (-(2 ^ 25 - 1)) (2 ^ 39)) by done.
  change (-(2 ^ 25 - 1) * 2 ^ 39) with (-(2 ^ 64 - 2 ^ 39)). rewrite Z.mod_small by lia. lia.
Qed.

Lemma stack_pages pid : 0 ≤ pid < MAX_PID →
  floor (VirtAddr_from (fst (kernel_stack_position pid))) = stack_vpn pid ∧
  ceil (VirtAddr_from (snd (kernel_stack_position pid))) = stack_vpn pid + 2 ∧
  page_offset (VirtAddr_from (fst (kernel_stack_position pid))) = 0.
Proof.
  intros Hp. rewrite kernel_stack_position_eq by done. unfold MAX_PID in Hp. change (2 ^ 24) with 16777216 in Hp. cbn [fst snd].
  rewrite !VirtAddr_from_high by lia. unfold stack_vpn. change (2 ^ 27) with 134217728.
  set (b := 2 ^ 64 - 4096 - 12288 * pid - 8192 - (2 ^ 64 - 2 ^ 39)).
  set (t := 2 ^ 64 - 4096 - 12288 * pid - (2 ^ 64 - 2 ^ 39)).
  assert (b = 4096 * (134217728 - 3 * pid - 3)) as Hb by (subst b; lia).
  assert (t = 4096 * (134217728 - 3 * pid - 1)) as Ht by (subst t; lia).
  pose proof (addr_split b) as [H1 H2]. pose proof (ceil_bounds t ltac:(lia)) as Hc. lia.
Qed.
