(* ===== verification/KState.v ===== *)
(** * KState: the kernel's state (os/src/task, os/src/trap/context.rs, os/src/fs)

    Task control blocks, trap contexts, open files, and the state all kernel
    code works on.  An [Arc<TaskControlBlock>] is the key of its block in
    [tasks]; an [Arc<OSInode>] is the key of the open file in [osinodes], so
    that processes which share an open file share its offset.

    What the kernel reads from outside is part of the state: the console input
    to come, the clock, the status register. *)

From stdpp Require Import base gmap list numbers.
From S2P Require Import Prelude Bytes Address FrameAllocator PageTable MemorySet Pid.
From S2P Require Import BlockIO Efs Vfs.

(** ** Trap contexts (trap/context.rs)

    [repr(C)]: 37 words of 8 bytes. *)
Record TrapContext : Type := mkCx {
  cx_x : list Z;
  cx_sstatus : Z;
  cx_sepc : Z;
  cx_kernel_satp : Z;
  cx_kernel_sp : Z;
  cx_trap_handler : Z;
}.

Definition cx_words (cx : TrapContext) : list Z :=
  cx_x cx ++ [cx_sstatus cx; cx_sepc cx; cx_kernel_satp cx; cx_kernel_sp cx; cx_trap_handler cx].

Definition set_sp (sp : Z) (cx : TrapContext) : TrapContext :=
  mkCx (<[2%nat := sp]> (cx_x cx)) (cx_sstatus cx) (cx_sepc cx) (cx_kernel_satp cx) (cx_kernel_sp cx)
    (cx_trap_handler cx).

(** [sstatus.set_spp(SPP::User)] clears bit 8; [sstatus] is what
    [sstatus::read] returned. *)
Definition app_init_context (sstatus entry sp kernel_satp kernel_sp trap_handler : Z) : TrapContext :=
  let sstatus := Z.ldiff sstatus (2 ^ 8) in
  let cx := mkCx (replicate 32 0) sstatus entry kernel_satp kernel_sp trap_handler in
  set_sp sp cx.

(** The words of a trap context, by their place in the structure. *)
Definition CX_A0 : Z := 10.
Definition CX_A1 : Z := 11.
Definition CX_A2 : Z := 12.
Definition CX_A7 : Z := 17.
Definition CX_SEPC : Z := 33.
Definition CX_KERNEL_SP : Z := 35.

(** [get_trap_cx] is a reference to the start of the frame; one word of it is
    read or written, or all of it.  [PhysAddr::get_mut] also refuses the null
    pointer; frame 0 is not in the range of the allocator, so no context is in it,
    and it is not treated apart here. *)
Definition read_cx (ppn i : Z) : M mem Z :=
  get_bytes_array ppn ≫= λ b, mret (arr_get 8 b i).
Definition write_cx (ppn i v : Z) : M mem () :=
  get_bytes_array ppn ≫= λ b, put_bytes_array ppn (arr_set 8 b i v).
Definition store_cx (ppn : Z) (cx : TrapContext) : M mem () :=
  get_bytes_array ppn ≫= λ b,
  put_bytes_array ppn (splice 0 (concat (le_bytes 8 <$> cx_words cx)) b).

(** ** Task contexts (task/context.rs) *)
Record TaskContext : Type := mkTaskCx { cx_ra : Z; cx_sp : Z; cx_s : list Z }.

Definition zero_init : TaskContext := mkTaskCx 0 0 (replicate 12 0).
Definition goto_trap_return (trap_return kstack_ptr : Z) : TaskContext :=
  mkTaskCx trap_return kstack_ptr (replicate 12 0).

(** Where a suspended task goes on when [__switch] returns to it: at the end
    of [trap_handler] (a timer interrupt), after a system call that has
    [result] to return, or inside the loop of [Stdin::read]. *)
Inductive kont : Type :=
| KTrapEnd
| KResult (result : Z)
| KStdin (user_buf : list slice_ref).

(** The context a task control block holds: the one it was made with, or the
    one [__switch] saved, whose registers and kernel stack are a [kont]. *)
Inductive saved_cx : Type :=
| Fresh (cx : TaskContext)
| Switched (k : kont).

(** ** Files (fs/mod.rs, fs/stdio.rs, fs/inode.rs) *)
Inductive file : Type :=
| Stdin
| Stdout
| OsFile (id : Z).

Record OSInode : Type := mkOSInode {
  os_readable : bool;
  os_writable : bool;
  os_offset : Z;
  os_inode : Inode;
}.

(** ** Task control blocks (task/task.rs) *)
Inductive TaskStatus : Type :=
| Ready
| Running
| Zombie.

#[export] Instance TaskStatus_eq_dec : EqDecision TaskStatus.
Proof. solve_decision. Defined.

Record TCB : Type := mkTCB {
  tcb_pid : Z;
  trap_cx_ppn : Z;
  base_size : Z;
  task_cx : saved_cx;
  task_status : TaskStatus;
  memory_set : MemorySet;
  parent : option Z;
  children : list Z;
  exit_code : Z;
  fd_table : list (option file);
}.

Definition set_status (st : TaskStatus) (t : TCB) : TCB :=
  mkTCB (tcb_pid t) (trap_cx_ppn t) (base_size t) (task_cx t) st (memory_set t) (parent t) (children t)
    (exit_code t) (fd_table t).
Definition set_task_cx (c : saved_cx) (t : TCB) : TCB :=
  mkTCB (tcb_pid t) (trap_cx_ppn t) (base_size t) c (task_status t) (memory_set t) (parent t) (children t)
    (exit_code t) (fd_table t).
Definition set_memory_set (ms : MemorySet) (t : TCB) : TCB :=
  mkTCB (tcb_pid t) (trap_cx_ppn t) (base_size t) (task_cx t) (task_status t) ms (parent t) (children t)
    (exit_code t) (fd_table t).
Definition set_trap_cx_ppn (ppn : Z) (t : TCB) : TCB :=
  mkTCB (tcb_pid t) ppn (base_size t) (task_cx t) (task_status t) (memory_set t) (parent t) (children t)
    (exit_code t) (fd_table t).
Definition set_parent (p : option Z) (t : TCB) : TCB :=
  mkTCB (tcb_pid t) (trap_cx_ppn t) (base_size t) (task_cx t) (task_status t) (memory_set t) p (children t)
    (exit_code t) (fd_table t).
Definition set_children (l : list Z) (t : TCB) : TCB :=
  mkTCB (tcb_pid t) (trap_cx_ppn t) (base_size t) (task_cx t) (task_status t) (memory_set t) (parent t) l
    (exit_code t) (fd_table t).
Definition set_exit_code (c : Z) (t : TCB) : TCB :=
  mkTCB (tcb_pid t) (trap_cx_ppn t) (base_size t) (task_cx t) (task_status t) (memory_set t) (parent t)
    (children t) c (fd_table t).
Definition set_fd_table (l : list (option file)) (t : TCB) : TCB :=
  mkTCB (tcb_pid t) (trap_cx_ppn t) (base_size t) (task_cx t) (task_status t) (memory_set t) (parent t)
    (children t) (exit_code t) l.

Definition is_zombie (t : TCB) : bool := bool_decide (task_status t = Zombie).
Definition get_user_token (t : TCB) : Z := ms_token (memory_set t).

(** ** The state *)

(** [PID_ALLOCATOR], the task control blocks, [TASK_MANAGER], [PROCESSOR] and
    [INITPROC].  [borrowed] are the blocks whose inner part is borrowed. *)
Record procs : Type := mkProcs {
  pids : PidAllocator;
  tasks : gmap Z TCB;
  next_task : Z;
  ready_queue : list Z;
  current : option Z;
  initproc : option Z;
  borrowed : list Z;
}.

(** The disk behind the block cache, [ROOT_INODE] and the open files. *)
Record osfs : Type := mkOsfs {
  disk : gmap Z (list Z);
  root : Inode;
  osinodes : gmap Z OSInode;
  next_file : Z;
}.

(** What lies outside: console input to come, console output so far, the
    clock, the next timer interrupt, the status register. *)
Record machine : Type := mkMach {
  console_in : list Z;
  console_out : list Z;
  clock : Z;
  timer : Z;
  sstatus : Z;
}.

Record kernel : Type := mkK {
  k_mem : mem;
  kernel_space : MemorySet;
  k_procs : procs;
  k_fs : osfs;
  k_mach : machine;
}.

Notation K := (M kernel).

Definition set_mem (m : mem) (k : kernel) : kernel :=
  mkK m (kernel_space k) (k_procs k) (k_fs k) (k_mach k).
Definition set_kernel_space (ms : MemorySet) (k : kernel) : kernel :=
  mkK (k_mem k) ms (k_procs k) (k_fs k) (k_mach k).
Definition set_procs (p : procs) (k : kernel) : kernel :=
  mkK (k_mem k) (kernel_space k) p (k_fs k) (k_mach k).
Definition set_fs (f : osfs) (k : kernel) : kernel :=
  mkK (k_mem k) (kernel_space k) (k_procs k) f (k_mach k).
Definition set_mach (x : machine) (k : kernel) : kernel :=
  mkK (k_mem k) (kernel_space k) (k_procs k) (k_fs k) x.

(** Memory code and process code, run on their part of the state. *)
Definition in_mem {A} (f : M mem A) : K A := λ k,
  match f (k_mem k) with
  | Ok (a, m) => Ok (a, set_mem m k)
  | Stop e => Stop e
  end.
Definition in_procs {A} (f : M procs A) : K A := λ k,
  match f (k_procs k) with
  | Ok (a, p) => Ok (a, set_procs p k)
  | Stop e => Stop e
  end.

(** A call into easy-fs: it runs on the disk with no block locked. *)
Definition in_fs {A} (p : prog A) : K A := λ k,
  match run p [] (disk (k_fs k)) with
  | Ok (a, _, d) =>
      Ok (a, set_fs (mkOsfs d (root (k_fs k)) (osinodes (k_fs k)) (next_file (k_fs k))) k)
  | Stop e => Stop e
  end.
