(* ===== verification/Task.v ===== *)
(** * Task: processes and scheduling (os/src/task)

    Task control blocks are made, copied, replaced and freed; the task manager
    is a queue; the processor has a current task.  A control flow that calls
    [schedule] leaves the processor without a current task; [run_tasks] takes
    the next one from the queue. *)

From stdpp Require Import base gmap list numbers.
From S2P Require Import Prelude Bytes Address FrameAllocator PageTable MemorySet Pid KState.

(** ** Access to task control blocks *)
Definition set_tasks (f : gmap Z TCB → gmap Z TCB) (p : procs) : procs :=
  mkProcs (pids p) (f (tasks p)) (next_task p) (ready_queue p) (current p) (initproc p) (borrowed p).
Definition set_ready (l : list Z) (p : procs) : procs :=
  mkProcs (pids p) (tasks p) (next_task p) l (current p) (initproc p) (borrowed p).
Definition set_current (o : option Z) (p : procs) : procs :=
  mkProcs (pids p) (tasks p) (next_task p) (ready_queue p) o (initproc p) (borrowed p).
Definition set_pids (a : PidAllocator) (p : procs) : procs :=
  mkProcs a (tasks p) (next_task p) (ready_queue p) (current p) (initproc p) (borrowed p).
Definition set_borrowed (l : list Z) (p : procs) : procs :=
  mkProcs (pids p) (tasks p) (next_task p) (ready_queue p) (current p) (initproc p) l.

(** The block behind an [Arc]. *)
Definition get_tcb (i : Z) : M procs TCB := λ p,
  match tasks p !! i with Some t => Ok (t, p) | None => Stop Undefined end.
Definition put_tcb (i : Z) (t : TCB) : M procs () := modify_st (set_tasks <[i := t]>).

(** [UPSafeCell::exclusive_access] on the inner part: [borrow_mut] panics when
    it is borrowed already.  [borrow] keeps it until [release]; [access] and
    [update] give it back at once. *)
Definition access (i : Z) : M procs TCB :=
  gets borrowed ≫= λ b, assertM (bool_decide (i ∉ b)) ≫= λ _, get_tcb i.
Definition borrow (i : Z) : M procs TCB :=
  access i ≫= λ t, modify_st (λ p, set_borrowed (i :: borrowed p) p) ≫= λ _, mret t.
Definition release (i : Z) : M procs () :=
  modify_st (λ p, set_borrowed (filter (λ j, j ≠ i) (borrowed p)) p).
Definition update (i : Z) (f : TCB → TCB) : M procs () :=
  access i ≫= λ t, put_tcb i (f t).
(** Through a borrow that is held. *)
Definition modify_tcb (i : Z) (f : TCB → TCB) : M procs () :=
  get_tcb i ≫= λ t, put_tcb i (f t).

(** [Arc::new]. *)
Definition arc_new (t : TCB) : M procs Z := λ p,
  Ok (next_task p, mkProcs (pids p) (<[next_task p := t]> (tasks p)) (next_task p + 1) (ready_queue p)
                     (current p) (initproc p) (borrowed p)).

Definition refs_in (i : Z) (l : list Z) : nat := length (filter (λ j, j = i) l).
Definition opt_refs (i : Z) (o : option Z) : nat := if decide (o = Some i) then 1 else 0.

(** [Arc::strong_count]: the references to block [i] in the children vectors,
    the ready queue, the processor, [INITPROC] and the local variables
    [locals].  The clones on the kernel stacks of suspended processes are not
    counted: a process that waits in [sys_read] holds none but those of its own
    block, which the ready queue holds as well, and a zombie, the only block whose
    count is asserted or reaches zero, is in no queue and is never resumed. *)
Definition strong_count (p : procs) (locals : list Z) (i : Z) : nat :=
  refs_in i (concat ((λ it, children it.2) <$> map_to_list (tasks p))) + refs_in i (ready_queue p)
  + opt_refs i (current p) + opt_refs i (initproc p) + refs_in i locals.

(** ** [TASK_MANAGER] and [PROCESSOR] (manager.rs, processor.rs) *)
Definition add_task (i : Z) : M procs () := modify_st (λ p, set_ready (ready_queue p ++ [i]) p).
Definition fetch_task : M procs (option Z) := λ p,
  match ready_queue p with
  | [] => Ok (None, p)
  | i :: q => Ok (Some i, set_ready q p)
  end.
Definition take_current_task : M procs (option Z) := λ p, Ok (current p, set_current None p).
Definition current_task : M procs (option Z) := gets current.

Definition current_user_token : M procs Z :=
  current_task ≫= λ o, unwrap o ≫= λ i, access i ≫= λ t, mret (get_user_token t).
(** The frame of the trap context. *)
Definition current_trap_cx : M procs Z :=
  current_task ≫= λ o, unwrap o ≫= λ i, access i ≫= λ t, mret (trap_cx_ppn t).

Definition pid_alloc : M procs Z := λ p,
  let '(pid, a) := pa_alloc (pids p) in Ok (pid, set_pids a p).
Definition pid_dealloc (pid : Z) : M procs () := λ p,
  match pa_dealloc pid (pids p) with
  | Ok a => Ok ((), set_pids a p)
  | Stop e => Stop e
  end.

(** ** Kernel stacks (pid.rs) *)

(** A change of [KERNEL_SPACE]. *)
Definition in_kernel_space (f : MemorySet → M mem MemorySet) : K () := λ k,
  match f (kernel_space k) (k_mem k) with
  | Ok (ms, m) => Ok ((), set_kernel_space ms (set_mem m k))
  | Stop e => Stop e
  end.

Definition KernelStack_new (pid : Z) : K () :=
  let '(kernel_stack_bottom, kernel_stack_top) := kernel_stack_position pid in
  in_kernel_space (λ ms, insert_framed_area ms (VirtAddr_from kernel_stack_bottom)
    (VirtAddr_from kernel_stack_top) (Z.lor MapPermission_R MapPermission_W)).
Definition KernelStack_drop (pid : Z) : K () :=
  let '(kernel_stack_bottom, _) := kernel_stack_position pid in
  lift_res (page_num_of_addr (VirtAddr_from kernel_stack_bottom)) ≫= λ vpn,
  in_kernel_space (λ ms, remove_area_with_start_vpn ms vpn).

(** ** Dropping task control blocks

    The last reference frees the block: its identifier, its kernel stack, its
    address space and its references to its children, in this order.  The
    number of blocks bounds the depth. *)
Fixpoint drop_arc (fuel : nat) (i : Z) : K () := λ k,
  if decide (strong_count (k_procs k) [] i = 0%nat) then
    match fuel with
    | O => Stop OutOfFuel
    | S fuel =>
        (in_procs (get_tcb i) ≫= λ t,
         in_procs (modify_st (set_tasks (delete i))) ≫= λ _,
         in_procs (pid_dealloc (tcb_pid t)) ≫= λ _,
         KernelStack_drop (tcb_pid t) ≫= λ _,
         in_mem (drop_memory_set (memory_set t)) ≫= λ _,
         for_each (children t) (drop_arc fuel)) k
    end
  else Ok ((), k).
Definition drop_task (i : Z) : K () := λ k, drop_arc (S (size (tasks (k_procs k)))) i k.

(** ** Task control blocks (task.rs) *)
Definition alloc_fd (t : TCB) : Z * TCB :=
  match list_find (λ o, o = None) (fd_table t) with
  | Some (fd, _) => (Z.of_nat fd, t)
  | None => (Z.of_nat (length (fd_table t)), set_fd_table (fd_table t ++ [None]) t)
  end.

(** [memory_set.translate(VirtAddr::from(TRAP_CONTEXT).into()).unwrap().ppn()]. *)
Definition find_trap_cx (ms : MemorySet) : M mem Z :=
  lift_res (page_num_of_addr (VirtAddr_from TRAP_CONTEXT)) ≫= λ vpn,
  ms_translate ms vpn ≫= λ o, unwrap o ≫= λ pte,
  mret (PTE_ppn pte).

Section task.
(** The crate xmas_elf, the linker's symbols, and the addresses of two kernel
    functions. *)
Context (ElfFile_new : list Z → option ElfFile) (syms : kernel_symbols) (trap_handler trap_return : Z).

Definition TaskControlBlock_new (elf_data : list Z) : K TCB :=
  in_mem (from_elf ElfFile_new syms elf_data) ≫= λ '(ms, user_sp, entry_point),
  in_mem (find_trap_cx ms) ≫= λ ppn,
  in_procs pid_alloc ≫= λ pid,
  KernelStack_new pid ≫= λ _,
  let kernel_stack_top := get_top pid in
  let t := mkTCB pid ppn user_sp (Fresh (goto_trap_return trap_return kernel_stack_top)) Ready ms None [] 0
             [Some Stdin; Some Stdout; Some Stdout] in
  gets (λ k, sstatus (k_mach k)) ≫= λ st,
  gets (λ k, ms_token (kernel_space k)) ≫= λ satp,
  in_mem (store_cx ppn (app_init_context st entry_point user_sp satp kernel_stack_top trap_handler)) ≫= λ _,
  mret t.

(** [fork]: the child. *)
Definition fork (self : Z) : K Z :=
  in_procs (borrow self) ≫= λ parent_inner,
  in_mem (from_existed_user syms (memory_set parent_inner)) ≫= λ ms,
  in_mem (find_trap_cx ms) ≫= λ ppn,
  in_procs pid_alloc ≫= λ pid,
  KernelStack_new pid ≫= λ _,
  let kernel_stack_top := get_top pid in
  let new_fd_table := fd_table parent_inner in
  in_procs (arc_new (mkTCB pid ppn (base_size parent_inner)
    (Fresh (goto_trap_return trap_return kernel_stack_top)) Ready ms (Some self) [] 0 new_fd_table)) ≫= λ child,
  in_procs (modify_tcb self (λ t, set_children (children t ++ [child]) t)) ≫= λ _,
  in_procs (access child) ≫= λ t,
  in_mem (write_cx (trap_cx_ppn t) CX_KERNEL_SP kernel_stack_top) ≫= λ _,
  in_procs (release self) ≫= λ _,
  mret child.

(** [exec]: the old address space is dropped when the new one is stored. *)
Definition exec (self : Z) (elf_data : list Z) : K () :=
  in_mem (from_elf ElfFile_new syms elf_data) ≫= λ '(ms, user_sp, entry_point),
  in_mem (find_trap_cx ms) ≫= λ ppn,
  in_procs (borrow self) ≫= λ inner,
  in_mem (drop_memory_set (memory_set inner)) ≫= λ _,
  in_procs (modify_tcb self (set_memory_set ms)) ≫= λ _,
  in_procs (modify_tcb self (set_trap_cx_ppn ppn)) ≫= λ _,
  gets (λ k, sstatus (k_mach k)) ≫= λ st,
  gets (λ k, ms_token (kernel_space k)) ≫= λ satp,
  in_mem (store_cx ppn (app_init_context st entry_point user_sp satp (get_top (tcb_pid inner)) trap_handler)) ≫= λ _,
  in_procs (release self).
End task.

(** ** Leaving the processor (task/mod.rs) *)

(** [suspend_current_and_run_next] up to the switch to the idle flow; [k] is
    where the task goes on. *)
Definition suspend_current_and_run_next (k : kont) : M procs () :=
  take_current_task ≫= λ o, unwrap o ≫= λ task,
  update task (set_status Ready) ≫= λ _,
  add_task task ≫= λ _,
  modify_tcb task (set_task_cx (Switched k)).

(** The loop of [exit_current_and_run_next] over the children. *)
Definition reparent (init : Z) (child : Z) : M procs () :=
  update child (set_parent (Some init)) ≫= λ _,
  modify_tcb init (λ t, set_children (children t ++ [child]) t).

Definition exit_current_and_run_next (exit_code : Z) : K () :=
  in_procs take_current_task ≫= λ o, unwrap o ≫= λ task,
  in_procs (borrow task) ≫= λ inner,
  in_procs (modify_tcb task (set_status Zombie)) ≫= λ _,
  in_procs (modify_tcb task (set_exit_code exit_code)) ≫= λ _,
  in_procs (gets initproc) ≫= λ oi, unwrap oi ≫= λ init,
  in_procs (borrow init) ≫= λ _,
  in_procs (for_each (children inner) (reparent init)) ≫= λ _,
  in_procs (release init) ≫= λ _,
  in_procs (modify_tcb task (set_children [])) ≫= λ _,
  in_mem (recycle_data_pages (memory_set inner)) ≫= λ ms,
  in_procs (modify_tcb task (set_memory_set ms)) ≫= λ _,
  in_procs (release task) ≫= λ _,
  drop_task task.

(** One turn of [run_tasks] up to the switch: the task that runs next. *)
Definition run_tasks_fetch : M procs (option Z) :=
  fetch_task ≫= λ o,
  match o with
  | Some task =>
      update task (set_status Running) ≫= λ _,
      modify_st (set_current (Some task)) ≫= λ _,
      mret (Some task)
  | None => mret None
  end.
