(* ===== verification/OsFile.v ===== *)
(** * OsFile: open files (os/src/fs)

    The standard streams, and [OSInode]: an inode of easy-fs with an offset.
    A [UserBuffer] is a list of slices of physical memory. *)

From stdpp Require Import base gmap list numbers.
From S2P Require Import Prelude Bytes Address FrameAllocator PageTable MemorySet KState Task.
From S2P Require Import BlockIO Layout Efs Vfs.

(** ** Slices of physical memory *)
Fixpoint load_bytes (pa : Z) (n : nat) : M mem (list Z) :=
  match n with
  | O => mret []
  | S n => load_byte pa ≫= λ v, load_bytes (pa + 1) n ≫= λ l, mret (v :: l)
  end.
Fixpoint store_bytes (pa : Z) (l : list Z) : M mem () :=
  match l with
  | [] => mret ()
  | v :: l => store_byte pa v ≫= λ _, store_bytes (pa + 1) l
  end.

Definition load_slice (s : slice_ref) : M mem (list Z) := load_bytes (slice_pa s) (Z.to_nat (slice_len s)).
Definition store_slice (s : slice_ref) (l : list Z) : M mem () := store_bytes (slice_pa s) l.

(** ** [OSInode] (inode.rs) *)
Definition set_osinodes (f : gmap Z OSInode → gmap Z OSInode) (o : osfs) : osfs :=
  mkOsfs (disk o) (root o) (f (osinodes o)) (next_file o).

Definition get_osinode (id : Z) : K OSInode := λ k,
  match osinodes (k_fs k) !! id with Some f => Ok (f, k) | None => Stop Undefined end.
Definition put_osinode (id : Z) (f : OSInode) : K () :=
  modify_st (λ k, set_fs (set_osinodes <[id := f]> (k_fs k)) k).
Definition set_offset (off : Z) (f : OSInode) : OSInode :=
  mkOSInode (os_readable f) (os_writable f) off (os_inode f).

(** [OSInode::new] in an [Arc]. *)
Definition OSInode_new (readable writable : bool) (inode : Inode) : K Z := λ k,
  let o := k_fs k in
  Ok (next_file o,
      set_fs (mkOsfs (disk o) (root o) (<[next_file o := mkOSInode readable writable 0 inode]> (osinodes o))
                (next_file o + 1)) k).

(** The loop of [read_all], in pieces of 512 bytes; [fuel] bounds the number
    of pieces. *)
Fixpoint read_all_loop (fuel : nat) (id : Z) (v : list Z) : K (list Z) :=
  match fuel with
  | O => halt OutOfFuel
  | S fuel =>
      get_osinode id ≫= λ f,
      in_fs (Inode_read_at (os_inode f) (os_offset f) (replicate 512 0)) ≫= λ '(len, buffer),
      if len =? 0 then mret v
      else
        put_osinode id (set_offset (os_offset f +u len) f) ≫= λ _,
        read_all_loop fuel id (v ++ take (Z.to_nat len) buffer)
  end.
(** A file is shorter than 2^32 bytes, and every turn but the last reads at
    least one byte. *)
Definition read_all (fuel : nat) (id : Z) : K (list Z) := read_all_loop fuel id [].

Definition OpenFlags_WRONLY : Z := 1.
Definition OpenFlags_RDWR : Z := 2.
Definition OpenFlags_CREATE : Z := 512.
Definition OpenFlags_TRUNC : Z := 1024.
Definition OpenFlags_ALL : Z := 1 + 2 + 512 + 1024.

(** [OpenFlags::from_bits]: [None] when an undefined bit is set. *)
Definition OpenFlags_from_bits (flags : Z) : option Z :=
  if Z.ldiff flags OpenFlags_ALL =? 0 then Some flags else None.
Definition contains (flags f : Z) : bool := Z.land flags f =? f.
Definition read_write (flags : Z) : bool * bool :=
  if flags =? 0 then (true, false)
  else if contains flags OpenFlags_WRONLY then (false, true)
  else (true, true).

Definition open_file (name : list Z) (flags : Z) : K (option Z) :=
  let '(readable, writable) := read_write flags in
  gets (λ k, root (k_fs k)) ≫= λ ROOT_INODE,
  if contains flags OpenFlags_CREATE then
    in_fs (find ROOT_INODE name) ≫= λ o,
    match o with
    | Some inode =>
        in_fs (clear inode) ≫= λ _,
        OSInode_new readable writable inode ≫= λ f, mret (Some f)
    | None =>
        in_fs (create ROOT_INODE name) ≫= λ o,
        match o with
        | Some inode => OSInode_new readable writable inode ≫= λ f, mret (Some f)
        | None => mret None
        end
    end
  else
    in_fs (find ROOT_INODE name) ≫= λ o,
    match o with
    | Some inode =>
        (if contains flags OpenFlags_TRUNC then in_fs (clear inode) else mret ()) ≫= λ _,
        OSInode_new readable writable inode ≫= λ f, mret (Some f)
    | None => mret None
    end.

(** [File::read] for [OSInode]: the loop over the slices. *)
Fixpoint os_read_loop (id : Z) (bufs : list slice_ref) (total : Z) : K Z :=
  match bufs with
  | [] => mret total
  | s :: bufs =>
      get_osinode id ≫= λ f,
      in_mem (load_slice s) ≫= λ b,
      in_fs (Inode_read_at (os_inode f) (os_offset f) b) ≫= λ '(read_size, b),
      in_mem (store_slice s b) ≫= λ _,
      if read_size =? 0 then mret total
      else
        put_osinode id (set_offset (os_offset f +u read_size) f) ≫= λ _,
        os_read_loop id bufs (total +u read_size)
  end.
Definition os_read (id : Z) (buf : list slice_ref) : K Z := os_read_loop id buf 0.

(** [File::write] for [OSInode]. *)
Fixpoint os_write_loop (id : Z) (bufs : list slice_ref) (total : Z) : K Z :=
  match bufs with
  | [] => mret total
  | s :: bufs =>
      get_osinode id ≫= λ f,
      in_mem (load_slice s) ≫= λ b,
      in_fs (Inode_write_at (os_inode f) (os_offset f) b) ≫= λ write_size,
      assertM (write_size =? slice_len s) ≫= λ _,
      put_osinode id (set_offset (os_offset f +u write_size) f) ≫= λ _,
      os_write_loop id bufs (total +u write_size)
  end.
Definition os_write (id : Z) (buf : list slice_ref) : K Z := os_write_loop id buf 0.

(** [list_apps]: the names of the files in the root directory. *)
Definition list_apps : K (list (list Z)) :=
  gets (λ k, root (k_fs k)) ≫= λ ROOT_INODE, in_fs (ls ROOT_INODE).

(** ** The console (sbi.rs, console.rs)

    A character that is not there yet reads as 0. *)
Definition console_getchar : K Z := λ k,
  let x := k_mach k in
  match console_in x with
  | [] => Ok (0, k)
  | c :: l => Ok (c, set_mach (mkMach l (console_out x) (clock x) (timer x) (sstatus x)) k)
  end.
Definition console_putchar (c : Z) : K () :=
  modify_st (λ k, let x := k_mach k in
    set_mach (mkMach (console_in x) (console_out x ++ [c]) (clock x) (timer x) (sstatus x)) k).

(** [str::chars] on well-formed UTF-8. *)
Fixpoint utf8_chars (s : list Z) : list Z :=
  match s with
  | [] => []
  | a :: s1 =>
      if a <? 0x80 then a :: utf8_chars s1 else
      match s1 with
      | [] => []
      | b :: s2 =>
          if a <? 0xE0 then (a mod 32 * 64 + b mod 64) :: utf8_chars s2 else
          match s2 with
          | [] => []
          | c :: s3 =>
              if a <? 0xF0 then (a mod 16 * 4096 + b mod 64 * 64 + c mod 64) :: utf8_chars s3 else
              match s3 with
              | [] => []
              | e :: s4 =>
                  (a mod 8 * 262144 + b mod 64 * 4096 + c mod 64 * 64 + e mod 64) :: utf8_chars s4
              end
          end
      end
  end.

(** [Stdout::write_str] of console.rs. *)
Definition write_str (s : list Z) : K () := for_each (utf8_chars s) console_putchar.

(** ** Standard streams (stdio.rs) *)

(** [Stdout::write]: each slice must be well-formed UTF-8 by itself. *)
Fixpoint stdout_loop (bufs : list slice_ref) : K () :=
  match bufs with
  | [] => mret ()
  | s :: bufs =>
      in_mem (load_slice s) ≫= λ b,
      assertM (utf8_valid b) ≫= λ _,
      write_str b ≫= λ _,
      stdout_loop bufs
  end.
Definition stdout_write (user_buf : list slice_ref) : K Z :=
  stdout_loop user_buf ≫= λ _, mret (UserBuffer_len user_buf).

(** What a system call does to the flow that runs it: it returns, or the
    processor leaves it, to come back to it or not. *)
Inductive outcome : Type :=
| Return (r : Z)
| Suspended
| Exited.

(** One turn of the loop of [Stdin::read]. *)
Definition stdin_turn (user_buf : list slice_ref) : K outcome :=
  console_getchar ≫= λ c,
  if c =? 0 then
    in_procs (suspend_current_and_run_next (KStdin user_buf)) ≫= λ _, mret Suspended
  else
    let ch := wrap 8 c in
    unwrap (head user_buf) ≫= λ s,
    in_mem (store_byte (slice_pa s) ch) ≫= λ _,
    mret (Return 1).
Definition stdin_read (user_buf : list slice_ref) : K outcome :=
  assertM (UserBuffer_len user_buf =? 1) ≫= λ _, stdin_turn user_buf.

(** ** The trait [File] *)
Definition file_readable (f : file) : K bool :=
  match f with
  | Stdin => mret true
  | Stdout => mret false
  | OsFile id => get_osinode id ≫= λ o, mret (os_readable o)
  end.
Definition file_writable (f : file) : K bool :=
  match f with
  | Stdin => mret false
  | Stdout => mret true
  | OsFile id => get_osinode id ≫= λ o, mret (os_writable o)
  end.
Definition file_read (f : file) (buf : list slice_ref) : K outcome :=
  match f with
  | Stdin => stdin_read buf
  | Stdout => halt Panicked
  | OsFile id => os_read id buf ≫= λ n, mret (Return n)
  end.
Definition file_write (f : file) (buf : list slice_ref) : K Z :=
  match f with
  | Stdin => halt Panicked
  | Stdout => stdout_write buf
  | OsFile id => os_write id buf
  end.
