(* ===== verification/Syscall.v ===== *)
(** * Syscall: system calls, traps and the kernel's steps
    (os/src/syscall, os/src/trap/mod.rs, os/src/timer.rs, os/src/task/processor.rs)

    A trap from user mode runs [trap_handler]: it goes back to user mode, or
    the processor leaves the task.  Without a current task the idle flow takes
    the next one.  [kstep] is one such step of the kernel.

    Kernel messages ([println!]) are not part of the state. *)

From stdpp Require Import base gmap list numbers.
From S2P Require Import Prelude Bytes Address FrameAllocator PageTable MemorySet Pid KState Task OsFile.

(** ** Casts *)
Definition to_signed (w z : Z) : Z := let v := wrap w z in if v <? 2 ^ (w - 1) then v else v - 2 ^ w.
Definition as_isize (z : Z) : Z := to_signed 64 z.
Definition as_i32 (z : Z) : Z := to_signed 32 z.
Definition as_u32 (z : Z) : Z := wrap 32 z.
Definition as_usize (z : Z) : Z := wrap 64 z.

(** The bytes of the [String] that [translated_str] builds from the bytes [s]
    with [string.push(ch as char)]. *)
Definition str_bytes (s : list Z) : list Z :=
  concat ((λ c, if c <? 0x80 then [c] else [0xC0 + c / 64; 0x80 + c mod 64]) <$> s).

(** ** Time (timer.rs, boards/qemu.rs) *)
Definition CLOCK_FREQ : Z := 12500000.
Definition TICKS_PER_SEC : Z := 100.
Definition MSEC_PER_SEC : Z := 1000.

Definition get_time : K Z := gets (λ k, clock (k_mach k)).
Definition get_time_ms : K Z := get_time ≫= λ t, mret (t / (CLOCK_FREQ / MSEC_PER_SEC)).
Definition set_timer (t : Z) : K () :=
  modify_st (λ k, let x := k_mach k in
    set_mach (mkMach (console_in x) (console_out x) (clock x) t (sstatus x)) k).
Definition set_next_trigger : K () :=
  get_time ≫= λ t, set_timer (t +u CLOCK_FREQ / TICKS_PER_SEC).

(** ** Numbers of the system calls (syscall/mod.rs) *)
Definition SYSCALL_OPEN : Z := 56.
Definition SYSCALL_CLOSE : Z := 57.
Definition SYSCALL_READ : Z := 63.
Definition SYSCALL_WRITE : Z := 64.
Definition SYSCALL_EXIT : Z := 93.
Definition SYSCALL_YIELD : Z := 124.
Definition SYSCALL_GET_TIME : Z := 169.
Definition SYSCALL_GETPID : Z := 172.
Definition SYSCALL_FORK : Z := 220.
Definition SYSCALL_EXEC : Z := 221.
Definition SYSCALL_WAITPID : Z := 260.

(** The current task, as the code takes it: [current_task().unwrap()]. *)
Definition the_task : K Z := in_procs current_task ≫= λ o, unwrap o.

Section syscalls.
Context (ElfFile_new : list Z → option ElfFile) (syms : kernel_symbols) (trap_handler_addr trap_return_addr : Z).
(** Bounds the length of strings and the number of pieces of a file read by
    [exec]. *)
Context (fuel : nat).

(** ** Files (syscall/fs.rs) *)
Definition sys_read (fd buf len : Z) : K outcome :=
  in_procs current_user_token ≫= λ token,
  the_task ≫= λ task,
  in_procs (access task) ≫= λ inner,
  if Z.of_nat (length (fd_table inner)) <=? fd then mret (Return (-1))
  else match fd_table inner !! Z.to_nat fd with
       | Some (Some file) =>
           file_readable file ≫= λ r,
           if negb r then mret (Return (-1))
           else in_mem (translated_byte_buffer token buf len) ≫= λ b, file_read file b
       | _ => mret (Return (-1))
       end.

Definition sys_write (fd buf len : Z) : K outcome :=
  in_procs current_user_token ≫= λ token,
  the_task ≫= λ task,
  in_procs (access task) ≫= λ inner,
  if Z.of_nat (length (fd_table inner)) <=? fd then mret (Return (-1))
  else match fd_table inner !! Z.to_nat fd with
       | Some (Some file) =>
           file_writable file ≫= λ w,
           if negb w then mret (Return (-1))
           else
             in_mem (translated_byte_buffer token buf len) ≫= λ b,
             file_write file b ≫= λ n, mret (Return n)
       | _ => mret (Return (-1))
       end.

Definition sys_open (path flags : Z) : K outcome :=
  the_task ≫= λ task,
  in_procs current_user_token ≫= λ token,
  in_mem (translated_str fuel token path) ≫= λ path,
  unwrap (OpenFlags_from_bits flags) ≫= λ flags,
  open_file (str_bytes path) flags ≫= λ o,
  match o with
  | Some inode =>
      in_procs (access task) ≫= λ inner,
      let '(fd, inner) := alloc_fd inner in
      let inner := set_fd_table (<[Z.to_nat fd := Some (OsFile inode)]> (fd_table inner)) inner in
      in_procs (put_tcb task inner) ≫= λ _,
      mret (Return fd)
  | None => mret (Return (-1))
  end.

Definition sys_close (fd : Z) : K outcome :=
  the_task ≫= λ task,
  in_procs (access task) ≫= λ inner,
  if Z.of_nat (length (fd_table inner)) <=? fd then mret (Return (-1))
  else match fd_table inner !! Z.to_nat fd with
       | Some (Some _) =>
           in_procs (put_tcb task (set_fd_table (<[Z.to_nat fd := None]> (fd_table inner)) inner)) ≫= λ _,
           mret (Return 0)
       | _ => mret (Return (-1))
       end.

(** ** Processes (syscall/process.rs) *)
Definition sys_yield : K outcome :=
  in_procs (suspend_current_and_run_next (KResult 0)) ≫= λ _, mret Suspended.

Definition sys_exit (exit_code : Z) : K outcome :=
  exit_current_and_run_next exit_code ≫= λ _, mret Exited.

Definition sys_get_time : K outcome := get_time_ms ≫= λ t, mret (Return (as_isize t)).

Definition sys_getpid : K outcome :=
  the_task ≫= λ task, in_procs (get_tcb task) ≫= λ t, mret (Return (as_isize (tcb_pid t))).

Definition sys_fork : K outcome :=
  the_task ≫= λ current_task,
  fork syms trap_return_addr current_task ≫= λ new_task,
  in_procs (get_tcb new_task) ≫= λ t,
  let new_pid := tcb_pid t in
  in_procs (access new_task) ≫= λ inner,
  in_mem (write_cx (trap_cx_ppn inner) CX_A0 0) ≫= λ _,
  in_procs (add_task new_task) ≫= λ _,
  mret (Return (as_isize new_pid)).

Definition sys_exec (path : Z) : K outcome :=
  in_procs current_user_token ≫= λ token,
  in_mem (translated_str fuel token path) ≫= λ path,
  open_file (str_bytes path) 0 ≫= λ o,
  match o with
  | Some app_inode =>
      read_all fuel app_inode ≫= λ all_data,
      the_task ≫= λ task,
      exec ElfFile_new syms trap_handler_addr task all_data ≫= λ _,
      mret (Return 0)
  | None => mret (Return (-1))
  end.

(** [pid == -1 || pid as usize == p.getpid()]. *)
Definition pid_matches (pid : Z) (t : TCB) : bool := (pid =? -1) || (as_usize pid =? tcb_pid t).

(** [any] over the children. *)
Fixpoint any_child (pid : Z) (l : list Z) : M procs bool :=
  match l with
  | [] => mret false
  | c :: l => get_tcb c ≫= λ t, if pid_matches pid t then mret true else any_child pid l
  end.
(** [enumerate().find(..)]: the index of the first zombie that matches. *)
Fixpoint find_zombie (pid : Z) (l : list Z) (i : nat) : M procs (option nat) :=
  match l with
  | [] => mret None
  | c :: l =>
      access c ≫= λ t,
      if is_zombie t && pid_matches pid t then mret (Some i) else find_zombie pid l (S i)
  end.

Definition sys_waitpid (pid exit_code_ptr : Z) : K outcome :=
  the_task ≫= λ task,
  in_procs (borrow task) ≫= λ inner,
  in_procs (any_child pid (children inner)) ≫= λ any,
  if negb any then in_procs (release task) ≫= λ _, mret (Return (-1))
  else
    in_procs (find_zombie pid (children inner) 0) ≫= λ pair,
    match pair with
    | Some idx =>
        unwrap (children inner !! idx) ≫= λ child,
        in_procs (modify_tcb task (set_children (delete idx (children inner)))) ≫= λ _,
        gets (λ k, strong_count (k_procs k) [child; task] child) ≫= λ n,
        assertM (bool_decide (n = 1%nat)) ≫= λ _,
        in_procs (get_tcb child) ≫= λ ct,
        let found_pid := tcb_pid ct in
        in_procs (access child) ≫= λ ct,
        in_mem (translated_refmut (get_user_token inner) exit_code_ptr) ≫= λ pa,
        in_mem (store_bytes pa (le_bytes 4 (exit_code ct))) ≫= λ _,
        drop_task child ≫= λ _,
        in_procs (release task) ≫= λ _,
        mret (Return (as_isize found_pid))
    | None => in_procs (release task) ≫= λ _, mret (Return (-2))
    end.

(** ** [syscall] (syscall/mod.rs) *)
Definition syscall (syscall_id a0 a1 a2 : Z) : K outcome :=
  if syscall_id =? SYSCALL_OPEN then sys_open a0 (as_u32 a1)
  else if syscall_id =? SYSCALL_CLOSE then sys_close a0
  else if syscall_id =? SYSCALL_READ then sys_read a0 a1 a2
  else if syscall_id =? SYSCALL_WRITE then sys_write a0 a1 a2
  else if syscall_id =? SYSCALL_EXIT then sys_exit (as_i32 a0)
  else if syscall_id =? SYSCALL_YIELD then sys_yield
  else if syscall_id =? SYSCALL_GET_TIME then sys_get_time
  else if syscall_id =? SYSCALL_GETPID then sys_getpid
  else if syscall_id =? SYSCALL_FORK then sys_fork
  else if syscall_id =? SYSCALL_EXEC then sys_exec a0
  else if syscall_id =? SYSCALL_WAITPID then sys_waitpid (as_isize a0) a1
  else halt Panicked.

(** ** Traps (trap/mod.rs) *)
Inductive trap : Type :=
| UserEnvCall
| StoreFault
| StorePageFault
| InstructionFault
| InstructionPageFault
| LoadFault
| LoadPageFault
| IllegalInstruction
| SupervisorTimer
| OtherTrap.

(** [trap_return]: the page table token user mode continues with. *)
Definition trap_return : K Z := in_procs current_user_token.

(** The end of a system call: [cx.x[10] = result as usize]. *)
Definition finish_syscall (o : outcome) : K (option Z) :=
  match o with
  | Return result =>
      in_procs current_trap_cx ≫= λ cx,
      in_mem (write_cx cx CX_A0 (as_usize result)) ≫= λ _,
      trap_return ≫= λ satp, mret (Some satp)
  | Suspended | Exited => mret None
  end.

(** [trap_handler]: the token user mode continues with; [None] when the
    processor has left the task. *)
Definition trap_handler (cause : trap) : K (option Z) :=
  match cause with
  | UserEnvCall =>
      in_procs current_trap_cx ≫= λ cx,
      in_mem (read_cx cx CX_SEPC) ≫= λ sepc,
      in_mem (write_cx cx CX_SEPC (sepc +u 4)) ≫= λ _,
      in_mem (read_cx cx CX_A7) ≫= λ a7,
      in_mem (read_cx cx CX_A0) ≫= λ a0,
      in_mem (read_cx cx CX_A1) ≫= λ a1,
      in_mem (read_cx cx CX_A2) ≫= λ a2,
      syscall a7 a0 a1 a2 ≫= finish_syscall
  | StoreFault | StorePageFault | InstructionFault | InstructionPageFault | LoadFault | LoadPageFault =>
      exit_current_and_run_next (-2) ≫= λ _, mret None
  | IllegalInstruction => exit_current_and_run_next (-3) ≫= λ _, mret None
  | SupervisorTimer =>
      set_next_trigger ≫= λ _,
      in_procs (suspend_current_and_run_next KTrapEnd) ≫= λ _, mret None
  | OtherTrap => halt Panicked
  end.

(** ** The idle flow (processor.rs)

    One turn of the loop of [run_tasks]: the next task goes on where it
    stopped. *)
Definition run_tasks_turn : K (option Z) :=
  in_procs run_tasks_fetch ≫= λ o,
  match o with
  | None => mret None
  | Some task =>
      in_procs (get_tcb task) ≫= λ t,
      match task_cx t with
      | Fresh _ | Switched KTrapEnd => trap_return ≫= λ satp, mret (Some satp)
      | Switched (KResult r) => finish_syscall (Return r)
      | Switched (KStdin user_buf) => stdin_turn user_buf ≫= finish_syscall
      end
  end.

(** ** Steps of the system

    A user program writes its memory, and the world outside gives characters
    and time. *)
Inductive kstep : kernel → kernel → Prop :=
| step_trap cause k r k' :
    is_Some (current (k_procs k)) → trap_handler cause k = Ok (r, k') → kstep k k'
| step_idle k r k' :
    current (k_procs k) = None → run_tasks_turn k = Ok (r, k') → kstep k k'
| step_user k m' :
    falloc m' = falloc (k_mem k) → kstep k (set_mem m' k)
| step_world k x' : kstep k (set_mach x' k).

Inductive reachable (k0 : kernel) : kernel → Prop :=
| reach_init : reachable k0 k0
| reach_step k k' : reachable k0 k → kstep k k' → reachable k0 k'.
End syscalls.

(** ** Start of the kernel (main.rs, task/mod.rs) *)

(** [INITPROC] and [add_initproc]. *)
Definition initproc_name : list Z := [105; 110; 105; 116; 112; 114; 111; 99].

Definition add_initproc (ElfFile_new : list Z → option ElfFile) (syms : kernel_symbols)
    (trap_handler trap_return : Z) (fuel : nat) : K () :=
  open_file initproc_name 0 ≫= λ o, unwrap o ≫= λ inode,
  read_all fuel inode ≫= λ v,
  TaskControlBlock_new ElfFile_new syms trap_handler trap_return v ≫= λ t,
  in_procs (arc_new t) ≫= λ i,
  in_procs (modify_st (λ p, mkProcs (pids p) (tasks p) (next_task p) (ready_queue p) (current p) (Some i)
    (borrowed p))) ≫= λ _,
  in_procs (add_task i).
