(* ===== verification/Sched.v ===== *)
(** * Sched: an abstract specification of process management

    What the kernel promises about processes, without memory and files: a
    process has an identifier, a status, a parent and children; processes are
    queued, run, forked, terminated and reaped.  [sched_inv] is the invariant
    of that system and [sstep_inv] says that every abstract step keeps it. *)

From stdpp Require Import base gmap list numbers.
From S2P Require Import Prelude Address Pid KState.

Record view : Type := mkView {
  v_pid : Z;
  v_status : TaskStatus;
  v_parent : option Z;
  v_children : list Z;
}.

Record sched : Type := mkSched {
  s_pids : PidAllocator;
  s_tasks : gmap Z view;
  s_next : Z;
  s_ready : list Z;
  s_current : option Z;
  s_init : option Z;
}.

Definition v_set_status (st : TaskStatus) (v : view) : view := mkView (v_pid v) st (v_parent v) (v_children v).
Definition v_set_parent (o : option Z) (v : view) : view := mkView (v_pid v) (v_status v) o (v_children v).
Definition v_set_children (l : list Z) (v : view) : view := mkView (v_pid v) (v_status v) (v_parent v) l.

(** ** Steps *)
Definition s_suspend (i : Z) (v : view) (s : sched) : sched :=
  mkSched (s_pids s) (<[i := v_set_status Ready v]> (s_tasks s)) (s_next s) (s_ready s ++ [i]) None (s_init s).
Definition s_dispatch (i : Z) (v : view) (q : list Z) (s : sched) : sched :=
  mkSched (s_pids s) (<[i := v_set_status Running v]> (s_tasks s)) (s_next s) q (Some i) (s_init s).
Definition s_fork (i : Z) (v : view) (pid : Z) (a : PidAllocator) (s : sched) : sched :=
  let c := s_next s in
  mkSched a (<[i := v_set_children (v_children v ++ [c]) v]> (<[c := mkView pid Ready (Some i) []]> (s_tasks s)))
    (c + 1) (s_ready s ++ [c]) (s_current s) (s_init s).

(** The children [l] become children of [init]. *)
Definition adopt_one (init : Z) (T : gmap Z view) (c : Z) : gmap Z view :=
  alter (λ v, v_set_children (v_children v ++ [c]) v) init (alter (v_set_parent (Some init)) c T).
Definition adopt (init : Z) (l : list Z) (T : gmap Z view) : gmap Z view := foldl (adopt_one init) T l.

Definition s_exit (i : Z) (v : view) (init : Z) (s : sched) : sched :=
  mkSched (s_pids s)
    (<[i := mkView (v_pid v) Zombie (v_parent v) []]> (adopt init (v_children v) (s_tasks s)))
    (s_next s) (s_ready s) None (s_init s).
Definition s_reap (i : Z) (v : view) (c : Z) (idx : nat) (a : PidAllocator) (s : sched) : sched :=
  mkSched a (delete c (<[i := v_set_children (delete idx (v_children v)) v]> (s_tasks s)))
    (s_next s) (s_ready s) (s_current s) (s_init s).

Inductive sstep : sched → sched → Prop :=
| ss_suspend s i v :
    s_current s = Some i → s_tasks s !! i = Some v → sstep s (s_suspend i v s)
| ss_dispatch s i q v :
    s_current s = None → s_ready s = i :: q → s_tasks s !! i = Some v → sstep s (s_dispatch i v q s)
| ss_fork s i v pid a :
    s_current s = Some i → s_tasks s !! i = Some v → pa_current (s_pids s) + 1 < 2 ^ 64 - 1 →
    pa_alloc (s_pids s) = (pid, a) → sstep s (s_fork i v pid a s)
| ss_exit s i v init :
    s_current s = Some i → s_tasks s !! i = Some v → s_init s = Some init → i ≠ init → sstep s (s_exit i v init s)
| ss_reap s i v c vc idx a :
    s_current s = Some i → s_tasks s !! i = Some v → v_children v !! idx = Some c →
    s_tasks s !! c = Some vc → v_status vc = Zombie → pa_dealloc (v_pid vc) (s_pids s) = Ok a →
    sstep s (s_reap i v c idx a s).

(** ** The invariant *)
Record sched_inv (s : sched) : Prop := {
  sv_init : ∃ i v, s_init s = Some i ∧ s_tasks s !! i = Some v ∧ v_status v ≠ Zombie ∧ v_parent v = None ∧
    ∀ j, is_Some (s_tasks s !! j) → i ≤ j;
  sv_ready_nodup : NoDup (s_ready s);
  sv_ready i : i ∈ s_ready s ↔ ∃ v, s_tasks s !! i = Some v ∧ v_status v = Ready;
  sv_current i : s_current s = Some i ↔ ∃ v, s_tasks s !! i = Some v ∧ v_status v = Running;
  sv_child i v c : s_tasks s !! i = Some v → c ∈ v_children v →
    ∃ vc, s_tasks s !! c = Some vc ∧ v_parent vc = Some i;
  sv_parent c vc i : s_tasks s !! c = Some vc → v_parent vc = Some i →
    ∃ v, s_tasks s !! i = Some v ∧ c ∈ v_children v;
  sv_order c vc i : s_tasks s !! c = Some vc → v_parent vc = Some i → i < c;
  sv_orphan c vc : s_tasks s !! c = Some vc → v_parent vc = None → s_init s = Some c;
  sv_children i v : s_tasks s !! i = Some v → NoDup (v_children v);
  sv_zombie i v : s_tasks s !! i = Some v → v_status v = Zombie → v_children v = [];
  sv_pid_inj i j v w : s_tasks s !! i = Some v → s_tasks s !! j = Some w → v_pid v = v_pid w → i = j;
  sv_pids : ∃ U, pa_inv (s_pids s) U ∧ ∀ x, x ∈ U ↔ ∃ i v, s_tasks s !! i = Some v ∧ v_pid v = x;
  sv_next i : is_Some (s_tasks s !! i) → i < s_next s;
}.

(** Changing the status of one task. *)
Lemma status_lookup (T : gmap Z view) i (v : view) st j w :
  T !! i = Some v → <[i := v_set_status st v]> T !! j = Some w →
  ∃ w0, T !! j = Some w0 ∧ v_pid w = v_pid w0 ∧ v_parent w = v_parent w0 ∧ v_children w = v_children w0 ∧
    v_status w = (if decide (j = i) then st else v_status w0).
Proof.
  intros Hi. rewrite lookup_insert_Some. intros [[<- <-]|[Hne Hj]].
  - exists v. by rewrite decide_True.
  - exists w. by rewrite decide_False.
Qed.

Lemma status_lookup_2 (T : gmap Z view) i (v : view) st j w0 :
  T !! i = Some v → T !! j = Some w0 →
  ∃ w, <[i := v_set_status st v]> T !! j = Some w ∧ v_pid w = v_pid w0 ∧ v_parent w = v_parent w0 ∧
    v_children w = v_children w0 ∧ v_status w = (if decide (j = i) then st else v_status w0).
Proof.
  intros Hi Hj. destruct (decide (j = i)) as [->|].
  - rewrite lookup_insert_eq. rewrite Hi in Hj. injection Hj as <-. by eexists.
  - rewrite lookup_insert_ne by done. by eexists.
Qed.

(** A change of status that moves a task between the queue and the processor
    keeps the family tree and the identifiers. *)
Lemma status_inv s i v st q cur :
  sched_inv s → s_tasks s !! i = Some v → st ≠ Zombie → NoDup q →
  (∀ j, j ∈ q ↔ ∃ w, <[i := v_set_status st v]> (s_tasks s) !! j = Some w ∧ v_status w = Ready) →
  (∀ j, cur = Some j ↔ ∃ w, <[i := v_set_status st v]> (s_tasks s) !! j = Some w ∧ v_status w = Running) →
  sched_inv (mkSched (s_pids s) (<[i := v_set_status st v]> (s_tasks s)) (s_next s) q cur (s_init s)).
Proof.
  intros [H1 H2 H3 H4 H5 H6 H6' H7 H8 H9 H10 H11 H12] Hi Hst Hq Hready Hcur.
  pose proof (status_lookup (s_tasks s) i v st) as L. pose proof (status_lookup_2 (s_tasks s) i v st) as L2.
  split; cbn [s_pids s_tasks s_next s_ready s_current s_init]; try done.
  - destruct H1 as (i0 & v0 & Hi0 & Ht0 & Hs0 & Hp0 & Hmin). destruct (L2 _ _ Hi Ht0) as (w & Hw & Hpid & Hpar & Hch & Hstat).
    exists i0, w. split_and!; [done|done| |congruence|].
    + rewrite Hstat. by case_decide.
    + intros j [x Hj]. destruct (L _ _ Hi Hj) as (w0 & Hw0 & _). apply Hmin. eauto.
  - intros j w c Hj Hc. destruct (L _ _ Hi Hj) as (w0 & Hw0 & _ & _ & Hch & _). rewrite Hch in Hc.
    destruct (H5 _ _ _ Hw0 Hc) as (vc & Hvc & Hpar). destruct (L2 _ _ Hi Hvc) as (w' & Hw' & _ & Hp' & _). exists w'. split; congruence.
  - intros c vc j Hc Hpar. destruct (L _ _ Hi Hc) as (w0 & Hw0 & _ & Hp & _). rewrite Hp in Hpar.
    destruct (H6 _ _ _ Hw0 Hpar) as (x & Hx & Hin). destruct (L2 _ _ Hi Hx) as (w' & Hw' & _ & _ & Hch & _). exists w'. split; congruence.
  - intros c vc j Hc Hpar. destruct (L _ _ Hi Hc) as (w0 & Hw0 & _ & Hp & _). eapply H6'; [done|congruence].
  - intros c vc Hc Hpar. destruct (L _ _ Hi Hc) as (w0 & Hw0 & _ & Hp & _). eapply H7; [done|congruence].
  - intros j w Hj. destruct (L _ _ Hi Hj) as (w0 & Hw0 & _ & _ & Hch & _). rewrite Hch. by eapply H8.
  - intros j w Hj Hz. destruct (L _ _ Hi Hj) as (w0 & Hw0 & _ & _ & Hch & Hs). rewrite Hch, Hs in *. case_decide; [done|by eapply H9].
  - intros j1 j2 w1 w2 Hj1 Hj2 Hp. destruct (L _ _ Hi Hj1) as (x1 & Hx1 & Hp1 & _). destruct (L _ _ Hi Hj2) as (x2 & Hx2 & Hp2 & _).
    eapply H10; [done|done|congruence].
  - destruct H11 as (U & Hpa & HU). exists U. split; [done|]. intros x. rewrite HU. split.
    + intros (j & w & Hj & Hp). destruct (L2 _ _ Hi Hj) as (w' & Hw' & Hp' & _). exists j, w'. split; congruence.
    + intros (j & w & Hj & Hp). destruct (L _ _ Hi Hj) as (w' & Hw' & Hp' & _). exists j, w'. split; congruence.
  - intros j [w Hj]. destruct (L _ _ Hi Hj) as (w' & Hw' & _). apply H12. eauto.
Qed.

Lemma suspend_inv s i v :
  sched_inv s → s_current s = Some i → s_tasks s !! i = Some v → sched_inv (s_suspend i v s).
Proof.
  intros Hs Hc Hi. pose proof Hs as [_ H2 H3 H4 _ _ _ _ _ _ _ _ _].
  assert (v_status v = Running) as Hrun by (apply H4 in Hc as (? & ? & ?); congruence).
  apply status_inv; try done.
  - apply NoDup_snoc; [|done]. intros (w & Hw & Hr)%H3. congruence.
  - intros j. rewrite elem_of_app, list_elem_of_singleton, H3. split.
    + intros [(w & Hw & Hr)| ->].
      * exists w. rewrite lookup_insert_ne; [done|]. intros ->. congruence.
      * eexists. by rewrite lookup_insert_eq.
    + intros (w & [[<- <-]|[Hne Hw]]%lookup_insert_Some & Hr); [by right|left; eauto].
  - intros j. split; [done|]. intros (w & [[<- <-]|[Hne Hw]]%lookup_insert_Some & Hr); [done|].
    assert (s_current s = Some j) as Hj by (apply H4; eauto). congruence.
Qed.

Lemma dispatch_inv s i q v :
  sched_inv s → s_current s = None → s_ready s = i :: q → s_tasks s !! i = Some v → sched_inv (s_dispatch i v q s).
Proof.
  intros Hs Hc Hq Hi. pose proof Hs as [_ H2 H3 H4 _ _ _ _ _ _ _ _ _]. rewrite Hq in *. apply list.NoDup_cons in H2 as [Hni Hnd].
  assert (v_status v = Ready) as Hrdy by (destruct (H3 i) as [(w & ? & ?) _]; [elt|congruence]).
  apply status_inv; try done.
  - intros j. split.
    + intros Hj. assert (j ≠ i) as Hne by (by intros ->). destruct (H3 j) as [(w & ? & ?) _]; [elt|].
      exists w. by rewrite lookup_insert_ne.
    + intros (w & [[<- <-]|[Hne Hw]]%lookup_insert_Some & Hr); [done|].
      assert (j ∈ i :: q) as [->|?]%elem_of_cons; [|done|done]. apply H3. eauto.
  - intros j. split.
    + intros [= <-]. eexists. by rewrite lookup_insert_eq.
    + intros (w & [[<- <-]|[Hne Hw]]%lookup_insert_Some & Hr); [done|].
      assert (s_current s = Some j) as Hj by (apply H4; eauto). congruence.
Qed.

(** ** Fork *)
Lemma fork_lookup s i v pid a j w :
  sched_inv s → s_tasks s !! i = Some v → s_tasks (s_fork i v pid a s) !! j = Some w ↔
  (j = s_next s ∧ w = mkView pid Ready (Some i) []) ∨
  (j = i ∧ w = v_set_children (v_children v ++ [s_next s]) v) ∨
  (j ≠ i ∧ j ≠ s_next s ∧ s_tasks s !! j = Some w).
Proof.
  intros Hs Hi. assert (i ≠ s_next s) by (pose proof (sv_next _ Hs i (mk_is_Some _ _ Hi)); lia).
  unfold s_fork. cbn [s_tasks]. rewrite !lookup_insert_Some. naive_solver.
Qed.

(** An old task after a fork: only the parent's children have changed. *)
Lemma fork_lookup_old s i v pid a j w0 :
  sched_inv s → s_tasks s !! i = Some v → s_tasks s !! j = Some w0 →
  ∃ w, s_tasks (s_fork i v pid a s) !! j = Some w ∧ v_pid w = v_pid w0 ∧ v_status w = v_status w0 ∧
    v_parent w = v_parent w0 ∧ v_children w = v_children w0 ++ (if decide (j = i) then [s_next s] else []).
Proof.
  intros Hs Hi Hj. assert (j ≠ s_next s) by (pose proof (sv_next _ Hs j (mk_is_Some _ _ Hj)); lia).
  setoid_rewrite fork_lookup; [|done|done]. destruct (decide (j = i)) as [->|].
  - rewrite Hi in Hj. injection Hj as <-. eexists. split; [by right; left|done].
  - exists w0. rewrite app_nil_r. split_and!; try done. by right; right.
Qed.

(** And what a task after a fork was before. *)
Lemma fork_lookup_new s i v pid a j w :
  sched_inv s → s_tasks s !! i = Some v → s_tasks (s_fork i v pid a s) !! j = Some w →
  (j = s_next s ∧ w = mkView pid Ready (Some i) []) ∨
  ∃ w0, s_tasks s !! j = Some w0 ∧ v_pid w = v_pid w0 ∧ v_status w = v_status w0 ∧
    v_parent w = v_parent w0 ∧ v_children w = v_children w0 ++ (if decide (j = i) then [s_next s] else []).
Proof.
  intros Hs Hi Hj. pose proof Hj as [?|[[-> ->]|(Hne & Hn & Hw)]]%fork_lookup; [by left| | |done|done].
  - right. exists v. by rewrite decide_True.
  - right. exists w. rewrite decide_False, app_nil_r by done. done.
Qed.

Section fork.
Context (s : sched) (i : Z) (v : view) (pid : Z) (a : PidAllocator).
Hypothesis Hs : sched_inv s.
Hypothesis Hc : s_current s = Some i.
Hypothesis Hi : s_tasks s !! i = Some v.
Hypothesis Hb : pa_current (s_pids s) + 1 < 2 ^ 64 - 1.
Hypothesis Ha : pa_alloc (s_pids s) = (pid, a).
Let Lo j w0 := fork_lookup_old s i v pid a j w0 Hs Hi.
Let Ln j w := fork_lookup_new s i v pid a j w Hs Hi.

Lemma fork_new_view : s_tasks (s_fork i v pid a s) !! s_next s = Some (mkView pid Ready (Some i) []).
Proof using Hs Hi. apply fork_lookup; [done|done|by left]. Qed.

Lemma fork_pids :
  (∀ j w, s_tasks s !! j = Some w → v_pid w ≠ pid) ∧
  ∃ U, pa_inv a U ∧ ∀ x, x ∈ U ↔ ∃ j w, s_tasks (s_fork i v pid a s) !! j = Some w ∧ v_pid w = x.
Proof using Hs Hi Hb Ha.
  destruct (sv_pids _ Hs) as (U & Hpa & HU). pose proof (pa_alloc_spec _ _ Hpa Hb) as Hsp. rewrite Ha in Hsp.
  destruct Hsp as (Hn & Hp & Hpa'). split.
  - intros j w Hj <-. apply Hn, HU. eauto.
  - exists ({[pid]} ∪ U). split; [done|]. intros x. rewrite elem_of_union, elem_of_singleton, HU. split.
    + intros [->|(j & w & Hj & Hx)]; [eexists _, _; split; [apply fork_new_view|done]|].
      destruct (Lo _ _ Hj) as (w' & Hw' & Hp' & _). exists j, w'. split; congruence.
    + intros (j & w & Hj & Hx). destruct (Ln _ _ Hj) as [[-> ->]|(w0 & Hw0 & Hp0 & _)]; [by left|].
      right. exists j, w0. split; congruence.
Qed.

Lemma fork_tree j w c :
  s_tasks (s_fork i v pid a s) !! j = Some w →
  c ∈ v_children w → ∃ vc, s_tasks (s_fork i v pid a s) !! c = Some vc ∧ v_parent vc = Some j.
Proof using Hs Hi.
  intros Hj Hin. destruct (Ln _ _ Hj) as [[-> ->]|(w0 & Hw0 & _ & _ & _ & Hch)]; [by apply elem_of_nil in Hin|].
  rewrite Hch, elem_of_app in Hin. destruct Hin as [Hin|Hin].
  - destruct (sv_child _ Hs _ _ _ Hw0 Hin) as (vc & Hvc & Hp). destruct (Lo _ _ Hvc) as (w' & Hw' & _ & _ & Hp' & _).
    exists w'. split; congruence.
  - case_decide as Hd; [|by apply elem_of_nil in Hin]. apply list_elem_of_singleton in Hin as ->. subst j.
    eexists. split; [apply fork_new_view|done].
Qed.

Lemma fork_inv : sched_inv (s_fork i v pid a s).
Proof using Hs Hc Hi Hb Ha.
  pose proof Hs as [H1 H2 H3 H4 H5 H6 H6' H7 H8 H9 H10 H11 H12].
  assert (s_tasks s !! s_next s = None) as Hfresh.
  { destruct (s_tasks s !! s_next s) eqn:E; [|done]. pose proof (H12 _ (mk_is_Some _ _ E)). lia. }
  assert (i < s_next s) as Hlt by (apply H12; eauto).
  destruct fork_pids as [Hpid HU]. split.
  - destruct H1 as (i0 & v0 & Hi0 & Ht0 & Hs0 & Hp0 & Hmin). destruct (Lo _ _ Ht0) as (w & Hw & _ & Hst & Hpar & _).
    exists i0, w. split_and!; [done|done|congruence|congruence|]. intros j [x Hj].
    destruct (Ln _ _ Hj) as [[-> _]|(w0 & Hw0 & _)]; [|apply Hmin; eauto]. apply Z.lt_le_incl, H12. eauto.
  - apply NoDup_snoc; [|done]. intros (w & Hw & _)%H3. congruence.
  - intros j. cbn [s_ready s_fork]. rewrite elem_of_app, list_elem_of_singleton, H3. split.
    + intros [(w & Hw & Hst)| ->]; [|eexists; split; [apply fork_new_view|done]].
      destruct (Lo _ _ Hw) as (w' & Hw' & _ & Hst' & _). exists w'. split; congruence.
    + intros (w & Hw & Hst). destruct (Ln _ _ Hw) as [[-> _]|(w0 & Hw0 & _ & Hst0 & _)]; [by right|].
      left. exists w0. split; congruence.
  - intros j. cbn [s_current s_fork]. rewrite H4. split.
    + intros (w & Hw & Hst). destruct (Lo _ _ Hw) as (w' & Hw' & _ & Hst' & _). exists w'. split; congruence.
    + intros (w & Hw & Hst). destruct (Ln _ _ Hw) as [[-> ->]|(w0 & Hw0 & _ & Hst0 & _)]; [done|].
      exists w0. split; congruence.
  - apply fork_tree.
  - intros c vc p Hcv Hpar. destruct (Ln _ _ Hcv) as [[-> ->]|(w0 & Hw0 & _ & _ & Hp0 & _)].
    + injection Hpar as <-. destruct (Lo _ _ Hi) as (w' & Hw' & _ & _ & _ & Hch). exists w'. split; [done|].
      rewrite Hch, decide_True by done. elt.
    + rewrite Hp0 in Hpar. destruct (H6 _ _ _ Hw0 Hpar) as (x & Hx & Hin).
      destruct (Lo _ _ Hx) as (w' & Hw' & _ & _ & _ & Hch). exists w'. split; [done|]. rewrite Hch. elt.
  - intros c vc p Hcv Hpar. destruct (Ln _ _ Hcv) as [[-> ->]|(w0 & Hw0 & _ & _ & Hp0 & _)].
    + injection Hpar as <-. done.
    + eapply H6'; [done|congruence].
  - intros c vc Hcv Hpar. destruct (Ln _ _ Hcv) as [[-> ->]|(w0 & Hw0 & _ & _ & Hp0 & _)]; [done|]. eapply H7; [done|congruence].
  - intros j w Hj. destruct (Ln _ _ Hj) as [[-> ->]|(w0 & Hw0 & _ & _ & _ & Hch)]; [constructor|]. rewrite Hch.
    case_decide; [|by rewrite app_nil_r; eapply H8]. apply NoDup_snoc; [|by eapply H8].
    intros Hin. destruct (H5 _ _ _ Hw0 Hin) as (? & ? & _). congruence.
  - intros j w Hj Hz. destruct (Ln _ _ Hj) as [[-> ->]|(w0 & Hw0 & _ & Hst & _ & Hch)]; [done|]. rewrite Hch.
    rewrite (H9 _ _ Hw0) by congruence. case_decide as Hd; [|done]. subst j.
    destruct (H4 i) as [(x & Hx & Hr) _]; [done|]. congruence.
  - intros j1 j2 w1 w2 Hj1 Hj2 Hp.
    destruct (Ln _ _ Hj1) as [[-> ->]|(x1 & Hx1 & Hp1 & _)], (Ln _ _ Hj2) as [[-> ->]|(x2 & Hx2 & Hp2 & _)].
    + done.
    + cbn in Hp. destruct (Hpid _ _ Hx2). congruence.
    + cbn in Hp. destruct (Hpid _ _ Hx1). congruence.
    + eapply H10; [done|done|congruence].
  - exact HU.
  - intros j [w Hj]. cbn [s_next s_fork]. destruct (Ln _ _ Hj) as [[-> _]|(w0 & Hw0 & _)]; [lia|].
    pose proof (H12 _ (mk_is_Some _ _ Hw0)). lia.
Qed.
End fork.

(** ** Exit *)
Definition adopt_view (init : Z) (l : list Z) (j : Z) (v : view) : view :=
  mkView (v_pid v) (v_status v) (if decide (j ∈ l) then Some init else v_parent v)
    (v_children v ++ (if decide (j = init) then l else [])).

Lemma adopt_lookup init l : ∀ T j, adopt init l T !! j = adopt_view init l j <$> T !! j.
Proof.
  induction l as [|c l IH]; intros T j.
  { unfold adopt, adopt_view. cbn [foldl]. destruct (T !! j) as [w|]; [|done]. cbn.
    rewrite decide_False by apply not_elem_of_nil. f_equal. destruct w. cbn. by case_decide; rewrite app_nil_r. }
  unfold adopt in *. cbn [foldl]. rewrite IH. unfold adopt_one.
  assert (∀ (T' : gmap Z view) k (f : view → view), alter f k T' !! j = (if decide (j = k) then f else id) <$> T' !! j) as Halt.
  { intros T' k f. case_decide as Hd; [subst; apply lookup_alter_eq|]. rewrite lookup_alter_ne by done.
    by rewrite option_fmap_id. }
  rewrite !Halt, <- !option_fmap_compose. destruct (T !! j) as [w|]; [|done]. cbn [fmap option_fmap option_map]. f_equal.
  unfold adopt_view, compose. destruct w as [p st par ch]. cbn.
  destruct (decide (j = init)), (decide (j = c)), (decide (j ∈ l)), (decide (j ∈ c :: l)) as [Hin|Hin]; cbn;
    rewrite <- ?app_assoc; try done; exfalso; (apply elem_of_cons in Hin || (apply Hin, elem_of_cons)); tauto.
Qed.

Section exit.
Context (s : sched) (i init : Z) (v : view).
Hypothesis Hs : sched_inv s.
Hypothesis Hc : s_current s = Some i.
Hypothesis Hi : s_tasks s !! i = Some v.
Hypothesis Hinit : s_init s = Some init.
Hypothesis Hne : i ≠ init.

Lemma exit_lookup_old j w0 :
  s_tasks s !! j = Some w0 → j ≠ i → s_tasks (s_exit i v init s) !! j = Some (adopt_view init (v_children v) j w0).
Proof using. intros Hj Hn. cbn. rewrite lookup_insert_ne, adopt_lookup, Hj by done. done. Qed.

Lemma exit_lookup_self : s_tasks (s_exit i v init s) !! i = Some (mkView (v_pid v) Zombie (v_parent v) []).
Proof using. cbn. by rewrite lookup_insert_eq. Qed.

Lemma exit_lookup_new j w :
  s_tasks (s_exit i v init s) !! j = Some w →
  (j = i ∧ w = mkView (v_pid v) Zombie (v_parent v) []) ∨
  (j ≠ i ∧ ∃ w0, s_tasks s !! j = Some w0 ∧ w = adopt_view init (v_children v) j w0).
Proof using.
  cbn. rewrite lookup_insert_Some. intros [[<- <-]|[Hn Hj]]; [by left|]. right. split; [done|].
  rewrite adopt_lookup in Hj. apply fmap_Some in Hj. done.
Qed.

Lemma own_child c : c ∈ v_children v → ∃ vc, s_tasks s !! c = Some vc ∧ v_parent vc = Some i ∧ c ≠ i ∧ c ≠ init.
Proof using Hs Hc Hi Hinit.
  intros Hin. destruct (sv_child _ Hs _ _ _ Hi Hin) as (vc & Hvc & Hp). exists vc. split_and!; try done.
  - intros ->. pose proof (sv_order _ Hs _ _ _ Hvc Hp). lia.
  - destruct (sv_init _ Hs) as (i0 & v0 & Hi0 & Ht0 & _ & Hp0 & _). intros ->. congruence.
Qed.

(** Every task of the new state, with the status and identifier it had. *)
Lemma exit_pid j : (v_pid <$> s_tasks (s_exit i v init s) !! j) = v_pid <$> s_tasks s !! j.
Proof using Hi.
  destruct (decide (j = i)) as [->|Hn]; [by rewrite exit_lookup_self, Hi|].
  cbn. rewrite lookup_insert_ne, adopt_lookup by done. by destruct (s_tasks s !! j).
Qed.

Lemma exit_tree j w c :
  s_tasks (s_exit i v init s) !! j = Some w → c ∈ v_children w →
  ∃ vc, s_tasks (s_exit i v init s) !! c = Some vc ∧ v_parent vc = Some j.
Proof using Hs Hc Hi Hinit Hne.
  intros Hj Hin. destruct (exit_lookup_new _ _ Hj) as [[-> ->]|(Hn & w0 & Hw0 & ->)]; [by apply elem_of_nil in Hin|].
  cbn [v_children adopt_view] in Hin. apply elem_of_app in Hin as [Hin|Hin].
  - destruct (sv_child _ Hs _ _ _ Hw0 Hin) as (vc & Hvc & Hp). destruct (decide (c = i)) as [->|Hci].
    { eexists. split; [apply exit_lookup_self|]. cbn. congruence. }
    eexists. split; [by apply exit_lookup_old|]. cbn. rewrite decide_False; [done|].
    intros Hl. destruct (own_child _ Hl) as (vc' & Hvc' & Hp' & _). congruence.
  - case_decide as Hd; [subst j|by apply elem_of_nil in Hin]. destruct (own_child _ Hin) as (vc & Hvc & _ & Hci & _).
    eexists. split; [by apply exit_lookup_old|]. cbn. by rewrite decide_True.
Qed.

Lemma exit_tree_up c vc p :
  s_tasks (s_exit i v init s) !! c = Some vc → v_parent vc = Some p →
  (∃ w, s_tasks (s_exit i v init s) !! p = Some w ∧ c ∈ v_children w) ∧ p < c.
Proof using Hs Hc Hi Hinit Hne.
  intros Hcv Hpar. destruct (exit_lookup_new _ _ Hcv) as [[-> ->]|(Hn & w0 & Hw0 & ->)].
  - cbn in Hpar. destruct (sv_parent _ Hs _ _ _ Hi Hpar) as (x & Hx & Hin). pose proof (sv_order _ Hs _ _ _ Hi Hpar).
    split; [|done]. eexists. split; [apply exit_lookup_old; [done|lia]|]. cbn. elt.
  - cbn in Hpar. case_decide as Hd.
    + injection Hpar as <-. destruct (sv_init _ Hs) as (i0 & v0 & Hi0 & Ht0 & _ & _ & Hmin).
      rewrite Hinit in Hi0. injection Hi0 as <-. destruct (own_child _ Hd) as (_ & _ & _ & _ & Hci).
      split; [|pose proof (Hmin _ (mk_is_Some _ _ Hw0)); lia].
      eexists. split; [by apply exit_lookup_old|]. cbn. rewrite decide_True by done. elt.
    + destruct (sv_parent _ Hs _ _ _ Hw0 Hpar) as (x & Hx & Hin). split; [|by eapply sv_order].
      eexists. split; [apply exit_lookup_old; [done|]|cbn; elt]. intros ->. rewrite Hi in Hx. injection Hx as <-. done.
Qed.

Lemma exit_children j w : s_tasks (s_exit i v init s) !! j = Some w → NoDup (v_children w).
Proof using Hs Hc Hi Hinit Hne.
  intros Hj. destruct (exit_lookup_new _ _ Hj) as [[-> ->]|(Hn & w0 & Hw0 & ->)]; [constructor|]. cbn.
  case_decide as Hd; [|by rewrite app_nil_r; eapply sv_children]. subst j. apply list.NoDup_app. split_and!; try by eapply sv_children.
  intros c Hin Hl. destruct (own_child _ Hl) as (vc & Hvc & Hp & _).
  destruct (sv_child _ Hs _ _ _ Hw0 Hin) as (vc' & Hvc' & Hp'). congruence.
Qed.

Lemma exit_inv : sched_inv (s_exit i v init s).
Proof using Hs Hc Hi Hinit Hne.
  pose proof Hs as [H1 H2 H3 H4 H5 H6 H6' H7 H8 H9 H10 H11 H12].
  assert (v_status v = Running) as Hrun by (apply H4 in Hc as (? & ? & ?); congruence).
  split.
  - destruct H1 as (i0 & v0 & Hi0 & Ht0 & Hs0 & Hp0 & Hmin). rewrite Hinit in Hi0. injection Hi0 as <-.
    eexists _, _. split_and!; [exact Hinit|by apply exit_lookup_old|done| |].
    + cbn. rewrite decide_False; [done|]. intros Hl. by destruct (own_child _ Hl) as (_ & _ & _ & _ & ?).
    + intros j [x Hj]. destruct (exit_lookup_new _ _ Hj) as [[-> _]|(_ & w0 & Hw0 & _)]; apply Hmin; eauto.
  - done.
  - intros j. cbn [s_ready s_exit]. rewrite H3. split.
    + intros (w & Hw & Hst). eexists. split; [apply exit_lookup_old; [done|]|done]. intros ->. congruence.
    + intros (w & Hw & Hst). destruct (exit_lookup_new _ _ Hw) as [[-> ->]|(_ & w0 & Hw0 & ->)]; [done|]. eauto.
  - intros j. cbn [s_current s_exit]. split; [done|]. intros (w & Hw & Hst).
    destruct (exit_lookup_new _ _ Hw) as [[-> ->]|(Hn & w0 & Hw0 & ->)]; [done|].
    assert (s_current s = Some j) by (apply H4; eauto). congruence.
  - apply exit_tree.
  - intros c vc p Hcv Hp. by apply (exit_tree_up _ _ _ Hcv Hp).
  - intros c vc p Hcv Hp. by apply (exit_tree_up _ _ _ Hcv Hp).
  - intros c vc Hcv Hp. destruct (exit_lookup_new _ _ Hcv) as [[-> ->]|(_ & w0 & Hw0 & ->)]; [by eapply H7|].
    cbn in Hp. case_decide; [done|]. by eapply H7.
  - apply exit_children.
  - intros j w Hj Hz. destruct (exit_lookup_new _ _ Hj) as [[-> ->]|(_ & w0 & Hw0 & ->)]; [done|]. cbn in *.
    rewrite (H9 _ _ Hw0 Hz). case_decide as Hd; [|done]. subst j.
    destruct H1 as (i0 & v0 & Hi0 & Ht0 & Hs0 & _). congruence.
  - intros j1 j2 w1 w2 Hj1 Hj2 Hp. pose proof (exit_pid j1) as E1. pose proof (exit_pid j2) as E2. rewrite Hj1 in E1. rewrite Hj2 in E2.
    symmetry in E1, E2. apply fmap_Some in E1 as (x1 & Hx1 & ?), E2 as (x2 & Hx2 & ?). eapply H10; [done|done|congruence].
  - destruct H11 as (U & Hpa & HU). exists U. split; [done|]. intros x. rewrite HU. split.
    + intros (j & w & Hj & Hp). pose proof (exit_pid j) as E. rewrite Hj in E. apply fmap_Some in E as (y & Hy & ?). exists j, y. split; congruence.
    + intros (j & w & Hj & Hp). pose proof (exit_pid j) as E. rewrite Hj in E. symmetry in E. apply fmap_Some in E as (y & Hy & ?). exists j, y. split; congruence.
  - intros j [w Hj]. destruct (exit_lookup_new _ _ Hj) as [[-> _]|(_ & w0 & Hw0 & _)]; apply H12; eauto.
Qed.
End exit.

(** ** Reap *)
Lemma delete_nodup (l : list Z) k c :
  NoDup l → l !! k = Some c → NoDup (delete k l) ∧ ∀ x, x ∈ delete k l ↔ x ∈ l ∧ x ≠ c.
Proof.
  intros Hnd Hk. rewrite delete_take_drop. pose proof (take_drop_middle l k c Hk) as Hl.
  rewrite <- Hl in Hnd. apply list.NoDup_app in Hnd as (H1 & H2 & [H3 H4]%list.NoDup_cons). split.
  - apply list.NoDup_app. split_and!; [done| |done]. intros x Hx Hd. apply (H2 x Hx). by apply list_elem_of_further.
  - intros x. rewrite <- Hl at 3. rewrite !elem_of_app, elem_of_cons. split.
    + intros [Hx|Hx]; (split; [tauto|]); intros ->; [|done]. apply (H2 c Hx). elt.
    + tauto.
Qed.

Section reap.
Context (s : sched) (i c : Z) (v vc : view) (idx : nat) (a : PidAllocator).
Hypothesis Hs : sched_inv s.
Hypothesis Hcur : s_current s = Some i.
Hypothesis Hi : s_tasks s !! i = Some v.
Hypothesis Hidx : v_children v !! idx = Some c.
Hypothesis Hc : s_tasks s !! c = Some vc.
Hypothesis Hz : v_status vc = Zombie.
Hypothesis Ha : pa_dealloc (v_pid vc) (s_pids s) = Ok a.

Lemma reap_ne : c ≠ i.
Proof using Hs Hcur Hi Hidx Hc Hz.
  intros ->. apply (sv_current _ Hs) in Hcur as (w & Hw & Hr). congruence.
Qed.

Lemma reap_lookup j w :
  s_tasks (s_reap i v c idx a s) !! j = Some w ↔
  (j = i ∧ w = v_set_children (delete idx (v_children v)) v) ∨ (j ≠ i ∧ j ≠ c ∧ s_tasks s !! j = Some w).
Proof using Hs Hcur Hi Hidx Hc Hz.
  pose proof reap_ne. cbn. rewrite lookup_delete_Some, lookup_insert_Some. naive_solver.
Qed.

(** What is left after the reaping was there before, with fewer children. *)
Lemma reap_lookup_new j w :
  s_tasks (s_reap i v c idx a s) !! j = Some w →
  j ≠ c ∧ ∃ w0, s_tasks s !! j = Some w0 ∧ v_pid w = v_pid w0 ∧ v_status w = v_status w0 ∧ v_parent w = v_parent w0 ∧
    NoDup (v_children w) ∧ ∀ x, x ∈ v_children w ↔ x ∈ v_children w0 ∧ x ≠ c.
Proof using Hs Hcur Hi Hidx Hc Hz.
  pose proof reap_ne as Hne. rewrite reap_lookup. intros [[-> ->]|(Hn & Hnc & Hj)].
  - destruct (delete_nodup _ _ _ (sv_children _ Hs _ _ Hi) Hidx). split; [done|]. by exists v.
  - split; [done|]. exists w. split_and!; try done; [by eapply sv_children|]. intros x. split; [|tauto]. intros Hx.
    split; [done|]. intros ->. destruct (sv_child _ Hs _ _ _ Hj Hx) as (vc' & Hvc' & Hp').
    destruct (sv_child _ Hs _ _ c Hi (list_elem_of_lookup_2 _ _ _ Hidx)) as (vc2 & Hvc2 & Hp2). congruence.
Qed.

Lemma reap_lookup_old j w0 :
  s_tasks s !! j = Some w0 → j ≠ c → ∃ w, s_tasks (s_reap i v c idx a s) !! j = Some w ∧ v_pid w = v_pid w0 ∧
    v_status w = v_status w0 ∧ v_parent w = v_parent w0 ∧ ∀ x, x ∈ v_children w ↔ x ∈ v_children w0 ∧ x ≠ c.
Proof using Hs Hcur Hi Hidx Hc Hz.
  intros Hj Hn. assert (is_Some (s_tasks (s_reap i v c idx a s) !! j)) as [w Hw].
  { destruct (decide (j = i)) as [->|]; [eexists|exists w0]; apply reap_lookup; tauto. }
  exists w. split; [done|]. destruct (reap_lookup_new _ _ Hw) as (_ & w1 & Hw1 & ? & ? & ? & _ & ?).
  rewrite Hj in Hw1. injection Hw1 as <-. done.
Qed.

Lemma reap_pids : ∃ U, pa_inv a U ∧ ∀ x, x ∈ U ↔ ∃ j w, s_tasks (s_reap i v c idx a s) !! j = Some w ∧ v_pid w = x.
Proof using Hs Hcur Hi Hidx Hc Hz Ha.
  destruct (sv_pids _ Hs) as (U & Hpa & HU).
  assert (v_pid vc ∈ U) as Hin by (apply HU; eauto). pose proof Hin as [Hr _]%(pa_used _ _ Hpa).
  pose proof (pa_dealloc_spec _ _ (v_pid vc) Hpa ltac:(lia)) as Hsp. rewrite decide_True in Hsp by done.
  destruct Hsp as (a' & Ha' & Hpa' & _). rewrite Ha in Ha'. injection Ha' as <-.
  exists (U ∖ {[v_pid vc]}). split; [done|]. intros x. rewrite elem_of_difference, elem_of_singleton, HU. split.
  - intros [(j & w0 & Hj & Hp) Hx]. assert (j ≠ c) as Hn by (intros ->; congruence).
    destruct (reap_lookup_old _ _ Hj Hn) as (w & Hw & Hp' & _). exists j, w. split; congruence.
  - intros (j & w & Hj & Hp). destruct (reap_lookup_new _ _ Hj) as (Hn & w0 & Hw0 & Hp0 & _). split.
    + exists j, w0. split; congruence.
    + intros Hx. apply Hn. eapply (sv_pid_inj _ Hs); [done|done|congruence].
Qed.

Lemma reap_inv : sched_inv (s_reap i v c idx a s).
Proof using Hs Hcur Hi Hidx Hc Hz Ha.
  pose proof Hs as [H1 H2 H3 H4 H5 H6 H6' H7 H8 H9 H10 H11 H12].
  pose proof (H9 _ _ Hc Hz) as Hnochild. split.
  - destruct H1 as (i0 & v0 & Hi0 & Ht0 & Hs0 & Hp0 & Hmin). assert (i0 ≠ c) as Hn by congruence.
    destruct (reap_lookup_old _ _ Ht0 Hn) as (w & Hw & _ & Hst & Hpar & _).
    exists i0, w. split_and!; [done|done|congruence|congruence|]. intros j [x Hj].
    destruct (reap_lookup_new _ _ Hj) as (_ & w0 & Hw0 & _). apply Hmin. eauto.
  - done.
  - intros j. cbn [s_ready s_reap]. rewrite H3. split.
    + intros (w & Hw & Hst). destruct (reap_lookup_old _ _ Hw) as (w' & Hw' & _ & Hst' & _); [congruence|]. exists w'. split; congruence.
    + intros (w & Hw & Hst). destruct (reap_lookup_new _ _ Hw) as (_ & w0 & Hw0 & _ & Hst0 & _). exists w0. split; congruence.
  - intros j. cbn [s_current s_reap]. rewrite H4. split.
    + intros (w & Hw & Hst). destruct (reap_lookup_old _ _ Hw) as (w' & Hw' & _ & Hst' & _); [congruence|]. exists w'. split; congruence.
    + intros (w & Hw & Hst). destruct (reap_lookup_new _ _ Hw) as (_ & w0 & Hw0 & _ & Hst0 & _). exists w0. split; congruence.
  - intros j w x Hj Hx. destruct (reap_lookup_new _ _ Hj) as (_ & w0 & Hw0 & _ & _ & _ & _ & Hch). destruct (proj1 (Hch x) Hx) as [Hx' Hxc].
    destruct (H5 _ _ _ Hw0 Hx') as (vx & Hvx & Hp). destruct (reap_lookup_old _ _ Hvx Hxc) as (w' & Hw' & _ & _ & Hp' & _).
    exists w'. split; congruence.
  - intros x vx p Hx Hp. destruct (reap_lookup_new _ _ Hx) as (Hxc & w0 & Hw0 & _ & _ & Hp0 & _).
    rewrite Hp0 in Hp. destruct (H6 _ _ _ Hw0 Hp) as (y & Hy & Hin).
    assert (p ≠ c) as Hpc. { intros ->. rewrite Hc in Hy. injection Hy as <-. rewrite Hnochild in Hin. by apply elem_of_nil in Hin. }
    destruct (reap_lookup_old _ _ Hy Hpc) as (w' & Hw' & _ & _ & _ & Hch). exists w'. split; [done|]. by apply Hch.
  - intros x vx p Hx Hp. destruct (reap_lookup_new _ _ Hx) as (_ & w0 & Hw0 & _ & _ & Hp0 & _). eapply H6'; [done|congruence].
  - intros x vx Hx Hp. destruct (reap_lookup_new _ _ Hx) as (_ & w0 & Hw0 & _ & _ & Hp0 & _). eapply H7; [done|congruence].
  - intros j w Hj. by destruct (reap_lookup_new _ _ Hj) as (_ & w0 & Hw0 & _ & _ & _ & ? & _).
  - intros j w Hj Hst. destruct (reap_lookup_new _ _ Hj) as (_ & w0 & Hw0 & _ & Hst0 & _ & _ & Hch).
    rewrite (H9 _ _ Hw0) in Hch by congruence. destruct (v_children w) as [|y l] eqn:E; [done|].
    destruct (Hch y) as [[Hy _] _]; [elt|by apply elem_of_nil in Hy].
  - intros j1 j2 w1 w2 Hj1 Hj2 Hp. destruct (reap_lookup_new _ _ Hj1) as (_ & x1 & Hx1 & Hp1 & _).
    destruct (reap_lookup_new _ _ Hj2) as (_ & x2 & Hx2 & Hp2 & _). eapply H10; [done|done|congruence].
  - apply reap_pids.
  - intros j [w Hj]. destruct (reap_lookup_new _ _ Hj) as (_ & w0 & Hw0 & _). apply H12. eauto.
Qed.
End reap.

(** Every step keeps the invariant. *)
Lemma sstep_inv s s' : sched_inv s → sstep s s' → sched_inv s'.
Proof.
  intros Hs Hst. destruct Hst.
  - by apply suspend_inv.
  - by apply dispatch_inv.
  - by apply fork_inv.
  - by apply exit_inv.
  - by eapply reap_inv.
Qed.

Lemma ssteps_inv s s' : sched_inv s → rtc sstep s s' → sched_inv s'.
Proof. intros Hs Hst. induction Hst; eauto using sstep_inv. Qed.
