(* ===== verification/KKeeps.v ===== *)
(** * KKeeps: kernel code that leaves the processes alone

    Memory, file and console code never touches the process part of the
    kernel's state.  [keeps] says so of a kernel computation, and the
    database [keeps] proves it by the shape of the code. *)

From stdpp Require Import base gmap list numbers.
From S2P Require Import Prelude Bytes Address FrameAllocator PageTable MemorySet Pid KState Task OsFile Syscall.

Definition keeps {A} (f : K A) : Prop := ∀ k a k', f k = Ok (a, k') → k_procs k' = k_procs k.

(** Process code that only looks. *)
Definition reads {A} (f : M procs A) : Prop := ∀ p a p', f p = Ok (a, p') → p' = p.

Create HintDb keeps.

(** ** Rules *)
Lemma reads_bind {A B} (f : M procs A) (g : A → M procs B) : reads f → (∀ a, reads (g a)) → reads (f ≫= g).
Proof. intros Hf Hg p b p' (a & p1 & H1 & H2)%M_bind_Ok. apply Hf in H1 as ->. by eapply Hg. Qed.
Lemma reads_lift {A} (r : res A) : reads (lift_res r).
Proof. intros p a p'. unfold lift_res. destruct r; [|done]. by intros [= _ <-]. Qed.
Lemma reads_unwrap {A} (o : option A) : reads (unwrap o).
Proof. apply reads_lift. Qed.
Lemma reads_assert b : reads (assertM b).
Proof. apply reads_lift. Qed.
Lemma reads_ret {A} (a : A) : reads (mret a).
Proof. by intros p b p' [= _ <-]. Qed.
Lemma reads_gets {A} (f : procs → A) : reads (gets f).
Proof. by intros p b p' [= _ <-]. Qed.
Lemma reads_get_tcb i : reads (get_tcb i).
Proof. intros p a p'. unfold get_tcb. destruct (tasks p !! i); [|done]. by intros [= _ <-]. Qed.
#[export] Hint Resolve reads_lift reads_unwrap reads_assert reads_ret reads_gets reads_get_tcb : keeps.

Lemma reads_access i : reads (access i).
Proof. repeat (apply reads_bind; [auto with keeps|intros ?]). auto with keeps. Qed.
#[export] Hint Resolve reads_access : keeps.
Lemma reads_current_task : reads current_task.
Proof. apply reads_gets. Qed.
#[export] Hint Resolve reads_current_task : keeps.
Lemma reads_user_token : reads current_user_token.
Proof. repeat (apply reads_bind; [auto with keeps|intros ?]). auto with keeps. Qed.
Lemma reads_trap_cx : reads current_trap_cx.
Proof. repeat (apply reads_bind; [auto with keeps|intros ?]). auto with keeps. Qed.
#[export] Hint Resolve reads_user_token reads_trap_cx : keeps.
Lemma reads_any_child pid l : reads (any_child pid l).
Proof. induction l as [|c l IH]; cbn [any_child]; [auto with keeps|]. apply reads_bind; [auto with keeps|]. intros t. case_match; auto with keeps. Qed.
Lemma reads_find_zombie pid l : ∀ i, reads (find_zombie pid l i).
Proof.
  induction l as [|c l IH]; intros i; cbn [find_zombie]; [auto with keeps|].
  apply reads_bind; [auto with keeps|]. intros t. case_match; auto with keeps.
Qed.
#[export] Hint Resolve reads_any_child reads_find_zombie : keeps.

Lemma keeps_bind {A B} (f : K A) (g : A → K B) : keeps f → (∀ a, keeps (g a)) → keeps (f ≫= g).
Proof. intros Hf Hg k b k' (a & k1 & H1 & H2)%M_bind_Ok. apply Hf in H1. apply Hg in H2. congruence. Qed.
Lemma keeps_lift {A} (r : res A) : keeps (lift_res r).
Proof. intros k a k'. unfold lift_res. destruct r; [|done]. by intros [= _ <-]. Qed.
Lemma keeps_unwrap {A} (o : option A) : keeps (unwrap o).
Proof. apply keeps_lift. Qed.
Lemma keeps_assert b : keeps (assertM b).
Proof. apply keeps_lift. Qed.
Lemma keeps_ret {A} (a : A) : keeps (mret a).
Proof. by intros k b k' [= _ <-]. Qed.
Lemma keeps_halt {A} e : keeps (halt e : K A).
Proof. done. Qed.
Lemma keeps_gets {A} (f : kernel → A) : keeps (gets f).
Proof. by intros k b k' [= _ <-]. Qed.
Lemma keeps_modify f : (∀ k, k_procs (f k) = k_procs k) → keeps (modify_st f).
Proof. by intros Hf k a k' [= _ <-]. Qed.
Lemma keeps_in_mem {A} (f : M mem A) : keeps (in_mem f).
Proof. intros k a k'. unfold in_mem. destruct (f (k_mem k)) as [[b m]|]; [|done]. by intros [= _ <-]. Qed.
Lemma keeps_in_fs {A} (p : BlockIO.prog A) : keeps (in_fs p).
Proof. intros k a k'. unfold in_fs. destruct (BlockIO.run p [] _) as [[[b h] d]|]; [|done]. by intros [= _ <-]. Qed.
Lemma keeps_in_procs {A} (f : M procs A) : reads f → keeps (in_procs f).
Proof.
  intros Hf k a k'. unfold in_procs. destruct (f (k_procs k)) as [[b p]|] eqn:H; [|done].
  intros [= _ <-]. by eapply Hf.
Qed.
Lemma keeps_in_kernel_space f : keeps (in_kernel_space f).
Proof. intros k a k'. unfold in_kernel_space. destruct (f _ _) as [[b p]|]; [|done]. by intros [= _ <-]. Qed.
Lemma keeps_for_each {A} (l : list A) (f : A → K ()) : (∀ a, keeps (f a)) → keeps (for_each l f).
Proof. intros Hf. induction l as [|x l IH]; [apply keeps_ret|]. apply keeps_bind; auto. Qed.
#[export] Hint Resolve keeps_lift keeps_unwrap keeps_assert keeps_ret keeps_halt keeps_gets keeps_in_mem keeps_in_fs
  keeps_in_procs keeps_in_kernel_space : keeps.

(** Follow the shape of the code. *)
Ltac keeps := repeat first
  [ progress intros | apply keeps_bind | apply keeps_for_each | progress case_match
  | solve [auto with keeps] | apply keeps_modify; intros; done ].

(** ** Files and the console *)
Lemma keeps_get_osinode id : keeps (get_osinode id).
Proof. intros k a k'. unfold get_osinode. destruct (osinodes (k_fs k) !! id); [|done]. by intros [= _ <-]. Qed.
Lemma keeps_put_osinode id f : keeps (put_osinode id f).
Proof. unfold put_osinode. keeps. Qed.
Lemma keeps_OSInode_new r w i : keeps (OSInode_new r w i).
Proof. by intros k a k' [= _ <-]. Qed.
#[export] Hint Resolve keeps_get_osinode keeps_put_osinode keeps_OSInode_new : keeps.
Lemma keeps_read_all fuel id : ∀ v, keeps (read_all_loop fuel id v).
Proof. induction fuel as [|fuel IH]; intros v; cbn [read_all_loop]; keeps. Qed.
Lemma keeps_open_file name flags : keeps (open_file name flags).
Proof. unfold open_file. keeps. Qed.
Lemma keeps_os_read id bufs : ∀ total, keeps (os_read_loop id bufs total).
Proof. induction bufs as [|s bufs IH]; intros total; cbn [os_read_loop]; keeps. Qed.
Lemma keeps_os_write id bufs : ∀ total, keeps (os_write_loop id bufs total).
Proof. induction bufs as [|s bufs IH]; intros total; cbn [os_write_loop]; keeps. Qed.
Lemma keeps_getchar : keeps console_getchar.
Proof. intros k a k'. unfold console_getchar. destruct (console_in (k_mach k)); by intros [= _ <-]. Qed.
Lemma keeps_putchar c : keeps (console_putchar c).
Proof. unfold console_putchar. keeps. Qed.
#[export] Hint Resolve keeps_read_all keeps_open_file keeps_os_read keeps_os_write keeps_getchar keeps_putchar : keeps.
Lemma keeps_stdout bufs : keeps (stdout_loop bufs).
Proof. induction bufs as [|s bufs IH]; cbn [stdout_loop]; unfold write_str; keeps. Qed.
#[export] Hint Resolve keeps_stdout : keeps.
Lemma keeps_file_readable f : keeps (file_readable f).
Proof. unfold file_readable. keeps. Qed.
Lemma keeps_file_writable f : keeps (file_writable f).
Proof. unfold file_writable. keeps. Qed.
Lemma keeps_file_write f buf : keeps (file_write f buf).
Proof. unfold file_write, stdout_write, os_write. keeps. Qed.
#[export] Hint Resolve keeps_file_readable keeps_file_writable keeps_file_write : keeps.

(** ** Kernel stacks, time *)
Lemma keeps_KernelStack_new pid : keeps (KernelStack_new pid).
Proof. unfold KernelStack_new. keeps. Qed.
Lemma keeps_KernelStack_drop pid : keeps (KernelStack_drop pid).
Proof. unfold KernelStack_drop. keeps. Qed.
Lemma keeps_set_next_trigger : keeps set_next_trigger.
Proof. unfold set_next_trigger, get_time, set_timer. keeps. Qed.
Lemma keeps_the_task : keeps the_task.
Proof. unfold the_task. keeps. Qed.
#[export] Hint Resolve keeps_KernelStack_new keeps_KernelStack_drop keeps_set_next_trigger keeps_the_task : keeps.
Lemma keeps_trap_return : keeps trap_return.
Proof. unfold trap_return. keeps. Qed.
#[export] Hint Resolve keeps_trap_return : keeps.
Lemma keeps_finish o : keeps (finish_syscall o).
Proof. unfold finish_syscall. keeps. Qed.
#[export] Hint Resolve keeps_finish : keeps.
