(* ===== verification/KRefine.v ===== *)
(** * KRefine: the kernel refines the process specification

    [abs] forgets memory, files, contexts and descriptors; what is left is a
    state of [Sched].  Each step of the kernel ([kstep]) that succeeds is a
    sequence of abstract steps, so the invariant of [Sched] holds in every
    state the kernel reaches. *)

From stdpp Require Import base gmap list numbers relations.
From S2P Require Import Prelude Bytes Address FrameAllocator PageTable MemorySet Pid KState Task OsFile Syscall.
From S2P Require Import Sched KKeeps.

Definition view_of (t : TCB) : view := mkView (tcb_pid t) (task_status t) (parent t) (children t).
Definition abs (p : procs) : sched :=
  mkSched (pids p) (view_of <$> tasks p) (next_task p) (ready_queue p) (current p) (initproc p).

(** Between two kernel steps nothing is borrowed. *)
Definition procs_inv (p : procs) : Prop := sched_inv (abs p) ∧ borrowed p = [].

Lemma abs_lookup p i t : tasks p !! i = Some t → s_tasks (abs p) !! i = Some (view_of t).
Proof. intros H. cbn. by rewrite lookup_fmap, H. Qed.
Lemma abs_lookup_inv p i v : s_tasks (abs p) !! i = Some v → ∃ t, tasks p !! i = Some t ∧ v = view_of t.
Proof. cbn. rewrite lookup_fmap, fmap_Some. done. Qed.

(** The current task has a block. *)
Lemma current_block p i : procs_inv p → current p = Some i → ∃ t, tasks p !! i = Some t ∧ task_status t = Running.
Proof.
  intros [Hs _] Hc. destruct (proj1 (sv_current _ Hs i) Hc) as (v & Hv & Hr).
  apply abs_lookup_inv in Hv as (t & Ht & ->). eauto.
Qed.

(** ** Access to blocks *)
Lemma get_tcb_run p i t : tasks p !! i = Some t → get_tcb i p = Ok (t, p).
Proof. intros H. unfold get_tcb. by rewrite H. Qed.
Lemma access_run p i t : tasks p !! i = Some t → i ∉ borrowed p → access i p = Ok (t, p).
Proof.
  intros H Hb. unfold access. run (eq_refl (Ok (borrowed p, p))). rewrite M_assert_bind by (by apply bool_decide_eq_true_2).
  by apply get_tcb_run.
Qed.
Lemma access_borrowed p i : i ∈ borrowed p → access i p = Stop Panicked.
Proof.
  intros Hb. unfold access. run (eq_refl (Ok (borrowed p, p))). apply M_assert_fail. apply bool_decide_eq_false_2. auto.
Qed.
Lemma borrow_run p i t :
  tasks p !! i = Some t → i ∉ borrowed p → borrow i p = Ok (t, set_borrowed (i :: borrowed p) p).
Proof. intros H Hb. unfold borrow. run (access_run p i t H Hb). done. Qed.
Lemma borrow_Ok p i t p' : borrow i p = Ok (t, p') → tasks p !! i = Some t ∧ i ∉ borrowed p ∧ p' = set_borrowed (i :: borrowed p) p.
Proof.
  intros H. destruct (decide (i ∈ borrowed p)) as [Hb|Hb].
  { unfold borrow in H. by rewrite (M_bind_stop _ _ _ _ (access_borrowed p i Hb)) in H. }
  destruct (tasks p !! i) as [t0|] eqn:Ht.
  - rewrite (borrow_run p i t0 Ht Hb) in H. by simplify_eq.
  - exfalso. unfold borrow, access in H. apply M_bind_Ok in H as (? & ? & H & _).
    rewrite (M_bind_run _ _ _ _ _ (eq_refl (Ok (borrowed p, p)))) in H.
    rewrite M_assert_bind in H by (by apply bool_decide_eq_true_2). unfold get_tcb in H. by rewrite Ht in H.
Qed.
Lemma update_run p i t f :
  tasks p !! i = Some t → i ∉ borrowed p → update i f p = Ok ((), set_tasks <[i := f t]> p).
Proof. intros H Hb. unfold update. by run (access_run p i t H Hb). Qed.
Lemma modify_run p i t f : tasks p !! i = Some t → modify_tcb i f p = Ok ((), set_tasks <[i := f t]> p).
Proof. intros H. unfold modify_tcb. by run (get_tcb_run p i t H). Qed.

(** ** Suspend and dispatch *)
Lemma suspend_run p i t c :
  current p = Some i → tasks p !! i = Some t → i ∉ borrowed p →
  suspend_current_and_run_next c p = Ok ((),
    mkProcs (pids p) (<[i := set_task_cx (Switched c) (set_status Ready t)]> (tasks p)) (next_task p)
      (ready_queue p ++ [i]) None (initproc p) (borrowed p)).
Proof.
  intros Hc Ht Hb. unfold suspend_current_and_run_next.
  assert (take_current_task p = Ok (Some i, set_current None p)) as H1 by (unfold take_current_task; by rewrite Hc).
  run H1. rewrite M_unwrap_bind. run (update_run (set_current None p) i t (set_status Ready) Ht Hb).
  set (p1 := set_tasks <[i := set_status Ready t]> (set_current None p)).
  assert (add_task i p1 = Ok ((), set_ready (ready_queue p1 ++ [i]) p1)) as H2 by done. run H2.
  etrans; [apply modify_run; cbn; apply lookup_insert_eq|]. unfold set_tasks, set_ready. cbn. by rewrite insert_insert_eq.
Qed.

Lemma suspend_abs p i t c :
  current p = Some i → tasks p !! i = Some t →
  abs (mkProcs (pids p) (<[i := set_task_cx (Switched c) (set_status Ready t)]> (tasks p)) (next_task p)
      (ready_queue p ++ [i]) None (initproc p) (borrowed p)) = s_suspend i (view_of t) (abs p).
Proof. intros Hc Ht. unfold abs, s_suspend. cbn. by rewrite fmap_insert. Qed.

Lemma suspend_refines p i c :
  procs_inv p → current p = Some i →
  ∃ p', suspend_current_and_run_next c p = Ok ((), p') ∧ sstep (abs p) (abs p') ∧ current p' = None ∧
    borrowed p' = [] ∧ pids p' = pids p ∧ ready_queue p' = ready_queue p ++ [i].
Proof.
  intros Hp Hc. destruct (current_block p i Hp Hc) as (t & Ht & _). destruct Hp as [Hs Hb].
  eexists. split; [apply (suspend_run p i t); [done|done|rewrite Hb; apply not_elem_of_nil]|].
  split; [|done]. rewrite suspend_abs by done. apply ss_suspend; [done|]. by apply abs_lookup.
Qed.

Lemma fetch_refines p :
  procs_inv p → current p = None →
  match ready_queue p with
  | [] => run_tasks_fetch p = Ok (None, p)
  | i :: q => ∃ p' t, run_tasks_fetch p = Ok (Some i, p') ∧ sstep (abs p) (abs p') ∧ current p' = Some i ∧
      borrowed p' = [] ∧ pids p' = pids p ∧ tasks p !! i = Some t ∧ tasks p' = <[i := set_status Running t]> (tasks p) ∧
      ready_queue p' = q
  end.
Proof.
  intros [Hs Hb] Hc. unfold run_tasks_fetch. destruct (ready_queue p) as [|i q] eqn:Hq.
  { assert (fetch_task p = Ok (None, p)) as H by (unfold fetch_task; by rewrite Hq). by run H. }
  destruct (proj1 (sv_ready _ Hs i)) as (v & Hv & Hr); [cbn; rewrite Hq; elt|].
  apply abs_lookup_inv in Hv as (t & Ht & ->).
  assert (fetch_task p = Ok (Some i, set_ready q p)) as H by (unfold fetch_task; by rewrite Hq). run H.
  eexists (set_current (Some i) (set_tasks <[i := set_status Running t]> (set_ready q p))), t.
  run (update_run (set_ready q p) i t (set_status Running) Ht ltac:(cbn; rewrite Hb; apply not_elem_of_nil)).
  split; [done|]. split; [|done].
  replace (abs (set_current _ _)) with (s_dispatch i (view_of t) q (abs p))
    by (unfold abs, s_dispatch; cbn; by rewrite fmap_insert).
  apply ss_dispatch; [done|by cbn|by apply abs_lookup].
Qed.

(** ** Exit *)
Lemma alter_insert_eq (T : gmap Z view) i x (f : view → view) : T !! i = Some x → alter f i T = <[i := f x]> T.
Proof.
  intros H. apply map_eq. intros j. destruct (decide (i = j)) as [<-|Hne].
  - by rewrite lookup_alter_eq, H, lookup_insert_eq.
  - by rewrite lookup_alter_ne, lookup_insert_ne.
Qed.

Lemma reparent_run p init c ti tc :
  tasks p !! init = Some ti → tasks p !! c = Some tc → c ≠ init → c ∉ borrowed p →
  reparent init c p = Ok ((), set_tasks (λ T, <[init := set_children (children ti ++ [c]) ti]>
                                 (<[c := set_parent (Some init) tc]> T)) p).
Proof.
  intros Hi Hc Hne Hb. unfold reparent. run (update_run p c tc (set_parent (Some init)) Hc Hb).
  etrans; [eapply modify_run; cbn; rewrite lookup_insert_ne by done; exact Hi|]. done.
Qed.

(** The loop of [exit_current_and_run_next] over the children. *)
Lemma reparent_all init l : ∀ p,
  is_Some (tasks p !! init) → (∀ c, c ∈ l → is_Some (tasks p !! c) ∧ c ≠ init ∧ c ∉ borrowed p) →
  ∃ T, for_each l (reparent init) p = Ok ((), set_tasks (λ _, T) p) ∧
    view_of <$> T = adopt init l (view_of <$> tasks p) ∧ ∀ j, j ∉ l → j ≠ init → T !! j = tasks p !! j.
Proof.
  induction l as [|c l IH]; intros p [ti Hi] Hl.
  { exists (tasks p). split_and!; [|done..]. cbn. by destruct p. }
  destruct (Hl c) as ([tc Hc] & Hne & Hb); [elt|].
  set (T1 := <[init := set_children (children ti ++ [c]) ti]> (<[c := set_parent (Some init) tc]> (tasks p))).
  destruct (IH (set_tasks (λ _, T1) p)) as (T & HT & Habs & Hfr).
  { cbn. unfold T1. rewrite lookup_insert_eq. eauto. }
  { intros d Hd. destruct (Hl d) as ([td Htd] & Hdi & Hdb); [elt|]. split_and!; [|done..]. cbn. unfold T1.
    rewrite lookup_insert_ne by done. destruct (decide (c = d)) as [->|]; [rewrite lookup_insert_eq; eauto|].
    rewrite lookup_insert_ne by done. eauto. }
  exists T. split_and!.
  - cbn [for_each]. run (reparent_run p init c ti tc Hi Hc Hne Hb). fold T1. exact HT.
  - rewrite Habs. unfold adopt. cbn [foldl]. f_equal. unfold adopt_one. cbn [set_tasks tasks]. unfold T1.
    rewrite !fmap_insert. rewrite (alter_insert_eq (view_of <$> tasks p) c (view_of tc)) by (by rewrite lookup_fmap, Hc).
    rewrite (alter_insert_eq _ init (view_of ti)) by (by rewrite lookup_insert_ne, lookup_fmap, Hi). done.
  - intros j Hj Hji. apply not_elem_of_cons in Hj as [Hjc Hj]. rewrite Hfr by done. cbn. unfold T1.
    by rewrite !lookup_insert_ne by done.
Qed.

(** ** Code of the whole kernel *)
Lemma in_procs_run {A} (f : M procs A) k a p : f (k_procs k) = Ok (a, p) → in_procs f k = Ok (a, set_procs p k).
Proof. intros H. unfold in_procs. by rewrite H. Qed.
Lemma in_mem_run {A} (f : M mem A) k a m : f (k_mem k) = Ok (a, m) → in_mem f k = Ok (a, set_mem m k).
Proof. intros H. unfold in_mem. by rewrite H. Qed.
Lemma in_mem_stop {A} (f : M mem A) k e : f (k_mem k) = Stop e → in_mem f k = Stop e.
Proof. intros H. unfold in_mem. by rewrite H. Qed.
Lemma in_procs_Ok {A} (f : M procs A) k a k' :
  in_procs f k = Ok (a, k') → ∃ p, f (k_procs k) = Ok (a, p) ∧ k' = set_procs p k.
Proof. unfold in_procs. destruct (f (k_procs k)) as [[b p]|]; [|done]. intros [= <- <-]. eauto. Qed.
Lemma set_procs_id k : set_procs (k_procs k) k = k.
Proof. by destruct k. Qed.

(** Process code at the front of a kernel computation. *)
Lemma in_procs_bind {A B} (f : M procs A) (g : A → K B) p k a p' :
  f p = Ok (a, p') → (in_procs f ≫= g) (set_procs p k) = g a (set_procs p' k).
Proof. intros H. apply M_bind_run. unfold in_procs. cbn [k_procs set_procs]. by rewrite H. Qed.
Ltac runp H := rewrite (in_procs_bind _ _ _ _ _ _ H).

(** ** References *)
Lemma refs_in_pos i l : i ∈ l → refs_in i l ≠ 0%nat.
Proof.
  intros Hi H. unfold refs_in in H. apply nil_length_inv in H.
  assert (i ∈ filter (λ j, j = i) l) as Hin by (by apply list_elem_of_filter). rewrite H in Hin. by apply elem_of_nil in Hin.
Qed.
Lemma refs_in_zero i l : i ∉ l → refs_in i l = 0%nat.
Proof.
  intros Hi. unfold refs_in. induction l as [|x l IH]; [done|]. apply not_elem_of_cons in Hi as [Hx Hl].
  rewrite filter_cons_False by auto. auto.
Qed.
Lemma child_ref p j t i : tasks p !! j = Some t → i ∈ children t → strong_count p [] i ≠ 0%nat.
Proof.
  intros Hj Hi. unfold strong_count.
  assert (i ∈ concat ((λ it, children it.2) <$> map_to_list (tasks p))) as Hin.
  { apply elem_of_concat. exists (children t). split; [done|]. apply list_elem_of_fmap. exists (j, t).
    split; [done|]. by apply elem_of_map_to_list. }
  apply refs_in_pos in Hin. lia.
Qed.

Section exit.
Context (k : kernel) (i init : Z) (t : TCB) (code : Z).
Hypothesis Hp : procs_inv (k_procs k).
Hypothesis Hc : current (k_procs k) = Some i.
Hypothesis Ht : tasks (k_procs k) !! i = Some t.
Hypothesis Hinit : initproc (k_procs k) = Some init.

(** The block of the process that exits. *)
Let dead : TCB := set_exit_code code (set_status Zombie t).
(** The processes after the two stores at the start of the function. *)
Let p1 (b : list Z) : procs :=
  mkProcs (pids (k_procs k)) (<[i := dead]> (tasks (k_procs k))) (next_task (k_procs k)) (ready_queue (k_procs k)) None
    (Some init) b.

Lemma exit_prefix {B} (f : Z → TCB → K B) :
  (in_procs take_current_task ≫= λ o, unwrap o ≫= λ task, in_procs (borrow task) ≫= λ inner,
   in_procs (modify_tcb task (set_status Zombie)) ≫= λ _,
   in_procs (modify_tcb task (set_exit_code code)) ≫= λ _, f task inner) k = f i t (set_procs (p1 [i]) k).
Proof using Hp Hc Ht Hinit.
  destruct Hp as [_ Hb]. set (p0 := mkProcs (pids (k_procs k)) (tasks (k_procs k)) (next_task (k_procs k))
    (ready_queue (k_procs k)) None (Some init) []).
  assert (take_current_task (k_procs k) = Ok (Some i, p0)) as H1.
  { unfold take_current_task, p0, set_current. by rewrite Hc, Hb, Hinit. }
  rewrite <- (set_procs_id k) at 1. runp H1. rewrite M_unwrap_bind.
  runp (borrow_run p0 i t Ht ltac:(apply not_elem_of_nil)).
  runp (modify_run (set_borrowed [i] p0) i t (set_status Zombie) Ht).
  set (p2 := set_tasks _ _). assert (tasks p2 !! i = Some (set_status Zombie t)) as H2 by apply lookup_insert_eq.
  runp (modify_run p2 i _ (set_exit_code code) H2).
  unfold p1, dead, p2, p0, set_tasks, set_borrowed. cbn. by rewrite insert_insert_eq.
Qed.

(** The exit of initproc: it is borrowed already when the code borrows it as
    the new parent. *)
Lemma exit_initproc : i = init → exit_current_and_run_next code k = Stop Panicked.
Proof using Hp Hc Ht Hinit.
  intros Heq. unfold exit_current_and_run_next. erewrite (exit_prefix (λ task inner, _)).
  assert (gets initproc (p1 [i]) = Ok (Some init, p1 [i])) as H1 by done. runp H1. rewrite M_unwrap_bind.
  apply M_bind_stop. unfold in_procs, borrow. cbn [k_procs set_procs].
  by rewrite (M_bind_stop _ _ _ _ (access_borrowed (p1 [i]) init ltac:(cbn; rewrite Heq; elt))).
Qed.

Hypothesis Hne : i ≠ init.

Lemma exit_child c : c ∈ children t → is_Some (tasks (p1 [init; i]) !! c) ∧ c ≠ init ∧ c ∉ borrowed (p1 [init; i]) ∧ c ≠ i.
Proof using Hp Hc Ht Hinit.
  intros Hin. destruct (own_child (abs (k_procs k)) i init (view_of t) (proj1 Hp) Hc (abs_lookup _ _ _ Ht) Hinit c Hin)
    as (vc & Hvc & _ & Hci & Hcn).
  apply abs_lookup_inv in Hvc as (tc & Htc & _). split_and!; try done.
  - cbn. rewrite lookup_insert_ne by done. eauto.
  - cbn. rewrite !not_elem_of_cons. split_and!; [done..|apply not_elem_of_nil].
Qed.

(** The map of the abstract exit, whatever the dead process's own entry was
    in between. *)
Lemma exit_tasks (T : gmap Z TCB) d :
  view_of <$> T = adopt init (children t) (view_of <$> <[i := dead]> (tasks (k_procs k))) →
  view_of d = mkView (tcb_pid t) Zombie (parent t) [] →
  view_of <$> <[i := d]> T = s_tasks (s_exit i (view_of t) init (abs (k_procs k))).
Proof using.
  intros HT Hd. rewrite fmap_insert, HT, Hd. unfold s_exit, abs. cbn [s_tasks v_pid v_parent v_children view_of].
  apply map_eq. intros j.
  destruct (decide (i = j)) as [<-|Hj]; [by rewrite !lookup_insert_eq|].
  rewrite !(lookup_insert_ne _ i j) by done. by rewrite !adopt_lookup, !lookup_fmap, lookup_insert_ne.
Qed.

Lemma exit_run :
  match recycle_data_pages (memory_set t) (k_mem k) with
  | Stop e => exit_current_and_run_next code k = Stop e
  | Ok (ms, m') => ∃ p', exit_current_and_run_next code k = Ok ((), set_mem m' (set_procs p' k)) ∧
      abs p' = s_exit i (view_of t) init (abs (k_procs k)) ∧ borrowed p' = [] ∧
      tasks p' !! i = Some (set_memory_set ms (set_children [] dead))
  end.
Proof using All.
  unfold exit_current_and_run_next. erewrite (exit_prefix (λ task inner, _)).
  assert (gets initproc (p1 [i]) = Ok (Some init, p1 [i])) as H1 by done. runp H1. rewrite M_unwrap_bind.
  assert (is_Some (tasks (k_procs k) !! init)) as [ti Hti].
  { destruct (sv_init _ (proj1 Hp)) as (j & v & Hj & Hv & _). apply abs_lookup_inv in Hv as (ti & Hti & _).
    cbn in Hj. rewrite Hinit in Hj. injection Hj as <-. eauto. }
  assert (tasks (p1 [i]) !! init = Some ti) as Hti1 by (cbn; by rewrite lookup_insert_ne).
  runp (borrow_run (p1 [i]) init ti Hti1 ltac:(cbn; rewrite list_elem_of_singleton; auto)).
  change (set_borrowed _ _) with (p1 [init; i]).
  destruct (reparent_all init (children t) (p1 [init; i])) as (T & HT & Habs & Hfr).
  { cbn. rewrite lookup_insert_ne by done. eauto. }
  { intros c Hin. destruct (exit_child c Hin) as (? & ? & ? & _). done. }
  runp HT.
  assert (T !! i = Some dead) as HTi.
  { rewrite Hfr; [cbn; by rewrite lookup_insert_eq| |done]. intros Hin. by destruct (exit_child i Hin) as (_ & _ & _ & ?). }
  assert (∀ p, release init p = Ok ((), set_borrowed (filter (λ j, j ≠ init) (borrowed p)) p)) as Hrel by done.
  runp (Hrel (set_tasks (λ _, T) (p1 [init; i]))).
  set (p3 := set_borrowed _ _). assert (tasks p3 !! i = Some dead) as H3 by done.
  runp (modify_run p3 i dead (set_children []) H3). set (p4 := set_tasks _ p3).
  assert (tasks p4 !! i = Some (set_children [] dead)) as H4 by apply lookup_insert_eq.
  destruct (recycle_data_pages (memory_set t) (k_mem k)) as [[ms m']|e] eqn:Hrec.
  2: { apply M_bind_stop, in_mem_stop. exact Hrec. }
  rewrite (M_bind_run _ _ _ _ _ (in_mem_run _ (set_procs p4 k) _ _ Hrec)).
  change (set_mem m' (set_procs p4 k)) with (set_procs p4 (set_mem m' k)).
  runp (modify_run p4 i _ (set_memory_set ms) H4). set (p5 := set_tasks _ p4).
  assert (release i p5 = Ok ((), set_borrowed (filter (λ j, j ≠ i) (borrowed p5)) p5)) as H5 by done. runp H5.
  set (p6 := set_borrowed _ p5).
  assert (borrowed p6 = []) as Hb6.
  { change (filter (λ j, j ≠ i) (filter (λ j, j ≠ init) [init; i]) = []).
    rewrite filter_cons_False by auto. rewrite filter_cons_True by auto. by rewrite filter_cons_False by auto. }
  assert (tasks p6 !! i = Some (set_memory_set ms (set_children [] dead))) as Hi6 by apply lookup_insert_eq.
  assert (abs p6 = s_exit i (view_of t) init (abs (k_procs k))) as Habs6.
  { unfold abs, s_exit. f_equal; [|done..]. cbn [tasks p6 set_borrowed p5 set_tasks p4 p3]. rewrite insert_insert_eq.
    by apply exit_tasks. }
  exists p6. split_and!; try done.
  assert (sched_inv (abs p6)) as Hs6.
  { rewrite Habs6. apply exit_inv; try done; [apply Hp|by apply abs_lookup]. }
  unfold drop_task, drop_arc. cbn [k_procs set_procs]. rewrite decide_False; [done|].
  destruct (parent t) as [j|] eqn:Hpar.
  - destruct (sv_parent _ Hs6 i _ j (abs_lookup _ _ _ Hi6)) as (v & Hv & Hin); [done|].
    apply abs_lookup_inv in Hv as (tj & Htj & ->). by eapply child_ref.
  - pose proof (sv_orphan _ (proj1 Hp) i _ (abs_lookup _ _ _ Ht) Hpar) as Ho. cbn in Ho. congruence.
Qed.
End exit.

(** ** Fork *)
Lemma keeps_use {A} (f : K A) k a k' : f k = Ok (a, k') → keeps f → k_procs k' = k_procs k.
Proof. intros H Hf. by eapply Hf. Qed.

(** Take a successful computation apart. *)
Ltac inv_bind H a k1 H1 := apply M_bind_Ok in H as (a & k1 & H1 & H).
Ltac inv_procs H p Hp := apply in_procs_Ok in H as (p & Hp & ->); cbn [k_procs set_procs] in Hp.
(** A part that keeps the processes; the equation is chained with [E0]. *)
Ltac inv_keep H a k1 E0 E :=
  let H1 := fresh in
  apply M_bind_Ok in H as (a & k1 & H1 & H);
  apply keeps_use in H1 as E; [|solve [auto with keeps]]; cbn [k_procs set_procs] in E; try rewrite E0 in E; clear H1.

Lemma modify_Ok p i f u p' :
  modify_tcb i f p = Ok (u, p') → ∃ t, tasks p !! i = Some t ∧ p' = set_tasks <[i := f t]> p.
Proof.
  intros (t & p1 & H1 & H2)%M_bind_Ok. unfold get_tcb in H1. destruct (tasks p !! i) as [t0|]; [|done].
  simplify_eq. exists t. split; [done|]. by injection H2.
Qed.

Lemma fork_Ok syms tr self k c k' :
  borrowed (k_procs k) = [] → tasks (k_procs k) !! next_task (k_procs k) = None →
  fork syms tr self k = Ok (c, k') →
  ∃ t tc pid a, let p := k_procs k in
    tasks p !! self = Some t ∧ pa_alloc (pids p) = (pid, a) ∧ c = next_task p ∧
    view_of tc = mkView pid Ready (Some self) [] ∧
    k_procs k' = mkProcs a (<[self := set_children (children t ++ [c]) t]> (<[c := tc]> (tasks p))) (c + 1)
                   (ready_queue p) (current p) (initproc p) [].
Proof.
  intros Hb Hfresh H. unfold fork in H. inv_bind H t k1 H1. inv_procs H1 p1 Hp1.
  apply borrow_Ok in Hp1 as (Ht & _ & ->). rewrite Hb in H.
  set (p1 := set_borrowed [self] (k_procs k)) in H. assert (k_procs (set_procs p1 k) = p1) as E1 by done.
  inv_keep H ms k2 E1 E2. inv_keep H ppn k3 E2 E3.
  inv_bind H pid k4 H4. inv_procs H4 p4 Hp4. rewrite E3 in Hp4. unfold pid_alloc in Hp4.
  change (pids p1) with (pids (k_procs k)) in Hp4. destruct (pa_alloc (pids (k_procs k))) as [pid0 a] eqn:Hpa.
  injection Hp4 as -> <-. assert (k_procs (set_procs (set_pids a p1) k3) = set_pids a p1) as E4 by done.
  inv_keep H u5 k5 E4 E5.
  inv_bind H c6 k6 H6. inv_procs H6 p6 Hp6. rewrite E5 in Hp6. injection Hp6 as <- <-.
  inv_bind H u7 k7 H7. inv_procs H7 p7 Hp7. apply modify_Ok in Hp7 as (t7 & Ht7 & ->).
  cbn [tasks set_pids p1 set_borrowed next_task] in Ht7. rewrite lookup_insert_ne in Ht7 by congruence.
  rewrite Ht in Ht7. injection Ht7 as <-. set (p7 := set_tasks _ _) in H.
  inv_bind H ct k8 H8. apply keeps_use in H8 as E8; [|auto with keeps]. cbn [k_procs set_procs] in E8.
  inv_keep H u9 k9 E8 E9.
  inv_bind H u10 k10 H10. inv_procs H10 p10 Hp10. rewrite E9 in Hp10. injection Hp10 as _ <-. injection H as <- <-.
  exists t, (mkTCB pid ppn (base_size t) (Fresh (goto_trap_return tr (get_top pid))) Ready ms (Some self) [] 0 (fd_table t)).
  exists pid, a. split_and!; try done.
  cbn [k_procs set_procs]. unfold p7, p1, set_tasks, set_borrowed, set_pids.
  cbn [tasks pids ready_queue current initproc next_task borrowed].
  by rewrite filter_cons_False by auto.
Qed.

(** [getpid] and [current_task]. *)
Lemma the_task_run k i : current (k_procs k) = Some i → the_task k = Ok (i, k).
Proof.
  intros Hc. unfold the_task. rewrite (M_bind_run _ _ _ _ _ (in_procs_run current_task k (Some i) (k_procs k)
    ltac:(unfold current_task, gets; by rewrite Hc))). by rewrite set_procs_id.
Qed.

Lemma the_task_Ok k i o k1 : current (k_procs k) = Some i → the_task k = Ok (o, k1) → o = i ∧ k1 = k.
Proof. intros Hc H. rewrite (the_task_run k i Hc) in H. by injection H as <- <-. Qed.

Lemma fresh_task p : sched_inv (abs p) → tasks p !! next_task p = None.
Proof.
  intros Hs. destruct (tasks p !! next_task p) as [t|] eqn:E; [|done].
  pose proof (sv_next _ Hs _ (mk_is_Some _ _ (abs_lookup _ _ _ E))) as H. cbn in H. lia.
Qed.

(** The abstract step of the system call. *)
Lemma sys_fork_Ok syms tr k i o k' :
  procs_inv (k_procs k) → current (k_procs k) = Some i → sys_fork syms tr k = Ok (o, k') →
  ∃ t pid a, tasks (k_procs k) !! i = Some t ∧ pa_alloc (pids (k_procs k)) = (pid, a) ∧ o = Return (as_isize pid) ∧
    abs (k_procs k') = s_fork i (view_of t) pid a (abs (k_procs k)) ∧ borrowed (k_procs k') = [].
Proof.
  intros [Hs Hb] Hc H. unfold sys_fork in H. inv_bind H i' k1 H1. destruct (the_task_Ok _ _ _ _ Hc H1) as [-> ->].
  inv_bind H c k2 H2. apply fork_Ok in H2 as (t & ct & pid & a & Ht & Ha & -> & Hct & Ek2); [|done|by apply fresh_task].
  inv_bind H ct' k3 H3. inv_procs H3 p3 Hp3. rewrite Ek2 in Hp3. unfold get_tcb in Hp3. cbn [tasks] in Hp3.
  rewrite lookup_insert_ne, lookup_insert_eq in Hp3 by (intros ->; by rewrite (fresh_task _ Hs) in Ht).
  injection Hp3 as <- <-. rewrite <- Ek2, set_procs_id in H.
  inv_keep H ct' k4 Ek2 E4. inv_keep H u k5 E4 E5.
  inv_bind H u' k6 H6. inv_procs H6 p6 Hp6. rewrite E5 in Hp6. injection Hp6 as _ <-. injection H as <- <-.
  exists t, pid, a. split_and!; try done.
  - do 2 f_equal. change (tcb_pid ct) with (v_pid (view_of ct)). by rewrite Hct.
  - cbn [k_procs set_procs]. unfold abs, s_fork, set_ready. cbn [tasks pids ready_queue current initproc next_task].
    by rewrite !fmap_insert, Hct.
Qed.
