(* ===== verification/KWait.v ===== *)
(** * KWait: waiting for a child

    What [sys_waitpid] does, in every case: no child matches, none that
    matches has exited, or the first that has is taken out of the tree.  Its
    block then has exactly one reference left, so the assertion on
    [Arc::strong_count] holds, and dropping that reference frees the child. *)

From stdpp Require Import base gmap list numbers.
From S2P Require Import Prelude Bytes Address FrameAllocator PageTable MemorySet Pid KState Task OsFile Syscall.
From S2P Require Import Sched KKeeps KRefine.

(** ** Looking for a child *)
Definition child_matches (p : procs) (pid c : Z) : bool :=
  match tasks p !! c with Some t => pid_matches pid t | None => false end.
Definition child_dead (p : procs) (pid c : Z) : bool :=
  match tasks p !! c with Some t => is_zombie t && pid_matches pid t | None => false end.

Lemma any_child_run p pid l :
  (∀ c, c ∈ l → is_Some (tasks p !! c)) → any_child pid l p = Ok (existsb (child_matches p pid) l, p).
Proof.
  induction l as [|c l IH]; intros Hl; [done|]. destruct (Hl c) as [t Ht]; [elt|]. cbn [any_child existsb].
  run (get_tcb_run p c t Ht). unfold child_matches at 1. rewrite Ht. destruct (pid_matches pid t); [done|].
  apply IH. intros d Hd. apply Hl. elt.
Qed.

Lemma find_zombie_run p pid l : ∀ n,
  (∀ c, c ∈ l → is_Some (tasks p !! c) ∧ c ∉ borrowed p) →
  find_zombie pid l n p = Ok ((λ x, n + x.1)%nat <$> list_find (λ c, child_dead p pid c) l, p).
Proof.
  induction l as [|c l IH]; intros n Hl; [done|]. destruct (Hl c) as [[t Ht] Hb]; [elt|]. cbn [find_zombie list_find].
  run (access_run p c t Ht Hb).
  replace (is_zombie t && pid_matches pid t) with (child_dead p pid c) by (unfold child_dead; by rewrite Ht).
  destruct (child_dead p pid c) eqn:E.
  - rewrite decide_True by done. cbn. by rewrite Nat.add_0_r.
  - rewrite decide_False by auto. rewrite IH by (intros d Hd; apply Hl; elt).
    destruct (list_find _ l) as [[j d]|]; [|done]. cbn. do 3 f_equal. lia.
Qed.

(** ** The references to a child that was taken out *)
Section wait.
Context (k : kernel) (i : Z) (t : TCB).
Notation p := (k_procs k).
Hypothesis Hp : procs_inv p.
Hypothesis Hc : current p = Some i.
Hypothesis Ht : tasks p !! i = Some t.

Lemma wait_child c : c ∈ children t → ∃ ct, tasks p !! c = Some ct ∧ parent ct = Some i ∧ c ≠ i.
Proof using Hp Hc Ht.
  intros Hin. destruct (sv_child _ (proj1 Hp) i (view_of t) c (abs_lookup _ _ _ Ht) Hin) as (vc & Hvc & Hpar).
  pose proof (sv_order _ (proj1 Hp) _ _ _ Hvc Hpar). apply abs_lookup_inv in Hvc as (ct & Hct & ->).
  exists ct. split_and!; try done. lia.
Qed.

Context (idx : nat) (c : Z) (ct : TCB).
Hypothesis Hidx : children t !! idx = Some c.
Hypothesis Hct : tasks p !! c = Some ct.
Hypothesis Hz : task_status ct = Zombie.

(** The processes without the child in its parent's list. *)
Definition unlinked : procs := set_tasks <[i := set_children (delete idx (children t)) t]> p.

Lemma unlinked_child : c ≠ i.
Proof using Hp Hc Ht Hidx. by destruct (wait_child c (list_elem_of_lookup_2 _ _ _ Hidx)) as (_ & _ & _ & ?). Qed.

Lemma unlinked_free : strong_count unlinked [] c = 0%nat.
Proof using All.
  pose proof Hp as [Hs _]. pose proof (abs_lookup _ _ _ Hct) as Hvc. unfold strong_count, unlinked, set_tasks. cbn [tasks ready_queue current initproc].
  rewrite refs_in_zero.
  2: { intros (l & Hcl & Hl)%elem_of_concat. apply list_elem_of_fmap in Hl as ([j tj] & -> & Hj).
    apply elem_of_map_to_list, lookup_insert_Some in Hj as [[<- <-]|[Hne Hj]].
    - destruct (delete_nodup _ _ _ (sv_children _ Hs _ _ (abs_lookup _ _ _ Ht)) Hidx) as [_ Hd]. by apply Hd in Hcl as [_ ?].
    - destruct (sv_child _ Hs j (view_of tj) c (abs_lookup _ _ _ Hj) Hcl) as (vc & Hvc' & Hpar).
      destruct (wait_child c (list_elem_of_lookup_2 _ _ _ Hidx)) as (ct' & Hct' & Hpar' & _).
      apply abs_lookup_inv in Hvc' as (ct2 & Hct2 & ->). cbn in Hpar. congruence. }
  rewrite refs_in_zero. 2: { intros Hr. apply (sv_ready _ Hs) in Hr as (v & Hv & Hst). rewrite Hvc in Hv. injection Hv as <-. cbn in Hst. congruence. }
  unfold opt_refs. rewrite decide_False by (rewrite Hc; pose proof unlinked_child; congruence).
  rewrite decide_False; [done|]. intros Hi. destruct (sv_init _ Hs) as (i0 & v0 & Hi0 & Hv0 & Hnz & _).
  cbn in Hi0. rewrite Hi in Hi0. injection Hi0 as <-. rewrite Hvc in Hv0. injection Hv0 as <-. done.
Qed.

(** [child], and [task] itself, are local variables of [sys_waitpid]. *)
Lemma unlinked_once : strong_count unlinked [c; i] c = 1%nat.
Proof using All.
  pose proof unlinked_free as H. pose proof unlinked_child.
  assert (refs_in c [c; i] = 1%nat) as E by (unfold refs_in; by rewrite filter_cons_True, filter_cons_False by auto).
  unfold strong_count in *. rewrite E. change (refs_in c []) with 0%nat in H. lia.
Qed.

(** ** Freeing the child

    Its block has no children, so only its own resources go. *)
Lemma drop_child_Ok (k2 : kernel) u k3 :
  k_procs k2 = set_borrowed [i] unlinked → drop_task c k2 = Ok (u, k3) →
  ∃ a, pa_dealloc (tcb_pid ct) (pids p) = Ok a ∧
    k_procs k3 = set_pids a (set_tasks (delete c) (set_borrowed [i] unlinked)).
Proof using All.
  intros E2 H. unfold drop_task in H. cbn [drop_arc] in H. rewrite E2 in H.
  change (strong_count (set_borrowed [i] unlinked) [] c) with (strong_count unlinked [] c) in H.
  rewrite decide_True in H by apply unlinked_free.
  assert (tasks (set_borrowed [i] unlinked) !! c = Some ct) as Hct'.
  { cbn. rewrite lookup_insert_ne; [done|]. pose proof unlinked_child. congruence. }
  rewrite <- (set_procs_id k2), E2 in H. rewrite (in_procs_bind _ _ _ _ _ _ (get_tcb_run _ _ _ Hct')) in H.
  rewrite (in_procs_bind _ _ _ _ _ _ (eq_refl (Ok ((), set_tasks (delete c) (set_borrowed [i] unlinked))))) in H.
  inv_bind H u1 k4 H4. inv_procs H4 p4 Hp4. unfold pid_dealloc in Hp4.
  change (pids _) with (pids p) in Hp4.
  destruct (pa_dealloc (tcb_pid ct) (pids p)) as [a|]; [|done]. injection Hp4 as _ <-.
  exists a. split; [done|]. set (p4 := set_pids _ _) in H.
  inv_keep H u5 k5 E2 E5. inv_keep H u6 k6 E5 E6.
  assert (children ct = []) as Hnil by exact (sv_zombie _ (proj1 Hp) c _ (abs_lookup _ _ _ Hct) Hz).
  rewrite Hnil in H. by injection H as _ <-.
Qed.
End wait.

(** ** The system call *)

(** What is left to do once the child is unlinked: store its exit code, free
    it, return its identifier. *)
Definition wait_rest (i : Z) (t : TCB) (c : Z) (ct : TCB) (exit_code_ptr : Z) : K outcome :=
  in_mem (translated_refmut (get_user_token t) exit_code_ptr) ≫= λ pa,
  in_mem (store_bytes pa (le_bytes 4 (exit_code ct))) ≫= λ _,
  drop_task c ≫= λ _, in_procs (release i) ≫= λ _, mret (Return (as_isize (tcb_pid ct))).

Lemma release_last p i : borrowed p = [] → release i (set_borrowed [i] p) = Ok ((), p).
Proof.
  intros Hb. unfold release, modify_st. do 2 f_equal. cbn [borrowed set_borrowed]. rewrite filter_cons_False by auto.
  destruct p. cbn in *. by subst.
Qed.

Lemma child_dead_inv p pid c : child_dead p pid c →
  ∃ ct, tasks p !! c = Some ct ∧ task_status ct = Zombie ∧ pid_matches pid ct.
Proof.
  unfold child_dead. destruct (tasks p !! c) as [ct|]; [|done]. intros [Hz Hm]%andb_prop_elim. exists ct.
  split_and!; [done| |done]. unfold is_zombie in Hz. by apply bool_decide_unpack in Hz.
Qed.

Lemma wait_run k i t pid ptr :
  procs_inv (k_procs k) → current (k_procs k) = Some i → tasks (k_procs k) !! i = Some t →
  sys_waitpid pid ptr k =
    if existsb (child_matches (k_procs k) pid) (children t) then
      match list_find (λ c, child_dead (k_procs k) pid c) (children t) with
      | None => Ok (Return (-2), k)
      | Some (idx, c) =>
          match tasks (k_procs k) !! c with
          | Some ct => wait_rest i t c ct ptr (set_procs (set_borrowed [i] (unlinked k i t idx)) k)
          | None => Stop Undefined
          end
      end
    else Ok (Return (-1), k).
Proof.
  intros Hp Hc Ht. pose proof Hp as [Hs Hb]. pose proof (wait_child k i t Hp Hc Ht) as Hch.
  unfold sys_waitpid. run (the_task_run k i Hc). rewrite <- (set_procs_id k) at 1.
  runp (borrow_run (k_procs k) i t Ht ltac:(rewrite Hb; apply not_elem_of_nil)). rewrite Hb.
  set (p1 := set_borrowed [i] (k_procs k)).
  assert (any_child pid (children t) p1 = Ok (existsb (child_matches (k_procs k) pid) (children t), p1)) as Hany.
  { apply (any_child_run p1). intros c Hin. destruct (Hch c Hin) as (ct & Hct & _). eauto. }
  runp Hany. destruct (existsb _ _); cbn [negb].
  2: { runp (release_last (k_procs k) i Hb). by rewrite set_procs_id. }
  pose proof (find_zombie_run p1 pid (children t) 0) as Hfind.
  rewrite (in_procs_bind _ _ _ _ _ _ (Hfind ltac:(intros c Hin; destruct (Hch c Hin) as (ct & Hct & _ & Hne);
    split; [eauto|by cbn; rewrite list_elem_of_singleton]))). clear Hfind.
  change (list_find (λ c, child_dead p1 pid c) (children t)) with (list_find (λ c, child_dead (k_procs k) pid c) (children t)).
  destruct (list_find _ _) as [[idx c]|] eqn:Hf; cbn [fmap option_fmap option_map fst].
  2: { runp (release_last (k_procs k) i Hb). by rewrite set_procs_id. }
  apply list_find_Some in Hf as (Hidx & (ct & Hct & Hz & _)%child_dead_inv & _). rewrite Hct. cbn [Nat.add].
  rewrite Hidx, M_unwrap_bind. runp (modify_run p1 i t (set_children (delete idx (children t))) Ht).
  change (set_tasks _ p1) with (set_borrowed [i] (unlinked k i t idx)). set (p2 := set_borrowed _ _).
  assert (strong_count p2 [c; i] c = 1%nat) as Hn by exact (unlinked_once k i t Hp Hc Ht idx c ct Hidx Hct Hz).
  assert (gets (λ k0, strong_count (k_procs k0) [c; i] c) (set_procs p2 k) = Ok (1%nat, set_procs p2 k)) as Hgets
    by (rewrite <- Hn; done).
  run Hgets.
  rewrite M_assert_bind by done. pose proof (unlinked_child k i t Hp Hc Ht idx c Hidx) as Hne.
  assert (tasks p2 !! c = Some ct) as Hct2 by (cbn; by rewrite lookup_insert_ne by congruence).
  runp (get_tcb_run p2 c ct Hct2). runp (access_run p2 c ct Hct2 ltac:(cbn; by rewrite list_elem_of_singleton)). done.
Qed.

(** The rest, when it succeeds, is the abstract step. *)
Lemma wait_rest_Ok k i t idx c ct ptr o k' :
  procs_inv (k_procs k) → current (k_procs k) = Some i → tasks (k_procs k) !! i = Some t →
  children t !! idx = Some c → tasks (k_procs k) !! c = Some ct → task_status ct = Zombie →
  wait_rest i t c ct ptr (set_procs (set_borrowed [i] (unlinked k i t idx)) k) = Ok (o, k') →
  ∃ a, o = Return (as_isize (tcb_pid ct)) ∧ pa_dealloc (tcb_pid ct) (pids (k_procs k)) = Ok a ∧
    abs (k_procs k') = s_reap i (view_of t) c idx a (abs (k_procs k)) ∧ borrowed (k_procs k') = [].
Proof.
  intros Hp Hc Ht Hidx Hct Hz H. set (p1 := set_borrowed [i] (unlinked k i t idx)) in H. unfold wait_rest in H.
  inv_keep H pa k1 Ht E1. inv_keep H u k2 E1 E2. inv_bind H u' k3 H3.
  destruct (drop_child_Ok k i t Hp Hc Ht idx c ct Hidx Hct Hz k2 _ _ E2 H3) as (a & Ha & E3).
  inv_bind H u5 k5 H5. inv_procs H5 p5 Hp5. rewrite E3 in Hp5. injection Hp5 as _ <-. injection H as <- <-.
  exists a. split_and!; try done; cbn [k_procs set_procs].
  - unfold abs, s_reap. f_equal. cbn [tasks set_borrowed set_pids set_tasks unlinked p1].
    by rewrite fmap_delete, fmap_insert.
  - cbn [borrowed set_borrowed set_pids set_tasks unlinked]. by rewrite filter_cons_False by auto.
Qed.

(** A wait that succeeds is a step of the specification, or changes nothing. *)
Lemma sys_waitpid_Ok k i pid ptr o k' :
  procs_inv (k_procs k) → current (k_procs k) = Some i → sys_waitpid pid ptr k = Ok (o, k') →
  (k' = k ∧ (o = Return (-1) ∨ o = Return (-2))) ∨
  ∃ t idx c ct a, tasks (k_procs k) !! i = Some t ∧ children t !! idx = Some c ∧ tasks (k_procs k) !! c = Some ct ∧
    task_status ct = Zombie ∧ o = Return (as_isize (tcb_pid ct)) ∧
    pa_dealloc (tcb_pid ct) (pids (k_procs k)) = Ok a ∧
    abs (k_procs k') = s_reap i (view_of t) c idx a (abs (k_procs k)) ∧ borrowed (k_procs k') = [].
Proof.
  intros Hp Hc H. destruct (current_block _ _ Hp Hc) as (t & Ht & _). rewrite (wait_run k i t pid ptr Hp Hc Ht) in H.
  destruct (existsb _ _); [|left; injection H as <- <-; auto].
  destruct (list_find _ _) as [[idx c]|] eqn:Hf; [|left; injection H as <- <-; auto]. right.
  apply list_find_Some in Hf as (Hidx & (ct & Hct & Hz & _)%child_dead_inv & _). rewrite Hct in H.
  destruct (wait_rest_Ok _ _ _ _ _ _ _ _ _ Hp Hc Ht Hidx Hct Hz H) as (a & Ho & Ha & Habs & Hb).
  by exists t, idx, c, ct, a.
Qed.
