(* ===== verification/KSteps.v ===== *)
(** * KSteps: every step of the kernel refines the process specification

    System calls either leave the processes alone or are one abstract step;
    traps and turns of the idle flow are made of them.  So the invariant of
    [Sched] holds as long as the kernel runs ([nsteps_inv]). *)

From stdpp Require Import base gmap list numbers relations.
From S2P Require Import Prelude Bytes Address FrameAllocator PageTable MemorySet Pid KState Task OsFile Syscall.
From S2P Require Import Sched KKeeps KRefine KWait.

(** ** Code that does not change the abstract state *)
Definition quiet {A} (f : K A) : Prop := ∀ k a k',
  borrowed (k_procs k) = [] → f k = Ok (a, k') → abs (k_procs k') = abs (k_procs k) ∧ borrowed (k_procs k') = [].

Create HintDb quiet.

Lemma quiet_keeps {A} (f : K A) : keeps f → quiet f.
Proof. intros Hf k a k' Hb ->%Hf. done. Qed.
Lemma quiet_bind {A B} (f : K A) (g : A → K B) : quiet f → (∀ a, quiet (g a)) → quiet (f ≫= g).
Proof.
  intros Hf Hg k b k' Hb (a & k1 & H1 & H2)%M_bind_Ok. apply Hf in H1 as [E1 Hb1]; [|done].
  apply Hg in H2 as [E2 Hb2]; [|done]. split; [congruence|done].
Qed.

(** A block that is read, changed outside its view and written back. *)
Lemma abs_put p i t t' : tasks p !! i = Some t → view_of t' = view_of t → abs (set_tasks <[i := t']> p) = abs p.
Proof.
  intros Ht Hv. unfold abs, set_tasks. cbn. f_equal. rewrite fmap_insert, Hv. apply insert_id. by rewrite lookup_fmap, Ht.
Qed.
Lemma access_Ok p i t p' : access i p = Ok (t, p') → p' = p ∧ tasks p !! i = Some t.
Proof.
  intros H. assert (p' = p) as -> by (by eapply reads_access). split; [done|].
  apply M_bind_Ok in H as (b & p1 & [= <- <-] & H). apply M_bind_Ok in H as (u & p2 & H1 & H).
  assert (p2 = p) as -> by (by eapply reads_assert). unfold get_tcb in H. destruct (tasks p !! i); [|done].
  by injection H as ->.
Qed.
Lemma quiet_access {B} i (g : TCB → K B) :
  (∀ k t b k', borrowed (k_procs k) = [] → tasks (k_procs k) !! i = Some t → g t k = Ok (b, k') →
     abs (k_procs k') = abs (k_procs k) ∧ borrowed (k_procs k') = []) →
  quiet (in_procs (access i) ≫= g).
Proof.
  intros Hg k b k' Hb (t & k1 & H1 & H2)%M_bind_Ok. apply in_procs_Ok in H1 as (p & [-> Ht]%access_Ok & ->).
  rewrite set_procs_id in H2. by eapply Hg.
Qed.
Lemma put_quiet {B} i t t' (b b' : B) k k' :
  borrowed (k_procs k) = [] → tasks (k_procs k) !! i = Some t → view_of t' = view_of t →
  (in_procs (put_tcb i t') ≫= λ _, mret b) k = Ok (b', k') →
  abs (k_procs k') = abs (k_procs k) ∧ borrowed (k_procs k') = [].
Proof.
  intros Hb Ht Hv (u & k1 & H1 & [= <- <-])%M_bind_Ok. apply in_procs_Ok in H1 as (p & [= _ <-] & ->).
  split; [by apply (abs_put _ i t)|done].
Qed.

(** ** Quiet system calls *)
Lemma keeps_read_whole fuel id : keeps (read_all fuel id).
Proof. apply keeps_read_all. Qed.
#[export] Hint Resolve keeps_read_whole : keeps.

Lemma quiet_open fuel path flags : quiet (sys_open fuel path flags).
Proof.
  unfold sys_open. do 5 (apply quiet_bind; [apply quiet_keeps; auto with keeps|intros ?]).
  case_match; [|apply quiet_keeps; auto with keeps]. apply quiet_access. intros k t b k' Hb Ht Hput.
  destruct (alloc_fd t) as [fd t'] eqn:Hfd. eapply put_quiet; [done|exact Ht| |exact Hput].
  unfold alloc_fd in Hfd. case_match; [case_match|]; by injection Hfd as <- <-.
Qed.

Lemma quiet_close fd : quiet (sys_close fd).
Proof.
  unfold sys_close. apply quiet_bind; [apply quiet_keeps; auto with keeps|intros i]. apply quiet_access.
  intros k t b k' Hb Ht H. destruct (_ <=? fd); [by injection H as <- <-|].
  destruct (fd_table t !! Z.to_nat fd) as [[f|]|]; [|by injection H as <- <-..].
  eapply put_quiet; [done|exact Ht| |exact H]. done.
Qed.

Lemma quiet_write fd buf len : quiet (sys_write fd buf len).
Proof. apply quiet_keeps. unfold sys_write. keeps. Qed.
Lemma quiet_get_time : quiet sys_get_time.
Proof. apply quiet_keeps. unfold sys_get_time, get_time_ms, get_time. keeps. Qed.
Lemma quiet_getpid : quiet sys_getpid.
Proof. apply quiet_keeps. unfold sys_getpid. keeps. Qed.
#[export] Hint Resolve quiet_open quiet_close quiet_write quiet_get_time quiet_getpid : quiet.

Section exec.
Context (ElfFile_new : list Z → option ElfFile) (syms : kernel_symbols) (th : Z).

Lemma quiet_exec self data : quiet (exec ElfFile_new syms th self data).
Proof.
  intros k b k' Hb H. unfold exec in H. inv_bind H r k1 H1. apply keeps_use in H1 as E1; [|auto with keeps].
  destruct r as [[ms sp] entry]. inv_keep H ppn k2 E1 E2.
  inv_bind H t k3 H3. inv_procs H3 p3 Hp3. apply borrow_Ok in Hp3 as (Ht & _ & ->). rewrite E2, Hb in H. rewrite E2 in Ht.
  inv_keep H u4 k4 E1 E4.
  inv_bind H u5 k5 H5. inv_procs H5 p5 Hp5. apply modify_Ok in Hp5 as (t5 & Ht5 & ->). rewrite E4 in Ht5, H.
  inv_bind H u6 k6 H6. inv_procs H6 p6 Hp6. apply modify_Ok in Hp6 as (t6 & Ht6 & ->).
  cbn [tasks set_tasks set_borrowed] in Ht5, Ht6. rewrite lookup_insert_eq in Ht6. rewrite Ht in Ht5.
  injection Ht5 as <-. injection Ht6 as <-.
  inv_keep H st k7 E1 E7. inv_keep H satp k8 E7 E8. inv_keep H u9 k9 E8 E9.
  inv_procs H p10 Hp10. rewrite E9 in Hp10. injection Hp10 as _ <-. cbn [k_procs set_procs].
  unfold set_tasks, set_borrowed. cbn [tasks pids ready_queue current initproc next_task borrowed].
  rewrite filter_cons_False, insert_insert_eq by auto. split; [|done].
  exact (abs_put (k_procs k) self t (set_trap_cx_ppn ppn (set_memory_set ms t)) Ht eq_refl).
Qed.

Lemma quiet_sys_exec fuel path : quiet (sys_exec ElfFile_new syms th fuel path).
Proof.
  unfold sys_exec. do 3 (apply quiet_bind; [apply quiet_keeps; auto with keeps|intros ?]).
  case_match; [|apply quiet_keeps; auto with keeps]. do 2 (apply quiet_bind; [apply quiet_keeps; auto with keeps|intros ?]).
  apply quiet_bind; [apply quiet_exec|intros []]. apply quiet_keeps. auto with keeps.
Qed.
End exec.
#[export] Hint Resolve quiet_sys_exec : quiet.

(** ** Refinement

    [sim p p']: going from [p] to [p'] is a sequence of abstract steps that
    takes at most one new identifier. *)
Definition sim (p p' : procs) : Prop :=
  rtc sstep (abs p) (abs p') ∧ borrowed p' = [] ∧ pa_current (pids p') ≤ pa_current (pids p) + 1.

(** Room for one more identifier. *)
Definition pid_room (p : procs) : Prop := pa_current (pids p) + 1 < 2 ^ 64 - 1.

Definition after (i : Z) (o : outcome) : option Z := match o with Return _ => Some i | _ => None end.

Definition refines (f : K outcome) : Prop := ∀ k i o k',
  procs_inv (k_procs k) → pid_room (k_procs k) → current (k_procs k) = Some i → f k = Ok (o, k') →
  sim (k_procs k) (k_procs k') ∧ current (k_procs k') = after i o.

Lemma sim_inv p p' : procs_inv p → sim p p' → procs_inv p'.
Proof. intros [Hs _] (Hst & Hb & _). split; [by eapply ssteps_inv|done]. Qed.
Lemma sim_same p p' : abs p' = abs p → borrowed p' = [] → sim p p'.
Proof.
  intros E Hb. split; [rewrite E; constructor|]. split; [done|]. change (pids p') with (s_pids (abs p')). rewrite E. cbn. lia.
Qed.
Lemma sim_keeps p p' p'' : sim p p' → p'' = p' → sim p p''.
Proof. by intros ? ->. Qed.
(** One abstract step, whichever it is. *)
Lemma sstep_current s s' :
  sched_inv s → pa_current (s_pids s) + 1 < 2 ^ 64 - 1 → sstep s s' →
  pa_current (s_pids s') ≤ pa_current (s_pids s) + 1.
Proof.
  intros Hs Hb H. destruct H as [| |s i v pid a Hc Hi _ Ha| |s i v c vc idx a Hc Hi Hch Hvc Hz Ha]; cbn; try lia.
  - destruct (sv_pids _ Hs) as (U & [Hr _ _ _] & _). unfold pa_alloc in Ha. case_match; injection Ha as <- <-; cbn; [|lia].
    change (2 ^ 64) with 18446744073709551616 in Hb, Hr. rewrite uadd_small by (mach_unfold; lia). lia.
  - unfold pa_dealloc in Ha. destruct (v_pid vc <? pa_current (s_pids s)); [|done]. cbn in Ha.
    destruct (negb _); [|done]. injection Ha as <-. cbn. lia.
Qed.
Lemma sim_step p p' : procs_inv p → pid_room p → sstep (abs p) (abs p') → borrowed p' = [] → sim p p'.
Proof.
  intros [Hs _] Hr Hst Hb. split; [by apply rtc_once|]. split; [done|].
  exact (sstep_current (abs p) (abs p') Hs Hr Hst).
Qed.

(** Code that always returns to its caller. *)
Definition returns (f : K outcome) : Prop := ∀ k o k', f k = Ok (o, k') → ∃ r, o = Return r.

Lemma returns_ret r : returns (mret (Return r)).
Proof. intros k o k' [= <- _]. eauto. Qed.
Lemma returns_bind {A} (f : K A) (g : A → K outcome) : (∀ a, returns (g a)) → returns (f ≫= g).
Proof. intros Hg k o k' (a & k1 & _ & H)%M_bind_Ok. by eapply Hg. Qed.
Ltac returns := repeat first [ progress intros | apply returns_bind | apply returns_ret | progress case_match ].

Lemma quiet_refines f : quiet f → returns f → refines f.
Proof.
  intros Hf Hr k i o k' Hp _ Hc H. destruct Hp as [Hs Hb]. destruct (Hr _ _ _ H) as [r ->].
  destruct (Hf _ _ _ Hb H) as [E Hb']. split; [by apply sim_same|].
  change (current (k_procs k')) with (s_current (abs (k_procs k'))). by rewrite E.
Qed.

(** Code that leaves the processes alone, then code that refines. *)
Lemma refines_bind {A} (f : K A) (g : A → K outcome) : keeps f → (∀ a, refines (g a)) → refines (f ≫= g).
Proof.
  intros Hf Hg k i o k' Hp Hr Hc (a & k1 & H1 & H2)%M_bind_Ok. apply Hf in H1 as E. rewrite <- E in *. by eapply Hg.
Qed.
Lemma refines_keeps f : keeps f → returns f → refines f.
Proof. intros Hf. by apply quiet_refines, quiet_keeps. Qed.

Lemma refines_suspend c : refines (in_procs (suspend_current_and_run_next c) ≫= λ _, mret Suspended).
Proof.
  intros k i o k' Hp Hr Hc (u & k1 & H1 & [= <- <-])%M_bind_Ok. apply in_procs_Ok in H1 as (p & H1 & ->).
  destruct (suspend_refines _ i c Hp Hc) as (p' & H2 & Hst & Hc' & Hb' & _). rewrite H1 in H2. injection H2 as _ ->.
  split; [by apply sim_step|done].
Qed.
#[export] Hint Resolve refines_suspend : quiet.

Lemma exit_Ok k i code u k' :
  procs_inv (k_procs k) → current (k_procs k) = Some i → exit_current_and_run_next code k = Ok (u, k') →
  sstep (abs (k_procs k)) (abs (k_procs k')) ∧ borrowed (k_procs k') = [] ∧ current (k_procs k') = None.
Proof.
  intros Hp Hc H. destruct (current_block _ _ Hp Hc) as (t & Ht & _).
  destruct (sv_init _ (proj1 Hp)) as (init & v & Hi & _). cbn in Hi.
  destruct (decide (i = init)) as [Heq|Hne]; [by rewrite (exit_initproc k i init t code Hp Hc Ht Hi Heq) in H|].
  pose proof (exit_run k i init t code Hp Hc Ht Hi Hne) as E. destruct (recycle_data_pages _ _) as [[ms m']|e]; [|by rewrite E in H].
  destruct E as (p' & E & Habs & Hb & _). rewrite E in H. injection H as _ <-. cbn [k_procs set_procs set_mem].
  rewrite Habs. split_and!; [|done|].
  - eapply ss_exit; [done|by apply abs_lookup|done|done].
  - change (current p') with (s_current (abs p')). by rewrite Habs.
Qed.

Lemma refines_exit code : refines (exit_current_and_run_next code ≫= λ _, mret Exited).
Proof.
  intros k i o k' Hp Hr Hc (u & k1 & H1 & [= <- <-])%M_bind_Ok. destruct (exit_Ok _ _ _ _ _ Hp Hc H1) as (Hst & Hb & Hc').
  split; [by apply sim_step|done].
Qed.
#[export] Hint Resolve refines_exit : quiet.

(** ** System calls *)
Lemma refines_stdin_turn buf : refines (stdin_turn buf).
Proof.
  unfold stdin_turn. apply refines_bind; [auto with keeps|intros c]. destruct (c =? 0); [auto with quiet|].
  apply refines_keeps; [keeps|returns].
Qed.
Lemma refines_read fd buf len : refines (sys_read fd buf len).
Proof.
  unfold sys_read. do 3 (apply refines_bind; [auto with keeps|intros ?]). repeat case_match; try (by apply refines_keeps; [keeps|returns]).
  apply refines_bind; [auto with keeps|intros r]. destruct r; cbn [negb]; [|by apply refines_keeps; [keeps|returns]].
  apply refines_bind; [auto with keeps|intros b]. destruct f; cbn [file_read].
  - apply refines_bind; [auto with keeps|intros ?]. apply refines_stdin_turn.
  - done.
  - apply refines_keeps; [unfold os_read; keeps|returns].
Qed.

Section calls.
Context (ElfFile_new : list Z → option ElfFile) (syms : kernel_symbols) (th tr : Z) (fuel : nat).

Lemma refines_fork : refines (sys_fork syms tr).
Proof.
  intros k i o k' Hp Hr Hc H. destruct (sys_fork_Ok _ _ _ _ _ _ Hp Hc H) as (t & pid & a & Ht & Ha & -> & Habs & Hb).
  split.
  - apply sim_step; try done. rewrite Habs. apply ss_fork; [done|by apply abs_lookup|done|done].
  - change (current (k_procs k')) with (s_current (abs (k_procs k'))). by rewrite Habs.
Qed.
Lemma refines_waitpid pid ptr : refines (sys_waitpid pid ptr).
Proof.
  intros k i o k' Hp Hr Hc H.
  destruct (sys_waitpid_Ok _ _ _ _ _ _ Hp Hc H) as [[-> Ho]|(t & idx & c & ct & a & Ht & Hidx & Hct & Hz & -> & Ha & Habs & Hb)].
  - split; [apply sim_same; [done|apply Hp]|]. by destruct Ho as [-> | ->].
  - split.
    + apply sim_step; try done. rewrite Habs. eapply ss_reap; [done|by apply abs_lookup|done|by apply abs_lookup|done|done].
    + change (current (k_procs k')) with (s_current (abs (k_procs k'))). by rewrite Habs.
Qed.

Lemma syscall_refines id a0 a1 a2 : refines (syscall ElfFile_new syms th tr fuel id a0 a1 a2).
Proof.
  unfold syscall. repeat (case_match; [clear|]); [..|done].
  - apply quiet_refines; [auto with quiet|]. unfold sys_open. returns.
  - apply quiet_refines; [auto with quiet|]. unfold sys_close. returns.
  - apply refines_read.
  - apply quiet_refines; [auto with quiet|]. unfold sys_write. returns.
  - apply refines_exit.
  - apply refines_suspend.
  - apply quiet_refines; [auto with quiet|]. unfold sys_get_time. returns.
  - apply quiet_refines; [auto with quiet|]. unfold sys_getpid. returns.
  - apply refines_fork.
  - apply quiet_refines; [auto with quiet|]. unfold sys_exec. returns.
  - apply refines_waitpid.
Qed.
End calls.

(** ** Traps and turns *)
Lemma finish_Ok o k r k' : finish_syscall o k = Ok (r, k') →
  k_procs k' = k_procs k ∧ (r = None ↔ match o with Return _ => False | _ => True end).
Proof.
  intros H. split; [by eapply keeps_finish|]. destruct o; cbn [finish_syscall] in H; [|by injection H as <- <-..].
  do 3 (apply M_bind_Ok in H as (? & ? & _ & H)). by injection H as <- <-.
Qed.

(** The processor after a trap or a turn, by what user mode continues with. *)
Definition runs_on (i : Z) (r : option Z) (p : procs) : Prop := current p = if r is Some _ then Some i else None.

Lemma refines_finish f k i r k' :
  refines f → procs_inv (k_procs k) → pid_room (k_procs k) → current (k_procs k) = Some i →
  (f ≫= finish_syscall) k = Ok (r, k') → sim (k_procs k) (k_procs k') ∧ runs_on i r (k_procs k').
Proof.
  intros Hf Hp Hr Hc (o & k1 & H1 & [E Ho]%finish_Ok)%M_bind_Ok. destruct (Hf _ _ _ _ Hp Hr Hc H1) as [Hsim Hcur].
  unfold runs_on. rewrite E. split; [done|]. rewrite Hcur. destruct o, r; cbn; try done; naive_solver.
Qed.

Lemma sim_then p p1 p2 : sstep (abs p) (abs p1) → pids p1 = pids p → sim p1 p2 → sim p p2.
Proof. intros Hst Hpids (H1 & H2 & H3). split; [by eapply rtc_l|]. split; [done|]. by rewrite <- Hpids. Qed.

Section steps.
Context (ElfFile_new : list Z → option ElfFile) (syms : kernel_symbols) (th tr : Z) (fuel : nat).

Lemma trap_refines cause k i r k' :
  procs_inv (k_procs k) → pid_room (k_procs k) → current (k_procs k) = Some i →
  trap_handler ElfFile_new syms th tr fuel cause k = Ok (r, k') →
  sim (k_procs k) (k_procs k') ∧ runs_on i r (k_procs k').
Proof.
  intros Hp Hr Hc H.
  assert (∀ code, (exit_current_and_run_next code ≫= λ _, mret None) k = Ok (r, k') →
    sim (k_procs k) (k_procs k') ∧ runs_on i r (k_procs k')) as Hexit.
  { intros code (u & k1 & H1 & [= <- <-])%M_bind_Ok. destruct (exit_Ok _ _ _ _ _ Hp Hc H1) as (Hst & Hb & Hc').
    split; [by apply sim_step|done]. }
  destruct cause; cbn [trap_handler] in H; try done; try (by eapply Hexit).
  - inv_bind H cx k1 H1. apply keeps_use in H1 as E1; [|auto with keeps].
    inv_keep H sepc k2 E1 E2. inv_keep H u k3 E2 E3. inv_keep H a7 k4 E3 E4. inv_keep H a0 k5 E4 E5.
    inv_keep H a1 k6 E5 E6. inv_keep H a2 k7 E6 E7. rewrite <- E7 in *.
    eapply refines_finish; [apply syscall_refines|done..].
  - inv_bind H u k1 H1. apply keeps_use in H1 as E1; [|auto with keeps]. rewrite <- E1 in *.
    apply M_bind_Ok in H as (u2 & k2 & H & [= <- <-]).
    destruct (refines_suspend KTrapEnd k1 i Suspended k2 Hp Hr Hc) as [Hsim Hcur]; [|done].
    by rewrite (M_bind_run _ _ _ _ _ H).
Qed.

(** The idle flow takes the first task of the queue. *)
Lemma turn_refines k r k' :
  procs_inv (k_procs k) → pid_room (k_procs k) → current (k_procs k) = None →
  run_tasks_turn k = Ok (r, k') →
  sim (k_procs k) (k_procs k') ∧
  match ready_queue (k_procs k) with
  | [] => k' = k
  | i :: _ => runs_on i r (k_procs k')
  end.
Proof.
  intros Hp Hr Hc H. unfold run_tasks_turn in H. inv_bind H o k1 H1. inv_procs H1 p1 Hp1.
  pose proof (fetch_refines (k_procs k) Hp Hc) as Hf. destruct (ready_queue (k_procs k)) as [|i q].
  { rewrite Hf in Hp1. injection Hp1 as <- <-. rewrite set_procs_id in H. injection H as <- <-.
    split; [|done]. apply sim_same; [done|apply Hp]. }
  destruct Hf as (p' & t & Hf & Hst & Hc' & Hb' & Hpids & Ht & HT & _). rewrite Hf in Hp1. injection Hp1 as <- <-.
  assert (procs_inv p') as Hp' by (split; [eapply sstep_inv; [apply Hp|done]|done]).
  assert (pid_room p') as Hr' by (unfold pid_room; by rewrite Hpids).
  assert (tasks p' !! i = Some (set_status Running t)) as Ht' by (rewrite HT; apply lookup_insert_eq).
  rewrite (in_procs_bind _ _ _ _ _ _ (get_tcb_run _ _ _ Ht')) in H. change (task_cx (set_status Running t)) with (task_cx t) in H.
  assert (∃ k1, k1 = set_procs p' k ∧ k_procs k1 = p') as (k1 & E1 & <-) by eauto. rewrite <- E1 in H. clear E1.
  assert (sim (k_procs k1) (k_procs k') ∧ runs_on i r (k_procs k')) as [Hsim Hcur]; [|split; [by eapply sim_then|done]].
  assert ((trap_return ≫= λ satp, mret (Some satp)) k1 = Ok (r, k') →
    sim (k_procs k1) (k_procs k') ∧ runs_on i r (k_procs k')) as Hret.
  { intros (satp & k2 & H2 & [= <- <-])%M_bind_Ok. apply keeps_use in H2 as E; [|auto with keeps].
    unfold runs_on. rewrite E. split; [by apply sim_same|done]. }
  destruct (task_cx t) as [cx|[|res|buf]]; try (by apply Hret).
  - apply finish_Ok in H as [E Ho]. unfold runs_on. rewrite E. split; [by apply sim_same|]. destruct r; [done|]. naive_solver.
  - eapply refines_finish; [apply refines_stdin_turn|done..].
Qed.

(** ** The invariant, step by step *)
Lemma kstep_sim k k' :
  procs_inv (k_procs k) → pid_room (k_procs k) → kstep ElfFile_new syms th tr fuel k k' →
  sim (k_procs k) (k_procs k').
Proof.
  intros Hp Hr Hst. destruct Hst as [cause k r k' [i Hc] H|k r k' Hc H|k m' _|k x'].
  - by eapply trap_refines.
  - by eapply turn_refines.
  - by apply sim_same; [done|apply Hp].
  - by apply sim_same; [done|apply Hp].
Qed.

Lemma nsteps_inv n : ∀ k k',
  procs_inv (k_procs k) → pa_current (pids (k_procs k)) + Z.of_nat n < 2 ^ 64 - 1 →
  nsteps (kstep ElfFile_new syms th tr fuel) n k k' →
  rtc sstep (abs (k_procs k)) (abs (k_procs k')) ∧ procs_inv (k_procs k') ∧
  pa_current (pids (k_procs k')) ≤ pa_current (pids (k_procs k)) + Z.of_nat n.
Proof.
  induction n as [|n IH]; intros k k' Hp Hr Hn.
  { inversion Hn; subst. split_and!; [constructor|done|lia]. }
  inversion Hn as [|? ? k1 ? Hst Hn']; subst.
  assert (pid_room (k_procs k)) as Hroom by (unfold pid_room; lia).
  pose proof (kstep_sim k k1 Hp Hroom Hst) as Hsim. pose proof (sim_inv _ _ Hp Hsim) as Hp1.
  destruct Hsim as (H1 & _ & H3). destruct (IH k1 k' Hp1 ltac:(lia) Hn') as (H4 & H5 & H6).
  split_and!; [by etrans|done|lia].
Qed.
End steps.
