(* ===== verification/OsSpec.v ===== *)
(** * OsSpec: the kernel's open files against the file system's contents

    [os_rep k e total D F u]: the disk behind the kernel's cache holds the file
    system [fs_rep] describes and [ROOT_INODE] is its root.  Opening, reading
    and writing through an [OSInode] are stated against the contents [F]. *)

From stdpp Require Import base gmap list numbers.
From S2P Require Import Prelude Bytes BlockIO Bitmap Layout InodeIndex InodeData LayoutCodec Efs Vfs FsState FsOps FsDir Fs.
From S2P Require Import Address FrameAllocator PageTable MemorySet Pid KState Task OsFile Syscall KRefine.

Definition os_rep (k : kernel) (e : EasyFileSystem) (total : Z) (D : list (list Z * Z))
    (F : gmap Z (list Z)) (u : Z) : Prop :=
  fs_rep (disk (k_fs k)) e total D F u ∧ root (k_fs k) = root_inode e.

Definition set_disk (d : gmap Z (list Z)) (k : kernel) : kernel :=
  set_fs (mkOsfs d (root (k_fs k)) (osinodes (k_fs k)) (next_file (k_fs k))) k.
Definition set_file (id : Z) (f : OSInode) (k : kernel) : kernel :=
  set_fs (set_osinodes <[id := f]> (k_fs k)) k.
(** The kernel after [OSInode::new]. *)
Definition new_file (f : OSInode) (k : kernel) : kernel :=
  set_fs (mkOsfs (disk (k_fs k)) (root (k_fs k)) (<[next_file (k_fs k) := f]> (osinodes (k_fs k)))
            (next_file (k_fs k) + 1)) k.

(** ** File system code in the kernel *)
Lemma in_fs_run {A} (p : prog A) k a d' : runs p [] (disk (k_fs k)) a d' → in_fs p k = Ok (a, set_disk d' k).
Proof. intros H. unfold in_fs. by rewrite H. Qed.
Lemma in_fs_same {A} (p : prog A) k a : runs p [] (disk (k_fs k)) a (disk (k_fs k)) → in_fs p k = Ok (a, k).
Proof. intros H. rewrite (in_fs_run _ _ _ _ H). unfold set_disk, set_fs. by destruct k as [? ? ? [] ?]. Qed.
Lemma get_osinode_run k id f : osinodes (k_fs k) !! id = Some f → get_osinode id k = Ok (f, k).
Proof. intros H. unfold get_osinode. by rewrite H. Qed.
Lemma set_file_id k id f : osinodes (k_fs k) !! id = Some f → set_file id f k = k.
Proof.
  intros H. unfold set_file, set_osinodes, set_fs. rewrite insert_id by done. by destruct k as [? ? ? [] ?].
Qed.
Lemma set_file_twice k id f g : set_file id f (set_file id g k) = set_file id f k.
Proof. unfold set_file, set_osinodes, set_fs. cbn. by rewrite insert_insert_eq. Qed.

Section files.
Context (e : EasyFileSystem) (total : Z) (D : list (list Z * Z)) (F : gmap Z (list Z)) (u : Z).

(** ** Reading a whole file

    Every turn but the last reads [512] bytes or up to the end. *)
Lemma read_turn k n c off :
  os_rep k e total D F u → F !! n = Some c → 0 ≤ off ≤ Z.of_nat (length c) → Z.of_nat (length c) < 2 ^ 61 →
  ∃ len b, in_fs (Inode_read_at (inode_of e n) off (replicate 512 0)) k = Ok ((len, b), k) ∧
    0 ≤ len ≤ 512 ∧ off + len ≤ Z.of_nat (length c) ∧ (len = 0 → off = Z.of_nat (length c)) ∧
    (len < 512 → off + len = Z.of_nat (length c)) ∧ take (Z.to_nat len) b = slice (Z.to_nat off) (Z.to_nat len) c.
Proof.
  intros [Hrep _] HF Hoff Hlen.
  pose proof (rep_read _ _ _ _ _ _ Hrep n c off (replicate 512 0) HF ltac:(lia) ltac:(by rewrite length_replicate)) as Hr.
  cbv zeta in Hr. rewrite length_replicate in Hr. set (len := Z.max 0 _) in Hr.
  eexists len, _. split; [apply in_fs_same; exact Hr|]. split_and!; [lia..|].
  rewrite splice_0. rewrite take_app_length'; [done|]. rewrite length_slice. lia.
Qed.

Lemma read_all_step fuel id v :
  read_all_loop (S fuel) id v =
    get_osinode id ≫= λ f, in_fs (Inode_read_at (os_inode f) (os_offset f) (replicate 512 0)) ≫= λ '(len, buffer),
    if len =? 0 then mret v
    else put_osinode id (set_offset (os_offset f +u len) f) ≫= λ _, read_all_loop fuel id (v ++ take (Z.to_nat len) buffer).
Proof. done. Qed.

Lemma read_all_loop_spec n c : F !! n = Some c → Z.of_nat (length c) < 2 ^ 61 → ∀ fuel k id f,
  os_rep k e total D F u → osinodes (k_fs k) !! id = Some f → os_inode f = inode_of e n →
  0 ≤ os_offset f ≤ Z.of_nat (length c) → Z.of_nat (length c) - os_offset f ≤ 512 * Z.of_nat fuel →
  ∀ v, read_all_loop (S fuel) id v k =
    Ok (v ++ drop (Z.to_nat (os_offset f)) c, set_file id (set_offset (Z.of_nat (length c)) f) k).
Proof.
  intros HF Hlen. induction fuel as [|fuel IH]; intros k id f Hrep Hf Hino Hoff Hfuel v;
    destruct (read_turn k n c (os_offset f) Hrep HF Hoff Hlen) as (len & b & Hin & Hl & Hend & H0 & Hshort & Htake);
    rewrite read_all_step; run (get_osinode_run k id f Hf); rewrite Hino; run Hin; cbn beta iota.
  all: destruct (Z.eqb_spec len 0) as [E|Hne].
  1, 3: rewrite drop_ge, app_nil_r by lia; rewrite <- (H0 E); replace (set_offset (os_offset f) f) with f by (by destruct f);
    by rewrite set_file_id.
  { lia. }
  set (f1 := set_offset (os_offset f +u len) f).
  assert (os_offset f +u len = os_offset f + len) as Ho
    by (apply uadd_small; mach_unfold; change (2 ^ 61) with 2305843009213693952 in Hlen; lia).
  assert (put_osinode id f1 k = Ok ((), set_file id f1 k)) as Hput by done. run Hput.
  rewrite (IH (set_file id f1 k) id f1); cbn [os_offset f1 set_offset os_inode]; rewrite ?Ho; try done; try lia.
  - f_equal. f_equal; [|by rewrite set_file_twice]. rewrite <- app_assoc. f_equal. rewrite Htake. unfold slice.
    rewrite <- (take_drop (Z.to_nat len) (drop (Z.to_nat (os_offset f)) c)) at 2. rewrite drop_drop. do 2 f_equal. lia.
  - by cbn; rewrite lookup_insert_eq.
Qed.

(** ** Opening *)
Lemma dir_find_in name : ∀ id, dir_find name D = Some id → id ∈ D.*2.
Proof.
  induction D as [|[s j] D' IH]; intros id; [done|]. cbn. case_bool_decide.
  - intros [= ->]. elt.
  - rewrite elem_of_cons. auto.
Qed.

Lemma rep_found d name n : fs_rep d e total D F u → dir_find name D = Some n → ∃ c, F !! n = Some c.
Proof.
  intros (G & A & rt & lr & Hr & _) Hin%dir_find_in.
  destruct (ro_files _ _ _ _ _ _ _ _ _ Hr n Hin) as (ino & l & _ & _ & HF). eauto.
Qed.

Lemma rep_len d n c : fs_rep d e total D F u → F !! n = Some c → Z.of_nat (length c) ≤ MAX_FILE_SIZE.
Proof.
  intros (G & A & rt & lr & Hr & _) HF. destruct (rep_file _ _ _ _ _ _ _ _ _ n c Hr HF) as (_ & ino & l & HG & _ & _ & <-).
  pose proof (fo_size _ _ _ _ _ (fi_file _ _ _ _ _ (ro_inv _ _ _ _ _ _ _ _ _ Hr) _ _ _ HG)). lia.
Qed.

(** The open file the kernel makes. *)
Definition opened (flags n : Z) : OSInode :=
  mkOSInode (read_write flags).1 (read_write flags).2 0 (inode_of e n).

Lemma open_new flags n k : (OSInode_new (read_write flags).1 (read_write flags).2 (inode_of e n) ≫= λ f, mret (Some f)) k
  = Ok (Some (next_file (k_fs k)), new_file (opened flags n) k).
Proof. done. Qed.

Lemma open_cleared k flags n c :
  os_rep k e total D F u → F !! n = Some c →
  ∃ d', (in_fs (clear (inode_of e n)) ≫= λ _,
         OSInode_new (read_write flags).1 (read_write flags).2 (inode_of e n) ≫= λ f, mret (Some f)) k
    = Ok (Some (next_file (k_fs k)), new_file (opened flags n) (set_disk d' k)) ∧
    fs_rep d' e total D (<[n := []]> F) (u - blocks_of c).
Proof.
  intros [Hrep Hroot] HF. destruct (rep_clear _ _ _ _ _ _ Hrep n c HF) as (d' & Hrun & Hrep').
  exists d'. split; [|done]. run (in_fs_run _ k _ _ Hrun). by rewrite open_new.
Qed.

End files.

(** ** Writing *)
Lemma pad_pad m n (c : list Z) : (m ≤ n)%nat → pad n (pad m c) = pad n c.
Proof.
  intros H. unfold pad. rewrite length_app, length_replicate, <- app_assoc, <- replicate_add. do 2 f_equal. lia.
Qed.
Lemma pad_splice n o (x b : list Z) : (o + length x ≤ length b)%nat → pad n (splice o x b) = splice o x (pad n b).
Proof.
  intros H. unfold pad. rewrite length_splice by done. unfold splice.
  rewrite take_app_le, drop_app_le by lia. by rewrite <- !app_assoc.
Qed.
(** Two writes in a row are one. *)
Lemma write_data_app c off x y : 0 ≤ off →
  write_data (write_data c off x) (off + Z.of_nat (length x)) y = write_data c off (x ++ y).
Proof.
  intros Ho. unfold write_data. replace (Z.to_nat (off + Z.of_nat (length x))) with (Z.to_nat off + length x)%nat by lia.
  rewrite pad_splice by (unfold pad; len). rewrite pad_pad by lia. rewrite splice_app by (unfold pad; len).
  rewrite length_app. do 2 f_equal. lia.
Qed.
Lemma length_write_data c off x : 0 ≤ off →
  Z.of_nat (length (write_data c off x)) = Z.max (Z.of_nat (length c)) (off + Z.of_nat (length x)).
Proof. intros Ho. unfold write_data. rewrite length_splice; unfold pad; len. Qed.
Lemma total_blocks_mono s s' : 0 ≤ s ≤ s' → s' ≤ MAX_FILE_SIZE → total_blocks s ≤ total_blocks s'.
Proof.
  intros Hs Hm. rewrite !total_blocks_count by lia. apply block_count_mono. split; [|by apply _data_blocks_mono].
  destruct (_data_blocks_bounds s ltac:(lia)) as [H _]. lia.
Qed.

(** The slices of a user buffer and the bytes in them. *)
Definition slices_hold (m : mem) (bufs : list slice_ref) (bs : list (list Z)) : Prop :=
  Forall2 (λ s b, load_slice s m = Ok (b, m) ∧ slice_len s = Z.of_nat (length b) ∧ b ≠ [] ∧ Forall is_byte b) bufs bs.

Section write.
Context (e : EasyFileSystem) (total : Z) (D : list (list Z * Z)) (n : Z).

(** [OSInode::write] appends nothing and loses nothing: the slices go one after
    the other to the offset, which ends up behind the last byte. *)
Lemma os_write_loop_spec bufs : ∀ bs k id f F u c t,
  os_rep k e total D F u → osinodes (k_fs k) !! id = Some f → os_inode f = inode_of e n → F !! n = Some c →
  slices_hold (k_mem k) bufs bs → 0 ≤ os_offset f → os_offset f + Z.of_nat (length (concat bs)) ≤ MAX_FILE_SIZE →
  Z.of_nat (length c) ≤ MAX_FILE_SIZE → 0 ≤ t ≤ os_offset f →
  let c' := if bs is [] then c else write_data c (os_offset f) (concat bs) in
  u + (blocks_of c' - blocks_of c) ≤ total - da e →
  ∃ d', os_write_loop id bufs t k = Ok (t + Z.of_nat (length (concat bs)),
      set_file id (set_offset (os_offset f + Z.of_nat (length (concat bs))) f) (set_disk d' k)) ∧
    fs_rep d' e total D (<[n := c']> F) (u + (blocks_of c' - blocks_of c)).
Proof.
  induction bufs as [|s bufs IH]; intros bs k id f F u c t Hk Hf Hino HF Hsl Ho Hmax Hlc Ht c' Hcap.
  { apply Forall2_nil_inv_l in Hsl as ->. subst c'. exists (disk (k_fs k)). cbn [concat length]. rewrite !Z.add_0_r. split.
    - replace (set_offset (os_offset f) f) with f by (by destruct f).
      replace (set_disk (disk (k_fs k)) k) with k by (by destruct k as [? ? ? [] ?]). by rewrite set_file_id.
    - rewrite insert_id by done. replace (u + _) with u by lia. apply Hk. }
  apply Forall2_cons_inv_l in Hsl as (b & bs' & (Hload & Hsz & Hne & Hb) & Hsl & ->). cbn [concat] in *.
  rewrite length_app in Hmax. assert (MAX_FILE_SIZE < 2 ^ 62) as HM by done. change (2 ^ 62) with 4611686018427387904 in HM.
  set (off := os_offset f) in *. set (c1 := write_data c off b).
  assert (0 < Z.of_nat (length b)) as Hlb by (destruct b; [done|cbn; lia]).
  assert ((if bs' is [] then c1 else write_data c1 (off + Z.of_nat (length b)) (concat bs')) = c') as Hc'.
  { subst c' c1. destruct bs' as [|b' bs']; [cbn; by rewrite app_nil_r|]. by apply write_data_app. }
  pose proof (length_write_data c off b Ho) as Hl1. fold c1 in Hl1.
  pose proof (length_write_data c off (b ++ concat bs') Ho) as Hl'. fold c' in Hl'. rewrite length_app in Hl'.
  pose proof (total_blocks_mono (Z.of_nat (length c1)) (Z.of_nat (length c')) ltac:(lia) ltac:(lia)) as Hmono.
  destruct (rep_write _ _ _ _ _ _ (proj1 Hk) n c off b HF Hb ltac:(lia) Ho ltac:(lia)) as (d1 & Hrun & Hrep1); [fold c1; lia|].
  fold c1 in Hrep1. set (f1 := set_offset (off + Z.of_nat (length b)) f). set (k1 := set_file id f1 (set_disk d1 k)).
  destruct (IH bs' k1 id f1 (<[n := c1]> F) (u + (blocks_of c1 - blocks_of c)) c1 (t + Z.of_nat (length b)))
    as (d' & Hw & Hrep'); cbn [os_offset f1 set_offset]; try done; try lia.
  { split; [exact Hrep1|apply Hk]. }
  { cbn. by rewrite lookup_insert_eq. }
  { by rewrite lookup_insert_eq. }
  { rewrite Hc'. lia. }
  cbn [os_offset f1 set_offset] in Hw, Hrep'. rewrite Hc' in Hrep'. exists d'. split.
  - cbn [os_write_loop]. run (get_osinode_run k id f Hf).
    run (in_mem_run _ k _ _ Hload). replace (set_mem (k_mem k) k) with k by (by destruct k). rewrite Hino.
    run (in_fs_run _ k _ _ Hrun). rewrite M_assert_bind by (apply Z.eqb_eq; lia). fold off.
    assert (off +u Z.of_nat (length b) = off + Z.of_nat (length b)) as -> by (apply uadd_small; mach_unfold; lia).
    assert (t +u Z.of_nat (length b) = t + Z.of_nat (length b)) as -> by (apply uadd_small; mach_unfold; lia).
    assert (put_osinode id f1 (set_disk d1 k) = Ok ((), k1)) as Hput by done. run Hput. rewrite Hw.
    rewrite length_app, Nat2Z.inj_add, !Z.add_assoc. f_equal. f_equal.
    unfold k1, set_file, set_disk, set_osinodes, set_fs. cbn. by rewrite insert_insert_eq.
  - rewrite insert_insert_eq in Hrep'. by replace (u + (blocks_of c' - blocks_of c))
      with (u + (blocks_of c1 - blocks_of c) + (blocks_of c' - blocks_of c1)) by lia.
Qed.
End write.

(** Opening a file read-only and reading it to its end. *)
Lemma load_program_run k e total D F u name n c fuel :
  os_rep k e total D F u → dir_find name D = Some n → F !! n = Some c →
  Z.of_nat (length c) ≤ 512 * Z.of_nat fuel →
  ∃ k', (open_file name 0 ≫= λ o, unwrap o ≫= λ id, read_all (S fuel) id) k = Ok (c, k') ∧ os_rep k' e total D F u ∧
    k_procs k' = k_procs k ∧ k_mem k' = k_mem k ∧ kernel_space k' = kernel_space k ∧ k_mach k' = k_mach k.
Proof.
  intros Hk Hn HF Hfuel. pose proof Hk as [Hrep Hroot]. pose proof (rep_len _ _ _ _ _ _ _ _ Hrep HF) as Hlen.
  assert (MAX_FILE_SIZE < 2 ^ 61) as HM by done.
  set (f := opened e 0 n). set (k1 := new_file f k).
  assert (open_file name 0 k = Ok (Some (next_file (k_fs k)), k1)) as Hopen.
  { change (open_file name 0) with (gets (λ k, root (k_fs k)) ≫= λ ROOT_INODE : Inode, in_fs (find ROOT_INODE name) ≫= λ o : option Inode,
      match o with
      | Some inode => mret () ≫= λ _ : (), OSInode_new true false inode ≫= λ f : Z, mret (Some f)
      | None => mret None
      end : K (option Z)).
    assert (gets (λ k, root (k_fs k)) k = Ok (root_inode e, k)) as Hg by (unfold gets; by rewrite Hroot). run Hg.
    pose proof (in_fs_same _ k _ (rep_find _ _ _ _ _ _ Hrep name)) as Hfind. rewrite Hn in Hfind. run Hfind.
    reflexivity. }
  run Hopen. rewrite M_unwrap_bind. unfold read_all.
  rewrite (read_all_loop_spec e total D F u n c HF ltac:(lia) fuel k1 (next_file (k_fs k)) f); try done; cbn [f opened os_offset]; try lia.
  - eexists. split; [cbn; reflexivity|done].
  - cbn. by rewrite lookup_insert_eq.
Qed.
