(* ===== verification/KFork.v ===== *)
(** * KFork: fork from end to end

    With enough free frames [sys_fork] succeeds: the child gets a copy of the
    address space, a kernel stack of its own in the kernel's address space, a
    copy of the trap context with [a0 = 0], and a place in the family tree and
    the queue. *)

From stdpp Require Import base gmap list numbers.
From S2P Require Import Prelude Bytes Address FrameAllocator PageTable PageTableInv PageTableRep UserMem MemorySet AreaMap.
From S2P Require Import AreaCopy AddressSpace ForkSpace Pid KState Task OsFile Syscall Sched KKeeps KRefine.

(** ** Address spaces next to one another *)
Lemma ms_inv_grows m lo U tr ms m' nf W :
  ms_inv m lo U tr ms → grows lo m U m' nf W → (∀ x, x ∈ frames (page_table ms) → x ∉ W) →
  ms_inv m' lo (list_to_set nf ∪ U) tr ms.
Proof.
  intros [H1 H2 H3 H4 H5 H6] Hg HW. split; try done.
  - apply (gw_mem _ _ _ _ _ _ Hg).
  - eapply pt_rep_frame; [done|]. intros x Hx. apply (gw_ram _ _ _ _ _ _ Hg); [by apply HW|].
    intros Hn. apply (gw_new _ _ _ _ _ _ Hg x Hn). apply H6. unfold owned. elt.
  - intros x Hx. apply elem_of_union. right. by apply H6.
Qed.

Lemma ms_inv_put m lo U tr ms f b :
  ms_inv m lo U tr ms → is_Some (ram m !! f) → f ∉ frames (page_table ms) → frame_ok b →
  ms_inv (set_ram (<[f := b]> (ram m)) m) lo U tr ms.
Proof.
  intros [H1 H2 H3 H4 H5 H6] Hf Hn Hb. split; try done; [by apply mem_ok_set|].
  eapply pt_rep_frame; [done|]. intros x Hx. cbn [ram set_ram]. rewrite lookup_insert_ne; [done|]. by intros ->.
Qed.

Lemma copies_later m m1 m2 l l' :
  Forall2 (area_copy m m1) l l' → (∀ f, f ∈ data_owned l' → ram m2 !! f = ram m1 !! f) → Forall2 (area_copy m m2) l l'.
Proof.
  induction 1 as [|a a' l l' Ha _ IH]; intros Hf; [constructor|]. setoid_rewrite data_owned_cons in Hf.
  constructor; [|by auto]. eapply area_copy_mono; [done|done|auto].
Qed.

(** ** Trap contexts *)
Definition cx_vpn : Z := 2 ^ 27 - 2.

Lemma find_trap_cx_spec m lo U tr ms a :
  ms_inv m lo U tr ms → a ∈ areas ms → map_type a = Framed → cx_vpn ∈ area_pages a →
  ∃ f, f ∈ area_fs a ∧ area_fs a !! Z.to_nat (cx_vpn - range_l (vpn_range a)) = Some f ∧ find_trap_cx ms m = Ok (f, m).
Proof.
  intros Hinv Ha Hty Hcx.
  destruct (page_frame m lo U tr ms a (4096 * cx_vpn) Hinv Ha Hty Hcx) as (f & Hf & Hmap & _).
  change (floor (4096 * cx_vpn)) with cx_vpn in Hf, Hmap.
  exists f. split_and!; [by eapply list_elem_of_lookup_2|done|]. unfold find_trap_cx.
  change (page_num_of_addr (VirtAddr_from TRAP_CONTEXT)) with (Ok cx_vpn). rewrite M_res_bind. unfold ms_translate.
  pose proof (translate_rep m (page_table ms) _ (mi_rep _ _ _ _ _ Hinv) cx_vpn ltac:(done)) as Ht. rewrite Hmap in Ht.
  destruct Ht as [Ht _]. run Ht. rewrite M_unwrap_bind.
  destruct (ms_pages_at _ _ _ _ _ _ Hinv Ha Hty _ _ Hf) as (e & He & Hp).
  replace (range_l (vpn_range a) + _) with cx_vpn in He
    by (apply elem_of_seqZ in Hcx; rewrite Z2Nat.id by lia; lia).
  rewrite Hmap in He. injection He as <-. unfold mret, M_ret. by rewrite Hp.
Qed.

Lemma write_cx_spec m lo U f b i v :
  mem_ok m lo U → 0 ≤ f < 2 ^ 44 → ram m !! f = Some b →
  write_cx f i v m = Ok ((), set_ram (<[f := arr_set 8 b i v]> (ram m)) m).
Proof.
  intros Hm Hf Hb. unfold write_cx. run (get_data m f b Hf Hb). apply (put_bytes_run m f b); [|done].
  change (2 ^ 44) with 17592186044416 in Hf. change (2 ^ 52) with 4503599627370496. lia.
Qed.

(** ** Kernel stacks *)
Definition kstack_area (pid : Z) : MapArea := mkArea (mkRange (stack_vpn pid) (stack_vpn pid + 2)) [] Framed 6.

Lemma kstack_area_range pid : 0 ≤ pid < MAX_PID → area_range (kstack_area pid).
Proof.
  unfold MAX_PID. change (2 ^ 24) with 16777216. intros Hp. unfold area_range, kstack_area, stack_vpn. cbn [vpn_range range_l range_r map_perm].
  change VPN_END with 134217728. change (2 ^ 27) with 134217728. lia.
Qed.

Lemma KernelStack_new_spec k lo U ktr pid :
  ms_inv (k_mem k) lo U ktr (kernel_space k) → 0 ≤ pid < MAX_PID →
  (∀ v, v ∈ area_pages (kstack_area pid) → v ∉ (ms_entries ktr (kernel_space k)).*1) →
  area_cost (kstack_area pid) ≤ free_frames (k_mem k) lo U →
  ∃ m' ks' nf, KernelStack_new pid k = Ok ((), set_kernel_space ks' (set_mem m' k)) ∧
    ms_inv m' lo (list_to_set nf ∪ U) ktr ks' ∧ grows lo (k_mem k) U m' nf (frames (page_table (kernel_space k))) ∧
    ∀ x, x ∈ frames (page_table ks') → x ∈ frames (page_table (kernel_space k)) ∨ x ∈ nf.
Proof.
  intros Hinv Hp Hfresh Hcost. pose proof (kstack_area_range pid Hp) as Hr.
  destruct (push_spec _ lo U ktr _ Hinv (kstack_area pid) None Hr eq_refl I Hfresh Hcost)
    as (m' & pt' & fs & nn & Hrun & Hinv' & _ & Hfr & Hg & _).
  eexists m', _, (fs ++ nn). split; [|split; [exact Hinv'|split; [exact Hg|cbn [page_table]; rewrite Hfr; set_solver]]].
  unfold KernelStack_new. destruct (stack_pages pid Hp) as (H1 & H2 & _).
  destruct (kernel_stack_position pid) as [bottom top]. cbn [fst snd] in H1, H2.
  unfold in_kernel_space, insert_framed_area, MapArea_new. rewrite H1, H2. unfold SimpleRange_new.
  destruct (Z.leb_spec (stack_vpn pid) (stack_vpn pid + 2)); [|lia]. cbn [assert_res].
  change (lift_res _ ≫= _) with (push (kernel_space k) (kstack_area pid) None). by rewrite Hrun.
Qed.

(** ** [fork] *)
Section fork.
Context (syms : kernel_symbols) (tr : Z) (k : kernel) (i : Z) (t : TCB) (lo : Z) (U : gset Z) (ktr : list (Z * Z)).
Context (pid : Z) (al : PidAllocator) (acx : MapArea).
Notation p := (k_procs k).
Hypothesis Hp : procs_inv p.
Hypothesis Hc : current p = Some i.
Hypothesis Ht : tasks p !! i = Some t.
Hypothesis Htr : tramp_ok syms.
(** The process's address space, which has a page for the trap context. *)
Hypothesis Hms : ms_inv (k_mem k) lo U [tramp_entry syms] (memory_set t).
Hypothesis Hframed : Forall (λ a, map_type a = Framed) (areas (memory_set t)).
Hypothesis Hacx : acx ∈ areas (memory_set t).
Hypothesis Hcx : cx_vpn ∈ area_pages acx.
(** The kernel's address space, whose table shares no frame with the process. *)
Hypothesis Hks : ms_inv (k_mem k) lo U ktr (kernel_space k).
Hypothesis Hsep : ∀ x, x ∈ frames (page_table (kernel_space k)) → x ∉ owned (memory_set t).
(** The identifier the child gets, and the place of its stack. *)
Hypothesis Hpid : pa_alloc (pids p) = (pid, al).
Hypothesis Hrange : 0 ≤ pid < MAX_PID.
Hypothesis Hstack : ∀ v, v ∈ area_pages (kstack_area pid) → v ∉ (ms_entries ktr (kernel_space k)).*1.
Hypothesis Hfree : 3 + areas_cost (areas (memory_set t)) + area_cost (kstack_area pid) ≤ free_frames (k_mem k) lo U.

(** The memory after the copy and the new stack: [ms1] is the child's address
    space, [f1] and [f0] the frames of the two trap contexts. *)
Record fork_mem (m2 : mem) (ms1 ks2 : MemorySet) (nf : list Z) (f0 f1 : Z) (b : list Z) : Prop := {
  fm_child : ms_inv m2 lo (list_to_set nf ∪ U) [tramp_entry syms] ms1;
  fm_parent : ms_inv m2 lo (list_to_set nf ∪ U) [tramp_entry syms] (memory_set t);
  fm_kernel : ms_inv m2 lo (list_to_set nf ∪ U) ktr ks2;
  fm_copy : Forall2 (area_copy (k_mem k) m2) (areas (memory_set t)) (areas ms1);
  fm_same x : x ∈ owned (memory_set t) → ram m2 !! x = ram (k_mem k) !! x;
  fm_new x : x ∈ owned ms1 → x ∉ U;
  fm_sep x : x ∈ owned ms1 → x ∉ frames (page_table ks2);
  fm_cx0 : find_trap_cx (memory_set t) (k_mem k) = Ok (f0, k_mem k);
  fm_b : ram (k_mem k) !! f0 = Some b;
  fm_cx1 : find_trap_cx ms1 m2 = Ok (f1, m2);
  fm_data : f1 ∈ data_owned (areas ms1);
  fm_b1 : ram m2 !! f1 = Some b;
}.

(** After the copy alone. *)
Record copied (m1 : mem) (ms1 : MemorySet) (nf1 : list Z) (f0 f1 : Z) (b : list Z) : Prop := {
  cp_inv : ms_inv m1 lo (list_to_set nf1 ∪ U) [tramp_entry syms] ms1;
  cp_grows : grows lo (k_mem k) U m1 nf1 [];
  cp_owned x : x ∈ owned ms1 ↔ x ∈ nf1;
  cp_areas : Forall2 (area_copy (k_mem k) m1) (areas (memory_set t)) (areas ms1);
  cp_cost : Z.of_nat (length nf1) ≤ 3 + areas_cost (areas (memory_set t));
  cp_cx0 : find_trap_cx (memory_set t) (k_mem k) = Ok (f0, k_mem k);
  cp_b : ram (k_mem k) !! f0 = Some b;
  cp_cx1 m2 U2 : ms_inv m2 lo U2 [tramp_entry syms] ms1 → find_trap_cx ms1 m2 = Ok (f1, m2);
  cp_data : f1 ∈ data_owned (areas ms1);
  cp_b1 : ram m1 !! f1 = Some b;
}.

Lemma fork_copy :
  ∃ m1 ms1 nf1 f0 f1 b, from_existed_user syms (memory_set t) (k_mem k) = Ok (ms1, m1) ∧ copied m1 ms1 nf1 f0 f1 b.
Proof using All.
  assert (0 ≤ area_cost (kstack_area pid)) as Hpos
    by (unfold area_cost; pose proof (node_cost_nonneg 2 (stack_vpn pid) (length (area_pages (kstack_area pid)))); cbn; lia).
  destruct (from_existed_user_spec syms (k_mem k) lo U (memory_set t) Hms Hframed Htr ltac:(lia))
    as (m1 & ms1 & nf1 & Hrun1 & Hinv1 & Hg1 & Hown1 & Hcp1 & Hn1).
  apply list_elem_of_lookup in Hacx as [j Hj]. destruct (Forall2_lookup_l _ _ _ _ _ Hcp1 Hj) as (acx' & Hj' & Hcpx).
  pose proof (list_elem_of_lookup_2 _ _ _ Hj) as Hin. pose proof (list_elem_of_lookup_2 _ _ _ Hj') as Hin'.
  pose proof (proj1 (list.Forall_forall _ _) Hframed _ Hin) as Hty.
  pose proof (ac_type _ _ _ _ Hcpx) as Hty'. rewrite Hty in Hty'.
  assert (cx_vpn ∈ area_pages acx') as Hcx' by (unfold area_pages; by rewrite (ac_range _ _ _ _ Hcpx)).
  destruct (find_trap_cx_spec _ _ _ _ _ _ Hms Hin Hty Hcx) as (f0 & Hf0 & Hi0 & Hfind0).
  destruct (find_trap_cx_spec _ _ _ _ _ _ Hinv1 Hin' Hty' Hcx') as (f1 & Hf1 & Hi1 & _).
  destruct (area_frame _ _ _ _ _ _ Hms Hin f0 Hf0) as [Hf0U _]. destruct (used_ram _ _ _ _ _ Hms f0 Hf0U) as [b Hb].
  exists m1, ms1, nf1, f0, f1, b. split; [done|]. split; try done.
  - intros x. by rewrite Hown1.
  - intros m2 U2 Hinv2. destruct (find_trap_cx_spec _ _ _ _ _ _ Hinv2 Hin' Hty' Hcx') as (f2 & _ & Hi2 & Hfind2).
    rewrite Hi1 in Hi2. by injection Hi2 as <-.
  - by eapply area_in_owned.
  - rewrite (ac_range _ _ _ _ Hcpx) in Hi1. by rewrite (ac_bytes _ _ _ _ Hcpx _ _ _ Hi1 Hi0).
Qed.

Section stack.
Context (m1 : mem) (ms1 : MemorySet) (nf1 : list Z) (f0 f1 : Z) (b : list Z).
Hypothesis Hcp : copied m1 ms1 nf1 f0 f1 b.

(** The frames in use after the copy are not touched when the stack is mapped,
    apart from those of the kernel's table. *)
Lemma stack_same m2 nf2 x :
  grows lo m1 (list_to_set nf1 ∪ U) m2 nf2 (frames (page_table (kernel_space k))) →
  x ∈ list_to_set nf1 ∪ U → x ∉ frames (page_table (kernel_space k)) → ram m2 !! x = ram m1 !! x.
Proof using.
  intros Hg2 Hx Hnk. apply (gw_ram _ _ _ _ _ _ Hg2); [done|]. intros Hn. by apply (gw_new _ _ _ _ _ _ Hg2) in Hn.
Qed.

Lemma kernel_frames x : x ∈ frames (page_table (kernel_space k)) → x ∈ U ∧ x ∉ owned ms1 ∧ x ∉ owned (memory_set t).
Proof using Hks Hsep Hcp Hrange.
  intros Hx. assert (x ∈ U) as HxU by (apply (mi_owned _ _ _ _ _ Hks); unfold owned; elt). split_and!; [done| |by apply Hsep].
  rewrite (cp_owned _ _ _ _ _ _ Hcp). intros Hn. by apply (gw_new _ _ _ _ _ _ (cp_grows _ _ _ _ _ _ Hcp)) in Hn.
Qed.

Lemma fork_stack k1 : k_mem k1 = m1 → kernel_space k1 = kernel_space k →
  ∃ m2 ks2 nf, KernelStack_new pid k1 = Ok ((), set_kernel_space ks2 (set_mem m2 k1)) ∧
    fork_mem m2 ms1 ks2 nf f0 f1 b.
Proof using All.
  intros Hm1 Hk1. pose proof Hcp as [Hinv1 Hg1 Hown1 Hcp1 Hn1 Hcx0 Hb Hcx1 Hdata Hb1].
  assert (ms_inv m1 lo (list_to_set nf1 ∪ U) ktr (kernel_space k)) as Hks1
    by (eapply ms_inv_grows; [exact Hks|exact Hg1|intros ? _; apply not_elem_of_nil]).
  destruct (KernelStack_new_spec k1 lo (list_to_set nf1 ∪ U) ktr pid) as (m2 & ks2 & nf2 & Hrun2 & Hinv2 & Hg2 & Hfr2);
    rewrite ?Hm1, ?Hk1; try done.
  { rewrite (gw_free _ _ _ _ _ _ Hg1). lia. }
  rewrite Hm1, Hk1 in Hg2. rewrite Hk1 in Hfr2. pose proof (λ x, stack_same m2 nf2 x Hg2) as Hsame2. pose proof kernel_frames as HK.
  exists m2, ks2, (nf2 ++ nf1). split; [done|].
  assert (list_to_set (nf2 ++ nf1) ∪ U = list_to_set nf2 ∪ (list_to_set nf1 ∪ U)) as HU2
    by (rewrite list_to_set_app_L; set_solver).
  assert (ms_inv m2 lo (list_to_set nf2 ∪ (list_to_set nf1 ∪ U)) [tramp_entry syms] ms1) as Hchild.
  { eapply ms_inv_grows; [exact Hinv1|exact Hg2|]. intros x Hx Hk. destruct (HK x Hk) as (_ & Hn & _). apply Hn. unfold owned. elt. }
  assert (∀ x, x ∈ data_owned (areas ms1) → ram m2 !! x = ram m1 !! x) as Hsame1.
  { intros x Hx. assert (x ∈ owned ms1) as Ho by (unfold owned; elt).
    apply Hsame2; [by apply (mi_owned _ _ _ _ _ Hinv1)|]. intros Hk. by destruct (HK x Hk) as (_ & Hn & _). }
  split; rewrite ?HU2; try done.
  - eapply ms_inv_grows; [eapply ms_inv_grows; [exact Hms|exact Hg1|intros ? _; apply not_elem_of_nil]|exact Hg2|].
    intros x Hx Hk. destruct (HK x Hk) as (_ & _ & Hn). apply Hn. unfold owned. elt.
  - eapply copies_later; [exact Hcp1|done].
  - intros x Hx. pose proof (mi_owned _ _ _ _ _ Hms x Hx) as HxU. rewrite Hsame2; [|set_solver|intros Hk; by destruct (HK x Hk) as (_ & _ & Hn)].
    apply (gw_ram _ _ _ _ _ _ Hg1); [apply not_elem_of_nil|]. intros Hn. by apply (gw_new _ _ _ _ _ _ Hg1) in Hn.
  - intros x Hx%Hown1. by apply (gw_new _ _ _ _ _ _ Hg1).
  - intros x Hx [Hk|Hn]%Hfr2; [by destruct (HK x Hk) as (_ & Hn & _)|].
    apply (gw_new _ _ _ _ _ _ Hg2 x Hn). by apply (mi_owned _ _ _ _ _ Hinv1).
  - by eapply Hcx1.
  - by rewrite Hsame1.
Qed.
End stack.

(** ** The system call *)

(** The rest of the kernel's state stays. *)
Let st (m : mem) (ks : MemorySet) (q : procs) : kernel := mkK m ks q (k_fs k) (k_mach k).

Lemma st_procs {A B} (f : M procs A) (g : A → K B) m ks q a q' :
  f q = Ok (a, q') → (in_procs f ≫= g) (st m ks q) = g a (st m ks q').
Proof using. intros H. apply M_bind_run. unfold in_procs. cbn [k_procs st]. by rewrite H. Qed.
Lemma st_mem {A B} (f : M mem A) (g : A → K B) m ks q a m' :
  f m = Ok (a, m') → (in_mem f ≫= g) (st m ks q) = g a (st m' ks q).
Proof using. intros H. apply M_bind_run. unfold in_mem. cbn [k_mem st]. by rewrite H. Qed.

(** The child's block and the processes after the call. *)
Definition child_tcb (ms1 : MemorySet) (f1 : Z) : TCB :=
  mkTCB pid f1 (base_size t) (Fresh (goto_trap_return tr (get_top pid))) Ready ms1 (Some i) [] 0 (fd_table t).
Definition forked_procs (ct : TCB) (ready borrowed : list Z) : procs :=
  mkProcs al (<[i := set_children (children t ++ [next_task p]) t]> (<[next_task p := ct]> (tasks p)))
    (next_task p + 1) ready (current p) (initproc p) borrowed.
(** The child's trap context: a new kernel stack, and zero for the result. *)
Definition child_cx (b : list Z) : list Z := arr_set 8 (arr_set 8 b CX_KERNEL_SP (get_top pid)) CX_A0 0.

Lemma child_writes m2 ms1 ks2 nf f0 f1 b :
  fork_mem m2 ms1 ks2 nf f0 f1 b →
  let b1 := arr_set 8 b CX_KERNEL_SP (get_top pid) in
  let m3 := set_ram (<[f1 := b1]> (ram m2)) m2 in
  let m4 := set_ram (<[f1 := child_cx b]> (ram m2)) m2 in
  write_cx f1 CX_KERNEL_SP (get_top pid) m2 = Ok ((), m3) ∧ write_cx f1 CX_A0 0 m3 = Ok ((), m4).
Proof using Hrange.
  intros Hfm b1 m3 m4. pose proof (mi_mem _ _ _ _ _ (fm_child _ _ _ _ _ _ _ Hfm)) as Hm2.
  assert (f1 ∈ owned ms1) as Ho by (pose proof (fm_data _ _ _ _ _ _ _ Hfm); unfold owned; elt).
  pose proof (used_range _ _ _ _ _ (fm_child _ _ _ _ _ _ _ Hfm) f1 (mi_owned _ _ _ _ _ (fm_child _ _ _ _ _ _ _ Hfm) f1 Ho)) as Hr.
  split; [by eapply write_cx_spec, (fm_b1 _ _ _ _ _ _ _ Hfm)|].
  pose proof (mo_frame _ _ _ Hm2 _ _ (fm_b1 _ _ _ _ _ _ _ Hfm)) as Hb.
  assert (mem_ok m3 lo (list_to_set nf ∪ U)) as Hm3.
  { apply mem_ok_set; [done|by apply frame_ok_set|]. rewrite (fm_b1 _ _ _ _ _ _ _ Hfm). eauto. }
  rewrite (write_cx_spec m3 _ _ f1 b1 CX_A0 0 Hm3 Hr) by (cbn; by rewrite lookup_insert_eq).
  unfold m4, m3, set_ram. cbn [ram falloc]. by rewrite insert_insert_eq.
Qed.

Lemma fork_run :
  ∃ m2 ms1 ks2 nf f0 f1 b, fork_mem m2 ms1 ks2 nf f0 f1 b ∧
    fork syms tr i k = Ok (next_task p,
      st (set_ram (<[f1 := arr_set 8 b CX_KERNEL_SP (get_top pid)]> (ram m2)) m2) ks2
         (forked_procs (child_tcb ms1 f1) (ready_queue p) [])).
Proof using All.
  destruct fork_copy as (m1 & ms1 & nf1 & f0 & f1 & b & Hrun1 & Hcp).
  pose proof Hp as [Hs Hb]. pose proof (fresh_task p Hs) as Hfresh. assert (i ≠ next_task p) as Hne by congruence.
  set (p1 := set_borrowed [i] p). set (p2 := set_pids al p1).
  destruct (fork_stack m1 ms1 nf1 f0 f1 b Hcp (st m1 (kernel_space k) p2) eq_refl eq_refl) as (m2 & ks2 & nf & Hrun2 & Hfm).
  destruct (child_writes _ _ _ _ _ _ _ Hfm) as [Hw1 _].
  exists m2, ms1, ks2, nf, f0, f1, b. split; [done|].
  replace k with (st (k_mem k) (kernel_space k) p) at 1 by (unfold st; by destruct k). unfold fork.
  rewrite (st_procs _ _ _ _ _ _ _ (borrow_run p i t Ht ltac:(rewrite Hb; apply not_elem_of_nil))). rewrite Hb. fold p1.
  rewrite (st_mem _ _ _ _ _ _ _ Hrun1).
  rewrite (st_mem _ _ _ _ _ _ _ (cp_cx1 _ _ _ _ _ _ Hcp _ _ (cp_inv _ _ _ _ _ _ Hcp))).
  assert (pid_alloc p1 = Ok (pid, p2)) as Hal by (unfold pid_alloc; change (pids p1) with (pids p); by rewrite Hpid).
  rewrite (st_procs _ _ _ _ _ _ _ Hal). run Hrun2.
  change (set_kernel_space ks2 (set_mem m2 (st m1 (kernel_space k) p2))) with (st m2 ks2 p2).
  set (ct := child_tcb ms1 f1).
  set (p3 := mkProcs al (<[next_task p := ct]> (tasks p)) (next_task p + 1) (ready_queue p) (current p) (initproc p) [i]).
  assert (arc_new ct p2 = Ok (next_task p, p3)) as Harc by done. rewrite (st_procs _ _ _ _ _ _ _ Harc).
  assert (tasks p3 !! i = Some t) as Hi3 by (cbn; by rewrite lookup_insert_ne).
  rewrite (st_procs _ _ _ _ _ _ _ (modify_run p3 i t _ Hi3)).
  change (set_tasks _ p3) with (forked_procs ct (ready_queue p) [i]).
  assert (tasks (forked_procs ct (ready_queue p) [i]) !! next_task p = Some ct) as Hct
    by (cbn; by rewrite lookup_insert_ne, lookup_insert_eq by done).
  rewrite (st_procs _ _ _ _ _ _ _ (access_run _ _ _ Hct ltac:(cbn; rewrite list_elem_of_singleton; auto))).
  rewrite (st_mem _ _ _ _ _ _ _ Hw1).
  assert (release i (forked_procs ct (ready_queue p) [i]) = Ok ((), forked_procs ct (ready_queue p) [])) as Hrel.
  { unfold release, modify_st, set_borrowed, forked_procs. cbn [borrowed]. by rewrite filter_cons_False by auto. }
  by rewrite (st_procs _ _ _ _ _ _ _ Hrel).
Qed.

Lemma sys_fork_run :
  ∃ m2 ms1 ks2 nf f0 f1 b, fork_mem m2 ms1 ks2 nf f0 f1 b ∧
    sys_fork syms tr k = Ok (Return (as_isize pid),
      st (set_ram (<[f1 := child_cx b]> (ram m2)) m2) ks2
         (forked_procs (child_tcb ms1 f1) (ready_queue p ++ [next_task p]) [])).
Proof using All.
  destruct fork_run as (m2 & ms1 & ks2 & nf & f0 & f1 & b & Hfm & Hrun). destruct (child_writes _ _ _ _ _ _ _ Hfm) as [_ Hw2].
  exists m2, ms1, ks2, nf, f0, f1, b. split; [done|]. unfold sys_fork. run (the_task_run k i Hc). run Hrun.
  set (q := forked_procs (child_tcb ms1 f1) (ready_queue p) []). pose proof (fresh_task p (proj1 Hp)) as Hfresh.
  assert (tasks q !! next_task p = Some (child_tcb ms1 f1)) as Hct
    by (cbn; by rewrite lookup_insert_ne, lookup_insert_eq by congruence).
  rewrite (st_procs _ _ _ _ _ _ _ (get_tcb_run _ _ _ Hct)).
  rewrite (st_procs _ _ _ _ _ _ _ (access_run _ _ _ Hct ltac:(apply not_elem_of_nil))).
  rewrite (st_mem _ _ _ _ _ _ _ Hw2).
  assert (add_task (next_task p) q = Ok ((), forked_procs (child_tcb ms1 f1) (ready_queue p ++ [next_task p]) [])) as Hadd by done.
  by rewrite (st_procs _ _ _ _ _ _ _ Hadd).
Qed.
End fork.

(** ** What parent and child see *)
Lemma nodup_concat (ls : list (list Z)) : ∀ i j l l' (x : Z),
  NoDup (concat ls) → ls !! i = Some l → ls !! j = Some l' → x ∈ l → x ∈ l' → i = j.
Proof.
  induction ls as [|l0 ls IH]; intros i j l l' x Hnd Hi Hj Hx Hx'; [done|]. cbn in Hnd.
  apply list.NoDup_app in Hnd as (_ & Hd & Hnd).
  assert (∀ n m, ls !! n = Some m → x ∈ m → x ∈ concat ls) as Hc
    by (intros n m Hn Hm; apply elem_of_concat; exists m; split; [done|by eapply list_elem_of_lookup_2]).
  destruct i as [|i], j as [|j]; cbn in Hi, Hj; [done| | |f_equal; by eapply IH]; exfalso; simplify_eq.
  - apply (Hd x Hx). by eapply Hc.
  - apply (Hd x Hx'). by eapply Hc.
Qed.

(** Two pages of an address space never share a frame. *)
Lemma page_frames_differ m lo U tr ms a a' i j f :
  ms_inv m lo U tr ms → a ∈ areas ms → a' ∈ areas ms → area_fs a !! i = Some f → area_fs a' !! j = Some f →
  a = a' ∧ i = j.
Proof.
  intros Hinv [x Hx]%list_elem_of_lookup [y Hy]%list_elem_of_lookup Hi Hj.
  pose proof (mi_nodup _ _ _ _ _ Hinv) as Hnd. unfold owned, data_owned in Hnd. apply list.NoDup_app in Hnd as (_ & _ & Hnd).
  assert ((area_fs <$> areas ms) !! x = Some (area_fs a)) as Hlx by (by rewrite list_lookup_fmap, Hx).
  assert ((area_fs <$> areas ms) !! y = Some (area_fs a')) as Hly by (by rewrite list_lookup_fmap, Hy).
  assert (x = y) as -> by (eapply nodup_concat; [done|exact Hlx|exact Hly|..]; by eapply list_elem_of_lookup_2).
  rewrite Hx in Hy. injection Hy as <-. split; [done|].
  assert (NoDup (area_fs a)) as Hna.
  { clear -Hnd Hlx. revert y Hlx. induction (area_fs <$> areas ms) as [|l ls IH]; intros y Hy; [done|].
    cbn in Hnd. apply list.NoDup_app in Hnd as (Hl & _ & Hnd). destruct y; cbn in Hy; [by simplify_eq|by eapply IH]. }
  by eapply NoDup_lookup.
Qed.

(** A store to the frame of the trap context changes no other page. *)
Lemma cx_write_view m lo U tr ms acx a f b va :
  ms_inv m lo U tr ms → acx ∈ areas ms → map_type acx = Framed → cx_vpn ∈ area_pages acx → find_trap_cx ms m = Ok (f, m) →
  a ∈ areas ms → map_type a = Framed → floor va ∈ area_pages a → floor va ≠ cx_vpn →
  user_byte (set_ram (<[f := b]> (ram m)) m) (ms_map tr ms) va = user_byte m (ms_map tr ms) va.
Proof.
  intros Hinv Hacx Htcx Hcx Hfind Ha Hty Hva Hne.
  destruct (find_trap_cx_spec _ _ _ _ _ _ Hinv Hacx Htcx Hcx) as (f' & _ & Hf & Hfind'). rewrite Hfind in Hfind'. injection Hfind' as <-.
  destruct (page_frame _ _ _ _ _ _ _ Hinv Ha Hty Hva) as (g & Hg & _ & Hb). rewrite !Hb. cbn [ram set_ram].
  rewrite lookup_insert_ne; [done|]. intros <-.
  destruct (page_frames_differ _ _ _ _ _ _ _ _ _ _ Hinv Hacx Ha Hf Hg) as [<- Hij].
  apply elem_of_seqZ in Hva, Hcx. apply Hne. lia.
Qed.
