(* ===== verification/KExec.v ===== *)
(** * KExec: replacing the image of a process

    [exec] on a program that [from_elf] can lay out: the new address space is
    made first, the old one is given back to the last frame, and the trap
    context starts the program at its entry point with its own stack. *)

From stdpp Require Import base gmap list numbers.
From S2P Require Import Prelude Bytes Address FrameAllocator PageTable PageTableInv PageTableRep UserMem MemorySet AreaMap.
From S2P Require Import AreaCopy AddressSpace ForkSpace ElfSpace Pid KState Task OsFile Syscall Sched KKeeps KRefine KFork.

(** Dropping one address space keeps another. *)
Lemma ms_inv_shrinks m lo U tr ms m' fs :
  ms_inv m lo U tr ms → shrinks lo m U m' fs [] → (∀ x, x ∈ owned ms → x ∉ fs) → ms_inv m' lo (U ∖ list_to_set fs) tr ms.
Proof.
  intros [H1 H2 H3 H4 H5 H6] Hs Hd. split; try done.
  - apply (sh_mem _ _ _ _ _ _ Hs).
  - eapply pt_rep_frame; [done|]. intros x Hx. apply (sh_ram _ _ _ _ _ _ Hs). apply not_elem_of_nil.
  - intros x Hx. apply elem_of_difference. split; [by apply H6|]. rewrite elem_of_list_to_set. by apply Hd.
Qed.

(** The bytes of a trap context. *)
Definition cx_bytes (cx : TrapContext) : list Z := concat (le_bytes 8 <$> cx_words cx).

Lemma dwords_bytes (l : list Z) : Forall is_byte (concat (le_bytes 8 <$> l)) ∧ length (concat (le_bytes 8 <$> l)) = (8 * length l)%nat.
Proof.
  induction l as [|x l [IH1 IH2]]; [done|]. cbn [fmap list_fmap concat]. rewrite length_app, length_le_bytes, IH2. cbn [length]. split; [|lia].
  apply Forall_app_2; [apply le_bytes_byte|done].
Qed.

Lemma init_context_bytes st entry sp satp ksp th :
  let b := cx_bytes (app_init_context st entry sp satp ksp th) in Forall is_byte b ∧ length b = 296%nat.
Proof. apply dwords_bytes. Qed.

Lemma store_cx_spec m lo U f b st entry sp satp ksp th :
  mem_ok m lo U → 0 ≤ f < 2 ^ 44 → ram m !! f = Some b →
  let b' := splice 0 (cx_bytes (app_init_context st entry sp satp ksp th)) b in
  store_cx f (app_init_context st entry sp satp ksp th) m = Ok ((), set_ram (<[f := b']> (ram m)) m) ∧ frame_ok b'.
Proof.
  intros Hm Hf Hb b'. destruct (init_context_bytes st entry sp satp ksp th) as [Hby Hlen]. split.
  - unfold store_cx. run (get_data m f b Hf Hb). apply (put_bytes_run m f b); [|done].
    change (2 ^ 44) with 17592186044416 in Hf. change (2 ^ 52) with 4503599627370496. lia.
  - apply splice_frame_ok; [by apply (mo_frame _ _ _ Hm f)|done|]. rewrite Hlen. pose proof page_len_Z. lia.
Qed.

(** A program the loader takes: its headers are readable, and segments, stack
    and trap context do not overlap. *)
Record executable_image (ElfFile_new : list Z → option ElfFile) (input : list Z) (elf : ElfFile)
    (segs : list ProgramHeader) : Prop := {
  ei_parse : ElfFile_new input = Some elf;
  ei_magic : elf_magic elf = [0x7f; 0x45; 0x4c; 0x46];
  ei_segs : loadable (elf_program_headers elf) = Some segs;
  ei_good : Forall (good_segment input) segs;
  ei_top : max_end segs 0 + 3 ≤ VPN_END - 2;
  ei_pages : NoDup (pages_of (elf_layout input segs));
  ei_tramp : TRAMP_VPN ∉ pages_of (elf_layout input segs);
}.

(** The address space of a program, made in memory that is in order. *)
Lemma new_image ElfFile_new syms m lo U input elf segs :
  mem_ok m lo U → tramp_ok syms → executable_image ElfFile_new input elf segs →
  3 + areas_cost (elf_layout input segs).*1 ≤ free_frames m lo U →
  ∃ m1 ms nf f b acx, from_elf ElfFile_new syms input m = Ok ((ms, user_stack_top segs, elf_entry_point elf), m1) ∧
    ms_inv m1 lo (list_to_set nf ∪ U) [tramp_entry syms] ms ∧ grows lo m U m1 nf [] ∧ owned ms ≡ₚ nf ∧
    Forall2 (filled m1) (elf_layout input segs) (areas ms) ∧
    acx ∈ areas ms ∧ map_type acx = Framed ∧ cx_vpn ∈ area_pages acx ∧
    find_trap_cx ms m1 = Ok (f, m1) ∧ f ∈ data_owned (areas ms) ∧ ram m1 !! f = Some b ∧
    Z.of_nat (length nf) ≤ 3 + areas_cost (elf_layout input segs).*1.
Proof.
  intros Hm Htr [H1 H2 H3 H4 H5 H6 H7] Hfree.
  destruct (from_elf_spec ElfFile_new syms input elf segs H1 H2 H3 H4 H5 m lo U Hm Htr H6 H7 Hfree)
    as (m1 & ms & nf & Hrun & Hinv & Hg & Hown & Hfill & Hcost).
  assert ((trap_area, None) ∈ elf_layout input segs) as [j Hj]%list_elem_of_lookup by (unfold elf_layout; elt).
  destruct (Forall2_lookup_l _ _ _ _ _ Hfill Hj) as (acx & Ha & [F1 F2 F3 F4]). apply list_elem_of_lookup_2 in Ha. cbn [fst] in *.
  assert (cx_vpn ∈ area_pages acx) as Hcx by (unfold area_pages; rewrite F1; apply elem_of_seqZ; done).
  destruct (find_trap_cx_spec _ _ _ _ _ _ Hinv Ha F2 Hcx) as (f & Hf & _ & Hfind).
  destruct (area_frame _ _ _ _ _ _ Hinv Ha f Hf) as [HfU _]. destruct (used_ram _ _ _ _ _ Hinv f HfU) as [b Hbf].
  exists m1, ms, nf, f, b, acx. split_and!; try done. by eapply area_in_owned.
Qed.

Section exec.
Context (ElfFile_new : list Z → option ElfFile) (syms : kernel_symbols) (th : Z).
Context (k : kernel) (i : Z) (t : TCB) (lo : Z) (U : gset Z) (input : list Z) (elf : ElfFile) (segs : list ProgramHeader).
Notation p := (k_procs k).
Hypothesis Hb : borrowed p = [].
Hypothesis Ht : tasks p !! i = Some t.
Hypothesis Htr : tramp_ok syms.
Hypothesis Hms : ms_inv (k_mem k) lo U [tramp_entry syms] (memory_set t).
Hypothesis Hel : executable_image ElfFile_new input elf segs.
Hypothesis Hfree : 3 + areas_cost (elf_layout input segs).*1 ≤ free_frames (k_mem k) lo U.

(** The context the program starts with. *)
Definition start_cx : TrapContext :=
  app_init_context (sstatus (k_mach k)) (elf_entry_point elf) (user_stack_top segs) (ms_token (kernel_space k))
    (get_top (tcb_pid t)) th.

Let st (m : mem) (q : procs) : kernel := mkK m (kernel_space k) q (k_fs k) (k_mach k).

Lemma exec_image_run :
  ∃ m1 ms nf f b acx m2, from_elf ElfFile_new syms input (k_mem k) = Ok ((ms, user_stack_top segs, elf_entry_point elf), m1) ∧
    ms_inv m2 lo ((list_to_set nf ∪ U) ∖ list_to_set (owned (memory_set t))) [tramp_entry syms] ms ∧
    shrinks lo m1 (list_to_set nf ∪ U) m2 (owned (memory_set t)) [] ∧ ram m2 = ram m1 ∧ grows lo (k_mem k) U m1 nf [] ∧ owned ms ≡ₚ nf ∧
    Forall2 (filled m2) (elf_layout input segs) (areas ms) ∧
    acx ∈ areas ms ∧ map_type acx = Framed ∧ cx_vpn ∈ area_pages acx ∧ find_trap_cx ms m2 = Ok (f, m2) ∧
    f ∈ data_owned (areas ms) ∧ ram m2 !! f = Some b ∧ frame_ok (splice 0 (cx_bytes start_cx) b) ∧
    exec ElfFile_new syms th i input k = Ok ((),
      st (set_ram (<[f := splice 0 (cx_bytes start_cx) b]> (ram m2)) m2)
         (set_tasks <[i := set_trap_cx_ppn f (set_memory_set ms t)]> p)).
Proof using All.
  destruct (new_image ElfFile_new syms (k_mem k) lo U input elf segs (mi_mem _ _ _ _ _ Hms) Htr Hel Hfree) as (m1 & ms & nf & f & b & acx & Hrun1 & Hinv1 & Hg1 & Hown & Hfill & Ha & Hty & Hcx & Hfind & Hf & Hbf & _).
  assert (ms_inv m1 lo (list_to_set nf ∪ U) [tramp_entry syms] (memory_set t)) as Hold
    by (eapply ms_inv_grows; [exact Hms|exact Hg1|intros ? _; apply not_elem_of_nil]).
  destruct (drop_spec _ _ _ _ _ Hold) as (m2 & Hdrop & Hsh & Hram).
  assert (ms_inv m2 lo ((list_to_set nf ∪ U) ∖ list_to_set (owned (memory_set t))) [tramp_entry syms] ms) as Hinv2.
  { eapply ms_inv_shrinks; [exact Hinv1|exact Hsh|]. intros x Hx Hin. rewrite Hown in Hx.
    apply (gw_new _ _ _ _ _ _ Hg1 x Hx). by apply (mi_owned _ _ _ _ _ Hms). }
  assert (ram m2 !! f = Some b) as Hb2 by (by rewrite Hram).
  assert (f ∈ owned ms) as Hfo by (unfold owned; elt).
  pose proof (used_range _ _ _ _ _ Hinv2 f (mi_owned _ _ _ _ _ Hinv2 f Hfo)) as Hr.
  destruct (store_cx_spec m2 _ _ f b (sstatus (k_mach k)) (elf_entry_point elf) (user_stack_top segs)
    (ms_token (kernel_space k)) (get_top (tcb_pid t)) th (mi_mem _ _ _ _ _ Hinv2) Hr Hb2) as [Hst Hok].
  exists m1, ms, nf, f, b, acx, m2. split_and!; try done.
  { eapply Forall2_impl; [|exact Hfill]. intros q a [F1 F2 F3 F4]. split; [done..|]. intros j g Hg. rewrite Hram. by apply F4. }
  { destruct (find_trap_cx_spec _ _ _ _ _ _ Hinv2 Ha Hty Hcx) as (f2 & _ & Hi2 & Hfind2).
    destruct (find_trap_cx_spec _ _ _ _ _ _ Hinv1 Ha Hty Hcx) as (f3 & _ & Hi3 & Hfind3). rewrite Hfind in Hfind3.
    injection Hfind3 as <-. rewrite Hi2 in Hi3. injection Hi3 as <-. exact Hfind2. }
  unfold exec. rewrite (M_bind_run _ _ _ _ _ (in_mem_run _ k _ _ Hrun1)).
  rewrite (M_bind_run _ _ _ _ _ (in_mem_run _ (set_mem m1 k) _ _ Hfind)).
  change (set_mem m1 (set_mem m1 k)) with (set_procs p (set_mem m1 k)).
  runp (borrow_run p i t Ht ltac:(rewrite Hb; apply not_elem_of_nil)). rewrite Hb.
  set (p1 := set_borrowed [i] p).
  rewrite (M_bind_run _ _ _ _ _ (in_mem_run _ (set_procs p1 (set_mem m1 k)) _ _ Hdrop)).
  change (set_mem m2 (set_procs p1 (set_mem m1 k))) with (set_procs p1 (set_mem m2 k)).
  runp (modify_run p1 i t (set_memory_set ms) Ht). set (p2 := set_tasks _ p1).
  runp (modify_run p2 i _ (set_trap_cx_ppn f) (lookup_insert_eq _ _ _)).
  set (p3 := set_tasks _ p2). set (k3 := set_procs p3 (set_mem m2 k)).
  run (eq_refl : gets (λ k, sstatus (k_mach k)) k3 = Ok (sstatus (k_mach k), k3)).
  run (eq_refl : gets (λ k, ms_token (kernel_space k)) k3 = Ok (ms_token (kernel_space k), k3)).
  run (in_mem_run _ k3 _ _ Hst). unfold in_procs. cbn [k_procs set_mem k3 set_procs].
  unfold release, modify_st, p3, p2, p1, set_tasks, set_borrowed. cbn [tasks pids ready_queue current initproc next_task borrowed].
  rewrite filter_cons_False, insert_insert_eq by auto. unfold st. by rewrite Hb.
Qed.
End exec.

(** The page of the trap context is no page of a segment. *)
Lemma seg_not_cx input segs ph v :
  NoDup (pages_of (elf_layout input segs)) → ph ∈ segs → v ∈ area_pages (seg_area ph) → v ≠ cx_vpn.
Proof.
  intros Hnd Hph Hv ->. unfold pages_of, elf_layout in Hnd. rewrite fmap_app, concat_app in Hnd.
  apply list.NoDup_app in Hnd as (_ & Hd & _). apply (Hd cx_vpn).
  - apply elem_of_concat. exists (area_pages (seg_area ph)). split; [done|]. apply list_elem_of_fmap.
    exists (seg_push input ph). split; [done|]. by apply list_elem_of_fmap_2.
  - cbn [fmap list_fmap concat]. rewrite !elem_of_app. right; left. apply elem_of_seqZ. done.
Qed.
