(* ===== verification/ProcProps.v ===== *)
(** * ProcProps: the properties of processes, scheduling and open files

    The theorems about os/src/task, os/src/syscall, os/src/trap and os/src/fs,
    each with an instance at concrete inputs where it has hypotheses. *)

From stdpp Require Import base gmap list numbers relations.
From S2P Require Import Prelude Bytes BlockIO Bitmap Layout InodeIndex InodeData LayoutCodec Efs Vfs FsState FsOps FsDir Fs.
From S2P Require Import FsFormat FsPack FsImage FsProps.
From S2P Require Import Address FrameAllocator PageTable PageTableInv PageTableRep UserMem MemorySet AreaMap AreaCopy.
From S2P Require Import AddressSpace ForkSpace MemProps Pid KState Task OsFile Syscall Sched KKeeps KRefine KWait KSteps.
From S2P Require Import ElfSpace OsSpec KFork KExec.

(** ** Instances

    [initproc] with one child, or alone, and what the rest of the state holds
    does not matter. *)
Definition sample_tcb (pid : Z) (st : TaskStatus) (par : option Z) (ch : list Z) : TCB :=
  mkTCB pid 0 0 (Fresh zero_init) st (mkMS (mkPT 0 []) []) par ch 0 [Some Stdin; Some Stdout; Some Stdout].
Definition sample_kernel (q : procs) : kernel :=
  mkK (mkMem ∅ SFA_new) (mkMS (mkPT 0 []) []) q (mkOsfs ∅ (inode_of sample_efs 0) ∅ 0) (mkMach [] [] 0 0 0).

(** One process, and its status. *)
Definition one (st : TaskStatus) : procs :=
  mkProcs (mkPids 1 []) {[0 := sample_tcb 0 st None []]} 1 (if st is Ready then [0] else [])
    (if st is Running then Some 0 else None) (Some 0) [].

(** Process 1, a child of initproc, with its status; initproc runs unless it
    does. *)
Definition two (st0 st1 : TaskStatus) : procs :=
  mkProcs (mkPids 2 []) (<[0 := sample_tcb 0 st0 None [1]]> {[1 := sample_tcb 1 st1 (Some 0) []]}) 2
    ((if st0 is Ready then [0] else []) ++ (if st1 is Ready then [1] else []))
    (if st0 is Running then Some 0 else if st1 is Running then Some 1 else None) (Some 0) [].

Lemma one_lookup st i v : s_tasks (abs (one st)) !! i = Some v ↔ i = 0 ∧ v = mkView 0 st None [].
Proof. cbn. rewrite map_fmap_singleton, lookup_singleton_Some. naive_solver. Qed.

Lemma one_inv st : st ≠ Zombie → procs_inv (one st).
Proof.
  intros Hst. split; [|done]. pose proof (one_lookup st) as L. split.
  - exists 0, (mkView 0 st None []). split_and!; [done|by apply L|done|done|]. intros j [w [-> _]%L]. lia.
  - cbn. destruct st; [apply NoDup_singleton|constructor|done].
  - intros i. cbn [s_ready abs one ready_queue]. split.
    + intros Hi. destruct st; [|by apply elem_of_nil in Hi|done]. apply list_elem_of_singleton in Hi as ->.
      eexists. split; [by apply L|done].
    + intros (v & [-> ->]%L & Hv). cbn in Hv. subst st. by apply list_elem_of_singleton.
  - intros i. cbn [s_current abs one current]. split.
    + intros Hi. destruct st; [done| |done]. injection Hi as <-. eexists. split; [by apply L|done].
    + intros (v & [-> ->]%L & Hv). cbn in Hv. by subst st.
  - intros i v c [-> ->]%L Hc. by apply elem_of_nil in Hc.
  - intros c vc i [-> ->]%L. done.
  - intros c vc i [-> ->]%L. done.
  - intros c vc [-> ->]%L. done.
  - intros i v [-> ->]%L. constructor.
  - intros i v [-> ->]%L. done.
  - intros i j v w [-> ->]%L [-> ->]%L. done.
  - exists {[0]}. split; [|intros x; rewrite elem_of_singleton; split].
    + split; cbn; [done|constructor|by intros x ?%elem_of_nil|]. intros x. rewrite elem_of_singleton.
      split; [intros ->; split; [lia|apply not_elem_of_nil]|lia].
    + intros ->. eexists _, _. split; [by apply L|done].
    + intros (i & v & [-> ->]%L & <-). done.
  - intros i [v [-> _]%L]. cbn. lia.
Qed.

(** The states with two processes are what steps of the specification lead
    to: a fork, a change of task, an exit. *)
Lemma two_fork_inv : procs_inv (two Running Ready).
Proof.
  split; [|done]. replace (abs (two Running Ready)) with (s_fork 0 (mkView 0 Running None []) 1 (mkPids 2 []) (abs (one Running)))
    by (vm_compute; reflexivity).
  eapply sstep_inv; [apply (one_inv Running); done|]. by apply ss_fork.
Qed.
Lemma two_switch_inv : procs_inv (two Ready Running).
Proof.
  split; [|done]. set (s := s_suspend 0 (mkView 0 Running None [1]) (abs (two Running Ready))).
  assert (sched_inv s) as Hs by (eapply sstep_inv; [apply two_fork_inv|by apply ss_suspend]).
  replace (abs (two Ready Running)) with (s_dispatch 1 (mkView 1 Ready (Some 0) []) [0] s) by (vm_compute; reflexivity).
  eapply sstep_inv; [exact Hs|]. by apply ss_dispatch.
Qed.
Lemma two_zombie_inv : procs_inv (two Running Zombie).
Proof.
  split; [|done]. set (s := s_exit 1 (mkView 1 Running (Some 0) []) 0 (abs (two Ready Running))).
  assert (sched_inv s) as Hs by (eapply sstep_inv; [apply two_switch_inv|by apply ss_exit]).
  replace (abs (two Running Zombie)) with (s_dispatch 0 (mkView 0 Ready None [1]) [] s) by (vm_compute; reflexivity).
  eapply sstep_inv; [exact Hs|]. by apply ss_dispatch.
Qed.

(** ** The scheduler *)

(** C1: The kernel keeps its processes in order as long as it runs.  From a
    state in which the invariant holds, any number of steps (traps with their
    system calls, turns of the idle flow, user stores, input and time) is a
    sequence of steps of the abstract scheduler, and the invariant holds
    afterwards: initproc lives; the queue holds exactly the ready processes,
    once each; the processor runs exactly the running one; parents and children
    agree and form a tree; zombies have no children; no two processes share an
    identifier; nothing is left borrowed.  The one bound is the number of
    identifiers, which are never reused before they are given back. *)
Theorem scheduler_refines ElfFile_new syms th tr fuel n k k' :
  procs_inv (k_procs k) → pa_current (pids (k_procs k)) + Z.of_nat n < 2 ^ 64 - 1 →
  nsteps (kstep ElfFile_new syms th tr fuel) n k k' →
  rtc sstep (abs (k_procs k)) (abs (k_procs k')) ∧ procs_inv (k_procs k').
Proof. intros Hp Hn Hst. destruct (nsteps_inv _ _ _ _ _ n k k' Hp Hn Hst) as (H1 & H2 & _). done. Qed.

Lemma scheduler_refines_witness : procs_inv (k_procs (sample_kernel (one Running))).
Proof.
  apply (scheduler_refines (λ _, None) sample_syms 0 0 0 1 (sample_kernel (one Ready))).
  - by apply one_inv.
  - done.
  - eapply nsteps_once, (step_idle _ _ _ _ _ _ (Some (8 <<u 60))); [done|]. vm_compute. reflexivity.
Defined.

(** One turn of the idle flow and the timer interrupt that ends it. *)
Definition timeslice : M procs () := run_tasks_fetch ≫= λ _, suspend_current_and_run_next KTrapEnd.
Fixpoint timeslices (n : nat) : M procs () :=
  match n with O => mret () | S n => timeslice ≫= λ _, timeslices n end.

Lemma timeslice_rotates p j q :
  procs_inv p → current p = None → ready_queue p = j :: q →
  ∃ p', timeslice p = Ok ((), p') ∧ procs_inv p' ∧ current p' = None ∧ ready_queue p' = q ++ [j].
Proof.
  intros Hp Hc Hq. pose proof (fetch_refines p Hp Hc) as Hf. rewrite Hq in Hf.
  destruct Hf as (p1 & t & Hf & Hst & Hc1 & Hb1 & _ & _ & _ & Hq1).
  assert (procs_inv p1) as Hp1 by (split; [eapply sstep_inv; [apply Hp|done]|done]).
  destruct (suspend_refines p1 j KTrapEnd Hp1 Hc1) as (p2 & Hs & Hst2 & Hc2 & Hb2 & _ & Hq2).
  exists p2. unfold timeslice. run Hf. split_and!; [done| |done|by rewrite Hq2, Hq1].
  split; [eapply sstep_inv; [apply Hp1|done]|done].
Qed.

(** C31: Scheduling is round robin, so no ready process starves: a process with
    [n] others before it in the queue is the one the idle flow takes after [n]
    time slices, whatever the others are. *)
Theorem round_robin p l1 i l2 :
  procs_inv p → current p = None → ready_queue p = l1 ++ i :: l2 →
  ∃ p' p'', timeslices (length l1) p = Ok ((), p') ∧ procs_inv p' ∧ ready_queue p' = i :: l2 ++ l1 ∧
    run_tasks_fetch p' = Ok (Some i, p'') ∧ current p'' = Some i.
Proof.
  revert p l2. induction l1 as [|j l1 IH]; intros p l2 Hp Hc Hq.
  - pose proof (fetch_refines p Hp Hc) as Hf. rewrite Hq in Hf. destruct Hf as (p1 & t & Hf & _ & Hc1 & _).
    exists p, p1. by rewrite app_nil_r.
  - destruct (timeslice_rotates p j _ Hp Hc Hq) as (p1 & Hs & Hp1 & Hc1 & Hq1). rewrite <- app_assoc in Hq1.
    destruct (IH p1 (l2 ++ [j]) Hp1 Hc1 Hq1) as (p' & p'' & H1 & H2 & H3 & H4 & H5).
    exists p', p''. cbn [timeslices length]. run Hs. rewrite <- app_assoc in H3. done.
Qed.

(** Both processes wait, the child first. *)
Definition two_idle : procs := set_ready [1; 0] (two Ready Ready).
Lemma two_idle_inv : procs_inv two_idle.
Proof.
  split; [|done]. replace (abs two_idle) with (s_suspend 0 (mkView 0 Running None [1]) (abs (two Running Ready)))
    by (vm_compute; reflexivity).
  eapply sstep_inv; [apply two_fork_inv|]. by apply ss_suspend.
Qed.

Lemma round_robin_witness : ∃ p' p'', timeslices 1 two_idle = Ok ((), p') ∧ run_tasks_fetch p' = Ok (Some 0, p'').
Proof.
  destruct (round_robin two_idle [1] 0 [] two_idle_inv) as (p' & p'' & H1 & _ & _ & H2 & _); [done|done|].
  exists p', p''. split; [exact H1|exact H2].
Defined.

(** ** Exit and wait *)

(** C18: When a process other than initproc exits, its data pages go back to
    the frame allocator at once, its block becomes a zombie with the exit code and no
    children, every child it had is a child of initproc from then on, and the
    processor is free; its identifier and its page table stay until it is reaped. *)
Theorem exit_hands_over k i init t code lo U tr :
  procs_inv (k_procs k) → current (k_procs k) = Some i → tasks (k_procs k) !! i = Some t →
  initproc (k_procs k) = Some init → i ≠ init → ms_inv (k_mem k) lo U tr (memory_set t) →
  ∃ k', exit_current_and_run_next code k = Ok ((), k') ∧ procs_inv (k_procs k') ∧ current (k_procs k') = None ∧
    tasks (k_procs k') !! i = Some (set_memory_set (mkMS (page_table (memory_set t)) [])
      (set_children [] (set_exit_code code (set_status Zombie t)))) ∧
    (∀ c, c ∈ children t → ∃ tc ti, tasks (k_procs k') !! c = Some tc ∧ parent tc = Some init ∧
       tasks (k_procs k') !! init = Some ti ∧ c ∈ children ti) ∧
    mem_ok (k_mem k') lo (U ∖ list_to_set (data_owned (areas (memory_set t)))) ∧
    pids (k_procs k') = pids (k_procs k).
Proof.
  intros Hp Hc Ht Hi Hne Hms. destruct (recycle_spec _ _ _ _ _ Hms) as (m' & Hrec & Hsh & _).
  pose proof (exit_run k i init t code Hp Hc Ht Hi Hne) as H. rewrite Hrec in H.
  destruct H as (p' & Hrun & Habs & Hb & Hself). exists (set_mem m' (set_procs p' k)).
  pose proof (exit_inv (abs (k_procs k)) i init (view_of t) (proj1 Hp) Hc (abs_lookup _ _ _ Ht) Hi Hne) as Hinv.
  assert (procs_inv p') as Hp' by (split; [by rewrite Habs|done]).
  split_and!; [exact Hrun|exact Hp'| |exact Hself| |apply (sh_mem _ _ _ _ _ _ Hsh)|].
  - change (s_current (abs p') = None). by rewrite Habs.
  - intros c Hch. destruct (own_child (abs (k_procs k)) i init (view_of t) (proj1 Hp) Hc (abs_lookup _ _ _ Ht) Hi c Hch)
      as (vc & Hvc & _ & Hci & Hcn).
    pose proof (exit_lookup_old (abs (k_procs k)) i init (view_of t) c vc Hvc Hci) as Hl. rewrite <- Habs in Hl.
    apply abs_lookup_inv in Hl as (tc & Htc & Hv).
    assert (parent tc = Some init) as Hpar.
    { change (parent tc) with (v_parent (view_of tc)). rewrite <- Hv. cbn. by rewrite decide_True. }
    destruct (sv_parent _ (proj1 Hp') c (view_of tc) init (abs_lookup _ _ _ Htc) Hpar) as (vi & Hvi & Hin).
    apply abs_lookup_inv in Hvi as (ti & Hti & ->). exists tc, ti. done.
  - change (s_pids (abs p') = s_pids (abs (k_procs k))). by rewrite Habs.
Qed.

(** The processes with an address space. *)
Definition with_space (ms : MemorySet) (q : procs) : procs := set_tasks (fmap (set_memory_set ms)) q.
Definition kernel_with (m : mem) (ks : MemorySet) (q : procs) : kernel :=
  mkK m ks q (mkOsfs ∅ (inode_of sample_efs 0) ∅ 0) (mkMach [] [] 0 0 0).

Lemma with_space_inv ms q : procs_inv q → procs_inv (with_space ms q).
Proof.
  intros [Hs Hb]. split; [|done]. replace (abs (with_space ms q)) with (abs q); [done|].
  unfold abs, with_space, set_tasks. cbn. f_equal. rewrite <- map_fmap_compose. by apply map_fmap_ext.
Qed.

Lemma exit_hands_over_witness : ∃ k k', exit_current_and_run_next 7 k = Ok ((), k') ∧
  procs_inv (k_procs k') ∧ current (k_procs k') = None ∧ exit_code <$> tasks (k_procs k') !! 1 = Some 7.
Proof.
  destruct sample_space as (m & U & ms & Hms & _).
  set (k := kernel_with m ms (with_space ms (two Ready Running))). exists k.
  edestruct (exit_hands_over k 1 0 (set_memory_set ms (sample_tcb 1 Running (Some 0) [])) 7 256 U)
    as (k' & H1 & H2 & H3 & H4 & _); [apply with_space_inv, two_switch_inv|done|done|done|done|exact Hms|].
  exists k'. split; [exact H1|]. split; [exact H2|]. split; [exact H3|]. rewrite H4. reflexivity.
Defined.

(** initproc must not exit: [exit_current_and_run_next] borrows the block of
    the process that exits and then, to hand over the children, the block of
    initproc, which is the same one; the second borrow panics, whatever the exit
    code is. *)
Lemma exit_of_initproc_panics k i t code :
  procs_inv (k_procs k) → current (k_procs k) = Some i → tasks (k_procs k) !! i = Some t →
  initproc (k_procs k) = Some i → exit_current_and_run_next code k = Stop Panicked.
Proof. intros Hp Hc Ht Hi. by apply (exit_initproc k i i t). Qed.

(** C17: [sys_waitpid] distinguishes its three cases exactly: -1 when no child
    matches, -2 when none that matches has exited, both with nothing changed;
    otherwise it takes the first such zombie out of the list of children, and
    the assertion that this was the last reference to its block never fails.  A
    call that goes on to return gives the child's identifier, which is free
    again and the next one to be handed out, and the block is gone. *)
Theorem waitpid_cases k i t pid ptr :
  procs_inv (k_procs k) → current (k_procs k) = Some i → tasks (k_procs k) !! i = Some t →
  if existsb (child_matches (k_procs k) pid) (children t) then
    match list_find (λ c, child_dead (k_procs k) pid c) (children t) with
    | None => sys_waitpid pid ptr k = Ok (Return (-2), k)
    | Some (idx, c) => ∃ ct, tasks (k_procs k) !! c = Some ct ∧ task_status ct = Zombie ∧ pid_matches pid ct ∧
        strong_count (unlinked k i t idx) [c; i] c = 1%nat ∧
        sys_waitpid pid ptr k = wait_rest i t c ct ptr (set_procs (set_borrowed [i] (unlinked k i t idx)) k) ∧
        ∀ o k', sys_waitpid pid ptr k = Ok (o, k') →
          o = Return (as_isize (tcb_pid ct)) ∧ procs_inv (k_procs k') ∧ tasks (k_procs k') !! c = None ∧
          fst (pa_alloc (pids (k_procs k'))) = tcb_pid ct
    end
  else sys_waitpid pid ptr k = Ok (Return (-1), k).
Proof.
  intros Hp Hc Ht. pose proof (wait_run k i t pid ptr Hp Hc Ht) as Hrun.
  destruct (existsb _ _); [|done]. destruct (list_find _ _) as [[idx c]|] eqn:Hf; [|done].
  apply list_find_Some in Hf as (Hidx & (ct & Hct & Hz & Hm)%child_dead_inv & _). rewrite Hct in Hrun.
  exists ct. split_and!; try done; [by eapply unlinked_once|]. intros o k' H.
  rewrite Hrun in H. destruct (wait_rest_Ok _ _ _ _ _ _ _ _ _ Hp Hc Ht Hidx Hct Hz H) as (a & -> & Ha & Habs & Hb).
  pose proof (abs_lookup _ _ _ Ht) as Hv. pose proof (abs_lookup _ _ _ Hct) as Hvc. split_and!; [done| | |].
  - split; [|done]. rewrite Habs. eapply sstep_inv; [apply Hp|]. by eapply ss_reap.
  - destruct (tasks (k_procs k') !! c) as [x|] eqn:E; [|done]. apply abs_lookup in E. rewrite Habs in E. cbn in E.
    by rewrite lookup_delete_eq in E.
  - change (pids (k_procs k')) with (s_pids (abs (k_procs k'))). rewrite Habs. cbn [s_pids s_reap].
    unfold pa_dealloc in Ha. destruct (tcb_pid ct <? pa_current (pids (k_procs k))); [|done]. cbn in Ha.
    destruct (negb _); [|done]. by injection Ha as <-.
Qed.

Lemma waitpid_cases_witness :
  sys_waitpid 5 0 (sample_kernel (two Running Zombie)) = Ok (Return (-1), sample_kernel (two Running Zombie)) ∧
  sys_waitpid 1 0 (sample_kernel (two Running Ready)) = Ok (Return (-2), sample_kernel (two Running Ready)) ∧
  ∃ ct, tasks (two Running Zombie) !! 1 = Some ct ∧ task_status ct = Zombie ∧
    sys_waitpid (-1) 0 (sample_kernel (two Running Zombie)) = wait_rest 0 (sample_tcb 0 Running None [1]) 1 ct 0
      (set_procs (set_borrowed [0] (unlinked (sample_kernel (two Running Zombie)) 0 (sample_tcb 0 Running None [1]) 0)) (sample_kernel (two Running Zombie))).
Proof.
  split; [|split].
  - exact (waitpid_cases (sample_kernel (two Running Zombie)) 0 (sample_tcb 0 Running None [1]) 5 0 two_zombie_inv eq_refl eq_refl).
  - exact (waitpid_cases (sample_kernel (two Running Ready)) 0 (sample_tcb 0 Running None [1]) 1 0 two_fork_inv eq_refl eq_refl).
  - destruct (waitpid_cases (sample_kernel (two Running Zombie)) 0 (sample_tcb 0 Running None [1]) (-1) 0 two_zombie_inv eq_refl eq_refl)
      as (ct & H1 & H2 & _ & _ & H3 & _). exists ct. split; [exact H1|]. split; [exact H2|exact H3].
Defined.

(** ** Fork *)

(** What fork needs: the address spaces of the process and of the kernel are in
    order and share no table frame, the place of the new kernel stack is free, and
    there are frames for the copy and the stack. *)
Record forkable (syms : kernel_symbols) (k : kernel) (i : Z) (t : TCB) (lo : Z) (U : gset Z) (ktr : list (Z * Z))
    (pid : Z) (al : PidAllocator) (acx : MapArea) : Prop := {
  fk_procs : procs_inv (k_procs k);
  fk_room : pid_room (k_procs k);
  fk_current : current (k_procs k) = Some i;
  fk_task : tasks (k_procs k) !! i = Some t;
  fk_tramp : tramp_ok syms;
  fk_space : ms_inv (k_mem k) lo U [tramp_entry syms] (memory_set t);
  fk_framed : Forall (λ a, map_type a = Framed) (areas (memory_set t));
  fk_acx : acx ∈ areas (memory_set t);
  fk_cx : cx_vpn ∈ area_pages acx;
  fk_kernel : ms_inv (k_mem k) lo U ktr (kernel_space k);
  fk_sep x : x ∈ frames (page_table (kernel_space k)) → x ∉ owned (memory_set t);
  fk_alloc : pa_alloc (pids (k_procs k)) = (pid, al);
  fk_pid : 0 ≤ pid < MAX_PID;
  fk_stack v : v ∈ area_pages (kstack_area pid) → v ∉ (ms_entries ktr (kernel_space k)).*1;
  fk_free : 3 + areas_cost (areas (memory_set t)) + area_cost (kstack_area pid) ≤ free_frames (k_mem k) lo U;
}.

(** What a process and its copy see after the fork. *)
Lemma fork_views syms k i t lo U ktr pid al acx m2 ms1 ks2 nf f0 f1 b :
  forkable syms k i t lo U ktr pid al acx → fork_mem syms k t lo U ktr m2 ms1 ks2 nf f0 f1 b →
  let m' := set_ram (<[f1 := child_cx pid b]> (ram m2)) m2 in
  ∀ a va, a ∈ areas (memory_set t) → floor va ∈ area_pages a →
    (floor va ≠ cx_vpn → user_byte m' (user_map syms ms1) va = user_byte (k_mem k) (user_map syms (memory_set t)) va) ∧
    user_byte m' (user_map syms (memory_set t)) va = user_byte (k_mem k) (user_map syms (memory_set t)) va.
Proof.
  intros [Hp Hr Hc Ht Htr Hms Hfr Hacx Hcx Hks Hsep Hal Hpid Hst Hfree] [Hchild Hpar _ Hcp Hsame Hnew _ _ _ Hcx1 Hdata _] m' a va Ha Hva.
  pose proof (proj1 (list.Forall_forall _ _) Hfr) as Hty. split.
  - intros Hne. pose proof Ha as [x Hx]%list_elem_of_lookup. destruct (Forall2_lookup_l _ _ _ _ _ Hcp Hx) as (a' & Hx' & Hca).
    pose proof Hacx as [y Hy]%list_elem_of_lookup. destruct (Forall2_lookup_l _ _ _ _ _ Hcp Hy) as (acx' & Hy' & Hcc).
    apply list_elem_of_lookup_2 in Hx', Hy'.
    rewrite <- (proj1 (copy_view _ _ _ _ _ _ _ _ _ _ _ va Hms Hchild Ha Hx' (Hty a Ha) Hca Hva)).
    apply (cx_write_view m2 lo _ _ ms1 acx' a' f1 _ va Hchild Hy'); try done.
    + by rewrite (ac_type _ _ _ _ Hcc), Hty.
    + unfold area_pages. by rewrite (ac_range _ _ _ _ Hcc).
    + by rewrite (ac_type _ _ _ _ Hca), Hty.
    + unfold area_pages. by rewrite (ac_range _ _ _ _ Hca).
  - eapply view_same; eauto. intros f Hf. destruct (area_frame _ _ _ _ _ _ Hms Ha _ Hf) as [HfU _].
    assert (f ∈ owned (memory_set t)) as Ho by (unfold owned; apply elem_of_app; right; by eapply area_in_owned).
    unfold m'. cbn [ram set_ram]. rewrite lookup_insert_ne; [by apply Hsame|]. intros ->.
    apply (Hnew f); [|done]. unfold owned. elt.
Qed.

(** C8: With enough free frames [sys_fork] succeeds and returns the child's
    identifier, which no other process has.  The child is queued, a child of the
    caller, with the same open files and the same memory apart from its trap
    context: there the kernel stack is its own and the result register is 0.
    The caller's memory stays, and the address spaces of all three, caller, child
    and kernel, are in order. *)
Theorem fork_makes_child syms tr k i t lo U ktr pid al acx :
  forkable syms k i t lo U ktr pid al acx →
  ∃ k' ct f0 b nf, let c := next_task (k_procs k) in
    sys_fork syms tr k = Ok (Return pid, k') ∧ procs_inv (k_procs k') ∧
    (∀ j tj, tasks (k_procs k) !! j = Some tj → tcb_pid tj ≠ pid) ∧
    tasks (k_procs k') !! c = Some ct ∧ tcb_pid ct = pid ∧ parent ct = Some i ∧ fd_table ct = fd_table t ∧
    ready_queue (k_procs k') = ready_queue (k_procs k) ++ [c] ∧ current (k_procs k') = Some i ∧
    find_trap_cx (memory_set t) (k_mem k) = Ok (f0, k_mem k) ∧ ram (k_mem k) !! f0 = Some b ∧
    ram (k_mem k') !! trap_cx_ppn ct = Some (child_cx pid b) ∧
    (∀ a va, a ∈ areas (memory_set t) → floor va ∈ area_pages a →
      (floor va ≠ cx_vpn →
        user_byte (k_mem k') (user_map syms (memory_set ct)) va = user_byte (k_mem k) (user_map syms (memory_set t)) va) ∧
      user_byte (k_mem k') (user_map syms (memory_set t)) va = user_byte (k_mem k) (user_map syms (memory_set t)) va) ∧
    ms_inv (k_mem k') lo (list_to_set nf ∪ U) [tramp_entry syms] (memory_set ct) ∧
    ms_inv (k_mem k') lo (list_to_set nf ∪ U) [tramp_entry syms] (memory_set t) ∧
    ms_inv (k_mem k') lo (list_to_set nf ∪ U) ktr (kernel_space k').
Proof.
  intros Hk. pose proof Hk as [Hp Hr Hc Ht Htr Hms Hfr Hacx Hcx Hks Hsep Hal Hpid Hst Hfree].
  destruct (sys_fork_run syms tr k i t lo U ktr pid al acx Hp Hc Ht Htr Hms Hfr Hacx Hcx Hks Hsep Hal Hpid Hst Hfree)
    as (m2 & ms1 & ks2 & nf & f0 & f1 & b & Hfm & Hrun).
  pose proof (fork_views _ _ _ _ _ _ _ _ _ _ _ _ _ _ _ _ _ Hk Hfm) as Hview.
  destruct (refines_fork syms tr k i _ _ Hp Hr Hc Hrun) as [Hsim Hcur].
  assert (as_isize pid = pid) as Hsz.
  { unfold as_isize, to_signed, wrap. unfold MAX_PID in Hpid. change (2 ^ 24) with 16777216 in Hpid.
    rewrite Z.mod_small by (change (2 ^ 64) with 18446744073709551616; lia). by destruct (Z.ltb_spec pid (2 ^ (64 - 1))); [|lia]. }
  rewrite Hsz in Hrun. pose proof Hfm as [Hchild Hpar Hker _ Hsame Hnew Hksep Hcx0 Hb Hcx1 Hdata Hb1].
  assert (f1 ∈ owned ms1) as Ho by (unfold owned; elt).
  assert (frame_ok (child_cx pid b)) as Hok.
  { apply frame_ok_set; [apply frame_ok_set; [|done]|done]. apply (mo_frame _ _ _ (mi_mem _ _ _ _ _ Hms) _ _ Hb). }
  eexists _, (child_tcb tr i t pid ms1 f1), f0, b, nf. split; [exact Hrun|].
  split_and!; try done; cbn [k_mem k_procs kernel_space child_tcb trap_cx_ppn memory_set].
  - by eapply sim_inv.
  - intros j tj Hj Heq. destruct (sv_pids _ (proj1 Hp)) as (V & Hpa & HV). pose proof (pa_alloc_spec _ _ Hpa Hr) as Hsp.
    cbn [s_pids abs] in Hsp. rewrite Hal in Hsp. destruct Hsp as (Hn & _). apply Hn, HV. exists j, (view_of tj). split; [by apply abs_lookup|done].
  - cbn. rewrite lookup_insert_ne; [by rewrite lookup_insert_eq|]. pose proof (fresh_task _ (proj1 Hp)). congruence.
  - cbn. by rewrite lookup_insert_eq.
  - apply ms_inv_put; [done|eauto| |done]. pose proof (mi_nodup _ _ _ _ _ Hchild) as Hnd. unfold owned in Hnd.
    apply list.NoDup_app in Hnd as (_ & Hd & _). intros Hin. by apply (Hd f1).
  - apply ms_inv_put; [done|eauto| |done]. intros Hin. apply (Hnew f1 Ho). apply (mi_owned _ _ _ _ _ Hms). unfold owned. elt.
  - apply ms_inv_put; [done|eauto|by apply Hksep|done].
Qed.

(** A process with a page for its trap context, and a kernel with nothing but
    the trampoline. *)
Definition sample_cx : MapArea := mkArea (mkRange cx_vpn (cx_vpn + 1)) [] Framed 6.

Lemma sample_forkable : ∃ k t U ktr acx, forkable sample_syms k 0 t 256 U ktr 1 (mkPids 2 []) acx.
Proof.
  destruct sample_push as (m & U & ms & Hinv & Har & Hf).
  assert (area_cost sample_cx ≤ 10) as Hc1 by (vm_compute; done).
  assert (area_cost (kstack_area 1) ≤ 10) as Hc2 by (vm_compute; done).
  destruct (push_spec m 256 U [tramp_entry sample_syms] ms Hinv sample_cx None)
    as (m1 & pt1 & fs & nn & _ & Hinv1 & Hff & _ & Hg1 & Hn1 & _); try done.
  { intros v Hv%elem_of_seqZ. change (134217726 ≤ v < 134217727) in Hv. unfold ms_entries. rewrite Har.
    change ((concat (area_maps <$> []) ++ [tramp_entry sample_syms]).*1) with [134217727]. rewrite list_elem_of_singleton. lia. }
  { lia. }
  set (us := mkMS pt1 (areas ms ++ [mapped sample_cx fs])) in *.
  pose proof (gw_free _ _ _ _ _ _ Hg1) as Hf1.
  destruct (new_space_spec sample_syms m1 256 (list_to_set (fs ++ nn) ∪ U) (mi_mem _ _ _ _ _ Hinv1) sample_tramp ltac:(lia))
    as (m2 & pt2 & _ & Hinv2 & Hg2 & Hn2).
  exists (kernel_with m2 (mkMS pt2 []) (with_space us (one Running))), (set_memory_set us (sample_tcb 0 Running None [])).
  eexists _, [tramp_entry sample_syms], (mapped sample_cx fs).
  split; cbn [k_mem k_procs kernel_space kernel_with memory_set set_memory_set].
  - by apply with_space_inv, one_inv.
  - done.
  - done.
  - done.
  - apply sample_tramp.
  - eapply ms_inv_grows; [exact Hinv1|exact Hg2|intros ? _; apply not_elem_of_nil].
  - cbn [areas us]. rewrite Har. by apply list.Forall_cons.
  - cbn [areas us]. elt.
  - apply elem_of_seqZ. cbn. lia.
  - exact Hinv2.
  - intros x Hx Ho. apply (gw_new _ _ _ _ _ _ Hg2 x Hx). by apply (mi_owned _ _ _ _ _ Hinv1).
  - done.
  - done.
  - intros v Hv%elem_of_seqZ. change (134217722 ≤ v < 134217724) in Hv.
    change ((ms_entries [tramp_entry sample_syms] (mkMS pt2 [])).*1) with [134217727]. rewrite list_elem_of_singleton. lia.
  - rewrite (gw_free _ _ _ _ _ _ Hg2). cbn [areas us]. rewrite Har.
    change (areas_cost ([] ++ [mapped sample_cx fs])) with (area_cost sample_cx + 0). lia.
Qed.

Lemma fork_makes_child_witness : ∃ k k', sys_fork sample_syms 0 k = Ok (Return 1, k') ∧ procs_inv (k_procs k').
Proof.
  destruct sample_forkable as (k & t & U & ktr & acx & Hk). exists k.
  destruct (fork_makes_child sample_syms 0 k 0 t 256 U ktr 1 (mkPids 2 []) acx Hk) as (k' & ct & f0 & b & nf & H1 & H2 & _).
  exists k'. split; [exact H1|exact H2].
Defined.

(** ** Traps *)

(** The next timer interrupt comes after a hundredth of a second. *)
Definition next_alarm (x : machine) : machine :=
  mkMach (console_in x) (console_out x) (clock x) (clock x +u CLOCK_FREQ / 100) (sstatus x).

(** The process [i] with block [t] is at the end of the ready queue, to go on with
    [c]; nothing else of the processes changes. *)
Definition requeued (c : kont) (i : Z) (t : TCB) (p : procs) : procs :=
  mkProcs (pids p) (<[i := set_task_cx (Switched c) (set_status Ready t)]> (tasks p)) (next_task p)
    (ready_queue p ++ [i]) None (initproc p) (borrowed p).

(** The process [i] with block [t] is a zombie with the exit code, its data pages
    are free, and the processor is. *)
Definition killed (code i : Z) (t : TCB) (lo : Z) (U : gset Z) (k k' : kernel) : Prop :=
  procs_inv (k_procs k') ∧ current (k_procs k') = None ∧ ready_queue (k_procs k') = ready_queue (k_procs k) ∧
  tasks (k_procs k') !! i = Some (set_memory_set (mkMS (page_table (memory_set t)) [])
    (set_children [] (set_exit_code code (set_status Zombie t)))) ∧
  mem_ok (k_mem k') lo (U ∖ list_to_set (data_owned (areas (memory_set t)))).

(** What a trap that kills the process does: initproc takes the kernel with it. *)
Definition kill_or_panic (r : res (option Z * kernel)) (code i init : Z) (t : TCB) (lo : Z) (U : gset Z) (k : kernel) : Prop :=
  if decide (i = init) then r = Stop Panicked else ∃ k', r = Ok (None, k') ∧ killed code i t lo U k k'.

Lemma kill_run k i init t code lo U tr :
  procs_inv (k_procs k) → current (k_procs k) = Some i → tasks (k_procs k) !! i = Some t →
  initproc (k_procs k) = Some init → ms_inv (k_mem k) lo U tr (memory_set t) →
  kill_or_panic ((exit_current_and_run_next code ≫= λ _, mret None) k) code i init t lo U k.
Proof.
  intros Hp Hc Ht Hi Hms. unfold kill_or_panic. case_decide as Heq.
  { apply M_bind_stop. by apply (exit_initproc k i init t). }
  destruct (recycle_spec _ _ _ _ _ Hms) as (m' & Hrec & Hsh & _).
  pose proof (exit_run k i init t code Hp Hc Ht Hi Heq) as H. rewrite Hrec in H.
  destruct H as (p' & Hrun & Habs & Hb & Hself). exists (set_mem m' (set_procs p' k)). split; [by run Hrun|].
  pose proof (exit_inv (abs (k_procs k)) i init (view_of t) (proj1 Hp) Hc (abs_lookup _ _ _ Ht) Hi Heq) as Hinv.
  split_and!; [split; [by cbn; rewrite Habs|done]| | |exact Hself|apply (sh_mem _ _ _ _ _ _ Hsh)].
  - change (s_current (abs p') = None). by rewrite Habs.
  - change (s_ready (abs p') = s_ready (abs (k_procs k))). by rewrite Habs.
Qed.

Lemma the_cx_run k i t : procs_inv (k_procs k) → current (k_procs k) = Some i → tasks (k_procs k) !! i = Some t →
  in_procs current_trap_cx k = Ok (trap_cx_ppn t, k) ∧ trap_return k = Ok (get_user_token t, k).
Proof.
  intros [_ Hb] Hc Ht. assert (access i (k_procs k) = Ok (t, k_procs k)) as Ha
    by (apply access_run; [done|rewrite Hb; apply not_elem_of_nil]).
  assert (current_task (k_procs k) = Ok (Some i, k_procs k)) as H1 by (unfold current_task, gets; by rewrite Hc).
  assert (current_trap_cx (k_procs k) = Ok (trap_cx_ppn t, k_procs k)) as H2
    by (unfold current_trap_cx; run H1; rewrite M_unwrap_bind; by run Ha).
  assert (current_user_token (k_procs k) = Ok (get_user_token t, k_procs k)) as H3
    by (unfold current_user_token; run H1; rewrite M_unwrap_bind; by run Ha).
  unfold trap_return. by rewrite (in_procs_run _ _ _ _ H2), (in_procs_run _ _ _ _ H3), set_procs_id.
Qed.

(** A system call: the context has moved past the instruction, and the call gets
    its number and its arguments from it. *)
Section ecall.
Context (ElfFile_new : list Z → option ElfFile) (syms : kernel_symbols) (th tr : Z) (fuel : nat).
Context (k : kernel) (i : Z) (t : TCB) (lo : Z) (U : gset Z) (trs : list (Z * Z)) (b : list Z).
Hypothesis Hp : procs_inv (k_procs k).
Hypothesis Hc : current (k_procs k) = Some i.
Hypothesis Ht : tasks (k_procs k) !! i = Some t.
Hypothesis Hms : ms_inv (k_mem k) lo U trs (memory_set t).
Hypothesis Hf : trap_cx_ppn t ∈ data_owned (areas (memory_set t)).
Hypothesis Hb : ram (k_mem k) !! trap_cx_ppn t = Some b.

(** The kernel when the call starts. *)
Definition past_ecall : kernel :=
  set_mem (set_ram (<[trap_cx_ppn t := arr_set 8 b CX_SEPC (arr_get 8 b CX_SEPC +u 4)]> (ram (k_mem k))) (k_mem k)) k.

Lemma cx_frame : 0 ≤ trap_cx_ppn t < 2 ^ 44 ∧ frame_ok b ∧ trap_cx_ppn t ∉ frames (page_table (memory_set t)).
Proof using Hms Hf Hb.
  destruct Hms as [Hm _ _ _ Hnd Hu]. split; [|split].
  - apply (used_range _ _ _ _ _ Hms), Hu. unfold owned. apply elem_of_app. by right.
  - by apply (mo_frame _ _ _ Hm _ _ Hb).
  - intros Hin. unfold owned in Hnd. apply list.NoDup_app in Hnd as (_ & Hd & _). by apply (Hd _ Hin).
Qed.

Lemma cx_in : arr_in 8 b CX_SEPC.
Proof using Hms Hf Hb.
  destruct cx_frame as (_ & [Hl _] & _). unfold arr_in. rewrite Hl. change (Z.to_nat PAGE_SIZE) with (Z.to_nat 4096). unfold CX_SEPC. lia.
Qed.

Lemma past_ecall_inv : ms_inv (k_mem past_ecall) lo U trs (memory_set t).
Proof using Hms Hf Hb.
  destruct cx_frame as (_ & [Hl Hby] & Hn). apply ms_inv_put; [done|by rewrite Hb|done|].
  split; [|by apply arr_set_bytes]. rewrite <- Hl. apply length_arr_set, cx_in.
Qed.

Lemma ecall_run :
  trap_handler ElfFile_new syms th tr fuel UserEnvCall k =
  (syscall ElfFile_new syms th tr fuel (arr_get 8 b CX_A7) (arr_get 8 b CX_A0) (arr_get 8 b CX_A1) (arr_get 8 b CX_A2)
    ≫= finish_syscall) past_ecall.
Proof using Hp Hc Ht Hms Hf Hb.
  destruct cx_frame as (Hr & [Hl Hby] & Hn). cbn [trap_handler].
  run (proj1 (the_cx_run k i t Hp Hc Ht)).
  assert (∀ j, read_cx (trap_cx_ppn t) j (k_mem k) = Ok (arr_get 8 b j, k_mem k)) as Hrd
    by (intros j; unfold read_cx; by run (get_data (k_mem k) _ b Hr Hb)).
  rewrite (M_bind_run _ _ _ (arr_get 8 b CX_SEPC) k) by (unfold in_mem; rewrite Hrd; by destruct k).
  rewrite (M_bind_run _ _ _ () past_ecall)
    by (apply in_mem_run; eapply write_cx_spec; [apply (mi_mem _ _ _ _ _ Hms)|done|done]).
  assert (∀ j, 0 ≤ j → CX_SEPC ≠ j → read_cx (trap_cx_ppn t) j (k_mem past_ecall) = Ok (arr_get 8 b j, k_mem past_ecall)) as Hrd1.
  { intros j Hj Hne. unfold read_cx. rewrite (M_bind_run _ _ _ _ _ (get_data (k_mem past_ecall) _ _ Hr (lookup_insert_eq _ _ _))).
    by rewrite arr_get_set_ne by (done || apply cx_in). }
  assert (∀ j, 0 ≤ j → CX_SEPC ≠ j → in_mem (read_cx (trap_cx_ppn t) j) past_ecall = Ok (arr_get 8 b j, past_ecall)) as Hrd2
    by (intros j Hj Hne; unfold in_mem; by rewrite Hrd1).
  run (Hrd2 CX_A7 ltac:(done) ltac:(done)). run (Hrd2 CX_A0 ltac:(done) ltac:(done)).
  run (Hrd2 CX_A1 ltac:(done) ltac:(done)). by run (Hrd2 CX_A2 ltac:(done) ltac:(done)).
Qed.
End ecall.

(** A call that leaves the processor to wait has put its process at the end of the
    queue. *)
Definition waits (f : K outcome) : Prop := ∀ k i o k', procs_inv (k_procs k) → current (k_procs k) = Some i →
  f k = Ok (o, k') →
  match o with
  | Return _ => True
  | Suspended => ready_queue (k_procs k') = ready_queue (k_procs k) ++ [i]
  | Exited => False
  end.

Lemma waits_returns f : returns f → waits f.
Proof. intros Hf k i o k' _ _ H. by destruct (Hf _ _ _ H) as [r ->]. Qed.
Lemma waits_bind {A} (f : K A) (g : A → K outcome) : keeps f → (∀ a, waits (g a)) → waits (f ≫= g).
Proof. intros Hf Hg k i o k' Hp Hc (a & k1 & H1 & H2)%M_bind_Ok. apply Hf in H1 as E. rewrite <- E in *. by eapply Hg. Qed.
Lemma waits_suspend c : waits (in_procs (suspend_current_and_run_next c) ≫= λ _, mret Suspended).
Proof.
  intros k i o k' Hp Hc (u & k1 & H1 & [= <- <-])%M_bind_Ok. apply in_procs_Ok in H1 as (p & H1 & ->).
  destruct (suspend_refines _ i c Hp Hc) as (p' & H2 & _ & _ & _ & _ & Hq). rewrite H1 in H2. by injection H2 as _ ->.
Qed.
Lemma waits_read fd buf len : waits (sys_read fd buf len).
Proof.
  unfold sys_read. do 3 (apply waits_bind; [auto with keeps|intros ?]). repeat case_match; try (by apply waits_returns; returns).
  apply waits_bind; [auto with keeps|intros r]. destruct r; cbn [negb]; [|by apply waits_returns; returns].
  apply waits_bind; [auto with keeps|intros bs]. destruct f; cbn [file_read].
  - apply waits_bind; [auto with keeps|intros ?]. unfold stdin_turn. apply waits_bind; [auto with keeps|intros c].
    destruct (c =? 0); [apply waits_suspend|apply waits_returns; returns].
  - done.
  - apply waits_returns. unfold os_read. returns.
Qed.

(** The calls that always return. *)
Definition plain_calls : list Z :=
  [SYSCALL_OPEN; SYSCALL_CLOSE; SYSCALL_WRITE; SYSCALL_GET_TIME; SYSCALL_GETPID; SYSCALL_FORK; SYSCALL_EXEC; SYSCALL_WAITPID].

Lemma plain_returns ElfFile_new syms th tr fuel id a0 a1 a2 : id ∈ plain_calls →
  returns (syscall ElfFile_new syms th tr fuel id a0 a1 a2).
Proof.
  unfold plain_calls. rewrite !elem_of_cons, elem_of_nil. intros H. decompose [or] H; try done; subst id; unfold syscall; cbn [Z.eqb Pos.eqb].
  - unfold sys_open. returns.
  - unfold sys_close. returns.
  - unfold sys_write. returns.
  - unfold sys_get_time. returns.
  - unfold sys_getpid. returns.
  - unfold sys_fork. returns.
  - unfold sys_exec. returns.
  - unfold sys_waitpid. returns.
Qed.

(** A call that returns: its result is in the context of the process, which may have
    a new address space, and user mode goes on in that one. *)
Lemma finish_return v k i t r k' :
  procs_inv (k_procs k) → current (k_procs k) = Some i → tasks (k_procs k) !! i = Some t →
  finish_syscall (Return v) k = Ok (r, k') →
  ∃ m, r = Some (get_user_token t) ∧ k' = set_mem m k ∧
    write_cx (trap_cx_ppn t) CX_A0 (as_usize v) (k_mem k) = Ok ((), m).
Proof.
  intros Hp Hc Ht H. cbn [finish_syscall] in H. destruct (the_cx_run k i t Hp Hc Ht) as [H1 _].
  rewrite (M_bind_run _ _ _ _ _ H1) in H. inv_bind H u k1 H2. unfold in_mem in H2.
  destruct (write_cx _ _ _ _) as [[[] m]|] eqn:Hw; [|done]. injection H2 as <- <-.
  destruct (the_cx_run (set_mem m k) i t Hp Hc Ht) as [_ H3].
  rewrite (M_bind_run _ _ _ _ _ H3) in H. injection H as <- <-. by exists m.
Qed.

Lemma return_case v k1 k2 i r k' (f : K outcome) :
  procs_inv (k_procs k1) → sim (k_procs k1) (k_procs k2) → current (k_procs k2) = Some i → f k1 = Ok (Return v, k2) →
  finish_syscall (Return v) k2 = Ok (r, k') →
  match r with
  | None => False
  | Some satp => ∃ v k2 t2 m, f k1 = Ok (Return v, k2) ∧ current (k_procs k2) = Some i ∧
      tasks (k_procs k2) !! i = Some t2 ∧ satp = get_user_token t2 ∧ k' = set_mem m k2 ∧
      write_cx (trap_cx_ppn t2) CX_A0 (as_usize v) (k_mem k2) = Ok ((), m)
  end.
Proof.
  intros Hp Hsim Hc H1 H2. assert (procs_inv (k_procs k2)) as Hp2 by (by eapply sim_inv).
  destruct (current_block _ _ Hp2 Hc) as (t2 & Ht2 & _).
  destruct (finish_return _ _ _ _ _ _ Hp2 Hc Ht2 H2) as (m & -> & -> & Hw). by exists v, k2, t2, m.
Qed.

(** C19: What each trap of the current process does.  The timer sets the next
    alarm and puts the process at the end of the queue, with no other change.  A
    memory fault kills it with exit code -2, an illegal instruction with -3 (and
    initproc takes the kernel with it); any other cause panics.  A system call
    runs with the context moved past the instruction and its number and arguments
    taken from it; exit kills with the given code, yield puts the process at the
    end of the queue, a number that is no call panics.  Of the other calls only a
    read can leave the processor, with the process at the end of the queue; if one
    returns, its result is in the first register of the process's context and
    user mode goes on in the process's own address space. *)
Theorem trap_outcome ElfFile_new syms th tr fuel cause k i init t lo U trs b :
  procs_inv (k_procs k) → pid_room (k_procs k) → current (k_procs k) = Some i → tasks (k_procs k) !! i = Some t →
  initproc (k_procs k) = Some init → ms_inv (k_mem k) lo U trs (memory_set t) →
  trap_cx_ppn t ∈ data_owned (areas (memory_set t)) → ram (k_mem k) !! trap_cx_ppn t = Some b →
  let r := trap_handler ElfFile_new syms th tr fuel cause k in
  match cause with
  | SupervisorTimer => r = Ok (None, set_mach (next_alarm (k_mach k)) (set_procs (requeued KTrapEnd i t (k_procs k)) k))
  | StoreFault | StorePageFault | InstructionFault | InstructionPageFault | LoadFault | LoadPageFault =>
      kill_or_panic r (-2) i init t lo U k
  | IllegalInstruction => kill_or_panic r (-3) i init t lo U k
  | OtherTrap => r = Stop Panicked
  | UserEnvCall =>
      let k1 := past_ecall k t b in
      let id := arr_get 8 b CX_A7 in
      let a0 := arr_get 8 b CX_A0 in
      let call := syscall ElfFile_new syms th tr fuel id a0 (arr_get 8 b CX_A1) (arr_get 8 b CX_A2) in
      r = (call ≫= finish_syscall) k1 ∧
      (id = SYSCALL_EXIT → kill_or_panic r (as_i32 a0) i init t lo U k1) ∧
      (id = SYSCALL_YIELD → r = Ok (None, set_procs (requeued (KResult 0) i t (k_procs k)) k1)) ∧
      (id ∉ SYSCALL_EXIT :: SYSCALL_YIELD :: SYSCALL_READ :: plain_calls → r = Stop Panicked) ∧
      (id ∈ SYSCALL_READ :: plain_calls → ∀ o k', r = Ok (o, k') →
        match o with
        | None => id = SYSCALL_READ ∧ current (k_procs k') = None ∧
            ready_queue (k_procs k') = ready_queue (k_procs k) ++ [i]
        | Some satp => ∃ v k2 t2 m, call k1 = Ok (Return v, k2) ∧ current (k_procs k2) = Some i ∧
            tasks (k_procs k2) !! i = Some t2 ∧ satp = get_user_token t2 ∧ k' = set_mem m k2 ∧
            write_cx (trap_cx_ppn t2) CX_A0 (as_usize v) (k_mem k2) = Ok ((), m)
        end)
  end.
Proof.
  intros Hp Hr Hc Ht Hi Hms Hf Hb r. assert (i ∉ borrowed (k_procs k)) as Hnb by (rewrite (proj2 Hp); apply not_elem_of_nil).
  destruct cause; try (by apply (kill_run k i init t _ lo U trs)); [|unfold r; cbn [trap_handler]|done].
  2: { set (k1 := set_mach (next_alarm (k_mach k)) k). rewrite (M_bind_run _ _ _ () k1) by done.
    by rewrite (M_bind_run _ _ _ _ _ (in_procs_run _ k1 _ _ (suspend_run _ i t KTrapEnd Hc Ht Hnb))). }
  cbv zeta. pose proof (ecall_run ElfFile_new syms th tr fuel k i t lo U trs b Hp Hc Ht Hms Hf Hb) as Hrun. fold r in Hrun.
  set (k1 := past_ecall k t b) in *. set (id := arr_get 8 b CX_A7) in *.
  assert (ms_inv (k_mem k1) lo U trs (memory_set t)) as Hms1 by (by apply past_ecall_inv).
  split; [exact Hrun|]. split; [|split; [|split]].
  - intros Hid. rewrite Hrun, Hid. pose proof (kill_run k1 i init t (as_i32 (arr_get 8 b CX_A0)) lo U trs Hp Hc Ht Hi Hms1) as Hk.
    change (syscall _ _ _ _ _ SYSCALL_EXIT _ _ _) with (sys_exit (as_i32 (arr_get 8 b CX_A0))). unfold sys_exit. by rewrite M_bind_assoc.
  - intros Hid. rewrite Hrun, Hid. change (syscall _ _ _ _ _ SYSCALL_YIELD _ _ _) with sys_yield. unfold sys_yield. rewrite M_bind_assoc.
    by rewrite (M_bind_run _ _ _ _ _ (in_procs_run _ k1 _ _ (suspend_run _ i t (KResult 0) Hc Ht Hnb))).
  - unfold plain_calls. rewrite !not_elem_of_cons. intros Hid. rewrite Hrun. apply M_bind_stop. unfold syscall.
    rewrite !(proj2 (Z.eqb_neq _ _)) by tauto. done.
  - intros Hid o k'. rewrite Hrun. intros (oc & k2 & H1 & H2)%M_bind_Ok.
    destruct (syscall_refines ElfFile_new syms th tr fuel id _ _ _ k1 i oc k2 Hp Hr Hc H1) as [Hsim Hcur].
    apply elem_of_cons in Hid as [Hid|Hid]; [|destruct (plain_returns _ _ _ _ _ _ _ _ _ Hid _ _ _ H1) as [v ->]].
    + rewrite Hid in H1. pose proof (waits_read _ _ _ k1 i oc k2 Hp Hc H1) as Hw. destruct oc as [v| |]; [|by injection H2 as <- <-|done].
      pose proof (return_case _ _ _ _ _ _ _ Hp Hsim Hcur H1 H2) as H. destruct o; [by rewrite Hid|done].
    + pose proof (return_case _ _ _ _ _ _ _ Hp Hsim Hcur H1 H2) as H. destruct o; [exact H|done].
Qed.

Lemma sample_user : ∃ m U us f b, ms_inv m 256 U [tramp_entry sample_syms] us ∧ f ∈ data_owned (areas us) ∧ ram m !! f = Some b.
Proof.
  destruct sample_push as (m & U & ms & Hinv & Har & Hf). assert (area_cost sample_cx ≤ 10) as Hc1 by (vm_compute; done).
  destruct (push_spec m 256 U [tramp_entry sample_syms] ms Hinv sample_cx None)
    as (m1 & pt1 & fs & nn & _ & Hinv1 & Hff & _); try done.
  { intros v Hv%elem_of_seqZ. change (134217726 ≤ v < 134217727) in Hv. unfold ms_entries. rewrite Har.
    change ((concat (area_maps <$> []) ++ [tramp_entry sample_syms]).*1) with [134217727]. rewrite list_elem_of_singleton. lia. }
  { lia. }
  destruct fs as [|f fs]; [done|]. assert (f ∈ data_owned (areas ms ++ [mapped sample_cx (f :: fs)])) as Hown.
  { rewrite Har. unfold data_owned. cbn [fmap list_fmap concat app]. rewrite mapped_fs by done. apply elem_of_app. left. apply list_elem_of_here. }
  destruct (used_ram _ _ _ _ _ Hinv1 f) as [b Hb]; [apply (mi_owned _ _ _ _ _ Hinv1); unfold owned; apply elem_of_app; by right|].
  eexists m1, _, _, f, b. split; [exact Hinv1|]. split; [exact Hown|exact Hb].
Qed.

(** The processes with an address space and a trap context. *)
Definition with_context (us : MemorySet) (f : Z) (q : procs) : procs :=
  set_tasks (fmap (λ t, set_trap_cx_ppn f (set_memory_set us t))) q.

Lemma with_context_inv us f q : procs_inv q → procs_inv (with_context us f q).
Proof.
  intros [Hs Hb]. split; [|done]. replace (abs (with_context us f q)) with (abs q); [done|].
  unfold abs, with_context, set_tasks. cbn. f_equal. rewrite <- map_fmap_compose. by apply map_fmap_ext.
Qed.

Lemma trap_outcome_witness : ∃ k k', trap_handler (λ _, None) sample_syms 0 0 0 StorePageFault k = Ok (None, k') ∧
  exit_code <$> tasks (k_procs k') !! 1 = Some (-2) ∧ current (k_procs k') = None.
Proof.
  destruct sample_user as (m & U & us & f & b & Hms & Hf & Hb).
  set (k := kernel_with m us (with_context us f (two Ready Running))). exists k.
  pose proof (trap_outcome (λ _, None) sample_syms 0 0 0 StorePageFault k 1 0
    (set_trap_cx_ppn f (set_memory_set us (sample_tcb 1 Running (Some 0) []))) 256 U _ b
    (with_context_inv us f _ two_switch_inv) eq_refl eq_refl eq_refl eq_refl Hms Hf Hb) as H.
  destruct H as (k' & H1 & _ & H2 & _ & H3 & _). exists k'. split; [exact H1|]. split; [|exact H2]. rewrite H3. reflexivity.
Defined.

(** ** Exec *)

(** C9: [exec] replaces the memory of a process and nothing else of it: the
    identifier, the place in the family tree, the status and the open files stay,
    and so do all other processes.  The new address space has the segments of the
    program, all frames of the old one are free again, and the trap context is
    the initial one: entry point, user stack, kernel stack of this process,
    zero in the other registers. *)
Theorem exec_replaces_image ElfFile_new syms th k i t lo U input elf segs :
  procs_inv (k_procs k) → tasks (k_procs k) !! i = Some t → tramp_ok syms →
  ms_inv (k_mem k) lo U [tramp_entry syms] (memory_set t) → executable_image ElfFile_new input elf segs →
  3 + areas_cost (elf_layout input segs).*1 ≤ free_frames (k_mem k) lo U →
  ∃ k' t' b nf, exec ElfFile_new syms th i input k = Ok ((), k') ∧ procs_inv (k_procs k') ∧
    tasks (k_procs k') !! i = Some t' ∧ view_of t' = view_of t ∧ fd_table t' = fd_table t ∧
    (∀ j, j ≠ i → tasks (k_procs k') !! j = tasks (k_procs k) !! j) ∧ (∀ x, x ∈ nf → x ∉ U) ∧
    ms_inv (k_mem k') lo ((list_to_set nf ∪ U) ∖ list_to_set (owned (memory_set t))) [tramp_entry syms] (memory_set t') ∧
    ram (k_mem k') !! trap_cx_ppn t' = Some b ∧ slice 0 296 b = cx_bytes (start_cx th k t elf segs) ∧
    (∀ ph va, ph ∈ segs → floor va ∈ area_pages (seg_area ph) →
       user_byte (k_mem k') (user_map syms (memory_set t')) va =
         Some (default 0 (seg_data input ph !! Z.to_nat (va - 4096 * floor (ph_virtual_addr ph))))).
Proof.
  intros Hp Ht Htr Hms Hel Hf. pose proof Hp as [Hs Hb].
  destruct (exec_image_run ElfFile_new syms th k i t lo U input elf segs Hb Ht Htr Hms Hel Hf)
    as (m1 & ms & nf & f & b & acx & m2 & _ & Hinv & _ & _ & Hg & _ & Hfill & Ha & Hty & Hcx & Hfind & Hfd & Hbf & Hok & Hrun).
  eexists _, (set_trap_cx_ppn f (set_memory_set ms t)), _, nf. split; [exact Hrun|].
  cbn [k_mem k_procs set_tasks tasks memory_set set_trap_cx_ppn set_memory_set trap_cx_ppn].
  split_and!; try done.
  - split; [|done]. by rewrite (abs_put _ i t).
  - by rewrite lookup_insert_eq.
  - intros j Hj. by rewrite lookup_insert_ne by done.
  - apply (gw_new _ _ _ _ _ _ Hg).
  - apply ms_inv_put; [done|eauto| |done]. pose proof (mi_nodup _ _ _ _ _ Hinv) as Hnd. unfold owned in Hnd.
    apply list.NoDup_app in Hnd as (_ & Hd & _). intros Hin. by apply (Hd f).
  - cbn [ram set_ram]. by rewrite lookup_insert_eq.
  - destruct (init_context_bytes (sstatus (k_mach k)) (elf_entry_point elf) (user_stack_top segs) (ms_token (kernel_space k))
      (get_top (tcb_pid t)) th) as [_ Hl]. change (app_init_context _ _ _ _ _ _) with (start_cx th k t elf segs) in Hl.
    rewrite <- Hl. apply slice_splice_eq. lia.
  - intros ph va Hph Hva. apply (list_elem_of_fmap_2 (seg_push input)) in Hph as Hl.
    assert (seg_push input ph ∈ elf_layout input segs) as [j Hj]%list_elem_of_lookup by (unfold elf_layout; elt).
    destruct (Forall2_lookup_l _ _ _ _ _ Hfill Hj) as (a & Haa & Hfa). apply list_elem_of_lookup_2 in Haa.
    rewrite (cx_write_view m2 lo _ _ ms acx a f _ va Hinv Ha Hty Hcx Hfind Haa).
    + by apply (filled_view _ _ _ _ _ _ _ va Hinv Haa Hfa).
    + by rewrite (fi_type _ _ _ Hfa).
    + unfold area_pages. by rewrite (fi_range _ _ _ Hfa).
    + eapply seg_not_cx; [apply Hel|done|done].
Qed.

Lemma sample_image : executable_image (λ _, Some sample_elf) [7; 8; 9] sample_elf [sample_ph].
Proof.
  split.
  - reflexivity.
  - reflexivity.
  - reflexivity.
  - apply list.Forall_cons. split; [|done]. split; [done..|by repeat constructor].
  - vm_compute. done.
  - apply (bool_decide_unpack _). vm_compute. exact I.
  - apply (bool_decide_unpack _). vm_compute. exact I.
Qed.

Lemma exec_replaces_image_witness : ∃ k k', exec (λ _, Some sample_elf) sample_syms 0 0 [7; 8; 9] k = Ok ((), k') ∧
  procs_inv (k_procs k').
Proof.
  destruct sample_push as (m & U & ms & Hinv & _ & Hf). set (k := kernel_with m ms (with_space ms (one Running))). exists k.
  destruct (exec_replaces_image (λ _, Some sample_elf) sample_syms 0 k 0 (set_memory_set ms (sample_tcb 0 Running None [])) 256 U
    [7; 8; 9] sample_elf [sample_ph]) as (k' & t' & b & nf & H1 & H2 & _).
  - by apply with_space_inv, one_inv.
  - done.
  - apply sample_tramp.
  - exact Hinv.
  - apply sample_image.
  - etrans; [|exact Hf]. vm_compute. done.
  - exists k'. split; [exact H1|exact H2].
Defined.

(** ** Identifiers and kernel stacks *)

(** The identifier allocator hands out an identifier nobody has and takes
    back only identifiers in use: giving one back makes it the next to be handed
    out, and giving back a free or unknown one panics. *)
Lemma pid_allocator_exact a U :
  pa_inv a U → pa_current a + 1 < 2 ^ 64 - 1 →
  let '(pid, a') := pa_alloc a in
  pid ∉ U ∧ 0 ≤ pid ∧ pa_inv a' ({[pid]} ∪ U) ∧
  ∀ x, 0 ≤ x →
    if decide (x ∈ ({[pid]} ∪ U : gset Z)) then
      ∃ a'', pa_dealloc x a' = Ok a'' ∧ pa_inv a'' (({[pid]} ∪ U) ∖ {[x]}) ∧ pa_alloc a'' = (x, a')
    else pa_dealloc x a' = Stop Panicked.
Proof.
  intros Hpa Hb. pose proof (pa_alloc_spec a U Hpa Hb) as H. destruct (pa_alloc a) as [pid a'].
  destruct H as (H1 & H2 & H3). split_and!; try done. intros x Hx. by apply pa_dealloc_spec.
Qed.

(** Kernel stacks lie apart: the two pages of the stack of a process, as
    [KernelStack::new] maps them, are below the trampoline, and between the stacks
    of any two processes there is a page that belongs to no stack. *)
Lemma kernel_stacks_apart p q :
  0 ≤ p < q → q < MAX_PID →
  let top x := ceil (VirtAddr_from (snd (kernel_stack_position x))) in
  let bottom x := floor (VirtAddr_from (fst (kernel_stack_position x))) in
  get_top p = snd (kernel_stack_position p) ∧ bottom p + 2 = top p ∧ 0 ≤ bottom q ∧ top p ≤ TRAMP_VPN ∧
  top q + 1 ≤ bottom p ∧ ∀ r, 0 ≤ r < MAX_PID → ¬ (bottom r ≤ top q < top r).
Proof.
  intros Hpq Hq top bottom. assert (∀ x, 0 ≤ x < MAX_PID → bottom x = stack_vpn x ∧ top x = stack_vpn x + 2) as H.
  { intros x Hx. destruct (stack_pages x Hx) as (H1 & H2 & _). done. }
  destruct (H p ltac:(lia)) as [-> ->], (H q ltac:(lia)) as [-> ->]. unfold stack_vpn. unfold MAX_PID in *.
  change (2 ^ 24) with 16777216 in *. change (2 ^ 27) with 134217728. change TRAMP_VPN with 134217727.
  split_and!; try lia; [done|]. intros r Hr. destruct (H r ltac:(lia)) as [-> ->]. unfold stack_vpn. change (2 ^ 27) with 134217728. lia.
Qed.

(** ** Open files *)

(** [alloc_fd] gives the lowest descriptor that is not in use, extending the
    table when all are, and leaves every descriptor in use as it is. *)
Lemma alloc_fd_lowest t :
  let '(fd, t') := alloc_fd t in
  0 ≤ fd ∧ fd_table t' !! Z.to_nat fd = Some None ∧ view_of t' = view_of t ∧
  (∀ j, 0 ≤ j < fd → ∃ f, fd_table t !! Z.to_nat j = Some (Some f)) ∧
  (∀ j f, fd_table t !! j = Some (Some f) → fd_table t' !! j = Some (Some f)).
Proof.
  unfold alloc_fd. destruct (list_find (λ o, o = None) (fd_table t)) as [[n o]|] eqn:Hf.
  - apply list_find_Some in Hf as (Hn & -> & Hlow). rewrite Nat2Z.id. split_and!; try done; [lia|].
    intros j Hj. destruct (lookup_lt_is_Some_2 (fd_table t) (Z.to_nat j)) as [[f|] Hf].
    + apply lookup_lt_Some in Hn. lia.
    + eauto.
    + destruct (Hlow _ _ Hf); [lia|done].
  - rewrite list_find_None in Hf. rewrite Nat2Z.id. cbn [fd_table set_fd_table]. split_and!; try done; [lia| | |].
    + by rewrite lookup_app_r, Nat.sub_diag by done.
    + intros j Hj. destruct (lookup_lt_is_Some_2 (fd_table t) (Z.to_nat j)) as [[f|] Hl]; [lia|eauto|].
      rewrite list.Forall_lookup in Hf. by destruct (Hf _ _ Hl).
    + intros j f Hj. by apply lookup_app_l_Some.
Qed.

(** A descriptor that is not open is refused and nothing else happens:
    reading, writing or closing beyond the table or at a closed descriptor
    returns -1 in the same state. *)
Lemma bad_descriptor k i t fd buf len :
  procs_inv (k_procs k) → current (k_procs k) = Some i → tasks (k_procs k) !! i = Some t → 0 ≤ fd →
  (∀ f, fd_table t !! Z.to_nat fd ≠ Some (Some f)) →
  sys_read fd buf len k = Ok (Return (-1), k) ∧ sys_write fd buf len k = Ok (Return (-1), k) ∧
  sys_close fd k = Ok (Return (-1), k).
Proof.
  intros Hp Hc Ht Hfd Hbad. assert (i ∉ borrowed (k_procs k)) as Hb by (rewrite (proj2 Hp); apply not_elem_of_nil).
  assert (in_procs (access i) k = Ok (t, k)) as Hacc
    by (rewrite (in_procs_run _ _ _ _ (access_run _ _ _ Ht Hb)); by rewrite set_procs_id).
  assert (in_procs current_user_token k = Ok (get_user_token t, k)) as Htok.
  { rewrite (in_procs_run _ _ (get_user_token t) (k_procs k)); [by rewrite set_procs_id|]. unfold current_user_token.
    assert (current_task (k_procs k) = Ok (Some i, k_procs k)) as H1 by (unfold current_task, gets; by rewrite Hc).
    run H1. rewrite M_unwrap_bind. by run (access_run _ _ _ Ht Hb). }
  unfold sys_read, sys_write, sys_close. split_and!.
  - run Htok. run (the_task_run k i Hc). run Hacc. case_match; [done|]. by destruct (fd_table t !! Z.to_nat fd) as [[f|]|]; [destruct (Hbad f)| |].
  - run Htok. run (the_task_run k i Hc). run Hacc. case_match; [done|]. by destruct (fd_table t !! Z.to_nat fd) as [[f|]|]; [destruct (Hbad f)| |].
  - run (the_task_run k i Hc). run Hacc. case_match; [done|]. by destruct (fd_table t !! Z.to_nat fd) as [[f|]|]; [destruct (Hbad f)| |].
Qed.

(** C26: [open_file] on a kernel whose disk holds the file system: a name that is
    not there gives nothing without CREATE, and a new empty file with it; a name
    that is there is opened at offset 0, emptied first when CREATE or TRUNC is
    set.  Read and write access are what the flags say, and the descriptor is
    a new one. *)
Theorem open_file_cases k e total D F u name flags :
  os_rep k e total D F u →
  match dir_find name D with
  | Some n =>
      if contains flags OpenFlags_CREATE || contains flags OpenFlags_TRUNC then
        ∃ c d', F !! n = Some c ∧
          open_file name flags k = Ok (Some (next_file (k_fs k)), new_file (opened e flags n) (set_disk d' k)) ∧
          fs_rep d' e total D (<[n := []]> F) (u - blocks_of c)
      else open_file name flags k = Ok (Some (next_file (k_fs k)), new_file (opened e flags n) k)
  | None =>
      if contains flags OpenFlags_CREATE then
        good_name name → Z.of_nat (length D) + 1 < 4096 * ib e → 32 * (Z.of_nat (length D) + 1) ≤ MAX_FILE_SIZE →
        let u' := u + (total_blocks (32 * (Z.of_nat (length D) + 1)) - total_blocks (32 * Z.of_nat (length D))) in
        u' ≤ total - da e →
        ∃ n d', F !! n = None ∧
          open_file name flags k = Ok (Some (next_file (k_fs k)), new_file (opened e flags n) (set_disk d' k)) ∧
          fs_rep d' e total (D ++ [(name, n)]) (<[n := []]> F) u'
      else open_file name flags k = Ok (None, k)
  end.
Proof.
  intros Hk. pose proof Hk as [Hrep Hroot]. unfold open_file.
  rewrite (surjective_pairing (read_write flags)).
  assert (gets (λ k, root (k_fs k)) k = Ok (root_inode e, k)) as Hg by (unfold gets; by rewrite Hroot).
  pose proof (in_fs_same _ k _ (rep_find _ _ _ _ _ _ Hrep name)) as Hfind.
  destruct (dir_find name D) as [n|] eqn:Hn; destruct (contains flags OpenFlags_CREATE); cbn [fmap option_fmap option_map] in Hfind; cbn [orb].
  - destruct (rep_found e total D F u _ _ _ Hrep Hn) as [c HF]. destruct (open_cleared e total D F u k flags n c Hk HF) as (d' & Hrun & Hrep').
    exists c, d'. split_and!; try done. run Hg. run Hfind. exact Hrun.
  - destruct (contains flags OpenFlags_TRUNC).
    + destruct (rep_found e total D F u _ _ _ Hrep Hn) as [c HF]. destruct (open_cleared e total D F u k flags n c Hk HF) as (d' & Hrun & Hrep').
      exists c, d'. split_and!; try done. run Hg. run Hfind. exact Hrun.
    + run Hg. run Hfind. rewrite M_ret_bind. by rewrite open_new.
  - intros Hgn Hi Hd Hu. destruct (rep_create _ _ _ _ _ _ name Hrep Hn Hgn Hi Hd Hu) as (n & d' & Hrun & HF & Hrep').
    exists n, d'. split_and!; try done. run Hg. run Hfind. run (in_fs_run _ k _ _ Hrun). by rewrite open_new.
  - run Hg. by run Hfind.
Qed.

(** A kernel on a disk with one file. *)
Definition kernel_on (d : gmap Z (list Z)) (r : gmap Z (list Z)) : kernel :=
  mkK (mkMem r SFA_new) (mkMS (mkPT 0 []) []) (one Running) (mkOsfs d (root_inode sample_efs) ∅ 0) (mkMach [] [] 0 0 0).

(** A file of five bytes, opened with TRUNC. *)
Lemma open_file_cases_witness : ∃ d id k' d',
  fs_rep d sample_efs 1100 [([97], id)] {[id := [0; 0; 0; 1; 2]]} 2 ∧
  open_file [97] (OpenFlags_RDWR + OpenFlags_TRUNC) (kernel_on d ∅) = Ok (Some 0, k') ∧
  osinodes (k_fs k') !! 0 = Some (mkOSInode true true 0 (inode_of sample_efs id)) ∧
  fs_rep d' sample_efs 1100 [([97], id)] (<[id := []]> {[id := [0; 0; 0; 1; 2]]}) (2 - blocks_of [0; 0; 0; 1; 2]) ∧
  k' = new_file (opened sample_efs (OpenFlags_RDWR + OpenFlags_TRUNC) id) (set_disk d' (kernel_on d ∅)).
Proof.
  destruct sample_written as (d & id & Hrep). exists d, id.
  pose proof (open_file_cases (kernel_on d ∅) sample_efs 1100 [([97], id)] {[id := [0; 0; 0; 1; 2]]} 2 [97] (OpenFlags_RDWR + OpenFlags_TRUNC)
    (conj Hrep eq_refl)) as H.
  destruct H as (c & d' & Hc & H & Hrep'). rewrite lookup_singleton_eq in Hc. injection Hc as <-.
  eexists _, d'. split; [exact Hrep|]. split; [exact H|]. split; [reflexivity|]. split; [exact Hrep'|reflexivity].
Defined.


(** Loading a program: opening a file read-only and [read_all] give exactly
    the bytes of the file, as [sys_exec] and the start of initproc use it; the
    bound on the number of 512-byte pieces is reached by every file. *)
Lemma program_file_read k e total D F u name n c fuel :
  os_rep k e total D F u → dir_find name D = Some n → F !! n = Some c →
  Z.of_nat (length c) ≤ 512 * Z.of_nat fuel →
  ∃ k', (open_file name 0 ≫= λ o, unwrap o ≫= λ id, read_all (S fuel) id) k = Ok (c, k') ∧ os_rep k' e total D F u ∧
    k_procs k' = k_procs k ∧ k_mem k' = k_mem k.
Proof.
  intros Hk Hn HF Hfuel. destruct (load_program_run _ _ _ _ _ _ _ _ _ _ Hk Hn HF Hfuel) as (k' & H1 & H2 & H3 & H4 & _).
  by exists k'.
Qed.

(** Writing through a descriptor: the slices of the user's buffer are
    written one after the other at the file's offset, whichever pages they lie on,
    the offset ends behind the last byte, the count of bytes is returned, and
    the other files stay as they are. *)
Lemma descriptor_write k e total D F u id f n c bufs bs :
  os_rep k e total D F u → osinodes (k_fs k) !! id = Some f → os_inode f = inode_of e n → F !! n = Some c →
  slices_hold (k_mem k) bufs bs → bs ≠ [] → 0 ≤ os_offset f →
  let data := concat bs in
  os_offset f + Z.of_nat (length data) ≤ MAX_FILE_SIZE →
  let c' := write_data c (os_offset f) data in
  u + (blocks_of c' - blocks_of c) ≤ total - da e →
  ∃ k', os_write id bufs k = Ok (Z.of_nat (length data), k') ∧
    os_rep k' e total D (<[n := c']> F) (u + (blocks_of c' - blocks_of c)) ∧
    osinodes (k_fs k') = <[id := set_offset (os_offset f + Z.of_nat (length data)) f]> (osinodes (k_fs k)) ∧
    k_mem k' = k_mem k ∧ k_procs k' = k_procs k.
Proof.
  intros Hk Hf Hino HF Hsl Hne Ho data Hmax c' Hcap. pose proof (rep_len _ _ _ _ _ _ _ _ (proj1 Hk) HF) as Hlen.
  destruct (os_write_loop_spec e total D n bufs bs k id f F u c 0 Hk Hf Hino HF Hsl Ho Hmax Hlen ltac:(lia)) as (d' & Hrun & Hrep');
    [by destruct bs|].
  eexists. split; [exact Hrun|]. split; [|done]. destruct bs as [|b bs]; [done|]. split; [exact Hrep'|apply Hk].
Qed.
