(* ===== verification/VirtQueue.v ===== *)
(** * VirtQueue: the ring a driver shares with a virtio device
    (dependency/virtio-drivers/src/queue.rs, lib.rs)

    The driver takes descriptors from a free list, chains them and offers the
    chain on the available ring; the device answers on the used ring, and the
    driver puts the chain back on the free list.  The descriptor table and the
    rings are memory the device sees; it writes the used ring only.

    [virt_to_phys] is the function of the same name of hal.rs, which the kernel
    supplies. *)

From stdpp Require Import base gmap list numbers.
From S2P Require Import Prelude Bytes Address.

(** [Error] of lib.rs. *)
Inductive Error : Type :=
| BufferTooSmall
| NotReady
| AlreadyUsed
| InvalidParam
| DmaError
| IoError.

(** [align_up] and [pages] of lib.rs. *)
Definition align_up (size : Z) : Z := Z.ldiff (size +u PAGE_SIZE) (PAGE_SIZE - 1).
Definition pages (size : Z) : Z := (size +u PAGE_SIZE -u 1) / PAGE_SIZE.

Definition is_power_of_two (n : Z) : bool := (0 <? n) && (Z.land n (n - 1) =? 0).

(** ** Layout *)
Record VirtQueueLayout : Type := mkLayout { avail_offset : Z; used_offset : Z; layout_size : Z }.

(** [size_of] a descriptor is 16 (with its alignment), of an element of the
    used ring 8. *)
Definition VirtQueueLayout_new (queue_size : Z) : res VirtQueueLayout :=
  assert_res (is_power_of_two queue_size) ≫= λ _,
  let desc := 16 * queue_size in
  let avail := 2 * (3 + queue_size) in
  let used := 2 * 3 + 8 * queue_size in
  Ok (mkLayout desc (align_up (desc + avail)) (align_up (desc + avail) + align_up used)).

(** ** The queue *)
Record Descriptor : Type := mkDesc { d_addr : Z; d_len : Z; d_flags : Z; d_next : Z }.

Definition DescFlags_NEXT : Z := 1.
Definition DescFlags_WRITE : Z := 2.

(** The available and the used ring: 32 entries in the source, whatever the
    size of the queue. *)
Record AvailRing : Type := mkAvail { avail_idx_reg : Z; avail_ring : list Z }.
Record UsedRing : Type := mkUsed { used_idx_reg : Z; used_ring : list (Z * Z) }.

Record VirtQueue : Type := mkVQ {
  desc : list Descriptor;
  avail : AvailRing;
  used : UsedRing;
  queue_idx : Z;
  queue_size : Z;
  num_used : Z;
  free_head : Z;
  avail_idx : Z;
  last_used_idx : Z;
}.

Definition set_desc (l : list Descriptor) (q : VirtQueue) : VirtQueue :=
  mkVQ l (avail q) (used q) (queue_idx q) (queue_size q) (num_used q) (free_head q) (avail_idx q) (last_used_idx q).
Definition set_avail (a : AvailRing) (i : Z) (q : VirtQueue) : VirtQueue :=
  mkVQ (desc q) a (used q) (queue_idx q) (queue_size q) (num_used q) (free_head q) i (last_used_idx q).
Definition set_used (u : UsedRing) (q : VirtQueue) : VirtQueue :=
  mkVQ (desc q) (avail q) u (queue_idx q) (queue_size q) (num_used q) (free_head q) (avail_idx q) (last_used_idx q).
Definition set_num_used (n : Z) (q : VirtQueue) : VirtQueue :=
  mkVQ (desc q) (avail q) (used q) (queue_idx q) (queue_size q) n (free_head q) (avail_idx q) (last_used_idx q).
Definition set_free_head (h : Z) (q : VirtQueue) : VirtQueue :=
  mkVQ (desc q) (avail q) (used q) (queue_idx q) (queue_size q) (num_used q) h (avail_idx q) (last_used_idx q).
Definition set_last_used (i : Z) (q : VirtQueue) : VirtQueue :=
  mkVQ (desc q) (avail q) (used q) (queue_idx q) (queue_size q) (num_used q) (free_head q) (avail_idx q) i.

(** [desc[i].next.write(i + 1)] for all but the last. *)
Fixpoint link_descriptors (n : nat) (i : Z) (l : list Descriptor) : list Descriptor :=
  match n with
  | O => l
  | S n => link_descriptors n (i + 1)
             (alter (λ d, mkDesc (d_addr d) (d_len d) (d_flags d) (wrap 16 (i + 1))) (Z.to_nat i) l)
  end.

(** The end of [VirtQueue::new]: the queue in the pages the driver got for it,
    whose contents are [table], [a] and [u]. *)
Definition VirtQueue_in (idx size : Z) (table : list Descriptor) (a : AvailRing) (u : UsedRing) : VirtQueue :=
  mkVQ (link_descriptors (Z.to_nat (size - 1)) 0 table) a u (wrap 32 idx) size 0 0 0 0.

Section queue.
Context (virt_to_phys : Z → Z).

(** [self.desc[i]], out of range a panic. *)
Definition get_desc (i : Z) : M VirtQueue Descriptor := λ q,
  match desc q !! Z.to_nat i with Some d => Ok (d, q) | None => Stop Panicked end.
Definition put_desc (i : Z) (d : Descriptor) : M VirtQueue () :=
  modify_st (λ q, set_desc (<[Z.to_nat i := d]> (desc q)) q).

(** A buffer: its address and its length. *)
Definition set_buf (buf : Z * Z) (d : Descriptor) : Descriptor :=
  mkDesc (virt_to_phys buf.1) (wrap 32 buf.2) (d_flags d) (d_next d).
Definition set_flags (fl : Z) (d : Descriptor) : Descriptor := mkDesc (d_addr d) (d_len d) fl (d_next d).
Definition set_next (n : Z) (d : Descriptor) : Descriptor := mkDesc (d_addr d) (d_len d) (d_flags d) n.

(** One of the two loops of [add]. *)
Fixpoint add_bufs (flags : Z) (bufs : list (Z * Z)) (last : Z) : M VirtQueue Z :=
  match bufs with
  | [] => mret last
  | buf :: bufs =>
      gets free_head ≫= λ h,
      get_desc h ≫= λ d,
      put_desc h (set_flags flags (set_buf buf d)) ≫= λ _,
      modify_st (set_free_head (d_next d)) ≫= λ _,
      add_bufs flags bufs h
  end.

Definition add (inputs outputs : list (Z * Z)) : M VirtQueue (Error + Z) :=
  let n := Z.of_nat (length inputs) + Z.of_nat (length outputs) in
  if n =? 0 then mret (inl InvalidParam) else
  gets num_used ≫= λ nu,
  gets queue_size ≫= λ size,
  if size <? n + nu then mret (inl BufferTooSmall) else
  gets free_head ≫= λ head,
  add_bufs DescFlags_NEXT inputs head ≫= λ last,
  add_bufs (Z.lor DescFlags_NEXT DescFlags_WRITE) outputs last ≫= λ last,
  get_desc last ≫= λ d,
  put_desc last (set_flags (Z.ldiff (d_flags d) DescFlags_NEXT) d) ≫= λ _,
  modify_st (set_num_used (wrap 16 (nu + wrap 16 n))) ≫= λ _,
  gets avail_idx ≫= λ ai,
  let avail_slot := Z.land ai (size - 1) in
  gets avail ≫= λ a,
  assertM (bool_decide (Z.to_nat avail_slot < length (avail_ring a))%nat) ≫= λ _,
  let ai := wrap 16 (ai + 1) in
  modify_st (set_avail (mkAvail ai (<[Z.to_nat avail_slot := head]> (avail_ring a))) ai) ≫= λ _,
  mret (inr head).

Definition can_pop (q : VirtQueue) : bool := negb (last_used_idx q =? used_idx_reg (used q)).
Definition available_desc (q : VirtQueue) : Z := wrap 16 (queue_size q - num_used q).

(** The loop of [recycle_descriptors]; a chain is no longer than the table. *)
Fixpoint recycle_loop (fuel : nat) (origin head : Z) : M VirtQueue () :=
  match fuel with
  | O => halt OutOfFuel
  | S fuel =>
      get_desc head ≫= λ d,
      modify_st (λ q, set_num_used (wrap 16 (num_used q - 1)) q) ≫= λ _,
      if Z.land (d_flags d) DescFlags_NEXT =? DescFlags_NEXT then recycle_loop fuel origin (d_next d)
      else put_desc head (set_next origin d)
  end.
Definition recycle_descriptors (head : Z) : M VirtQueue () :=
  gets free_head ≫= λ origin,
  modify_st (set_free_head head) ≫= λ _,
  gets (λ q, length (desc q)) ≫= λ n,
  recycle_loop n origin head.

Definition pop_used : M VirtQueue (Error + (Z * Z)) :=
  gets can_pop ≫= λ c,
  if negb c then mret (inl NotReady) else
  gets last_used_idx ≫= λ lu,
  gets queue_size ≫= λ size,
  let last_used_slot := Z.land lu (size - 1) in
  gets used ≫= λ u,
  unwrap (used_ring u !! Z.to_nat last_used_slot) ≫= λ '(id, len),
  let index := wrap 16 id in
  recycle_descriptors index ≫= λ _,
  modify_st (set_last_used (wrap 16 (lu + 1))) ≫= λ _,
  mret (inr (index, len)).
End queue.
