(* ===== verification/VirtQueueInv.v ===== *)
(** * VirtQueueInv: the invariant of a virtqueue

    Every descriptor is in exactly one place: the free list, a chain the device
    still has, or a chain the device has answered and the driver has not taken
    back.  [add] moves descriptors from the free list to a new chain, the device
    moves a chain to the answered ones, [pop_used] gives the first of them
    back. *)

From stdpp Require Import base gmap list numbers.
From S2P Require Import Prelude Bytes Address VirtQueue.

(** What the device is told of a buffer: physical address, length, and whether
    it may write it. *)
Notation dbuf := (Z * Z * bool)%type.
Definition fl (b : dbuf) : Z := if b.2 then 2 else 0.

Definition next_of (D : list Descriptor) (a : Z) : option Z := d_next <$> D !! Z.to_nat a.

(** [l] is a list linked by the [next] fields. *)
Definition linked (D : list Descriptor) (l : list Z) : Prop :=
  ∀ k a b, l !! k = Some a → l !! S k = Some b → next_of D a = Some b.

(** The chain [c] describes the buffers [bs]. *)
Record chain_ok (D : list Descriptor) (c : list Z) (bs : list dbuf) : Prop := {
  co_len : length c = length bs;
  co_ne : c ≠ [];
  co_desc k a b : c !! k = Some a → bs !! k = Some b →
    ∃ d, D !! Z.to_nat a = Some d ∧ d_addr d = b.1.1 ∧ d_len d = b.1.2 ∧
      d_flags d = fl b + (if decide (S k = length c) then 0 else 1) ∧ ∀ j, c !! S k = Some j → d_next d = j;
}.

Definition chains (w : list (list Z * list dbuf)) : list Z := concat w.*1.

Record qinv (q : VirtQueue) (free : list Z) (w d : list (list Z * list dbuf)) : Prop := {
  qi_size : ∃ e, 0 ≤ e ≤ 5 ∧ queue_size q = 2 ^ e;
  qi_desc : Z.of_nat (length (desc q)) = queue_size q;
  qi_rings : length (avail_ring (avail q)) = 32%nat ∧ length (used_ring (used q)) = 32%nat;
  qi_perm : free ++ chains w ++ chains d ≡ₚ seqZ 0 (queue_size q);
  qi_head : free = [] ∨ head free = Some (free_head q);
  qi_free : linked (desc q) free;
  qi_wait : Forall (λ c, chain_ok (desc q) c.1 c.2) w;
  qi_done : Forall (λ c, chain_ok (desc q) c.1 c.2) d;
  qi_num : num_used q = Z.of_nat (length (chains w ++ chains d));
  qi_last : in_u 16 (last_used_idx q);
  qi_avail : in_u 16 (avail_idx q) ∧ avail_idx_reg (avail q) = avail_idx q;
  qi_used : used_idx_reg (used q) = wrap 16 (last_used_idx q + Z.of_nat (length d));
  qi_ring k c : d !! k = Some c → ∃ h len, head c.1 = Some h ∧
    used_ring (used q) !! Z.to_nat ((last_used_idx q + Z.of_nat k) mod queue_size q) = Some (h, len);
}.

(** ** Sizes and slots *)
Lemma size_range q free w d : qinv q free w d → 0 < queue_size q ≤ 32 ∧ (queue_size q | 65536).
Proof.
  intros Hq. destruct (qi_size _ _ _ _ Hq) as (e & He & ->).
  assert (e = 0 ∨ e = 1 ∨ e = 2 ∨ e = 3 ∨ e = 4 ∨ e = 5) as H by lia.
  split; [destruct H as [->|[->|[->|[->|[->| ->]]]]]; cbn; lia|].
  exists (2 ^ (16 - e)). rewrite <- Z.pow_add_r by lia. replace (16 - e + e) with 16 by lia. done.
Qed.

Lemma slot_mod q free w d i : qinv q free w d → Z.land i (queue_size q - 1) = i mod queue_size q.
Proof.
  intros Hq. destruct (qi_size _ _ _ _ Hq) as (e & He & ->). rewrite <- Z.land_ones by lia.
  by rewrite Z.ones_equiv.
Qed.

Lemma slot_wrap q free w d i j : qinv q free w d → (wrap 16 i + j) mod queue_size q = (i + j) mod queue_size q.
Proof.
  intros Hq. destruct (size_range _ _ _ _ Hq) as [Hs Hd]. unfold wrap. change (2 ^ 16) with 65536.
  rewrite Zplus_mod, Z.mod_mod_divide by done. by rewrite <- Zplus_mod.
Qed.

(** ** Changes elsewhere in the table *)
Lemma linked_frame D D' l : linked D l → (∀ a, a ∈ l → next_of D' a = next_of D a) → linked D' l.
Proof. intros H Hf k a b Ha Hb. rewrite Hf; [by eapply H|]. by eapply list_elem_of_lookup_2. Qed.

Lemma chain_frame D D' c bs : chain_ok D c bs → (∀ a, a ∈ c → D' !! Z.to_nat a = D !! Z.to_nat a) → chain_ok D' c bs.
Proof.
  intros [H1 H2 H3] Hf. split; [done..|]. intros k a b Ha Hb. destruct (H3 k a b Ha Hb) as (d & Hd & ?).
  exists d. rewrite Hf; [done|]. by eapply list_elem_of_lookup_2.
Qed.

Lemma chains_frame D D' w :
  Forall (λ c, chain_ok D c.1 c.2) w → (∀ a, a ∈ chains w → D' !! Z.to_nat a = D !! Z.to_nat a) →
  Forall (λ c, chain_ok D' c.1 c.2) w.
Proof.
  intros Hw Hf. rewrite list.Forall_forall in *. intros c Hc. eapply chain_frame; [by apply Hw|].
  intros a Ha. apply Hf. apply elem_of_concat. exists c.1. split; [done|]. by apply list_elem_of_fmap_2.
Qed.

(** The descriptors are the indices of the table, each once. *)
Lemma all_descs q free w d : qinv q free w d →
  NoDup (free ++ chains w ++ chains d) ∧
  (∀ a, a ∈ free ++ chains w ++ chains d → 0 ≤ a < queue_size q ∧ is_Some (desc q !! Z.to_nat a)).
Proof.
  intros Hq. pose proof (qi_perm _ _ _ _ Hq) as Hperm. split; [rewrite Hperm; apply NoDup_seqZ|].
  intros a Ha. rewrite Hperm in Ha. apply elem_of_seqZ in Ha. split; [lia|].
  apply lookup_lt_is_Some. pose proof (qi_desc _ _ _ _ Hq). lia.
Qed.

Lemma Forall2_impl_in_l {A B} (P Q : A → B → Prop) l k :
  Forall2 P l k → (∀ x y, x ∈ l → P x y → Q x y) → Forall2 Q l k.
Proof.
  induction 1 as [|x y l k Hxy _ IH]; intros Himp; constructor; [apply Himp; [elt|done]|].
  apply IH. intros x' y' Hx. apply Himp. elt.
Qed.

(** ** [add] *)
Section add.
Context (virt_to_phys : Z → Z).

Definition bufs_of (writable : bool) (l : list (Z * Z)) : list dbuf :=
  (λ b, (virt_to_phys b.1, wrap 32 b.2, writable)) <$> l.

(** A descriptor that was filled and still has its successor in the free
    list. *)
Definition taken (D D' : list Descriptor) (a : Z) (b : dbuf) : Prop :=
  ∃ d, D !! Z.to_nat a = Some d ∧ D' !! Z.to_nat a = Some (mkDesc b.1.1 b.1.2 (fl b + 1) (d_next d)).

(** The loop takes the descriptors [fr] off the front of the free list. *)
Lemma add_bufs_run wr bufs : ∀ q fr rest last,
  length fr = length bufs → linked (desc q) (fr ++ rest) → NoDup fr →
  (∀ a, a ∈ fr → 0 ≤ a ∧ is_Some (desc q !! Z.to_nat a)) → (fr = [] ∨ head fr = Some (free_head q)) →
  ∃ D' h', add_bufs virt_to_phys (fl (0, 0, wr) + 1) bufs last q =
      Ok (default last (list.last fr), set_free_head h' (set_desc D' q)) ∧
    length D' = length (desc q) ∧ Forall2 (taken (desc q) D') fr (bufs_of wr bufs) ∧
    (∀ j, j ∉ Z.to_nat <$> fr → D' !! j = desc q !! j) ∧ (∀ a, next_of D' a = next_of (desc q) a) ∧
    (if fr is [] then h' = free_head q else rest = [] ∨ head rest = Some h').
Proof.
  induction bufs as [|buf bufs IH]; intros q fr rest lst Hlen Hlink Hnd Hin Hhd.
  { apply nil_length_inv in Hlen as ->. exists (desc q), (free_head q). split_and!; try done.
    cbn. by destruct q. }
  destruct fr as [|a fr]; [done|]. destruct Hhd as [?|[= Ha]]; [done|]. subst a.
  apply list.NoDup_cons in Hnd as [Hna Hnd]. destruct (Hin (free_head q)) as [Hpos [d Hd]]; [elt|].
  set (a := free_head q) in *. set (d1 := set_flags (fl (0, 0, wr) + 1) (set_buf virt_to_phys buf d)).
  set (D1 := <[Z.to_nat a := d1]> (desc q)). set (q1 := set_free_head (d_next d) (set_desc D1 q)).
  assert (∀ x, x ∈ fr → D1 !! Z.to_nat x = desc q !! Z.to_nat x) as HD1.
  { intros x Hx. unfold D1. rewrite list_lookup_insert_ne; [done|]. destruct (Hin x) as [Hx0 _]; [elt|]. intros He.
    assert (a = x) as -> by lia. done. }
  assert (∀ x, next_of D1 x = next_of (desc q) x) as HN1.
  { intros x. unfold next_of, D1. destruct (decide (Z.to_nat a = Z.to_nat x)) as [E|E].
    - rewrite <- E, list_lookup_insert_eq, Hd by (by eapply lookup_lt_Some). done.
    - by rewrite list_lookup_insert_ne. }
  destruct (IH q1 fr rest a) as (D' & h' & Hrun & Hl & Hf2 & Hout & Hnx & Hrest).
  - by injection Hlen.
  - intros k x y Hx Hy. cbn [desc q1 set_free_head set_desc]. rewrite HN1. by apply (Hlink (S k)).
  - done.
  - intros x Hx. cbn [desc q1 set_free_head set_desc]. rewrite HD1 by done. apply Hin. elt.
  - destruct fr as [|b fr]; [by left|right]. cbn [head q1 free_head set_free_head].
    pose proof (Hlink 0%nat a b eq_refl eq_refl) as Hn. unfold next_of in Hn. rewrite Hd in Hn. cbn in Hn. congruence.
  - assert (Z.to_nat a ∉ Z.to_nat <$> fr) as Hnf.
    { intros (x & Hx & Hxf)%list_elem_of_fmap. destruct (Hin x) as [Hx0 _]; [elt|]. assert (a = x) as -> by lia. done. }
    exists D', h'. split_and!.
    + cbn [add_bufs]. assert (gets free_head q = Ok (a, q)) as H1 by done. run H1.
      assert (get_desc a q = Ok (d, q)) as H2 by (unfold get_desc; by rewrite Hd). run H2.
      assert (put_desc a d1 q = Ok ((), set_desc D1 q)) as H3 by done. run H3.
      assert (modify_st (set_free_head (d_next d)) (set_desc D1 q) = Ok ((), q1)) as H4 by done. run H4.
      rewrite Hrun, last_cons. by destruct (list.last fr).
    + rewrite Hl. cbn. apply length_insert.
    + constructor.
      * exists d. split; [done|]. rewrite Hout by done. cbn [desc q1 set_free_head set_desc]. unfold D1.
        by rewrite list_lookup_insert_eq by (by eapply lookup_lt_Some).
      * eapply Forall2_impl_in_l; [exact Hf2|].
        intros x b Hx (d0 & Hd0 & Hd0'). exists d0. split; [|done]. by rewrite <- HD1.
    + intros j Hj. cbn in Hj. apply not_elem_of_cons in Hj as [Hj1 Hj2]. rewrite Hout by done. cbn.
      unfold D1. by rewrite list_lookup_insert_ne by congruence.
    + intros x. by rewrite Hnx, <- HN1.
    + destruct fr as [|b fr]; [|done]. destruct rest as [|r rest]; [by left|right]. cbn [head]. rewrite Hrest. cbn.
      pose proof (Hlink 0%nat a r eq_refl eq_refl) as Hn. unfold next_of in Hn. rewrite Hd in Hn. cbn in Hn. congruence.
Qed.

(** Clearing the flag of the last descriptor makes the chain. *)
Lemma taken_chain D D2 c bs z :
  Forall2 (taken D D2) c bs → linked D c → NoDup c → (∀ a, a ∈ c → 0 ≤ a) → list.last c = Some z →
  ∃ b nx, D2 !! Z.to_nat z = Some (mkDesc b.1.1 b.1.2 (fl b + 1) nx) ∧
    chain_ok (<[Z.to_nat z := mkDesc b.1.1 b.1.2 (fl b) nx]> D2) c bs.
Proof.
  intros Hf Hlink Hnd Hpos Hz. pose proof (Forall2_length Hf) as Hlen.
  rewrite last_lookup in Hz. assert (c ≠ []) as Hne by (by intros ->).
  destruct (Forall2_lookup_l _ _ _ _ _ Hf Hz) as (b & Hb & (d & Hd & Hd2)).
  exists b, (d_next d). split; [done|]. split; [done..|]. intros k a b' Ha Hb'.
  assert (Z.to_nat z < length D2)%nat as Hzl by (by eapply lookup_lt_Some).
  destruct (decide (S k = length c)) as [E|E].
  - replace (pred (length c)) with k in Hz, Hb by lia. simplify_eq. rewrite list_lookup_insert_eq by done.
    eexists. split; [done|]. cbn. split_and!; try done; [lia|]. intros j Hj. apply lookup_lt_Some in Hj. lia.
  - destruct (Forall2_lookup_lr _ _ _ _ _ _ Hf Ha Hb') as (d' & Hd' & Hd2').
    assert (Z.to_nat z ≠ Z.to_nat a) as Hza.
    { pose proof (Hpos a (list_elem_of_lookup_2 _ _ _ Ha)). pose proof (Hpos z (list_elem_of_lookup_2 _ _ _ Hz)). intros Heq.
      assert (z = a) as -> by lia. pose proof (NoDup_lookup _ _ _ _ Hnd Ha Hz). apply lookup_lt_Some in Ha. lia. }
    rewrite list_lookup_insert_ne by done. eexists. split; [done|]. cbn. split_and!; try done. intros j Hj.
    pose proof (Hlink k a j Ha Hj) as Hn. unfold next_of in Hn. rewrite Hd' in Hn. cbn in Hn. congruence.
Qed.

(** Both loops together, on the first descriptors [c1 ++ c2] of the free list. *)
Lemma add_loops q c1 c2 rest ins outs :
  length c1 = length ins → length c2 = length outs → c1 ++ c2 ≠ [] →
  linked (desc q) (c1 ++ c2 ++ rest) → NoDup (c1 ++ c2) →
  (∀ a, a ∈ c1 ++ c2 → 0 ≤ a ∧ is_Some (desc q !! Z.to_nat a)) → head (c1 ++ c2) = Some (free_head q) →
  ∃ D' h' z, (add_bufs virt_to_phys DescFlags_NEXT ins (free_head q) ≫= λ last,
      add_bufs virt_to_phys (Z.lor DescFlags_NEXT DescFlags_WRITE) outs last) q = Ok (z, set_free_head h' (set_desc D' q)) ∧
    list.last (c1 ++ c2) = Some z ∧ length D' = length (desc q) ∧
    Forall2 (taken (desc q) D') (c1 ++ c2) (bufs_of false ins ++ bufs_of true outs) ∧
    (∀ j, j ∉ Z.to_nat <$> (c1 ++ c2) → D' !! j = desc q !! j) ∧ (∀ a, next_of D' a = next_of (desc q) a) ∧
    (rest = [] ∨ head rest = Some h').
Proof.
  intros Hl1 Hl2 Hne Hlink Hnd Hin Hhd. pose proof Hnd as (Hnd1 & Hdis & Hnd2)%list.NoDup_app.
  destruct (add_bufs_run false ins q c1 (c2 ++ rest) (free_head q)) as (D1 & h1 & Hrun1 & HL1 & Hf1 & Hout1 & Hnx1 & Hr1); try done.
  { intros a Ha. apply Hin. elt. }
  { destruct c1; [by left|right]. by cbn in *. }
  set (q1 := set_free_head h1 (set_desc D1 q)).
  assert (∀ a, a ∈ c2 → Z.to_nat a ∉ Z.to_nat <$> c1) as Hd21.
  { intros a Ha (x & Hx & Hxc)%list_elem_of_fmap. destruct (Hin a) as [? _]; [elt|]. destruct (Hin x) as [? _]; [elt|].
    assert (x = a) as -> by lia. by apply (Hdis a). }
  assert (∀ a, a ∈ c1 → Z.to_nat a ∉ Z.to_nat <$> c2) as Hd12.
  { intros a Ha (x & Hx & Hxc)%list_elem_of_fmap. destruct (Hin a) as [? _]; [elt|]. destruct (Hin x) as [? _]; [elt|].
    assert (x = a) as -> by lia. by apply (Hdis a). }
  destruct (add_bufs_run true outs q1 c2 rest (default (free_head q) (list.last c1)))
    as (D2 & h2 & Hrun2 & HL2 & Hf2 & Hout2 & Hnx2 & Hr2); try done.
  { intros k a b Ha Hb. cbn [desc q1 set_free_head set_desc]. rewrite Hnx1.
    apply (Hlink (length c1 + k)%nat); rewrite lookup_app_r by lia; [|rewrite <- Hb; f_equal; lia].
    rewrite <- Ha. f_equal. lia. }
  { intros a Ha. cbn [desc q1 set_free_head set_desc]. rewrite Hout1 by auto. apply Hin. elt. }
  { destruct c2 as [|y c2]; [by left|right]. cbn [head q1 free_head set_free_head]. destruct c1 as [|x c1].
    - rewrite Hr1. cbn in Hhd. done.
    - destruct Hr1 as [?|Hr1]; [done|]. by cbn in Hr1. }
  exists D2, h2, (default (default (free_head q) (list.last c1)) (list.last c2)). split_and!.
  - run Hrun1. exact Hrun2.
  - rewrite last_app. destruct (list.last c2) as [z|] eqn:E2; [done|]. cbn. apply last_None in E2 as ->. rewrite app_nil_r in Hne.
    destruct (list.last c1) as [z|] eqn:E1; [done|]. by apply last_None in E1 as ->.
  - rewrite HL2. cbn. exact HL1.
  - apply Forall2_app.
    + eapply Forall2_impl_in_l; [exact Hf1|]. intros x b Hx (d & Hd & Hd1). exists d. split; [done|].
      rewrite Hout2 by auto. exact Hd1.
    + eapply Forall2_impl_in_l; [exact Hf2|]. intros x b Hx (d & Hd & Hd1). exists d. split; [|done].
      cbn in Hd. by rewrite <- Hout1 by auto.
  - intros j Hj. rewrite fmap_app, not_elem_of_app in Hj. rewrite Hout2 by tauto. cbn. apply Hout1. tauto.
  - intros a. rewrite Hnx2. cbn. apply Hnx1.
  - destruct c2 as [|y c2]; [|done]. rewrite Hr2. cbn. rewrite app_nil_r in Hne. by destruct c1.
Qed.

Lemma free_count q free w d : qinv q free w d → num_used q = queue_size q - Z.of_nat (length free) ∧ 0 ≤ num_used q ≤ 32.
Proof.
  intros Hq. destruct (size_range _ _ _ _ Hq) as [Hs _]. pose proof (Permutation_length (qi_perm _ _ _ _ Hq)) as Hl.
  rewrite length_app, length_seqZ in Hl. rewrite (qi_num _ _ _ _ Hq). lia.
Qed.

(** [add] with too many buffers, or none, changes nothing. *)
Lemma add_refused q free w d ins outs :
  qinv q free w d →
  (length ins + length outs = 0)%nat ∨ (length free < length ins + length outs)%nat →
  add virt_to_phys ins outs q =
    Ok (inl (if decide (length ins + length outs = 0)%nat then InvalidParam else BufferTooSmall), q).
Proof.
  intros Hq Hn. destruct (free_count _ _ _ _ Hq) as [Hnum _]. unfold add.
  destruct (Z.eqb_spec (Z.of_nat (length ins) + Z.of_nat (length outs)) 0) as [E|E].
  { by rewrite decide_True by lia. }
  rewrite decide_False by lia.
  run (eq_refl : gets num_used q = Ok (num_used q, q)). run (eq_refl : gets queue_size q = Ok (queue_size q, q)).
  by destruct (Z.ltb_spec (queue_size q) (Z.of_nat (length ins) + Z.of_nat (length outs) + num_used q)); [|lia].
Qed.

(** The queue after the loops and the flag of the last descriptor. *)
Lemma add_filled q free w d ins outs :
  qinv q free w d → (0 < length ins + length outs ≤ length free)%nat →
  let c := take (length ins + length outs) free in let bs := bufs_of false ins ++ bufs_of true outs in
  ∃ D3 h', (∀ (B : Type) (f : Z → M VirtQueue B),
      (add_bufs virt_to_phys DescFlags_NEXT ins (free_head q) ≫= λ last,
       add_bufs virt_to_phys (Z.lor DescFlags_NEXT DescFlags_WRITE) outs last ≫= λ last,
       get_desc last ≫= λ d,
       put_desc last (set_flags (Z.ldiff (d_flags d) DescFlags_NEXT) d) ≫= λ _, f last) q =
      f (default 0 (list.last c)) (set_free_head h' (set_desc D3 q))) ∧
    length D3 = length (desc q) ∧ chain_ok D3 c bs ∧
    (∀ a, a ∈ drop (length ins + length outs) free ++ chains w ++ chains d → D3 !! Z.to_nat a = desc q !! Z.to_nat a) ∧
    let rest := drop (length ins + length outs) free in rest = [] ∨ head rest = Some h'.
Proof.
  intros Hq Hn c bs. set (rest := drop (length ins + length outs) free).
  destruct (all_descs _ _ _ _ Hq) as [Hnd Hall].
  set (c1 := take (length ins) free). set (c2 := take (length outs) (drop (length ins) free)).
  assert (c = c1 ++ c2) as Hc by (unfold c, c1, c2; by rewrite take_take_drop).
  assert (free = c1 ++ c2 ++ rest) as Hfree.
  { rewrite app_assoc, <- Hc. symmetry. apply take_drop. }
  assert (c1 ++ c2 ≠ []) as Hne by (rewrite <- Hc; intros E; apply (f_equal length) in E; unfold c in E; rewrite length_take in E; cbn in E; lia).
  assert (NoDup (c1 ++ c2 ++ rest)) as Hndf by (rewrite <- Hfree; by apply list.NoDup_app in Hnd as [? _]).
  assert (NoDup (c1 ++ c2)) as Hndc by (rewrite app_assoc in Hndf; by apply list.NoDup_app in Hndf as [? _]).
  assert (∀ a, a ∈ c1 ++ c2 → a ∈ free) as Hsub by (intros a Ha; rewrite Hfree, app_assoc; elt).
  destruct (add_loops q c1 c2 rest ins outs) as (D' & h' & z & Hrun & Hz & HL & Hf & Hout & Hnx & Hr); try done.
  { unfold c1. rewrite length_take. lia. }
  { unfold c2. rewrite length_take, length_drop. lia. }
  { rewrite <- Hfree. apply (qi_free _ _ _ _ Hq). }
  { intros a Ha%Hsub. destruct (Hall a) as [? ?]; [elt|]. split; [lia|done]. }
  { destruct (qi_head _ _ _ _ Hq) as [->|Hh]; [cbn in Hn; lia|]. rewrite <- Hh, Hfree.
    destruct c1; [|done]. destruct c2; [done|]. done. }
  destruct (taken_chain (desc q) D' (c1 ++ c2) bs z Hf) as (b & nx & Hz2 & Hchain); try done.
  { intros k x y Hx Hy. apply (qi_free _ _ _ _ Hq k); rewrite Hfree, app_assoc; by apply lookup_app_l_Some. }
  { intros a Ha%Hsub. destruct (Hall a) as [? ?]; [elt|]. lia. }
  exists (<[Z.to_nat z := mkDesc b.1.1 b.1.2 (fl b) nx]> D'), h'. rewrite Hc. split_and!; try done.
  - intros B f. rewrite <- (M_bind_assoc (add_bufs _ _ ins _)). run Hrun.
    assert (get_desc z (set_free_head h' (set_desc D' q)) = Ok (mkDesc b.1.1 b.1.2 (fl b + 1) nx, set_free_head h' (set_desc D' q))) as H1
      by (unfold get_desc; cbn [desc set_free_head set_desc]; by rewrite Hz2).
    run H1. rewrite Hz. assert (Z.ldiff (fl b + 1) DescFlags_NEXT = fl b) as E by (unfold fl; by destruct b.2).
    cbn [d_flags]. rewrite E. reflexivity.
  - by rewrite length_insert.
  - intros a Ha. assert (a ∉ c1 ++ c2) as Hna.
    { rewrite Hfree, <- !app_assoc in Hnd. rewrite app_assoc in Hnd. apply list.NoDup_app in Hnd as (_ & Hd & _). intros Hin. by apply (Hd a). }
    assert (a ∈ free ++ chains w ++ chains d) as Hain by (rewrite Hfree; rewrite !elem_of_app in *; tauto).
    assert (Z.to_nat a ∉ Z.to_nat <$> (c1 ++ c2)) as Hnf.
    { intros (x & Hx & Hxc)%list_elem_of_fmap. destruct (Hall a Hain). destruct (Hall x) as [? _]; [apply elem_of_app; left; by apply Hsub|].
      assert (a = x) as -> by lia. done. }
    rewrite list_lookup_insert_ne; [by apply Hout|]. intros Heq. apply Hnf. rewrite <- Heq. apply list_elem_of_fmap_2.
    rewrite last_lookup in Hz. by eapply list_elem_of_lookup_2.
Qed.

Lemma chains_snoc w c : chains (w ++ [c]) = chains w ++ c.1.
Proof. unfold chains. rewrite fmap_app, concat_app. cbn. by rewrite app_nil_r. Qed.

Lemma head_take (m : nat) (l : list Z) : (0 < m)%nat → head (take m l) = head l.
Proof. by destruct m, l; [lia..| |]. Qed.

Lemma add_spec q free w d ins outs :
  qinv q free w d → (0 < length ins + length outs ≤ length free)%nat →
  let n := (length ins + length outs)%nat in
  ∃ q', add virt_to_phys ins outs q = Ok (inr (free_head q), q') ∧
    qinv q' (drop n free) (w ++ [(take n free, bufs_of false ins ++ bufs_of true outs)]) d ∧
    head (take n free) = Some (free_head q) ∧ avail_idx_reg (avail q') = wrap 16 (avail_idx q + 1) ∧
    avail_ring (avail q') !! Z.to_nat (avail_idx q mod queue_size q) = Some (free_head q) ∧ used q' = used q ∧
    queue_size q' = queue_size q ∧ last_used_idx q' = last_used_idx q.
Proof.
  intros Hq Hn n. destruct (size_range _ _ _ _ Hq) as [Hs _]. destruct (free_count _ _ _ _ Hq) as [Hnum Hnu].
  destruct (add_filled _ _ _ _ ins outs Hq Hn) as (D3 & h' & Hrun & HL & Hchain & Hsame & Hrest). fold n in Hrun, Hchain, Hsame, Hrest.
  destruct (qi_rings _ _ _ _ Hq) as [Hra Hru]. pose proof (qi_avail _ _ _ _ Hq) as [Hai Hreg].
  set (slot := avail_idx q mod queue_size q). assert (0 ≤ slot < queue_size q) as Hslot by (apply Z.mod_pos_bound; lia).
  assert (head (take n free) = Some (free_head q)) as Hhd.
  { destruct (qi_head _ _ _ _ Hq) as [->|Hh]; [cbn in Hn; lia|]. rewrite <- Hh. apply head_take. unfold n. lia. }
  set (q' := set_avail (mkAvail (wrap 16 (avail_idx q + 1)) (<[Z.to_nat slot := free_head q]> (avail_ring (avail q)))) (wrap 16 (avail_idx q + 1))
    (set_num_used (num_used q + Z.of_nat n) (set_free_head h' (set_desc D3 q)))).
  exists q'. split_and!; try done.
  - unfold add. destruct (Z.eqb_spec (Z.of_nat (length ins) + Z.of_nat (length outs)) 0); [lia|].
    run (eq_refl : gets num_used q = Ok (num_used q, q)). run (eq_refl : gets queue_size q = Ok (queue_size q, q)).
    destruct (Z.ltb_spec (queue_size q) (Z.of_nat (length ins) + Z.of_nat (length outs) + num_used q)); [lia|].
    run (eq_refl : gets free_head q = Ok (free_head q, q)). rewrite Hrun.
    assert (wrap 16 (num_used q + wrap 16 (Z.of_nat (length ins) + Z.of_nat (length outs))) = num_used q + Z.of_nat n) as ->.
    { unfold wrap, n. change (2 ^ 16) with 65536. rewrite (Z.mod_small (Z.of_nat _ + Z.of_nat _)), Z.mod_small by lia. lia. }
    set (q2 := set_num_used (num_used q + Z.of_nat n) (set_free_head h' (set_desc D3 q))).
    rewrite (M_bind_run _ _ _ () q2) by done. rewrite (M_bind_run _ _ _ (avail_idx q) q2) by done.
    rewrite (M_bind_run _ _ _ (avail q) q2) by done.
    rewrite (slot_mod _ _ _ _ _ Hq). fold slot.
    rewrite M_assert_bind by (apply bool_decide_eq_true_2; lia). reflexivity.
  - pose proof (qi_perm _ _ _ _ Hq) as Hperm. destruct Hq as [Q1 Q2 Q3 Q4 Q5 Q6 Q7 Q8 Q9 Q10 Q11 Q12 Q13]. split; cbn [q' desc avail used queue_size num_used free_head avail_idx last_used_idx set_avail set_num_used set_free_head set_desc avail_ring avail_idx_reg]; try done.
    + by rewrite HL.
    + split; [by rewrite length_insert|done].
    + rewrite <- Hperm, chains_snoc. cbn [fst]. rewrite <- (take_drop n free) at 3.
      rewrite <- (app_assoc (chains w)), (Permutation_app_swap_app (chains w)).
      rewrite (app_assoc (drop n free)), (Permutation_app_comm (drop n free)), <- !app_assoc. done.
    + apply (linked_frame (desc q)).
      * intros k x y Hx Hy. rewrite lookup_drop in Hx, Hy. apply (Q6 (n + k)%nat); [done|]. rewrite <- Hy. f_equal. lia.
      * intros a Ha. unfold next_of. rewrite Hsame by elt. done.
    + apply Forall_app_2; [|by apply Forall_singleton]. eapply chains_frame; [exact Q7|]. intros a Ha. apply Hsame. rewrite !elem_of_app. tauto.
    + eapply chains_frame; [exact Q8|]. intros a Ha. apply Hsame. rewrite !elem_of_app. tauto.
    + rewrite chains_snoc. cbn [fst]. rewrite Q9, !length_app, length_take. lia.
    + split; [|done]. unfold in_u, wrap. apply Z.mod_pos_bound. done.
  - cbn [q' avail set_avail avail_ring]. apply list_lookup_insert_eq. lia.
Qed.
End add.

(** ** The device

    What virtio requires of a device: it answers a chain it was offered, once,
    by the chain's head on the used ring. *)
Definition answer (h len : Z) (q : VirtQueue) : VirtQueue :=
  let u := used q in
  set_used (mkUsed (wrap 16 (used_idx_reg u + 1))
              (<[Z.to_nat (Z.land (used_idx_reg u) (queue_size q - 1)) := (h, len)]> (used_ring u))) q.

Lemma chains_length D w : Forall (λ c, chain_ok D c.1 c.2) w → (length w ≤ length (chains w))%nat.
Proof.
  unfold chains. induction 1 as [|c w [_ Hne _] _ IH]; [done|]. cbn [fmap list_fmap concat]. rewrite length_app.
  destruct c.1; [done|]. cbn. lia.
Qed.

Lemma chains_perm w1 c w2 : chains (w1 ++ c :: w2) ≡ₚ c.1 ++ chains (w1 ++ w2).
Proof.
  unfold chains. rewrite !fmap_app, !concat_app. cbn [fmap list_fmap concat].
  rewrite Permutation_app_swap_app. done.
Qed.

Lemma answer_inv q free w1 c bs w2 d h len :
  qinv q free (w1 ++ (c, bs) :: w2) d → head c = Some h → qinv (answer h len q) free (w1 ++ w2) (d ++ [(c, bs)]).
Proof.
  intros Hq Hh. destruct (size_range _ _ _ _ Hq) as [Hs _]. destruct (free_count _ _ _ _ Hq) as [Hnum Hnu].
  pose proof (chains_perm w1 (c, bs) w2) as Hcp. cbn [fst] in Hcp.
  pose proof (slot_mod _ _ _ _ (used_idx_reg (used q)) Hq) as Hslot. pose proof (slot_wrap _ _ _ _ (last_used_idx q + Z.of_nat (length d)) 0 Hq) as Hw0.
  destruct Hq as [Q1 Q2 Q3 Q4 Q5 Q6 Q7 Q8 Q9 Q10 Q11 Q12 Q13].
  apply Forall_app in Q7 as [Q7a [Q7b Q7c]%list.Forall_cons].
  assert (Z.of_nat (length d) < queue_size q) as Hd.
  { pose proof (chains_length _ _ Q8). pose proof (Permutation_length Hcp) as Hl. rewrite length_app in Hl.
    destruct c as [|x c]; [done|]. rewrite Q9 in Hnum, Hnu. rewrite length_app in Hnum. cbn in Hl. lia. }
  assert (Z.land (used_idx_reg (used q)) (queue_size q - 1) = (last_used_idx q + Z.of_nat (length d)) mod queue_size q) as Hsl.
  { rewrite Hslot, Q12. by rewrite !Z.add_0_r in Hw0. }
  assert (0 ≤ (last_used_idx q + Z.of_nat (length d)) mod queue_size q < queue_size q) as Hr by (apply Z.mod_pos_bound; lia).
  split; cbn [answer desc avail used queue_size num_used free_head avail_idx last_used_idx set_used used_ring used_idx_reg]; try done.
  - split; [apply Q3|]. rewrite length_insert. apply Q3.
  - rewrite <- Q4, Hcp, chains_snoc. cbn [fst]. apply Permutation_app_head. rewrite <- (app_assoc c), (Permutation_app_swap_app c).
    by rewrite (Permutation_app_comm c).
  - by apply Forall_app_2.
  - apply Forall_app_2; [done|]. by apply Forall_singleton.
  - rewrite Q9, chains_snoc. cbn [fst]. rewrite (Permutation_length (Permutation_app_tail _ Hcp)), !length_app. lia.
  - rewrite Q12, length_app. unfold wrap. rewrite Zplus_mod_idemp_l. f_equal. cbn. lia.
  - intros k [c' bs'] Hk. rewrite Hsl. apply lookup_app_Some in Hk as [Hk|[Hk1 Hk2]].
    + destruct (Q13 k _ Hk) as (h' & len' & Hh' & Hr'). exists h', len'. split; [done|].
      rewrite list_lookup_insert_ne; [done|]. apply lookup_lt_Some in Hk. intros Heq%Z2Nat.inj; [|lia|apply Z.mod_pos_bound; lia].
      assert ((Z.of_nat (length d) - Z.of_nat k) mod queue_size q = 0) as Hm.
      { replace (Z.of_nat (length d) - Z.of_nat k) with (last_used_idx q + Z.of_nat (length d) - (last_used_idx q + Z.of_nat k)) by lia.
        rewrite Zminus_mod, Heq, Z.sub_diag. by apply Z.mod_0_l; lia. }
      rewrite Z.mod_small in Hm by lia. lia.
    + apply list_lookup_singleton_Some in Hk2 as [Hk2 [= <- <-]]. exists h, len. split; [done|].
      replace k with (length d) by lia. apply list_lookup_insert_eq. destruct Q3 as [_ Hru]. lia.
Qed.

(** ** Taking a chain back *)
Lemma recycle_loop_run origin c bs z dz fuel : ∀ q k a,
  chain_ok (desc q) c bs → list.last c = Some z → desc q !! Z.to_nat z = Some dz →
  c !! k = Some a → (length c - k ≤ fuel)%nat → Z.of_nat (length c - k) ≤ num_used q < 2 ^ 16 →
  recycle_loop fuel origin a q =
    Ok ((), set_desc (<[Z.to_nat z := set_next origin dz]> (desc q)) (set_num_used (num_used q - Z.of_nat (length c - k)) q)).
Proof.
  induction fuel as [|fuel IH]; intros q k a Hc Hz Hdz Hk Hfuel Hnum; pose proof (lookup_lt_Some _ _ _ Hk) as Hlt; [lia|].
  destruct (lookup_lt_is_Some_2 bs k) as [b Hb]; [rewrite <- (co_len _ _ _ Hc); lia|].
  destruct (co_desc _ _ _ Hc k a b Hk Hb) as (d & Hd & _ & _ & Hfl & Hnext). cbn [recycle_loop].
  assert (get_desc a q = Ok (d, q)) as H1 by (unfold get_desc; by rewrite Hd). run H1.
  set (q1 := set_num_used (num_used q - 1) q).
  rewrite (M_bind_run _ _ _ () q1).
  2: { unfold modify_st, q1, wrap. do 3 f_equal. apply Z.mod_small. change (2 ^ 16) with 65536 in *. lia. }
  rewrite Hfl. case_decide as Hl.
  - assert (Z.land (fl b + 0) DescFlags_NEXT =? DescFlags_NEXT = false) as -> by (unfold fl; by destruct b.2).
    rewrite last_lookup in Hz. replace (pred (length c)) with k in Hz by lia. rewrite Hk in Hz. injection Hz as ->.
    rewrite Hd in Hdz. injection Hdz as ->. replace (length c - k)%nat with 1%nat by lia. reflexivity.
  - assert (Z.land (fl b + 1) DescFlags_NEXT =? DescFlags_NEXT = true) as -> by (unfold fl; by destruct b.2).
    destruct (lookup_lt_is_Some_2 c (S k)) as [j Hj]; [lia|]. rewrite (Hnext j Hj).
    rewrite (IH q1 (S k) j); try done; [|lia|cbn; lia]. do 3 f_equal. unfold q1, set_num_used. cbn. f_equal. lia.
Qed.

Section recycle.
Context (q : VirtQueue) (free : list Z) (w : list (list Z * list dbuf)) (c : list Z) (bs : list dbuf) (d : list (list Z * list dbuf)).
Hypothesis Hq : qinv q free w ((c, bs) :: d).

(** The table after the chain [c] is linked in front of the free list. *)
Lemma recycled_links z dz :
  chain_ok (desc q) c bs → list.last c = Some z → desc q !! Z.to_nat z = Some dz →
  linked (<[Z.to_nat z := set_next (free_head q) dz]> (desc q)) (c ++ free).
Proof using Hq.
  intros Hc Hz Hdz. destruct (all_descs _ _ _ _ Hq) as [Hnd Hall].
  assert (∀ a, a ∈ c → a ∈ free ++ chains w ++ chains ((c, bs) :: d)) as Hsub by (intros a Ha; unfold chains; cbn; elt).
  pose proof (Hall z (Hsub z ltac:(rewrite last_lookup in Hz; by eapply list_elem_of_lookup_2))) as [Hzr _].
  assert (∀ a, a ∈ free ++ chains w ++ chains ((c, bs) :: d) → a ≠ z →
    next_of (<[Z.to_nat z := set_next (free_head q) dz]> (desc q)) a = next_of (desc q) a) as Hnext.
  { intros a Ha Hne. unfold next_of. rewrite list_lookup_insert_ne; [done|]. destruct (Hall a Ha). lia. }
  intros k a b Ha Hb. destruct (decide (S k < length c)%nat) as [Hlt|Hge].
  - rewrite lookup_app_l in Ha, Hb by lia. assert (a ≠ z) as Hne.
    { intros ->. rewrite last_lookup in Hz. assert (NoDup c) as Hndc.
      { apply list.NoDup_app in Hnd as (_ & _ & Hnd). apply list.NoDup_app in Hnd as (_ & _ & Hnd).
        unfold chains in Hnd. cbn in Hnd. by apply list.NoDup_app in Hnd as [? _]. }
      pose proof (NoDup_lookup _ _ _ _ Hndc Ha Hz). lia. }
    rewrite Hnext by (done || (apply Hsub; by eapply list_elem_of_lookup_2)).
    destruct (lookup_lt_is_Some_2 bs k) as [b' Hb']; [rewrite <- (co_len _ _ _ Hc); lia|].
    destruct (co_desc _ _ _ Hc k a b' Ha Hb') as (dd & Hdd & _ & _ & _ & Hn). unfold next_of. rewrite Hdd. cbn. f_equal. by apply Hn.
  - destruct (decide (S k = length c)) as [Heq|Hne].
    + rewrite lookup_app_l in Ha by lia. rewrite last_lookup in Hz. replace (pred (length c)) with k in Hz by lia.
      rewrite Ha in Hz. injection Hz as ->. unfold next_of. rewrite list_lookup_insert_eq by (by eapply lookup_lt_Some). cbn.
      rewrite lookup_app_r in Hb by lia. replace (S k - length c)%nat with 0%nat in Hb by lia.
      destruct (qi_head _ _ _ _ Hq) as [->|Hh]; [done|]. by rewrite <- head_lookup, Hh in Hb.
    + rewrite lookup_app_r in Ha, Hb by lia. rewrite Hnext.
      * apply (qi_free _ _ _ _ Hq (k - length c)%nat); [done|]. rewrite <- Hb. f_equal. lia.
      * apply list_elem_of_lookup_2 in Ha. elt.
      * intros ->. apply list.NoDup_app in Hnd as (_ & Hd & _). apply (Hd z (list_elem_of_lookup_2 _ _ _ Ha)).
        rewrite elem_of_app. right. unfold chains. cbn. apply elem_of_app. left. rewrite last_lookup in Hz. by eapply list_elem_of_lookup_2.
Qed.

Lemma recycled_inv z dz h :
  chain_ok (desc q) c bs → list.last c = Some z → desc q !! Z.to_nat z = Some dz → c !! 0%nat = Some h →
  qinv (set_last_used (wrap 16 (last_used_idx q + 1))
    (set_desc (<[Z.to_nat z := set_next (free_head q) dz]> (desc q))
      (set_num_used (num_used q - Z.of_nat (length c)) (set_free_head h q)))) (c ++ free) w d.
Proof using Hq.
  intros Hc Hz Hdz Hh. pose proof (recycled_links z dz Hc Hz Hdz) as Hlink. destruct (all_descs _ _ _ _ Hq) as [Hnd Hall].
  assert (z ∈ c) as Hzc by (rewrite last_lookup in Hz; by eapply list_elem_of_lookup_2).
  assert (∀ a, a ∈ chains w ++ chains d → (<[Z.to_nat z := set_next (free_head q) dz]> (desc q)) !! Z.to_nat a = desc q !! Z.to_nat a) as Hsame.
  { intros a Ha. assert (a ∈ free ++ chains w ++ chains ((c, bs) :: d)) as Hin by (unfold chains in *; cbn; rewrite !elem_of_app in *; tauto).
    rewrite list_lookup_insert_ne; [done|]. destruct (Hall a Hin) as [Har _].
    destruct (Hall z) as [Hzr _]; [unfold chains; cbn; elt|]. intros Heq. assert (a = z) as -> by lia.
    unfold chains in Hnd, Ha. cbn in Hnd. apply list.NoDup_app in Hnd as (_ & _ & Hnd). apply list.NoDup_app in Hnd as (_ & Hd1 & Hnd).
    apply list.NoDup_app in Hnd as (_ & Hd2 & _). apply elem_of_app in Ha as [Ha|Ha]; [apply (Hd1 z Ha); elt|by apply (Hd2 z)]. }
  pose proof (λ i j, slot_wrap _ _ _ _ i j Hq) as Hwrap.
  destruct Hq as [Q1 Q2 Q3 Q4 Q5 Q6 Q7 Q8 Q9 Q10 Q11 Q12 Q13]. apply list.Forall_cons in Q8 as [_ Q8].
  split; cbn [desc avail used queue_size num_used free_head avail_idx last_used_idx set_last_used set_desc set_num_used set_free_head]; try done.
  - by rewrite length_insert.
  - rewrite <- Q4. unfold chains. cbn [fmap list_fmap concat fst]. rewrite (Permutation_app_swap_app (concat w.*1)).
    rewrite (Permutation_app_swap_app free). by rewrite <- app_assoc.
  - right. destruct c; [done|]. cbn in *. congruence.
  - eapply chains_frame; [exact Q7|]. intros a Ha. apply Hsame. elt.
  - eapply chains_frame; [exact Q8|]. intros a Ha. apply Hsame. elt.
  - rewrite Q9. unfold chains. cbn [fmap list_fmap concat fst]. rewrite !length_app. lia.
  - unfold in_u, wrap. by apply Z.mod_pos_bound.
  - rewrite Q12. unfold wrap. rewrite Zplus_mod_idemp_l. f_equal. cbn [length]. lia.
  - intros k c' Hk. destruct (Q13 (S k) c' Hk) as (h' & len' & Hh' & Hr'). exists h', len'. split; [done|].
    rewrite Hwrap. rewrite <- Hr'. do 3 f_equal. lia.
Qed.

Lemma pop_used_spec :
  ∃ h len q', pop_used q = Ok (inr (h, len), q') ∧ head c = Some h ∧
    used_ring (used q) !! Z.to_nat (last_used_idx q mod queue_size q) = Some (h, len) ∧ qinv q' (c ++ free) w d ∧
    queue_size q' = queue_size q ∧ avail_idx q' = avail_idx q ∧ last_used_idx q' = wrap 16 (last_used_idx q + 1).
Proof using Hq.
  destruct (size_range _ _ _ _ Hq) as [Hs _]. destruct (free_count _ _ _ _ Hq) as [Hnum Hnu].
  destruct (all_descs _ _ _ _ Hq) as [Hnd Hall].
  pose proof (qi_done _ _ _ _ Hq) as Hdone. apply list.Forall_cons in Hdone as [Hc Hdone]. cbn [fst snd] in Hc.
  destruct (qi_ring _ _ _ _ Hq 0%nat (c, bs) eq_refl) as (h & len & Hh & Hring). rewrite Z.add_0_r in Hring. cbn [fst] in Hh.
  destruct (list.last c) as [z|] eqn:Hz; [|apply last_None in Hz; by destruct (co_ne _ _ _ Hc)].
  assert (∀ a, a ∈ c → 0 ≤ a < queue_size q ∧ is_Some (desc q !! Z.to_nat a)) as Hcr
    by (intros a Ha; apply Hall; unfold chains; cbn; elt).
  assert (z ∈ c) as Hzc by (rewrite last_lookup in Hz; by eapply list_elem_of_lookup_2).
  destruct (Hcr z Hzc) as [Hzr [dz Hdz]]. rewrite head_lookup in Hh.
  destruct (Hcr h (list_elem_of_lookup_2 _ _ _ Hh)) as [Hhr _].
  set (q1 := set_free_head h q).
  set (q2 := set_desc (<[Z.to_nat z := set_next (free_head q) dz]> (desc q)) (set_num_used (num_used q - Z.of_nat (length c)) q1)).
  pose proof (qi_num _ _ _ _ Hq) as Hn. unfold chains in Hn. cbn [fmap list_fmap concat fst] in Hn. rewrite !length_app in Hn.
  pose proof (qi_desc _ _ _ _ Hq) as HL.
  assert (recycle_loop (length (desc q)) (free_head q) h q1 = Ok ((), q2)) as Hloop.
  { rewrite (recycle_loop_run _ c bs z dz _ q1 0 h Hc Hz Hdz Hh); cbn [num_used q1 set_free_head]; [by rewrite Nat.sub_0_r|lia|].
    change (2 ^ 16) with 65536. lia. }
  exists h, len, (set_last_used (wrap 16 (last_used_idx q + 1)) q2). split_and!; try done.
  - unfold pop_used. rewrite (M_bind_run _ _ _ true q).
    2: { unfold gets, can_pop. do 2 f_equal. apply negb_true_iff, Z.eqb_neq. rewrite (qi_used _ _ _ _ Hq).
      pose proof (qi_last _ _ _ _ Hq) as Hlu. unfold in_u, wrap in *. change (2 ^ 16) with 65536 in *.
      assert (length d < 32)%nat as Hd by (pose proof (chains_length _ _ Hdone) as Hcl; pose proof (lookup_lt_Some _ _ _ Hh); unfold chains in Hcl; lia). cbn [length].
      destruct (decide (last_used_idx q + Z.of_nat (S (length d)) < 65536)); [rewrite Z.mod_small by lia; lia|].
      rewrite <- (Z.mod_unique_pos _ _ 1 (last_used_idx q + Z.of_nat (S (length d)) - 65536)) by lia. lia. }
    cbn [negb]. rewrite (M_bind_run _ _ _ (last_used_idx q) q), (M_bind_run _ _ _ (queue_size q) q), (M_bind_run _ _ _ (used q) q) by done.
    rewrite (slot_mod _ _ _ _ _ Hq), Hring, M_unwrap_bind.
    assert (wrap 16 h = h) as -> by (unfold wrap; apply Z.mod_small; change (2 ^ 16) with 65536; lia).
    assert (recycle_descriptors h q = Ok ((), q2)) as Hrec.
    { unfold recycle_descriptors. rewrite (M_bind_run _ _ _ (free_head q) q), (M_bind_run _ _ _ () q1), (M_bind_run _ _ _ (length (desc q)) q1) by done.
      exact Hloop. }
    by run Hrec.
  - by rewrite head_lookup.
  - by apply recycled_inv.
Qed.
End recycle.

Lemma pop_used_empty q free w : qinv q free w [] → pop_used q = Ok (inl NotReady, q).
Proof.
  intros Hq. unfold pop_used. rewrite (M_bind_run _ _ _ false q); [done|]. unfold gets, can_pop. do 2 f_equal.
  apply negb_false_iff, Z.eqb_eq. rewrite (qi_used _ _ _ _ Hq). cbn. rewrite Z.add_0_r. unfold wrap. symmetry. apply Z.mod_small, Hq.
Qed.

(** ** A new queue *)
Lemma link_run n : ∀ i l,
  0 ≤ i → i + Z.of_nat n < 65536 → length (link_descriptors n i l) = length l ∧
  ∀ j, 0 ≤ j → next_of (link_descriptors n i l) j =
    if decide (i ≤ j < i + Z.of_nat n) then (λ _, j + 1) <$> l !! Z.to_nat j else next_of l j.
Proof.
  induction n as [|n IH]; intros i l Hi Hb; cbn [link_descriptors].
  { split; [done|]. intros j Hj. by rewrite decide_False by lia. }
  destruct (IH (i + 1) (alter (λ d, mkDesc (d_addr d) (d_len d) (d_flags d) (wrap 16 (i + 1))) (Z.to_nat i) l)) as [H1 H2]; [lia..|].
  split; [by rewrite H1, length_alter|]. intros j Hj. rewrite H2 by done.
  assert (wrap 16 (i + 1) = i + 1) as Hw by (unfold wrap; apply Z.mod_small; change (2 ^ 16) with 65536; lia).
  destruct (decide (j = i)) as [->|Hne].
  - rewrite decide_False, decide_True by lia. unfold next_of. rewrite list_lookup_alter_eq. destruct (l !! Z.to_nat i); [|done]. cbn. by rewrite Hw.
  - unfold next_of. rewrite !list_lookup_alter_ne by lia.
    destruct (decide (i + 1 ≤ j < i + 1 + Z.of_nat n)); [by rewrite decide_True by lia|by rewrite decide_False by lia].
Qed.

(** The free list of a new queue is the whole table, in order. *)
Lemma VirtQueue_in_inv idx e table a u :
  0 ≤ e ≤ 5 → Z.of_nat (length table) = 2 ^ e → length (avail_ring a) = 32%nat → length (used_ring u) = 32%nat →
  avail_idx_reg a = 0 → used_idx_reg u = 0 → qinv (VirtQueue_in idx (2 ^ e) table a u) (seqZ 0 (2 ^ e)) [] [].
Proof.
  intros He Ht Ha Hu Ha0 Hu0.
  assert (0 < 2 ^ e ≤ 32) as Hp by (split; [lia|]; change 32 with (2 ^ 5); apply Z.pow_le_mono_r; lia).
  destruct (link_run (Z.to_nat (2 ^ e - 1)) 0 table) as [Hl Hn]; [lia..|].
  split; cbn; rewrite ?app_nil_r; try done.
  - by exists e.
  - by rewrite Hl.
  - right. destruct (2 ^ e) eqn:E; [lia| |lia]. by rewrite seqZ_cons by lia.
  - intros k x y Hx Hy. apply lookup_seqZ in Hx as [-> Hk]. apply lookup_seqZ in Hy as [-> Hk'].
    rewrite Hn, decide_True by lia. destruct (lookup_lt_is_Some_2 table (Z.to_nat (0 + Z.of_nat k))) as [t ->]; [lia|]. cbn. f_equal. lia.

Qed.

(** ** What the device reads: the chain behind an index of the available ring *)
Fixpoint walk (fuel : nat) (D : list Descriptor) (i : Z) : option (list dbuf) :=
  match fuel with
  | O => None
  | S fuel =>
      D !! Z.to_nat i ≫= λ d,
      let b := (d_addr d, d_len d, Z.testbit (d_flags d) 1) in
      if Z.testbit (d_flags d) 0 then cons b <$> walk fuel D (d_next d) else Some [b]
  end.

Lemma walk_chain_at D c bs : chain_ok D c bs → ∀ fuel k i,
  c !! k = Some i → (length c - k ≤ fuel)%nat → walk fuel D i = Some (drop k bs).
Proof.
  intros [Hl _ Hd]. induction fuel as [|fuel IH]; intros k i Hk Hf; [apply lookup_lt_Some in Hk; lia|].
  destruct (lookup_lt_is_Some_2 bs k) as [b Hb]; [apply lookup_lt_Some in Hk; lia|].
  destruct (Hd k i b Hk Hb) as (d & Hd1 & H1 & H2 & H3 & H4).
  rewrite (drop_S _ _ _ Hb). cbn [walk]. rewrite Hd1. cbn [mbind option_bind]. rewrite H1, H2, H3.
  destruct b as [[x y] wr]. cbn [fst snd].
  destruct (decide (S k = length c)) as [E|E].
  - rewrite (drop_ge bs (S k)) by lia. by destruct wr.
  - destruct (lookup_lt_is_Some_2 c (S k)) as [j Hj]; [apply lookup_lt_Some in Hk; lia|].
    rewrite (H4 j Hj), (IH (S k) j Hj) by lia. by destruct wr.
Qed.

Lemma walk_chain D c bs h : chain_ok D c bs → head c = Some h → (length c ≤ length D)%nat → walk (length D) D h = Some bs.
Proof.
  intros Hc Hh Hl. change bs with (drop 0 bs). eapply walk_chain_at; [done| |lia]. destruct c; [done|]. by injection Hh as ->.
Qed.
