(* ===== verification/VirtIOHeader.v ===== *)
(** * VirtIOHeader: the registers of a virtio device
    (dependency/virtio-drivers/src/header.rs)

    The driver and the device meet at memory-mapped registers.  A register the
    driver only reads is a field; what the driver writes is kept in order, because
    the meaning of a write depends on the ones before it: [queue_sel] selects
    the queue the registers [queue_num], [queue_align] and [queue_pfn] refer to,
    and the two [sel] registers of the features select a half of a 64-bit
    word. *)

From stdpp Require Import base gmap list numbers.
From S2P Require Import Prelude Bytes Address.

(** The registers the driver writes. *)
Inductive reg : Type :=
| device_features_sel
| driver_features
| driver_features_sel
| guest_page_size
| queue_sel
| queue_num
| queue_align
| queue_pfn
| queue_notify
| interrupt_ack
| status.

#[export] Instance reg_eq_dec : EqDecision reg.
Proof. solve_decision. Defined.

Record VirtIOHeader : Type := mkHeader {
  magic : Z;
  version : Z;
  device_id : Z;
  hdr_vendor_id : Z;
  (* both halves of the features the device offers *)
  device_features : Z;
  (* of each queue *)
  queue_num_max : Z → Z;
  interrupt_status : Z;
  (* what the driver has written, the last write first *)
  written : list (reg * Z);
}.

Definition write_reg (r : reg) (v : Z) : M VirtIOHeader () := modify_st (λ h,
  mkHeader (magic h) (version h) (device_id h) (hdr_vendor_id h) (device_features h) (queue_num_max h)
    (interrupt_status h) ((r, v) :: written h)).

(** The last value written to a register. *)
Fixpoint reg_value (r : reg) (l : list (reg * Z)) : Z :=
  match l with
  | [] => 0
  | (r', v) :: l => if bool_decide (r' = r) then v else reg_value r l
  end.

(** [queue_pfn] as the device keeps it for each queue; a reset clears it. *)
Fixpoint pfn_of (q : Z) (l : list (reg * Z)) : Z :=
  match l with
  | [] => 0
  | (queue_pfn, v) :: l => if reg_value queue_sel l =? q then v else pfn_of q l
  | (status, 0) :: _ => 0
  | _ :: l => pfn_of q l
  end.

(** ** Reads *)
Definition read_features_reg (h : VirtIOHeader) : Z :=
  if reg_value device_features_sel (written h) =? 0 then wrap 32 (device_features h)
  else wrap 32 (Z.shiftr (device_features h) 32).

Definition verify (h : VirtIOHeader) : bool :=
  (magic h =? 0x74726976) && (version h =? 1) && negb (device_id h =? 0).

(** [DeviceType]; the source makes it of the number by a transmute. *)
Inductive DeviceType : Type :=
| Invalid | Network | Block | Console | EntropySource | MemoryBallooning | IoMemory | Rpmsg | ScsiHost
| P9 | Mac80211 | RprocSerial | VirtioCAIF | MemoryBalloon
| GPU | Timer | Input | Socket | Crypto | SignalDistributionModule | Pstore | IOMMU | Memory.

Definition DeviceType_repr (t : DeviceType) : Z :=
  match t with
  | Invalid => 0 | Network => 1 | Block => 2 | Console => 3 | EntropySource => 4 | MemoryBallooning => 5
  | IoMemory => 6 | Rpmsg => 7 | ScsiHost => 8 | P9 => 9 | Mac80211 => 10 | RprocSerial => 11
  | VirtioCAIF => 12 | MemoryBalloon => 13 | GPU => 16 | Timer => 17 | Input => 18 | Socket => 19
  | Crypto => 20 | SignalDistributionModule => 21 | Pstore => 22 | IOMMU => 23 | Memory => 24
  end.

Definition device_types : list DeviceType :=
  [Invalid; Network; Block; Console; EntropySource; MemoryBallooning; IoMemory; Rpmsg; ScsiHost; P9; Mac80211;
   RprocSerial; VirtioCAIF; MemoryBalloon; GPU; Timer; Input; Socket; Crypto; SignalDistributionModule; Pstore;
   IOMMU; Memory].

(** [None]: the transmute met a number without a constructor. *)
Definition device_type (h : VirtIOHeader) : option DeviceType :=
  let x := device_id h in
  if ((1 <=? x) && (x <=? 13)) || ((16 <=? x) && (x <=? 24)) then
    List.find (λ t, DeviceType_repr t =? wrap 8 x) device_types
  else Some Invalid.

Definition vendor_id (h : VirtIOHeader) : Z := hdr_vendor_id h.

(** ** Initialization *)
Definition DeviceStatus_ACKNOWLEDGE : Z := 1.
Definition DeviceStatus_DRIVER : Z := 2.
Definition DeviceStatus_FEATURES_OK : Z := 8.
Definition DeviceStatus_DRIVER_OK : Z := 4.

Definition read_device_features : M VirtIOHeader Z :=
  write_reg device_features_sel 0 ≫= λ _,
  gets read_features_reg ≫= λ lo,
  write_reg device_features_sel 1 ≫= λ _,
  gets read_features_reg ≫= λ hi,
  mret (lo +u Z.shiftl hi 32).

Definition write_driver_features (features : Z) : M VirtIOHeader () :=
  write_reg driver_features_sel 0 ≫= λ _,
  write_reg driver_features (wrap 32 features) ≫= λ _,
  write_reg driver_features_sel 1 ≫= λ _,
  write_reg driver_features (wrap 32 (Z.shiftr features 32)).

Definition begin_init (negotiate_features : Z → Z) : M VirtIOHeader () :=
  write_reg status DeviceStatus_ACKNOWLEDGE ≫= λ _,
  write_reg status DeviceStatus_DRIVER ≫= λ _,
  read_device_features ≫= λ features,
  write_driver_features (negotiate_features features) ≫= λ _,
  write_reg status DeviceStatus_FEATURES_OK ≫= λ _,
  write_reg guest_page_size (wrap 32 PAGE_SIZE).

Definition finish_init : M VirtIOHeader () := write_reg status DeviceStatus_DRIVER_OK.

(** ** Queues *)
Definition queue_set (queue size align pfn : Z) : M VirtIOHeader () :=
  write_reg queue_sel queue ≫= λ _,
  write_reg queue_num size ≫= λ _,
  write_reg queue_align align ≫= λ _,
  write_reg queue_pfn pfn.

Definition queue_physical_page_number (queue : Z) : M VirtIOHeader Z :=
  write_reg queue_sel queue ≫= λ _,
  gets (λ h, pfn_of (reg_value queue_sel (written h)) (written h)).

Definition queue_used (queue : Z) : M VirtIOHeader bool :=
  queue_physical_page_number queue ≫= λ n, mret (negb (n =? 0)).

Definition max_queue_size (h : VirtIOHeader) : Z := queue_num_max h (reg_value queue_sel (written h)).

Definition notify (queue : Z) : M VirtIOHeader () := write_reg queue_notify queue.

Definition ack_interrupt : M VirtIOHeader bool :=
  gets interrupt_status ≫= λ interrupt,
  if negb (interrupt =? 0) then write_reg interrupt_ack interrupt ≫= λ _, mret true else mret false.

(** [CONFIG_SPACE_OFFSET] bytes after the header. *)
Definition config_space (self : Z) : Z := self +u 0x100.

(** ** What they compute *)
Lemma read_device_features_run h : in_u 64 (device_features h) →
  read_device_features h = Ok (device_features h,
    mkHeader (magic h) (version h) (device_id h) (hdr_vendor_id h) (device_features h) (queue_num_max h)
      (interrupt_status h) ((device_features_sel, 1) :: (device_features_sel, 0) :: written h)).
Proof.
  intros Hf. unfold read_device_features, write_reg, modify_st, gets, mbind, M_bind, mret, M_ret, read_features_reg.
  cbn [written device_features reg_value bool_decide decide]. do 2 f_equal. f_equal.
  change (wrap 32 (device_features h) +u Z.shiftl (wrap 32 (Z.shiftr (device_features h) 32)) 32 = device_features h).
  unfold in_u in Hf. unfold uadd, wrap. rewrite Z.shiftl_mul_pow2, Z.shiftr_div_pow2 by lia.
  assert (0 ≤ device_features h / 2 ^ 32 < 2 ^ 32) as Hd.
  { split; [apply Z.div_pos; lia|]. apply Z.div_lt_upper_bound; [lia|]. change (2 ^ 32 * 2 ^ 32) with (2 ^ 64). lia. }
  rewrite (Z.mod_small (_ / _)) by done. pose proof (Z.div_mod (device_features h) (2 ^ 32) ltac:(lia)).
  rewrite Z.mod_small; lia.
Qed.

(** The transmute of [device_type] is sound. *)
Lemma device_type_defined h : ∃ t, device_type h = Some t ∧ (t = Invalid ∨ DeviceType_repr t = device_id h).
Proof.
  unfold device_type. destruct (_ || _) eqn:E; [|by eexists; split; [|left]].
  set (P := λ x, ∃ t, List.find (λ t, DeviceType_repr t =? wrap 8 x) device_types = Some t ∧ (t = Invalid ∨ DeviceType_repr t = x)).
  assert (Forall P ([1; 2; 3; 4; 5; 6; 7; 8; 9; 10; 11; 12; 13] ++ [16; 17; 18; 19; 20; 21; 22; 23; 24])) as H.
  { repeat (apply list.Forall_cons; split; [eexists; split; [reflexivity|by right]|]). done. }
  eapply list.Forall_forall in H; [exact H|]. apply elem_of_app.
  apply orb_true_iff in E as [[H1%Z.leb_le H2%Z.leb_le]%andb_true_iff|[H1%Z.leb_le H2%Z.leb_le]%andb_true_iff].
  - left. apply (elem_of_seqZ 1 13). lia.
  - right. apply (elem_of_seqZ 16 9). lia.
Qed.
