(* ===== verification/PhysBytes.v ===== *)
(** * PhysBytes: physical memory byte by byte

    What [load_bytes] and [store_bytes] of OsFile do to single bytes: the view
    of memory that a device shares with its driver. *)

From stdpp Require Import base gmap list numbers.
From S2P Require Import Prelude Bytes Address FrameAllocator PageTable OsFile.

Definition byte_at (m : mem) (pa : Z) : option Z := ram m !! floor pa ≫= λ b, b !! Z.to_nat (page_offset pa).

(** Memory backs the [n] bytes at [pa]; they are [bs]; [m'] is [m] with [bs]
    stored there. *)
Definition backed (m : mem) (pa : Z) (n : nat) : Prop := ∀ x, pa ≤ x < pa + Z.of_nat n → is_Some (byte_at m x).
Definition bytes_at (m : mem) (pa : Z) (bs : list Z) : Prop :=
  ∀ i v, bs !! i = Some v → byte_at m (pa + Z.of_nat i) = Some v.
Record stored (m : mem) (pa : Z) (bs : list Z) (m' : mem) : Prop := {
  st_alloc : falloc m' = falloc m;
  st_byte x : byte_at m' x =
    if decide (pa ≤ x < pa + Z.of_nat (length bs)) then bs !! Z.to_nat (x - pa) else byte_at m x;
}.

Definition apart (a n b k : Z) : Prop := a + n ≤ b ∨ b + k ≤ a.

Lemma load_byte_run m pa v : byte_at m pa = Some v → load_byte pa m = Ok (v, m).
Proof. unfold byte_at, load_byte. by intros ->. Qed.

Lemma store_byte_run m pa v : is_Some (byte_at m pa) → ∃ m', store_byte pa v m = Ok ((), m') ∧ stored m pa [v] m'.
Proof.
  unfold byte_at, store_byte. intros [w H]. destruct (ram m !! floor pa) as [b|] eqn:Hb; [|done]. cbn in H.
  eexists. split; [done|]. split; [done|]. intros x. unfold byte_at. cbn [ram set_ram length].
  destruct (addr_split pa) as [Hpa Hpo], (addr_split x) as [Hx Hxo].
  destruct (decide (floor x = floor pa)) as [E|E].
  - rewrite E, lookup_insert_eq. cbn [mbind option_bind]. destruct (decide (page_offset x = page_offset pa)) as [Eo|Eo].
    + rewrite Eo, decide_True by lia. rewrite list_lookup_insert_eq by (by eapply lookup_lt_Some).
      by replace (Z.to_nat (x - pa)) with 0%nat by lia.
    + rewrite decide_False by lia. rewrite list_lookup_insert_ne by lia. rewrite Hb. done.
  - rewrite lookup_insert_ne by done. by rewrite decide_False by lia.
Qed.

Lemma backed_stored m pa bs m' a n : stored m pa bs m' → backed m a n → backed m' a n.
Proof.
  intros [_ Hs] Hb x Hx. rewrite Hs. case_decide; [|by apply Hb]. apply lookup_lt_is_Some. lia.
Qed.

Lemma store_bytes_run bs : ∀ m pa, backed m pa (length bs) → ∃ m', store_bytes pa bs m = Ok ((), m') ∧ stored m pa bs m'.
Proof.
  induction bs as [|v bs IH]; intros m pa Hb.
  { exists m. split; [done|]. split; [done|]. intros x. cbn. by rewrite decide_False by lia. }
  destruct (store_byte_run m pa v) as (m1 & Hrun & Hs1); [apply Hb; cbn; lia|].
  destruct (IH m1 (pa + 1)) as (m2 & Hrun2 & Hs2).
  { eapply backed_stored; [exact Hs1|]. intros x Hx. apply Hb. cbn. lia. }
  exists m2. split; [cbn; by run Hrun|]. destruct Hs1 as [Ha1 Hs1], Hs2 as [Ha2 Hs2]. split; [congruence|].
  intros x. rewrite Hs2, Hs1. cbn [length]. repeat case_decide; try lia; try done.
  - by replace (Z.to_nat (x - pa)) with (S (Z.to_nat (x - (pa + 1)))) by lia.
  - by replace (Z.to_nat (x - pa)) with 0%nat by lia.
Qed.

Lemma load_bytes_run m bs : ∀ pa, bytes_at m pa bs → load_bytes pa (length bs) m = Ok (bs, m).
Proof.
  induction bs as [|v bs IH]; intros pa Hb; [done|]. cbn [load_bytes length].
  rewrite (M_bind_run _ _ _ v m). 2: { apply load_byte_run. rewrite <- (Z.add_0_r pa). by apply (Hb 0%nat). }
  rewrite (M_bind_run _ _ _ bs m); [done|]. apply IH. intros i w Hi.
  replace (pa + 1 + Z.of_nat i) with (pa + Z.of_nat (S i)) by lia. by apply Hb.
Qed.

Lemma bytes_at_stored m pa bs m' : stored m pa bs m' → bytes_at m' pa bs.
Proof.
  intros [_ Hs] i v Hi. pose proof (lookup_lt_Some _ _ _ Hi). rewrite Hs, decide_True by lia.
  by replace (Z.to_nat (pa + Z.of_nat i - pa)) with i by lia.
Qed.

Lemma bytes_at_frame m pa bs m' a cs :
  stored m pa bs m' → apart pa (Z.of_nat (length bs)) a (Z.of_nat (length cs)) → bytes_at m a cs → bytes_at m' a cs.
Proof.
  intros [_ Hs] Hap Hb i v Hi. pose proof (lookup_lt_Some _ _ _ Hi). rewrite Hs, decide_False by (unfold apart in Hap; lia).
  by apply Hb.
Qed.

Lemma bytes_at_backed m pa bs : bytes_at m pa bs → backed m pa (length bs).
Proof.
  intros Hb x Hx. destruct (lookup_lt_is_Some_2 bs (Z.to_nat (x - pa))) as [v Hv]; [lia|]. exists v.
  rewrite <- (Hb _ _ Hv). f_equal. lia.
Qed.

Lemma bytes_at_fun m pa bs cs : bytes_at m pa bs → bytes_at m pa cs → length bs = length cs → bs = cs.
Proof.
  intros Hb Hc Hl. apply list_eq_same_length with (n := length bs); [done|done|]. intros i x y Hi Hx Hy.
  specialize (Hb _ _ Hx). specialize (Hc _ _ Hy). congruence.
Qed.

(** Memory that is backed holds some bytes. *)
Lemma backed_bytes m n : ∀ pa, backed m pa n → ∃ bs, length bs = n ∧ bytes_at m pa bs.
Proof.
  induction n as [|n IH]; intros pa Hb; [by exists []|].
  destruct (Hb pa) as [v Hv]; [lia|]. destruct (IH (pa + 1)) as (bs & Hl & Hbs); [intros x Hx; apply Hb; lia|].
  exists (v :: bs). split; [by cbn; f_equal|]. intros [|i] w Hw.
  - injection Hw as <-. by rewrite Z.add_0_r.
  - replace (pa + Z.of_nat (S i)) with (pa + 1 + Z.of_nat i) by lia. by apply Hbs.
Qed.

(** The bytes of a frame. *)
Lemma byte_at_frame m p b o : ram m !! p = Some b → 0 ≤ o < 4096 → byte_at m (4096 * p + o) = b !! Z.to_nat o.
Proof.
  intros Hb Ho. unfold byte_at, floor. rewrite page_offset_mod. change PAGE_SIZE with 4096.
  rewrite (Z.add_comm (4096 * p)), Z.mul_comm, Z.div_add, Z.mod_add, Z.div_small, Z.mod_small, Z.add_0_l by lia. by rewrite Hb.
Qed.

(** Stores keep frames what they are. *)
Lemma store_bytes_keeps l : ∀ pa m m',
  store_bytes pa l m = Ok ((), m') → Forall is_byte l → (∀ x b, ram m !! x = Some b → frame_ok b) →
  falloc m' = falloc m ∧ (∀ x b, ram m' !! x = Some b → frame_ok b) ∧ ∀ x, is_Some (ram m !! x) → is_Some (ram m' !! x).
Proof.
  induction l as [|v l IH]; intros pa m m' H Hl Hok; [by injection H as <-|].
  apply list.Forall_cons in Hl as [Hv Hl]. apply M_bind_Ok in H as ([] & m1 & H1 & H2). unfold store_byte in H1.
  destruct (ram m !! floor pa) as [b|] eqn:Hb; [|done]. injection H1 as <-.
  destruct (IH _ _ _ H2 Hl) as (E1 & E2 & E3).
  - cbn [ram set_ram]. intros x c [[<- <-]|[_ Hc]]%lookup_insert_Some; [|by eapply Hok].
    destruct (Hok _ _ Hb) as [Hlen Hby]. split; [by rewrite length_insert|]. by apply Forall_insert.
  - split_and!; [done|done|]. intros x Hx. apply E3. cbn [ram set_ram]. destruct (decide (x = floor pa)) as [->|];
      [by rewrite lookup_insert_eq|by rewrite lookup_insert_ne].
Qed.

(** Memory that keeps its frames backs what it backed. *)
Lemma backed_frames m m' pa n :
  (∀ x, is_Some (ram m !! x) → is_Some (ram m' !! x)) → (∀ x b, ram m' !! x = Some b → frame_ok b) →
  backed m pa n → backed m' pa n.
Proof.
  intros Hsub Hok Hb x Hx. destruct (Hb x Hx) as [v Hv]. unfold byte_at in Hv |- *.
  destruct (ram m !! floor x) as [b|] eqn:Hr; [|done].
  destruct (Hsub (floor x)) as [b' Hb']; [by rewrite Hr|]. rewrite Hb'. destruct (Hok _ _ Hb') as [Hl _].
  apply lookup_lt_is_Some_2. rewrite Hl. change PAGE_SIZE with 4096. destruct (addr_split x) as [_ Ho]. lia.
Qed.
