(* ===== verification/VirtIODma.v ===== *)
(** * VirtIODma: the pages of a virtqueue
    (dependency/virtio-drivers/src/hal.rs and queue.rs, os/src/drivers/block/virtio_blk.rs)

    A queue lives in pages that the kernel's frame allocator supplies through
    four functions of the kernel; they must be consecutive, because the device
    is told the number of the first one only.  [VirtQueue_new] lays the
    descriptor table and the rings out in them. *)

From stdpp Require Import base gmap list numbers.
From S2P Require Import Prelude Bytes Address FrameAllocator PageTable OsFile PhysBytes.
From S2P Require Import VirtIOHeader VirtQueue VirtQueueInv.

(** Physical memory, [QUEUE_FRAMES] and the device's registers. *)
Record bus : Type := mkBus { b_mem : mem; queue_frames : list Z; b_hdr : VirtIOHeader }.

Definition in_bmem {A} (f : M mem A) : M bus A := λ b,
  match f (b_mem b) with Ok (a, m) => Ok (a, mkBus m (queue_frames b) (b_hdr b)) | Stop e => Stop e end.
Definition in_hdr {A} (f : M VirtIOHeader A) : M bus A := λ b,
  match f (b_hdr b) with Ok (a, h) => Ok (a, mkBus (b_mem b) (queue_frames b) h) | Stop e => Stop e end.

(** ** What the kernel supplies (virtio_blk.rs) *)
Definition push_frame (f : Z) : M bus () := modify_st (λ b, mkBus (b_mem b) (queue_frames b ++ [f]) (b_hdr b)).

Fixpoint dma_alloc_loop (n : nat) (i ppn_base : Z) : M bus Z :=
  match n with
  | O => mret ppn_base
  | S n =>
      in_bmem frame_alloc ≫= λ o, unwrap o ≫= λ frame,
      let ppn_base := if i =? 0 then frame else ppn_base in
      assertM (frame =? ppn_base +u i) ≫= λ _,
      push_frame frame ≫= λ _,
      dma_alloc_loop n (i + 1) ppn_base
  end.
Definition virtio_dma_alloc (pages : Z) : M bus Z :=
  dma_alloc_loop (Z.to_nat pages) 0 0 ≫= λ ppn_base, mret (addr_of_page_num ppn_base).

Fixpoint dma_dealloc_loop (n : nat) (ppn : Z) : M bus () :=
  match n with
  | O => mret ()
  | S n => in_bmem (frame_dealloc ppn) ≫= λ _, dma_dealloc_loop n (step ppn)
  end.
Definition virtio_dma_dealloc (pa pages : Z) : M bus Z :=
  lift_res (page_num_of_addr pa) ≫= λ ppn_base,
  dma_dealloc_loop (Z.to_nat pages) ppn_base ≫= λ _,
  mret 0.

Definition virtio_phys_to_virt (pa : Z) : Z := pa.
Definition virtio_virt_to_phys (kernel_token va : Z) : M mem Z :=
  translate_va (from_token kernel_token) va ≫= λ o, unwrap o.

(** ** [DMA] (hal.rs) *)
Record DMA : Type := mkDMA { paddr : Z; dma_pages : Z }.

Definition DMA_new (pages : Z) : M bus (Error + DMA) :=
  virtio_dma_alloc pages ≫= λ paddr,
  if paddr =? 0 then mret (inl DmaError) else mret (inr (mkDMA (wrap 32 paddr) (wrap 32 pages))).
Definition DMA_vaddr (d : DMA) : Z := virtio_phys_to_virt (paddr d).
Definition DMA_pfn (d : DMA) : Z := Z.shiftr (paddr d) 12.
Definition DMA_drop (d : DMA) : M bus () :=
  virtio_dma_dealloc (paddr d) (dma_pages d) ≫= λ err, assertM (err =? 0).

(** ** [VirtQueue::new] *)

(** The structures of queue.rs as the memory at an address holds them. *)
Fixpoint load_table (pa : Z) (n : nat) : M mem (list Descriptor) :=
  match n with
  | O => mret []
  | S n =>
      load_bytes pa 16 ≫= λ b,
      load_table (pa + 16) n ≫= λ l,
      mret (mkDesc (le_val (slice 0 8 b)) (le_val (slice 8 4 b)) (le_val (slice 12 2 b)) (le_val (slice 14 2 b)) :: l)
  end.
Definition load_avail (pa : Z) : M mem AvailRing :=
  load_bytes (pa + 2) 2 ≫= λ i,
  load_bytes (pa + 4) 64 ≫= λ r,
  mret (mkAvail (le_val i) (arr_list 2 32 r)).
Definition load_used (pa : Z) : M mem UsedRing :=
  load_bytes (pa + 2) 2 ≫= λ i,
  load_bytes (pa + 4) 256 ≫= λ r,
  mret (mkUsed (le_val i) ((λ k, (arr_get 4 r (2 * k), arr_get 4 r (2 * k + 1))) <$> seqZ 0 32)).

Definition VirtQueue_new (idx size : Z) : M bus (Error + DMA * VirtQueue) :=
  in_hdr (queue_used (wrap 32 idx)) ≫= λ u,
  if u : bool then mret (inl AlreadyUsed) else
  gets (λ b, max_queue_size (b_hdr b)) ≫= λ max,
  if negb (is_power_of_two size) || (max <? size) then mret (inl InvalidParam) else
  lift_res (VirtQueueLayout_new size) ≫= λ layout,
  DMA_new (layout_size layout / PAGE_SIZE) ≫= λ r,
  match r with
  | inl e => mret (inl e)
  | inr dma =>
      in_hdr (queue_set (wrap 32 idx) size (wrap 32 PAGE_SIZE) (DMA_pfn dma)) ≫= λ _,
      in_bmem (load_table (DMA_vaddr dma) (Z.to_nat size)) ≫= λ table,
      in_bmem (load_avail (DMA_vaddr dma +u avail_offset layout)) ≫= λ a,
      in_bmem (load_used (DMA_vaddr dma +u used_offset layout)) ≫= λ us,
      mret (inr (dma, VirtQueue_in idx size table a us))
  end.

(** ** The layout

    For every queue size the specification allows the parts lie one behind the
    other without overlap, the used ring starts on a page, and the whole is a
    number of pages. *)
Definition layout_ok (size : Z) (l : VirtQueueLayout) : bool :=
  (avail_offset l =? 16 * size) && (avail_offset l + (6 + 2 * size) <=? used_offset l) &&
  (used_offset l mod PAGE_SIZE =? 0) && (used_offset l + (6 + 8 * size) <=? layout_size l) &&
  (layout_size l mod PAGE_SIZE =? 0) && (layout_size l <=? used_offset l + (6 + 8 * size) + PAGE_SIZE).

Lemma layouts_ok e : 0 ≤ e < 16 → ∃ l, VirtQueueLayout_new (2 ^ e) = Ok l ∧ layout_ok (2 ^ e) l.
Proof.
  intros He. assert (Forall (λ e, ∃ l, VirtQueueLayout_new (2 ^ e) = Ok l ∧ layout_ok (2 ^ e) l)
    [0; 1; 2; 3; 4; 5; 6; 7; 8; 9; 10; 11; 12; 13; 14; 15]) as H.
  { repeat (apply list.Forall_cons; split; [eexists; split; [vm_compute; reflexivity|vm_compute; exact I]|]). done. }
  eapply list.Forall_forall in H; [exact H|]. apply (elem_of_seqZ 0 16). lia.
Qed.

(** ** Consecutive frames *)
Lemma frame_alloc_fresh m lo U :
  mem_ok m lo U → recycled (falloc m) = [] → FrameAllocator.current (falloc m) < end_ (falloc m) →
  let c := FrameAllocator.current (falloc m) in
  let m' := mkMem (<[c := zero_frame]> (ram m)) (mkSFA (c + 1) (end_ (falloc m)) []) in
  frame_alloc m = Ok (Some c, m') ∧ mem_ok m' lo ({[c]} ∪ U).
Proof.
  intros Hok Hr Hlt c m'. destruct (frame_alloc_spec m lo U Hok) as (p & m1 & Hrun & Hp & HpU & Hok1 & _ & Hram).
  { unfold free_frames. pose proof (fa_used_size _ _ _ (mo_alloc _ _ _ Hok)).
    pose proof (fa_used _ _ _ (mo_alloc _ _ _ Hok)) as Hu. pose proof (fa_range _ _ _ (mo_alloc _ _ _ Hok)).
    assert (U ⊆ list_to_set (seqZ lo (c - lo))) as Hsub
      by (intros x Hx; apply Hu in Hx as [Hx _]; apply elem_of_list_to_set, elem_of_seqZ; unfold c; lia).
    apply subseteq_size in Hsub. rewrite size_list_to_set, length_seqZ in Hsub by apply NoDup_seqZ. unfold c in *. lia. }
  pose proof Hrun as Hrun0. unfold frame_alloc, SFA_alloc in Hrun. rewrite Hr in Hrun.
  destruct (Z.eqb_spec (FrameAllocator.current (falloc m)) (end_ (falloc m))); [lia|].
  pose proof (fa_range _ _ _ (mo_alloc _ _ _ Hok)) as Hrng. change (2 ^ 44) with 17592186044416 in Hrng.
  cbn [FrameAllocator.current] in Hrun. fold c in Hrun, Hrng, Hlt.
  assert (c +u 1 -u 1 = c) as E1 by mach. assert (c +u 1 = c + 1) as E2 by mach.
  rewrite E1, E2, PhysPageNum_from_id in Hrun by (change (2 ^ 44) with 17592186044416; lia).
  destruct (mo_ram _ _ _ Hok c) as [b Hb]; [lia|].
  unfold FrameTracker_new, mbind, M_bind in Hrun.
  rewrite (get_bytes_run _ c b) in Hrun by (try done; change (2 ^ 52) with 4503599627370496; lia).
  rewrite (put_bytes_run _ c b) in Hrun by (try done; change (2 ^ 52) with 4503599627370496; lia).
  unfold mret, M_ret in Hrun. injection Hrun as Hpc Hm1. subst p. cbn [set_ram ram falloc] in Hm1.
  rewrite fmap_zero in Hm1 by (by apply (mo_frame _ _ _ Hok c)).
  subst m1. done.
Qed.

Lemma in_bmem_run {A} (f : M mem A) b a m : f (b_mem b) = Ok (a, m) → in_bmem f b = Ok (a, mkBus m (queue_frames b) (b_hdr b)).
Proof. unfold in_bmem. by intros ->. Qed.

Lemma dma_alloc_loop_run lo n : ∀ i base b U,
  mem_ok (b_mem b) lo U → recycled (falloc (b_mem b)) = [] →
  let c := FrameAllocator.current (falloc (b_mem b)) in
  c + Z.of_nat n ≤ end_ (falloc (b_mem b)) → 0 ≤ i ≤ c → i = 0 ∨ base = c - i →
  ∃ m', dma_alloc_loop n i base b = Ok (match n with O => base | S _ => c - i end,
      mkBus m' (queue_frames b ++ seqZ c (Z.of_nat n)) (b_hdr b)) ∧
    mem_ok m' lo (list_to_set (seqZ c (Z.of_nat n)) ∪ U) ∧ falloc m' = mkSFA (c + Z.of_nat n) (end_ (falloc (b_mem b))) [] ∧
    ∀ x, ram m' !! x = if decide (c ≤ x < c + Z.of_nat n) then Some zero_frame else ram (b_mem b) !! x.
Proof.
  induction n as [|n IH]; intros i base b U Hok Hr c Hend Hi Hbase.
  { exists (b_mem b). split_and!.
    - cbn. rewrite app_nil_r. by destruct b.
    - replace (list_to_set (seqZ c (Z.of_nat 0)) ∪ U) with U by set_solver. done.
    - destruct (b_mem b) as [r [c0 e0 r0]]. cbn in *. by rewrite Hr, Z.add_0_r.
    - intros x. by rewrite decide_False by lia. }
  destruct (frame_alloc_fresh (b_mem b) lo U Hok Hr) as [Hrun Hok1]; [unfold c in *; lia|]. fold c in Hrun, Hok1.
  set (m1 := mkMem (<[c := zero_frame]> (ram (b_mem b))) (mkSFA (c + 1) (end_ (falloc (b_mem b))) [])) in *.
  set (b1 := mkBus m1 (queue_frames b ++ [c]) (b_hdr b)).
  destruct (IH (i + 1) (c - i) b1 ({[c]} ∪ U) Hok1 eq_refl) as (m' & Hl & Hok' & Hfa & Hram); cbn [b1 b_mem m1 falloc FrameAllocator.current end_];
    [unfold c in *; lia|lia|right; lia|].
  cbn [b1 b_mem m1 falloc FrameAllocator.current end_ queue_frames b_hdr ram] in *.
  pose proof (fa_range _ _ _ (mo_alloc _ _ _ Hok)) as Hrng. change (2 ^ 44) with 17592186044416 in Hrng. fold c in Hrng.
  rewrite Nat2Z.inj_succ, seqZ_cons, Z.pred_succ by lia. exists m'. split_and!.
  - cbn [dma_alloc_loop]. run (in_bmem_run frame_alloc b _ _ Hrun). rewrite M_unwrap_bind.
    assert ((if i =? 0 then c else base) = c - i) as -> by (destruct (Z.eqb_spec i 0), Hbase; lia).
    rewrite M_assert_bind. 2: { apply Z.eqb_eq. rewrite uadd_small; [lia|]. unfold in_u. change (2 ^ 64) with 18446744073709551616. lia. }
    rewrite (M_bind_run _ _ _ () b1) by done. rewrite Hl. rewrite <- app_assoc. cbn [app]. do 2 f_equal. destruct n; lia.
  - replace (list_to_set (c :: seqZ (Z.succ c) (Z.of_nat n)) ∪ U) with (list_to_set (seqZ (c + 1) (Z.of_nat n)) ∪ ({[c]} ∪ U)); [done|].
    cbn [list_to_set]. unfold Z.succ. set_solver.
  - rewrite Hfa. f_equal. lia.
  - intros x. rewrite Hram. destruct (decide (x = c)) as [->|Hne].
    + rewrite decide_False, decide_True, lookup_insert_eq by lia. done.
    + rewrite lookup_insert_ne by done. repeat case_decide; try done; lia.
Qed.

(** ** Zeroed memory *)
Lemma load_zeros m pa n : bytes_at m pa (replicate n 0) → load_bytes pa n m = Ok (replicate n 0, m).
Proof. intros H. apply load_bytes_run in H. by rewrite length_replicate in H. Qed.

Definition zeroed (m : mem) (pa n : Z) : Prop := ∀ x, pa ≤ x < pa + n → byte_at m x = Some 0.

Lemma zeroed_bytes m pa n a k : zeroed m pa n → pa ≤ a → a + Z.of_nat k ≤ pa + n → bytes_at m a (replicate k 0).
Proof. intros Hz H1 H2 i v [-> Hi]%lookup_replicate. apply Hz. lia. Qed.

Lemma load_table_zero m n : ∀ pa, zeroed m pa (16 * Z.of_nat n) → load_table pa n m = Ok (replicate n (mkDesc 0 0 0 0), m).
Proof.
  induction n as [|n IH]; intros pa Hz; [done|]. cbn [load_table].
  rewrite (M_bind_run _ _ _ _ _ (load_zeros m pa 16 (zeroed_bytes _ _ _ pa 16 Hz ltac:(lia) ltac:(lia)))).
  rewrite (M_bind_run _ _ _ _ _ (IH (pa + 16) ltac:(intros x Hx; apply Hz; lia))). done.
Qed.

Lemma load_avail_zero m pa : zeroed m pa 68 → load_avail pa m = Ok (mkAvail 0 (replicate 32 0), m).
Proof.
  intros Hz. unfold load_avail.
  rewrite (M_bind_run _ _ _ _ _ (load_zeros m (pa + 2) 2 (zeroed_bytes _ _ _ (pa + 2) 2 Hz ltac:(lia) ltac:(lia)))).
  by rewrite (M_bind_run _ _ _ _ _ (load_zeros m (pa + 4) 64 (zeroed_bytes _ _ _ (pa + 4) 64 Hz ltac:(lia) ltac:(lia)))).
Qed.

Lemma load_used_zero m pa : zeroed m pa 260 → load_used pa m = Ok (mkUsed 0 (replicate 32 (0, 0)), m).
Proof.
  intros Hz. unfold load_used.
  rewrite (M_bind_run _ _ _ _ _ (load_zeros m (pa + 2) 2 (zeroed_bytes _ _ _ (pa + 2) 2 Hz ltac:(lia) ltac:(lia)))).
  by rewrite (M_bind_run _ _ _ _ _ (load_zeros m (pa + 4) 256 (zeroed_bytes _ _ _ (pa + 4) 256 Hz ltac:(lia) ltac:(lia)))).
Qed.

(** ** A new queue *)
Lemma small_layout e : 0 ≤ e ≤ 5 → VirtQueueLayout_new (2 ^ e) = Ok (mkLayout (16 * 2 ^ e) 4096 8192) ∧ is_power_of_two (2 ^ e) = true.
Proof.
  intros He. assert (e = 0 ∨ e = 1 ∨ e = 2 ∨ e = 3 ∨ e = 4 ∨ e = 5) as H by lia.
  destruct H as [->|[->|[->|[->|[->| ->]]]]]; done.
Qed.

(** The registers after [queue_used] and [queue_set]. *)
Definition queue_writes (idx size pfn : Z) : list (reg * Z) :=
  [(queue_pfn, pfn); (queue_align, 4096); (queue_num, size); (queue_sel, idx); (queue_sel, idx)].
Definition add_writes (l : list (reg * Z)) (h : VirtIOHeader) : VirtIOHeader :=
  mkHeader (magic h) (version h) (device_id h) (hdr_vendor_id h) (device_features h) (queue_num_max h)
    (interrupt_status h) (l ++ written h).

Lemma DMA_new_run b lo U :
  mem_ok (b_mem b) lo U → recycled (falloc (b_mem b)) = [] →
  let c := FrameAllocator.current (falloc (b_mem b)) in
  0 < c → c + 2 ≤ end_ (falloc (b_mem b)) → end_ (falloc (b_mem b)) ≤ 2 ^ 20 →
  ∃ m', DMA_new 2 b = Ok (inr (mkDMA (4096 * c) 2), mkBus m' (queue_frames b ++ [c; c + 1]) (b_hdr b)) ∧
    mem_ok m' lo ({[c; c + 1]} ∪ U) ∧ zeroed m' (4096 * c) 8192 ∧ falloc m' = mkSFA (c + 2) (end_ (falloc (b_mem b))) [] ∧
    ∀ x, x ≠ c → x ≠ c + 1 → ram m' !! x = ram (b_mem b) !! x.
Proof.
  intros Hok Hr c Hc Hend Hmax. change (2 ^ 20) with 1048576 in Hmax.
  destruct (dma_alloc_loop_run lo 2 0 0 b U Hok Hr) as (m' & Hrun & Hok' & Hfa & Hram); [fold c; lia|fold c; lia|by left|].
  fold c in Hrun, Hok', Hfa, Hram.
  assert (seqZ c (Z.of_nat 2) = [c; c + 1]) as Hseq by (by rewrite !seqZ_cons, seqZ_nil by lia).
  rewrite Hseq in *. rewrite Z.sub_0_r in Hrun.
  exists m'. split_and!; try done.
  - unfold DMA_new, virtio_dma_alloc. rewrite M_bind_assoc. run Hrun. rewrite M_ret_bind.
    rewrite addr_of_page_num_eq by (change (2 ^ 52) with 4503599627370496; lia). change PAGE_SIZE with 4096.
    destruct (Z.eqb_spec (4096 * c) 0); [lia|]. rewrite wrap_small by (unfold in_u; change (2 ^ 32) with 4294967296; lia). done.
  - replace ({[c; c + 1]} ∪ U) with (list_to_set [c; c + 1] ∪ U); [done|]. set_solver.
  - intros x Hx. destruct (addr_split x) as [Hs Ho].
    rewrite Hs, (byte_at_frame m' (floor x) zero_frame); [|rewrite Hram, decide_True; [done|lia]|done].
    unfold zero_frame. apply lookup_replicate. split; [done|]. change (Z.to_nat PAGE_SIZE) with (Z.to_nat 4096). lia.
  - intros x H1 H2. rewrite Hram, decide_False; [done|lia].
Qed.

Lemma VirtQueue_new_spec idx e b lo U :
  0 ≤ e ≤ 5 → in_u 32 idx → pfn_of idx (written (b_hdr b)) = 0 → 2 ^ e ≤ queue_num_max (b_hdr b) idx →
  mem_ok (b_mem b) lo U → recycled (falloc (b_mem b)) = [] →
  let c := FrameAllocator.current (falloc (b_mem b)) in
  0 < c → c + 2 ≤ end_ (falloc (b_mem b)) → end_ (falloc (b_mem b)) ≤ 2 ^ 20 →
  ∃ m' q, VirtQueue_new idx (2 ^ e) b = Ok (inr (mkDMA (4096 * c) 2, q),
      mkBus m' (queue_frames b ++ [c; c + 1]) (add_writes (queue_writes idx (2 ^ e) c) (b_hdr b))) ∧
    mem_ok m' lo ({[c; c + 1]} ∪ U) ∧ falloc m' = mkSFA (c + 2) (end_ (falloc (b_mem b))) [] ∧
    (∀ x, x ≠ c → x ≠ c + 1 → ram m' !! x = ram (b_mem b) !! x) ∧
    qinv q (seqZ 0 (2 ^ e)) [] [] ∧ queue_size q = 2 ^ e ∧ last_used_idx q = 0 ∧ avail_idx q = 0.
Proof.
  intros He Hidx Hpfn Hmax Hok Hr c Hc Hend Hlim. destruct (small_layout e He) as [Hlay Hpow].
  assert (0 < 2 ^ e ≤ 32) as Hp by (split; [lia|]; change 32 with (2 ^ 5); apply Z.pow_le_mono_r; lia).
  set (h1 := add_writes [(queue_sel, idx)] (b_hdr b)). set (b1 := mkBus (b_mem b) (queue_frames b) h1).
  destruct (DMA_new_run b1 lo U Hok Hr Hc Hend Hlim) as (m' & Hdma & Hok' & Hz & Hfa & Hram).
  cbn [b1 b_mem] in Hdma, Hok', Hz, Hfa, Hram. fold b1 in Hdma. fold c in Hdma, Hok', Hz, Hfa, Hram.
  cbn [b1 queue_frames b_hdr] in Hdma. change (2 ^ 20) with 1048576 in Hlim.
  set (q := VirtQueue_in idx (2 ^ e) (replicate (Z.to_nat (2 ^ e)) (mkDesc 0 0 0 0)) (mkAvail 0 (replicate 32 0)) (mkUsed 0 (replicate 32 (0, 0)))).
  exists m', q. split_and!; try done.
  - unfold VirtQueue_new. rewrite (wrap_small 32 idx) by done.
    rewrite (M_bind_run _ _ _ false b1).
    2: { unfold in_hdr, queue_used, queue_physical_page_number, write_reg, modify_st, gets, mbind, M_bind, mret, M_ret. cbn [written b_hdr reg_value pfn_of].
      rewrite (bool_decide_eq_true_2 (queue_sel = queue_sel)) by done. rewrite Hpfn. done. }
    rewrite (M_bind_run _ _ _ (queue_num_max (b_hdr b) idx) b1).
    2: { unfold gets, max_queue_size. cbn [b1 b_hdr h1 add_writes written app reg_value queue_num_max]. by rewrite bool_decide_eq_true_2. }
    rewrite Hpow. destruct (Z.ltb_spec (queue_num_max (b_hdr b) idx) (2 ^ e)); [lia|]. cbn [negb orb].
    rewrite Hlay, M_res_bind. cbn [layout_size avail_offset used_offset]. change (8192 / PAGE_SIZE) with 2.
    run Hdma. set (b2 := mkBus m' (queue_frames b ++ [c; c + 1]) (add_writes (queue_writes idx (2 ^ e) c) (b_hdr b))).
    assert (DMA_pfn (mkDMA (4096 * c) 2) = c) as Hpf.
    { unfold DMA_pfn. cbn [paddr]. rewrite Z.shiftr_div_pow2 by lia. change (2 ^ 12) with 4096. rewrite Z.mul_comm. by apply Z.div_mul. }
    cbv beta iota. rewrite Hpf. rewrite (M_bind_run _ _ _ () b2) by done.
    unfold DMA_vaddr, virtio_phys_to_virt. cbn [paddr].
    rewrite (M_bind_run _ _ _ (replicate (Z.to_nat (2 ^ e)) (mkDesc 0 0 0 0)) b2)
      by (apply (in_bmem_run _ b2); apply load_table_zero; intros x Hx; apply Hz; lia).
    rewrite !uadd_small by (unfold in_u; change (2 ^ 64) with 18446744073709551616; lia).
    rewrite (M_bind_run _ _ _ (mkAvail 0 (replicate 32 0)) b2)
      by (apply (in_bmem_run _ b2); apply load_avail_zero; intros x Hx; apply Hz; lia).
    rewrite (M_bind_run _ _ _ (mkUsed 0 (replicate 32 (0, 0))) b2)
      by (apply (in_bmem_run _ b2); apply load_used_zero; intros x Hx; apply Hz; lia).
    done.
  - apply VirtQueue_in_inv; try done. rewrite length_replicate. lia.
Qed.

(** A queue in use, of an odd size or larger than the device can have is
    refused before anything is allocated. *)
Lemma VirtQueue_new_refused idx size b :
  in_u 32 idx →
  pfn_of idx (written (b_hdr b)) ≠ 0 ∨ is_power_of_two size = false ∨ queue_num_max (b_hdr b) idx < size →
  VirtQueue_new idx size b = Ok (inl (if pfn_of idx (written (b_hdr b)) =? 0 then InvalidParam else AlreadyUsed),
    mkBus (b_mem b) (queue_frames b) (add_writes [(queue_sel, idx)] (b_hdr b))).
Proof.
  intros Hidx Hno. unfold VirtQueue_new. rewrite (wrap_small 32 idx) by done.
  set (b1 := mkBus (b_mem b) (queue_frames b) (add_writes [(queue_sel, idx)] (b_hdr b))).
  rewrite (M_bind_run _ _ _ (negb (pfn_of idx (written (b_hdr b)) =? 0)) b1) by done.
  destruct (Z.eqb_spec (pfn_of idx (written (b_hdr b))) 0) as [Hp|Hp]; [|done]. cbn [negb].
  rewrite (M_bind_run _ _ _ (queue_num_max (b_hdr b) idx) b1) by done.
  destruct Hno as [|[->|Hm]]; [done|done|]. destruct (Z.ltb_spec (queue_num_max (b_hdr b) idx) size); [|lia].
  by rewrite orb_true_r.
Qed.
