(* ===== verification/VirtIOBlk.v ===== *)
(** * VirtIOBlk: the block driver
    (dependency/virtio-drivers/src/blk.rs, os/src/drivers/block/virtio_blk.rs, mod.rs)

    A request is a chain of three buffers: a header the device reads, the data,
    and a status byte the device writes.  The driver offers the chain, rings the
    device and polls until the chain is answered.

    The device itself is not part of the program: [BlkDevice] has what it does
    while the driver polls once.  [virt_to_phys] is the kernel's function; the
    addresses of a function's local variables are arguments. *)

From stdpp Require Import base gmap list numbers.
From S2P Require Import Prelude Bytes Address FrameAllocator PageTable OsFile PhysBytes.
From S2P Require Import VirtIOHeader VirtQueue VirtIODma.

(** ** Requests *)
Inductive ReqType : Type := In | Out | Flush | Discard | WriteZeroes.
Definition ReqType_repr (t : ReqType) : Z :=
  match t with In => 0 | Out => 1 | Flush => 4 | Discard => 11 | WriteZeroes => 13 end.

Inductive RespStatus : Type := RespOk | IoErr | Unsupported | RespNotReady.
Definition RespStatus_repr (s : RespStatus) : Z :=
  match s with RespOk => 0 | IoErr => 1 | Unsupported => 2 | RespNotReady => 3 end.
Definition RespStatus_of (b : Z) : option RespStatus :=
  List.find (λ s, RespStatus_repr s =? b) [RespOk; IoErr; Unsupported; RespNotReady].

Record BlkReq : Type := mkReq { type_ : ReqType; reserved : Z; req_sector : Z }.
Definition BlkReq_bytes (r : BlkReq) : list Z :=
  le_bytes 4 (ReqType_repr (type_ r)) ++ le_bytes 4 (reserved r) ++ le_bytes 8 (req_sector r).

(** [BlkResp::default]. *)
Definition BlkResp_default : RespStatus := RespNotReady.
Definition BlkResp_bytes (s : RespStatus) : list Z := [RespStatus_repr s].

Definition BLK_SIZE : Z := 512.

(** [BlkFeature]: the bits that have a name. *)
Definition BlkFeature_all : list Z :=
  [0; 1; 2; 4; 5; 6; 7; 9; 10; 11; 13; 14; 24; 27; 28; 29; 30; 32; 33; 34; 35; 36; 37; 38].
Definition BlkFeature_from_bits_truncate (f : Z) : Z :=
  Z.land f (foldr (λ i a, Z.lor (Z.shiftl 1 i) a) 0 BlkFeature_all).
Definition BlkFeature_empty : Z := 0.

(** ** The driver with its device *)
Record machine (T : Type) : Type := mkMachine {
  m_bus : bus;
  m_queue : VirtQueue;
  m_capacity : Z;
  m_dev : T;
}.
Arguments mkMachine {T}.
Arguments m_bus {T}.
Arguments m_queue {T}.
Arguments m_capacity {T}.
Arguments m_dev {T}.

(** A device: its sectors, and a step of its own. *)
Class BlkDevice (T : Type) := {
  sector : T → Z → option (list Z);
  dev_step : machine T → machine T;
}.

Section driver.
Context {T : Type} `{!BlkDevice T} (virt_to_phys : Z → Z).

Definition in_bus {A} (f : M bus A) : M (machine T) A := λ s,
  match f (m_bus s) with Ok (a, b) => Ok (a, mkMachine b (m_queue s) (m_capacity s) (m_dev s)) | Stop e => Stop e end.
Definition in_queue {A} (f : M VirtQueue A) : M (machine T) A := λ s,
  match f (m_queue s) with Ok (a, q) => Ok (a, mkMachine (m_bus s) q (m_capacity s) (m_dev s)) | Stop e => Stop e end.

(** Variables of the driver, through the kernel's page table. *)
Fixpoint store_virt (va : Z) (l : list Z) : M mem () :=
  match l with
  | [] => mret ()
  | v :: l => store_byte (virt_to_phys va) v ≫= λ _, store_virt (va + 1) l
  end.
Fixpoint load_virt (va : Z) (n : nat) : M mem (list Z) :=
  match n with
  | O => mret []
  | S n => load_byte (virt_to_phys va) ≫= λ v, load_virt (va + 1) n ≫= λ l, mret (v :: l)
  end.
Definition store_var (va : Z) (l : list Z) : M (machine T) () := in_bus (in_bmem (store_virt va l)).
Definition load_var (va : Z) (n : nat) : M (machine T) (list Z) := in_bus (in_bmem (load_virt va n)).

(** [while !self.queue.can_pop() { spin_loop() }]: the device goes on while the
    driver polls. *)
Fixpoint wait_used (fuel : nat) : M (machine T) () :=
  gets (λ s, can_pop (m_queue s)) ≫= λ c,
  if c : bool then mret ()
  else match fuel with
    | O => halt OutOfFuel
    | S fuel => modify_st dev_step ≫= λ _, wait_used fuel
    end.

(** The part [read_block] and [write_block] share, from [add] to the status. *)
Definition exchange (fuel : nat) (inputs outputs : list (Z * Z)) (resp : Z) : M (machine T) (Error + ()) :=
  in_queue (add virt_to_phys inputs outputs) ≫= λ r,
  match r with
  | inl e => mret (inl e)
  | inr _ =>
      in_bus (in_hdr (notify 0)) ≫= λ _,
      wait_used fuel ≫= λ _,
      in_queue pop_used ≫= λ r,
      match r with
      | inl e => mret (inl e)
      | inr _ =>
          load_var resp 1 ≫= λ b,
          match head b ≫= RespStatus_of with
          | Some RespOk => mret (inr ())
          | Some _ => mret (inl IoError)
          | None => halt Undefined
          end
      end
  end.

(** [buf]: address and length of the slice. *)
Definition read_block (fuel : nat) (req resp : Z) (block_id : Z) (buf : Z * Z) : M (machine T) (Error + ()) :=
  assertM (buf.2 =? BLK_SIZE) ≫= λ _,
  store_var req (BlkReq_bytes (mkReq In 0 block_id)) ≫= λ _,
  store_var resp (BlkResp_bytes BlkResp_default) ≫= λ _,
  exchange fuel [(req, 16)] [buf; (resp, 1)] resp.

Definition write_block (fuel : nat) (req resp : Z) (block_id : Z) (buf : Z * Z) : M (machine T) (Error + ()) :=
  assertM (buf.2 =? BLK_SIZE) ≫= λ _,
  store_var req (BlkReq_bytes (mkReq Out 0 block_id)) ≫= λ _,
  store_var resp (BlkResp_bytes BlkResp_default) ≫= λ _,
  exchange fuel [(req, 16); buf] [(resp, 1)] resp.

(** The versions that do not wait; the status is the caller's variable. *)
Definition read_block_nb (req : Z) (block_id : Z) (buf : Z * Z) (resp : Z) : M (machine T) (Error + Z) :=
  assertM (buf.2 =? BLK_SIZE) ≫= λ _,
  store_var req (BlkReq_bytes (mkReq In 0 block_id)) ≫= λ _,
  in_queue (add virt_to_phys [(req, 16)] [buf; (resp, 1)]) ≫= λ r,
  match r with
  | inl e => mret (inl e)
  | inr token => in_bus (in_hdr (notify 0)) ≫= λ _, mret (inr token)
  end.
Definition write_block_nb (req : Z) (block_id : Z) (buf : Z * Z) (resp : Z) : M (machine T) (Error + Z) :=
  assertM (buf.2 =? BLK_SIZE) ≫= λ _,
  store_var req (BlkReq_bytes (mkReq Out 0 block_id)) ≫= λ _,
  in_queue (add virt_to_phys [(req, 16); buf] [(resp, 1)]) ≫= λ r,
  match r with
  | inl e => mret (inl e)
  | inr token => in_bus (in_hdr (notify 0)) ≫= λ _, mret (inr token)
  end.

Definition blk_pop_used : M (machine T) (Error + Z) :=
  in_queue pop_used ≫= λ r, mret (match r with inl e => inl e | inr p => inr p.1 end).
Definition blk_ack_interrupt : M (machine T) bool := in_bus (in_hdr ack_interrupt).
Definition virt_queue_size (s : machine T) : Z := queue_size (m_queue s).

(** ** Start *)

(** [capacity] is read from the configuration space. *)
Definition VirtIOBlk_new (config_capacity : Z) : M bus (Error + DMA * VirtQueue * Z) :=
  in_hdr (begin_init (λ features, Z.land (BlkFeature_from_bits_truncate features) BlkFeature_empty)) ≫= λ _,
  VirtQueue_new 0 16 ≫= λ r,
  match r with
  | inl e => mret (inl e)
  | inr (dma, q) => in_hdr finish_init ≫= λ _, mret (inr (dma, q, config_capacity))
  end.

(** ** The kernel's block device (virtio_blk.rs)

    [VirtIOBlock::new] unwraps, the two operations expect success. *)
Definition VirtIOBlock_new (config_capacity : Z) : M bus (DMA * VirtQueue * Z) :=
  VirtIOBlk_new config_capacity ≫= λ r,
  match r with inl _ => halt Panicked | inr x => mret x end.

Definition VirtIOBlock_read_block (fuel : nat) (req resp block_id : Z) (buf : Z * Z) : M (machine T) () :=
  read_block fuel req resp block_id buf ≫= λ r,
  match r with inl _ => halt Panicked | inr _ => mret () end.
Definition VirtIOBlock_write_block (fuel : nat) (req resp block_id : Z) (buf : Z * Z) : M (machine T) () :=
  write_block fuel req resp block_id buf ≫= λ r,
  match r with inl _ => halt Panicked | inr _ => mret () end.

(** [block_device_test] (mod.rs), with the addresses of its two buffers. *)
Definition block_device_test (fuel : nat) (req resp write_buffer read_buffer : Z) : M (machine T) () :=
  store_var write_buffer (replicate 512 0) ≫= λ _,
  store_var read_buffer (replicate 512 0) ≫= λ _,
  for_each (seqZ 0 512) (λ i,
    store_var write_buffer (replicate 512 (wrap 8 i)) ≫= λ _,
    VirtIOBlock_write_block fuel req resp i (write_buffer, 512) ≫= λ _,
    VirtIOBlock_read_block fuel req resp i (read_buffer, 512) ≫= λ _,
    load_var write_buffer 512 ≫= λ w,
    load_var read_buffer 512 ≫= λ r,
    assertM (bool_decide (w = r))).
End driver.
