(* ===== verification/VirtIOBlkInv.v ===== *)
(** * VirtIOBlkInv: the block driver on a device that follows the specification

    [BlkDeviceLaws] is what virtio promises of a block device that is offered
    one request at a time.  On such a device [read_block] and [write_block]
    return, transfer exactly one sector, and leave the driver ready for the
    next request. *)

From stdpp Require Import base gmap list numbers.
From S2P Require Import Prelude Bytes Address FrameAllocator PageTable OsFile PhysBytes.
From S2P Require Import VirtIOHeader VirtQueue VirtQueueInv VirtIODma VirtIOBlk.

(** ** What the device promises *)

(** The driver is up and has rung the bell of queue 0. *)
Definition driver_up (h : VirtIOHeader) : Prop :=
  reg_value status (written h) = DeviceStatus_DRIVER_OK ∧ pfn_of 0 (written h) ≠ 0.
Definition rung (h : VirtIOHeader) : Prop := driver_up h ∧ head (written h) = Some (queue_notify, 0).

(** The one chain the device has not answered yet starts at [h] and describes
    the buffers [bs]. *)
Record offered (q : VirtQueue) (h : Z) (bs : list dbuf) : Prop := {
  of_idx : avail_idx_reg (avail q) = wrap 16 (used_idx_reg (used q) + 1);
  of_ring : avail_ring (avail q) !! Z.to_nat (used_idx_reg (used q) mod queue_size q) = Some h;
  of_chain : walk (length (desc q)) (desc q) h = Some bs;
}.

(** A well-formed request to read or to write a sector. *)
Record request (m : mem) (ty : ReqType) (sec ha da sa : Z) : Prop := {
  rq_type : ty = In ∨ ty = Out;
  rq_sector : in_u 64 sec;
  rq_head : bytes_at m ha (BlkReq_bytes (mkReq ty 0 sec));
  rq_data : backed m da 512;
  rq_status : backed m sa 1;
  rq_apart : apart da 512 sa 1;
}.
Definition request_bufs (ty : ReqType) (ha da sa : Z) : list dbuf :=
  [(ha, 16, false); (da, 512, match ty with In => true | _ => false end); (sa, 1, true)].

(** What has happened to memory and to the sectors when the request is
    answered.  A sector the device does not have gives an error status. *)
Definition transferred (ty : ReqType) (sec da sa : Z) (m : mem) (d : Z → option (list Z)) (m' : mem) (d' : Z → option (list Z)) : Prop :=
  match ty, d sec with
  | In, Some data => ∃ m1, stored m da data m1 ∧ stored m1 sa [0] m' ∧ ∀ x, d' x = d x
  | In, None => ∃ junk m1 st, length junk = 512%nat ∧ stored m da junk m1 ∧ stored m1 sa [st] m' ∧ st ∈ [1; 2] ∧ ∀ x, d' x = d x
  | _, Some _ => ∃ data, length data = 512%nat ∧ bytes_at m da data ∧ stored m sa [0] m' ∧
      ∀ x, d' x = if decide (x = sec) then Some data else d x
  | _, None => ∃ st, stored m sa [st] m' ∧ st ∈ [1; 2] ∧ ∀ x, d' x = d x
  end.

(** What stays: everything but memory, the queue and the sectors. *)
Definition same_driver {T} (s s' : machine T) : Prop :=
  b_hdr (m_bus s') = b_hdr (m_bus s) ∧ queue_frames (m_bus s') = queue_frames (m_bus s) ∧ m_capacity s' = m_capacity s.

Class BlkDeviceLaws (T : Type) `{!BlkDevice T} := {
  sector_length t id b : sector t id = Some b → length b = 512%nat;
  dev_serves s h ty sec ha da sa :
    rung (b_hdr (m_bus s)) → offered (m_queue s) h (request_bufs ty ha da sa) →
    request (b_mem (m_bus s)) ty sec ha da sa →
    ∃ n len, let s' := Nat.iter n dev_step s in
      (∀ k, (k < n)%nat → m_queue (Nat.iter k dev_step s) = m_queue s) ∧
      m_queue s' = answer h len (m_queue s) ∧ same_driver s s' ∧
      transferred ty sec da sa (b_mem (m_bus s)) (sector (m_dev s)) (b_mem (m_bus s')) (sector (m_dev s'));
}.

(** ** The driver between requests *)
Record blk_ready {T} (s : machine T) : Prop := {
  br_queue : ∃ free, qinv (m_queue s) free [] [];
  br_size : 3 ≤ queue_size (m_queue s);
  br_idx : avail_idx (m_queue s) = last_used_idx (m_queue s);
  br_up : driver_up (b_hdr (m_bus s));
}.

(** Polling goes on until the device has answered. *)
Lemma wait_used_run {T} `{!BlkDevice T} n : ∀ (s : machine T) fuel,
  (∀ k, (k < n)%nat → can_pop (m_queue (Nat.iter k dev_step s)) = false) →
  can_pop (m_queue (Nat.iter n dev_step s)) = true → (n ≤ fuel)%nat →
  wait_used fuel s = Ok ((), Nat.iter n dev_step s).
Proof.
  induction n as [|n IH]; intros s fuel Hlow Hn Hf.
  { destruct fuel; cbn [wait_used]; rewrite (M_bind_run _ _ _ true s); try done; unfold gets; cbn in Hn; by rewrite Hn. }
  destruct fuel as [|fuel]; [lia|]. cbn [wait_used].
  rewrite (M_bind_run _ _ _ false s). 2: { unfold gets. specialize (Hlow 0%nat ltac:(lia)). cbn in Hlow. by rewrite Hlow. }
  rewrite (M_bind_run _ _ _ () (dev_step s)) by done. rewrite Nat.iter_succ_r in Hn |- *.
  apply IH; [|done|lia]. intros k Hk. rewrite <- Nat.iter_succ_r. apply Hlow. lia.
Qed.

Section driver.
Context {T : Type} `{!BlkDevice T, !BlkDeviceLaws T} (virt_to_phys : Z → Z).

Lemma in_queue_run {A} (f : M VirtQueue A) (s : machine T) a q :
  f (m_queue s) = Ok (a, q) → in_queue f s = Ok (a, mkMachine (m_bus s) q (m_capacity s) (m_dev s)).
Proof. unfold in_queue. by intros ->. Qed.

(** The chain [add] builds is the one the device finds, and after the answer
    [pop_used] takes it back. *)
Lemma offer_run (s : machine T) ins outs :
  blk_ready s → (length ins + length outs = 3)%nat →
  ∃ q h c free, add virt_to_phys ins outs (m_queue s) = Ok (inr h, q) ∧
    offered q h (bufs_of virt_to_phys false ins ++ bufs_of virt_to_phys true outs) ∧ can_pop q = false ∧
    qinv q free [(c, bufs_of virt_to_phys false ins ++ bufs_of virt_to_phys true outs)] [] ∧ head c = Some h ∧
    queue_size q = queue_size (m_queue s) ∧ avail_idx q = wrap 16 (last_used_idx q + 1).
Proof using Type.
  intros [[free Hq] Hsz Hix Hup] Hlen. destruct (free_count _ _ _ _ Hq) as [Hnum _].
  pose proof (qi_num _ _ _ _ Hq) as Hn0. cbn in Hn0. pose proof (qi_used _ _ _ _ Hq) as Hu. cbn in Hu. rewrite Z.add_0_r in Hu.
  rewrite wrap_small in Hu by apply Hq.
  destruct (add_spec virt_to_phys (m_queue s) free [] [] ins outs Hq) as (q & Hrun & Hq' & Hhd & Hai & Hring & Hus & Hqs & Hlu); [lia|].
  pose proof (qi_wait _ _ _ _ Hq') as Hw. apply list.Forall_cons in Hw as [Hc _]. cbn [fst snd] in Hc.
  exists q, (free_head (m_queue s)), (take (length ins + length outs) free), (drop (length ins + length outs) free).
  split_and!; try done.
  - split.
    + by rewrite Hai, Hus, Hu, Hix.
    + by rewrite Hus, Hu, Hqs, <- Hix.
    + eapply walk_chain; [exact Hc|exact Hhd|]. rewrite length_take. pose proof (qi_desc _ _ _ _ Hq'). lia.
  - unfold can_pop. rewrite Hus, Hu, Hlu, Z.eqb_refl. done.
  - destruct (qi_avail _ _ _ _ Hq') as [_ <-]. by rewrite Hai, Hlu, Hix.
Qed.

Lemma answered_run q c bs free h len :
  qinv q free [(c, bs)] [] → head c = Some h → avail_idx q = wrap 16 (last_used_idx q + 1) →
  can_pop (answer h len q) = true ∧
  ∃ r q' free', pop_used (answer h len q) = Ok (inr r, q') ∧ qinv q' free' [] [] ∧ queue_size q' = queue_size q ∧
    avail_idx q' = last_used_idx q'.
Proof using Type.
  intros Hq Hh Hai. pose proof (answer_inv q free [] c bs [] [] h len Hq Hh) as Ha. cbn [app] in Ha.
  destruct (pop_used_spec _ _ _ _ _ _ Ha) as (h' & len' & q' & Hrun & _ & _ & Hq' & Hs & Hai' & Hlu).
  split.
  - destruct (can_pop (answer h len q)) eqn:E; [done|]. exfalso. unfold pop_used in Hrun.
    rewrite (M_bind_run _ _ _ false (answer h len q)) in Hrun by (unfold gets; by rewrite E). done.
  - exists (h', len'), q', (c ++ free). split_and!; try done. rewrite Hai', Hlu. done.
Qed.

(** ** One exchange *)
Definition result (o : option (list Z)) : Error + () := match o with Some _ => inr () | None => inl IoError end.

(** The status byte the device leaves is the driver's result. *)
Lemma transferred_status ty sec da sa m d m' d' : ty = In ∨ ty = Out → transferred ty sec da sa m d m' d' →
  ∃ st, byte_at m' sa = Some st ∧
    match RespStatus_of st with Some RespOk => Some (inr ()) | Some _ => Some (inl IoError) | None => None end = Some (result (d sec)).
Proof using Type.
  assert (∀ a b st, stored a sa [st] b → byte_at b sa = Some st) as Hst.
  { intros a b st Hs. apply bytes_at_stored in Hs. rewrite <- (Z.add_0_r sa). by apply (Hs 0%nat). }
  assert (∀ st, st ∈ [1; 2] → match RespStatus_of st with Some RespOk => Some (inr ()) | Some _ => Some (inl IoError) | None => None end = Some (inl IoError : Error + ())) as Herr.
  { intros st. rewrite !elem_of_cons. intros [->|[->|[]%elem_of_nil]]; done. }
  unfold transferred. intros [-> | ->] H; destruct (d sec) as [data|]; cbn [result].
  - destruct H as (m1 & _ & Hs & _). eauto.
  - destruct H as (junk & m1 & st & _ & _ & Hs & Hin & _). eauto.
  - destruct H as (bs & _ & _ & Hs & _). eauto.
  - destruct H as (st & Hs & Hin & _). eauto.
Qed.

Lemma exchange_run (s : machine T) ins outs resp ty sec ha da sa :
  blk_ready s → (length ins + length outs = 3)%nat →
  bufs_of virt_to_phys false ins ++ bufs_of virt_to_phys true outs = request_bufs ty ha da sa →
  request (b_mem (m_bus s)) ty sec ha da sa → virt_to_phys resp = sa →
  ∃ N s', (∀ fuel, (N ≤ fuel)%nat → exchange virt_to_phys fuel ins outs resp s = Ok (result (sector (m_dev s) sec), s')) ∧
    blk_ready s' ∧ queue_frames (m_bus s') = queue_frames (m_bus s) ∧ m_capacity s' = m_capacity s ∧
    transferred ty sec da sa (b_mem (m_bus s)) (sector (m_dev s)) (b_mem (m_bus s')) (sector (m_dev s')).
Proof using All.
  intros Hr Hlen Hbufs Hrq Hresp.
  destruct (offer_run s ins outs Hr Hlen) as (q & h & c & free & Hadd & Hoff & Hcp & Hq & Hh & Hqs & Hai). rewrite Hbufs in Hoff, Hq.
  set (s1 := mkMachine (mkBus (b_mem (m_bus s)) (queue_frames (m_bus s)) (add_writes [(queue_notify, 0)] (b_hdr (m_bus s)))) q (m_capacity s) (m_dev s)).
  assert (driver_up (b_hdr (m_bus s1))) as Hup1 by (destruct Hr as [_ _ _ [H1 H2]]; split; [exact H1|exact H2]).
  destruct (dev_serves s1 h ty sec ha da sa (conj Hup1 eq_refl) Hoff Hrq) as (n & len & Hlow & Hans & (Hhdr & Hfr & Hcap) & Htr).
  set (s2 := Nat.iter n dev_step s1) in *. cbn [s1 m_queue] in Hlow, Hans.
  destruct (answered_run q c _ free h len Hq Hh Hai) as (Hpop & r & q' & free' & Hrun & Hq' & Hqs' & Hix').
  set (s3 := mkMachine (m_bus s2) q' (m_capacity s2) (m_dev s2)).
  destruct (transferred_status _ _ _ _ _ _ _ _ (rq_type _ _ _ _ _ _ Hrq) Htr) as (st & Hst & Hres).
  exists n, s3. split_and!; try done.
  - intros fuel Hf. unfold exchange. run (in_queue_run _ s _ _ Hadd). cbv beta iota.
    rewrite (M_bind_run _ _ _ () s1) by done.
    assert (wait_used fuel s1 = Ok ((), s2)) as Hw.
    { apply wait_used_run; [|by rewrite <- Hans in Hpop|done]. intros k Hk. by rewrite Hlow. }
    run Hw. rewrite <- Hans in Hrun. run (in_queue_run _ s2 _ _ Hrun). cbv beta iota.
    assert (load_var virt_to_phys resp 1 s3 = Ok ([st], s3)) as Hl.
    { unfold load_var, in_bus, in_bmem. cbn [load_virt s3 m_bus]. rewrite (M_bind_run _ _ _ st (b_mem (m_bus s2))).
      - cbn. by destruct s2 as [[]].
      - apply load_byte_run. by rewrite Hresp. }
    run Hl. cbn [head mbind option_bind]. by destruct (RespStatus_of st) as [[]|]; try discriminate Hres; injection Hres as <-.
  - split; cbn [s3 m_queue m_bus]; [by exists free'| |done|by rewrite Hhdr]. rewrite Hqs', Hqs. apply Hr.
Qed.

(** ** The buffers of a request

    The device gets the physical address of the first byte of a buffer, so the
    pages under a buffer must be consecutive. *)
Definition contig (va n : Z) : Prop := ∀ i, 0 ≤ i < n → virt_to_phys (va + i) = virt_to_phys va + i.

Record io_buffers (m : mem) (req buf resp : Z) : Prop := {
  ib_req : contig req 16;
  ib_buf : contig buf 512;
  ib_backed : backed m (virt_to_phys req) 16 ∧ backed m (virt_to_phys buf) 512 ∧ backed m (virt_to_phys resp) 1;
  ib_req_buf : apart (virt_to_phys req) 16 (virt_to_phys buf) 512;
  ib_req_resp : apart (virt_to_phys req) 16 (virt_to_phys resp) 1;
  ib_buf_resp : apart (virt_to_phys buf) 512 (virt_to_phys resp) 1;
}.

(** A byte of memory that is none of the request's. *)
Definition elsewhere (req buf resp x : Z) : Prop :=
  apart (virt_to_phys req) 16 x 1 ∧ apart (virt_to_phys buf) 512 x 1 ∧ x ≠ virt_to_phys resp.

Lemma contig_next va n : contig va n → 1 < n → contig (va + 1) (n - 1).
Proof using Type.
  intros Hc Hn i Hi. rewrite <- Z.add_assoc, (Hc (1 + i)), (Hc 1) by lia. lia.
Qed.

Lemma store_virt_eq l : ∀ va m, contig va (Z.of_nat (length l)) → store_virt virt_to_phys va l m = store_bytes (virt_to_phys va) l m.
Proof using Type.
  induction l as [|v l IH]; intros va m Hc; [done|]. cbn [store_virt store_bytes].
  unfold mbind, M_bind. destruct (store_byte (virt_to_phys va) v m) as [[[] m1]|]; [|done].
  destruct l as [|w l]; [done|]. cbn [length] in Hc. rewrite IH.
  - rewrite (Hc 1); [done|lia].
  - cbn [length]. replace (Z.of_nat (S (length l))) with (Z.of_nat (S (S (length l))) - 1) by lia. apply contig_next; [done|lia].
Qed.

Lemma load_virt_eq n : ∀ va m, contig va (Z.of_nat n) → load_virt virt_to_phys va n m = load_bytes (virt_to_phys va) n m.
Proof using Type.
  induction n as [|n IH]; intros va m Hc; [done|]. cbn [load_virt load_bytes].
  unfold mbind, M_bind. destruct (load_byte (virt_to_phys va) m) as [[v m1]|]; [|done].
  destruct n as [|n]; [done|]. rewrite IH.
  - rewrite (Hc 1); [done|lia].
  - replace (Z.of_nat (S n)) with (Z.of_nat (S (S n)) - 1) by lia. apply contig_next; [done|lia].
Qed.

Definition set_bmem (m : mem) (s : machine T) : machine T :=
  mkMachine (mkBus m (queue_frames (m_bus s)) (b_hdr (m_bus s))) (m_queue s) (m_capacity s) (m_dev s).

Lemma store_var_run s va l :
  contig va (Z.of_nat (length l)) → backed (b_mem (m_bus s)) (virt_to_phys va) (length l) →
  ∃ m, store_var virt_to_phys va l s = Ok ((), set_bmem m s) ∧ stored (b_mem (m_bus s)) (virt_to_phys va) l m.
Proof using Type.
  intros Hc Hb. destruct (store_bytes_run l _ _ Hb) as (m & Hrun & Hst). exists m. split; [|done].
  unfold store_var, in_bus, in_bmem. rewrite store_virt_eq by done. by rewrite Hrun.
Qed.

Lemma ready_bmem m s : blk_ready s → blk_ready (set_bmem m s).
Proof using Type. by intros [H1 H2 H3 H4]; split. Qed.

(** The header and the status are in place before the chain is offered. *)
Lemma prepare_run s req buf resp ty sec :
  io_buffers (b_mem (m_bus s)) req buf resp → ty = In ∨ ty = Out → in_u 64 sec →
  ∃ m, (∀ A (k : () → M (machine T) A), (store_var virt_to_phys req (BlkReq_bytes (mkReq ty 0 sec)) ≫= λ _,
      store_var virt_to_phys resp (BlkResp_bytes BlkResp_default) ≫= k) s = k () (set_bmem m s)) ∧
    request m ty sec (virt_to_phys req) (virt_to_phys buf) (virt_to_phys resp) ∧
    falloc m = falloc (b_mem (m_bus s)) ∧ io_buffers m req buf resp ∧
    ∀ x, apart (virt_to_phys req) 16 x 1 → x ≠ virt_to_phys resp → byte_at m x = byte_at (b_mem (m_bus s)) x.
Proof using Type.
  intros [Hc1 Hc2 (Hb1 & Hb2 & Hb3) A1 A2 A3] Hty Hsec.
  assert (length (BlkReq_bytes (mkReq ty 0 sec)) = 16%nat) as Hl by done.
  destruct (store_var_run s req (BlkReq_bytes (mkReq ty 0 sec))) as (m1 & Hr1 & Hs1); [by rewrite Hl|by rewrite Hl|].
  destruct (store_var_run (set_bmem m1 s) resp (BlkResp_bytes BlkResp_default)) as (m2 & Hr2 & Hs2); cbn [set_bmem m_bus b_mem].
  { intros i Hi. cbn in Hi. replace i with 0 by lia. by rewrite !Z.add_0_r. }
  { by eapply backed_stored. }
  cbn [set_bmem m_bus b_mem] in Hs2.
  assert (∀ a k, backed (b_mem (m_bus s)) a k → backed m2 a k) as Hbk by (intros a k Hb; by do 2 (eapply backed_stored; [done|])).
  exists m2. split_and!.
  - intros A k. run Hr1. run Hr2. done.
  - split; [done..| |by apply Hbk|by apply Hbk|done].
    eapply bytes_at_frame; [exact Hs2| |by apply bytes_at_stored in Hs1]. rewrite Hl. unfold apart in *. cbn. lia.
  - destruct Hs1 as [H1 _], Hs2 as [H2 _]. congruence.
  - split; try done. split_and!; by apply Hbk.
  - intros x Hx Hne. destruct Hs1 as [_ H1], Hs2 as [_ H2]. rewrite H2, H1, Hl. unfold apart in Hx.
    rewrite !decide_False; [done|lia|cbn; lia].
Qed.

(** A transfer stores to the status byte and, when it reads, to the buffer. *)
Lemma transferred_frame ty sec da sa m d m' d' : (∀ b, d sec = Some b → length b = 512%nat) → transferred ty sec da sa m d m' d' →
  falloc m' = falloc m ∧ (∀ a k, backed m a k → backed m' a k) ∧
  ∀ x, (ty = In → apart da 512 x 1) → x ≠ sa → byte_at m' x = byte_at m x.
Proof using Type.
  intros Hlen H.
  assert (∀ a b st, stored a sa [st] b → falloc b = falloc a ∧ (∀ p k, backed a p k → backed b p k) ∧ ∀ x, x ≠ sa → byte_at b x = byte_at a x) as Hst.
  { intros a b st Hs. split_and!; [apply Hs|intros p k; by apply (backed_stored a sa [st])|]. intros x Hx. destruct Hs as [_ ->]. rewrite decide_False; [done|]. cbn. lia. }
  assert (∀ a data b, length data = 512%nat → stored a da data b → falloc b = falloc a ∧ (∀ p k, backed a p k → backed b p k) ∧ ∀ x, apart da 512 x 1 → byte_at b x = byte_at a x) as Hda.
  { intros a data b Hl Hs. split_and!; [apply Hs|intros p k; by apply (backed_stored a da data)|]. intros x Hx. destruct Hs as [_ ->]. rewrite Hl, decide_False; [done|]. unfold apart in Hx. lia. }
  assert (∀ m1 data st, length data = 512%nat → stored m da data m1 → stored m1 sa [st] m' → ty = In →
    falloc m' = falloc m ∧ (∀ a k, backed m a k → backed m' a k) ∧ ∀ x, (ty = In → apart da 512 x 1) → x ≠ sa → byte_at m' x = byte_at m x) as Hboth.
  { intros m1 data st Hl H1 H2 Hty. destruct (Hda _ _ _ Hl H1) as (F1 & B1 & E1), (Hst _ _ _ H2) as (F2 & B2 & E2).
    split_and!; [congruence|auto|]. intros x Hx Hne. rewrite E2, E1; auto. }
  unfold transferred in H. destruct ty, (d sec) as [data|] eqn:Hd.
  1: { destruct H as (m1 & H1 & H2 & _). exact (Hboth m1 data 0 (Hlen _ eq_refl) H1 H2 eq_refl). }
  1: { destruct H as (junk & m1 & st & Hl & H1 & H2 & _). exact (Hboth m1 junk st Hl H1 H2 eq_refl). }
  all: first [destruct H as (bs & _ & _ & Hs & _)|destruct H as (st & Hs & _)]; apply Hst in Hs as (F & B & E); eauto.
Qed.

Lemma io_buffers_mono m m' req buf resp : (∀ a k, backed m a k → backed m' a k) → io_buffers m req buf resp → io_buffers m' req buf resp.
Proof using Type. intros Hb [? ? (?&?&?) ? ? ?]. split; try done. split_and!; by apply Hb. Qed.

Section request.
Context (s : machine T) (req buf resp id : Z).
Context (Hr : blk_ready s) (Hio : io_buffers (b_mem (m_bus s)) req buf resp) (Hid : in_u 64 id).

(** What every request leaves as it was. *)
Record request_done (s' : machine T) : Prop := {
  rd_ready : blk_ready s';
  rd_bufs : io_buffers (b_mem (m_bus s')) req buf resp;
  rd_alloc : falloc (b_mem (m_bus s')) = falloc (b_mem (m_bus s));
  rd_frames : queue_frames (m_bus s') = queue_frames (m_bus s) ∧ m_capacity s' = m_capacity s;
  rd_frame x : elsewhere req buf resp x → byte_at (b_mem (m_bus s')) x = byte_at (b_mem (m_bus s)) x;
}.

Lemma request_run ty ins outs :
  ty = In ∨ ty = Out → (length ins + length outs = 3)%nat →
  bufs_of virt_to_phys false ins ++ bufs_of virt_to_phys true outs =
    request_bufs ty (virt_to_phys req) (virt_to_phys buf) (virt_to_phys resp) →
  ∃ N s' m, (∀ fuel, (N ≤ fuel)%nat → (assertM (512 =? BLK_SIZE) ≫= λ _,
      store_var virt_to_phys req (BlkReq_bytes (mkReq ty 0 id)) ≫= λ _,
      store_var virt_to_phys resp (BlkResp_bytes BlkResp_default) ≫= λ _,
      exchange virt_to_phys fuel ins outs resp) s = Ok (result (sector (m_dev s) id), s')) ∧
    request_done s' ∧
    (∀ x, apart (virt_to_phys req) 16 x 1 → x ≠ virt_to_phys resp → byte_at m x = byte_at (b_mem (m_bus s)) x) ∧
    transferred ty id (virt_to_phys buf) (virt_to_phys resp) m (sector (m_dev s)) (b_mem (m_bus s')) (sector (m_dev s')).
Proof using All.
  intros Hty Hlen Hbufs. destruct (prepare_run s req buf resp ty id Hio Hty Hid) as (m & Hprep & Hrq & Hfa & Hio1 & Hsame).
  destruct (exchange_run (set_bmem m s) ins outs resp ty id _ _ _ (ready_bmem m s Hr) Hlen Hbufs Hrq eq_refl)
    as (N & s' & Hrun & Hr' & Hfr & Hcap & Htr). cbn [set_bmem m_bus b_mem m_dev m_capacity queue_frames] in *.
  destruct (transferred_frame _ _ _ _ _ _ _ _ (λ b, sector_length _ _ b) Htr) as (Hfa' & Hbk & Hfrm).
  exists N, s', m. split_and!; try done.
  - intros fuel Hf. rewrite M_assert_bind by done. rewrite Hprep. by apply Hrun.
  - split; [done|by eapply io_buffers_mono|congruence|done|]. intros x (E1 & E2 & E3). rewrite Hfrm by done. by apply Hsame.
Qed.

Lemma read_block_spec :
  ∃ N s', (∀ fuel, (N ≤ fuel)%nat → read_block virt_to_phys fuel req resp id (buf, 512) s = Ok (result (sector (m_dev s) id), s')) ∧
    request_done s' ∧ (∀ x, sector (m_dev s') x = sector (m_dev s) x) ∧
    ∀ data, sector (m_dev s) id = Some data → bytes_at (b_mem (m_bus s')) (virt_to_phys buf) data.
Proof using All.
  destruct (request_run In [(req, 16)] [(buf, 512); (resp, 1)]) as (N & s' & m & Hrun & Hdone & _ & Htr); [by left|done|done|].
  exists N, s'. unfold transferred in Htr. destruct (sector (m_dev s) id) as [data|] eqn:Hd.
  - destruct Htr as (m1 & H1 & H2 & Hsec). split_and!; try done. intros ? [= <-].
    eapply bytes_at_frame; [exact H2| |by eapply bytes_at_stored].
    rewrite (sector_length _ _ _ Hd). pose proof (ib_buf_resp _ _ _ _ Hio) as Ha. unfold apart in *. cbn. lia.
  - destruct Htr as (junk & m1 & st & _ & _ & _ & _ & Hsec). by split_and!.
Qed.

Lemma write_block_spec data :
  bytes_at (b_mem (m_bus s)) (virt_to_phys buf) data → length data = 512%nat →
  ∃ N s', (∀ fuel, (N ≤ fuel)%nat → write_block virt_to_phys fuel req resp id (buf, 512) s = Ok (result (sector (m_dev s) id), s')) ∧
    request_done s' ∧ bytes_at (b_mem (m_bus s')) (virt_to_phys buf) data ∧
    ∀ x, sector (m_dev s') x = if decide (x = id ∧ is_Some (sector (m_dev s) id)) then Some data else sector (m_dev s) x.
Proof using All.
  intros Hdata Hl. pose proof (ib_buf_resp _ _ _ _ Hio) as Ha. pose proof (ib_req_buf _ _ _ _ Hio) as Hb.
  destruct (request_run Out [(req, 16); (buf, 512)] [(resp, 1)]) as (N & s' & m & Hrun & Hdone & Hsame & Htr); [by right|done|done|].
  assert (bytes_at m (virt_to_phys buf) data) as Hm.
  { intros i v Hi. pose proof (lookup_lt_Some _ _ _ Hi). unfold apart in *. rewrite Hsame; [by apply Hdata|unfold apart; lia|lia]. }
  assert (∀ st m', stored m (virt_to_phys resp) [st] m' → bytes_at m' (virt_to_phys buf) data) as Hkeep.
  { intros st m' Hs. eapply bytes_at_frame; [exact Hs| |done]. rewrite Hl. unfold apart in *. cbn. lia. }
  exists N, s'. unfold transferred in Htr. destruct (sector (m_dev s) id) as [old|] eqn:Hd.
  - destruct Htr as (bs & Hlb & Hbs & Hs & Hsec). rewrite (bytes_at_fun _ _ _ _ Hbs Hm) in Hsec by lia.
    split_and!; [done|done|by eapply Hkeep|]. intros x. rewrite Hsec. repeat case_decide; naive_solver.
  - destruct Htr as (st & Hs & _ & Hsec). split_and!; [done|done|by eapply Hkeep|]. intros x. rewrite Hsec.
    rewrite decide_False; [done|]. by intros [_ [? ?]].
Qed.
End request.
End driver.

(** ** Start *)
Definition init_writes : list (reg * Z) :=
  [(guest_page_size, 4096); (status, 8); (driver_features, 0); (driver_features_sel, 1); (driver_features, 0);
   (driver_features_sel, 0); (device_features_sel, 1); (device_features_sel, 0); (status, 2); (status, 1)].

(** A driver that negotiates no feature. *)
Lemma begin_init_none negotiate h : in_u 64 (device_features h) → negotiate (device_features h) = 0 →
  begin_init negotiate h = Ok ((), add_writes init_writes h).
Proof.
  intros Hf Hn. unfold begin_init.
  rewrite (M_bind_run _ _ _ () (add_writes [(status, 1)] h)) by done.
  rewrite (M_bind_run _ _ _ () (add_writes [(status, 2); (status, 1)] h)) by done.
  run (read_device_features_run (add_writes [(status, 2); (status, 1)] h) Hf). cbn [add_writes device_features]. rewrite Hn. done.
Qed.

Lemma begin_init_run h : in_u 64 (device_features h) →
  begin_init (λ f, Z.land (BlkFeature_from_bits_truncate f) BlkFeature_empty) h = Ok ((), add_writes init_writes h).
Proof. intros Hf. apply begin_init_none; [done|]. apply Z.land_0_r. Qed.

Lemma VirtIOBlk_new_run capacity b lo U :
  in_u 64 (device_features (b_hdr b)) → mem_ok (b_mem b) lo U → recycled (falloc (b_mem b)) = [] →
  let c := FrameAllocator.current (falloc (b_mem b)) in
  0 < c → c + 2 ≤ end_ (falloc (b_mem b)) → end_ (falloc (b_mem b)) ≤ 2 ^ 20 →
  pfn_of 0 (written (b_hdr b)) = 0 → 16 ≤ queue_num_max (b_hdr b) 0 →
  ∃ m' q, let h' := add_writes ((status, 4) :: queue_writes 0 16 c ++ init_writes) (b_hdr b) in
    let b' := mkBus m' (queue_frames b ++ [c; c + 1]) h' in
    VirtIOBlk_new capacity b = Ok (inr (mkDMA (4096 * c) 2, q, capacity), b') ∧
    mem_ok m' lo ({[c; c + 1]} ∪ U) ∧ falloc m' = mkSFA (c + 2) (end_ (falloc (b_mem b))) [] ∧
    (∀ x, x ≠ c → x ≠ c + 1 → ram m' !! x = ram (b_mem b) !! x) ∧ ∀ T (dev : T), blk_ready (mkMachine b' q capacity dev).
Proof.
  intros Hf Hok Hr c Hc Hend Hlim Hp Hm. set (b1 := mkBus (b_mem b) (queue_frames b) (add_writes init_writes (b_hdr b))).
  destruct (VirtQueue_new_spec 0 4 b1 lo U ltac:(lia) ltac:(done) Hp Hm Hok Hr Hc Hend Hlim)
    as (m' & q & Hrun & Hok' & Hfa & Hram & Hq & Hqs & Hlu & Hai).
  cbn [b1 b_mem] in Hrun, Hok', Hram, Hfa. fold b1 in Hrun. fold c in Hrun, Hok', Hram, Hfa.
  exists m', q. cbv zeta. split_and!; try done.
  - unfold VirtIOBlk_new. rewrite (M_bind_run _ _ _ () b1) by (unfold in_hdr; by rewrite begin_init_run).
    change (2 ^ 4) with 16 in Hrun. run Hrun. done.
  - intros T dev. split; cbn [m_queue m_bus b_hdr]; [by exists (seqZ 0 (2 ^ 4))|by rewrite Hqs|by rewrite Hai, Hlu|].
    split; [done|]. change (c ≠ 0). lia.
Qed.
