(* ===== verification/VirtIODisk.v ===== *)
(** * VirtIODisk: a block device that follows the specification

    A disk in memory that answers one request in one step: the laws of
    [BlkDeviceLaws] can be met, by a device that can be run. *)

From stdpp Require Import base gmap list numbers.
From S2P Require Import Prelude Bytes Address FrameAllocator PageTable OsFile PhysBytes.
From S2P Require Import VirtIOHeader VirtQueue VirtQueueInv VirtIODma VirtIOBlk VirtIOBlkInv.

Notation sectors := (gmap Z (list Z)).

Definition disk_sector (d : sectors) (id : Z) : option (list Z) :=
  match d !! id with Some b => if decide (length b = 512%nat) then Some b else None | None => None end.

(** The request behind the three buffers. *)
Definition serve (d : sectors) (ha da sa : Z) : M mem sectors :=
  load_bytes ha 16 ≫= λ b,
  let ty := le_val (slice 0 4 b) in
  let sec := le_val (slice 8 8 b) in
  match disk_sector d sec with
  | None => store_bytes sa [1] ≫= λ _, mret d
  | Some data =>
      if ty =? 0 then store_bytes da data ≫= λ _, store_bytes sa [0] ≫= λ _, mret d
      else load_bytes da 512 ≫= λ data, store_bytes sa [0] ≫= λ _, mret (<[sec := data]> d)
  end.

Definition disk_step (s : machine sectors) : machine sectors :=
  let q := m_queue s in
  let i := used_idx_reg (used q) in
  if avail_idx_reg (avail q) =? wrap 16 (i + 1) then
    match avail_ring (avail q) !! Z.to_nat (i mod queue_size q) ≫= λ h, pair h <$> walk (length (desc q)) (desc q) h with
    | Some (h, [(ha, _, _); (da, _, _); (sa, _, _)]) =>
        match serve (m_dev s) ha da sa (b_mem (m_bus s)) with
        | Ok (d, m) => mkMachine (mkBus m (queue_frames (m_bus s)) (b_hdr (m_bus s))) (answer h 0 q) (m_capacity s) d
        | Stop _ => s
        end
    | _ => s
    end
  else s.

#[export] Instance disk_device : BlkDevice sectors := { sector := disk_sector; dev_step := disk_step }.

Lemma disk_sector_length d id b : disk_sector d id = Some b → length b = 512%nat.
Proof. unfold disk_sector. destruct (d !! id) as [c|]; [|done]. case_decide; [|done]. by intros [= <-]. Qed.

Lemma stored_self m pa bs : bytes_at m pa bs → stored m pa bs m.
Proof.
  intros Hb. split; [done|]. intros x. case_decide; [|done].
  destruct (lookup_lt_is_Some_2 bs (Z.to_nat (x - pa))) as [v Hv]; [lia|]. rewrite Hv, <- (Hb _ _ Hv). f_equal. lia.
Qed.

Lemma request_fields ty sec : ty = In ∨ ty = Out → in_u 64 sec → let b := BlkReq_bytes (mkReq ty 0 sec) in
  le_val (slice 0 4 b) = ReqType_repr ty ∧ le_val (slice 8 8 b) = sec.
Proof.
  intros Hty Hsec b. split.
  - by destruct Hty as [-> | ->].
  - change (slice 8 8 b) with (le_bytes 8 sec). by apply le_val_bytes_id.
Qed.

Lemma serve_run d m ty sec ha da sa : request m ty sec ha da sa →
  ∃ d' m', serve d ha da sa m = Ok (d', m') ∧ transferred ty sec da sa m (disk_sector d) m' (disk_sector d').
Proof.
  intros [Hty Hsec Hh Hd Hs Ha]. destruct (request_fields ty sec Hty Hsec) as [Ht Hse].
  unfold serve. run (load_bytes_run m _ _ Hh : load_bytes ha 16 m = _). rewrite Ht, Hse. unfold transferred.
  destruct (store_bytes_run [1] m sa Hs) as (me & Hre & Hse1).
  destruct (backed_bytes m 512 da Hd) as (old & Hlo & Hold).
  destruct (disk_sector d sec) as [data|] eqn:Hds.
  - pose proof (disk_sector_length _ _ _ Hds) as Hlen. destruct Hty as [-> | ->]; cbn [ReqType_repr Z.eqb].
    + destruct (store_bytes_run data m da) as (m1 & Hr1 & Hs1); [by rewrite Hlen|].
      destruct (store_bytes_run [0] m1 sa) as (m2 & Hr2 & Hs2); [by eapply backed_stored|].
      exists d, m2. run Hr1. run Hr2. eauto.
    + destruct (store_bytes_run [0] m sa Hs) as (m2 & Hr2 & Hs2).
      exists (<[sec := old]> d), m2. split.
      * pose proof (load_bytes_run m _ _ Hold) as Hl. rewrite Hlo in Hl. run Hl. by run Hr2.
      * exists old. split_and!; try done. intros x. unfold disk_sector. case_decide as E; [subst x|].
        -- rewrite lookup_insert_eq. by rewrite decide_True.
        -- by rewrite lookup_insert_ne.
  - exists d, me. run Hre. split; [done|]. assert (1 ∈ [1; 2]) as Hin by (apply elem_of_cons; by left). destruct Hty as [-> | ->].
    + exists old, m, 1. split_and!; try done. by apply stored_self.
    + exists 1. by split_and!.
Qed.

#[export] Instance disk_laws : BlkDeviceLaws sectors.
Proof.
  split; [apply disk_sector_length|]. intros s h ty sec ha da sa Hrung [Hi Hr Hc] Hrq.
  destruct (serve_run (m_dev s) _ _ _ _ _ _ Hrq) as (d' & m' & Hrun & Htr).
  exists 1%nat, 0. assert (Nat.iter 1 dev_step s = mkMachine (mkBus m' (queue_frames (m_bus s)) (b_hdr (m_bus s))) (answer h 0 (m_queue s)) (m_capacity s) d') as E.
  { cbn [Nat.iter nat_rect dev_step disk_device]. unfold disk_step. rewrite Hi, Z.eqb_refl, Hr. cbn [mbind option_bind].
    rewrite Hc. cbn [fmap option_fmap option_map request_bufs]. by rewrite Hrun. }
  cbv zeta. rewrite E. split_and!; try done. intros k Hk. by replace k with 0%nat by lia.
Qed.
