(* ===== verification/VirtIOInput.v ===== *)
(** * VirtIOInput: the driver of keyboards, mice and tablets
    (dependency/virtio-drivers/src/input.rs)

    The driver offers all its event buffers to the device.  The device fills one
    when something happens; the driver takes it back, offers it again and returns
    the event.

    The address of the boxed array of events is an argument, as is the
    configuration the device shows for a selection.  [meanwhile] is what the
    device does between two steps of the driver. *)

From stdpp Require Import base gmap list numbers.
From S2P Require Import Prelude Bytes Address FrameAllocator PageTable OsFile PhysBytes.
From S2P Require Import VirtIOHeader VirtQueue VirtIODma VirtIOBlk.

(** ** Events *)
Record InputEvent : Type := mkEvent { event_type : Z; code : Z; value : Z }.

#[export] Instance InputEvent_eq_dec : EqDecision InputEvent.
Proof. solve_decision. Defined.

(** [as_buf]: the fields in memory, and the size of the structure. *)
Definition InputEvent_bytes (e : InputEvent) : list Z :=
  le_bytes 2 (event_type e) ++ le_bytes 2 (code e) ++ le_bytes 4 (value e).
Definition InputEvent_of (b : list Z) : InputEvent :=
  mkEvent (le_val (slice 0 2 b)) (le_val (slice 2 2 b)) (le_val (slice 4 4 b)).
Definition EVENT_LEN : nat := 8.
Definition InputEvent_default : InputEvent := mkEvent 0 0 0.

Definition INPUT_QUEUE_SIZE : Z := 32.

(** [Feature]: the bits that have a name. *)
Definition InputFeature_from_bits_truncate (f : Z) : Z :=
  Z.land f (foldr (λ i a, Z.lor (Z.shiftl 1 i) a) 0 [24; 27; 28; 29; 30; 32; 33; 34; 35; 36; 37; 38]).

(** [VirtIOInput] with the memory and the registers it works on. *)
Record VirtIOInput : Type := mkInput {
  i_bus : bus;
  event_dma : DMA;
  event_queue : VirtQueue;
  status_dma : DMA;
  status_queue : VirtQueue;
}.

Definition set_event_queue (q : VirtQueue) (s : VirtIOInput) : VirtIOInput :=
  mkInput (i_bus s) (event_dma s) q (status_dma s) (status_queue s).
Definition set_ibus (b : bus) (s : VirtIOInput) : VirtIOInput :=
  mkInput b (event_dma s) (event_queue s) (status_dma s) (status_queue s).

Definition in_ibus {A} (f : M bus A) : M VirtIOInput A := λ s,
  match f (i_bus s) with Ok (a, b) => Ok (a, set_ibus b s) | Stop e => Stop e end.
Definition in_events {A} (f : M VirtQueue A) : M VirtIOInput A := λ s,
  match f (event_queue s) with Ok (a, q) => Ok (a, set_event_queue q s) | Stop e => Stop e end.

Section input.
Context (virt_to_phys : Z → Z) (event_buf : Z).

(** [event_buf[i].as_buf_mut()]. *)
Definition event_addr (i : Z) : Z := event_buf + 8 * i.
Definition event_slice (i : Z) : Z * Z := (event_addr i, 8).

(** The loop of [new] over the events. *)
Fixpoint offer_events (n : nat) (i : Z) : M VirtQueue (Error + ()) :=
  match n with
  | O => mret (inr ())
  | S n =>
      add virt_to_phys [] [event_slice i] ≫= λ r,
      match r with
      | inl e => mret (inl e)
      | inr token => assertM (token =? wrap 16 i) ≫= λ _, offer_events n (i + 1)
      end
  end.

(** [QUEUE_EVENT] is 0, [QUEUE_STATUS] is 1.  A failure drops the queues made so
    far, the last one first. *)
Definition VirtIOInput_new : M bus (Error + DMA * VirtQueue * (DMA * VirtQueue)) :=
  in_bmem (store_virt virt_to_phys event_buf
    (concat (replicate (Z.to_nat INPUT_QUEUE_SIZE) (InputEvent_bytes InputEvent_default)))) ≫= λ _,
  in_hdr (begin_init (λ features, Z.land (InputFeature_from_bits_truncate features) 0)) ≫= λ _,
  VirtQueue_new 0 INPUT_QUEUE_SIZE ≫= λ r,
  match r with
  | inl e => mret (inl e)
  | inr (edma, eq) =>
      VirtQueue_new 1 INPUT_QUEUE_SIZE ≫= λ r,
      match r with
      | inl e => DMA_drop edma ≫= λ _, mret (inl e)
      | inr (sdma, sq) =>
          lift_res (offer_events (Z.to_nat INPUT_QUEUE_SIZE) 0 eq) ≫= λ '(r, eq),
          match r with
          | inl e => DMA_drop sdma ≫= λ _, DMA_drop edma ≫= λ _, mret (inl e)
          | inr _ => in_hdr finish_init ≫= λ _, mret (inr (edma, eq, (sdma, sq)))
          end
      end
  end.

Definition input_ack_interrupt : M VirtIOInput bool := in_ibus (in_hdr ack_interrupt).

(** The event is copied after its buffer has been offered again. *)
Definition pop_pending_event (meanwhile : M VirtIOInput ()) : M VirtIOInput (option InputEvent) :=
  in_events pop_used ≫= λ r,
  match r with
  | inl _ => mret None
  | inr (token, _) =>
      assertM (token <? INPUT_QUEUE_SIZE) ≫= λ _,
      in_events (add virt_to_phys [] [event_slice token]) ≫= λ r,
      match r with
      | inl _ => mret None
      | inr _ =>
          meanwhile ≫= λ _,
          in_ibus (in_bmem (load_virt virt_to_phys (event_addr token) EVENT_LEN)) ≫= λ b,
          mret (Some (InputEvent_of b))
      end
  end.
End input.

(** ** The configuration *)
Inductive InputConfigSelect : Type := IdName | IdSerial | IdDevids | PropBits | EvBits | AbsInfo.
Definition InputConfigSelect_repr (s : InputConfigSelect) : Z :=
  match s with
  | IdName => 0x01 | IdSerial => 0x02 | IdDevids => 0x03
  | PropBits => 0x10 | EvBits => 0x11 | AbsInfo => 0x12
  end.

(** [config select subsel]: the size and the 128 bytes of data the device shows.
    The new contents of [out] and the size; slices out of range panic. *)
Definition query_config_select (config : Z → Z → Z * list Z)
    (select : InputConfigSelect) (subsel : Z) (out : list Z) : res (Z * list Z) :=
  let '(size, data) := config (InputConfigSelect_repr select) subsel in
  let n := Z.to_nat size in
  assert_res (bool_decide (n ≤ length out)%nat && bool_decide (n ≤ length data)%nat) ≫= λ _,
  Ok (size, take n data ++ drop n out).
