(* ===== verification/VirtIOInputInv.v ===== *)
(** * VirtIOInputInv: the input driver is a queue of events

    Every buffer is either with the device or holds an event that has not been
    returned.  An abstract queue of events says what the driver returns, whatever
    the device does between its calls and inside them. *)

From stdpp Require Import base gmap list numbers.
From S2P Require Import Prelude Bytes Address FrameAllocator PageTable OsFile PhysBytes.
From S2P Require Import VirtIOHeader VirtQueue VirtQueueInv VirtIODma VirtIOBlk VirtIOBlkInv VirtIOInput.

Definition event_ok (e : InputEvent) : Prop :=
  in_u 16 (event_type e) ∧ in_u 16 (code e) ∧ in_u 32 (value e).

Lemma length_event e : length (InputEvent_bytes e) = 8%nat.
Proof. unfold InputEvent_bytes. by rewrite !length_app, !length_le_bytes. Qed.

Lemma InputEvent_round_trip e : event_ok e → InputEvent_of (InputEvent_bytes e) = e.
Proof.
  intros (Ht & Hc & Hv). destruct e as [t c v]. unfold InputEvent_of, InputEvent_bytes, slice. cbn [event_type code value] in *.
  rewrite !drop_0, (take_app_length' _ _ 2), (drop_app_length' _ _ 2), (take_app_length' _ _ 2) by (by rewrite length_le_bytes).
  rewrite app_assoc, (drop_app_length' _ _ 4) by (rewrite length_app; by rewrite !length_le_bytes).
  rewrite take_ge by (by rewrite length_le_bytes). by rewrite !le_val_bytes_id.
Qed.

(** ** The abstract queue

    The buffers the device has, and the events that wait, each in its buffer. *)
Notation pending := (list Z * list (Z * InputEvent))%type.

Fixpoint spec_deliver (ds : list (Z * InputEvent)) (σ : pending) : option pending :=
  match ds with
  | [] => Some σ
  | (t, e) :: ds =>
      if decide (t ∈ σ.1) then spec_deliver ds (filter (.≠ t) σ.1, σ.2 ++ [(t, e)]) else None
  end.

(** What the buffer [t] holds after the deliveries [ds]. *)
Definition event_in (t : Z) (ds : list (Z * InputEvent)) (e : InputEvent) : InputEvent :=
  foldl (λ a d, if decide (d.1 = t) then d.2 else a) e ds.

(** The device delivers an event into a buffer; the driver takes an event, while
    the device makes the deliveries [ds]. *)
Inductive action : Type :=
| Deliver (t : Z) (e : InputEvent)
| Pop (ds : list (Z * InputEvent)).

Definition spec_step (a : action) (σ : pending) : option (list (option InputEvent) * pending) :=
  match a with
  | Deliver t e => (λ σ', ([], σ')) <$> spec_deliver [(t, e)] σ
  | Pop ds =>
      match σ.2 with
      | [] => Some ([None], σ)
      | (t, e) :: L => (λ σ', ([Some (event_in t ds e)], σ')) <$> spec_deliver ds (σ.1 ++ [t], L)
      end
  end.

Fixpoint spec_run (l : list action) (σ : pending) : option (list (option InputEvent) * pending) :=
  match l with
  | [] => Some ([], σ)
  | a :: l =>
      '(o, σ) ← spec_step a σ;
      '(os, σ) ← spec_run l σ;
      Some (o ++ os, σ)
  end.

(** The events an action delivers; those of a [Pop] that finds nothing do not
    happen. *)
Definition delivered_by (a : action) (σ : pending) : list InputEvent :=
  match a with Deliver _ e => [e] | Pop ds => match σ.2 with [] => [] | _ => ds.*2 end end.
Fixpoint delivered (l : list action) (σ : pending) : list InputEvent :=
  match l with
  | [] => []
  | a :: l => delivered_by a σ ++ match spec_step a σ with Some (_, σ) => delivered l σ | None => [] end
  end.

(** The device never fills the buffer of an event while it is being taken. *)
Definition calm_step (a : action) (σ : pending) : Prop :=
  match a with Deliver _ _ => True | Pop ds => match σ.2 with [] => True | (t, _) :: _ => t ∉ ds.*1 end end.
Fixpoint calm (l : list action) (σ : pending) : Prop :=
  match l with
  | [] => True
  | a :: l => calm_step a σ ∧ match spec_step a σ with Some (_, σ) => calm l σ | None => True end
  end.

Lemma spec_deliver_events ds : ∀ σ σ', spec_deliver ds σ = Some σ' → σ'.2.*2 = σ.2.*2 ++ ds.*2.
Proof.
  induction ds as [|[t e] ds IH]; intros σ σ' H; cbn in H; [injection H as <-; by rewrite app_nil_r|].
  case_decide; [|done]. apply IH in H. rewrite H. cbn. by rewrite fmap_app, <- app_assoc.
Qed.

Lemma event_in_other t ds e : t ∉ ds.*1 → event_in t ds e = e.
Proof.
  unfold event_in. revert e. induction ds as [|[t' e'] ds IH]; intros e H; [done|]. cbn in *.
  apply not_elem_of_cons in H as [Hne H]. rewrite decide_False by done. by apply IH.
Qed.

(** Without such a race no event is lost, doubled or out of order. *)
Lemma spec_fifo l : ∀ σ os σ', spec_run l σ = Some (os, σ') → calm l σ →
  omap id os ++ σ'.2.*2 = σ.2.*2 ++ delivered l σ.
Proof.
  induction l as [|a l IH]; intros σ os σ' H Hc; cbn in H.
  { injection H as <- <-. cbn. by rewrite app_nil_r. }
  destruct (spec_step a σ) as [[o σ1]|] eqn:Ha; [|done]. cbn in H.
  destruct (spec_run l σ1) as [[os1 σ2]|] eqn:Hl; [|done]. injection H as <- <-.
  cbn [calm delivered] in *. rewrite Ha in *. destruct Hc as [Hc1 Hc2].
  rewrite omap_app, <- app_assoc, (IH _ _ _ Hl Hc2), !app_assoc. f_equal. clear IH Hl Hc2.
  destruct a as [t e|ds]; cbn [spec_step delivered_by calm_step] in *.
  - apply fmap_Some in Ha as (? & Hd & [= -> ->]). by apply spec_deliver_events in Hd.
  - destruct σ.2 as [|[t e] L] eqn:Hs.
    + injection Ha as <- <-. by rewrite Hs.
    + apply fmap_Some in Ha as (? & Hd & [= -> ->]). apply spec_deliver_events in Hd. cbn in Hd |- *.
      by rewrite event_in_other, Hd by done.
Qed.

(** With it the first event is lost and the second comes out twice. *)
Lemma spec_race e1 e2 : ∃ σ, spec_run [Deliver 0 e1; Pop [(0, e2)]; Pop []] (seqZ 0 32, []) = Some ([Some e2; Some e2], σ).
Proof. eexists. vm_compute. reflexivity. Qed.

(** ** The driver *)
Section driver.
Context (virt_to_phys : Z → Z) (event_buf : Z) (Hcontig : contig virt_to_phys event_buf 256).

Notation event_pa t := (virt_to_phys (event_addr event_buf t)).
Definition chain_of (t : Z) : list Z * list dbuf := ([t], [(event_pa t, 8, true)]).

Record input_inv (s : VirtIOInput) (σ : pending) : Prop := {
  ii_queue : qinv (event_queue s) [] (chain_of <$> σ.1) (chain_of <$> σ.2.*1);
  ii_size : queue_size (event_queue s) = 32;
  ii_backed : backed (b_mem (i_bus s)) (virt_to_phys event_buf) 256;
  ii_events : Forall (λ p, bytes_at (b_mem (i_bus s)) (event_pa p.1) (InputEvent_bytes p.2) ∧ event_ok p.2) σ.2;
}.

(** The device writes an event where the descriptor of [t] says, and answers. *)
Definition deliver (t : Z) (e : InputEvent) : M VirtIOInput () := λ s,
  match walk (length (desc (event_queue s))) (desc (event_queue s)) t with
  | Some [(a, len, true)] =>
      (assertM (len =? 8) ≫= λ _,
       in_ibus (in_bmem (store_bytes a (InputEvent_bytes e))) ≫= λ _,
       in_events (modify_st (answer t len))) s
  | _ => Stop Undefined
  end.
Definition deliver_all (ds : list (Z * InputEvent)) : M VirtIOInput () := for_each ds (λ d, deliver d.1 d.2).

Definition impl_step (a : action) : M VirtIOInput (list (option InputEvent)) :=
  match a with
  | Deliver t e => deliver_all [(t, e)] ≫= λ _, mret []
  | Pop ds => pop_pending_event virt_to_phys event_buf (deliver_all ds) ≫= λ o, mret [o]
  end.
Fixpoint impl_run (l : list action) : M VirtIOInput (list (option InputEvent)) :=
  match l with
  | [] => mret []
  | a :: l => impl_step a ≫= λ o, impl_run l ≫= λ os, mret (o ++ os)
  end.

Lemma event_pa_eq t : 0 ≤ t < 32 → event_pa t = virt_to_phys event_buf + 8 * t.
Proof using Hcontig. intros Ht. apply Hcontig. lia. Qed.

Lemma chains_of w : chains (chain_of <$> w) = w.
Proof using Type. unfold chains. induction w as [|t w IH]; [done|]. cbn. by f_equal. Qed.

Lemma tokens s σ : input_inv s σ → NoDup (σ.1 ++ σ.2.*1) ∧ ∀ t, t ∈ σ.1 ++ σ.2.*1 → 0 ≤ t < 32.
Proof using Type.
  intros [Hq Hs _ _]. pose proof (qi_perm _ _ _ _ Hq) as Hp. rewrite !chains_of, Hs in Hp. cbn [app] in Hp.
  split; [rewrite Hp; apply NoDup_seqZ|]. intros t Ht. rewrite Hp in Ht. apply elem_of_seqZ in Ht. lia.
Qed.

Lemma filter_others (w : list Z) t : t ∉ w → filter (.≠ t) w = w.
Proof using Type.
  induction w as [|x w IH]; intros H; [done|]. apply not_elem_of_cons in H as [Hne H].
  rewrite list.filter_cons_True by congruence. by rewrite IH.
Qed.

Lemma filter_split (w1 w2 : list Z) t : NoDup (w1 ++ t :: w2) → filter (.≠ t) (w1 ++ t :: w2) = w1 ++ w2.
Proof using Type.
  intros Hnd. apply list.NoDup_app in Hnd as (_ & Hd & [Ht _]%list.NoDup_cons).
  rewrite list.filter_app, list.filter_cons_False by (intros H; by apply H).
  rewrite !filter_others; [done|done|]. intros H. apply (Hd t H), list_elem_of_here.
Qed.

(** Another buffer keeps its bytes. *)
Lemma event_frame m t t' e bs m' : 0 ≤ t < 32 → 0 ≤ t' < 32 → t ≠ t' → length bs = 8%nat →
  stored m (event_pa t) bs m' → bytes_at m (event_pa t') (InputEvent_bytes e) → bytes_at m' (event_pa t') (InputEvent_bytes e).
Proof using Hcontig.
  intros Ht Ht' Hne Hl Hst. apply (bytes_at_frame _ _ _ _ _ _ Hst). rewrite Hl, length_event, !event_pa_eq by done. unfold apart. lia.
Qed.

Lemma deliver_run s σ t e : input_inv s σ → event_ok e → t ∈ σ.1 →
  ∃ m q, let s' := set_event_queue q (set_ibus (mkBus m (queue_frames (i_bus s)) (b_hdr (i_bus s))) s) in
    deliver t e s = Ok ((), s') ∧ input_inv s' (filter (.≠ t) σ.1, σ.2 ++ [(t, e)]) ∧
    stored (b_mem (i_bus s)) (event_pa t) (InputEvent_bytes e) m.
Proof using Hcontig.
  intros Hinv He Ht. destruct (tokens _ _ Hinv) as [Hnd Hrng]. pose proof Hinv as [Hq Hsz Hb Hev].
  assert (0 ≤ t < 32) as Htr by (apply Hrng, elem_of_app; by left).
  apply list_elem_of_split in Ht as (w1 & w2 & Hw). rewrite Hw in Hq, Hnd. rewrite fmap_app in Hq. cbn [fmap list_fmap] in Hq.
  pose proof (qi_wait _ _ _ _ Hq) as Hwait. apply Forall_app in Hwait as [_ [Hc _]%list.Forall_cons].
  assert (walk (length (desc (event_queue s))) (desc (event_queue s)) t = Some [(event_pa t, 8, true)]) as Hwalk.
  { apply (walk_chain _ [t] _ t Hc eq_refl). pose proof (qi_desc _ _ _ _ Hq). cbn. lia. }
  destruct (store_bytes_run (InputEvent_bytes e) (b_mem (i_bus s)) (event_pa t)) as (m & Hrun & Hst).
  { rewrite length_event, event_pa_eq by done. intros x Hx. apply Hb. lia. }
  exists m, (answer t 8 (event_queue s)). cbv zeta. split_and!; [| |done].
  - unfold deliver. rewrite Hwalk, (M_bind_run _ _ _ () s) by done.
    rewrite (M_bind_run _ _ _ () (set_ibus (mkBus m (queue_frames (i_bus s)) (b_hdr (i_bus s))) s)); [done|].
    unfold in_ibus, in_bmem. by rewrite Hrun.
  - pose proof (answer_inv _ _ _ _ _ _ _ t 8 Hq eq_refl) as Ha.
    split; cbn [fst snd event_queue i_bus b_mem set_event_queue set_ibus].
    + rewrite Hw, filter_split by (by apply list.NoDup_app in Hnd as [? _]). rewrite !fmap_app. exact Ha.
    + done.
    + by eapply backed_stored.
    + apply Forall_app. split; [|apply list.Forall_singleton; split; [by eapply bytes_at_stored|done]].
      apply list.Forall_forall. intros [t' e'] Hin. rewrite list.Forall_forall in Hev. destruct (Hev _ Hin) as [Hby Hok].
      cbn [fst snd] in *. split; [|done]. apply (list_elem_of_fmap_2 fst) in Hin. cbn in Hin.
      apply (event_frame (b_mem (i_bus s)) t t' e' (InputEvent_bytes e) m); try done.
      * apply Hrng, elem_of_app. by right.
      * intros ->. apply list.NoDup_app in Hnd as (_ & Hd & _). apply (Hd t'); [|done]. apply elem_of_app. right. apply list_elem_of_here.
Qed.

(** Many deliveries; the buffer [t] holds what [event_in] says. *)
Lemma deliver_all_run ds : ∀ s σ σ', input_inv s σ → Forall event_ok ds.*2 → spec_deliver ds σ = Some σ' →
  ∃ s', deliver_all ds s = Ok ((), s') ∧ input_inv s' σ' ∧
    ∀ t e, 0 ≤ t < 32 → bytes_at (b_mem (i_bus s)) (event_pa t) (InputEvent_bytes e) →
      bytes_at (b_mem (i_bus s')) (event_pa t) (InputEvent_bytes (event_in t ds e)).
Proof using Hcontig.
  induction ds as [|[t e] ds IH]; intros s σ σ' Hinv Hok Hd; cbn in Hd.
  { injection Hd as <-. by exists s. }
  cbn in Hok. apply list.Forall_cons in Hok as [He Hok]. case_decide as Ht; [|done].
  destruct (deliver_run s σ t e Hinv He Ht) as (m & q & Hrun & Hinv1 & Hst). cbv zeta in Hrun, Hinv1.
  destruct (IH _ _ _ Hinv1 Hok Hd) as (s' & Hrun' & Hinv' & Hby). exists s'. split_and!; [|done|].
  - unfold deliver_all in *. cbn [for_each fst snd]. by run Hrun.
  - intros t' e' Ht' Hb. unfold event_in. cbn [foldl fst snd]. apply Hby; [done|]. cbn [i_bus b_mem set_event_queue set_ibus].
    case_decide as Heq; [subst; by eapply bytes_at_stored|].
    apply (event_frame (b_mem (i_bus s)) t t' e' (InputEvent_bytes e)); try done.
    apply (tokens _ _ Hinv), elem_of_app. by left.
Qed.

(** Taking an event back and offering its buffer again. *)
Lemma requeue_run s w t e L : input_inv s (w, (t, e) :: L) →
  ∃ len q1 q2, pop_used (event_queue s) = Ok (inr (t, len), q1) ∧
    add virt_to_phys [] [event_slice event_buf t] q1 = Ok (inr t, q2) ∧ input_inv (set_event_queue q2 s) (w ++ [t], L).
Proof using Type.
  intros [Hq Hs Hb Hev]. cbn [fst snd fmap list_fmap] in Hq, Hev.
  destruct (pop_used_spec _ _ _ _ _ _ Hq) as (h & len & q1 & Hpop & Hh & _ & Hq1 & Hs1 & _). injection Hh as <-.
  destruct (add_spec virt_to_phys q1 _ _ _ [] [event_slice event_buf t] Hq1) as (q2 & Hadd & Hq2 & Hhd & _ & _ & _ & Hs2 & _); [cbn; lia|].
  cbn in Hhd. injection Hhd as Hhd. rewrite <- Hhd in Hadd. exists len, q1, q2. split_and!; [done|done|].
  split; cbn [fst snd set_event_queue event_queue i_bus]; [|by rewrite Hs2, Hs1|done|by apply list.Forall_cons in Hev as [_ Hev]].
  rewrite fmap_app. exact Hq2.
Qed.

Lemma in_events_run {A} (f : M VirtQueue A) s a q : f (event_queue s) = Ok (a, q) → in_events f s = Ok (a, set_event_queue q s).
Proof using Type. unfold in_events. by intros ->. Qed.

Lemma load_event_run s t e : 0 ≤ t < 32 → event_ok e → bytes_at (b_mem (i_bus s)) (event_pa t) (InputEvent_bytes e) →
  (in_ibus (in_bmem (load_virt virt_to_phys (event_addr event_buf t) EVENT_LEN)) ≫= λ b, mret (Some (InputEvent_of b))) s = Ok (Some e, s).
Proof using Hcontig.
  intros Ht He Hb. rewrite (M_bind_run _ _ _ (InputEvent_bytes e) s); [by rewrite InputEvent_round_trip|].
  unfold in_ibus, in_bmem. rewrite load_virt_eq.
  - change EVENT_LEN with 8%nat. rewrite <- (length_event e), load_bytes_run by done. by destruct s as [[]].
  - change (Z.of_nat EVENT_LEN) with 8. intros i Hi. rewrite event_pa_eq by done. unfold event_addr.
    rewrite <- Z.add_assoc, (Hcontig (8 * t + i)) by lia. lia.
Qed.

Lemma pop_run s σ σ' ds os : input_inv s σ → Forall event_ok ds.*2 → spec_step (Pop ds) σ = Some (os, σ') →
  ∃ s', impl_step (Pop ds) s = Ok (os, s') ∧ input_inv s' σ'.
Proof using Hcontig.
  intros Hinv Hok Hsp. cbn [spec_step impl_step] in *. destruct σ as [w [|[t e] L]]; cbn [fst snd] in Hsp.
  { injection Hsp as <- <-. exists s. split; [|done]. unfold pop_pending_event.
    rewrite M_bind_assoc, (M_bind_run _ _ _ (inl NotReady) s); [done|]. destruct Hinv as [Hq _ _ _].
    rewrite (in_events_run _ _ _ _ (pop_used_empty _ _ _ Hq)). by destruct s. }
  apply fmap_Some in Hsp as (σ1 & Hd & [= -> ->]).
  destruct (tokens _ _ Hinv) as [_ Hrng]. assert (0 ≤ t < 32) as Ht by (apply Hrng; cbn; apply elem_of_app; right; apply list_elem_of_here).
  pose proof (ii_events _ _ Hinv) as Hev. cbn in Hev. apply list.Forall_cons in Hev as [[Hby He] _]. cbn [fst snd] in Hby, He.
  destruct (requeue_run _ _ _ _ _ Hinv) as (len & q1 & q2 & Hpop & Hadd & Hinv2).
  destruct (deliver_all_run ds _ _ _ Hinv2 Hok Hd) as (s' & Hdel & Hinv' & Hby'). exists s'. split; [|done].
  unfold pop_pending_event. rewrite M_bind_assoc. run (in_events_run _ _ _ _ Hpop). cbv beta iota.
  rewrite M_bind_assoc, M_assert_bind by (apply Z.ltb_lt; unfold INPUT_QUEUE_SIZE; lia).
  rewrite M_bind_assoc, (M_bind_run _ _ _ (inr t) (set_event_queue q2 s)) by (unfold in_events; cbn [event_queue set_event_queue]; by rewrite Hadd).
  cbv beta iota. rewrite M_bind_assoc. run Hdel. rewrite (M_bind_run _ _ _ (Some (event_in t ds e)) s'); [done|].
  apply load_event_run; [done| |by apply Hby']. clear -He Hok. unfold event_in. revert e He.
  induction ds as [|[t' e'] ds IH]; intros e He; [done|]. cbn in *. apply list.Forall_cons in Hok as [He' Hok].
  apply IH; [done|]. by case_decide.
Qed.

(** The driver refines the abstract queue. *)
Definition action_events (a : action) : list InputEvent := match a with Deliver _ e => [e] | Pop ds => ds.*2 end.

Lemma impl_refines l : ∀ s σ os σ', input_inv s σ → Forall event_ok (l ≫= action_events) → spec_run l σ = Some (os, σ') →
  ∃ s', impl_run l s = Ok (os, s') ∧ input_inv s' σ'.
Proof using Hcontig.
  induction l as [|a l IH]; intros s σ os σ' Hinv Hok Hsp; cbn in Hsp.
  { injection Hsp as <- <-. by exists s. }
  cbn in Hok. apply Forall_app in Hok as [Hoka Hok].
  destruct (spec_step a σ) as [[o σ1]|] eqn:Ha; [|done]. cbn in Hsp.
  destruct (spec_run l σ1) as [[os1 σ2]|] eqn:Hl; [|done]. injection Hsp as <- <-.
  assert (∃ s1, impl_step a s = Ok (o, s1) ∧ input_inv s1 σ1) as (s1 & Hs1 & Hinv1).
  { destruct a as [t e|ds]; [|by eapply pop_run]. cbn [spec_step] in Ha. apply fmap_Some in Ha as (? & Hd & [= -> ->]).
    destruct (deliver_all_run [(t, e)] _ _ _ Hinv Hoka Hd) as (s1 & Hrun & Hinv1 & _). exists s1. split; [|done].
    cbn [impl_step]. by run Hrun. }
  destruct (IH _ _ _ _ Hinv1 Hok Hl) as (s' & Hrun & Hinv'). exists s'. split; [|done].
  cbn [impl_run]. run Hs1. by run Hrun.
Qed.
(** ** Start *)
Lemma offer_events_run n : ∀ i q, 0 ≤ i → i + Z.of_nat n = 32 → queue_size q = 32 →
  qinv q (seqZ i (Z.of_nat n)) (chain_of <$> seqZ 0 i) [] →
  ∃ q', offer_events virt_to_phys event_buf n i q = Ok (inr (), q') ∧ qinv q' [] (chain_of <$> seqZ 0 32) [] ∧ queue_size q' = 32.
Proof using Type.
  induction n as [|n IH]; intros i q Hi Hn Hs Hq.
  { exists q. assert (i = 32) as -> by lia. done. }
  rewrite seqZ_cons in Hq by lia. cbn [offer_events].
  destruct (add_spec virt_to_phys q _ _ _ [] [event_slice event_buf i] Hq) as (q1 & Hadd & Hq1 & Hhd & _ & _ & _ & Hs1 & _); [cbn; lia|].
  cbn in Hhd. injection Hhd as Hhd. rewrite <- Hhd in Hadd.
  destruct (IH (i + 1) q1) as (q' & Hrun & Hq' & Hs'); [lia|lia|congruence| |].
  - rewrite (seqZ_app 0 i 1) by lia. rewrite Z.add_0_l, (seqZ_cons i 1), (seqZ_nil _ (Z.pred 1)) by lia.
    rewrite fmap_app. replace (Z.of_nat n) with (Z.pred (Z.of_nat (S n))) by lia. replace (i + 1) with (Z.succ i) by lia. exact Hq1.
  - exists q'. split_and!; [|done|done]. run Hadd. cbv beta iota. rewrite M_assert_bind; [done|].
    apply Z.eqb_eq. symmetry. apply wrap_small. unfold in_u. change (2 ^ 16) with 65536. lia.
Qed.

(** One of the two queues of 32 entries; what memory backed stays backed. *)
Lemma new_queue idx b lo U pa n :
  in_u 32 idx → pfn_of idx (written (b_hdr b)) = 0 → 32 ≤ queue_num_max (b_hdr b) idx →
  mem_ok (b_mem b) lo U → recycled (falloc (b_mem b)) = [] →
  let c := FrameAllocator.current (falloc (b_mem b)) in
  0 < c → c + 2 ≤ end_ (falloc (b_mem b)) → end_ (falloc (b_mem b)) ≤ 2 ^ 20 → backed (b_mem b) pa n →
  ∃ dma q m, VirtQueue_new idx INPUT_QUEUE_SIZE b =
      Ok (inr (dma, q), mkBus m (queue_frames b ++ [c; c + 1]) (add_writes (queue_writes idx 32 c) (b_hdr b))) ∧
    qinv q (seqZ 0 32) [] [] ∧ queue_size q = 32 ∧ mem_ok m lo ({[c; c + 1]} ∪ U) ∧
    falloc m = mkSFA (c + 2) (end_ (falloc (b_mem b))) [] ∧ backed m pa n.
Proof using Type.
  intros Hi Hp Hm Hok Hr c Hc Hend Hlim Hb.
  destruct (VirtQueue_new_spec idx 5 b lo U ltac:(lia) Hi Hp Hm Hok Hr Hc Hend Hlim) as (m & q & Hrun & Hok' & Hfa & Hram & Hq & Hs & _).
  fold c in Hrun, Hok', Hfa, Hram. exists (mkDMA (4096 * c) 2), q, m. split_and!; try done.
  eapply backed_frames; [|apply Hok'|exact Hb]. intros x Hx.
  destruct (decide (x = c)) as [->|H1]; [|destruct (decide (x = c + 1)) as [->|H2]; [|by rewrite Hram]].
  all: apply (mo_ram _ _ _ Hok'); rewrite Hfa; cbn [end_]; pose proof (fa_range _ _ _ (mo_alloc _ _ _ Hok)); lia.
Qed.

Lemma VirtIOInput_new_run b lo U :
  in_u 64 (device_features (b_hdr b)) → mem_ok (b_mem b) lo U → recycled (falloc (b_mem b)) = [] →
  let c := FrameAllocator.current (falloc (b_mem b)) in
  0 < c → c + 4 ≤ end_ (falloc (b_mem b)) → end_ (falloc (b_mem b)) ≤ 2 ^ 20 →
  (∀ i, i = 0 ∨ i = 1 → pfn_of i (written (b_hdr b)) = 0 ∧ 32 ≤ queue_num_max (b_hdr b) i) →
  backed (b_mem b) (virt_to_phys event_buf) 256 →
  ∃ edma eq sdma sq b', VirtIOInput_new virt_to_phys event_buf b = Ok (inr (edma, eq, (sdma, sq)), b') ∧
    input_inv (mkInput b' edma eq sdma sq) (seqZ 0 32, []) ∧ reg_value status (written (b_hdr b')) = DeviceStatus_DRIVER_OK.
Proof using Hcontig.
  intros Hf Hok Hr c Hc Hend Hlim Hqs Hb.
  set (zs := concat (replicate (Z.to_nat INPUT_QUEUE_SIZE) (InputEvent_bytes InputEvent_default))).
  destruct (store_bytes_run zs (b_mem b) (virt_to_phys event_buf) Hb) as (m0 & Hst & Hst').
  destruct (store_bytes_keeps zs _ _ _ Hst) as (Hfa0 & Hfr0 & Hram0); [by repeat constructor|apply Hok|].
  assert (mem_ok m0 lo U) as Hok0 by (destruct Hok as [H1 H2 H3]; split; rewrite ?Hfa0; auto).
  set (b1 := mkBus m0 (queue_frames b) (add_writes init_writes (b_hdr b))).
  destruct (new_queue 0 b1 lo U (virt_to_phys event_buf) 256) as (edma & eq & m1 & Hrun1 & Hq1 & Hs1 & Hok1 & Hfa1 & Hb1);
    try (cbn [b1 b_mem b_hdr]; rewrite ?Hfa0; unfold c in *; first [done|lia]); [by apply (Hqs 0); left..|by eapply backed_stored|].
  set (b2 := mkBus m1 _ _) in Hrun1. cbn [b1 b_mem] in Hok1, Hfa1. rewrite Hfa0 in Hok1, Hfa1. fold c in Hok1, Hfa1.
  destruct (new_queue 1 b2 lo ({[c; c + 1]} ∪ U) (virt_to_phys event_buf) 256) as (sdma & sq & m2 & Hrun2 & _ & _ & _ & _ & Hb2);
    [done|apply (Hqs 1); by right|apply (Hqs 1); by right|exact Hok1|cbn [b2 b_mem]; by rewrite Hfa1
    |cbn [b2 b_mem]; rewrite Hfa1; cbn [FrameAllocator.current end_]; unfold c in *; lia..|done|].
  destruct (offer_events_run 32 0 eq) as (eq' & Hoff & Hqe & Hse); [done|done|done|exact Hq1|].
  set (b3 := mkBus m2 _ _) in Hrun2.
  exists edma, eq', sdma, sq, (mkBus m2 (queue_frames b3) (add_writes [(status, 4)] (b_hdr b3))). split_and!; [|by split|done].
  unfold VirtIOInput_new. fold zs.
  rewrite (M_bind_run _ _ _ () (mkBus m0 (queue_frames b) (b_hdr b))) by (apply in_bmem_run; by rewrite store_virt_eq).
  rewrite (M_bind_run _ _ _ () b1) by (unfold in_hdr; cbn [b_hdr]; by rewrite begin_init_none by (done || apply Z.land_0_r)).
  run Hrun1. cbv beta iota. run Hrun2. cbv beta iota.
  change (Z.to_nat INPUT_QUEUE_SIZE) with 32%nat. rewrite Hoff, M_res_bind. done.
Qed.
End driver.
