(* ===== verification/VirtProps.v ===== *)
(** * VirtProps: the properties of the virtio drivers

    The theorems about the queue, the block driver, its start and the input
    driver, with instances at concrete inputs. *)

From stdpp Require Import base gmap list numbers.
From S2P Require Import Prelude Bytes Address FrameAllocator PageTable OsFile PhysBytes.
From S2P Require Import VirtIOHeader VirtQueue VirtQueueInv VirtIODma VirtIOBlk VirtIOBlkInv VirtIODisk VirtIOInput VirtIOInputInv.

(** ** The queue *)

(** C23: A virtqueue keeps its descriptors apart, however requests and answers
    are interleaved: every descriptor is free, in one chain the device has, or
    in one chain it has answered.  [add] refuses a request without buffers or
    with more than there are free descriptors and changes nothing; otherwise
    the device finds, behind the new entry of the available ring, exactly the
    buffers in order, inputs to read and outputs to write.  The device may answer
    the waiting chains in any order.  [pop_used] gives back the answered chains
    in the order of the answers, with the length the device reported, and
    [NotReady] when there is none. *)
Theorem virtqueue_exchange virt_to_phys q free w d :
  qinv q free w d →
  (∀ ins outs, let n := (length ins + length outs)%nat in
    let bs := bufs_of virt_to_phys false ins ++ bufs_of virt_to_phys true outs in
    if decide (n = 0 ∨ length free < n)%nat then
      add virt_to_phys ins outs q = Ok (inl (if decide (n = 0)%nat then InvalidParam else BufferTooSmall), q)
    else ∃ h q', add virt_to_phys ins outs q = Ok (inr h, q') ∧
      qinv q' (drop n free) (w ++ [(take n free, bs)]) d ∧ used q' = used q ∧
      avail_idx_reg (avail q') = wrap 16 (avail_idx q + 1) ∧
      avail_ring (avail q') !! Z.to_nat (avail_idx q mod queue_size q) = Some h ∧
      walk (length (desc q')) (desc q') h = Some bs) ∧
  (∀ w1 c bs w2 h len, w = w1 ++ (c, bs) :: w2 → head c = Some h →
    qinv (answer h len q) free (w1 ++ w2) (d ++ [(c, bs)])) ∧
  match d with
  | [] => pop_used q = Ok (inl NotReady, q)
  | (c, _) :: d' => ∃ h len q', pop_used q = Ok (inr (h, len), q') ∧ head c = Some h ∧
      used_ring (used q) !! Z.to_nat (last_used_idx q mod queue_size q) = Some (h, len) ∧ qinv q' (c ++ free) w d'
  end.
Proof.
  intros Hq. split_and!.
  - intros ins outs n bs. case_decide as Hn; [by eapply add_refused|].
    destruct (add_spec virt_to_phys q free w d ins outs Hq) as (q' & Hrun & Hq' & Hhd & Hai & Hring & Hus & _); [unfold n in Hn; lia|].
    exists (free_head q), q'. split_and!; try done. pose proof (qi_wait _ _ _ _ Hq') as Hw.
    apply Forall_app in Hw as [_ [Hc _]%list.Forall_cons]. eapply walk_chain; [exact Hc|exact Hhd|].
    pose proof (qi_desc _ _ _ _ Hq') as HD. destruct (free_count _ _ _ _ Hq') as [Hf _].
    pose proof (Permutation_length (qi_perm _ _ _ _ Hq')) as Hp. rewrite !length_app, length_seqZ, chains_snoc, length_app in Hp. cbn [fst] in *. lia.
  - intros w1 c bs w2 h len -> Hh. by apply answer_inv.
  - destruct d as [|[c bs] d]; [by eapply pop_used_empty|].
    destruct (pop_used_spec _ _ _ _ _ _ Hq) as (h & len & q' & H1 & H2 & H3 & H4 & _). by exists h, len, q'.
Qed.

Definition sample_queue : VirtQueue :=
  VirtQueue_in 0 (2 ^ 4) (replicate 16 (mkDesc 0 0 0 0)) (mkAvail 0 (replicate 32 0)) (mkUsed 0 (replicate 32 (0, 0))).
Lemma sample_queue_inv : qinv sample_queue (seqZ 0 (2 ^ 4)) [] [].
Proof. apply VirtQueue_in_inv; done. Qed.

Lemma virtqueue_exchange_witness : ∃ h q',
  add (λ va, va) [(4096, 16)] [(8192, 512); (12288, 1)] sample_queue = Ok (inr h, q') ∧
  walk (length (desc q')) (desc q') h = Some [(4096, 16, false); (8192, 512, true); (12288, 1, true)].
Proof.
  destruct (virtqueue_exchange (λ va, va) sample_queue _ _ _ sample_queue_inv) as (Hadd & _ & _).
  specialize (Hadd [(4096, 16)] [(8192, 512); (12288, 1)]). cbv zeta in Hadd.
  rewrite decide_False in Hadd by (rewrite length_seqZ; cbn; lia).
  destruct Hadd as (h & q' & H1 & _ & _ & _ & _ & H2). exists h, q'. split; [exact H1|exact H2].
Defined.

(** ** The block device *)

(** C14: On a device that follows the specification a request always returns.
    [read_block] leaves the sector in the buffer and the sectors as they
    are; [write_block] puts the buffer into that sector and changes no other; a
    sector the device does not have gives an error, with no sector changed.
    Memory that is not part of the request stays, and the driver is ready for
    the next request.  The buffers must be contiguous in physical memory, since
    the device is told where a buffer starts and nothing more. *)
Theorem virtio_block_transfers {T} `{!BlkDevice T, !BlkDeviceLaws T} virt_to_phys (s : machine T) req buf resp id :
  blk_ready s → io_buffers virt_to_phys (b_mem (m_bus s)) req buf resp → in_u 64 id →
  (∃ N s', (∀ fuel, (N ≤ fuel)%nat →
      read_block virt_to_phys fuel req resp id (buf, 512) s = Ok (result (sector (m_dev s) id), s')) ∧
    request_done virt_to_phys s req buf resp s' ∧ (∀ x, sector (m_dev s') x = sector (m_dev s) x) ∧
    ∀ data, sector (m_dev s) id = Some data → bytes_at (b_mem (m_bus s')) (virt_to_phys buf) data) ∧
  (∀ data, bytes_at (b_mem (m_bus s)) (virt_to_phys buf) data → length data = 512%nat →
    ∃ N s', (∀ fuel, (N ≤ fuel)%nat →
        write_block virt_to_phys fuel req resp id (buf, 512) s = Ok (result (sector (m_dev s) id), s')) ∧
      request_done virt_to_phys s req buf resp s' ∧ bytes_at (b_mem (m_bus s')) (virt_to_phys buf) data ∧
      ∀ x, sector (m_dev s') x =
        if decide (x = id ∧ is_Some (sector (m_dev s) id)) then Some data else sector (m_dev s) x).
Proof.
  intros Hr Hio Hid. split; [by apply read_block_spec|]. intros data Hd Hl. by apply write_block_spec.
Qed.

Definition sample_header : VirtIOHeader := mkHeader 0x74726976 1 2 0 0 (λ _, 1024) 0 [(status, 4); (queue_pfn, 2)].
Definition sample_machine : machine sectors :=
  mkMachine (mkBus (mkMem {[1 := zero_frame]} (mkSFA 3 3 [])) [] sample_header) sample_queue 8 {[7 := replicate 512 9]}.

Lemma sample_backed a n : 4096 ≤ a → a + Z.of_nat n ≤ 8192 → backed (b_mem (m_bus sample_machine)) a n.
Proof.
  intros Ha Hn x Hx. replace x with (4096 * 1 + (x - 4096)) by lia.
  rewrite (byte_at_frame _ 1 zero_frame) by (done || lia). apply lookup_lt_is_Some. unfold zero_frame. rewrite length_replicate.
  change (Z.to_nat PAGE_SIZE) with (Z.to_nat 4096). lia.
Qed.

Lemma virtio_block_transfers_witness : ∃ N s', 
  (∀ fuel, (N ≤ fuel)%nat → read_block (λ va, va) fuel 4096 5632 7 (4608, 512) sample_machine = Ok (inr (), s')) ∧
  bytes_at (b_mem (m_bus s')) 4608 (replicate 512 9).
Proof.
  destruct (virtio_block_transfers (λ va, va) sample_machine 4096 4608 5632 7) as [(N & s' & H1 & _ & _ & H2) _].
  - split; [eexists; apply sample_queue_inv|done|done|done].
  - split; [done|done|split_and!; apply sample_backed; lia|left; lia|left; lia|left; lia].
  - done.
  - exists N, s'. split; [exact H1|]. by apply H2.
Defined.

(** ** Start *)
(** [VirtIOBlk::new] on a device that offers a queue of at least 16
    entries: the registers are written in this order (acknowledge, driver, no
    features, features-ok, page size, the queue, driver-ok), the queue lies in two fresh consecutive zeroed frames whose number the device
    is told, all other memory stays, and the driver is ready for requests.  A queue
    that is in use or too small makes it fail with the matching error. *)
Lemma virtio_driver_starts capacity b lo U :
  in_u 64 (device_features (b_hdr b)) → mem_ok (b_mem b) lo U → recycled (falloc (b_mem b)) = [] →
  let c := FrameAllocator.current (falloc (b_mem b)) in
  0 < c → c + 2 ≤ end_ (falloc (b_mem b)) → end_ (falloc (b_mem b)) ≤ 2 ^ 20 →
  if negb (pfn_of 0 (written (b_hdr b)) =? 0) then
    ∃ b', VirtIOBlk_new capacity b = Ok (inl AlreadyUsed, b') ∧ b_mem b' = b_mem b
  else if queue_num_max (b_hdr b) 0 <? 16 then
    ∃ b', VirtIOBlk_new capacity b = Ok (inl InvalidParam, b') ∧ b_mem b' = b_mem b
  else ∃ m' q, let h' := add_writes ((status, 4) :: queue_writes 0 16 c ++ init_writes) (b_hdr b) in
    let b' := mkBus m' (queue_frames b ++ [c; c + 1]) h' in
    VirtIOBlk_new capacity b = Ok (inr (mkDMA (4096 * c) 2, q, capacity), b') ∧
    mem_ok m' lo ({[c; c + 1]} ∪ U) ∧ (∀ x, x ≠ c → x ≠ c + 1 → ram m' !! x = ram (b_mem b) !! x) ∧
    pfn_of 0 (written h') = c ∧ ∀ T (dev : T), blk_ready (mkMachine b' q capacity dev).
Proof.
  intros Hf Hok Hr c Hc Hend Hlim. set (b1 := mkBus (b_mem b) (queue_frames b) (add_writes init_writes (b_hdr b))).
  assert (∀ B (k : () → M bus B), (in_hdr (begin_init (λ f, Z.land (BlkFeature_from_bits_truncate f) BlkFeature_empty)) ≫= k) b = k () b1) as Hinit.
  { intros B k. rewrite (M_bind_run _ _ _ () b1); [done|]. unfold in_hdr. by rewrite begin_init_run. }
  assert (pfn_of 0 (written (b_hdr b1)) = pfn_of 0 (written (b_hdr b))) as Hp1 by done.
  assert (queue_num_max (b_hdr b1) 0 = queue_num_max (b_hdr b) 0) as Hm1 by done.
  destruct (Z.eqb_spec (pfn_of 0 (written (b_hdr b))) 0) as [Hp|Hp]; cbn [negb].
  2: { eexists. unfold VirtIOBlk_new. rewrite Hinit, (M_bind_run _ _ _ _ _ (VirtQueue_new_refused 0 16 b1 ltac:(done) (or_introl Hp))), Hp1.
    destruct (Z.eqb_spec (pfn_of 0 (written (b_hdr b))) 0); [done|]. split; [reflexivity|done]. }
  destruct (Z.ltb_spec (queue_num_max (b_hdr b) 0) 16) as [Hm|Hm].
  { eexists. unfold VirtIOBlk_new. rewrite Hinit, (M_bind_run _ _ _ _ _ (VirtQueue_new_refused 0 16 b1 ltac:(done) (or_intror (or_intror Hm)))), Hp1, Hp.
    split; [reflexivity|done]. }
  destruct (VirtIOBlk_new_run capacity b lo U Hf Hok Hr Hc Hend Hlim Hp Hm) as (m' & q & Hrun & Hok' & _ & Hram & Hready).
  exists m', q. cbv zeta. split_and!; [exact Hrun|exact Hok'|exact Hram|reflexivity|exact Hready].
Qed.

(** ** Input *)

(** C24: The input driver starts with all its 32 buffers at the device, and is then
    a queue of events: whatever the device delivers into the buffers it has,
    between the calls of [pop_pending_event] and while one has offered the buffer
    of its event again, the calls return what the abstract queue says and every
    buffer is used again.  As long as the device does not fill a buffer while
    the event in it is being taken, the events come out once each, in the order
    of delivery; if it does, the first event is lost and the second comes out
    twice. *)
Theorem virtio_input_fifo virt_to_phys event_buf b lo U l os w L :
  contig virt_to_phys event_buf 256 → backed (b_mem b) (virt_to_phys event_buf) 256 →
  in_u 64 (device_features (b_hdr b)) → mem_ok (b_mem b) lo U → recycled (falloc (b_mem b)) = [] →
  0 < FrameAllocator.current (falloc (b_mem b)) → FrameAllocator.current (falloc (b_mem b)) + 4 ≤ end_ (falloc (b_mem b)) →
  end_ (falloc (b_mem b)) ≤ 2 ^ 20 →
  (∀ i, i = 0 ∨ i = 1 → pfn_of i (written (b_hdr b)) = 0 ∧ 32 ≤ queue_num_max (b_hdr b) i) →
  Forall event_ok (l ≫= action_events) → spec_run l (seqZ 0 32, []) = Some (os, (w, L)) →
  ∃ edma eq sdma sq b', VirtIOInput_new virt_to_phys event_buf b = Ok (inr (edma, eq, (sdma, sq)), b') ∧
    let s := mkInput b' edma eq sdma sq in
    (∃ s', impl_run virt_to_phys event_buf l s = Ok (os, s') ∧ input_inv virt_to_phys event_buf s' (w, L)) ∧
    (calm l (seqZ 0 32, []) → omap id os ++ L.*2 = delivered l (seqZ 0 32, [])) ∧
    (∀ e1 e2, event_ok e1 → event_ok e2 →
      ∃ s', impl_run virt_to_phys event_buf [Deliver 0 e1; Pop [(0, e2)]; Pop []] s = Ok ([Some e2; Some e2], s')).
Proof.
  intros Hc Hb Hf Hok Hr H0 Hend Hlim Hq He Hsp.
  destruct (VirtIOInput_new_run _ _ Hc b lo U Hf Hok Hr H0 Hend Hlim Hq Hb) as (edma & eq & sdma & sq & b' & Hnew & Hinv & _).
  exists edma, eq, sdma, sq, b'. split; [done|]. cbv zeta. split_and!.
  - by eapply impl_refines.
  - intros Hcalm. exact (spec_fifo _ _ _ _ Hsp Hcalm).
  - intros e1 e2 H1 H2. destruct (spec_race e1 e2) as [σ' Hrace].
    edestruct (impl_refines _ _ Hc [Deliver 0 e1; Pop [(0, e2)]; Pop []]) as (s' & Hrun & _);
      [exact Hinv|repeat (apply list.Forall_cons; split; [done|]); apply list.Forall_nil_2|exact Hrace|]. by exists s'.
Qed.

Definition input_bus : bus :=
  mkBus (mkMem (list_to_map ((λ x, (x, zero_frame)) <$> seqZ 1 5)) (mkSFA 1 5 [])) []
    (mkHeader 0x74726976 1 18 0 0x30000000 (λ _, 64) 0 []).

Lemma input_ram x : ram (b_mem input_bus) !! x = if decide (1 ≤ x < 6) then Some zero_frame else None.
Proof.
  cbn [input_bus b_mem ram]. assert (((λ x, (x, zero_frame)) <$> seqZ 1 5).*1 = seqZ 1 5) as Hk
    by (rewrite <- list_fmap_compose; apply list_fmap_id).
  case_decide as H.
  - apply elem_of_list_to_map_1; [rewrite Hk; apply NoDup_seqZ|]. apply list_elem_of_fmap. exists x. split; [done|]. apply elem_of_seqZ. lia.
  - apply not_elem_of_list_to_map_1. rewrite Hk, elem_of_seqZ. lia.
Qed.

Lemma virtio_input_fifo_witness : ∃ q b' s',
  VirtIOInput_new (λ va, va) 20480 input_bus = Ok (inr q, b') ∧
  impl_run (λ va, va) 20480 [Deliver 7 (mkEvent 1 30 1); Pop [(3, mkEvent 1 30 0)]; Pop []; Pop []] (mkInput b' q.1.1 q.1.2 q.2.1 q.2.2)
    = Ok ([Some (mkEvent 1 30 1); Some (mkEvent 1 30 0); None], s').
Proof.
  edestruct (virtio_input_fifo (λ va, va) 20480 input_bus 1 ∅ [Deliver 7 (mkEvent 1 30 1); Pop [(3, mkEvent 1 30 0)]; Pop []; Pop []])
    as (edma & eq & sdma & sq & b' & H1 & (s' & H2 & _) & _); [by intros i Hi| |done| |done|done|done|done|by intros i [->| ->]| |vm_compute; reflexivity|].
  - intros x Hx. unfold byte_at. rewrite input_ram. destruct (addr_split x) as [Hs Ho].
    rewrite decide_True by lia. apply lookup_lt_is_Some_2. unfold zero_frame. rewrite length_replicate. change PAGE_SIZE with 4096. lia.
  - split.
    + split; cbn; [done|constructor|by intros x ?%elem_of_nil|]. intros x. split; [by intros ?%elem_of_empty|]. intros [H _]. lia.
    + intros x b. rewrite input_ram. case_decide; [|done]. intros [= <-]. apply zero_frame_ok.
    + intros x Hx. cbn in Hx. rewrite input_ram, decide_True by lia. by eexists.
  - by repeat constructor.
  - exists (edma, eq, (sdma, sq)), b', s'. split; [exact H1|exact H2].
Defined.
