(* ===== verification/Boot.v ===== *)
(** * Boot: the start of the kernel (os/src/main.rs, os/src/memory/mod.rs)

    [rust_main] up to the idle loop.  Global objects that the source makes when
    they are first used are made where that happens: the kernel's address space
    when it is activated, the block device and the root inode when the
    applications are listed, initproc when it is queued.

    Left out are the heap, kernel messages and the registers satp, stvec and
    sie. *)

From stdpp Require Import base gmap list numbers.
From S2P Require Import Prelude Bytes Address FrameAllocator PageTable MemorySet Pid KState Task OsFile Syscall.
From S2P Require Import BlockIO Layout Efs Vfs VirtIOHeader VirtQueue VirtIODma VirtIOBlk.

(** The kernel's state, with what the block driver has. *)
Record boot : Type := mkBoot {
  bt_k : kernel;
  bt_frames : list Z;
  bt_hdr : VirtIOHeader;
  bt_queue : option (DMA * VirtQueue);
}.

Definition in_k {A} (f : K A) : M boot A := λ b,
  match f (bt_k b) with Ok (a, k) => Ok (a, mkBoot k (bt_frames b) (bt_hdr b) (bt_queue b)) | Stop e => Stop e end.
Definition in_virtio {A} (f : M bus A) : M boot A := λ b,
  match f (mkBus (k_mem (bt_k b)) (bt_frames b) (bt_hdr b)) with
  | Ok (a, x) => Ok (a, mkBoot (set_mem (b_mem x) (bt_k b)) (queue_frames x) (b_hdr x) (bt_queue b))
  | Stop e => Stop e
  end.

(** [MMIO] of boards/qemu.rs. *)
Definition MMIO : list (Z * Z) := [(0x10001000, 0x1000)].

(** [clear_bss]; [sbss] is a symbol of the linker script. *)
Definition clear_bss (sbss ebss : Z) : M mem () := store_bytes sbss (replicate (Z.to_nat (ebss - sbss)) 0).

(** [memory::init]. *)
Definition memory_init (syms : kernel_symbols) : K () :=
  in_mem (init_frame_allocator (ekernel syms)) ≫= λ _,
  in_mem frame_allocator_test ≫= λ _,
  in_mem (new_kernel syms MMIO) ≫= λ ms,
  modify_st (set_kernel_space ms) ≫= λ _,
  in_mem (remap_test syms ms).

(** [BLOCK_DEVICE], and [ROOT_INODE]. *)
Definition init_block_device (config_capacity : Z) : M boot () :=
  in_virtio (VirtIOBlock_new config_capacity) ≫= λ '(dma, q, _),
  modify_st (λ b, mkBoot (bt_k b) (bt_frames b) (bt_hdr b) (Some (dma, q))).
Definition init_root : K () :=
  in_fs efs_open ≫= λ efs,
  modify_st (λ k, set_fs (mkOsfs (disk (k_fs k)) (root_inode efs) (osinodes (k_fs k)) (next_file (k_fs k))) k).

(** [rust_main] before [run_tasks]; the result is what [list_apps] prints. *)
Definition rust_main (ElfFile_new : list Z → option ElfFile) (syms : kernel_symbols) (sbss : Z)
    (trap_handler trap_return config_capacity : Z) (fuel : nat) : M boot (list (list Z)) :=
  in_k (in_mem (clear_bss sbss (ebss syms))) ≫= λ _,
  in_k (memory_init syms) ≫= λ _,
  in_k set_next_trigger ≫= λ _,
  init_block_device config_capacity ≫= λ _,
  in_k init_root ≫= λ _,
  in_k list_apps ≫= λ apps,
  in_k (add_initproc ElfFile_new syms trap_handler trap_return fuel) ≫= λ _,
  mret apps.

(** The state the image starts with. *)
Definition boot_procs : procs := mkProcs PidAllocator_new ∅ 0 [] None None [].
