(* ===== verification/BootInv.v ===== *)
(** * BootInv: the kernel comes up

    Each phase of [rust_main] on a machine with enough memory and an image that
    holds initproc: memory, the block driver, the file system, initproc. *)

From stdpp Require Import base gmap list numbers.
From S2P Require Import Prelude Bytes Address FrameAllocator PageTable PageTableInv PageTableRep UserMem MemorySet AreaMap.
From S2P Require Import AreaCopy AddressSpace ForkSpace ElfSpace KernelSpace AllocOrder Pid KState Task OsFile Syscall.
From S2P Require Import Sched KKeeps KRefine OsSpec KFork KExec VirtIOHeader VirtQueue VirtQueueInv PhysBytes VirtIODma.
From S2P Require Import VirtIOBlk VirtIOBlkInv Boot.

(** ** The kernel's tables *)

(** Two pages with different top-level indexes need five tables. *)
Lemma five_tables m pt A v w e f :
  pt_rep m pt A → A !! v = Some e → A !! w = Some f → v / 512 / 512 ≠ w / 512 / 512 → (5 ≤ length (frames pt))%nat.
Proof.
  intros (kids & lvl & Hpt & Habs & Hrng) Hv Hw Hne.
  pose proof (Habs v (Hrng _ _ Hv)) as Av. pose proof (Habs w (Hrng _ _ Hw)) as Aw. rewrite Hv in Av. rewrite Hw in Aw.
  unfold pt_abs, leaf_of in Av, Aw.
  destruct (kids !! (root_ppn pt, v / 512 / 512)) as [p|] eqn:Ep; [|done]. cbn in Av. destruct (kids !! (p, _)) as [q|] eqn:Eq; [|done].
  destruct (kids !! (root_ppn pt, w / 512 / 512)) as [p'|] eqn:Ep'; [|done]. cbn in Aw. destruct (kids !! (p', _)) as [q'|] eqn:Eq'; [|done].
  assert (∀ i c, kids !! (root_ppn pt, i) = Some c → lvl !! c = Some 1) as L1.
  { intros i c Hc. destruct (pi_kid _ _ _ _ Hpt _ _ _ Hc) as (n & H1 & _ & H2). rewrite (pi_root _ _ _ _ Hpt) in H1. by injection H1 as <-. }
  assert (∀ a i c, lvl !! a = Some 1 → kids !! (a, i) = Some c → lvl !! c = Some 2) as L2.
  { intros a i c Ha Hc. destruct (pi_kid _ _ _ _ Hpt _ _ _ Hc) as (n & H1 & _ & H2). rewrite Ha in H1. by injection H1 as <-. }
  pose proof (pi_root _ _ _ _ Hpt) as L0. pose proof (L1 _ _ Ep) as Lp. pose proof (L1 _ _ Ep') as Lp'.
  pose proof (L2 _ _ _ Lp Eq) as Lq. pose proof (L2 _ _ _ Lp' Eq') as Lq'.
  assert (p ≠ p') as Hpp by (intros ->; pose proof (pi_inj _ _ _ _ Hpt _ _ _ Ep Ep'); congruence).
  assert (q ≠ q') as Hqq by (intros ->; pose proof (pi_inj _ _ _ _ Hpt _ _ _ Eq Eq'); congruence).
  apply (submseteq_length [root_ppn pt; p; p'; q; q']), NoDup_submseteq.
  - repeat (apply list.NoDup_cons; split; [rewrite ?elem_of_cons; intros H; decompose [or] H; subst; try congruence; by eapply elem_of_nil|]). constructor.
  - intros x. rewrite !elem_of_cons, elem_of_nil. intros H. apply (pi_frames _ _ _ _ Hpt).
    destruct H as [->|[->|[->|[->|[->|[]]]]]]; eauto.
Qed.

(** ** Memory *)

(** What the kernel is started with: sections that do not overlap and lie in
    the lower half of the address space, and the memory of the board. *)
Record bootable (syms : kernel_symbols) (sbss : Z) (m : mem) : Prop := {
  bo_secs : Forall sec_ok (kernel_sections syms MMIO);
  bo_low : Forall (λ s, sec_end s ≤ 2 ^ 38) (kernel_sections syms MMIO);
  bo_tramp : tramp_ok syms;
  bo_pages : NoDup (TRAMP_VPN :: pages_of (sec_push <$> kernel_sections syms MMIO));
  bo_parts : stext syms < etext syms ∧ srodata syms < erodata syms ∧ sdata syms < edata syms;
  bo_ekernel : 0 ≤ ekernel syms ≤ MEMORY_END - PAGE_SIZE;
  bo_frames x b : ram m !! x = Some b → frame_ok b;
  bo_ram x : ceil (ekernel syms) ≤ x < floor MEMORY_END → is_Some (ram m !! x);
  bo_bss : backed m sbss (Z.to_nat (ebss syms - sbss));
  bo_alloc : falloc m = SFA_new;
}.

Notation first_frame syms := (ceil (ekernel syms)).
Notation kernel_cost syms := (3 + areas_cost (sec_area <$> kernel_sections syms MMIO)).

Section memory.
Context (syms : kernel_symbols) (sbss : Z) (k : kernel) (Hbo : bootable syms sbss (k_mem k)).
Notation lo := (first_frame syms).
Notation memory_size := (floor MEMORY_END - lo).

Lemma lo_range : 0 ≤ lo < floor MEMORY_END ∧ floor MEMORY_END = 526336.
Proof using Hbo.
  pose proof (bo_ekernel _ _ _ Hbo) as He. change MEMORY_END with 2155872256 in He. change PAGE_SIZE with 4096 in He.
  change (floor MEMORY_END) with 526336. pose proof (ceil_bounds (ekernel syms) ltac:(change (2 ^ 63) with 9223372036854775808; lia)). lia.
Qed.

Lemma clear_bss_run : ∃ m, clear_bss sbss (ebss syms) (k_mem k) = Ok ((), m) ∧ bootable syms sbss m.
Proof using Hbo.
  destruct (store_bytes_run (replicate (Z.to_nat (ebss syms - sbss)) 0) (k_mem k) sbss) as (m & Hrun & Hst).
  { rewrite length_replicate. apply Hbo. }
  destruct (store_bytes_keeps _ _ _ _ Hrun) as (H1 & H2 & H3); [by apply Forall_replicate|apply Hbo|].
  exists m. split; [exact Hrun|]. destruct Hbo as [? ? ? ? ? ? ? Hr Hb Ha]. split; try done.
  - intros x Hx. by apply H3, Hr.
  - by eapply backed_stored.
  - congruence.
Qed.

Lemma init_frames_run : ∃ m, init_frame_allocator (ekernel syms) (k_mem k) = Ok ((), m) ∧ mem_ok m lo ∅ ∧
  free_frames m lo ∅ = memory_size ∧ FrameAllocator.current (falloc m) = lo ∧ recycled (falloc m) = [] ∧ end_ (falloc m) = floor MEMORY_END.
Proof using Hbo.
  pose proof lo_range as [Hlo Hme]. pose proof (bo_ekernel _ _ _ Hbo) as He. change MEMORY_END with 2155872256 in He. change PAGE_SIZE with 4096 in He.
  assert (PhysAddr_from (ekernel syms) = ekernel syms) as E1.
  { unfold PhysAddr_from. change PA_WIDTH_SV39 with 56. rewrite land_ones_mod by done. apply Z.mod_small. change (2 ^ 56) with 72057594037927936. lia. }
  assert (PhysAddr_from MEMORY_END = MEMORY_END) as E2 by done.
  eexists. split; [reflexivity|]. rewrite (bo_alloc _ _ _ Hbo), E1, E2. unfold SFA_init, free_frames. cbn [falloc FrameAllocator.current end_ recycled SFA_new ram].
  split_and!; try done; [|rewrite size_empty; lia]. split; cbn [falloc ram].
  - split; cbn [FrameAllocator.current end_ recycled]; [change (2 ^ 44) with 17592186044416; lia|constructor|by intros x ?%elem_of_nil|].
    intros x. split; [by intros ?%elem_of_empty|lia].
  - apply Hbo.
  - apply Hbo.
Qed.

(** Pages of the kernel's sections, the last one of memory among them. *)
Lemma kernel_tables m U ms :
  ms_inv m lo U [tramp_entry syms] ms → Forall2 (filled m) (sec_push <$> kernel_sections syms MMIO) (areas ms) →
  (5 ≤ length (frames (page_table ms)))%nat.
Proof using Hbo.
  intros Hinv Hfill. pose proof (bo_ekernel _ _ _ Hbo) as He. set (s := mkSec (ekernel syms) MEMORY_END RW).
  assert (s ∈ kernel_sections syms MMIO) as Hs by (unfold kernel_sections; elt).
  apply (list_elem_of_fmap_2 sec_push) in Hs. apply list_elem_of_lookup in Hs as [j Hj].
  destruct (Forall2_lookup_l _ _ _ _ _ Hfill Hj) as (a & Ha & [F1 F2 F3 _]). apply list_elem_of_lookup_2 in Ha.
  assert (526335 ∈ area_pages (sec_area s)) as Hv.
  { apply elem_of_seqZ. cbn [sec_area sec_start sec_end s vpn_range range_l range_r]. change (ceil MEMORY_END) with 526336.
    change MEMORY_END with 2155872256 in He. change PAGE_SIZE with 4096 in He. destruct (addr_split (ekernel syms)). lia. }
  eapply (five_tables m (page_table ms) (ms_map [tramp_entry syms] ms) TRAMP_VPN 526335); [apply (mi_rep _ _ _ _ _ Hinv)| | |done].
  - apply elem_of_list_to_map_1; [apply (mi_keys _ _ _ _ _ Hinv)|]. unfold ms_entries. apply elem_of_app. right. by apply list_elem_of_singleton.
  - eapply area_mapped; [exact Hinv|exact Ha|]. unfold area_maps, area_entries, backing. rewrite F2. cbn [map_type sec_push sec_area fst].
    assert (area_pages a = area_pages (sec_area s)) as -> by (unfold area_pages; by rewrite F1).
    apply list_elem_of_lookup in Hv as [i Hi]. apply list_elem_of_lookup_2 with i. by rewrite lookup_zip_with, list_lookup_fmap, Hi.
Qed.

Lemma memory_init_run :
  kernel_cost syms ≤ memory_size → 5 ≤ memory_size →
  ∃ m' ms nf, memory_init syms k = Ok ((), set_kernel_space ms (set_mem m' k)) ∧
    ms_inv m' lo (list_to_set nf) [tramp_entry syms] ms ∧ NoDup nf ∧ owned ms ≡ₚ nf ∧
    Forall2 (filled m') (sec_push <$> kernel_sections syms MMIO) (areas ms) ∧
    Z.of_nat (length nf) ≤ kernel_cost syms ∧ recycled (falloc m') = [] ∧ end_ (falloc m') = floor MEMORY_END.
Proof using Hbo.
  intros Hcost H5. pose proof lo_range as [Hlo Hme]. destruct (bo_parts _ _ _ Hbo) as (P1 & P2 & P3).
  destruct init_frames_run as (m1 & R1 & Hok1 & Hf1 & Hc1 & Hr1 & He1).
  pose proof (areas_cost_nonneg (sec_area <$> kernel_sections syms MMIO)) as Hnn.
  destruct (frame_allocator_test_spec lo m1 ∅ Hok1) as (m2 & R2 & Hok2 & Hf2 & Hc2); [lia|rewrite size_empty; lia|]. rewrite size_empty in Hc2.
  destruct (new_kernel_spec syms MMIO (bo_secs _ _ _ Hbo) (bo_tramp _ _ _ Hbo) m2 lo ∅ Hok2 (bo_pages _ _ _ Hbo) ltac:(lia))
    as (m3 & ms & nf & R3 & Hinv & Hg & Hown & Hfill & Hn).
  rewrite (right_id_L ∅ (∪)) in Hinv. exists m3, ms, nf.
  assert (remap_test syms ms m3 = Ok ((), m3)) as R4.
  { eapply remap_test_passes; [apply Hbo| |done..]. intros s v Hs Hv.
    apply (list_elem_of_fmap_2 sec_push) in Hs. apply list_elem_of_lookup in Hs as [j Hj].
    destruct (Forall2_lookup_l _ _ _ _ _ Hfill Hj) as (a & Ha & Hfa). apply list_elem_of_lookup_2 in Ha. eapply identity_view; eauto. }
  pose proof (allocs_new_kernel _ _ _ _ _ R3) as Hao.
  split_and!; [|done|apply Hg|done|done|done| |].
  - unfold memory_init. run (in_mem_run _ k _ _ R1). run (in_mem_run _ (set_mem m1 k) _ _ R2). run (in_mem_run _ (set_mem m2 (set_mem m1 k)) _ _ R3).
    rewrite (M_bind_run _ _ _ () (set_kernel_space ms (set_mem m3 k))) by done.
    rewrite (in_mem_run _ (set_kernel_space ms (set_mem m3 k)) _ _ R4). done.
  - eapply recycled_used; [exact Hao|apply (mi_mem _ _ _ _ _ Hinv)|]. rewrite size_list_to_set by apply Hg.
    rewrite <- Hown. unfold owned. rewrite length_app. pose proof (kernel_tables _ _ _ Hinv Hfill). lia.
  - rewrite (ao_end _ _ Hao). unfold free_frames in Hf2. rewrite size_empty in Hf2. unfold free_frames in Hf1. rewrite size_empty in Hf1. lia.
Qed.
End memory.

(** ** The block driver *)
Lemma frames_left m lo U : mem_ok m lo U → recycled (falloc m) = [] →
  FrameAllocator.current (falloc m) = lo + Z.of_nat (size U) ∧ free_frames m lo U = end_ (falloc m) - FrameAllocator.current (falloc m).
Proof.
  intros Hok Hr. pose proof (fa_count _ _ _ (mo_alloc _ _ _ Hok)) as Hc. rewrite Hr in Hc. cbn in Hc. unfold free_frames. lia.
Qed.

Lemma dma_grows m lo U m' :
  let c := FrameAllocator.current (falloc m) in
  mem_ok m lo U → recycled (falloc m) = [] → mem_ok m' lo ({[c; c + 1]} ∪ U) → end_ (falloc m') = end_ (falloc m) →
  (∀ x, x ≠ c → x ≠ c + 1 → ram m' !! x = ram m !! x) → grows lo m U m' [c; c + 1] [].
Proof.
  intros c Hok Hr Hok' He Hram.
  assert (∀ x, x ∈ [c; c + 1] → x ∉ U) as Hnew.
  { intros x Hx Hin. apply (fa_used _ _ _ (mo_alloc _ _ _ Hok)) in Hin as [Hin _].
    rewrite !elem_of_cons in Hx. destruct Hx as [->|[->|[]%elem_of_nil]]; unfold c in *; lia. }
  assert (list_to_set [c; c + 1] ∪ U = {[c; c + 1]} ∪ U) as HU by set_solver.
  assert (NoDup [c; c + 1]) as Hnd by (apply list.NoDup_cons; split; [rewrite list_elem_of_singleton; lia|apply NoDup_singleton]).
  split; rewrite ?HU; try done.
  - rewrite <- HU. unfold free_frames. rewrite He, size_union, size_list_to_set by (done || (intros x Hx%elem_of_list_to_set Hx2; exact (Hnew x Hx Hx2))). cbn [length]. lia.
  - intros x _ Hx. rewrite !not_elem_of_cons in Hx. destruct Hx as (H1 & H2 & _). exact (Hram x H1 H2).
Qed.

(** A device that has not been set up and has a queue of 16 entries. *)
Record fresh_device (h : VirtIOHeader) : Prop := {
  fd_features : in_u 64 (device_features h);
  fd_unused : pfn_of 0 (written h) = 0;
  fd_size : 16 ≤ queue_num_max h 0;
}.

Lemma block_device_run cap b lo U ktr :
  let k := bt_k b in let c := FrameAllocator.current (falloc (k_mem k)) in
  ms_inv (k_mem k) lo U ktr (kernel_space k) → recycled (falloc (k_mem k)) = [] →
  end_ (falloc (k_mem k)) ≤ 2 ^ 20 → 0 < c → 2 ≤ free_frames (k_mem k) lo U → fresh_device (bt_hdr b) →
  ∃ m' h' q, init_block_device cap b = Ok ((), mkBoot (set_mem m' k) (bt_frames b ++ [c; c + 1]) h' (Some (mkDMA (4096 * c) 2, q))) ∧
    ms_inv m' lo (list_to_set [c; c + 1] ∪ U) ktr (kernel_space k) ∧ grows lo (k_mem k) U m' [c; c + 1] [] ∧
    ∀ T (dev : T), blk_ready (mkMachine (mkBus m' (bt_frames b ++ [c; c + 1]) h') q cap dev).
Proof.
  intros k c Hinv Hr He Hc Hf [D1 D2 D3]. pose proof (mi_mem _ _ _ _ _ Hinv) as Hok. destruct (frames_left _ _ _ Hok Hr) as [_ Hfl].
  set (x := mkBus (k_mem k) (bt_frames b) (bt_hdr b)).
  destruct (VirtIOBlk_new_run cap x lo U D1 Hok Hr Hc ltac:(unfold x; cbn; fold c in Hfl |- *; lia) He D2 D3) as (m' & q & Hrun & Hok' & Hfa & Hram & Hready).
  cbn [x b_mem queue_frames b_hdr] in Hrun, Hok', Hfa, Hram, Hready. fold c in Hrun, Hok', Hfa, Hram, Hready. fold x in Hrun.
  assert (grows lo (k_mem k) U m' [c; c + 1] []) as Hg by (apply dma_grows; [exact Hok|exact Hr|exact Hok'|by rewrite Hfa|exact Hram]).
  eexists m', _, q. split_and!; [| |exact Hg|exact Hready].
  - unfold init_block_device. rewrite (M_bind_run _ _ _ (mkDMA (4096 * c) 2, q, cap)
      (mkBoot (set_mem m' k) (bt_frames b ++ [c; c + 1]) (add_writes ((status, 4) :: queue_writes 0 16 c ++ init_writes) (bt_hdr b)) (bt_queue b))).
    + reflexivity.
    + unfold in_virtio, VirtIOBlock_new. fold k x. run Hrun. reflexivity.
  - eapply ms_inv_grows; [exact Hinv|exact Hg|]. intros y _. apply not_elem_of_nil.
Qed.

(** ** initproc *)
Lemma union_list_app (l1 l2 : list Z) (U : gset Z) : list_to_set l2 ∪ (list_to_set l1 ∪ U) = list_to_set (l1 ++ l2) ∪ U.
Proof. rewrite list_to_set_app_L. set_solver. Qed.

Section initproc.
Context (ElfFile_new : list Z → option ElfFile) (syms : kernel_symbols) (th tr : Z).
Context (k : kernel) (lo : Z) (U : gset Z) (ktr : list (Z * Z)) (input : list Z) (elf : ElfFile) (segs : list ProgramHeader).
Hypothesis Htr : tramp_ok syms.
Hypothesis Hks : ms_inv (k_mem k) lo U ktr (kernel_space k).
Hypothesis Hpids : pids (k_procs k) = PidAllocator_new.
Hypothesis Hel : executable_image ElfFile_new input elf segs.
Hypothesis Hfresh : ∀ v, v ∈ area_pages (kstack_area 0) → v ∉ (ms_entries ktr (kernel_space k)).*1.
Hypothesis Hfree : 3 + areas_cost (elf_layout input segs).*1 + area_cost (kstack_area 0) ≤ free_frames (k_mem k) lo U.

(** Its control block, and the context it starts with. *)
Definition first_tcb (f : Z) (ms : MemorySet) : TCB :=
  mkTCB 0 f (user_stack_top segs) (Fresh (goto_trap_return tr (get_top 0))) Ready ms None [] 0
    [Some Stdin; Some Stdout; Some Stdout].
Definition first_cx (ks : MemorySet) : TrapContext :=
  app_init_context (sstatus (k_mach k)) (elf_entry_point elf) (user_stack_top segs) (ms_token ks) (get_top 0) th.

(** The memory initproc is given: its own space, and a kernel stack. *)
Record first_space (m2 : mem) (ks : MemorySet) (ms : MemorySet) (f : Z) (b : list Z) (nf : list Z) : Prop := {
  fs_user : ms_inv m2 lo (list_to_set nf ∪ U) [tramp_entry syms] ms;
  fs_kernel : ms_inv m2 lo (list_to_set nf ∪ U) ktr ks;
  fs_new x : x ∈ nf → x ∉ U;
  fs_apart x : x ∈ frames (page_table ks) → x ∉ owned ms;
  fs_filled : Forall2 (filled m2) (elf_layout input segs) (areas ms);
  fs_cx : ∃ acx, acx ∈ areas ms ∧ map_type acx = Framed ∧ cx_vpn ∈ area_pages acx;
  fs_find : find_trap_cx ms m2 = Ok (f, m2);
  fs_frame : f ∈ data_owned (areas ms) ∧ ram m2 !! f = Some b;
}.

Lemma first_spaces :
  ∃ m1 m2 ks ms f b nf, from_elf ElfFile_new syms input (k_mem k) = Ok ((ms, user_stack_top segs, elf_entry_point elf), m1) ∧
    find_trap_cx ms m1 = Ok (f, m1) ∧
    (∀ q, KernelStack_new 0 (mkK m1 (kernel_space k) q (k_fs k) (k_mach k)) = Ok ((), mkK m2 ks q (k_fs k) (k_mach k))) ∧
    first_space m2 ks ms f b nf.
Proof using Htr Hks Hel Hfresh Hfree.
  assert (0 ≤ area_cost (kstack_area 0)) as Hk0 by (vm_compute; done).
  destruct (new_image ElfFile_new syms (k_mem k) lo U input elf segs (mi_mem _ _ _ _ _ Hks) Htr Hel ltac:(lia))
    as (m1 & ms & nf1 & f & b & acx & R1 & I1 & G1 & Hown & Hfill & Ha & Hty & Hcx & Hfind & Hf & Hb & Hc).
  assert (ms_inv m1 lo (list_to_set nf1 ∪ U) ktr (kernel_space k)) as Ik
    by (eapply ms_inv_grows; [exact Hks|exact G1|intros ? _; apply not_elem_of_nil]).
  set (k1 := mkK m1 (kernel_space k) (k_procs k) (k_fs k) (k_mach k)).
  destruct (KernelStack_new_spec k1 lo (list_to_set nf1 ∪ U) ktr 0 Ik) as (m2 & ks & nf2 & R2 & I2 & G2 & Hfr); [by split|exact Hfresh| |].
  { cbn [k1 k_mem]. rewrite (gw_free _ _ _ _ _ _ G1). lia. }
  cbn [k1 k_mem kernel_space] in G2, Hfr, R2.
  assert (∀ x, x ∈ owned ms → x ∉ frames (page_table (kernel_space k)) ∧ x ∉ nf2) as Hsep.
  { intros x Hx. rewrite Hown in Hx. split; intros Hin.
    - apply (gw_new _ _ _ _ _ _ G1 x Hx). apply (mi_owned _ _ _ _ _ Hks). unfold owned. elt.
    - apply (gw_new _ _ _ _ _ _ G2 x Hin). apply elem_of_union. left. apply elem_of_list_to_set. exact Hx. }
  pose proof (union_list_app nf1 nf2 U) as HU.
  rewrite HU in I2. assert (ms_inv m2 lo (list_to_set (nf1 ++ nf2) ∪ U) [tramp_entry syms] ms) as Iu.
  { rewrite <- HU. eapply ms_inv_grows; [exact I1|exact G2|]. intros x Hx. apply Hsep. unfold owned. elt. }
  assert (∀ x, x ∈ owned ms → ram m2 !! x = ram m1 !! x) as Hram by (intros x Hx; destruct (Hsep x Hx); apply (gw_ram _ _ _ _ _ _ G2); assumption).
  exists m1, m2, ks, ms, f, b, (nf1 ++ nf2). split_and!; [exact R1|exact Hfind| |split].
  - intros q. unfold KernelStack_new in *. destruct (kernel_stack_position 0). unfold in_kernel_space in *. cbn [kernel_space k_mem k1] in *.
    destruct (insert_framed_area _ _ _ _ m1) as [[ms' m']|]; [|done]. by injection R2 as <- <-.
  - exact Iu.
  - exact I2.
  - intros x [Hx|Hx]%elem_of_app; [exact (gw_new _ _ _ _ _ _ G1 x Hx)|].
    intros Hin. apply (gw_new _ _ _ _ _ _ G2 x Hx), elem_of_union. right. exact Hin.
  - intros x Hx Ho. destruct (Hsep x Ho) as [H1 H2]. destruct (Hfr x Hx) as [E|E]; [exact (H1 E)|exact (H2 E)].
  - apply Forall2_same_length_lookup. split; [by eapply Forall2_length|]. intros j p a Hp Hpa.
    eapply filled_mono; [by eapply Forall2_lookup_lr|]. intros g Hg. apply Hram. unfold owned. apply elem_of_app. right.
    eapply area_in_owned; [by eapply list_elem_of_lookup_2|exact Hg].
  - exists acx. split; [exact Ha|split; [exact Hty|exact Hcx]].
  - destruct (find_trap_cx_spec _ _ _ _ _ _ Iu Ha Hty Hcx) as (f2 & _ & Hi2 & Hfind2).
    destruct (find_trap_cx_spec _ _ _ _ _ _ I1 Ha Hty Hcx) as (f3 & _ & Hi3 & Hfind3). rewrite Hfind in Hfind3.
    injection Hfind3 as <-. rewrite Hi2 in Hi3. by injection Hi3 as <-.
  - split; [exact Hf|]. rewrite Hram; [exact Hb|]. unfold owned. elt.
Qed.

Lemma first_task_run :
  ∃ m2 ks ms f b nf, first_space m2 ks ms f b nf ∧ frame_ok (splice 0 (cx_bytes (first_cx ks)) b) ∧
    TaskControlBlock_new ElfFile_new syms th tr input k = Ok (first_tcb f ms,
      mkK (set_ram (<[f := splice 0 (cx_bytes (first_cx ks)) b]> (ram m2)) m2) ks
        (set_pids (mkPids 1 []) (k_procs k)) (k_fs k) (k_mach k)).
Proof using All.
  destruct first_spaces as (m1 & m2 & ks & ms & f & b & nf & R1 & R2 & R3 & Hfs). exists m2, ks, ms, f, b, nf. split; [exact Hfs|].
  pose proof (fs_user _ _ _ _ _ _ Hfs) as Iu. destruct (fs_frame _ _ _ _ _ _ Hfs) as [Hfd Hbf].
  assert (f ∈ owned ms) as Hfo by (unfold owned; elt).
  pose proof (used_range _ _ _ _ _ Iu f (mi_owned _ _ _ _ _ Iu f Hfo)) as Hr.
  destruct (store_cx_spec m2 _ _ f b (sstatus (k_mach k)) (elf_entry_point elf) (user_stack_top segs) (ms_token ks) (get_top 0) th
    (mi_mem _ _ _ _ _ Iu) Hr Hbf) as [Hst Hok]. split; [exact Hok|].
  unfold TaskControlBlock_new. rewrite (M_bind_run _ _ _ _ _ (in_mem_run _ k _ _ R1)).
  rewrite (M_bind_run _ _ _ _ _ (in_mem_run _ (set_mem m1 k) _ _ R2)).
  set (p1 := set_pids (mkPids 1 []) (k_procs k)). set (k1 := mkK m1 (kernel_space k) p1 (k_fs k) (k_mach k)).
  rewrite (M_bind_run _ _ _ 0 k1).
  2: { unfold in_procs, pid_alloc. cbn [set_mem k_procs]. rewrite Hpids. reflexivity. }
  rewrite (M_bind_run _ _ _ _ _ (R3 p1)). set (k2 := mkK m2 ks p1 (k_fs k) (k_mach k)).
  rewrite (M_bind_run _ _ _ (sstatus (k_mach k)) k2) by reflexivity.
  rewrite (M_bind_run _ _ _ (ms_token ks) k2) by reflexivity.
  rewrite (M_bind_run _ _ _ _ _ (in_mem_run _ k2 _ _ Hst)). reflexivity.
Qed.
End initproc.
