(* ===== verification/BootProps.v ===== *)
(** * BootProps: the kernel comes up, from power-on to the first process *)

From stdpp Require Import base gmap list numbers.
From S2P Require Import Prelude Bytes Address FrameAllocator PageTable PageTableInv PageTableRep UserMem MemorySet AreaMap.
From S2P Require Import AreaCopy AddressSpace ForkSpace ElfSpace KernelSpace AllocOrder Pid KState Task OsFile Syscall.
From S2P Require Import BlockIO Layout Efs Vfs FsDir Fs FsFormat FsPack FsImage.
From S2P Require Import Sched KKeeps KRefine OsSpec KFork KExec MemProps FsProps ProcProps VirtIOHeader VirtQueue VirtQueueInv PhysBytes VirtIODma.
From S2P Require Import VirtIOBlk VirtIOBlkInv Boot BootInv.

(** ** The pieces *)
Lemma in_k_run {A} (f : K A) b a k : f (bt_k b) = Ok (a, k) → in_k f b = Ok (a, mkBoot k (bt_frames b) (bt_hdr b) (bt_queue b)).
Proof. unfold in_k. by intros ->. Qed.

(** The first process alone. *)
Definition first_procs (t : TCB) : procs := mkProcs (mkPids 1 []) {[0 := t]} 1 [0] None (Some 0) [].

Lemma first_procs_inv t : view_of t = mkView 0 Ready None [] → procs_inv (first_procs t).
Proof.
  intros Ht. destruct (one_inv Ready) as [Hs _]; [done|]. split; [|done].
  replace (abs (first_procs t)) with (abs (one Ready)); [done|]. unfold abs, first_procs, one. cbn [pids tasks next_task ready_queue current initproc].
  by rewrite !map_fmap_singleton, Ht.
Qed.

(** No section reaches the kernel stacks. *)
Lemma stack_free syms sbss m ms m0 v :
  bootable syms sbss m0 → Forall2 (filled m) (sec_push <$> kernel_sections syms MMIO) (areas ms) →
  v ∈ area_pages (kstack_area 0) → v ∉ (ms_entries [tramp_entry syms] ms).*1.
Proof.
  intros Hbo Hfill Hv Hin. apply elem_of_seqZ in Hv. change (stack_vpn 0) with 134217725 in Hv. cbn [vpn_range range_l range_r kstack_area] in Hv.
  change (stack_vpn 0) with 134217725 in Hv. apply list_elem_of_fmap in Hin as ([v' e] & -> & Hin). cbn [fst] in Hv.
  unfold ms_entries in Hin. apply elem_of_app in Hin as [Hin|Hin].
  - apply elem_of_concat in Hin as (l & Hvl & Hl). apply list_elem_of_fmap in Hl as (a & -> & Ha). apply elem_of_zip_l in Hvl.
    apply list_elem_of_lookup in Ha as [i Hi]. destruct (Forall2_lookup_r _ _ _ _ _ Hfill Hi) as (p & Hp & [F1 _ _ _]).
    rewrite list_lookup_fmap in Hp. destruct (kernel_sections syms MMIO !! i) as [s|] eqn:Hs; [|done]. injection Hp as <-.
    pose proof (list.Forall_lookup_1 _ _ _ _ (bo_low _ _ _ Hbo) Hs) as Hlow. pose proof (list.Forall_lookup_1 _ _ _ _ (bo_secs _ _ _ Hbo) Hs) as (H1 & H2 & _).
    cbn beta in Hlow. change (2 ^ 38) with 274877906944 in Hlow. unfold area_pages in Hvl. rewrite F1 in Hvl. apply elem_of_seqZ in Hvl. cbn in Hvl.
    pose proof (ceil_bounds (sec_end s) ltac:(change (2 ^ 63) with 9223372036854775808; lia)). lia.
  - apply list_elem_of_singleton in Hin. injection Hin as -> _. change TRAMP_VPN with 134217727 in Hv. lia.
Qed.

(** Root inode and names, from the image. *)
Lemma image_root k apps :
  image (disk (k_fs k)) 32768 1 apps → let e := layout_of 32768 1 in
  ∃ D F u k', init_root k = Ok ((), k') ∧ os_rep k' e 32768 D F u ∧ list_apps k' = Ok (apps.*1, k') ∧
    k_mem k' = k_mem k ∧ kernel_space k' = kernel_space k ∧ k_procs k' = k_procs k ∧ k_mach k' = k_mach k ∧
    (NoDup apps.*1 → ∀ name data, (name, data) ∈ apps → ∃ n, dir_find name D = Some n ∧ F !! n = Some data).
Proof.
  intros ((b & Hb & Hlb & Hsb) & ids & F & u & Hrep & Hl & Hst) e.
  assert (formattable 32768 1) as Hf by done.
  set (k' := set_fs (mkOsfs (disk (k_fs k)) (root_inode e) (osinodes (k_fs k)) (next_file (k_fs k))) k).
  exists (zip apps.*1 ids), F, u, k'. split_and!; try done.
  - unfold init_root. run (in_fs_same efs_open k _ (efs_open_spec _ _ _ _ Hf Hb Hlb Hsb)). reflexivity.
  - unfold list_apps. rewrite (M_bind_run _ _ _ (root_inode e) k') by done.
    rewrite (in_fs_same (ls (root_inode e)) k' _ (rep_ls _ _ _ _ _ _ Hrep)). by rewrite fst_zip_names.
  - intros Hnd name data [i Hi]%list_elem_of_lookup. destruct (Forall2_lookup_l _ _ _ _ _ Hst Hi) as (id & Hid & HF).
    exists id. split; [|exact HF]. eapply dir_find_zip; [done| |done]. by rewrite list_lookup_fmap, Hi.
Qed.

(** The end of [add_initproc]: the block is stored, named and queued. *)
Lemma add_initproc_run ElfFile_new syms th tr fuel k k1 k2 id input t :
  open_file initproc_name 0 k = Ok (Some id, k1) → read_all fuel id k1 = Ok (input, k2) → k_procs k2 = boot_procs →
  ∀ k3, TaskControlBlock_new ElfFile_new syms th tr input k2 = Ok (t, k3) → k_procs k3 = set_pids (mkPids 1 []) boot_procs →
  add_initproc ElfFile_new syms th tr fuel k = Ok ((), set_procs (first_procs t) k3).
Proof.
  intros H1 H2 Hp k3 H3 Hp3. unfold add_initproc. run H1. rewrite M_unwrap_bind. run H2. run H3.
  destruct k3 as [m ks p f x]. cbn in Hp3. subst p. reflexivity.
Qed.

(** What initproc finds when it is started. *)
Record started (syms : kernel_symbols) (th : Z) (k : kernel) (t : TCB) (input : list Z) (elf : ElfFile) (segs : list ProgramHeader) : Prop := {
  sd_space : ∃ U, ms_inv (k_mem k) (first_frame syms) U [tramp_entry syms] (memory_set t) ∧
    ms_inv (k_mem k) (first_frame syms) U [tramp_entry syms] (kernel_space k);
  sd_apart x : x ∈ frames (page_table (kernel_space k)) → x ∉ owned (memory_set t);
  sd_context : ∃ b, ram (k_mem k) !! trap_cx_ppn t = Some b ∧
    slice 0 296 b = cx_bytes (app_init_context (sstatus (k_mach k)) (elf_entry_point elf) (user_stack_top segs)
      (ms_token (kernel_space k)) (get_top 0) th);
  sd_bytes ph va : ph ∈ segs → floor va ∈ area_pages (seg_area ph) →
    user_byte (k_mem k) (ms_map [tramp_entry syms] (memory_set t)) va =
      Some (default 0 (seg_data input ph !! Z.to_nat (va - 4096 * floor (ph_virtual_addr ph))));
}.

Lemma first_started syms th tr k lo U ktr input elf segs m2 ks ms f b nf q :
  lo = first_frame syms → ktr = [tramp_entry syms] → NoDup (pages_of (elf_layout input segs)) →
  first_space syms lo U ktr input segs m2 ks ms f b nf →
  frame_ok (splice 0 (cx_bytes (first_cx th k elf segs ks)) b) →
  started syms th (mkK (set_ram (<[f := splice 0 (cx_bytes (first_cx th k elf segs ks)) b]> (ram m2)) m2) ks q (k_fs k) (k_mach k))
    (first_tcb tr segs f ms) input elf segs.
Proof.
  intros -> -> Hnd [I1 I2 Hn Hap Hfill (acx & Ha & Hty & Hcx) Hfind (Hfd & Hbf)] Hok.
  assert (is_Some (ram m2 !! f)) as Hsf by eauto. assert (f ∈ owned ms) as Hfo by (unfold owned; elt).
  split; cbn [k_mem kernel_space memory_set first_tcb trap_cx_ppn k_mach].
  - exists (list_to_set nf ∪ U). split; (apply ms_inv_put; [done|done| |done]).
    + pose proof (mi_nodup _ _ _ _ _ I1) as Hnd1. unfold owned in Hnd1. apply list.NoDup_app in Hnd1 as (_ & Hd & _). intros Hin. by apply (Hd f).
    + intros Hin. by apply (Hap f).
  - exact Hap.
  - eexists. split; [cbn [ram set_ram]; apply lookup_insert_eq|].
    destruct (init_context_bytes (sstatus (k_mach k)) (elf_entry_point elf) (user_stack_top segs) (ms_token ks) (get_top 0) th) as [_ Hl].
    change (app_init_context _ _ _ _ _ _) with (first_cx th k elf segs ks) in Hl |- *. rewrite <- Hl. apply slice_splice_eq. lia.
  - intros ph va Hph Hva. apply (list_elem_of_fmap_2 (seg_push input)) in Hph as Hl.
    assert (seg_push input ph ∈ elf_layout input segs) as [j Hj]%list_elem_of_lookup by (unfold elf_layout; elt).
    destruct (Forall2_lookup_l _ _ _ _ _ Hfill Hj) as (a & Haa & Hfa). apply list_elem_of_lookup_2 in Haa.
    rewrite (cx_write_view m2 _ _ _ ms acx a f _ va I1 Ha Hty Hcx Hfind Haa).
    + by apply (filled_view _ _ _ _ _ _ _ va I1 Haa Hfa).
    + by rewrite (fi_type _ _ _ Hfa).
    + unfold area_pages. by rewrite (fi_range _ _ _ Hfa).
    + eapply seg_not_cx; [exact Hnd|done|done].
Qed.

(** ** Boot *)

(** Everything the kernel needs to come up. *)
Record boots_from (ElfFile_new : list Z → option ElfFile) (syms : kernel_symbols) (sbss : Z) (b : boot)
    (apps : list (list Z * list Z)) (input : list Z) (elf : ElfFile) (segs : list ProgramHeader) : Prop := {
  bf_memory : bootable syms sbss (k_mem (bt_k b));
  bf_procs : k_procs (bt_k b) = boot_procs;
  bf_device : fresh_device (bt_hdr b);
  bf_image : image (disk (k_fs (bt_k b))) 32768 1 apps;
  bf_names : NoDup apps.*1;
  bf_initproc : (initproc_name, input) ∈ apps;
  bf_program : executable_image ElfFile_new input elf segs;
  bf_frames : kernel_cost syms + 2 + (3 + areas_cost (elf_layout input segs).*1) + area_cost (kstack_area 0)
    ≤ floor MEMORY_END - first_frame syms;
}.

(** The state before the file system is used. *)
Lemma boot_memory_run ElfFile_new syms sbss b apps input elf segs cap :
  boots_from ElfFile_new syms sbss b apps input elf segs →
  ∃ m ms U h' q fs x, let k := mkK m ms boot_procs (k_fs (bt_k b)) x in
    (∀ A (g : () → M boot A), (in_k (in_mem (clear_bss sbss (ebss syms))) ≫= λ _, in_k (memory_init syms) ≫= λ _,
       in_k set_next_trigger ≫= λ _, init_block_device cap ≫= g) b = g () (mkBoot k fs h' (Some q))) ∧
    ms_inv m (first_frame syms) U [tramp_entry syms] ms ∧ sstatus x = sstatus (k_mach (bt_k b)) ∧
    (∀ v, v ∈ area_pages (kstack_area 0) → v ∉ (ms_entries [tramp_entry syms] ms).*1) ∧
    3 + areas_cost (elf_layout input segs).*1 + area_cost (kstack_area 0) ≤ free_frames m (first_frame syms) U ∧
    ∀ T (dev : T), blk_ready (mkMachine (mkBus m fs h') q.2 cap dev).
Proof.
  intros [Hbo Hp Hd _ _ _ _ Hfr]. pose proof (areas_cost_nonneg (sec_area <$> kernel_sections syms MMIO)) as N1.
  pose proof (areas_cost_nonneg (elf_layout input segs).*1) as N2. assert (0 ≤ area_cost (kstack_area 0)) as N3 by (vm_compute; done).
  destruct (clear_bss_run syms sbss (bt_k b) Hbo) as (m1 & R1 & Hbo1).
  set (k1 := set_mem m1 (bt_k b)).
  destruct (memory_init_run syms sbss k1 Hbo1 ltac:(lia) ltac:(lia)) as (m2 & ms & nf & R2 & Hinv & Hnd & Hown & Hfill & Hn & Hr & He).
  set (k2 := set_kernel_space ms (set_mem m2 k1)). destruct (set_next_trigger k2) as [[[] k3]|] eqn:R3; [|done].
  pose proof R3 as R3'. injection R3' as Hk3.
  set (b3 := mkBoot k3 (bt_frames b) (bt_hdr b) (bt_queue b)).
  assert (k_mem k3 = m2 ∧ kernel_space k3 = ms) as [Em Es] by (subst k3; done).
  destruct (frames_left m2 _ _ (mi_mem _ _ _ _ _ Hinv) Hr) as [Hc Hfl]. rewrite size_list_to_set in Hc by done.
  pose proof (kernel_tables syms sbss k1 Hbo1 _ _ _ Hinv Hfill) as H5. pose proof (Permutation_length Hown) as Hlen. unfold owned in Hlen. rewrite length_app in Hlen.
  pose proof (lo_range syms sbss k1 Hbo1) as [Hlo Hme].
  assert (ms_inv (k_mem (bt_k b3)) (first_frame syms) (list_to_set nf) [tramp_entry syms] (kernel_space (bt_k b3))) as Hinv3 by (cbn [b3 bt_k]; by rewrite Em, Es).
  destruct (block_device_run cap b3 (first_frame syms) (list_to_set nf) [tramp_entry syms] Hinv3) as (m4 & h' & q & R4 & Hinv4 & Hg & Hready);
    cbn [b3 bt_k bt_hdr bt_frames] in *; rewrite ?Em; [done|rewrite He, Hme; change (2 ^ 20) with 1048576; lia|lia|rewrite Hfl, He; lia|exact Hd|].
  eexists m4, ms, _, h', (mkDMA (4096 * FrameAllocator.current (falloc (k_mem k3))) 2, q), _, (k_mach k3). cbv zeta.
  split_and!; [intros A g| rewrite Es in Hinv4; exact Hinv4|by subst k3| | |exact Hready].
  - rewrite (M_bind_run _ _ _ _ _ (in_k_run _ b _ _ (in_mem_run _ _ _ _ R1))). rewrite (M_bind_run _ _ _ _ _ (in_k_run _ (mkBoot k1 _ _ _) _ _ R2)).
    rewrite (M_bind_run _ _ _ _ _ (in_k_run _ (mkBoot k2 _ _ _) _ _ R3)). cbn [bt_frames bt_hdr bt_queue]. fold b3. run R4.
    assert (k_procs k3 = boot_procs ∧ k_fs k3 = k_fs (bt_k b)) as [E1 E2] by (subst k3; done).
    destruct k3 as [? ? ? ? ?]. cbn in *. subst. reflexivity.
  - intros v Hv. by eapply stack_free.
  - rewrite (gw_free _ _ _ _ _ _ Hg), Em, Hfl, He. cbn [length]. lia.
Qed.

(** C2: The kernel comes up.  On a board whose memory is there, with a device
    that has not been used and holds an image with initproc in it, [rust_main]
    reaches the idle loop: the self-tests pass, the frames of the virtio queue are
    consecutive although the allocator has been used before, the driver is
    ready, the names of the applications are listed, and initproc is the one
    process, ready to run with its program in memory, its trap context and its
    kernel stack.  So the invariant under which all later steps of the kernel are
    verified holds. *)
Theorem kernel_boots ElfFile_new syms sbss th tr cap fuel b apps input elf segs :
  boots_from ElfFile_new syms sbss b apps input elf segs → Z.of_nat (length input) ≤ 512 * Z.of_nat fuel →
  ∃ k' fs h' dma q t D F u, let e := layout_of 32768 1 in
    rust_main ElfFile_new syms sbss th tr cap (S fuel) b = Ok (apps.*1, mkBoot k' fs h' (Some (dma, q))) ∧
    procs_inv (k_procs k') ∧ current (k_procs k') = None ∧ ready_queue (k_procs k') = [0] ∧ initproc (k_procs k') = Some 0 ∧
    tasks (k_procs k') = {[0 := t]} ∧ tcb_pid t = 0 ∧ fd_table t = [Some Stdin; Some Stdout; Some Stdout] ∧
    started syms th k' t input elf segs ∧ os_rep k' e 32768 D F u ∧
    ∀ T (dev : T), blk_ready (mkMachine (mkBus (k_mem k') fs h') q cap dev).
Proof.
  intros Hbf Hfuel. destruct (boot_memory_run _ _ _ _ _ _ _ _ cap Hbf) as (m & ms & U & h' & [dma q] & fs & x & Hrun & Hinv & _ & Hst & Hfree & Hready).
  set (k0 := mkK m ms boot_procs (k_fs (bt_k b)) x).
  destruct (image_root k0 apps (bf_image _ _ _ _ _ _ _ _ Hbf)) as (D & F & u & k1 & R1 & Hos & R2 & E1 & E2 & E3 & E4 & Hfind).
  destruct (Hfind (bf_names _ _ _ _ _ _ _ _ Hbf) _ _ (bf_initproc _ _ _ _ _ _ _ _ Hbf)) as (n & Hn & HF).
  destruct (load_program_run _ _ _ _ _ _ _ _ _ fuel Hos Hn HF Hfuel) as (k2 & R3 & Hos2 & E5 & E6 & E7 & E8).
  apply M_bind_Ok in R3 as (o & k1' & Ro & R3). destruct o as [id|]; [|done]. rewrite M_unwrap_bind in R3.
  rewrite E3 in E5. rewrite E1 in E6. rewrite E2 in E7. rewrite E4 in E8.
  destruct (first_task_run ElfFile_new syms th tr k2 (first_frame syms) U [tramp_entry syms] input elf segs
    (bo_tramp _ _ _ (bf_memory _ _ _ _ _ _ _ _ Hbf))) as (m2 & ks & ms' & f & bb & nf & Hfs & Hok & R4).
  { rewrite E6, E7. exact Hinv. }
  { rewrite E5. reflexivity. }
  { exact (bf_program _ _ _ _ _ _ _ _ Hbf). }
  { rewrite E7. exact Hst. }
  { rewrite E6. exact Hfree. }
  set (t := first_tcb tr segs f ms').
  pose proof (add_initproc_run ElfFile_new syms th tr (S fuel) k1 k1' k2 id input t Ro R3 E5 _ R4 ltac:(cbn [k_procs]; by rewrite E5)) as R5.
  eexists _, fs, h', dma, q, t, D, F, u. cbv zeta. split.
  { unfold rust_main. rewrite Hrun. rewrite (M_bind_run _ _ _ _ _ (in_k_run _ (mkBoot k0 _ _ _) _ _ R1)).
    rewrite (M_bind_run _ _ _ _ _ (in_k_run _ (mkBoot k1 _ _ _) _ _ R2)). rewrite (M_bind_run _ _ _ _ _ (in_k_run _ (mkBoot k1 _ _ _) _ _ R5)). reflexivity. }
  cbn [set_procs k_procs first_procs current ready_queue initproc tasks]. split_and!; try reflexivity.
  - apply first_procs_inv. reflexivity.
  - apply (first_started syms th tr k2 (first_frame syms) U [tramp_entry syms] input elf segs m2 ks ms' f bb nf); [reflexivity|reflexivity| |exact Hfs|exact Hok].
    apply (bf_program _ _ _ _ _ _ _ _ Hbf).
  - exact Hos2.
  - intros T dev. destruct (Hready T dev) as [Q1 Q2 Q3 Q4]. split; [exact Q1|exact Q2|exact Q3|exact Q4].
Qed.

(** A board with half a megabyte free, and an image with a small initproc. *)
Definition board_syms : kernel_symbols :=
  mkSyms 0x80200000 0x80202000 0x80202000 0x80203000 0x80203000 0x80205000 0x80205000 0x80206000 0x80780000 0x80200000.
Definition board (d : gmap Z (list Z)) : boot :=
  mkBoot (mkK (mkMem (ram (sample_mem 0x80780 0x80800)) SFA_new) (mkMS (mkPT 0 []) []) boot_procs
            (mkOsfs d (root_inode (layout_of 32768 1)) ∅ 0) (mkMach [] [] 0 0 0))
    [] (mkHeader 0x74726976 1 2 0 0x30000000 (λ _, 1024) 0 []) None.

Lemma kernel_boots_witness : ∃ b b',
  rust_main (λ _, Some sample_elf) board_syms 0x80206000 0 0 8 2 b = Ok ([initproc_name], b') ∧
  ready_queue (k_procs (bt_k b')) = [0].
Proof.
  destruct (pack_spec (blank 32768) [(initproc_name, [7; 8; 9])]) as (d & _ & Him).
  { intros x Hx. by apply blank_ok. }
  { split; try done; [|apply NoDup_singleton]. apply list.Forall_cons. split; [|done].
    split; [split; [done|split; [by repeat constructor|done]]|]. split; [by repeat constructor|done]. }
  exists (board d).
  destruct (kernel_boots (λ _, Some sample_elf) board_syms 0x80206000 0 0 8 1 (board d) [(initproc_name, [7; 8; 9])] [7; 8; 9] sample_elf [sample_ph])
    as (k' & fs & h' & dma & q & t & D & F & u & H1 & _ & _ & H2 & _).
  - split; [|reflexivity|by split|exact Him|apply NoDup_singleton|by apply list_elem_of_singleton|apply sample_image|vm_compute; discriminate].
    split.
    + by repeat constructor.
    + by repeat constructor.
    + split; [cbn; lia|done].
    + apply (bool_decide_unpack _). vm_compute. exact I.
    + done.
    + done.
    + intros x b Hb. exact (mo_frame _ _ _ (sample_ok 0x80780 0x80800 ltac:(lia) ltac:(done)) x b Hb).
    + intros x Hx. apply (mo_ram _ _ _ (sample_ok 0x80780 0x80800 ltac:(lia) ltac:(done)) x). exact Hx.
    + intros x Hx. cbn in Hx. lia.
    + reflexivity.
  - done.
  - eexists. split; [exact H1|exact H2].
Defined.
