(* ===== verification/Pll.v ===== *)
(** * Pll: the search for the factors of a PLL (sysctl/pll_compute.rs)

    The output of a PLL of the k210 is [freq_in * f / (r * od)].  [compute_params]
    looks for [r], [f] and [od] that come close to a wanted frequency and keep the
    internal clocks in their ranges, in 32.32 fixed-point arithmetic.  The
    iterator over the table of factors is the list of those that are left. *)

From stdpp Require Import base list numbers.
From S2P Require Import Prelude.

Definition u8 (z : Z) : Z := wrap 8 z.
Definition u32 (z : Z) : Z := wrap 32 z.

(** [a * b] on u32. *)
Definition umul32 (a b : Z) : Z := wrap 32 (a * b).
Infix "*u32" := umul32 (at level 40, left associativity) : mach_scope.

(** i64: the representative of [z] modulo 2^64 with a sign. *)
Definition i64 (z : Z) : Z := let m := wrap 64 z in if m <? 2 ^ 63 then m else m - 2 ^ 64.

Record Params := mkParams { clkr : Z; clkf : Z; clkod : Z; bwadj : Z }.

#[export] Instance Params_eq_dec : EqDecision Params.
Proof. solve_decision. Defined.

(** ** Limits of the hardware *)

Definition VCO_MIN : Z := 340000000.
Definition VCO_MAX : Z := 1750000000.
Definition DIV_MIN : Z := 13300000.
Definition R_MIN : Z := 1.
Definition R_MAX : Z := 16.
Definition F_MIN : Z := 1.
Definition F_MAX : Z := 64.
Definition OD_MIN : Z := 1.
Definition OD_MAX : Z := 16.
Definition OUT_MIN : Z := u32 VCO_MIN / OD_MAX.
Definition OUT_MAX : Z := u32 VCO_MAX / OD_MIN.
Definition IN_MIN : Z := DIV_MIN *u32 R_MIN.
Definition IN_MAX : Z := OUT_MAX.

(** ** The table of factors *)

Record Factor := mkFactor { packed : Z }.

Definition pack (r od : Z) : Factor :=
  mkFactor (Z.lor (u8 (Z.shiftl (Z.land (u8 (u8 r - 1)) 15) 4)) (Z.land (u8 (u8 od - 1)) 15)).

Definition unpack_r (factor : Factor) : Z :=
  Z.land (Z.shiftr (packed factor) 4) 15 +u32 1.

Definition unpack_od (factor : Factor) : Z :=
  Z.land (packed factor) 15 +u32 1.

Definition FACTORS : list Factor :=
  [pack 1 1; pack 1 2; pack 1 3; pack 1 4; pack 1 5; pack 1 6; pack 1 7; pack 1 8;
   pack 1 9; pack 3 3; pack 1 10; pack 1 11; pack 1 12; pack 3 4; pack 1 13;
   pack 1 14; pack 1 15; pack 3 5; pack 1 16; pack 4 4; pack 2 9; pack 2 10; pack 3 7;
   pack 2 11; pack 2 12; pack 5 5; pack 2 13; pack 3 9; pack 2 14; pack 2 15;
   pack 2 16; pack 3 11; pack 5 7; pack 3 12; pack 3 13; pack 4 10; pack 3 14;
   pack 4 11; pack 3 15; pack 3 16; pack 7 7; pack 5 10; pack 4 13; pack 6 9;
   pack 5 11; pack 4 14; pack 4 15; pack 7 9; pack 4 16; pack 5 13; pack 6 11;
   pack 5 14; pack 6 12; pack 5 15; pack 7 11; pack 6 13; pack 5 16; pack 9 9;
   pack 6 14; pack 8 11; pack 6 15; pack 7 13; pack 6 16; pack 7 14; pack 9 11;
   pack 10 10; pack 8 13; pack 7 15; pack 9 12; pack 10 11; pack 7 16; pack 9 13;
   pack 8 15; pack 11 11; pack 9 14; pack 8 16; pack 10 13; pack 11 12; pack 9 15;
   pack 10 14; pack 11 13; pack 9 16; pack 10 15; pack 11 14; pack 12 13; pack 10 16;
   pack 11 15; pack 12 14; pack 13 13; pack 11 16; pack 12 15; pack 13 14; pack 12 16;
   pack 13 15; pack 14 14; pack 13 16; pack 14 15; pack 14 16; pack 15 15; pack 15 16;
   pack 16 16].

(** ** Arithmetic *)

(** Division by zero panics. *)
Definition div_round_closest (n d : Z) : res Z :=
  if d =? 0 then Stop Panicked else Ok ((n +u d / 2) / d).

Definition bit (b : Z) : Z := 1 <<u b.

Definition abs_diff (a b : Z) : Z := if b <? a then a -u32 b else b -u32 a.

(** ** The search *)

(** The variables of the loop. *)
Record pll_search := mkSearch {
  best : option Params;
  best_error : Z;
  error : Z;
  r : Z;
  f : Z;
  od : Z;
  factors : list Factor }.

(** A round of ['outer] goes on or leaves the loop. *)
Inductive round := Next (s : pll_search) | Leave (s : pll_search).

Definition set_pair (r0 od0 : Z) (fs : list Factor) (s : pll_search) : pll_search :=
  mkSearch (best s) (best_error s) (error s) r0 (f s) od0 fs.

Definition set_f (f0 : Z) (s : pll_search) : pll_search :=
  mkSearch (best s) (best_error s) (error s) (r s) f0 (od s) (factors s).

(** [while r * od == last_r * last_od], taking factors; [None]: there are none left. *)
Fixpoint skip_product (last r0 od0 : Z) (fs : list Factor) : option (Z * Z * list Factor) :=
  if r0 *u32 od0 =? last then
    match fs with
    | [] => None
    | x :: fs => skip_product last (unpack_r x) (unpack_od x) fs
    end
  else Some (r0, od0, fs).

(** The first pair with a product of at least [goal], which stays in the iterator. *)
Fixpoint seek_goal (goal : Z) (fs : list Factor) : option (Z * Z * list Factor) :=
  match fs with
  | [] => None
  | x :: fs' =>
      if unpack_r x *u32 unpack_od x <? goal then seek_goal goal fs'
      else Some (unpack_r x, unpack_od x, fs)
  end.

Section compute.
Context (freq_in freq_out ratio inv_ratio max_r : Z).

(** The output is faster: the next product, and the [f] for it. *)
Definition next_faster (s : pll_search) : round :=
  match skip_product (r s *u32 od s) (r s) (od s) (factors s) with
  | None => Leave s
  | Some (r0, od0, fs) =>
      let f0 := u32 (Z.shiftr ((r0 *u32 od0) *u ratio +u bit 31) 32) in
      Next (set_f (if F_MAX <? f0 then F_MAX else f0) (set_pair r0 od0 fs s))
  end.

(** The output is not faster: the next [f], and the pair closest to it. *)
Definition next_slower (s : pll_search) : round :=
  let f0 := f s +u32 1 in
  let tmp := f0 *u inv_ratio in
  let round_up := negb (Z.land tmp (bit 31) =? 0) in
  let goal := u32 (Z.shiftr tmp 32) +u32 Z.b2z round_up in
  match seek_goal goal (factors s) with
  | None => Leave (set_f f0 s)
  | Some (r0, od0, fs) =>
      let err := abs_diff (r0 *u32 od0) goal in
      let last_err := abs_diff (r s *u32 od s) goal in
      if (last_err <? err) || (round_up && (last_err =? err))
      then Next (set_f f0 (set_pair (r s) (od s) fs s))
      else Next (set_f f0 (set_pair r0 od0 (tail fs) s))
  end.

(** [out_of_spec] for the factors at hand. *)
Definition out_of_spec (s : pll_search) : res bool :=
  if max_r <? r s then Ok true
  else
    vco ← div_round_closest (freq_in *u f s) (r s);
    Ok ((VCO_MAX <? vco) || (vco <? VCO_MIN)).

(** The relative error of the factors at hand. *)
Definition error_of (f0 r0 od0 : Z) : res Z :=
  q ← div_round_closest (f0 *u inv_ratio) (r0 *u32 od0);
  Ok (Z.shiftr (Z.abs (i64 (i64 q - i64 (bit 32)))) 16).

(** Record the factors at hand if they are the best so far. *)
Definition evaluate (s : pll_search) : res pll_search :=
  e ← error_of (f s) (r s) (od s);
  Ok (if e <? best_error s
      then mkSearch (Some (mkParams (u8 (r s -u32 1)) (u8 (f s -u32 1)) (u8 (od s -u32 1))
                             (u8 (f s -u32 1))))
             e e (r s) (f s) (od s) (factors s)
      else mkSearch (best s) (best_error s) e (r s) (f s) (od s) (factors s)).

(** The loop that enforces the limits: swap [r] and [od], then try further
    factors of the same product. *)
Fixpoint enforce (fuel : nat) (swapped : bool) (s : pll_search) : res round :=
  match fuel with
  | O => Stop OutOfFuel
  | S fuel =>
      oos ← out_of_spec s;
      if oos : bool then
        if swapped then
          match factors s with
          | [] => Ok (Leave s)
          | x :: fs =>
              if r s *u32 od s =? unpack_r x *u32 unpack_od x
              then enforce fuel false (set_pair (unpack_r x) (unpack_od x) fs s)
              else Ok (Next s)
          end
        else enforce fuel true (set_pair (od s) (r s) (factors s) s)
      else
        s ← evaluate s;
        Ok (Next s)
  end.

(** One round of ['outer]. *)
Definition outer_round (s : pll_search) : res round :=
  match (if freq_in <? freq_out then next_faster s else next_slower s) with
  | Leave s => Ok (Leave s)
  | Next s => enforce (2 * length (factors s) + 3) false s
  end.

Fixpoint outer (fuel : nat) (s : pll_search) : res (option Params) :=
  match fuel with
  | O => Stop OutOfFuel
  | S fuel =>
      o ← outer_round s;
      match o with
      | Leave s => Ok (best s)
      | Next s => if error s =? 0 then Ok (best s) else outer fuel s
      end
  end.
End compute.

Definition i64_max : Z := 2 ^ 63 - 1.

(** The largest product in the table bounds the rounds. *)
Definition outer_bound : nat := 258.

Definition compute_params (freq_in freq_out : Z) : res (option Params) :=
  if (OUT_MAX <? freq_out) || (freq_out <? OUT_MIN) then Ok None
  else if (IN_MAX <? freq_in) || (freq_in <? IN_MIN) then Ok None
  else
    ratio ← div_round_closest (freq_out <<u 32) freq_in;
    inv_ratio ← div_round_closest (freq_in <<u 32) freq_out;
    if (freq_in <? freq_out) && (64 <<u 32 <? ratio) then Ok None
    else if (freq_out <=? freq_in) && (256 <<u 32 <? inv_ratio) then Ok None
    else
      outer freq_in freq_out ratio inv_ratio (freq_in / DIV_MIN) outer_bound
        (mkSearch None i64_max i64_max 0 0 0 FACTORS).

(** ** The reference of the unit tests: all factors in turn *)

Definition brute_force_step (freq_in inv_ratio r0 f0 od0 : Z) (acc : option Params * Z) :
  res (option Params * Z) :=
  vco ← div_round_closest (freq_in *u f0) r0;
  if (VCO_MAX <? vco) || (vco <? VCO_MIN) then Ok acc
  else
    e ← error_of inv_ratio f0 r0 od0;
    Ok (if e <? acc.2
        then (Some (mkParams (u8 (r0 -u32 1)) (u8 (f0 -u32 1)) (u8 (od0 -u32 1))
                      (u8 (f0 -u32 1))), e)
        else acc).

(** [for x in l], with an accumulator. *)
Fixpoint fold_res {A B} (step : A → B → res B) (l : list A) (b : B) : res B :=
  match l with
  | [] => Ok b
  | x :: l => b ← step x b; fold_res step l b
  end.

Definition brute_force_params (freq_in freq_out : Z) : res (option Params) :=
  let max_r := R_MAX `min` (freq_in / DIV_MIN) in
  inv_ratio ← div_round_closest (freq_in <<u 32) freq_out;
  acc ← fold_res (λ r0, fold_res (λ f0, fold_res (brute_force_step freq_in inv_ratio r0 f0)
           (seqZ OD_MIN OD_MAX)) (seqZ F_MIN F_MAX)) (seqZ R_MIN max_r) (None, i64_max);
  Ok acc.1.

(** The same ratio of frequencies. *)
Definition params_equal (a b : option Params) : bool :=
  match a, b with
  | None, None => true
  | Some a, Some b =>
      (u8 (clkf a + 1) *u32 u8 (clkr b + 1)) *u32 u8 (clkod b + 1)
      =? (u8 (clkf b + 1) *u32 u8 (clkr a + 1)) *u32 u8 (clkod a + 1)
  | _, _ => false
  end.

Definition verify_compute_params (freq_in freq_out : Z) : res bool :=
  a ← compute_params freq_in freq_out;
  b ← brute_force_params freq_in freq_out;
  Ok (params_equal a b).
