(* ===== verification/PllInv.v ===== *)
(** * PllInv: the search for the factors of a PLL ends, in range

    Every run of [compute_params] returns: no division by zero, no overflow, and
    at most [outer_bound] rounds.  What it returns respects the limits of the
    clocks inside the PLL. *)

From stdpp Require Import base list numbers.
From S2P Require Import Prelude Pll.

(** ** What the factors satisfy *)

(** [r] and [od] are four-bit factors. *)
Definition pair_ok (r od : Z) : Prop := 1 ≤ r ≤ 16 ∧ 1 ≤ od ≤ 16.

Definition factor_ok (x : Factor) : Prop := pair_ok (unpack_r x) (unpack_od x).

(** The divided clock is fast enough, the oscillator is in its range, [r] and [od]
    fit their fields, and [f] is at most [f_max]. *)
Definition within (freq_in f_max : Z) (p : Params) : Prop :=
  0 ≤ clkr p < R_MAX ∧ (clkr p + 1) * DIV_MIN ≤ freq_in ∧
  0 ≤ clkod p < OD_MAX ∧
  0 ≤ clkf p < f_max ∧ bwadj p = clkf p ∧
  VCO_MIN ≤ (freq_in * (clkf p + 1) + (clkr p + 1) / 2) / (clkr p + 1) ≤ VCO_MAX.

(** Parameters within all limits of the hardware: [f] is at most [F_MAX]. *)
Definition in_spec (freq_in : Z) : Params → Prop := within freq_in F_MAX.

Lemma within_mono freq_in m n p : m ≤ n → within freq_in m p → within freq_in n p.
Proof. unfold within. intuition lia. Qed.

(** The bound on [f] that the search keeps: the clamp of the code when the output is faster, the
    largest product otherwise. *)
Definition f_bound (freq_in freq_out : Z) : Z := if freq_in <? freq_out then F_MAX else 256.

Lemma f_bound_range a b : 64 ≤ f_bound a b ≤ 256.
Proof. unfold f_bound, F_MAX. destruct (_ <? _); lia. Qed.

Create HintDb pll.

Lemma low_nibble z : 0 ≤ Z.land z 15 < 16.
Proof.
  change 15 with (2 ^ 4 - 1). rewrite land_ones_mod by lia. apply Z.mod_pos_bound. lia.
Qed.

Lemma factor_always_ok x : factor_ok x.
Proof.
  unfold factor_ok, pair_ok, unpack_r, unpack_od.
  pose proof (low_nibble (Z.shiftr (packed x) 4)). pose proof (low_nibble (packed x)).
  rewrite !uadd32_small by mach. lia.
Qed.

Lemma mul32_pair r0 od0 : pair_ok r0 od0 → r0 *u32 od0 = r0 * od0 ∧ 1 ≤ r0 * od0 ≤ 256.
Proof.
  intros [Hr Ho]. assert (1 ≤ r0 * od0 ≤ 256) by nia.
  split; [|done]. apply wrap_small. mach_unfold. lia.
Qed.

Lemma pair_ok_swap r0 od0 : pair_ok r0 od0 → pair_ok od0 r0.
Proof. unfold pair_ok. tauto. Qed.

#[export] Hint Resolve factor_always_ok pair_ok_swap : pll.

Lemma div_round_closest_ok n d :
  d ≠ 0 → in_u 64 (n + d / 2) → div_round_closest n d = Ok ((n + d / 2) / d).
Proof.
  intros Hd Hn. unfold div_round_closest. rewrite (proj2 (Z.eqb_neq _ _) Hd).
  by rewrite uadd_small.
Qed.

Lemma abs_diff_ge a b : 0 ≤ b ≤ a → a < 2 ^ 32 → abs_diff a b = a - b.
Proof.
  intros H Ha. unfold abs_diff. destruct (Z.ltb_spec b a).
  - rewrite usub32_small; [done|]. unfold in_u. lia.
  - rewrite usub32_small; [lia|]. unfold in_u. lia.
Qed.

Lemma abs_diff_zero b : 0 ≤ b < 2 ^ 32 → abs_diff (0 *u32 0) b = b.
Proof.
  intros Hb. change (0 *u32 0) with 0. unfold abs_diff.
  destruct (Z.ltb_spec b 0); [lia|]. rewrite usub32_small; [lia|]. unfold in_u. lia.
Qed.

(** Whatever the goal, the first product that reaches it is less than twice as
    large; with [r = od = 0] before, the search never falls back to them. *)
Definition dense_at (goal : Z) : bool :=
  match seek_goal goal FACTORS with
  | Some (r0, od0, _) => r0 *u32 od0 - goal <? goal
  | None => false
  end.

Lemma factors_dense goal : 1 ≤ goal ≤ 256 → dense_at goal = true.
Proof.
  intros Hg.
  assert (Hall : forallb dense_at (seqZ 1 256) = true) by (vm_compute; reflexivity).
  rewrite forallb_forall in Hall. apply Hall, list_elem_of_In, elem_of_seqZ. lia.
Qed.

(** ** Finding the next pair *)

Lemma skip_product_ok last r0 od0 fs r1 od1 fs' :
  skip_product last r0 od0 fs = Some (r1, od1, fs') →
  (r1 = r0 ∧ od1 = od0 ∧ fs' = fs ∧ r0 *u32 od0 ≠ last) ∨
  (pair_ok r1 od1 ∧ (length fs' < length fs)%nat).
Proof.
  revert r0 od0. induction fs as [|x fs IH]; intros r0 od0; simpl;
    destruct (Z.eqb_spec (r0 *u32 od0) last) as [He|He]; try done.
  - intros [= <- <- <-]. by left.
  - intros H%IH. right. destruct H as [(-> & -> & -> & _)|[H1 H2]]; [|by split; [|simpl; lia]].
    split; [apply factor_always_ok|simpl; lia].
  - intros [= <- <- <-]. by left.
Qed.

Lemma seek_goal_ok goal fs r0 od0 fs' :
  seek_goal goal fs = Some (r0, od0, fs') →
  pair_ok r0 od0 ∧ goal ≤ r0 * od0 ∧ (length fs' ≤ length fs)%nat.
Proof.
  induction fs as [|x fs IH]; simpl; [done|].
  destruct (mul32_pair _ _ (factor_always_ok x)) as [Hm _].
  destruct (Z.ltb_spec (unpack_r x *u32 unpack_od x) goal) as [Hlt|Hge].
  - intros H%IH. simpl. intuition lia.
  - intros [= <- <- <-]. simpl. split_and!; [apply factor_always_ok|lia..].
Qed.

(** ** The search *)

Section search.
Context (freq_in freq_out ratio inv_ratio : Z).
Hypothesis Hin : IN_MIN ≤ freq_in ≤ IN_MAX.
Hypothesis Hfast : freq_in < freq_out → 2 ^ 32 ≤ ratio ≤ 64 * 2 ^ 32.
Hypothesis Hinv : 0 ≤ inv_ratio ≤ 256 * 2 ^ 32.
Hypothesis Hslow : freq_out ≤ freq_in → 2 ^ 32 ≤ inv_ratio.

Let max_r : Z := freq_in / DIV_MIN.
Let f_max : Z := f_bound freq_in freq_out.

Definition best_ok (s : pll_search) : Prop := ∀ p, best s = Some p → within freq_in f_max p.

(** The state between a choice of factors and the next. *)
Definition search_ok (s : pll_search) : Prop :=
  pair_ok (r s) (od s) ∧ 1 ≤ f s ≤ f_max ∧ best_ok s.

Lemma f_max_range : 64 ≤ f_max ≤ 256.
Proof using All. apply f_bound_range. Qed.

Lemma freq_in_range : 13300000 ≤ freq_in ≤ 1750000000.
Proof using All. exact Hin. Qed.

Lemma vco_ok s : search_ok s →
  div_round_closest (freq_in *u f s) (r s) = Ok ((freq_in * f s + r s / 2) / r s).
Proof using All.
  intros ([Hr Ho] & Hf & _). pose proof f_max_range. pose proof freq_in_range.
  assert (0 ≤ freq_in * f s ≤ 1750000000 * 256) by nia.
  rewrite umul_small by mach. assert (0 ≤ r s / 2 ≤ 8) by (pose proof (Z.div_pos (r s) 2);
    pose proof (Z.div_le_mono (r s) 16 2); change (16 / 2) with 8 in *; lia).
  apply div_round_closest_ok; [lia|mach].
Qed.

Lemma out_of_spec_ok s : search_ok s →
  ∃ b, out_of_spec freq_in max_r s = Ok b ∧
    (b = false → r s ≤ max_r ∧ VCO_MIN ≤ (freq_in * f s + r s / 2) / r s ≤ VCO_MAX).
Proof using All.
  intros Hs. unfold out_of_spec. destruct (Z.ltb_spec max_r (r s)) as [Hlt|Hge].
  { by exists true. }
  rewrite vco_ok by done. eexists. split; [reflexivity|].
  intros [H1 H2]%orb_false_iff. apply Z.ltb_ge in H1, H2. lia.
Qed.

Lemma error_of_ok s : search_ok s → ∃ e, error_of inv_ratio (f s) (r s) (od s) = Ok e.
Proof using All.
  intros (Hp & Hf & _). pose proof f_max_range. unfold error_of.
  destruct (mul32_pair _ _ Hp) as [-> Hm].
  assert (0 ≤ f s * inv_ratio ≤ 256 * (256 * 2 ^ 32)) by nia.
  rewrite umul_small by mach. rewrite div_round_closest_ok; [by eexists|lia|].
  pose proof (Z.div_le_mono (r s * od s) 256 2). pose proof (Z.div_pos (r s * od s) 2).
  change (256 / 2) with 128 in *. mach.
Qed.

Lemma u8_pred z : 1 ≤ z ≤ 256 → u8 (z -u32 1) = z - 1.
Proof using All.
  intros Hz. rewrite usub32_small by mach. apply wrap_small. unfold in_u.
  change (2 ^ 8) with 256. lia.
Qed.

Lemma evaluate_ok s : search_ok s →
  r s ≤ max_r → VCO_MIN ≤ (freq_in * f s + r s / 2) / r s ≤ VCO_MAX →
  ∃ s', evaluate inv_ratio s = Ok s' ∧ search_ok s' ∧ f s' = f s ∧ factors s' = factors s.
Proof using All.
  intros Hs Hr Hv. destruct (error_of_ok s Hs) as [e He]. unfold evaluate. rewrite He.
  eexists. split; [reflexivity|]. destruct Hs as (Hp & Hf & Hb).
  destruct (e <? best_error s); simpl; (split; [split; [done|split; [done|]]|done]);
    intros p; simpl; [|apply Hb].
  intros [= <-]. destruct Hp as [Hp1 Hp2]. pose proof f_max_range.
  unfold within; simpl. rewrite !u8_pred by lia. unfold R_MAX, OD_MAX.
  replace (r s - 1 + 1) with (r s) by lia. replace (f s - 1 + 1) with (f s) by lia.
  split_and!; try lia; [|apply Hv..].
  unfold max_r in Hr. pose proof (Z.mul_div_le freq_in DIV_MIN). unfold DIV_MIN in *. nia.
Qed.

Lemma set_pair_ok r0 od0 fs s :
  search_ok s → pair_ok r0 od0 → search_ok (set_pair r0 od0 fs s).
Proof using All. intros (_ & Hf & Hb) Hp. split; [exact Hp|split; [exact Hf|exact Hb]]. Qed.

(** Each turn swaps, or takes a factor. *)
Lemma enforce_ok fuel (swapped : bool) s : search_ok s →
  (2 * length (factors s) + (if swapped then 1 else 2) ≤ fuel)%nat →
  ∃ s', (enforce freq_in inv_ratio max_r fuel swapped s = Ok (Next s') ∨
         enforce freq_in inv_ratio max_r fuel swapped s = Ok (Leave s')) ∧
    search_ok s' ∧ f s' = f s ∧ (length (factors s') ≤ length (factors s))%nat.
Proof using All.
  revert swapped s. induction fuel as [|fuel IH]; intros swapped s Hs Hf.
  { destruct swapped; lia. }
  simpl. destruct (out_of_spec_ok s Hs) as ([|] & -> & Hb); simpl.
  - destruct swapped.
    + destruct (factors s) as [|x fs] eqn:Hfs.
      { exists s. rewrite Hfs. auto. }
      destruct (_ =? _).
      * destruct (IH false (set_pair (unpack_r x) (unpack_od x) fs s)) as (s' & H & Hs' & H2 & H3).
        { apply set_pair_ok; auto with pll. apply factor_always_ok. }
        { simpl in *. lia. }
        exists s'. simpl in *. auto with lia.
      * exists s. rewrite Hfs. auto.
    + destruct (IH true (set_pair (od s) (r s) (factors s) s)) as (s' & H & Hs' & H2 & H3).
      { apply set_pair_ok; [done|]. apply pair_ok_swap, Hs. }
      { simpl. lia. }
      by exists s'.
  - destruct Hb as [Hr Hv]; [done|].
    destruct (evaluate_ok s Hs Hr Hv) as (s' & -> & Hs' & H2 & H3).
    exists s'. rewrite H3. auto.
Qed.

(** ** Choosing the next factors *)

(** Between rounds the factors are those of the last round, or none yet. *)
Definition round_ok (s : pll_search) : Prop :=
  best_ok s ∧ 0 ≤ f s ≤ f_max ∧
  (pair_ok (r s) (od s) ∨ r s = 0 ∧ od s = 0 ∧ f s = 0 ∧ factors s = FACTORS).

Lemma search_round_ok s : search_ok s → round_ok s.
Proof using All. intros (Hp & Hf & Hb). unfold round_ok. auto with lia. Qed.

Lemma f_faster r0 od0 : freq_in < freq_out → pair_ok r0 od0 →
  1 ≤ u32 (Z.shiftr ((r0 *u32 od0) *u ratio +u bit 31) 32).
Proof using All.
  intros Hlt Hp. destruct (mul32_pair _ _ Hp) as [-> Hm]. specialize (Hfast Hlt).
  change (bit 31) with (2 ^ 31).
  assert (2 ^ 32 ≤ r0 * od0 * ratio ≤ 256 * (64 * 2 ^ 32)) by nia.
  rewrite umul_small by mach. rewrite uadd_small by mach.
  rewrite Z.shiftr_div_pow2 by lia.
  assert (1 ≤ (r0 * od0 * ratio + 2 ^ 31) / 2 ^ 32 ≤ 256 * 64 + 1).
  { split; [apply Z.div_le_lower_bound; lia|].
    apply Z.div_le_upper_bound; lia. }
  unfold u32. rewrite wrap_small; [lia|]. mach_unfold. lia.
Qed.

Lemma next_faster_ok s : freq_in < freq_out → round_ok s →
  (∃ s', next_faster ratio s = Next s' ∧ search_ok s' ∧
     (length (factors s') < length (factors s))%nat) ∨
  next_faster ratio s = Leave s.
Proof using All.
  intros Hlt (Hb & Hf & Hp). unfold next_faster.
  destruct (skip_product _ _ _ _) as [[[r0 od0] fs]|] eqn:E; [left|by right].
  apply skip_product_ok in E. destruct E as [(_ & _ & _ & Hne)|[Hp' Hl]]; [done|].
  eexists. split; [reflexivity|]. split; [|done]. pose proof (f_faster _ _ Hlt Hp').
  split; [done|split; [cbn [f set_f set_pair]|apply Hb]].
  unfold f_max, f_bound. rewrite (proj2 (Z.ltb_lt _ _) Hlt). unfold F_MAX in *.
  destruct (Z.ltb_spec 64 (u32 (Z.shiftr (r0 *u32 od0 *u ratio +u bit 31) 32))); lia.
Qed.

Section slower.
Context (f0 : Z).
Hypothesis Hslower : freq_out ≤ freq_in.
Hypothesis Hf0 : 1 ≤ f0 ≤ 257.

Let tmp : Z := f0 *u inv_ratio.
Let goal : Z := u32 (Z.shiftr tmp 32) +u32 Z.b2z (negb (Z.land tmp (bit 31) =? 0)).

(** The goal is [f * freq_in / freq_out] rounded, which is at least [f]. *)
Lemma goal_range : f0 ≤ goal < 2 ^ 32.
Proof using All.
  unfold goal, tmp. specialize (Hslow Hslower).
  assert (f0 * 2 ^ 32 ≤ f0 * inv_ratio ≤ 257 * (256 * 2 ^ 32)) by nia.
  rewrite umul_small by mach. rewrite Z.shiftr_div_pow2 by lia.
  assert (f0 ≤ f0 * inv_ratio / 2 ^ 32 ≤ 257 * 256).
  { split; [apply Z.div_le_lower_bound; lia|apply Z.div_le_upper_bound; lia]. }
  set (q := f0 * inv_ratio / 2 ^ 32) in *. clearbody q.
  unfold u32. rewrite (wrap_small 32 q) by (unfold in_u; lia).
  generalize (negb (Z.land (f0 * inv_ratio) (bit 31) =? 0)). intros []; cbn [Z.b2z];
    rewrite uadd32_small by (unfold in_u; lia); lia.
Qed.

(** From [r = od = 0] the new pair is taken. *)
Lemma first_pair_taken r0 od0 fs b :
  seek_goal goal FACTORS = Some (r0, od0, fs) →
  (abs_diff (0 *u32 0) goal <? abs_diff (r0 *u32 od0) goal) ||
  (b && (abs_diff (0 *u32 0) goal =? abs_diff (r0 *u32 od0) goal)) = false.
Proof using All.
  intros E. pose proof goal_range. destruct (seek_goal_ok _ _ _ _ _ E) as (Hp & Hg & _).
  destruct (mul32_pair _ _ Hp) as [Hm Hm'].
  assert (Hd : dense_at goal = true) by (apply factors_dense; lia).
  unfold dense_at in Hd. rewrite E, Hm in Hd. apply Z.ltb_lt in Hd.
  rewrite abs_diff_zero by lia. rewrite Hm, abs_diff_ge by lia.
  apply orb_false_iff. split; [apply Z.ltb_ge; lia|].
  apply andb_false_iff. right. apply Z.eqb_neq. lia.
Qed.
End slower.

Lemma next_slower_ok s : freq_out ≤ freq_in → round_ok s →
  (∃ s', next_slower inv_ratio s = Next s' ∧ search_ok s' ∧ f s' = f s + 1) ∨
  (∃ s', next_slower inv_ratio s = Leave s' ∧ best_ok s').
Proof using All.
  intros Hle (Hb & Hf & Hp). pose proof f_max_range. unfold next_slower.
  rewrite (uadd32_small (f s) 1) by (mach_unfold; lia).
  pose proof (goal_range (f s + 1) Hle ltac:(lia)) as Hg.
  destruct (seek_goal _ _) as [[[r0 od0] fs]|] eqn:E; [left|right; by eexists].
  destruct (seek_goal_ok _ _ _ _ _ E) as (Hp0 & Hg0 & _).
  destruct (mul32_pair _ _ Hp0) as [Hm Hm'].
  assert (Hf1 : 1 ≤ f s + 1 ≤ f_max).
  { unfold f_max, f_bound. rewrite (proj2 (Z.ltb_ge _ _) Hle). lia. }
  destruct Hp as [Hp|(Hr & Ho & Hf0 & Hfs)].
  - destruct (_ || _); eexists; (split; [reflexivity|]); split; try done;
      (split; [done|split; [done|apply Hb]]).
  - rewrite Hr, Ho. rewrite Hfs in E.
    rewrite (first_pair_taken (f s + 1) Hle ltac:(lia) _ _ _ _ E).
    eexists; (split; [reflexivity|]); split; [|done]. split; [done|split; [done|apply Hb]].
Qed.

(** ** The loop *)

(** How many rounds are left. *)
Definition rounds (s : pll_search) : nat :=
  if freq_in <? freq_out then S (length (factors s)) else Z.to_nat (257 - f s).

Lemma outer_round_ok s : round_ok s →
  (∃ s', outer_round freq_in freq_out ratio inv_ratio max_r s = Ok (Next s') ∧
     round_ok s' ∧ (rounds s' < rounds s)%nat) ∨
  (∃ s', outer_round freq_in freq_out ratio inv_ratio max_r s = Ok (Leave s') ∧ best_ok s').
Proof using All.
  intros Hs. pose proof f_max_range. unfold outer_round.
  assert (Hgo : ∀ s1, search_ok s1 →
    ((length (factors s1) < length (factors s))%nat ∨ freq_out ≤ freq_in) →
    (f s1 = f s + 1 ∨ freq_in < freq_out) →
    (∃ s', enforce freq_in inv_ratio max_r (2 * length (factors s1) + 3) false s1 = Ok (Next s') ∧
       round_ok s' ∧ (rounds s' < rounds s)%nat) ∨
    (∃ s', enforce freq_in inv_ratio max_r (2 * length (factors s1) + 3) false s1 = Ok (Leave s') ∧
       best_ok s')).
  { intros s1 Hs1 Hl Hf1.
    destruct (enforce_ok (2 * length (factors s1) + 3) false s1 Hs1) as (s' & He & Hs' & Hf' & Hl');
      [lia|].
    destruct He as [He|He]; [left|right]; exists s'; split; auto using search_round_ok.
    - split; [by apply search_round_ok|]. unfold rounds.
      destruct Hs as (_ & Hf & _). destruct (Z.ltb_spec freq_in freq_out); lia.
    - apply Hs'. }
  destruct (Z.ltb_spec freq_in freq_out) as [Hlt|Hge].
  - destruct (next_faster_ok s Hlt Hs) as [(s1 & -> & Hs1 & Hl)| ->]; [by apply Hgo; auto|].
    right. exists s. split; [done|apply Hs].
  - destruct (next_slower_ok s Hge Hs) as [(s1 & -> & Hs1 & Hl)|(s1 & -> & Hs1)];
      [by apply Hgo; auto|].
    right. by exists s1.
Qed.

Lemma outer_ok fuel s : round_ok s → (rounds s < fuel)%nat →
  ∃ o, outer freq_in freq_out ratio inv_ratio max_r fuel s = Ok o ∧
    ∀ p, o = Some p → within freq_in f_max p.
Proof using All.
  revert s. induction fuel as [|fuel IH]; intros s Hs Hf; [lia|]. simpl.
  destruct (outer_round_ok s Hs) as [(s' & -> & Hs' & Hr)|(s' & -> & Hb)]; simpl.
  - destruct (_ =? 0); [exists (best s'); split; [done|apply Hs']|].
    apply IH; [done|lia].
  - exists (best s'). by split.
Qed.
End search.

(** ** compute_params *)

Lemma shl32_small z : 0 ≤ z < 2 ^ 32 → z <<u 32 = z * 2 ^ 32.
Proof.
  intros Hz. unfold ushl. rewrite Z.shiftl_mul_pow2 by lia. apply wrap_small. mach_unfold. lia.
Qed.

Lemma ratio_ok a b : 0 ≤ a ≤ IN_MAX → 0 < b ≤ IN_MAX →
  div_round_closest (a <<u 32) b = Ok ((a * 2 ^ 32 + b / 2) / b).
Proof.
  change IN_MAX with 1750000000. intros Ha Hb. rewrite shl32_small by (mach_unfold; lia).
  apply div_round_closest_ok; [lia|].
  pose proof (Z.div_pos b 2). pose proof (Z.div_le_upper_bound b 2 b). mach.
Qed.

Lemma ratio_ge_1 a b : 0 < b ≤ a → 2 ^ 32 ≤ (a * 2 ^ 32 + b / 2) / b.
Proof.
  intros H. pose proof (Z.div_pos b 2). apply Z.div_le_lower_bound; nia.
Qed.

Lemma ratio_le_1 a b : 0 ≤ a ≤ b → 0 < b → (a * 2 ^ 32 + b / 2) / b ≤ 2 ^ 32 + 1.
Proof.
  intros H Hb. pose proof (Z.div_le_upper_bound b 2 b). apply Z.div_le_upper_bound; nia.
Qed.

Lemma compute_params_ok freq_in freq_out :
  ∃ o, compute_params freq_in freq_out = Ok o ∧
    ∀ p, o = Some p → within freq_in (f_bound freq_in freq_out) p.
Proof.
  unfold compute_params.
  destruct ((OUT_MAX <? freq_out) || _) eqn:E1; [by exists None|].
  destruct ((IN_MAX <? freq_in) || _) eqn:E2; [by exists None|].
  apply orb_false_iff in E1, E2. rewrite !Z.ltb_ge in E1, E2.
  assert (0 < freq_out ≤ IN_MAX).
  { change OUT_MAX with 1750000000 in E1. change OUT_MIN with 21250000 in E1.
    change IN_MAX with 1750000000. lia. }
  assert (0 < freq_in) by (change IN_MIN with 13300000 in E2; lia).
  rewrite (ratio_ok freq_out freq_in), (ratio_ok freq_in freq_out) by lia. cbn [mbind res_bind].
  set (ratio := (freq_out * 2 ^ 32 + freq_in / 2) / freq_in).
  set (inv := (freq_in * 2 ^ 32 + freq_out / 2) / freq_out).
  change (64 <<u 32) with (64 * 2 ^ 32). change (256 <<u 32) with (256 * 2 ^ 32).
  destruct (_ && (64 * 2 ^ 32 <? ratio)) eqn:E3; [by exists None|].
  destruct (_ && (256 * 2 ^ 32 <? inv)) eqn:E4; [by exists None|].
  rewrite andb_false_iff, Z.ltb_ge, Z.ltb_ge in E3.
  rewrite andb_false_iff, Z.leb_gt, Z.ltb_ge in E4.
  assert (Hinv : 0 ≤ inv) by (apply Z.div_pos; [pose proof (Z.div_pos freq_out 2)|]; lia).
  assert (Hfi : freq_in ≤ freq_out → inv ≤ 2 ^ 32 + 1) by (intros; apply ratio_le_1; lia).
  assert (Hfo : freq_out ≤ freq_in → 2 ^ 32 ≤ inv) by (intros; apply ratio_ge_1; lia).
  assert (Hra : freq_in ≤ freq_out → 2 ^ 32 ≤ ratio) by (intros; apply ratio_ge_1; lia).
  apply outer_ok; [lia..|done| |].
  - split; [intros p Hp; discriminate Hp|]. split; [|by right].
    cbn [f]. pose proof (f_bound_range freq_in freq_out). lia.
  - unfold rounds. destruct (_ <? _); [|cbn [f]; unfold outer_bound; lia].
    change (length (factors _)) with 101%nat. unfold outer_bound. lia.
Qed.

(** For the frequencies that the kernel sets, the search gives the same ratio as the
    exhaustive search of the crate's unit tests. *)
Lemma search_boot_frequencies freq_out : freq_out ∈ [800000000; 300000000; 45158400] →
  verify_compute_params 26000000 freq_out = Ok true.
Proof.
  rewrite !elem_of_cons. intros [->|[->|[->|[]%elem_of_nil]]]; vm_compute; reflexivity.
Qed.
