(* ===== verification/PacReg.v ===== *)
(** * PacReg: device registers and their bit fields (k210-pac, k210-soc/src/utils.rs)

    The peripheral access crate gives every field of a register a reader and a
    writer: the field is [width] bits at an offset.  A register has the type of
    its field names, and its fields do not overlap ([RegisterLaws]), so that a
    write of one field is read back and leaves the others alone. *)

From stdpp Require Import base list numbers.
From S2P Require Import Prelude.

(** ** Fields *)

Record field := mkField { fld_off : Z; fld_width : Z }.

(** [!z] on u32. *)
Definition not32 (z : Z) : Z := Z.lxor z (2 ^ 32 - 1).

(** [(self.bits >> off) & mask]. *)
Definition fld_get (fl : field) (bits : Z) : Z :=
  Z.land (Z.shiftr bits (fld_off fl)) (Z.ones (fld_width fl)).

(** [(self.w.bits & !(mask << off)) | (((value as u32) & mask) << off)]. *)
Definition fld_set (fl : field) (value bits : Z) : Z :=
  Z.lor (Z.land bits (not32 (wrap 32 (Z.shiftl (Z.ones (fld_width fl)) (fld_off fl)))))
        (wrap 32 (Z.shiftl (Z.land value (Z.ones (fld_width fl))) (fld_off fl))).

Definition field_ok (fl : field) : Prop :=
  0 ≤ fld_off fl ∧ 0 < fld_width fl ∧ fld_off fl + fld_width fl ≤ 32.

Definition fields_disjoint (f g : field) : Prop :=
  fld_off f + fld_width f ≤ fld_off g ∨ fld_off g + fld_width g ≤ fld_off f.

(** ** Single bits (utils.rs) *)

Definition set_bit (inval bit : Z) (state : bool) : Z :=
  if state then Z.lor inval (wrap 32 (Z.shiftl 1 bit))
  else Z.land inval (not32 (wrap 32 (Z.shiftl 1 bit))).

Definition get_bit (inval bit : Z) : bool :=
  negb (Z.land inval (wrap 32 (Z.shiftl 1 bit)) =? 0).

(** ** Bit by bit *)

Lemma not32_spec z i : 0 ≤ i < 32 → Z.testbit (not32 z) i = negb (Z.testbit z i).
Proof.
  intros Hi. unfold not32. rewrite Z.lxor_spec.
  replace (2 ^ 32 - 1) with (Z.ones 32) by reflexivity.
  rewrite Z.ones_spec_low by lia. by destruct (Z.testbit z i).
Qed.

Lemma wrap_spec w z i : 0 ≤ w → 0 ≤ i →
  Z.testbit (wrap w z) i = bool_decide (i < w) && Z.testbit z i.
Proof.
  intros Hw Hi. unfold wrap. case_bool_decide.
  - by rewrite Z.mod_pow2_bits_low.
  - rewrite Z.mod_pow2_bits_high by lia. done.
Qed.

Lemma ones_spec n i : 0 ≤ n → 0 ≤ i → Z.testbit (Z.ones n) i = bool_decide (i < n).
Proof.
  intros Hn Hi. case_bool_decide; [by apply Z.ones_spec_low|].
  apply Z.ones_spec_high. lia.
Qed.

Lemma in_u_bits w z : 0 ≤ w → 0 ≤ z →
  (∀ i, w ≤ i → Z.testbit z i = false) → in_u w z.
Proof.
  intros Hw Hz Hb. split; [done|]. destruct (decide (z = 0)) as [->|Hnz].
  { pose proof (Z.pow_pos_nonneg 2 w). lia. }
  apply Z.log2_lt_pow2; [lia|]. apply Z.nle_gt. intros Hle.
  specialize (Hb (Z.log2 z) Hle). rewrite Z.bit_log2 in Hb by lia. done.
Qed.

Lemma fld_get_spec fl bits i : field_ok fl → 0 ≤ i →
  Z.testbit (fld_get fl bits) i =
  bool_decide (i < fld_width fl) && Z.testbit bits (i + fld_off fl).
Proof.
  intros (Ho & Hw & _) Hi. unfold fld_get.
  rewrite Z.land_spec, Z.shiftr_spec, ones_spec by lia. apply andb_comm.
Qed.

Lemma shifted_ones_spec fl i : field_ok fl → 0 ≤ i < 32 →
  Z.testbit (wrap 32 (Z.shiftl (Z.ones (fld_width fl)) (fld_off fl))) i =
  bool_decide (fld_off fl ≤ i < fld_off fl + fld_width fl).
Proof.
  intros (Ho & Hw & _) Hi. rewrite wrap_spec, bool_decide_true by lia. simpl.
  rewrite Z.shiftl_spec by lia. destruct (decide (i < fld_off fl)).
  - rewrite Z.testbit_neg_r by lia. symmetry. apply bool_decide_false. lia.
  - rewrite ones_spec by lia. apply bool_decide_ext. lia.
Qed.

Lemma fld_set_spec fl v bits i : field_ok fl → 0 ≤ i < 32 →
  Z.testbit (fld_set fl v bits) i =
  if bool_decide (fld_off fl ≤ i < fld_off fl + fld_width fl)
  then Z.testbit v (i - fld_off fl) else Z.testbit bits i.
Proof.
  intros Hf Hi. pose proof Hf as (Ho & Hw & _). unfold fld_set.
  rewrite Z.lor_spec, Z.land_spec, not32_spec, shifted_ones_spec by done.
  rewrite wrap_spec, (bool_decide_true (i < 32)) by lia. simpl.
  rewrite Z.shiftl_spec by lia. case_bool_decide as Hr; simpl.
  - rewrite andb_false_r, Z.land_spec, ones_spec, bool_decide_true by lia. by rewrite andb_true_r.
  - rewrite andb_true_r. destruct (decide (i < fld_off fl)).
    + rewrite (Z.testbit_neg_r (Z.land _ _)) by lia. by rewrite orb_false_r.
    + rewrite Z.land_spec, ones_spec, bool_decide_false by lia.
      by rewrite andb_false_r, orb_false_r.
Qed.

Lemma fld_set_range fl v bits : field_ok fl → in_u 32 bits → in_u 32 (fld_set fl v bits).
Proof.
  intros Hf Hb. unfold fld_set. apply in_u_bits; [lia| |].
  - apply Z.lor_nonneg. split.
    + apply Z.land_nonneg. left. apply Hb.
    + apply (wrap_range 32). lia.
  - intros i Hi. rewrite Z.lor_spec, Z.land_spec, wrap_spec by lia.
    rewrite (testbit_high bits 32 i) by (unfold in_u in Hb; lia).
    rewrite bool_decide_false by lia. done.
Qed.

Lemma fld_get_range fl bits : field_ok fl → 0 ≤ fld_get fl bits < 2 ^ fld_width fl.
Proof.
  intros (_ & Hw & _). unfold fld_get. rewrite Z.land_ones by lia.
  apply Z.mod_pos_bound, Z.pow_pos_nonneg; lia.
Qed.

(** ** Read over write *)

Lemma fld_get_set_same fl v bits : field_ok fl →
  fld_get fl (fld_set fl v bits) = v mod 2 ^ fld_width fl.
Proof.
  intros Hf. pose proof Hf as (Ho & Hw & Hs). apply Z.bits_inj'. intros i Hi.
  rewrite fld_get_spec by done. case_bool_decide; simpl.
  - rewrite fld_set_spec, bool_decide_true, Z.mod_pow2_bits_low by (done || lia).
    f_equal. lia.
  - rewrite Z.mod_pow2_bits_high by lia. done.
Qed.

Lemma fld_get_set_other f g v bits : field_ok f → field_ok g → fields_disjoint f g →
  fld_get g (fld_set f v bits) = fld_get g bits.
Proof.
  intros Hf Hg Hd. pose proof Hf as (? & ? & ?). pose proof Hg as (? & ? & ?).
  apply Z.bits_inj'. intros i Hi. rewrite !fld_get_spec by done.
  case_bool_decide; simpl; [|done]. rewrite fld_set_spec by (done || lia).
  rewrite bool_decide_false; [done|]. unfold fields_disjoint in Hd. lia.
Qed.

(** ** Registers *)

(** A register is at a place [reg_addr], and [F] names its fields. *)
Class Register (R F : Type) := {
  reg_addr : R;
  reg_field : F → field }.
#[export] Hint Mode Register - + : typeclass_instances.

Class RegisterLaws {R : Type} (F : Type) `{!Register R F} := {
  reg_field_ok (x : F) : field_ok (reg_field x);
  reg_disjoint (x y : F) : x ≠ y → fields_disjoint (reg_field x) (reg_field y) }.

(** Decides the laws of a register from its table of fields. *)
Ltac solve_register :=
  split;
  [ intros []; repeat split; cbn; lia
  | intros [] [] Hne; try (exfalso; exact (Hne eq_refl)); cbv; clear Hne;
    first [left; discriminate | right; discriminate] ].

Lemma set_bit32_spec inval b state i : 0 ≤ b < 32 → 0 ≤ i < 32 →
  Z.testbit (set_bit inval b state) i = if decide (i = b) then state else Z.testbit inval i.
Proof.
  intros Hb Hi. unfold set_bit. rewrite Z.shiftl_1_l.
  rewrite (wrap_small 32 (2 ^ b)) by (split; [lia|apply Z.pow_lt_mono_r; lia]).
  assert (Hbit : Z.testbit (2 ^ b) i = bool_decide (i = b)).
  { rewrite Z.pow2_bits_eqb by lia. case_bool_decide; [by apply Z.eqb_eq|apply Z.eqb_neq; lia]. }
  destruct state; [rewrite Z.lor_spec|rewrite Z.land_spec, not32_spec by done];
    rewrite Hbit; case_decide; case_bool_decide; try lia; simpl;
    rewrite ?orb_true_r, ?orb_false_r, ?andb_false_r, ?andb_true_r; done.
Qed.

Lemma get_bit_spec inval b : 0 ≤ b < 32 → get_bit inval b = Z.testbit inval b.
Proof.
  intros Hb. unfold get_bit. rewrite Z.shiftl_1_l.
  rewrite wrap_small by (split; [lia|apply Z.pow_lt_mono_r; lia]).
  destruct (Z.eqb_spec (Z.land inval (2 ^ b)) 0) as [E|E]; simpl; symmetry.
  - apply (f_equal (λ z, Z.testbit z b)) in E.
    rewrite Z.land_spec, Z.pow2_bits_true, Z.bits_0, andb_true_r in E by lia. done.
  - apply not_false_iff_true. intros Hf. apply E. apply Z.bits_inj'. intros i Hi.
    rewrite Z.land_spec, Z.bits_0, Z.pow2_bits_eqb by lia.
    destruct (Z.eqb_spec b i) as [<-|]; [by rewrite Hf|apply andb_false_r].
Qed.
