(* ===== verification/PacSysctl.v ===== *)
(** * PacSysctl: the registers of the system controller (k210-pac, module sysctl)

    The clocks, resets and handshake selectors of the k210 are fields of the
    registers of one block.  Registers whose fields no driver uses are only named. *)

From stdpp Require Import base list numbers.
From S2P Require Import Prelude PacReg.

(** The registers of the block. *)
Inductive sysreg : Type :=
  | R_git_id | R_clk_freq | R_pll0 | R_pll1 | R_pll2 | R_pll_lock | R_rom_error | R_clk_sel0
  | R_clk_sel1 | R_clk_en_cent | R_clk_en_peri | R_soft_reset | R_peri_reset | R_clk_th0
  | R_clk_th1 | R_clk_th2 | R_clk_th3 | R_clk_th4 | R_clk_th5 | R_clk_th6 | R_misc | R_peri
  | R_spi_sleep | R_reset_status | R_dma_sel0 | R_dma_sel1 | R_power_sel.

#[export] Instance sysreg_eq_dec : EqDecision sysreg.
Proof. solve_decision. Defined.

(** Register pll0. *)
Inductive pll0 : Type :=
  | pll0_clkr | pll0_clkf | pll0_clkod | pll0_bwadj | pll0_reset | pll0_pwrd | pll0_intfb
  | pll0_bypass | pll0_test | pll0_out_en | pll0_test_en.

Definition pll0_field (x : pll0) : field :=
  match x with
  | pll0_clkr => mkField 0 4
  | pll0_clkf => mkField 4 6
  | pll0_clkod => mkField 10 4
  | pll0_bwadj => mkField 14 6
  | pll0_reset => mkField 20 1
  | pll0_pwrd => mkField 21 1
  | pll0_intfb => mkField 22 1
  | pll0_bypass => mkField 23 1
  | pll0_test => mkField 24 1
  | pll0_out_en => mkField 25 1
  | pll0_test_en => mkField 26 1
  end.

#[export] Instance pll0_register : Register sysreg pll0 :=
  { reg_addr := R_pll0; reg_field := pll0_field }.
#[export] Instance pll0_laws : RegisterLaws pll0.
Proof. solve_register. Qed.

(** Register pll1. *)
Inductive pll1 : Type :=
  | pll1_clkr | pll1_clkf | pll1_clkod | pll1_bwadj | pll1_reset | pll1_pwrd | pll1_intfb
  | pll1_bypass | pll1_test | pll1_out_en.

Definition pll1_field (x : pll1) : field :=
  match x with
  | pll1_clkr => mkField 0 4
  | pll1_clkf => mkField 4 6
  | pll1_clkod => mkField 10 4
  | pll1_bwadj => mkField 14 6
  | pll1_reset => mkField 20 1
  | pll1_pwrd => mkField 21 1
  | pll1_intfb => mkField 22 1
  | pll1_bypass => mkField 23 1
  | pll1_test => mkField 24 1
  | pll1_out_en => mkField 25 1
  end.

#[export] Instance pll1_register : Register sysreg pll1 :=
  { reg_addr := R_pll1; reg_field := pll1_field }.
#[export] Instance pll1_laws : RegisterLaws pll1.
Proof. solve_register. Qed.

(** Register pll2. *)
Inductive pll2 : Type :=
  | pll2_clkr | pll2_clkf | pll2_clkod | pll2_bwadj | pll2_reset | pll2_pwrd | pll2_intfb
  | pll2_bypass | pll2_test | pll2_out_en | pll2_ckin_sel.

Definition pll2_field (x : pll2) : field :=
  match x with
  | pll2_clkr => mkField 0 4
  | pll2_clkf => mkField 4 6
  | pll2_clkod => mkField 10 4
  | pll2_bwadj => mkField 14 6
  | pll2_reset => mkField 20 1
  | pll2_pwrd => mkField 21 1
  | pll2_intfb => mkField 22 1
  | pll2_bypass => mkField 23 1
  | pll2_test => mkField 24 1
  | pll2_out_en => mkField 25 1
  | pll2_ckin_sel => mkField 26 2
  end.

#[export] Instance pll2_register : Register sysreg pll2 :=
  { reg_addr := R_pll2; reg_field := pll2_field }.
#[export] Instance pll2_laws : RegisterLaws pll2.
Proof. solve_register. Qed.

(** Register pll_lock. *)
Inductive pll_lock : Type :=
  | pll_lock_pll_lock0 | pll_lock_pll_slip_clear0 | pll_lock_test_clk_out0
  | pll_lock_pll_lock1 | pll_lock_pll_slip_clear1 | pll_lock_test_clk_out1
  | pll_lock_pll_lock2 | pll_lock_pll_slip_clear2 | pll_lock_test_clk_out2.

Definition pll_lock_field (x : pll_lock) : field :=
  match x with
  | pll_lock_pll_lock0 => mkField 0 2
  | pll_lock_pll_slip_clear0 => mkField 2 1
  | pll_lock_test_clk_out0 => mkField 3 1
  | pll_lock_pll_lock1 => mkField 8 2
  | pll_lock_pll_slip_clear1 => mkField 10 1
  | pll_lock_test_clk_out1 => mkField 11 1
  | pll_lock_pll_lock2 => mkField 16 2
  | pll_lock_pll_slip_clear2 => mkField 18 1
  | pll_lock_test_clk_out2 => mkField 19 1
  end.

#[export] Instance pll_lock_register : Register sysreg pll_lock :=
  { reg_addr := R_pll_lock; reg_field := pll_lock_field }.
#[export] Instance pll_lock_laws : RegisterLaws pll_lock.
Proof. solve_register. Qed.

(** Register clk_sel0. *)
Inductive clk_sel0 : Type :=
  | clk_sel0_aclk_sel | clk_sel0_aclk_divider_sel | clk_sel0_apb0_clk_sel
  | clk_sel0_apb1_clk_sel | clk_sel0_apb2_clk_sel | clk_sel0_spi3_clk_sel
  | clk_sel0_timer0_clk_sel | clk_sel0_timer1_clk_sel | clk_sel0_timer2_clk_sel.

Definition clk_sel0_field (x : clk_sel0) : field :=
  match x with
  | clk_sel0_aclk_sel => mkField 0 1
  | clk_sel0_aclk_divider_sel => mkField 1 2
  | clk_sel0_apb0_clk_sel => mkField 3 3
  | clk_sel0_apb1_clk_sel => mkField 6 3
  | clk_sel0_apb2_clk_sel => mkField 9 3
  | clk_sel0_spi3_clk_sel => mkField 12 1
  | clk_sel0_timer0_clk_sel => mkField 13 1
  | clk_sel0_timer1_clk_sel => mkField 14 1
  | clk_sel0_timer2_clk_sel => mkField 15 1
  end.

#[export] Instance clk_sel0_register : Register sysreg clk_sel0 :=
  { reg_addr := R_clk_sel0; reg_field := clk_sel0_field }.
#[export] Instance clk_sel0_laws : RegisterLaws clk_sel0.
Proof. solve_register. Qed.

(** Register clk_sel1. *)
Inductive clk_sel1 : Type :=
  | clk_sel1_spi3_sample_clk_sel.

Definition clk_sel1_field (x : clk_sel1) : field :=
  match x with
  | clk_sel1_spi3_sample_clk_sel => mkField 0 1
  end.

#[export] Instance clk_sel1_register : Register sysreg clk_sel1 :=
  { reg_addr := R_clk_sel1; reg_field := clk_sel1_field }.
#[export] Instance clk_sel1_laws : RegisterLaws clk_sel1.
Proof. solve_register. Qed.

(** Register clk_en_cent. *)
Inductive clk_en_cent : Type :=
  | clk_en_cent_cpu_clk_en | clk_en_cent_sram0_clk_en | clk_en_cent_sram1_clk_en
  | clk_en_cent_apb0_clk_en | clk_en_cent_apb1_clk_en | clk_en_cent_apb2_clk_en.

Definition clk_en_cent_field (x : clk_en_cent) : field :=
  match x with
  | clk_en_cent_cpu_clk_en => mkField 0 1
  | clk_en_cent_sram0_clk_en => mkField 1 1
  | clk_en_cent_sram1_clk_en => mkField 2 1
  | clk_en_cent_apb0_clk_en => mkField 3 1
  | clk_en_cent_apb1_clk_en => mkField 4 1
  | clk_en_cent_apb2_clk_en => mkField 5 1
  end.

#[export] Instance clk_en_cent_register : Register sysreg clk_en_cent :=
  { reg_addr := R_clk_en_cent; reg_field := clk_en_cent_field }.
#[export] Instance clk_en_cent_laws : RegisterLaws clk_en_cent.
Proof. solve_register. Qed.

(** Register clk_en_peri. *)
Inductive clk_en_peri : Type :=
  | clk_en_peri_rom_clk_en | clk_en_peri_dma_clk_en | clk_en_peri_ai_clk_en
  | clk_en_peri_dvp_clk_en | clk_en_peri_fft_clk_en | clk_en_peri_gpio_clk_en
  | clk_en_peri_spi0_clk_en | clk_en_peri_spi1_clk_en | clk_en_peri_spi2_clk_en
  | clk_en_peri_spi3_clk_en | clk_en_peri_i2s0_clk_en | clk_en_peri_i2s1_clk_en
  | clk_en_peri_i2s2_clk_en | clk_en_peri_i2c0_clk_en | clk_en_peri_i2c1_clk_en
  | clk_en_peri_i2c2_clk_en | clk_en_peri_uart1_clk_en | clk_en_peri_uart2_clk_en
  | clk_en_peri_uart3_clk_en | clk_en_peri_aes_clk_en | clk_en_peri_fpioa_clk_en
  | clk_en_peri_timer0_clk_en | clk_en_peri_timer1_clk_en | clk_en_peri_timer2_clk_en
  | clk_en_peri_wdt0_clk_en | clk_en_peri_wdt1_clk_en | clk_en_peri_sha_clk_en
  | clk_en_peri_otp_clk_en | clk_en_peri_rtc_clk_en.

Definition clk_en_peri_field (x : clk_en_peri) : field :=
  match x with
  | clk_en_peri_rom_clk_en => mkField 0 1
  | clk_en_peri_dma_clk_en => mkField 1 1
  | clk_en_peri_ai_clk_en => mkField 2 1
  | clk_en_peri_dvp_clk_en => mkField 3 1
  | clk_en_peri_fft_clk_en => mkField 4 1
  | clk_en_peri_gpio_clk_en => mkField 5 1
  | clk_en_peri_spi0_clk_en => mkField 6 1
  | clk_en_peri_spi1_clk_en => mkField 7 1
  | clk_en_peri_spi2_clk_en => mkField 8 1
  | clk_en_peri_spi3_clk_en => mkField 9 1
  | clk_en_peri_i2s0_clk_en => mkField 10 1
  | clk_en_peri_i2s1_clk_en => mkField 11 1
  | clk_en_peri_i2s2_clk_en => mkField 12 1
  | clk_en_peri_i2c0_clk_en => mkField 13 1
  | clk_en_peri_i2c1_clk_en => mkField 14 1
  | clk_en_peri_i2c2_clk_en => mkField 15 1
  | clk_en_peri_uart1_clk_en => mkField 16 1
  | clk_en_peri_uart2_clk_en => mkField 17 1
  | clk_en_peri_uart3_clk_en => mkField 18 1
  | clk_en_peri_aes_clk_en => mkField 19 1
  | clk_en_peri_fpioa_clk_en => mkField 20 1
  | clk_en_peri_timer0_clk_en => mkField 21 1
  | clk_en_peri_timer1_clk_en => mkField 22 1
  | clk_en_peri_timer2_clk_en => mkField 23 1
  | clk_en_peri_wdt0_clk_en => mkField 24 1
  | clk_en_peri_wdt1_clk_en => mkField 25 1
  | clk_en_peri_sha_clk_en => mkField 26 1
  | clk_en_peri_otp_clk_en => mkField 27 1
  | clk_en_peri_rtc_clk_en => mkField 29 1
  end.

#[export] Instance clk_en_peri_register : Register sysreg clk_en_peri :=
  { reg_addr := R_clk_en_peri; reg_field := clk_en_peri_field }.
#[export] Instance clk_en_peri_laws : RegisterLaws clk_en_peri.
Proof. solve_register. Qed.

(** Register soft_reset. *)
Inductive soft_reset : Type :=
  | soft_reset_soft_reset.

Definition soft_reset_field (x : soft_reset) : field :=
  match x with
  | soft_reset_soft_reset => mkField 0 1
  end.

#[export] Instance soft_reset_register : Register sysreg soft_reset :=
  { reg_addr := R_soft_reset; reg_field := soft_reset_field }.
#[export] Instance soft_reset_laws : RegisterLaws soft_reset.
Proof. solve_register. Qed.

(** Register peri_reset. *)
Inductive peri_reset : Type :=
  | peri_reset_rom_reset | peri_reset_dma_reset | peri_reset_ai_reset
  | peri_reset_dvp_reset | peri_reset_fft_reset | peri_reset_gpio_reset
  | peri_reset_spi0_reset | peri_reset_spi1_reset | peri_reset_spi2_reset
  | peri_reset_spi3_reset | peri_reset_i2s0_reset | peri_reset_i2s1_reset
  | peri_reset_i2s2_reset | peri_reset_i2c0_reset | peri_reset_i2c1_reset
  | peri_reset_i2c2_reset | peri_reset_uart1_reset | peri_reset_uart2_reset
  | peri_reset_uart3_reset | peri_reset_aes_reset | peri_reset_fpioa_reset
  | peri_reset_timer0_reset | peri_reset_timer1_reset | peri_reset_timer2_reset
  | peri_reset_wdt0_reset | peri_reset_wdt1_reset | peri_reset_sha_reset
  | peri_reset_rtc_reset.

Definition peri_reset_field (x : peri_reset) : field :=
  match x with
  | peri_reset_rom_reset => mkField 0 1
  | peri_reset_dma_reset => mkField 1 1
  | peri_reset_ai_reset => mkField 2 1
  | peri_reset_dvp_reset => mkField 3 1
  | peri_reset_fft_reset => mkField 4 1
  | peri_reset_gpio_reset => mkField 5 1
  | peri_reset_spi0_reset => mkField 6 1
  | peri_reset_spi1_reset => mkField 7 1
  | peri_reset_spi2_reset => mkField 8 1
  | peri_reset_spi3_reset => mkField 9 1
  | peri_reset_i2s0_reset => mkField 10 1
  | peri_reset_i2s1_reset => mkField 11 1
  | peri_reset_i2s2_reset => mkField 12 1
  | peri_reset_i2c0_reset => mkField 13 1
  | peri_reset_i2c1_reset => mkField 14 1
  | peri_reset_i2c2_reset => mkField 15 1
  | peri_reset_uart1_reset => mkField 16 1
  | peri_reset_uart2_reset => mkField 17 1
  | peri_reset_uart3_reset => mkField 18 1
  | peri_reset_aes_reset => mkField 19 1
  | peri_reset_fpioa_reset => mkField 20 1
  | peri_reset_timer0_reset => mkField 21 1
  | peri_reset_timer1_reset => mkField 22 1
  | peri_reset_timer2_reset => mkField 23 1
  | peri_reset_wdt0_reset => mkField 24 1
  | peri_reset_wdt1_reset => mkField 25 1
  | peri_reset_sha_reset => mkField 26 1
  | peri_reset_rtc_reset => mkField 29 1
  end.

#[export] Instance peri_reset_register : Register sysreg peri_reset :=
  { reg_addr := R_peri_reset; reg_field := peri_reset_field }.
#[export] Instance peri_reset_laws : RegisterLaws peri_reset.
Proof. solve_register. Qed.

(** Register clk_th0. *)
Inductive clk_th0 : Type :=
  | clk_th0_sram0_gclk | clk_th0_sram1_gclk | clk_th0_ai_gclk | clk_th0_dvp_gclk
  | clk_th0_rom_gclk.

Definition clk_th0_field (x : clk_th0) : field :=
  match x with
  | clk_th0_sram0_gclk => mkField 0 4
  | clk_th0_sram1_gclk => mkField 4 4
  | clk_th0_ai_gclk => mkField 8 4
  | clk_th0_dvp_gclk => mkField 12 4
  | clk_th0_rom_gclk => mkField 16 4
  end.

#[export] Instance clk_th0_register : Register sysreg clk_th0 :=
  { reg_addr := R_clk_th0; reg_field := clk_th0_field }.
#[export] Instance clk_th0_laws : RegisterLaws clk_th0.
Proof. solve_register. Qed.

(** Register clk_th1. *)
Inductive clk_th1 : Type :=
  | clk_th1_spi0_clk | clk_th1_spi1_clk | clk_th1_spi2_clk | clk_th1_spi3_clk.

Definition clk_th1_field (x : clk_th1) : field :=
  match x with
  | clk_th1_spi0_clk => mkField 0 8
  | clk_th1_spi1_clk => mkField 8 8
  | clk_th1_spi2_clk => mkField 16 8
  | clk_th1_spi3_clk => mkField 24 8
  end.

#[export] Instance clk_th1_register : Register sysreg clk_th1 :=
  { reg_addr := R_clk_th1; reg_field := clk_th1_field }.
#[export] Instance clk_th1_laws : RegisterLaws clk_th1.
Proof. solve_register. Qed.

(** Register clk_th2. *)
Inductive clk_th2 : Type :=
  | clk_th2_timer0_clk | clk_th2_timer1_clk | clk_th2_timer2_clk.

Definition clk_th2_field (x : clk_th2) : field :=
  match x with
  | clk_th2_timer0_clk => mkField 0 8
  | clk_th2_timer1_clk => mkField 8 8
  | clk_th2_timer2_clk => mkField 16 8
  end.

#[export] Instance clk_th2_register : Register sysreg clk_th2 :=
  { reg_addr := R_clk_th2; reg_field := clk_th2_field }.
#[export] Instance clk_th2_laws : RegisterLaws clk_th2.
Proof. solve_register. Qed.

(** Register clk_th3. *)
Inductive clk_th3 : Type :=
  | clk_th3_i2s0_clk | clk_th3_i2s1_clk.

Definition clk_th3_field (x : clk_th3) : field :=
  match x with
  | clk_th3_i2s0_clk => mkField 0 16
  | clk_th3_i2s1_clk => mkField 16 16
  end.

#[export] Instance clk_th3_register : Register sysreg clk_th3 :=
  { reg_addr := R_clk_th3; reg_field := clk_th3_field }.
#[export] Instance clk_th3_laws : RegisterLaws clk_th3.
Proof. solve_register. Qed.

(** Register clk_th4. *)
Inductive clk_th4 : Type :=
  | clk_th4_i2s2_clk | clk_th4_i2s0_mclk | clk_th4_i2s1_mclk.

Definition clk_th4_field (x : clk_th4) : field :=
  match x with
  | clk_th4_i2s2_clk => mkField 0 16
  | clk_th4_i2s0_mclk => mkField 16 8
  | clk_th4_i2s1_mclk => mkField 24 8
  end.

#[export] Instance clk_th4_register : Register sysreg clk_th4 :=
  { reg_addr := R_clk_th4; reg_field := clk_th4_field }.
#[export] Instance clk_th4_laws : RegisterLaws clk_th4.
Proof. solve_register. Qed.

(** Register clk_th5. *)
Inductive clk_th5 : Type :=
  | clk_th5_i2s2_mclk | clk_th5_i2c0_clk | clk_th5_i2c1_clk | clk_th5_i2c2_clk.

Definition clk_th5_field (x : clk_th5) : field :=
  match x with
  | clk_th5_i2s2_mclk => mkField 0 8
  | clk_th5_i2c0_clk => mkField 8 8
  | clk_th5_i2c1_clk => mkField 16 8
  | clk_th5_i2c2_clk => mkField 24 8
  end.

#[export] Instance clk_th5_register : Register sysreg clk_th5 :=
  { reg_addr := R_clk_th5; reg_field := clk_th5_field }.
#[export] Instance clk_th5_laws : RegisterLaws clk_th5.
Proof. solve_register. Qed.

(** Register clk_th6. *)
Inductive clk_th6 : Type :=
  | clk_th6_wdt0_clk | clk_th6_wdt1_clk.

Definition clk_th6_field (x : clk_th6) : field :=
  match x with
  | clk_th6_wdt0_clk => mkField 0 8
  | clk_th6_wdt1_clk => mkField 8 8
  end.

#[export] Instance clk_th6_register : Register sysreg clk_th6 :=
  { reg_addr := R_clk_th6; reg_field := clk_th6_field }.
#[export] Instance clk_th6_laws : RegisterLaws clk_th6.
Proof. solve_register. Qed.

(** Register misc. *)
Inductive misc : Type :=
  | misc_debug_sel | misc_spi_dvp_data_enable.

Definition misc_field (x : misc) : field :=
  match x with
  | misc_debug_sel => mkField 0 6
  | misc_spi_dvp_data_enable => mkField 10 1
  end.

#[export] Instance misc_register : Register sysreg misc :=
  { reg_addr := R_misc; reg_field := misc_field }.
#[export] Instance misc_laws : RegisterLaws misc.
Proof. solve_register. Qed.

(** Register dma_sel0. *)
Inductive dma_sel0 : Type :=
  | dma_sel0_dma_sel0 | dma_sel0_dma_sel1 | dma_sel0_dma_sel2 | dma_sel0_dma_sel3
  | dma_sel0_dma_sel4.

Definition dma_sel0_field (x : dma_sel0) : field :=
  match x with
  | dma_sel0_dma_sel0 => mkField 0 6
  | dma_sel0_dma_sel1 => mkField 6 6
  | dma_sel0_dma_sel2 => mkField 12 6
  | dma_sel0_dma_sel3 => mkField 18 6
  | dma_sel0_dma_sel4 => mkField 24 6
  end.

#[export] Instance dma_sel0_register : Register sysreg dma_sel0 :=
  { reg_addr := R_dma_sel0; reg_field := dma_sel0_field }.
#[export] Instance dma_sel0_laws : RegisterLaws dma_sel0.
Proof. solve_register. Qed.

(** Register dma_sel1. *)
Inductive dma_sel1 : Type :=
  | dma_sel1_dma_sel5.

Definition dma_sel1_field (x : dma_sel1) : field :=
  match x with
  | dma_sel1_dma_sel5 => mkField 0 6
  end.

#[export] Instance dma_sel1_register : Register sysreg dma_sel1 :=
  { reg_addr := R_dma_sel1; reg_field := dma_sel1_field }.
#[export] Instance dma_sel1_laws : RegisterLaws dma_sel1.
Proof. solve_register. Qed.

(** The requests a DMA channel can be bound to ([DMA_SEL0_A]). *)
Inductive dma_select_req : Type :=
  | SSI0_RX_REQ | SSI0_TX_REQ | SSI1_RX_REQ | SSI1_TX_REQ | SSI2_RX_REQ | SSI2_TX_REQ
  | SSI3_RX_REQ | SSI3_TX_REQ | I2C0_RX_REQ | I2C0_TX_REQ | I2C1_RX_REQ | I2C1_TX_REQ
  | I2C2_RX_REQ | I2C2_TX_REQ | UART1_RX_REQ | UART1_TX_REQ | UART2_RX_REQ | UART2_TX_REQ
  | UART3_RX_REQ | UART3_TX_REQ | AES_REQ | SHA_RX_REQ | AI_RX_REQ | FFT_RX_REQ | FFT_TX_REQ
  | I2S0_TX_REQ | I2S0_RX_REQ | I2S1_TX_REQ | I2S1_RX_REQ | I2S2_TX_REQ | I2S2_RX_REQ
  | I2S0_BF_DIR_REQ | I2S0_BF_VOICE_REQ.

Definition dma_select_code (v : dma_select_req) : Z :=
  match v with
  | SSI0_RX_REQ => 0 | SSI0_TX_REQ => 1 | SSI1_RX_REQ => 2 | SSI1_TX_REQ => 3
  | SSI2_RX_REQ => 4 | SSI2_TX_REQ => 5 | SSI3_RX_REQ => 6 | SSI3_TX_REQ => 7
  | I2C0_RX_REQ => 8 | I2C0_TX_REQ => 9 | I2C1_RX_REQ => 10 | I2C1_TX_REQ => 11
  | I2C2_RX_REQ => 12 | I2C2_TX_REQ => 13 | UART1_RX_REQ => 14 | UART1_TX_REQ => 15
  | UART2_RX_REQ => 16 | UART2_TX_REQ => 17 | UART3_RX_REQ => 18 | UART3_TX_REQ => 19
  | AES_REQ => 20 | SHA_RX_REQ => 21 | AI_RX_REQ => 22 | FFT_RX_REQ => 23 | FFT_TX_REQ => 24
  | I2S0_TX_REQ => 25 | I2S0_RX_REQ => 26 | I2S1_TX_REQ => 27 | I2S1_RX_REQ => 28
  | I2S2_TX_REQ => 29 | I2S2_RX_REQ => 30 | I2S0_BF_DIR_REQ => 31 | I2S0_BF_VOICE_REQ => 32
  end.
