(* ===== verification/Sysctl.v ===== *)
(** * Sysctl: clocks and resets of the k210 (k210-soc/src/sysctl.rs, sleep.rs)

    The functions of the system controller on its registers.  What is not in the
    registers comes from [SocEnv]: the time and the lock status of the PLLs. *)

From stdpp Require Import base list numbers functions.
From S2P Require Import Prelude Pll PacReg PacSysctl.

Definition SYSCTRL_CLOCK_FREQ_IN0 : Z := 26000000.

Inductive pll : Type :=
  | pll_PLL0 | pll_PLL1 | pll_PLL2.

Inductive clock_source : Type :=
  | source_IN0 | source_PLL0 | source_PLL1 | source_PLL2 | source_ACLK.

Inductive clock : Type :=
  | clock_PLL0 | clock_PLL1 | clock_PLL2 | clock_CPU | clock_SRAM0 | clock_SRAM1
  | clock_APB0 | clock_APB1 | clock_APB2 | clock_ROM | clock_DMA | clock_AI | clock_DVP
  | clock_FFT | clock_GPIO | clock_SPI0 | clock_SPI1 | clock_SPI2 | clock_SPI3
  | clock_I2S0 | clock_I2S1 | clock_I2S2 | clock_I2C0 | clock_I2C1 | clock_I2C2
  | clock_UART1 | clock_UART2 | clock_UART3 | clock_AES | clock_FPIOA | clock_TIMER0
  | clock_TIMER1 | clock_TIMER2 | clock_WDT0 | clock_WDT1 | clock_SHA | clock_OTP
  | clock_RTC | clock_ACLK | clock_HCLK | clock_IN0.

Inductive threshold : Type :=
  | threshold_ACLK | threshold_APB0 | threshold_APB1 | threshold_APB2 | threshold_SRAM0
  | threshold_SRAM1 | threshold_AI | threshold_DVP | threshold_ROM | threshold_SPI0
  | threshold_SPI1 | threshold_SPI2 | threshold_SPI3 | threshold_TIMER0
  | threshold_TIMER1 | threshold_TIMER2 | threshold_I2S0 | threshold_I2S1
  | threshold_I2S2 | threshold_I2S0_M | threshold_I2S1_M | threshold_I2S2_M
  | threshold_I2C0 | threshold_I2C1 | threshold_I2C2 | threshold_WDT0 | threshold_WDT1.

Inductive clock_select : Type :=
  | select_PLL0_BYPASS | select_PLL1_BYPASS | select_PLL2_BYPASS | select_PLL2
  | select_ACLK | select_SPI3 | select_TIMER0 | select_TIMER1 | select_TIMER2
  | select_SPI3_SAMPLE.

Inductive io_power_mode : Type :=
  | power_V33 | power_V18.

Inductive power_bank : Type :=
  | power_BANK0 | power_BANK1 | power_BANK2 | power_BANK3 | power_BANK4 | power_BANK5
  | power_BANK6 | power_BANK7.

Inductive reset : Type :=
  | reset_SOC | reset_ROM | reset_DMA | reset_AI | reset_DVP | reset_FFT | reset_GPIO
  | reset_SPI0 | reset_SPI1 | reset_SPI2 | reset_SPI3 | reset_I2S0 | reset_I2S1
  | reset_I2S2 | reset_I2C0 | reset_I2C1 | reset_I2C2 | reset_UART1 | reset_UART2
  | reset_UART3 | reset_AES | reset_FPIOA | reset_TIMER0 | reset_TIMER1 | reset_TIMER2
  | reset_WDT0 | reset_WDT1 | reset_SHA | reset_RTC.

Inductive dma_channel : Type :=
  | dma_CHANNEL0 | dma_CHANNEL1 | dma_CHANNEL2 | dma_CHANNEL3 | dma_CHANNEL4
  | dma_CHANNEL5.

#[export] Instance pll_eq_dec : EqDecision pll.
Proof. solve_decision. Defined.
#[export] Instance clock_source_eq_dec : EqDecision clock_source.
Proof. solve_decision. Defined.
#[export] Instance clock_eq_dec : EqDecision clock.
Proof. solve_decision. Defined.
#[export] Instance threshold_eq_dec : EqDecision threshold.
Proof. solve_decision. Defined.
#[export] Instance clock_select_eq_dec : EqDecision clock_select.
Proof. solve_decision. Defined.

(** ** The state *)

Notation sysregs := (sysreg → Z).

(** What a read of the time register and of pll_lock (last written as [w]) gives. *)
Class SocEnv (E : Type) := {
  env_time : E → Z * E;
  env_lock (w : Z) : E → Z * E }.

Record soc (E : Type) := mkSoc { sys : sysregs; env : E }.
Arguments mkSoc {E} _ _.
Arguments sys {E} _.
Arguments env {E} _.

(** The value of a field of a register that only software writes. *)
Definition get_field {F} `{!Register sysreg F} (x : F) (s : sysregs) : Z :=
  fld_get (reg_field x) (s (reg_addr (F := F))).

Definition set_field {F} `{!Register sysreg F} (x : F) (v : Z) (s : sysregs) : sysregs :=
  <[reg_addr (F := F) := fld_set (reg_field x) v (s (reg_addr (F := F)))]> s.

(** ** Reading the clock tree *)

Definition clock_get_threshold (s : sysregs) (which : threshold) : Z :=
  match which with
  | threshold_ACLK => get_field clk_sel0_aclk_divider_sel s
  | threshold_APB0 => get_field clk_sel0_apb0_clk_sel s
  | threshold_APB1 => get_field clk_sel0_apb1_clk_sel s
  | threshold_APB2 => get_field clk_sel0_apb2_clk_sel s
  | threshold_SRAM0 => get_field clk_th0_sram0_gclk s
  | threshold_SRAM1 => get_field clk_th0_sram1_gclk s
  | threshold_AI => get_field clk_th0_ai_gclk s
  | threshold_DVP => get_field clk_th0_dvp_gclk s
  | threshold_ROM => get_field clk_th0_rom_gclk s
  | threshold_SPI0 => get_field clk_th1_spi0_clk s
  | threshold_SPI1 => get_field clk_th1_spi1_clk s
  | threshold_SPI2 => get_field clk_th1_spi2_clk s
  | threshold_SPI3 => get_field clk_th1_spi3_clk s
  | threshold_TIMER0 => get_field clk_th2_timer0_clk s
  | threshold_TIMER1 => get_field clk_th2_timer1_clk s
  | threshold_TIMER2 => get_field clk_th2_timer2_clk s
  | threshold_I2S0_M => get_field clk_th4_i2s0_mclk s
  | threshold_I2S1_M => get_field clk_th4_i2s1_mclk s
  | threshold_I2S2_M => get_field clk_th5_i2s2_mclk s
  | threshold_I2C0 => get_field clk_th5_i2c0_clk s
  | threshold_I2C1 => get_field clk_th5_i2c1_clk s
  | threshold_I2C2 => get_field clk_th5_i2c2_clk s
  | threshold_WDT0 => get_field clk_th6_wdt0_clk s
  | threshold_WDT1 => get_field clk_th6_wdt1_clk s
  | threshold_I2S0 => get_field clk_th3_i2s0_clk s
  | threshold_I2S1 => get_field clk_th3_i2s1_clk s
  | threshold_I2S2 => get_field clk_th4_i2s2_clk s
  end.

Definition clock_get_clock_select (s : sysregs) (which : clock_select) : Z :=
  match which with
  | select_PLL0_BYPASS => get_field pll0_bypass s
  | select_PLL1_BYPASS => get_field pll1_bypass s
  | select_PLL2_BYPASS => get_field pll2_bypass s
  | select_PLL2 => get_field pll2_ckin_sel s
  | select_ACLK => get_field clk_sel0_aclk_sel s
  | select_SPI3 => get_field clk_sel0_spi3_clk_sel s
  | select_TIMER0 => get_field clk_sel0_timer0_clk_sel s
  | select_TIMER1 => get_field clk_sel0_timer1_clk_sel s
  | select_TIMER2 => get_field clk_sel0_timer2_clk_sel s
  | select_SPI3_SAMPLE => get_field clk_sel1_spi3_sample_clk_sel s
  end.

Definition pll2_cksel_to_source (bits : Z) : res clock_source :=
  match bits with
  | 0 => Ok source_IN0
  | 1 => Ok source_PLL0
  | 2 => Ok source_PLL1
  | _ => Stop Panicked
  end.

Definition pll2_source_to_cksel (source : clock_source) : res Z :=
  match source with
  | source_IN0 => Ok 0
  | source_PLL0 => Ok 1
  | source_PLL1 => Ok 2
  | _ => Stop Panicked
  end.

(** [NR], [NF] and [OD] of a PLL, as u8. *)
Definition pll_factors (s : sysregs) (p : pll) : Z * Z * Z :=
  match p with
  | pll_PLL0 => (u8 (get_field pll0_clkr s + 1), u8 (get_field pll0_clkf s + 1),
                 u8 (get_field pll0_clkod s + 1))
  | pll_PLL1 => (u8 (get_field pll1_clkr s + 1), u8 (get_field pll1_clkf s + 1),
                 u8 (get_field pll1_clkod s + 1))
  | pll_PLL2 => (u8 (get_field pll2_clkr s + 1), u8 (get_field pll2_clkf s + 1),
                 u8 (get_field pll2_clkod s + 1))
  end.

(** [(u64::from(freq_in) * nf / (nr * od)).try_into().unwrap()]. *)
Definition pll_output (freq_in nr nf od : Z) : res Z :=
  if nr *u od =? 0 then Stop Panicked
  else
    let out := (freq_in *u nf) / (nr *u od) in
    if out <? 2 ^ 32 then Ok out else Stop Panicked.

(** [freq / div], as u32. *)
Definition div_freq (freq : res Z) (d : Z) : res Z :=
  f ← freq; if d =? 0 then Stop Panicked else Ok (f / d).

(** The source a one-bit selector chooses. *)
Definition select_source (sel : Z) (in0 pll0 : res Z) : res Z :=
  match sel with 0 => in0 | 1 => pll0 | _ => Stop Panicked end.

(** The three functions call each other along the clock tree; [depth] bounds the
    calls. *)
Fixpoint pll_freq (depth : nat) (s : sysregs) (p : pll) : res Z :=
  match depth with
  | O => Stop OutOfFuel
  | S depth =>
      freq_in ← match p with
                | pll_PLL0 | pll_PLL1 => source_freq depth s source_IN0
                | pll_PLL2 =>
                    src ← pll2_cksel_to_source (clock_get_clock_select s select_PLL2);
                    source_freq depth s src
                end;
      let '(nr, nf, od) := pll_factors s p in
      pll_output freq_in nr nf od
  end
with source_freq (depth : nat) (s : sysregs) (source : clock_source) : res Z :=
  match depth with
  | O => Stop OutOfFuel
  | S depth =>
      match source with
      | source_IN0 => Ok SYSCTRL_CLOCK_FREQ_IN0
      | source_PLL0 => pll_freq depth s pll_PLL0
      | source_PLL1 => pll_freq depth s pll_PLL1
      | source_PLL2 => pll_freq depth s pll_PLL2
      | source_ACLK => clock_freq depth s clock_ACLK
      end
  end
with clock_freq (depth : nat) (s : sysregs) (c : clock) : res Z :=
  match depth with
  | O => Stop OutOfFuel
  | S depth =>
      let src := source_freq depth s in
      let thr := clock_get_threshold s in
      let sel := clock_get_clock_select s in
      match c with
      | clock_IN0 => src source_IN0
      | clock_PLL0 => src source_PLL0
      | clock_PLL1 => src source_PLL1
      | clock_PLL2 => src source_PLL2
      | clock_CPU | clock_DMA | clock_FFT | clock_ACLK | clock_HCLK =>
          select_source (sel select_ACLK) (src source_IN0)
            (div_freq (src source_PLL0) (wrap 32 (Z.shiftl 2 (thr threshold_ACLK))))
      | clock_SRAM0 => div_freq (src source_ACLK) (thr threshold_SRAM0 +u32 1)
      | clock_SRAM1 => div_freq (src source_ACLK) (thr threshold_SRAM1 +u32 1)
      | clock_ROM => div_freq (src source_ACLK) (thr threshold_ROM +u32 1)
      | clock_DVP => div_freq (src source_ACLK) (thr threshold_DVP +u32 1)
      | clock_APB0 | clock_GPIO | clock_UART1 | clock_UART2 | clock_UART3 | clock_FPIOA
      | clock_SHA => div_freq (src source_ACLK) (thr threshold_APB0 +u32 1)
      | clock_APB1 | clock_AES | clock_OTP =>
          div_freq (src source_ACLK) (thr threshold_APB1 +u32 1)
      | clock_APB2 => div_freq (src source_ACLK) (thr threshold_APB2 +u32 1)
      | clock_AI => div_freq (src source_PLL1) (thr threshold_AI +u32 1)
      | clock_I2S0 => div_freq (src source_PLL2) ((thr threshold_I2S0 +u32 1) *u32 2)
      | clock_I2S1 => div_freq (src source_PLL2) ((thr threshold_I2S1 +u32 1) *u32 2)
      | clock_I2S2 => div_freq (src source_PLL2) ((thr threshold_I2S2 +u32 1) *u32 2)
      | clock_WDT0 => div_freq (src source_IN0) ((thr threshold_WDT0 +u32 1) *u32 2)
      | clock_WDT1 => div_freq (src source_IN0) ((thr threshold_WDT1 +u32 1) *u32 2)
      | clock_SPI0 => div_freq (src source_PLL0) ((thr threshold_SPI0 +u32 1) *u32 2)
      | clock_SPI1 => div_freq (src source_PLL0) ((thr threshold_SPI1 +u32 1) *u32 2)
      | clock_SPI2 => div_freq (src source_PLL0) ((thr threshold_SPI2 +u32 1) *u32 2)
      | clock_I2C0 => div_freq (src source_PLL0) ((thr threshold_I2C0 +u32 1) *u32 2)
      | clock_I2C1 => div_freq (src source_PLL0) ((thr threshold_I2C1 +u32 1) *u32 2)
      | clock_I2C2 => div_freq (src source_PLL0) ((thr threshold_I2C2 +u32 1) *u32 2)
      | clock_SPI3 =>
          div_freq (select_source (sel select_SPI3) (src source_IN0) (src source_PLL0))
            ((thr threshold_SPI3 +u32 1) *u32 2)
      | clock_TIMER0 =>
          div_freq (select_source (sel select_TIMER0) (src source_IN0) (src source_PLL0))
            ((thr threshold_TIMER0 +u32 1) *u32 2)
      | clock_TIMER1 =>
          div_freq (select_source (sel select_TIMER1) (src source_IN0) (src source_PLL0))
            ((thr threshold_TIMER1 +u32 1) *u32 2)
      | clock_TIMER2 =>
          div_freq (select_source (sel select_TIMER2) (src source_IN0) (src source_PLL0))
            ((thr threshold_TIMER2 +u32 1) *u32 2)
      | clock_RTC => src source_IN0
      end
  end.

(** The longest chain of calls: a clock, ACLK, PLL0, IN0, with the sources between. *)
Definition tree_depth : nat := 6.

Definition pll_get_freq : sysregs → pll → res Z := pll_freq tree_depth.
Definition clock_source_get_freq : sysregs → clock_source → res Z := source_freq tree_depth.
Definition clock_get_freq : sysregs → clock → res Z := clock_freq tree_depth.

(** ** Writing the registers *)

Section soc_ops.
Context {E : Type} `{!SocEnv E}.

(** A volatile read: pll_lock is driven by the hardware. *)
Definition read_reg (rg : sysreg) : M (soc E) Z := λ s,
  if decide (rg = R_pll_lock) then
    let '(v, e) := env_lock (sys s rg) (env s) in Ok (v, mkSoc (sys s) e)
  else Ok (sys s rg, s).

Definition write_reg (rg : sysreg) (v : Z) : M (soc E) () := λ s,
  Ok ((), mkSoc (<[rg := v]> (sys s)) (env s)).

(** [reg.modify(|r, w| ..)]. *)
Definition modify_reg (rg : sysreg) (f : Z → Z) : M (soc E) () :=
  v ← read_reg rg; write_reg rg (f v).

Definition modify_field {F} `{!Register sysreg F} (x : F) (v : Z) : M (soc E) () :=
  modify_reg (reg_addr (F := F)) (fld_set (reg_field x) v).

(** A function of the registers alone. *)
Definition gets_res {A} (f : sysregs → res A) : M (soc E) A := λ s,
  lift_res (f (sys s)) s.

Definition clock_bus_en (c : clock) (en : bool) : M (soc E) () :=
  if en then
    match c with
    | clock_GPIO | clock_SPI2 | clock_I2S0 | clock_I2S1 | clock_I2S2 | clock_I2C0
    | clock_I2C1 | clock_I2C2 | clock_UART1 | clock_UART2 | clock_UART3 | clock_FPIOA
    | clock_TIMER0 | clock_TIMER1 | clock_TIMER2 | clock_SHA =>
        modify_field clk_en_cent_apb0_clk_en (Z.b2z en)
    | clock_AES | clock_WDT0 | clock_WDT1 | clock_OTP | clock_RTC =>
        modify_field clk_en_cent_apb1_clk_en (Z.b2z en)
    | clock_SPI0 | clock_SPI1 => modify_field clk_en_cent_apb2_clk_en (Z.b2z en)
    | _ => mret ()
    end
  else mret ().

Definition clock_device_en (c : clock) (en : bool) : M (soc E) () :=
  match c with
  | clock_PLL0 => modify_field pll0_out_en (Z.b2z en)
  | clock_PLL1 => modify_field pll1_out_en (Z.b2z en)
  | clock_PLL2 => modify_field pll2_out_en (Z.b2z en)
  | clock_CPU => modify_field clk_en_cent_cpu_clk_en (Z.b2z en)
  | clock_SRAM0 => modify_field clk_en_cent_sram0_clk_en (Z.b2z en)
  | clock_SRAM1 => modify_field clk_en_cent_sram1_clk_en (Z.b2z en)
  | clock_APB0 => modify_field clk_en_cent_apb0_clk_en (Z.b2z en)
  | clock_APB1 => modify_field clk_en_cent_apb1_clk_en (Z.b2z en)
  | clock_APB2 => modify_field clk_en_cent_apb2_clk_en (Z.b2z en)
  | clock_ROM => modify_field clk_en_peri_rom_clk_en (Z.b2z en)
  | clock_DMA => modify_field clk_en_peri_dma_clk_en (Z.b2z en)
  | clock_AI => modify_field clk_en_peri_ai_clk_en (Z.b2z en)
  | clock_DVP => modify_field clk_en_peri_dvp_clk_en (Z.b2z en)
  | clock_FFT => modify_field clk_en_peri_fft_clk_en (Z.b2z en)
  | clock_SPI3 => modify_field clk_en_peri_spi3_clk_en (Z.b2z en)
  | clock_GPIO => modify_field clk_en_peri_gpio_clk_en (Z.b2z en)
  | clock_SPI2 => modify_field clk_en_peri_spi2_clk_en (Z.b2z en)
  | clock_I2S0 => modify_field clk_en_peri_i2s0_clk_en (Z.b2z en)
  | clock_I2S1 => modify_field clk_en_peri_i2s1_clk_en (Z.b2z en)
  | clock_I2S2 => modify_field clk_en_peri_i2s2_clk_en (Z.b2z en)
  | clock_I2C0 => modify_field clk_en_peri_i2c0_clk_en (Z.b2z en)
  | clock_I2C1 => modify_field clk_en_peri_i2c1_clk_en (Z.b2z en)
  | clock_I2C2 => modify_field clk_en_peri_i2c2_clk_en (Z.b2z en)
  | clock_UART1 => modify_field clk_en_peri_uart1_clk_en (Z.b2z en)
  | clock_UART2 => modify_field clk_en_peri_uart2_clk_en (Z.b2z en)
  | clock_UART3 => modify_field clk_en_peri_uart3_clk_en (Z.b2z en)
  | clock_FPIOA => modify_field clk_en_peri_fpioa_clk_en (Z.b2z en)
  | clock_TIMER0 => modify_field clk_en_peri_timer0_clk_en (Z.b2z en)
  | clock_TIMER1 => modify_field clk_en_peri_timer1_clk_en (Z.b2z en)
  | clock_TIMER2 => modify_field clk_en_peri_timer2_clk_en (Z.b2z en)
  | clock_SHA => modify_field clk_en_peri_sha_clk_en (Z.b2z en)
  | clock_AES => modify_field clk_en_peri_aes_clk_en (Z.b2z en)
  | clock_WDT0 => modify_field clk_en_peri_wdt0_clk_en (Z.b2z en)
  | clock_WDT1 => modify_field clk_en_peri_wdt1_clk_en (Z.b2z en)
  | clock_OTP => modify_field clk_en_peri_otp_clk_en (Z.b2z en)
  | clock_RTC => modify_field clk_en_peri_rtc_clk_en (Z.b2z en)
  | clock_SPI0 => modify_field clk_en_peri_spi0_clk_en (Z.b2z en)
  | clock_SPI1 => modify_field clk_en_peri_spi1_clk_en (Z.b2z en)
  | clock_ACLK | clock_HCLK | clock_IN0 => mret ()
  end.

Definition clock_enable (c : clock) : M (soc E) () :=
  clock_bus_en c true ;; clock_device_en c true.

Definition sysctl_clock_disable (c : clock) : M (soc E) () :=
  clock_bus_en c false ;; clock_device_en c false.

Definition clock_set_threshold (which : threshold) (thr : Z) : M (soc E) () :=
  match which with
  | threshold_ACLK => modify_field clk_sel0_aclk_divider_sel (wrap 8 thr)
  | threshold_APB0 => modify_field clk_sel0_apb0_clk_sel (wrap 8 thr)
  | threshold_APB1 => modify_field clk_sel0_apb1_clk_sel (wrap 8 thr)
  | threshold_APB2 => modify_field clk_sel0_apb2_clk_sel (wrap 8 thr)
  | threshold_SRAM0 => modify_field clk_th0_sram0_gclk (wrap 8 thr)
  | threshold_SRAM1 => modify_field clk_th0_sram1_gclk (wrap 8 thr)
  | threshold_AI => modify_field clk_th0_ai_gclk (wrap 8 thr)
  | threshold_DVP => modify_field clk_th0_dvp_gclk (wrap 8 thr)
  | threshold_ROM => modify_field clk_th0_rom_gclk (wrap 8 thr)
  | threshold_SPI0 => modify_field clk_th1_spi0_clk (wrap 8 thr)
  | threshold_SPI1 => modify_field clk_th1_spi1_clk (wrap 8 thr)
  | threshold_SPI2 => modify_field clk_th1_spi2_clk (wrap 8 thr)
  | threshold_SPI3 => modify_field clk_th1_spi3_clk (wrap 8 thr)
  | threshold_TIMER0 => modify_field clk_th2_timer0_clk (wrap 8 thr)
  | threshold_TIMER1 => modify_field clk_th2_timer1_clk (wrap 8 thr)
  | threshold_TIMER2 => modify_field clk_th2_timer2_clk (wrap 8 thr)
  | threshold_I2S0_M => modify_field clk_th4_i2s0_mclk (wrap 8 thr)
  | threshold_I2S1_M => modify_field clk_th4_i2s1_mclk (wrap 8 thr)
  | threshold_I2S2_M => modify_field clk_th5_i2s2_mclk (wrap 8 thr)
  | threshold_I2C0 => modify_field clk_th5_i2c0_clk (wrap 8 thr)
  | threshold_I2C1 => modify_field clk_th5_i2c1_clk (wrap 8 thr)
  | threshold_I2C2 => modify_field clk_th5_i2c2_clk (wrap 8 thr)
  | threshold_WDT0 => modify_field clk_th6_wdt0_clk (wrap 8 thr)
  | threshold_WDT1 => modify_field clk_th6_wdt1_clk (wrap 8 thr)
  | threshold_I2S0 => modify_field clk_th3_i2s0_clk (wrap 16 thr)
  | threshold_I2S1 => modify_field clk_th3_i2s1_clk (wrap 16 thr)
  | threshold_I2S2 => modify_field clk_th4_i2s2_clk (wrap 16 thr)
  end.

(** [power_bank as u8]. *)
Definition power_bank_code (b : power_bank) : Z :=
  match b with
  | power_BANK0 => 0 | power_BANK1 => 1 | power_BANK2 => 2 | power_BANK3 => 3
  | power_BANK4 => 4 | power_BANK5 => 5 | power_BANK6 => 6 | power_BANK7 => 7
  end.

Definition set_power_mode (bank : power_bank) (mode : io_power_mode) : M (soc E) () :=
  modify_reg R_power_sel (λ r, set_bit r (power_bank_code bank)
    (match mode with power_V33 => false | power_V18 => true end)).

Definition set_spi0_dvp_data (status : bool) : M (soc E) () :=
  modify_field misc_spi_dvp_data_enable (Z.b2z status).

Definition clock_set_clock_select (which : clock_select) (sel : Z) : M (soc E) () :=
  let on := Z.b2z (negb (sel =? 0)) in
  match which with
  | select_PLL0_BYPASS => modify_field pll0_bypass on
  | select_PLL1_BYPASS => modify_field pll1_bypass on
  | select_PLL2_BYPASS => modify_field pll2_bypass on
  | select_PLL2 => modify_field pll2_ckin_sel sel
  | select_ACLK => modify_field clk_sel0_aclk_sel on
  | select_SPI3 => modify_field clk_sel0_spi3_clk_sel on
  | select_TIMER0 => modify_field clk_sel0_timer0_clk_sel on
  | select_TIMER1 => modify_field clk_sel0_timer1_clk_sel on
  | select_TIMER2 => modify_field clk_sel0_timer2_clk_sel on
  | select_SPI3_SAMPLE => modify_field clk_sel1_spi3_sample_clk_sel on
  end.

Definition reset_ctl (x : reset) (rst_value : bool) : M (soc E) () :=
  match x with
  | reset_SOC => modify_field soft_reset_soft_reset (Z.b2z rst_value)
  | reset_ROM => modify_field peri_reset_rom_reset (Z.b2z rst_value)
  | reset_DMA => modify_field peri_reset_dma_reset (Z.b2z rst_value)
  | reset_AI => modify_field peri_reset_ai_reset (Z.b2z rst_value)
  | reset_DVP => modify_field peri_reset_dvp_reset (Z.b2z rst_value)
  | reset_FFT => modify_field peri_reset_fft_reset (Z.b2z rst_value)
  | reset_GPIO => modify_field peri_reset_gpio_reset (Z.b2z rst_value)
  | reset_SPI0 => modify_field peri_reset_spi0_reset (Z.b2z rst_value)
  | reset_SPI1 => modify_field peri_reset_spi1_reset (Z.b2z rst_value)
  | reset_SPI2 => modify_field peri_reset_spi2_reset (Z.b2z rst_value)
  | reset_SPI3 => modify_field peri_reset_spi3_reset (Z.b2z rst_value)
  | reset_I2S0 => modify_field peri_reset_i2s0_reset (Z.b2z rst_value)
  | reset_I2S1 => modify_field peri_reset_i2s1_reset (Z.b2z rst_value)
  | reset_I2S2 => modify_field peri_reset_i2s2_reset (Z.b2z rst_value)
  | reset_I2C0 => modify_field peri_reset_i2c0_reset (Z.b2z rst_value)
  | reset_I2C1 => modify_field peri_reset_i2c1_reset (Z.b2z rst_value)
  | reset_I2C2 => modify_field peri_reset_i2c2_reset (Z.b2z rst_value)
  | reset_UART1 => modify_field peri_reset_uart1_reset (Z.b2z rst_value)
  | reset_UART2 => modify_field peri_reset_uart2_reset (Z.b2z rst_value)
  | reset_UART3 => modify_field peri_reset_uart3_reset (Z.b2z rst_value)
  | reset_AES => modify_field peri_reset_aes_reset (Z.b2z rst_value)
  | reset_FPIOA => modify_field peri_reset_fpioa_reset (Z.b2z rst_value)
  | reset_TIMER0 => modify_field peri_reset_timer0_reset (Z.b2z rst_value)
  | reset_TIMER1 => modify_field peri_reset_timer1_reset (Z.b2z rst_value)
  | reset_TIMER2 => modify_field peri_reset_timer2_reset (Z.b2z rst_value)
  | reset_WDT0 => modify_field peri_reset_wdt0_reset (Z.b2z rst_value)
  | reset_WDT1 => modify_field peri_reset_wdt1_reset (Z.b2z rst_value)
  | reset_SHA => modify_field peri_reset_sha_reset (Z.b2z rst_value)
  | reset_RTC => modify_field peri_reset_rtc_reset (Z.b2z rst_value)
  end.

Definition dma_select (channel : dma_channel) (select : dma_select_req) : M (soc E) () :=
  match channel with
  | dma_CHANNEL0 => modify_field dma_sel0_dma_sel0 (dma_select_code select)
  | dma_CHANNEL1 => modify_field dma_sel0_dma_sel1 (dma_select_code select)
  | dma_CHANNEL2 => modify_field dma_sel0_dma_sel2 (dma_select_code select)
  | dma_CHANNEL3 => modify_field dma_sel0_dma_sel3 (dma_select_code select)
  | dma_CHANNEL4 => modify_field dma_sel0_dma_sel4 (dma_select_code select)
  | dma_CHANNEL5 => modify_field dma_sel1_dma_sel5 (dma_select_code select)
  end.

(** ** Time (sleep.rs) *)

Definition time_read : M (soc E) Z := λ s,
  let '(t, e) := env_time (env s) in Ok (t, mkSoc (sys s) e).

(** [while time::read() < until {}]. *)
Fixpoint wait_until (fuel : nat) (until : Z) : M (soc E) () :=
  match fuel with
  | O => halt OutOfFuel
  | S fuel => t ← time_read; if t <? until then wait_until fuel until else mret ()
  end.

Definition time_sleep (fuel : nat) (n : Z) : M (soc E) () :=
  start ← time_read; wait_until fuel (start +u n).

(** The ticks of [usleep(n)] at CPU frequency [cpu]. *)
Definition usleep_ticks (cpu n : Z) : Z := (cpu / 62) *u n / 1000000.

Definition usleep (fuel : nat) (n : Z) : M (soc E) () :=
  cpu ← gets_res (λ s, clock_get_freq s clock_CPU);
  time_sleep fuel (usleep_ticks cpu n).

Definition reset_pulse (fuel : nat) (x : reset) : M (soc E) () :=
  reset_ctl x true ;; usleep fuel 10 ;; reset_ctl x false.

(** ** Setting a PLL *)

Definition pll_is_lock (p : pll) : M (soc E) bool :=
  v ← read_reg R_pll_lock;
  mret (match p with
        | pll_PLL0 => fld_get (pll_lock_field pll_lock_pll_lock0) v =? 3
        | pll_PLL1 => Z.land (fld_get (pll_lock_field pll_lock_pll_lock1) v) 1 =? 1
        | pll_PLL2 => Z.land (fld_get (pll_lock_field pll_lock_pll_lock2) v) 1 =? 1
        end).

Definition pll_clear_slip (p : pll) : M (soc E) bool :=
  (match p with
   | pll_PLL0 => modify_field pll_lock_pll_slip_clear0 1
   | pll_PLL1 => modify_field pll_lock_pll_slip_clear1 1
   | pll_PLL2 => modify_field pll_lock_pll_slip_clear2 1
   end) ;;
  pll_is_lock p.

(** [while !pll_is_lock(pll) { pll_clear_slip(pll); }]. *)
Fixpoint wait_lock (fuel : nat) (p : pll) : M (soc E) () :=
  match fuel with
  | O => halt OutOfFuel
  | S fuel =>
      locked ← pll_is_lock p;
      if locked : bool then mret () else (pll_clear_slip p ;; wait_lock fuel p)
  end.

Definition set_out_en (p : pll) (v : Z) : M (soc E) () :=
  match p with
  | pll_PLL0 => modify_field pll0_out_en v
  | pll_PLL1 => modify_field pll1_out_en v
  | pll_PLL2 => modify_field pll2_out_en v
  end.

Definition set_pwrd (p : pll) (v : Z) : M (soc E) () :=
  match p with
  | pll_PLL0 => modify_field pll0_pwrd v
  | pll_PLL1 => modify_field pll1_pwrd v
  | pll_PLL2 => modify_field pll2_pwrd v
  end.

Definition set_reset (p : pll) (v : Z) : M (soc E) () :=
  match p with
  | pll_PLL0 => modify_field pll0_reset v
  | pll_PLL1 => modify_field pll1_reset v
  | pll_PLL2 => modify_field pll2_reset v
  end.

(** The parameters in the register of the PLL. *)
Definition write_params (p : pll) (source : clock_source) (found : Params) : M (soc E) () :=
  match p with
  | pll_PLL0 => modify_reg R_pll0 (λ w,
      fld_set (pll0_field pll0_bwadj) (bwadj found) (fld_set (pll0_field pll0_clkod) (clkod found)
        (fld_set (pll0_field pll0_clkf) (clkf found) (fld_set (pll0_field pll0_clkr) (clkr found) w))))
  | pll_PLL1 => modify_reg R_pll1 (λ w,
      fld_set (pll1_field pll1_bwadj) (bwadj found) (fld_set (pll1_field pll1_clkod) (clkod found)
        (fld_set (pll1_field pll1_clkf) (clkf found) (fld_set (pll1_field pll1_clkr) (clkr found) w))))
  | pll_PLL2 =>
      cksel ← lift_res (pll2_source_to_cksel source);
      modify_reg R_pll2 (λ w,
        fld_set (pll2_field pll2_bwadj) (bwadj found) (fld_set (pll2_field pll2_clkod) (clkod found)
          (fld_set (pll2_field pll2_clkf) (clkf found) (fld_set (pll2_field pll2_clkr) (clkr found)
            (fld_set (pll2_field pll2_ckin_sel) cksel w)))))
  end.

(** [None] is [Err(())]. *)
Definition pll_source_set_freq (p : pll) (source : clock_source) (freq : Z) :
  M (soc E) (option Z) :=
  if (bool_decide (p = pll_PLL0) || bool_decide (p = pll_PLL1))
     && negb (bool_decide (source = source_IN0))
  then mret None
  else
    freq_in ← gets_res (λ s, clock_source_get_freq s source);
    if freq_in =? 0 then mret None
    else
      found ← lift_res (compute_params freq_in freq);
      match found with
      | Some found =>
          write_params p source found ;;
          f ← gets_res (λ s, pll_get_freq s p);
          mret (Some f)
      | None => mret None
      end.

Definition pll_set_freq (fuel : nat) (p : pll) (freq : Z) : M (soc E) (option Z) :=
  (if decide (p = pll_PLL0) then clock_set_clock_select select_ACLK 0 else mret ()) ;;
  set_out_en p 0 ;;
  set_pwrd p 0 ;;
  result ← (if decide (p = pll_PLL2) then
              src ← gets_res (λ s, pll2_cksel_to_source (clock_get_clock_select s select_PLL2));
              pll_source_set_freq p src freq
            else pll_source_set_freq p source_IN0 freq);
  set_pwrd p 1 ;;
  usleep fuel 1 ;;
  set_reset p 0 ;;
  set_reset p 1 ;;
  usleep fuel 1 ;;
  set_reset p 0 ;;
  wait_lock fuel p ;;
  set_out_en p 1 ;;
  (if decide (p = pll_PLL0) then clock_set_clock_select select_ACLK 1 else mret ()) ;;
  mret result.
End soc_ops.
