(* ===== verification/SysctlInv.v ===== *)
(** * SysctlInv: the clock tree, and setting a PLL

    Thresholds are read back and independent; the walk of the clock tree ends; a
    PLL is set to the factors found for it, powered, locked and enabled. *)

From stdpp Require Import base list numbers functions.
From S2P Require Import Prelude Pll PllInv PacReg PacSysctl Sysctl.

(** ** Fields of the register block *)

Section fields.
Context {F : Type} `{!Register sysreg F} `{!RegisterLaws F}.

Lemma get_set_field (x : F) v s : get_field x (set_field x v s) = v mod 2 ^ fld_width (reg_field x).
Proof.
  unfold get_field, set_field. rewrite fn_lookup_insert. apply fld_get_set_same, reg_field_ok.
Qed.

Lemma get_set_field_other (x y : F) v s : x ≠ y → get_field y (set_field x v s) = get_field y s.
Proof.
  intros Hne. unfold get_field, set_field. rewrite fn_lookup_insert.
  apply fld_get_set_other; auto using reg_field_ok, reg_disjoint.
Qed.
End fields.

Lemma get_set_field_reg {F G} `{!Register sysreg F, !Register sysreg G} (x : F) (y : G) v s :
  reg_addr (F := F) ≠ reg_addr (F := G) → get_field y (set_field x v s) = get_field y s.
Proof. intros Hne. unfold get_field, set_field. by rewrite fn_lookup_insert_ne. Qed.

Lemma get_field_range {F} `{!Register sysreg F} `{!RegisterLaws F} (x : F) s :
  0 ≤ get_field x s < 2 ^ fld_width (reg_field x).
Proof. apply fld_get_range, reg_field_ok. Qed.

(** ** Thresholds *)

(** Where a threshold is. *)
Definition threshold_place (w : threshold) : sysreg * field :=
  match w with
  | threshold_ACLK => (R_clk_sel0, clk_sel0_field clk_sel0_aclk_divider_sel)
  | threshold_APB0 => (R_clk_sel0, clk_sel0_field clk_sel0_apb0_clk_sel)
  | threshold_APB1 => (R_clk_sel0, clk_sel0_field clk_sel0_apb1_clk_sel)
  | threshold_APB2 => (R_clk_sel0, clk_sel0_field clk_sel0_apb2_clk_sel)
  | threshold_SRAM0 => (R_clk_th0, clk_th0_field clk_th0_sram0_gclk)
  | threshold_SRAM1 => (R_clk_th0, clk_th0_field clk_th0_sram1_gclk)
  | threshold_AI => (R_clk_th0, clk_th0_field clk_th0_ai_gclk)
  | threshold_DVP => (R_clk_th0, clk_th0_field clk_th0_dvp_gclk)
  | threshold_ROM => (R_clk_th0, clk_th0_field clk_th0_rom_gclk)
  | threshold_SPI0 => (R_clk_th1, clk_th1_field clk_th1_spi0_clk)
  | threshold_SPI1 => (R_clk_th1, clk_th1_field clk_th1_spi1_clk)
  | threshold_SPI2 => (R_clk_th1, clk_th1_field clk_th1_spi2_clk)
  | threshold_SPI3 => (R_clk_th1, clk_th1_field clk_th1_spi3_clk)
  | threshold_TIMER0 => (R_clk_th2, clk_th2_field clk_th2_timer0_clk)
  | threshold_TIMER1 => (R_clk_th2, clk_th2_field clk_th2_timer1_clk)
  | threshold_TIMER2 => (R_clk_th2, clk_th2_field clk_th2_timer2_clk)
  | threshold_I2S0 => (R_clk_th3, clk_th3_field clk_th3_i2s0_clk)
  | threshold_I2S1 => (R_clk_th3, clk_th3_field clk_th3_i2s1_clk)
  | threshold_I2S2 => (R_clk_th4, clk_th4_field clk_th4_i2s2_clk)
  | threshold_I2S0_M => (R_clk_th4, clk_th4_field clk_th4_i2s0_mclk)
  | threshold_I2S1_M => (R_clk_th4, clk_th4_field clk_th4_i2s1_mclk)
  | threshold_I2S2_M => (R_clk_th5, clk_th5_field clk_th5_i2s2_mclk)
  | threshold_I2C0 => (R_clk_th5, clk_th5_field clk_th5_i2c0_clk)
  | threshold_I2C1 => (R_clk_th5, clk_th5_field clk_th5_i2c1_clk)
  | threshold_I2C2 => (R_clk_th5, clk_th5_field clk_th5_i2c2_clk)
  | threshold_WDT0 => (R_clk_th6, clk_th6_field clk_th6_wdt0_clk)
  | threshold_WDT1 => (R_clk_th6, clk_th6_field clk_th6_wdt1_clk)
  end.

(** The width the code comments on. *)
Definition threshold_width (w : threshold) : Z := fld_width (threshold_place w).2.

Lemma threshold_get w s :
  clock_get_threshold s w = fld_get (threshold_place w).2 (s (threshold_place w).1).
Proof. by destruct w. Qed.

Lemma threshold_field_ok w : field_ok (threshold_place w).2.
Proof. destruct w; repeat split; cbn; lia. Qed.

Lemma threshold_apart w w' : w ≠ w' →
  (threshold_place w).1 ≠ (threshold_place w').1 ∨
  fields_disjoint (threshold_place w).2 (threshold_place w').2.
Proof.
  intros Hne. destruct w, w'; try (exfalso; exact (Hne eq_refl)); clear Hne;
    first [left; discriminate | right; left; discriminate | right; right; discriminate].
Qed.

Lemma threshold_range s w : 0 ≤ clock_get_threshold s w < 2 ^ threshold_width w.
Proof. rewrite threshold_get. apply fld_get_range, threshold_field_ok. Qed.

Lemma wrap_mod_small w v n : 0 ≤ n ≤ w → wrap w v mod 2 ^ n = v mod 2 ^ n.
Proof.
  intros Hn. apply Z.bits_inj'. intros i Hi. destruct (decide (i < n)).
  - rewrite !Z.mod_pow2_bits_low, wrap_spec, bool_decide_true by lia. done.
  - rewrite !Z.mod_pow2_bits_high by lia. done.
Qed.

Section threshold_ops.
Context {E : Type} `{!SocEnv E}.
Implicit Types s : soc E.

Lemma modify_reg_run rg f s : rg ≠ R_pll_lock →
  modify_reg rg f s = Ok ((), mkSoc (<[rg := f (sys s rg)]> (sys s)) (env s)).
Proof.
  intros Hne. unfold modify_reg, read_reg, mbind, M_bind. by rewrite decide_False.
Qed.

Lemma clock_set_threshold_run w v s :
  ∃ x, clock_set_threshold w v s =
    Ok ((), mkSoc (<[(threshold_place w).1 :=
      fld_set (threshold_place w).2 x (sys s (threshold_place w).1)]> (sys s)) (env s)) ∧
    x mod 2 ^ threshold_width w = v mod 2 ^ threshold_width w.
Proof.
  destruct w; (eexists; split; [apply modify_reg_run; discriminate|]);
    apply wrap_mod_small; cbn; lia.
Qed.

Lemma set_get_threshold w v s :
  ∃ s', clock_set_threshold w v s = Ok ((), s') ∧ env s' = env s ∧
    clock_get_threshold (sys s') w = v mod 2 ^ threshold_width w ∧
    (∀ w', w' ≠ w → clock_get_threshold (sys s') w' = clock_get_threshold (sys s) w') ∧
    (∀ rg, rg ≠ (threshold_place w).1 → sys s' rg = sys s rg).
Proof.
  destruct (clock_set_threshold_run w v s) as (x & -> & Hx). eexists.
  split; [reflexivity|]. split; [done|]. cbn [sys]. split_and!.
  - rewrite threshold_get, fn_lookup_insert, <- Hx.
    apply fld_get_set_same, threshold_field_ok.
  - intros w' Hw. rewrite !threshold_get.
    destruct (decide ((threshold_place w).1 = (threshold_place w').1)) as [He|He];
      [|by rewrite fn_lookup_insert_ne].
    rewrite <- He, fn_lookup_insert. destruct (threshold_apart w w') as [|Hd]; [done..|].
    apply fld_get_set_other; auto using threshold_field_ok.
  - intros rg Hrg. by rewrite fn_lookup_insert_ne.
Qed.
End threshold_ops.

(** ** The clock tree *)

Lemma pll_freq_depth n s p : pll_freq (4 + n) s p = pll_freq 4 s p.
Proof.
  destruct p; try reflexivity. cbn -[pll_output pll_factors].
  destruct (pll2_cksel_to_source _) as [[]|] eqn:E; try reflexivity;
    unfold pll2_cksel_to_source in E; destruct (get_field _ _) as [|[[]|[]|]|]; discriminate.
Qed.

Lemma source_freq_depth n s x : source_freq (5 + n) s x = source_freq 5 s x.
Proof.
  destruct x; try reflexivity. change (pll_freq (4 + n) s pll_PLL2 = pll_freq 4 s pll_PLL2).
  apply pll_freq_depth.
Qed.

(** The walk of the tree ends: more depth makes no difference. *)
Lemma clock_freq_depth n s c : clock_freq (tree_depth + n) s c = clock_get_freq s c.
Proof.
  unfold clock_get_freq, tree_depth. cbn [Nat.add clock_freq].
  change (S (S (S (S (S n))))) with (5 + n)%nat.
  destruct c; rewrite ?source_freq_depth; reflexivity.
Qed.

Lemma u8_succ z n : 0 ≤ z < n → n ≤ 64 → u8 (z + 1) = z + 1.
Proof. intros Hz Hn. apply wrap_small. unfold in_u. change (2 ^ 8) with 256. lia. Qed.

Lemma pll_factors_range s p : let '(nr, nf, od) := pll_factors s p in
  1 ≤ nr ≤ 16 ∧ 1 ≤ nf ≤ 64 ∧ 1 ≤ od ≤ 16.
Proof.
  destruct p; cbn [pll_factors];
    [pose proof (get_field_range pll0_clkr s) as H1; pose proof (get_field_range pll0_clkf s) as H2;
     pose proof (get_field_range pll0_clkod s) as H3
    |pose proof (get_field_range pll1_clkr s) as H1; pose proof (get_field_range pll1_clkf s) as H2;
     pose proof (get_field_range pll1_clkod s) as H3
    |pose proof (get_field_range pll2_clkr s) as H1; pose proof (get_field_range pll2_clkf s) as H2;
     pose proof (get_field_range pll2_clkod s) as H3];
    cbn -[get_field] in H1, H2, H3;
    rewrite (u8_succ _ 16), (u8_succ _ 64), (u8_succ _ 16) by lia; lia.
Qed.

Lemma pll_output_ok freq nr nf od : 0 ≤ freq ≤ SYSCTRL_CLOCK_FREQ_IN0 →
  1 ≤ nr ≤ 16 → 1 ≤ nf ≤ 64 → 1 ≤ od ≤ 16 →
  pll_output freq nr nf od = Ok (freq * nf / (nr * od)) ∧
  0 ≤ freq * nf / (nr * od) ≤ SYSCTRL_CLOCK_FREQ_IN0 * 64.
Proof.
  unfold SYSCTRL_CLOCK_FREQ_IN0. intros Hf Hr Hn Ho. unfold pll_output.
  assert (1 ≤ nr * od ≤ 256) by nia. assert (0 ≤ freq * nf ≤ 26000000 * 64) by nia.
  rewrite !umul_small by mach.
  assert (0 ≤ freq * nf / (nr * od) ≤ 26000000 * 64).
  { split; [apply Z.div_pos; lia|]. apply Z.div_le_upper_bound; nia. }
  rewrite (proj2 (Z.eqb_neq _ _)) by lia. rewrite (proj2 (Z.ltb_lt _ _)) by (mach_unfold; lia). done.
Qed.

(** PLL0 and PLL1 run from the oscillator, PLL2 if it is selected. *)
Definition from_in0 (s : sysregs) (p : pll) : Prop :=
  p = pll_PLL2 → clock_get_clock_select s select_PLL2 = 0.

Lemma pll_freq_in0 n s p : from_in0 s p → ∃ f, pll_freq (2 + n) s p = Ok f ∧
  0 ≤ f ≤ SYSCTRL_CLOCK_FREQ_IN0 * 64 ∧
  let '(nr, nf, od) := pll_factors s p in f = SYSCTRL_CLOCK_FREQ_IN0 * nf / (nr * od).
Proof.
  intros Hp. pose proof (pll_factors_range s p) as Hr.
  assert (Heq : pll_freq (2 + n) s p =
    let '(nr, nf, od) := pll_factors s p in pll_output SYSCTRL_CLOCK_FREQ_IN0 nr nf od).
  { destruct p; [done..|]. specialize (Hp eq_refl).
    cbn -[pll_output pll_factors clock_get_clock_select]. by rewrite Hp. }
  rewrite Heq. destruct (pll_factors s p) as [[nr nf] od].
  destruct (pll_output_ok SYSCTRL_CLOCK_FREQ_IN0 nr nf od) as [-> Hb];
    [unfold SYSCTRL_CLOCK_FREQ_IN0; lia|tauto..|].
  by eexists.
Qed.

(** A frequency that the hardware can have. *)
Definition freq_ok (r : res Z) : Prop := ∃ f, r = Ok f ∧ 0 ≤ f ≤ SYSCTRL_CLOCK_FREQ_IN0 * 64.

Create HintDb clock.

Lemma div_freq_ok r d : freq_ok r → 1 ≤ d → freq_ok (div_freq r d).
Proof.
  unfold freq_ok, SYSCTRL_CLOCK_FREQ_IN0. intros (f & -> & Hf) Hd. unfold div_freq; simpl.
  rewrite (proj2 (Z.eqb_neq _ _)) by lia. eexists. split; [done|].
  split; [apply Z.div_pos; lia|]. apply Z.div_le_upper_bound; nia.
Qed.

Lemma threshold_width_le w : 0 ≤ threshold_width w ≤ 16.
Proof. destruct w; cbn; lia. Qed.

Lemma threshold_le s w : 0 ≤ clock_get_threshold s w < 65536.
Proof.
  pose proof (threshold_range s w). pose proof (threshold_width_le w).
  pose proof (Z.pow_le_mono_r 2 (threshold_width w) 16). change (2 ^ 16) with 65536 in *. lia.
Qed.

Lemma divisor_ok s w : 1 ≤ clock_get_threshold s w +u32 1.
Proof. pose proof (threshold_le s w). mach. Qed.

Lemma divisor2_ok s w : 1 ≤ (clock_get_threshold s w +u32 1) *u32 2.
Proof.
  pose proof (threshold_le s w). unfold umul32. rewrite uadd32_small by mach.
  rewrite wrap_small by mach. lia.
Qed.

Lemma aclk_divisor_ok s : 1 ≤ wrap 32 (Z.shiftl 2 (clock_get_threshold s threshold_ACLK)).
Proof.
  pose proof (threshold_range s threshold_ACLK) as Ht. change (2 ^ threshold_width _) with 4 in Ht.
  rewrite Z.shiftl_mul_pow2 by lia.
  assert (1 ≤ 2 ^ clock_get_threshold s threshold_ACLK ≤ 2 ^ 4).
  { split; [apply Z.pow_le_mono_r with (b := 0)|apply Z.pow_le_mono_r]; lia. }
  rewrite wrap_small by mach. lia.
Qed.

Lemma select_source_ok sel a b : 0 ≤ sel < 2 → freq_ok a → freq_ok b →
  freq_ok (select_source sel a b).
Proof.
  intros Hs Ha Hb. assert (sel = 0 ∨ sel = 1) as [-> | ->] by lia; done.
Qed.

Lemma select_range s x : x ≠ select_PLL2 → 0 ≤ clock_get_clock_select s x < 2.
Proof.
  intros Hx. destruct x; try done; cbn [clock_get_clock_select];
    match goal with |- context [get_field ?y s] => exact (get_field_range y s) end.
Qed.

Lemma in0_ok n s : freq_ok (source_freq (S n) s source_IN0).
Proof. exists SYSCTRL_CLOCK_FREQ_IN0. split; [done|]. unfold SYSCTRL_CLOCK_FREQ_IN0. lia. Qed.

Lemma pll_in0_ok n s p : from_in0 s p → freq_ok (pll_freq (S (S n)) s p).
Proof. intros Hp. destruct (pll_freq_in0 n s p Hp) as (f & Hf & Hr & _). by exists f. Qed.

#[export] Hint Resolve div_freq_ok divisor_ok divisor2_ok aclk_divisor_ok select_source_ok
  in0_ok : clock.
#[export] Hint Extern 1 (_ ≠ _) => discriminate : clock.
#[export] Hint Resolve select_range pll_in0_ok : clock.
#[export] Hint Extern 1 (from_in0 _ _) => (intros [=]) : clock.

Lemma aclk_ok n s : freq_ok (clock_freq (S (S (S (S n)))) s clock_ACLK).
Proof.
  change (freq_ok (select_source (clock_get_clock_select s select_ACLK)
    (source_freq (S (S (S n))) s source_IN0)
    (div_freq (pll_freq (S (S n)) s pll_PLL0)
       (wrap 32 (Z.shiftl 2 (clock_get_threshold s threshold_ACLK)))))).
  auto with clock.
Qed.

(** The clocks that run from PLL2. *)
Definition uses_pll2 (c : clock) : bool :=
  match c with clock_PLL2 | clock_I2S0 | clock_I2S1 | clock_I2S2 => true | _ => false end.

Lemma source_ok s x : x ≠ source_PLL2 ∨ clock_get_clock_select s select_PLL2 = 0 →
  freq_ok (source_freq 5 s x).
Proof.
  intros Hsel. destruct x.
  - auto with clock.
  - change (freq_ok (pll_freq 4 s pll_PLL0)). auto with clock.
  - change (freq_ok (pll_freq 4 s pll_PLL1)). auto with clock.
  - change (freq_ok (pll_freq 4 s pll_PLL2)). apply pll_in0_ok. intros _. by destruct Hsel.
  - apply aclk_ok.
Qed.

Lemma clock_get_freq_ok s c : uses_pll2 c = false ∨ clock_get_clock_select s select_PLL2 = 0 →
  freq_ok (clock_get_freq s c).
Proof.
  intros Hsel.
  assert (Hs : ∀ x, x ≠ source_PLL2 → freq_ok (source_freq 5 s x)) by (intros x ?; apply source_ok; by left).
  assert (H2 : uses_pll2 c = true → freq_ok (source_freq 5 s source_PLL2)).
  { intros Hc. apply source_ok. destruct Hsel as [Hsel|Hsel]; [congruence|by right]. }
  unfold clock_get_freq, tree_depth. destruct c; cbn [clock_freq]; auto 10 with clock.
Qed.

(** PLL2 from another PLL: the product may be too large for the code's u32. *)
Definition pll2_fits (s : sysregs) : Prop :=
  ∃ src f, pll2_cksel_to_source (clock_get_clock_select s select_PLL2) = Ok src ∧
    clock_source_get_freq s src = Ok f ∧
    let '(nr, nf, od) := pll_factors s pll_PLL2 in f * nf / (nr * od) < 2 ^ 32.

Lemma pll_output_cases freq nr nf od : in_u 32 freq → 1 ≤ nr ≤ 16 → 1 ≤ nf ≤ 64 → 1 ≤ od ≤ 16 →
  pll_output freq nr nf od = (if freq * nf / (nr * od) <? 2 ^ 32 then Ok (freq * nf / (nr * od)) else Stop Panicked)
  ∧ 0 ≤ freq * nf / (nr * od).
Proof.
  intros Hf Hr Hn Ho. mach_unfold. unfold pll_output.
  assert (1 ≤ nr * od ≤ 256) by nia. assert (0 ≤ freq * nf ≤ 2 ^ 32 * 64) by nia.
  rewrite !umul_small by (mach_unfold; lia). rewrite (proj2 (Z.eqb_neq _ _)) by lia.
  split; [done|]. apply Z.div_pos; lia.
Qed.

Lemma pll2_freq_cases s :
  (∃ f, source_freq 5 s source_PLL2 = Ok f ∧ in_u 32 f ∧ pll2_fits s) ∨
  (source_freq 5 s source_PLL2 = Stop Panicked ∧ ¬ pll2_fits s).
Proof.
  pose proof (pll_factors_range s pll_PLL2) as Hr. unfold pll2_fits.
  assert (Heq : source_freq 5 s source_PLL2 =
    (src ← pll2_cksel_to_source (clock_get_clock_select s select_PLL2);
     f ← source_freq 3 s src;
     let '(nr, nf, od) := pll_factors s pll_PLL2 in pll_output f nr nf od)).
  { change (source_freq 5 s source_PLL2) with (pll_freq 4 s pll_PLL2).
    cbn [pll_freq]. by destruct (pll2_cksel_to_source _). }
  rewrite Heq. destruct (pll2_cksel_to_source _) as [src|] eqn:Hsrc; cycle 1.
  { right. unfold pll2_cksel_to_source in Hsrc.
    assert (s0 = Panicked) as -> by (repeat case_match; congruence).
    split; [done|]. intros (? & ? & [=] & _). }
  assert (Hf : freq_ok (source_freq 3 s src) ∧ clock_source_get_freq s src = source_freq 3 s src).
  { unfold pll2_cksel_to_source in Hsrc. repeat case_match; simplify_eq;
      (split; [|reflexivity]);
      first [apply in0_ok|exact (pll_in0_ok 0 s pll_PLL0 ltac:(intros [=]))
            |exact (pll_in0_ok 0 s pll_PLL1 ltac:(intros [=]))]. }
  destruct Hf as [(f & Hf & Hb) Hget]. unfold SYSCTRL_CLOCK_FREQ_IN0 in Hb.
  cbn [mbind res_bind]. rewrite Hf. cbn [mbind res_bind]. destruct (pll_factors s pll_PLL2) as [[nr nf] od].
  destruct (pll_output_cases f nr nf od) as [-> H0]; [mach_unfold; lia|tauto..|].
  destruct (Z.ltb_spec (f * nf / (nr * od)) (2 ^ 32)) as [Hlt|Hge].
  - left. eexists. split; [done|]. split; [mach_unfold; lia|].
    exists src, f. rewrite Hget, Hf. done.
  - right. split; [done|]. intros (? & ? & [= <-] & Hx & Hlt). rewrite Hget, Hf in Hx.
    injection Hx as <-. lia.
Qed.

Lemma div_freq_u32 r d : (∃ f, r = Ok f ∧ in_u 32 f) → 1 ≤ d → ∃ f, div_freq r d = Ok f ∧ in_u 32 f.
Proof.
  intros (f & -> & Hf) Hd. unfold div_freq; cbn. rewrite (proj2 (Z.eqb_neq _ _)) by lia.
  eexists. split; [done|]. mach_unfold. split; [apply Z.div_pos; lia|].
  apply Z.div_lt_upper_bound; nia.
Qed.

Lemma clock_pll2_cases s c : uses_pll2 c = true →
  (pll2_fits s ∧ ∃ f, clock_get_freq s c = Ok f ∧ in_u 32 f) ∨
  (¬ pll2_fits s ∧ clock_get_freq s c = Stop Panicked).
Proof.
  intros Hc. destruct (pll2_freq_cases s) as [(f & Hf & Hu & Hfit)|[Hf Hfit]]; [left|right];
    (split; [exact Hfit|]); unfold clock_get_freq, tree_depth;
    destruct c; try discriminate Hc; cbn [clock_freq]; rewrite Hf; try reflexivity;
    first [by exists f|apply div_freq_u32; [by exists f|apply divisor2_ok]].
Qed.

(** The CPU runs from the oscillator or PLL0, whatever PLL2 does. *)
Lemma cpu_freq_ok s : freq_ok (clock_get_freq s clock_CPU).
Proof. exact (aclk_ok 2 s). Qed.

(** ** The environment

    [env_ok b e]: the timer and the PLLs behave for [b] more waits.  The timer
    reaches a time up to 2^24 ticks away, and a PLL that is polled locks, both within
    [env_polls] turns of the loop that waits. *)

Section env_runs.
Context {E : Type} `{!SocEnv E}.

(** Reading the time until it is [until], with [k] reads before. *)
Inductive reaches (until : Z) : nat → E → E → Prop :=
| reach_hit e t e' : env_time e = (t, e') → until ≤ t → reaches until 0 e e'
| reach_miss k e t e' e'' : env_time e = (t, e') → t < until →
    reaches until k e' e'' → reaches until (S k) e e''.

Definition locked (p : pll) (v : Z) : bool :=
  match p with
  | pll_PLL0 => fld_get (pll_lock_field pll_lock_pll_lock0) v =? 3
  | pll_PLL1 => Z.land (fld_get (pll_lock_field pll_lock_pll_lock1) v) 1 =? 1
  | pll_PLL2 => Z.land (fld_get (pll_lock_field pll_lock_pll_lock2) v) 1 =? 1
  end.

Definition slip_clear (p : pll) (v : Z) : Z :=
  match p with
  | pll_PLL0 => fld_set (pll_lock_field pll_lock_pll_slip_clear0) 1 v
  | pll_PLL1 => fld_set (pll_lock_field pll_lock_pll_slip_clear1) 1 v
  | pll_PLL2 => fld_set (pll_lock_field pll_lock_pll_slip_clear2) 1 v
  end.

(** Polling the lock of [p], with the slip cleared [k] times before it locks. *)
Inductive locks (p : pll) : nat → Z → E → E → Prop :=
| lock_hit w e v e' : env_lock w e = (v, e') → locked p v = true → locks p 0 w e e'
| lock_miss k w e v1 e1 v2 e2 v3 e3 e' : env_lock w e = (v1, e1) → locked p v1 = false →
    env_lock w e1 = (v2, e2) → env_lock (slip_clear p v2) e2 = (v3, e3) →
    locks p k (slip_clear p v2) e3 e' → locks p (S k) w e e'.

(** The lock register after the wait for [p]: as it was, or as it was read at some
    time with the bit set that clears the slip of [p]. *)
Definition lock_after (p : pll) (w w' : Z) : Prop :=
  w' = w ∨ ∃ w1 e1 v e2, env_lock w1 e1 = (v, e2) ∧ w' = slip_clear p v.
End env_runs.

Class SocEnvLaws (E : Type) `{!SocEnv E} := {
  env_polls : nat;
  env_ok : nat → E → Prop;
  env_sleeps b e n t e1 : env_ok (S b) e → 0 ≤ n ≤ 2 ^ 24 → env_time e = (t, e1) →
    in_u 64 (t + n) ∧ ∃ k e2, (k < env_polls)%nat ∧ reaches (t + n) k e1 e2 ∧ env_ok b e2;
  env_locks b e p w : env_ok (S b) e →
    ∃ k e', (k < env_polls)%nat ∧ locks p k w e e' ∧ env_ok b e' }.

Section waits.
Context {E : Type} `{!SocEnv E} `{!SocEnvLaws E}.
Implicit Types r : sysregs.
Implicit Types e : E.

Lemma wait_until_run until k e e' r fuel : reaches until k e e' → (k < fuel)%nat →
  wait_until fuel until (mkSoc r e) = Ok ((), mkSoc r e').
Proof.
  intros H. revert fuel. induction H as [e t e' He Ht|k e t e' e'' He Ht _ IH];
    intros [|fuel] Hf; try lia; cbn [wait_until];
    unfold mbind, M_bind, time_read; cbn [env]; rewrite He.
  - by rewrite (proj2 (Z.ltb_ge _ _)).
  - rewrite (proj2 (Z.ltb_lt _ _)) by done. apply IH. lia.
Qed.

Lemma usleep_run b r e n fuel : env_ok (S b) e → 0 ≤ n ≤ 100000 → (env_polls ≤ fuel)%nat →
  ∃ e', usleep fuel n (mkSoc r e) = Ok ((), mkSoc r e') ∧ env_ok b e'.
Proof.
  intros He Hn Hf. destruct (cpu_freq_ok r) as (cpu & Hcpu & Hr).
  unfold SYSCTRL_CLOCK_FREQ_IN0 in Hr.
  assert (Ht : 0 ≤ usleep_ticks cpu n ≤ 2 ^ 24).
  { unfold usleep_ticks. assert (0 ≤ cpu / 62 ≤ 26838710).
    { split; [apply Z.div_pos; lia|]. apply Z.div_le_upper_bound; lia. }
    rewrite umul_small by (mach_unfold; nia).
    split; [apply Z.div_pos; nia|]. apply Z.div_le_upper_bound; nia. }
  destruct (env_time e) as [t e1] eqn:Et.
  destruct (env_sleeps b e _ t e1 He Ht Et) as (Hu & k & e2 & Hk & Hreach & Hok).
  exists e2. split; [|done]. unfold usleep, gets_res, mbind, M_bind. cbn [sys]. rewrite Hcpu.
  simpl. unfold time_sleep, mbind, M_bind, time_read. cbn [env]. rewrite Et.
  rewrite uadd_small by done. apply (wait_until_run _ k); [done|lia].
Qed.

Lemma is_lock_run p r e v e' : env_lock (r R_pll_lock) e = (v, e') →
  pll_is_lock p (mkSoc r e) = Ok (locked p v, mkSoc r e').
Proof.
  intros He. unfold pll_is_lock, mbind, M_bind, read_reg. rewrite decide_True by done.
  cbn [sys env]. by rewrite He.
Qed.

Lemma clear_slip_run p r e v2 e2 v3 e3 : env_lock (r R_pll_lock) e = (v2, e2) →
  env_lock (slip_clear p v2) e2 = (v3, e3) →
  pll_clear_slip p (mkSoc r e) =
    Ok (locked p v3, mkSoc (<[R_pll_lock := slip_clear p v2]> r) e3).
Proof.
  intros H2 H3. unfold pll_clear_slip.
  assert (Hm : (match p with
     | pll_PLL0 => modify_field pll_lock_pll_slip_clear0 1
     | pll_PLL1 => modify_field pll_lock_pll_slip_clear1 1
     | pll_PLL2 => modify_field pll_lock_pll_slip_clear2 1
     end) (mkSoc r e) = Ok ((), mkSoc (<[R_pll_lock := slip_clear p v2]> r) e2)).
  { destruct p; unfold modify_field, modify_reg, mbind, M_bind, read_reg;
      (rewrite decide_True by done); cbn [sys env]; change (reg_addr (F := pll_lock)) with R_pll_lock;
      rewrite H2; reflexivity. }
  run Hm. apply is_lock_run. by rewrite fn_lookup_insert.
Qed.

Lemma wait_lock_run p k w e e' r fuel : locks p k w e e' → r R_pll_lock = w → (k < fuel)%nat →
  ∃ r', wait_lock fuel p (mkSoc r e) = Ok ((), mkSoc r' e') ∧
    lock_after p w (r' R_pll_lock) ∧ ∀ rg, rg ≠ R_pll_lock → r' rg = r rg.
Proof.
  intros H. revert r fuel.
  induction H as [w e v e' He Hl|k w e v1 e1 v2 e2 v3 e3 e' H1 Hl H2 H3 _ IH];
    intros r [|fuel] Hr Hf; try lia; cbn [wait_lock]; subst w.
  - run (is_lock_run p r e v e' He). rewrite Hl. exists r. split; [done|]. by split; [left|].
  - run (is_lock_run p r e v1 e1 H1). rewrite Hl. run (clear_slip_run p r e1 v2 e2 v3 e3 H2 H3).
    destruct (IH (<[R_pll_lock := slip_clear p v2]> r) fuel) as (r' & Hrun & Hl' & Hr').
    { by rewrite fn_lookup_insert. } { lia. }
    exists r'. split; [done|]. split.
    { right. destruct Hl' as [->|Hl']; [by exists (r R_pll_lock), e1, v2, e2|exact Hl']. }
    intros rg Hrg. rewrite Hr' by done. by rewrite fn_lookup_insert_ne.
Qed.
End waits.

(** ** Setting a PLL that runs from the oscillator *)

Definition pll_reg (p : pll) : sysreg :=
  match p with pll_PLL0 => R_pll0 | pll_PLL1 => R_pll1 | pll_PLL2 => R_pll2 end.

(** The fields of a PLL's register that matter here are at the same place in all three. *)
Definition F_clkr : field := mkField 0 4.
Definition F_clkf : field := mkField 4 6.
Definition F_clkod : field := mkField 10 4.
Definition F_bwadj : field := mkField 14 6.
Definition F_reset : field := mkField 20 1.
Definition F_pwrd : field := mkField 21 1.
Definition F_out_en : field := mkField 25 1.
Definition F_ckin_sel : field := mkField 26 2.

(** What setting a PLL leaves alone: feedback, bypass and test, and the bits from 26
    up, among them the select of the source of PLL2. *)
Definition kept_fields : list field := [mkField 22 3; F_ckin_sel; mkField 28 4].

Ltac fld := first [ repeat split; cbn; lia | left; cbn; lia | right; cbn; lia ].

(** The frequency a register word stands for, from the oscillator. *)
Definition pll_word_freq (w : Z) : Z :=
  SYSCTRL_CLOCK_FREQ_IN0 * (fld_get F_clkf w + 1) / ((fld_get F_clkr w + 1) * (fld_get F_clkod w + 1)).

Lemma pll_factors_word s p : pll_factors s p =
  (fld_get F_clkr (s (pll_reg p)) + 1, fld_get F_clkf (s (pll_reg p)) + 1,
   fld_get F_clkod (s (pll_reg p)) + 1).
Proof.
  assert (Hfac : pll_factors s p = (u8 (fld_get F_clkr (s (pll_reg p)) + 1),
    u8 (fld_get F_clkf (s (pll_reg p)) + 1), u8 (fld_get F_clkod (s (pll_reg p)) + 1)))
    by (by destruct p).
  rewrite Hfac.
  pose proof (fld_get_range F_clkr (s (pll_reg p)) ltac:(fld)) as H1.
  pose proof (fld_get_range F_clkf (s (pll_reg p)) ltac:(fld)) as H2.
  pose proof (fld_get_range F_clkod (s (pll_reg p)) ltac:(fld)) as H3.
  cbn -[fld_get] in H1, H2, H3. by rewrite !(u8_succ _ 64) by lia.
Qed.

Lemma pll_get_freq_word s p : from_in0 s p →
  pll_get_freq s p = Ok (pll_word_freq (s (pll_reg p))).
Proof.
  intros Hp. destruct (pll_freq_in0 4 s p Hp) as (f & Hf & _ & Hw).
  unfold pll_get_freq. change tree_depth with (2 + 4)%nat. rewrite Hf. f_equal.
  by rewrite pll_factors_word in Hw.
Qed.

(** A word with new parameters. *)
Definition params_word (p : pll) (q : Params) (w : Z) : Z :=
  fld_set F_bwadj (bwadj q) (fld_set F_clkod (clkod q) (fld_set F_clkf (clkf q)
    (fld_set F_clkr (clkr q) (if decide (p = pll_PLL2) then fld_set F_ckin_sel 0 w else w)))).

Definition params_freq (q : Params) : Z :=
  SYSCTRL_CLOCK_FREQ_IN0 * (clkf q + 1) / ((clkr q + 1) * (clkod q + 1)).

Lemma word_freq_other f v w : field_ok f → 20 ≤ fld_off f →
  pll_word_freq (fld_set f v w) = pll_word_freq w.
Proof.
  intros Hf Ho. unfold pll_word_freq.
  rewrite !(fld_get_set_other f) by (try done; try fld; right; cbn; lia). done.
Qed.

Lemma word_freq_params p q w : 0 ≤ clkr q < 16 → 0 ≤ clkf q < 64 → 0 ≤ clkod q < 16 →
  pll_word_freq (params_word p q w) = params_freq q.
Proof.
  intros Hr Hf Ho. unfold pll_word_freq, params_word, params_freq.
  rewrite !(fld_get_set_other F_bwadj) by fld.
  rewrite (fld_get_set_same F_clkod) by fld.
  rewrite (fld_get_set_other F_clkod F_clkf), (fld_get_set_same F_clkf) by fld.
  rewrite (fld_get_set_other F_clkod F_clkr), (fld_get_set_other F_clkf F_clkr),
    (fld_get_set_same F_clkr) by fld.
  change (2 ^ fld_width F_clkr) with 16. change (2 ^ fld_width F_clkf) with 64.
  change (2 ^ fld_width F_clkod) with 16. by rewrite !Z.mod_small by lia.
Qed.

Section set_pll.
Context {E : Type} `{!SocEnv E} `{!SocEnvLaws E}.
Implicit Types r : sysregs.
Implicit Types e : E.

Definition upd (rg : sysreg) (f : Z → Z) (r : sysregs) : sysregs := <[rg := f (r rg)]> r.

Lemma gets_res_run {A} (f : sysregs → res A) (s : soc E) a :
  f (sys s) = Ok a → gets_res f s = Ok (a, s).
Proof. intros H. unfold gets_res. by rewrite H. Qed.

Lemma set_out_en_run p v r e : set_out_en p v (mkSoc r e) =
  Ok ((), mkSoc (upd (pll_reg p) (fld_set F_out_en v) r) e).
Proof. destruct p; apply modify_reg_run; discriminate. Qed.

Lemma set_pwrd_run p v r e : set_pwrd p v (mkSoc r e) =
  Ok ((), mkSoc (upd (pll_reg p) (fld_set F_pwrd v) r) e).
Proof. destruct p; apply modify_reg_run; discriminate. Qed.

Lemma set_reset_run p v r e : set_reset p v (mkSoc r e) =
  Ok ((), mkSoc (upd (pll_reg p) (fld_set F_reset v) r) e).
Proof. destruct p; apply modify_reg_run; discriminate. Qed.

Lemma select_aclk_run v r e : clock_set_clock_select select_ACLK v (mkSoc r e) =
  Ok ((), mkSoc (upd R_clk_sel0
    (fld_set (clk_sel0_field clk_sel0_aclk_sel) (Z.b2z (negb (v =? 0)))) r) e).
Proof. apply modify_reg_run. discriminate. Qed.

(** What setting the parameters gives: the frequency, and the word. *)
Definition set_result (p : pll) (freq : Z) (w : Z) : option Z * Z :=
  match compute_params SYSCTRL_CLOCK_FREQ_IN0 freq with
  | Ok (Some q) => (Some (pll_word_freq (params_word p q w)), params_word p q w)
  | _ => (None, w)
  end.

Lemma in0_word (r : sysregs) p : from_in0 r p ↔ (p = pll_PLL2 → fld_get F_ckin_sel (r (pll_reg p)) = 0).
Proof using. unfold from_in0. split; intros H ->; exact (H eq_refl). Qed.

(** The selection of the source is written with the parameters. *)
Lemma params_word_in0 p q w : p = pll_PLL2 → fld_get F_ckin_sel (params_word p q w) = 0.
Proof using.
  intros ->. unfold params_word. rewrite decide_True by done.
  rewrite !(fld_get_set_other _ F_ckin_sel) by fld. by rewrite fld_get_set_same by fld.
Qed.

Lemma source_set_run p freq r e :
  pll_source_set_freq p source_IN0 freq (mkSoc r e) =
    Ok ((set_result p freq (r (pll_reg p))).1,
        mkSoc (match compute_params SYSCTRL_CLOCK_FREQ_IN0 freq with
               | Ok (Some q) => upd (pll_reg p) (params_word p q) r
               | _ => r
               end) e).
Proof.
  unfold pll_source_set_freq. rewrite (bool_decide_true (source_IN0 = source_IN0)) by done.
  rewrite andb_false_r.
  run (gets_res_run (λ s, clock_source_get_freq s source_IN0) (mkSoc r e) _ eq_refl).
  change (SYSCTRL_CLOCK_FREQ_IN0 =? 0) with false. cbn match.
  unfold set_result. destruct (compute_params_ok SYSCTRL_CLOCK_FREQ_IN0 freq) as (o & Ho & _).
  rewrite Ho. rewrite M_res_bind. destruct o as [q|]; [|done].
  assert (Hw : write_params p source_IN0 q (mkSoc r e) =
    Ok ((), mkSoc (upd (pll_reg p) (params_word p q) r) e)).
  { destruct p; apply modify_reg_run; discriminate. }
  run Hw. set (r' := upd (pll_reg p) (params_word p q) r).
  assert (Hp : from_in0 r' p)
    by (apply in0_word; unfold r', upd; rewrite fn_lookup_insert; apply params_word_in0).
  run (gets_res_run (λ s, pll_get_freq s p) (mkSoc r' e) _ (pll_get_freq_word r' p Hp)).
  subst r'.
  unfold upd. by rewrite fn_lookup_insert.
Qed.

Lemma upd_same rg f r : upd rg f r rg = f (r rg).
Proof. unfold upd. by rewrite fn_lookup_insert. Qed.

Lemma upd_other rg rg' f r : rg' ≠ rg → upd rg f r rg' = r rg'.
Proof. intros H. unfold upd. by rewrite fn_lookup_insert_ne. Qed.

Lemma set_result_eq p freq r : match compute_params SYSCTRL_CLOCK_FREQ_IN0 freq with
   | Ok (Some q) => upd (pll_reg p) (params_word p q) r
   | _ => r
   end (pll_reg p) = (set_result p freq (r (pll_reg p))).2.
Proof.
  unfold set_result. destruct (compute_params _ _) as [[q|]|]; [by rewrite upd_same|done..].
Qed.

Lemma set_result_other p freq r rg : rg ≠ pll_reg p →
  match compute_params SYSCTRL_CLOCK_FREQ_IN0 freq with
   | Ok (Some q) => upd (pll_reg p) (params_word p q) r
   | _ => r
   end rg = r rg.
Proof.
  intros H. destruct (compute_params _ _) as [[q|]|]; [by rewrite upd_other|done..].
Qed.

(** The word of the PLL at the end. *)
Definition set_word (p : pll) (freq w : Z) : Z :=
  fld_set F_out_en 1 (fld_set F_reset 0 (fld_set F_reset 1 (fld_set F_reset 0 (fld_set F_pwrd 1
    (set_result p freq (fld_set F_pwrd 0 (fld_set F_out_en 0 w))).2)))).

(** Step 4: the source is the oscillator. *)
Definition set_params (p : pll) (freq : Z) : M (soc E) (option Z) :=
  if decide (p = pll_PLL2) then
    src ← gets_res (λ s, pll2_cksel_to_source (clock_get_clock_select s select_PLL2));
    pll_source_set_freq p src freq
  else pll_source_set_freq p source_IN0 freq.

Lemma set_params_in0 p freq r e : from_in0 r p →
  set_params p freq (mkSoc r e) = pll_source_set_freq p source_IN0 freq (mkSoc r e).
Proof.
  intros Hp. unfold set_params. case_decide as Hd; [|done].
  assert (Hsrc : pll2_cksel_to_source (clock_get_clock_select r select_PLL2) = Ok source_IN0)
    by (by rewrite (Hp Hd)).
  by run (gets_res_run (λ s, pll2_cksel_to_source (clock_get_clock_select s select_PLL2))
    (mkSoc r e) source_IN0 Hsrc).
Qed.

(** From the switch of ACLK to the switch back. *)
Lemma pll_set_body p freq r e b fuel (k : option Z → M (soc E) (option Z)) :
  from_in0 r p → env_ok (3 + b) e → (env_polls ≤ fuel)%nat →
  ∃ r' e', env_ok b e' ∧
    r' (pll_reg p) = set_word p freq (r (pll_reg p)) ∧
    lock_after p (r R_pll_lock) (r' R_pll_lock) ∧
    (∀ rg, rg ≠ pll_reg p → rg ≠ R_pll_lock → r' rg = r rg) ∧
    (set_out_en p 0 ;; set_pwrd p 0 ;;
     result ← set_params p freq;
     set_pwrd p 1 ;; usleep fuel 1 ;; set_reset p 0 ;; set_reset p 1 ;; usleep fuel 1 ;;
     set_reset p 0 ;; wait_lock fuel p ;; set_out_en p 1 ;; k result) (mkSoc r e) =
    k (set_result p freq (fld_set F_pwrd 0 (fld_set F_out_en 0 (r (pll_reg p))))).1 (mkSoc r' e').
Proof.
  intros Hp He Hf.
  run (set_out_en_run p 0 r e). set (r1 := upd (pll_reg p) (fld_set F_out_en 0) r).
  run (set_pwrd_run p 0 r1 e). set (r2 := upd (pll_reg p) (fld_set F_pwrd 0) r1).
  assert (H2 : r2 (pll_reg p) = fld_set F_pwrd 0 (fld_set F_out_en 0 (r (pll_reg p))))
    by (unfold r2, r1; by rewrite !upd_same).
  assert (Hp2 : from_in0 r2 p).
  { apply in0_word. intros Heq. rewrite H2, !(fld_get_set_other _ F_ckin_sel) by fld.
    by apply (proj1 (in0_word r p) Hp). }
  rewrite (M_bind_eq _ _ _ _ (set_params_in0 p freq r2 e Hp2)). run (source_set_run p freq r2 e).
  set (r3 := match compute_params _ _ with Ok (Some q) => _ | _ => r2 end).
  assert (H3 : r3 (pll_reg p) = (set_result p freq (r2 (pll_reg p))).2) by apply set_result_eq.
  assert (H3' : ∀ rg, rg ≠ pll_reg p → r3 rg = r2 rg) by (intros; by apply set_result_other).
  clearbody r3. run (set_pwrd_run p 1 r3 e). set (r4 := upd (pll_reg p) (fld_set F_pwrd 1) r3).
  destruct (usleep_run (2 + b) r4 e 1 fuel He ltac:(lia) Hf) as (e1 & Hs1 & He1). run Hs1.
  run (set_reset_run p 0 r4 e1). set (r5 := upd (pll_reg p) (fld_set F_reset 0) r4).
  run (set_reset_run p 1 r5 e1). set (r6 := upd (pll_reg p) (fld_set F_reset 1) r5).
  destruct (usleep_run (1 + b) r6 e1 1 fuel He1 ltac:(lia) Hf) as (e2 & Hs2 & He2). run Hs2.
  run (set_reset_run p 0 r6 e2). set (r7 := upd (pll_reg p) (fld_set F_reset 0) r6).
  destruct (env_locks b e2 p (r7 R_pll_lock) He2) as (n & e3 & Hn & Hl & He3).
  destruct (wait_lock_run p n _ e2 e3 r7 fuel Hl eq_refl ltac:(lia)) as (r8 & Hw & Hlk & Hr8). run Hw.
  run (set_out_en_run p 1 r8 e3).
  assert (Hk7 : r7 R_pll_lock = r R_pll_lock).
  { unfold r7, r6, r5, r4. rewrite !upd_other, H3' by (by destruct p).
    unfold r2, r1. by rewrite !upd_other by (by destruct p). }
  eexists _, e3. split; [done|]. split; [|split; [|split; [|by rewrite H2]]].
  - rewrite upd_same, Hr8 by (by destruct p).
    unfold r7, r6, r5, r4. rewrite !upd_same, H3, H2. done.
  - rewrite upd_other by (by destruct p). by rewrite <- Hk7.
  - intros rg H Hrg. rewrite upd_other, Hr8 by done.
    unfold r7, r6, r5, r4. rewrite !upd_other, H3' by done. unfold r2, r1. by rewrite !upd_other.
Qed.

(** The selects, with ACLK off PLL0 and back on it. *)
Definition aclk_word (w : Z) : Z :=
  fld_set (clk_sel0_field clk_sel0_aclk_sel) 1 (fld_set (clk_sel0_field clk_sel0_aclk_sel) 0 w).

Lemma aclk_word_select r w : r R_clk_sel0 = aclk_word w →
  clock_get_clock_select r select_ACLK = 1 ∧
  clock_get_threshold r threshold_ACLK = fld_get (clk_sel0_field clk_sel0_aclk_divider_sel) w.
Proof using.
  intros Hr. cbn [clock_get_clock_select clock_get_threshold]. unfold get_field.
  change (reg_addr (F := clk_sel0)) with R_clk_sel0. rewrite Hr. split.
  - apply (fld_get_set_same (clk_sel0_field clk_sel0_aclk_sel)). fld.
  - unfold aclk_word. by rewrite !(fld_get_set_other (clk_sel0_field clk_sel0_aclk_sel)) by fld.
Qed.

(** The other fields of the selects are as before. *)
Lemma aclk_word_other r r' (x : clk_sel0) : r' R_clk_sel0 = aclk_word (r R_clk_sel0) →
  x ≠ clk_sel0_aclk_sel → get_field x r' = get_field x r.
Proof using.
  intros Hr Hx. unfold get_field. change (reg_addr (F := clk_sel0)) with R_clk_sel0. rewrite Hr.
  unfold aclk_word. change (clk_sel0_field ?y) with (reg_field y).
  rewrite !fld_get_set_other by (apply reg_field_ok || (apply reg_disjoint; congruence)). done.
Qed.

Lemma pll_set_freq_run p freq r e b fuel :
  from_in0 r p → env_ok (3 + b) e → (env_polls ≤ fuel)%nat →
  ∃ r' e',
    pll_set_freq fuel p freq (mkSoc r e) =
      Ok ((set_result p freq (fld_set F_pwrd 0 (fld_set F_out_en 0 (r (pll_reg p))))).1, mkSoc r' e') ∧
    env_ok b e' ∧
    r' (pll_reg p) = set_word p freq (r (pll_reg p)) ∧
    lock_after p (r R_pll_lock) (r' R_pll_lock) ∧
    (∀ rg, rg ≠ pll_reg p → rg ≠ R_pll_lock → rg ≠ R_clk_sel0 → r' rg = r rg) ∧
    (p = pll_PLL0 → r' R_clk_sel0 = aclk_word (r R_clk_sel0)) ∧
    (p ≠ pll_PLL0 → r' R_clk_sel0 = r R_clk_sel0).
Proof.
  intros Hp He Hf. unfold pll_set_freq.
  change (if decide (p = pll_PLL2) then _ else _) with (set_params p freq).
  destruct (decide (p = pll_PLL0)) as [->|Hne].
  - run (select_aclk_run 0 r e).
    set (r0 := upd R_clk_sel0 _ r).
    destruct (pll_set_body pll_PLL0 freq r0 e b fuel
      (λ x, clock_set_clock_select select_ACLK 1 ;; mret x) ltac:(by intros [=]) He Hf) as (r1 & e1 & He1 & Hw & Hlk & Ho & Hr).
    rewrite Hr. run (select_aclk_run 1 r1 e1). eexists _, e1. split; [|split; [done|]].
    { unfold r0. rewrite upd_other by discriminate. reflexivity. }
    split_and!.
    + rewrite upd_other, Hw by discriminate. unfold r0. by rewrite upd_other.
    + rewrite upd_other by discriminate. unfold r0 in Hlk. by rewrite upd_other in Hlk.
    + intros rg H1 H2 H3. rewrite upd_other, Ho by done. unfold r0. by rewrite upd_other.
    + intros _. rewrite upd_same, Ho by discriminate. unfold r0. by rewrite upd_same.
    + done.
  - rewrite M_ret_bind.
    destruct (pll_set_body p freq r e b fuel (λ x, mret () ;; mret x) Hp He Hf)
      as (r1 & e1 & He1 & Hw & Hlk & Ho & Hr).
    rewrite Hr. rewrite M_ret_bind. exists r1, e1. split_and!; try done.
    + intros rg H1 H2 _. by apply Ho.
    + intros _. apply Ho; by destruct p.
Qed.

(** The status bits of the register at the end, and the factors. *)
Lemma set_word_on p freq w : fld_get F_out_en (set_word p freq w) = 1 ∧
  fld_get F_pwrd (set_word p freq w) = 1 ∧ fld_get F_reset (set_word p freq w) = 0.
Proof using.
  unfold set_word. rewrite (fld_get_set_same F_out_en) by fld.
  rewrite !(fld_get_set_other F_out_en) by fld.
  rewrite !(fld_get_set_other F_reset F_pwrd), (fld_get_set_same F_reset),
    (fld_get_set_same F_pwrd) by fld. done.
Qed.

Lemma set_word_freq p freq w : pll_word_freq (set_word p freq w) =
  pll_word_freq (set_result p freq (fld_set F_pwrd 0 (fld_set F_out_en 0 w))).2.
Proof using.
  unfold set_word. rewrite !word_freq_other by (fld || (cbn; lia)). done.
Qed.

Lemma set_word_in0 p freq w : (p = pll_PLL2 → fld_get F_ckin_sel w = 0) →
  p = pll_PLL2 → fld_get F_ckin_sel (set_word p freq w) = 0.
Proof using.
  intros Hw Hp. unfold set_word. rewrite !(fld_get_set_other _ F_ckin_sel) by fld.
  assert (Hw' : fld_get F_ckin_sel (fld_set F_pwrd 0 (fld_set F_out_en 0 w)) = 0)
    by (rewrite !(fld_get_set_other _ F_ckin_sel) by fld; auto).
  unfold set_result. destruct (compute_params _ _) as [[q|]|]; [by apply params_word_in0|done..].
Qed.

Lemma params_word_kept p q w fl : fl ∈ kept_fields → (p = pll_PLL2 → fld_get F_ckin_sel w = 0) →
  fld_get fl (params_word p q w) = fld_get fl w.
Proof using.
  intros Hfl Hw. unfold kept_fields in Hfl. rewrite !elem_of_cons, elem_of_nil in Hfl. unfold params_word.
  destruct Hfl as [->|[->|[->|[]]]]; rewrite !fld_get_set_other by fld; case_decide; try done.
  - by rewrite fld_get_set_other by fld.
  - rewrite fld_get_set_same by fld. by rewrite Hw.
  - by rewrite fld_get_set_other by fld.
Qed.

Lemma set_word_kept p freq w fl : fl ∈ kept_fields → (p = pll_PLL2 → fld_get F_ckin_sel w = 0) →
  fld_get fl (set_word p freq w) = fld_get fl w.
Proof using.
  intros Hfl Hw.
  assert (Ho : ∀ g v x, g ∈ [F_out_en; F_pwrd; F_reset] → fld_get fl (fld_set g v x) = fld_get fl x).
  { intros g v x Hg. unfold kept_fields in Hfl. rewrite !elem_of_cons, elem_of_nil in Hfl, Hg.
    destruct Hfl as [->|[->|[->|[]]]], Hg as [->|[->|[->|[]]]]; apply fld_get_set_other; fld. }
  unfold set_word. rewrite !Ho by (rewrite !elem_of_cons; tauto).
  assert (Hr : fld_get fl (set_result p freq (fld_set F_pwrd 0 (fld_set F_out_en 0 w))).2 =
    fld_get fl (fld_set F_pwrd 0 (fld_set F_out_en 0 w))).
  { unfold set_result. destruct (compute_params _ _) as [[q|]|]; [|done..].
    apply params_word_kept; [done|]. intros Hp. rewrite !fld_get_set_other by fld. auto. }
  rewrite Hr. by rewrite !Ho by (rewrite !elem_of_cons; tauto).
Qed.

(** ** Setting the factors, from any source *)

(** The sources a PLL can run from: PLL2 also from the other two. *)
Definition pll_takes (p : pll) (src : clock_source) : Prop :=
  src = source_IN0 ∨ p = pll_PLL2 ∧ (src = source_PLL0 ∨ src = source_PLL1).

Definition cksel (src : clock_source) : Z :=
  match src with source_PLL0 => 1 | source_PLL1 => 2 | _ => 0 end.

Definition source_word (p : pll) (src : clock_source) (q : Params) (w : Z) : Z :=
  fld_set F_bwadj (bwadj q) (fld_set F_clkod (clkod q) (fld_set F_clkf (clkf q)
    (fld_set F_clkr (clkr q)
      (if decide (p = pll_PLL2) then fld_set F_ckin_sel (cksel src) w else w)))).

Lemma pll_freq_pos s p : p ≠ pll_PLL2 → ∃ f, pll_get_freq s p = Ok f ∧ 0 < f ≤ SYSCTRL_CLOCK_FREQ_IN0 * 64.
Proof using.
  intros Hp. destruct (pll_freq_in0 4 s p) as (f & Hf & Hb & Hw); [by intros ?|].
  exists f. split; [exact Hf|]. pose proof (pll_factors_range s p) as Hr.
  destruct (pll_factors s p) as [[nr nf] od]. split; [|lia]. subst f.
  unfold SYSCTRL_CLOCK_FREQ_IN0 in *. apply Z.div_str_pos. nia.
Qed.

Lemma takes_freq s p src : pll_takes p src →
  ∃ f, clock_source_get_freq s src = Ok f ∧ 0 < f ≤ SYSCTRL_CLOCK_FREQ_IN0 * 64.
Proof using.
  intros [->|(_ & [->| ->])].
  - eexists. split; [reflexivity|]. unfold SYSCTRL_CLOCK_FREQ_IN0. lia.
  - change (clock_source_get_freq s source_PLL0) with (pll_get_freq s pll_PLL0). by apply pll_freq_pos.
  - change (clock_source_get_freq s source_PLL1) with (pll_get_freq s pll_PLL1). by apply pll_freq_pos.
Qed.

Lemma write_params_run p src q r e : pll_takes p src →
  write_params p src q (mkSoc r e) = Ok ((), mkSoc (upd (pll_reg p) (source_word p src q) r) e).
Proof using.
  intros [->|(-> & [->| ->])]; [destruct p|..]; apply modify_reg_run; discriminate.
Qed.

(** The fields of the word, and the frequency read back from it. *)
Lemma source_word_fields p src q w :
  fld_get F_clkr (source_word p src q w) = clkr q mod 16 ∧
  fld_get F_clkf (source_word p src q w) = clkf q mod 64 ∧
  fld_get F_clkod (source_word p src q w) = clkod q mod 16 ∧
  fld_get F_bwadj (source_word p src q w) = bwadj q mod 64 ∧
  (p = pll_PLL2 → fld_get F_ckin_sel (source_word p src q w) = cksel src).
Proof using.
  unfold source_word. rewrite (fld_get_set_same F_bwadj) by fld.
  rewrite !(fld_get_set_other F_bwadj) by fld. rewrite (fld_get_set_same F_clkod) by fld.
  rewrite !(fld_get_set_other F_clkod) by fld. rewrite (fld_get_set_same F_clkf) by fld.
  rewrite !(fld_get_set_other F_clkf) by fld. rewrite (fld_get_set_same F_clkr) by fld.
  rewrite !(fld_get_set_other F_clkr) by fld. repeat (split; [reflexivity|]).
  intros ->. rewrite decide_True by done. rewrite fld_get_set_same by fld. by destruct src.
Qed.

Lemma takes_freq_same r r' p src : pll_takes p src → (∀ rg, rg ≠ pll_reg p → r' rg = r rg) →
  clock_source_get_freq r' src = clock_source_get_freq r src.
Proof using.
  intros Hsrc Hr. destruct Hsrc as [->|(-> & Hsrc)]; [reflexivity|].
  assert (Hpll : ∀ p, p ≠ pll_PLL2 → pll_get_freq r' p = pll_get_freq r p).
  { intros p Hp. rewrite !pll_get_freq_word by (by intros ?). by rewrite Hr by (by destruct p). }
  destruct Hsrc as [->| ->]; [apply (Hpll pll_PLL0)|apply (Hpll pll_PLL1)]; discriminate.
Qed.

Lemma source_get_freq r p src f : pll_takes p src → clock_source_get_freq r src = Ok f →
  (p = pll_PLL2 → fld_get F_ckin_sel (r (pll_reg p)) = cksel src) →
  pll_get_freq r p = pll_output f (fld_get F_clkr (r (pll_reg p)) + 1)
    (fld_get F_clkf (r (pll_reg p)) + 1) (fld_get F_clkod (r (pll_reg p)) + 1).
Proof using.
  intros Hsrc Hf Hsel.
  assert (Hp : pll_get_freq r p = let '(nr, nf, od) := pll_factors r p in pll_output f nr nf od).
  { destruct Hsrc as [->|(-> & Hsrc)].
    - injection Hf as <-. destruct p; [reflexivity..|].
      unfold pll_get_freq, tree_depth. cbn -[pll_output pll_factors clock_get_clock_select].
      change (clock_get_clock_select r select_PLL2) with (fld_get F_ckin_sel (r R_pll2)).
      rewrite (Hsel eq_refl : fld_get F_ckin_sel (r R_pll2) = 0). reflexivity.
    - unfold pll_get_freq, tree_depth. cbn -[pll_output pll_factors clock_get_clock_select source_freq].
      change (clock_get_clock_select r select_PLL2) with (fld_get F_ckin_sel (r R_pll2)).
      rewrite (Hsel eq_refl : fld_get F_ckin_sel (r R_pll2) = cksel src).
      destruct Hsrc as [->| ->]; cbn -[pll_output pll_factors source_freq];
        [change (source_freq 5 r source_PLL0) with (clock_source_get_freq r source_PLL0)
        |change (source_freq 5 r source_PLL1) with (clock_source_get_freq r source_PLL1)];
        rewrite Hf; reflexivity. }
  by rewrite Hp, pll_factors_word.
Qed.

Lemma source_set_found p src freq f o (s : soc E) : pll_takes p src →
  clock_source_get_freq (sys s) src = Ok f → f ≠ 0 → compute_params f freq = Ok o →
  pll_source_set_freq p src freq s = (match o with
    | Some q => write_params p src q ;; f ← gets_res (λ s, pll_get_freq s p); mret (Some f)
    | None => mret None end) s.
Proof using.
  intros Hsrc Hf Hne Ho. unfold pll_source_set_freq.
  assert (Hg : (bool_decide (p = pll_PLL0) || bool_decide (p = pll_PLL1))
     && negb (bool_decide (src = source_IN0)) = false)
    by (destruct Hsrc as [->|(-> & _)]; [by rewrite andb_false_r|reflexivity]).
  rewrite Hg. run (gets_res_run (λ s, clock_source_get_freq s src) s f Hf).
  rewrite (proj2 (Z.eqb_neq _ _) Hne), Ho, M_res_bind. done.
Qed.

(** Reading the frequency back from the registers [r]. *)
Lemma source_read_back p src f r e : pll_takes p src → clock_source_get_freq r src = Ok f → in_u 32 f →
  (p = pll_PLL2 → fld_get F_ckin_sel (r (pll_reg p)) = cksel src) →
  (f ← gets_res (λ s, pll_get_freq s p); mret (Some f)) (mkSoc r e) =
    let out := f * (fld_get F_clkf (r (pll_reg p)) + 1) /
      ((fld_get F_clkr (r (pll_reg p)) + 1) * (fld_get F_clkod (r (pll_reg p)) + 1)) in
    if out <? 2 ^ 32 then Ok (Some out, mkSoc r e) else Stop Panicked.
Proof using.
  intros Hsrc Hf Hu Hsel. pose proof (pll_factors_range r p) as Hr. rewrite pll_factors_word in Hr.
  destruct Hr as (H1 & H2 & H3). unfold gets_res, mbind, M_bind. cbn [sys].
  rewrite (source_get_freq r p src f Hsrc Hf Hsel). cbv zeta.
  destruct (pll_output_cases f _ _ _ Hu H1 H2 H3) as [-> _]. by destruct (_ <? _).
Qed.

(** An output faster than the oscillator: the parameters fit the register. *)
Lemma set_result_params p freq w : SYSCTRL_CLOCK_FREQ_IN0 < freq →
  ∃ o, compute_params SYSCTRL_CLOCK_FREQ_IN0 freq = Ok o ∧
    (set_result p freq w).1 = params_freq <$> o ∧
    pll_word_freq (set_result p freq w).2 =
      match o with Some q => params_freq q | None => pll_word_freq w end.
Proof using.
  intros Hf. destruct (compute_params_ok SYSCTRL_CLOCK_FREQ_IN0 freq) as (o & Ho & Hq).
  exists o. split; [done|]. unfold set_result. rewrite Ho. destruct o as [q|]; [|done].
  destruct (Hq q eq_refl) as (Hr & _ & Hod & Hcf & _). unfold f_bound in Hcf.
  rewrite (proj2 (Z.ltb_lt _ _) Hf) in Hcf. unfold R_MAX, OD_MAX, F_MAX in *.
  cbn [fst snd]. rewrite word_freq_params by lia. done.
Qed.
End set_pll.

(** ** A timer and PLLs that lock at once *)

#[export] Instance ideal_env : SocEnv Z := {
  env_time e := (e, e + 1);
  env_lock w e := (wrap 32 (Z.lor w 197379), e) }.

Lemma ideal_reaches n e : (∀ k, 0 ≤ k ≤ n → reaches (e + n) (Z.to_nat (n - k)) (e + k) (e + n + 1)).
Proof.
  intros k Hk. replace k with (n - Z.of_nat (Z.to_nat (n - k))) at 2 by lia.
  assert (Hm : 0 ≤ Z.of_nat (Z.to_nat (n - k)) ≤ n) by lia.
  induction (Z.to_nat (n - k)) as [|m IH].
  - apply reach_hit with (t := e + n); [|lia]. cbn. f_equal; lia.
  - eapply reach_miss with (t := e + (n - Z.of_nat (S m))); [reflexivity|lia|].
    replace (e + (n - Z.of_nat (S m)) + 1) with (e + (n - Z.of_nat m)) by lia. apply IH. lia.
Qed.

Lemma ideal_locked p w : locked p (wrap 32 (Z.lor w 197379)) = true.
Proof.
  assert (Hb : ∀ f, field_ok f → fld_off f = 0 ∨ fld_off f = 8 ∨ fld_off f = 16 → fld_width f = 2 →
    fld_get f (wrap 32 (Z.lor w 197379)) = 3).
  { intros f Hf Ho Hw. pose proof Hf as (? & ? & ?). apply Z.bits_inj'. intros i Hi.
    rewrite fld_get_spec by done. case_bool_decide as Hlt; simpl.
    - rewrite wrap_spec, bool_decide_true, Z.lor_spec by lia. simpl.
      assert (i = 0 ∨ i = 1) as [-> | ->] by lia; destruct Ho as [-> | [-> | ->]]; simpl;
        apply orb_true_r.
    - symmetry. apply (testbit_high 3 2); lia. }
  destruct p; unfold locked; rewrite Hb by (fld || tauto); reflexivity.
Qed.

#[export] Instance ideal_laws : SocEnvLaws Z.
Proof.
  refine {| env_polls := Z.to_nat (2 ^ 24 + 1); env_ok b e := 0 ≤ e ∧ e + 2 ^ 25 * Z.of_nat b < 2 ^ 64 |}.
  - intros b e n t e1 [He Hb] Hn [= <- <-]. split; [unfold in_u; lia|].
    destruct (decide (n = 0)) as [->|Hnz].
    + exists O, (e + 1 + 1). split_and!; [lia| |lia..].
      apply reach_hit with (t := e + 1); [done|lia].
    + exists (Z.to_nat (n - 1)), (e + n + 1). split_and!; [lia| |lia..].
      apply ideal_reaches. lia.
  - intros b e p w [He Hb]. exists O, e. split_and!; [lia| |lia..].
    eapply lock_hit; [reflexivity|apply ideal_locked].
Defined.
