(* ===== verification/K210Spi.v ===== *)
(** * K210Spi: pins and the SPI controller of the k210 (k210-soc/src/spi.rs, gpiohs.rs, fpioa.rs)

    The drivers work on three groups of registers: the pin multiplexer FPIOA and
    the GPIO outputs, which only software writes, and the SPI controller, a device
    that answers reads and writes ([SsiDevice]).  [SPI] and [GPIOHS] are what the
    SD card driver sees of them. *)

From stdpp Require Import base list numbers functions.
From S2P Require Import Prelude Pll PacReg PacSysctl Sysctl.

(** ** Modes of a transaction (the enumerations of k210-pac) *)

Inductive work_mode := MODE0 | MODE1 | MODE2 | MODE3.
Inductive tmod := tmod_TRANS_RECV | tmod_TRANS | tmod_RECV | tmod_EEROM.
Inductive frame_format := format_STANDARD | format_DUAL | format_QUAD | format_OCTAL.
Inductive aitm := aitm_STANDARD | aitm_ADDR_STANDARD | aitm_AS_FRAME_FORMAT.

Definition work_mode_code (v : work_mode) : Z :=
  match v with MODE0 => 0 | MODE1 => 1 | MODE2 => 2 | MODE3 => 3 end.
Definition tmod_code (v : tmod) : Z :=
  match v with tmod_TRANS_RECV => 0 | tmod_TRANS => 1 | tmod_RECV => 2 | tmod_EEROM => 3 end.
Definition frame_format_code (v : frame_format) : Z :=
  match v with format_STANDARD => 0 | format_DUAL => 1 | format_QUAD => 2 | format_OCTAL => 3 end.
Definition aitm_code (v : aitm) : Z :=
  match v with aitm_STANDARD => 0 | aitm_ADDR_STANDARD => 1 | aitm_AS_FRAME_FORMAT => 2 end.

(** ** The interfaces *)

(** trait SPI, for frames of 8 bits: [spi_recv_data] fills a buffer of the given
    length. *)
Class SPI (S : Type) := {
  spi_configure : work_mode → frame_format → Z → Z → Z → Z → Z → aitm → tmod → M S ();
  spi_set_clk_rate : Z → M S Z;
  spi_recv_data : Z → nat → M S (list Z);
  spi_send_data : Z → list Z → M S () }.

(** The functions of gpiohs.rs: [true] is the direction OUTPUT. *)
Class GPIOHS (S : Type) := {
  gpiohs_set_direction : Z → bool → M S ();
  gpiohs_set_pin : Z → bool → M S () }.

(** ** Registers *)

Inductive spireg : Type :=
  | S_ctrlr0 | S_ctrlr1 | S_ssienr | S_ser | S_baudr | S_txflr | S_rxflr | S_sr | S_imr
  | S_dmacr | S_dmatdlr | S_dmardlr | S_dr | S_spi_ctrlr0 | S_endian.

#[export] Instance spireg_eq_dec : EqDecision spireg.
Proof. solve_decision. Defined.

(** Register ctrlr0. *)
Inductive ctrlr0 : Type :=
  | ctrlr0_work_mode | ctrlr0_tmod | ctrlr0_frame_format | ctrlr0_data_length.

Definition ctrlr0_field (x : ctrlr0) : field :=
  match x with
  | ctrlr0_work_mode => mkField 6 2
  | ctrlr0_tmod => mkField 8 2
  | ctrlr0_frame_format => mkField 21 2
  | ctrlr0_data_length => mkField 16 5
  end.

#[export] Instance ctrlr0_register : Register spireg ctrlr0 :=
  { reg_addr := S_ctrlr0; reg_field := ctrlr0_field }.
#[export] Instance ctrlr0_laws : RegisterLaws ctrlr0.
Proof. solve_register. Qed.

(** Register spi_ctrlr0. *)
Inductive spi_ctrlr0 : Type :=
  | spi_ctrlr0_aitm | spi_ctrlr0_addr_length | spi_ctrlr0_inst_length | spi_ctrlr0_wait_cycles.

Definition spi_ctrlr0_field (x : spi_ctrlr0) : field :=
  match x with
  | spi_ctrlr0_aitm => mkField 0 2
  | spi_ctrlr0_addr_length => mkField 2 4
  | spi_ctrlr0_inst_length => mkField 8 2
  | spi_ctrlr0_wait_cycles => mkField 11 5
  end.

#[export] Instance spi_ctrlr0_register : Register spireg spi_ctrlr0 :=
  { reg_addr := S_spi_ctrlr0; reg_field := spi_ctrlr0_field }.
#[export] Instance spi_ctrlr0_laws : RegisterLaws spi_ctrlr0.
Proof. solve_register. Qed.

(** A register of the pin multiplexer. *)
Inductive fpioa_io : Type :=
  | io_ch_sel | io_ds | io_oe_en | io_oe_inv | io_do_sel | io_do_inv | io_pu | io_pd | io_sl
  | io_ie_en | io_ie_inv | io_di_inv | io_st | io_pad_di.

Definition fpioa_io_field (x : fpioa_io) : field :=
  match x with
  | io_ch_sel => mkField 0 8
  | io_ds => mkField 8 4
  | io_oe_en => mkField 12 1
  | io_oe_inv => mkField 13 1
  | io_do_sel => mkField 14 1
  | io_do_inv => mkField 15 1
  | io_pu => mkField 16 1
  | io_pd => mkField 17 1
  | io_sl => mkField 19 1
  | io_ie_en => mkField 20 1
  | io_ie_inv => mkField 21 1
  | io_di_inv => mkField 22 1
  | io_st => mkField 23 1
  | io_pad_di => mkField 31 1
  end.

#[export] Instance fpioa_io_register : Register () fpioa_io :=
  { reg_addr := (); reg_field := fpioa_io_field }.
#[export] Instance fpioa_io_laws : RegisterLaws fpioa_io.
Proof. solve_register. Qed.

(** The GPIOHS registers the drivers use. *)
Inductive gpioreg : Type := G_input_val | G_input_en | G_output_en | G_output_val.

#[export] Instance gpioreg_eq_dec : EqDecision gpioreg.
Proof. solve_decision. Defined.

(** The UARTHS registers that set up the serial line. *)
Inductive uartreg : Type := U_txctrl | U_rxctrl | U_div.

#[export] Instance uartreg_eq_dec : EqDecision uartreg.
Proof. solve_decision. Defined.

Inductive uart_txctrl : Type := txctrl_txen | txctrl_nstop | txctrl_txcnt.

Definition uart_txctrl_field (x : uart_txctrl) : field :=
  match x with
  | txctrl_txen => mkField 0 1
  | txctrl_nstop => mkField 1 1
  | txctrl_txcnt => mkField 16 3
  end.

Inductive uart_rxctrl : Type := rxctrl_rxen | rxctrl_rxcnt.

Definition uart_rxctrl_field (x : uart_rxctrl) : field :=
  match x with
  | rxctrl_rxen => mkField 0 1
  | rxctrl_rxcnt => mkField 16 3
  end.

(** The SPI controller, with what is connected to it.  [ssi_pins]: the GPIOHS
    outputs change. *)
Class SsiDevice (D : Type) := {
  ssi_read : spireg → D → Z * D;
  ssi_write : spireg → Z → D → D;
  ssi_pins : Z → D → D }.

Record board (E D : Type) := mkBoard {
  b_soc : soc E;
  b_gpio : gpioreg → Z;
  b_fpioa : list Z;
  b_uart : uartreg → Z;
  b_dev : D }.
Arguments mkBoard {E D} _ _ _ _ _.
Arguments b_soc {E D} _.
Arguments b_gpio {E D} _.
Arguments b_fpioa {E D} _.
Arguments b_uart {E D} _.
Arguments b_dev {E D} _.

(** ** The pin multiplexer (fpioa.rs) *)

(** [function::gpiohs]; a function is its number. *)
Definition function_gpiohs (num : Z) : res Z :=
  if (0 <=? num) && (num <? 32) then Ok (24 + num) else Stop Panicked.

Definition function_SPI0_D0 : Z := 4.
Definition function_SPI0_D1 : Z := 5.
Definition function_SPI0_SCLK : Z := 17.

(** Pins, by their number. *)
Definition io_SPI0_MISO : Z := 26.
Definition io_SPI0_SCLK : Z := 27.
Definition io_SPI0_MOSI : Z := 28.
Definition io_SPI0_CS0 : Z := 29.

Inductive pull := pull_NONE | pull_DOWN | pull_UP.

Definition FUNCTION_DEFAULTS : list Z :=
  [0x00900000; 0x00900001; 0x00900002; 0x00001f03; 0x00b03f04; 0x00b03f05; 0x00b03f06;
   0x00b03f07; 0x00b03f08; 0x00b03f09; 0x00b03f0a; 0x00b03f0b; 0x00001f0c; 0x00001f0d;
   0x00001f0e; 0x00001f0f; 0x03900010; 0x00001f11; 0x00900012; 0x00001f13; 0x00900014;
   0x00900015; 0x00001f16; 0x00001f17; 0x00901f18; 0x00901f19; 0x00901f1a; 0x00901f1b;
   0x00901f1c; 0x00901f1d; 0x00901f1e; 0x00901f1f; 0x00901f20; 0x00901f21; 0x00901f22;
   0x00901f23; 0x00901f24; 0x00901f25; 0x00901f26; 0x00901f27; 0x00901f28; 0x00901f29;
   0x00901f2a; 0x00901f2b; 0x00901f2c; 0x00901f2d; 0x00901f2e; 0x00901f2f; 0x00901f30;
   0x00901f31; 0x00901f32; 0x00901f33; 0x00901f34; 0x00901f35; 0x00901f36; 0x00901f37;
   0x00901f38; 0x00901f39; 0x00901f3a; 0x00901f3b; 0x00901f3c; 0x00901f3d; 0x00901f3e;
   0x00901f3f; 0x00900040; 0x00001f41; 0x00900042; 0x00001f43; 0x00900044; 0x00001f45;
   0x00b03f46; 0x00b03f47; 0x00b03f48; 0x00b03f49; 0x00b03f4a; 0x00b03f4b; 0x00b03f4c;
   0x00b03f4d; 0x00001f4e; 0x00001f4f; 0x00001f50; 0x00001f51; 0x03900052; 0x00001f53;
   0x00b03f54; 0x00900055; 0x00900056; 0x00001f57; 0x00001f58; 0x00001f59; 0x0090005a;
   0x0090005b; 0x0090005c; 0x0090005d; 0x00001f5e; 0x00001f5f; 0x00001f60; 0x00001f61;
   0x00001f62; 0x00001f63; 0x00001f64; 0x00900065; 0x00900066; 0x00900067; 0x00900068;
   0x00001f69; 0x00001f6a; 0x00001f6b; 0x00001f6c; 0x00001f6d; 0x00001f6e; 0x00001f6f;
   0x00900070; 0x00900071; 0x00900072; 0x00900073; 0x00001f74; 0x00001f75; 0x00001f76;
   0x00001f77; 0x00000078; 0x00000079; 0x0000007a; 0x0000007b; 0x0000007c; 0x0000007d;
   0x0099107e; 0x0099107f; 0x00991080; 0x00991081; 0x00991082; 0x00991083; 0x00001f84;
   0x00001f85; 0x00001f86; 0x00900087; 0x00900088; 0x00900089; 0x0090008a; 0x0090008b;
   0x0090008c; 0x0090008d; 0x0090008e; 0x0090008f; 0x00900090; 0x00900091; 0x00993092;
   0x00993093; 0x00900094; 0x00900095; 0x00900096; 0x00900097; 0x00900098; 0x00001f99;
   0x00001f9a; 0x00001f9b; 0x00001f9c; 0x00001f9d; 0x00001f9e; 0x00001f9f; 0x00001fa0;
   0x00001fa1; 0x009000a2; 0x009000a3; 0x009000a4; 0x009000a5; 0x009000a6; 0x00001fa7;
   0x00001fa8; 0x00001fa9; 0x00001faa; 0x00001fab; 0x00001fac; 0x00001fad; 0x00001fae;
   0x00001faf; 0x009000b0; 0x009000b1; 0x009000b2; 0x009000b3; 0x009000b4; 0x00001fb5;
   0x00001fb6; 0x00001fb7; 0x00001fb8; 0x00001fb9; 0x00001fba; 0x00001fbb; 0x00001fbc;
   0x00001fbd; 0x00001fbe; 0x00001fbf; 0x00001fc0; 0x00001fc1; 0x00001fc2; 0x00001fc3;
   0x00001fc4; 0x00001fc5; 0x00001fc6; 0x00001fc7; 0x00001fc8; 0x00001fc9; 0x00001fca;
   0x00001fcb; 0x00001fcc; 0x00001fcd; 0x00001fce; 0x00001fcf; 0x00001fd0; 0x00001fd1;
   0x00001fd2; 0x00001fd3; 0x00001fd4; 0x009000d5; 0x009000d6; 0x009000d7; 0x009000d8;
   0x009100d9; 0x00991fda; 0x009000db; 0x009000dc; 0x009000dd; 0x000000de; 0x009000df;
   0x00001fe0; 0x00001fe1; 0x00001fe2; 0x00001fe3; 0x00001fe4; 0x00001fe5; 0x00001fe6;
   0x00001fe7; 0x00001fe8; 0x00001fe9; 0x00001fea; 0x00001feb; 0x00001fec; 0x00001fed;
   0x00001fee; 0x00001fef; 0x00001ff0; 0x00001ff1; 0x00001ff2; 0x00001ff3; 0x00001ff4;
   0x00001ff5; 0x00001ff6; 0x00001ff7; 0x00001ff8; 0x00001ff9; 0x00001ffa; 0x00001ffb;
   0x00001ffc; 0x00001ffd; 0x00001ffe; 0x00001fff].

Section board_ops.
Context {E D : Type} `{!SocEnv E} `{!SsiDevice D}.

(** An index out of range panics. *)
Definition set_function (number function : Z) : M (board E D) () :=
  v ← unwrap (FUNCTION_DEFAULTS !! Z.to_nat function);
  _ ← (s ← get_st; unwrap (b_fpioa s !! Z.to_nat number));
  modify_st (λ s, mkBoard (b_soc s) (b_gpio s) (<[Z.to_nat number := v]> (b_fpioa s))
    (b_uart s) (b_dev s)).

Definition set_io_pull (number : Z) (p : pull) : M (board E D) () :=
  w ← (s ← get_st; unwrap (b_fpioa s !! Z.to_nat number));
  let '(pu, pd) := match p with
                   | pull_NONE => (0, 0) | pull_DOWN => (0, 1) | pull_UP => (1, 0)
                   end in
  let v := fld_set (fpioa_io_field io_pd) pd (fld_set (fpioa_io_field io_pu) pu w) in
  modify_st (λ s, mkBoard (b_soc s) (b_gpio s) (<[Z.to_nat number := v]> (b_fpioa s))
    (b_uart s) (b_dev s)).

(** ** GPIO (gpiohs.rs) *)

(** [reg.modify(..)]; the outputs are wired to what is outside. *)
Definition modify_gpio (rg : gpioreg) (f : Z → Z) : M (board E D) () :=
  modify_st (λ s,
    let g := <[rg := f (b_gpio s rg)]> (b_gpio s) in
    mkBoard (b_soc s) g (b_fpioa s) (b_uart s)
      (if decide (rg = G_output_val) then ssi_pins (g rg) (b_dev s) else b_dev s)).

Definition set_direction (pin : Z) (output : bool) : M (board E D) () :=
  modify_gpio G_output_en (λ r, set_bit r pin output) ;;
  modify_gpio G_input_en (λ r, set_bit r pin (negb output)).

Definition set_pin (pin : Z) (value : bool) : M (board E D) () :=
  modify_gpio G_output_val (λ r, set_bit r pin value).

Definition get_pin (pin : Z) : M (board E D) bool :=
  gets (λ s, get_bit (b_gpio s G_input_val) pin).

#[export] Instance board_gpiohs : GPIOHS (board E D) := {
  gpiohs_set_direction := set_direction;
  gpiohs_set_pin := set_pin }.

(** ** The serial line (k210-hal/src/serial.rs, clock.rs) *)

(** [Clocks::new().cpu()]. *)
Definition Clocks_cpu : Z := 403000000.

(** [UARTHS::configure]. *)
Definition uarths_configure (baud_rate cpu : Z) : M (board E D) () :=
  div ← lift_res (if baud_rate =? 0 then Stop Panicked else Ok (cpu / baud_rate -u32 1));
  modify_st (λ s, mkBoard (b_soc s) (b_gpio s) (b_fpioa s)
    (<[U_rxctrl := fld_set (uart_rxctrl_field rxctrl_rxen) 1 0]>
      (<[U_txctrl := fld_set (uart_txctrl_field txctrl_txen) 1 0]>
        (<[U_div := div]> (b_uart s)))) (b_dev s)).

(** ** The SPI controller (spi.rs) *)

Definition rd (rg : spireg) : M (board E D) Z := λ s,
  let '(v, d) := ssi_read rg (b_dev s) in
  Ok (v, mkBoard (b_soc s) (b_gpio s) (b_fpioa s) (b_uart s) d).

Definition wr (rg : spireg) (v : Z) : M (board E D) () := λ s,
  Ok ((), mkBoard (b_soc s) (b_gpio s) (b_fpioa s) (b_uart s) (ssi_write rg v (b_dev s))).

(** A function of the system controller. *)
Definition in_soc {A} (m : M (soc E) A) : M (board E D) A := λ s,
  match m (b_soc s) with
  | Ok (a, t) => Ok (a, mkBoard t (b_gpio s) (b_fpioa s) (b_uart s) (b_dev s))
  | Stop e => Stop e
  end.

(** trait SPI01: what tells the two controllers apart. *)
Record SPI01 := mkSPI01 {
  CLK : clock;
  DIV : threshold;
  DMA_RX : dma_select_req;
  DMA_TX : dma_select_req }.

Definition SPI0_if : SPI01 := mkSPI01 clock_SPI0 threshold_SPI0 SSI0_RX_REQ SSI0_TX_REQ.
Definition SPI1_if : SPI01 := mkSPI01 clock_SPI1 threshold_SPI1 SSI1_RX_REQ SSI1_TX_REQ.

(** The code of an instruction length. *)
Definition inst_length_code (n : Z) : res Z :=
  match n with 0 => Ok 0 | 4 => Ok 1 | 8 => Ok 2 | 16 => Ok 3 | _ => Stop Panicked end.

Definition configure (wm : work_mode) (ff : frame_format)
  (data_bit_length endian instruction_length address_length wait_cycles : Z)
  (it : aitm) (tm : tmod) : M (board E D) () :=
  assertM ((4 <=? data_bit_length) && (data_bit_length <=? 32)) ;;
  assertM (wait_cycles <? 32) ;;
  inst_l ← lift_res (inst_length_code instruction_length);
  assertM ((address_length mod 4 =? 0) && (address_length <=? 60)) ;;
  let addr_l := address_length / 4 in
  wr S_imr 0 ;;
  wr S_dmacr 0 ;;
  wr S_dmatdlr 16 ;;
  wr S_dmardlr 0 ;;
  wr S_ser 0 ;;
  wr S_ssienr 0 ;;
  wr S_ctrlr0
    (fld_set (ctrlr0_field ctrlr0_data_length) (u8 (data_bit_length - 1))
      (fld_set (ctrlr0_field ctrlr0_frame_format) (frame_format_code ff)
        (fld_set (ctrlr0_field ctrlr0_tmod) (tmod_code tm)
          (fld_set (ctrlr0_field ctrlr0_work_mode) (work_mode_code wm) 0)))) ;;
  wr S_spi_ctrlr0
    (fld_set (spi_ctrlr0_field spi_ctrlr0_wait_cycles) wait_cycles
      (fld_set (spi_ctrlr0_field spi_ctrlr0_inst_length) inst_l
        (fld_set (spi_ctrlr0_field spi_ctrlr0_addr_length) addr_l
          (fld_set (spi_ctrlr0_field spi_ctrlr0_aitm) (aitm_code it) 0)))) ;;
  wr S_endian endian.

(** The divider for a rate, within the range of the register. *)
Definition spi_baudr (clock_freq spi_clk : Z) : res Z :=
  if spi_clk =? 0 then Stop Panicked
  else Ok (((clock_freq / spi_clk) `max` 2) `min` 65534).

Definition set_clk_rate (IF : SPI01) (spi_clk : Z) : M (board E D) Z :=
  in_soc (clock_enable (CLK IF)) ;;
  in_soc (clock_set_threshold (DIV IF) 0) ;;
  clock_freq ← in_soc (gets_res (λ s, clock_get_freq s clock_SPI0));
  baudr ← lift_res (spi_baudr clock_freq spi_clk);
  wr S_baudr baudr ;;
  mret (clock_freq / baudr).

Section polls.
Context (fuel : nat).

(** [while fifo_len == 0 { fifo_len = rxflr.read() }]. *)
Fixpoint wait_rx (n : nat) (fifo_len : Z) : M (board E D) Z :=
  if fifo_len =? 0 then
    match n with
    | O => halt OutOfFuel
    | S n => v ← rd S_rxflr; wait_rx n v
    end
  else mret fifo_len.

(** [for val in rx.iter_mut()]; [X::trunc] for u8. *)
Fixpoint recv_loop (len : nat) (fifo_len : Z) : M (board E D) (list Z) :=
  match len with
  | O => mret []
  | S len =>
      fifo_len ← wait_rx fuel fifo_len;
      v ← rd S_dr;
      rest ← recv_loop len (fifo_len -u32 1);
      mret (Z.land v 255 :: rest)
  end.

Definition recv_data (chip_select : Z) (len : nat) : M (board E D) (list Z) :=
  match len with
  | O => mret []
  | S _ =>
      n ← unwrap (if Z.of_nat len - 1 <? 2 ^ 32 then Some (Z.of_nat len - 1) else None);
      wr S_ctrlr1 n ;;
      wr S_ssienr 1 ;;
      wr S_dr (2 ^ 32 - 1) ;;
      wr S_ser (wrap 32 (Z.shiftl 1 chip_select)) ;;
      rx ← recv_loop len 0;
      wr S_ser 0 ;;
      wr S_ssienr 0 ;;
      mret rx
  end.

(** [while fifo_len == 0 { fifo_len = 32 - txflr.read() }]. *)
Fixpoint wait_tx (n : nat) (fifo_len : Z) : M (board E D) Z :=
  if fifo_len =? 0 then
    match n with
    | O => halt OutOfFuel
    | S n => v ← rd S_txflr; wait_tx n (32 -u32 v)
    end
  else mret fifo_len.

Fixpoint send_loop (tx : list Z) (fifo_len : Z) : M (board E D) () :=
  match tx with
  | [] => mret ()
  | val :: tx =>
      fifo_len ← wait_tx fuel fifo_len;
      wr S_dr val ;;
      send_loop tx (fifo_len -u32 1)
  end.

(** [while (sr.read() & 0x05) != 0x04 {}]. *)
Fixpoint wait_idle (n : nat) : M (board E D) () :=
  match n with
  | O => halt OutOfFuel
  | S n => v ← rd S_sr; if Z.land v 5 =? 4 then mret () else wait_idle n
  end.

Definition send_data (chip_select : Z) (tx : list Z) : M (board E D) () :=
  wr S_ser (wrap 32 (Z.shiftl 1 chip_select)) ;;
  wr S_ssienr 1 ;;
  send_loop tx 0 ;;
  wait_idle fuel ;;
  wr S_ser 0 ;;
  wr S_ssienr 0.

(** The rounds of [fill_data]: as many frames as there is room for. *)
Fixpoint fill_loop (n : nat) (value tx_len : Z) : M (board E D) () :=
  if tx_len =? 0 then mret ()
  else
    match n with
    | O => halt OutOfFuel
    | S n =>
        v ← rd S_txflr;
        let fifo_len := (32 -u32 v) `min` tx_len in
        for_each (seqZ 0 fifo_len) (λ _, wr S_dr value) ;;
        fill_loop n value (tx_len - fifo_len)
    end.

Definition fill_data (chip_select value tx_len : Z) : M (board E D) () :=
  wr S_ser (wrap 32 (Z.shiftl 1 chip_select)) ;;
  wr S_ssienr 1 ;;
  fill_loop fuel value tx_len ;;
  wait_idle fuel ;;
  wr S_ser 0 ;;
  wr S_ssienr 0.

Definition SPIImpl (IF : SPI01) : SPI (board E D) := {|
  spi_configure := configure;
  spi_set_clk_rate := set_clk_rate IF;
  spi_recv_data := recv_data;
  spi_send_data := send_data |}.
End polls.
End board_ops.
