(* ===== verification/SdCard.v ===== *)
(** * SdCard: the SD card driver in SPI mode (os/src/drivers/block/sdcard.rs)

    The driver is generic in the SPI controller ([X: SPI]) and drives the chip
    select of the card with a GPIO pin.  A [Result<A, ()>] is an [option A]. *)

From stdpp Require Import base list numbers.
From S2P Require Import Prelude Pll K210Spi.

Definition SD_START_DATA_SINGLE_BLOCK_READ : Z := 0xFE.
Definition SD_START_DATA_MULTIPLE_BLOCK_READ : Z := 0xFE.
Definition SD_START_DATA_SINGLE_BLOCK_WRITE : Z := 0xFE.
Definition SD_START_DATA_MULTIPLE_BLOCK_WRITE : Z := 0xFC.

Definition SEC_LEN : nat := 512.

Inductive CMD : Type :=
  | CMD0 | CMD8 | CMD9 | CMD10 | CMD12 | CMD16 | CMD17 | CMD18 | ACMD23 | CMD24 | CMD25
  | ACMD41 | CMD55 | CMD58 | CMD59.

(** [cmd as u8]. *)
Definition CMD_code (c : CMD) : Z :=
  match c with
  | CMD0 => 0 | CMD8 => 8 | CMD9 => 9 | CMD10 => 10 | CMD12 => 12 | CMD16 => 16 | CMD17 => 17
  | CMD18 => 18 | ACMD23 => 23 | CMD24 => 24 | CMD25 => 25 | ACMD41 => 41 | CMD55 => 55
  | CMD58 => 58 | CMD59 => 59
  end.

Inductive InitError : Type :=
  | CMDFailed (c : CMD) (r : Z)
  | CardCapacityStatusNotSet (frame : list Z)
  | CannotGetCardInfo.

(** Card specific data. *)
Record SDCardCSD : Type := mkCSD {
  CSDStruct : Z; SysSpecVersion : Z; csd_Reserved1 : Z; TAAC : Z; NSAC : Z; MaxBusClkFrec : Z;
  CardComdClasses : Z; RdBlockLen : Z; PartBlockRead : Z; WrBlockMisalign : Z;
  RdBlockMisalign : Z; DSRImpl : Z; csd_Reserved2 : Z; DeviceSize : Z; EraseGrSize : Z;
  EraseGrMul : Z; WrProtectGrSize : Z; WrProtectGrEnable : Z; ManDeflECC : Z; WrSpeedFact : Z;
  MaxWrBlockLen : Z; WriteBlockPaPartial : Z; csd_Reserved3 : Z; ContentProtectAppli : Z;
  FileFormatGroup : Z; CopyFlag : Z; PermWrProtect : Z; TempWrProtect : Z; FileFormat : Z;
  ECC : Z; CSD_CRC : Z; csd_Reserved4 : Z }.

(** Card identification data. *)
Record SDCardCID : Type := mkCID {
  ManufacturerID : Z; OEM_AppliID : Z; ProdName1 : Z; ProdName2 : Z; ProdRev : Z; ProdSN : Z;
  cid_Reserved1 : Z; ManufactDate : Z; CID_CRC : Z; cid_Reserved2 : Z }.

Record SDCardInfo : Type := mkInfo {
  SD_csd : SDCardCSD; SD_cid : SDCardCID; CardCapacity : Z; CardBlockSize : Z }.

(** Shifts of u8, u16 and u32 values. *)
Definition shl8 (a n : Z) : Z := wrap 8 (Z.shiftl a n).
Definition shl16 (a n : Z) : Z := wrap 16 (Z.shiftl a n).
Definition shl32 (a n : Z) : Z := wrap 32 (Z.shiftl a n).

(** The fields of the CSD register, from its bytes. *)
Definition csd_of (t : list Z) : SDCardCSD :=
  let b i := nth i t 0 in
  {| CSDStruct := Z.shiftr (Z.land (b 0%nat) 0xC0) 6;
     SysSpecVersion := Z.shiftr (Z.land (b 0%nat) 0x3C) 2;
     csd_Reserved1 := Z.land (b 0%nat) 0x03;
     TAAC := b 1%nat;
     NSAC := b 2%nat;
     MaxBusClkFrec := b 3%nat;
     CardComdClasses := Z.lor (shl16 (b 4%nat) 4) (Z.shiftr (Z.land (b 5%nat) 0xF0) 4);
     RdBlockLen := Z.land (b 5%nat) 0x0F;
     PartBlockRead := Z.shiftr (Z.land (b 6%nat) 0x80) 7;
     WrBlockMisalign := Z.shiftr (Z.land (b 6%nat) 0x40) 6;
     RdBlockMisalign := Z.shiftr (Z.land (b 6%nat) 0x20) 5;
     DSRImpl := Z.shiftr (Z.land (b 6%nat) 0x10) 4;
     csd_Reserved2 := 0;
     DeviceSize := Z.lor (Z.lor (shl32 (Z.land (b 7%nat) 0x3F) 16) (shl32 (b 8%nat) 8)) (b 9%nat);
     EraseGrSize := Z.shiftr (Z.land (b 10%nat) 0x40) 6;
     EraseGrMul := Z.lor (shl8 (Z.land (b 10%nat) 0x3F) 1) (Z.shiftr (Z.land (b 11%nat) 0x80) 7);
     WrProtectGrSize := Z.land (b 11%nat) 0x7F;
     WrProtectGrEnable := Z.shiftr (Z.land (b 12%nat) 0x80) 7;
     ManDeflECC := Z.shiftr (Z.land (b 12%nat) 0x60) 5;
     WrSpeedFact := Z.shiftr (Z.land (b 12%nat) 0x1C) 2;
     MaxWrBlockLen := Z.lor (shl8 (Z.land (b 12%nat) 0x03) 2) (Z.shiftr (Z.land (b 13%nat) 0xC0) 6);
     WriteBlockPaPartial := Z.shiftr (Z.land (b 13%nat) 0x20) 5;
     csd_Reserved3 := 0;
     ContentProtectAppli := Z.land (b 13%nat) 0x01;
     FileFormatGroup := Z.shiftr (Z.land (b 14%nat) 0x80) 7;
     CopyFlag := Z.shiftr (Z.land (b 14%nat) 0x40) 6;
     PermWrProtect := Z.shiftr (Z.land (b 14%nat) 0x20) 5;
     TempWrProtect := Z.shiftr (Z.land (b 14%nat) 0x10) 4;
     FileFormat := Z.shiftr (Z.land (b 14%nat) 0x0C) 2;
     ECC := Z.land (b 14%nat) 0x03;
     CSD_CRC := Z.shiftr (Z.land (b 15%nat) 0xFE) 1;
     csd_Reserved4 := 1 |}.

(** The fields of the CID register. *)
Definition cid_of (t : list Z) : SDCardCID :=
  let b i := nth i t 0 in
  {| ManufacturerID := b 0%nat;
     OEM_AppliID := Z.lor (shl16 (b 1%nat) 8) (b 2%nat);
     ProdName1 := Z.lor (Z.lor (Z.lor (shl32 (b 3%nat) 24) (shl32 (b 4%nat) 16))
                    (shl32 (b 5%nat) 8)) (b 6%nat);
     ProdName2 := b 7%nat;
     ProdRev := b 8%nat;
     ProdSN := Z.lor (Z.lor (Z.lor (shl32 (b 9%nat) 24) (shl32 (b 10%nat) 16))
                 (shl32 (b 11%nat) 8)) (b 12%nat);
     cid_Reserved1 := Z.shiftr (Z.land (b 13%nat) 0xF0) 4;
     ManufactDate := Z.lor (shl16 (Z.land (b 13%nat) 0x0F) 8) (b 14%nat);
     CID_CRC := Z.shiftr (Z.land (b 15%nat) 0xFE) 1;
     cid_Reserved2 := 1 |}.

Record SDCard : Type := mkSDCard { spi_cs : Z; cs_gpionum : Z }.

(** The frame of a command. *)
Definition cmd_frame (c : CMD) (arg crc : Z) : list Z :=
  [Z.lor (CMD_code c) 0x40; wrap 8 (Z.shiftr arg 24); Z.land (Z.shiftr arg 16) 0xff;
   Z.land (Z.shiftr arg 8) 0xff; Z.land arg 0xff; crc].

(** [data_buf.chunks(SEC_LEN)], for a length that is a multiple of it. *)
Fixpoint chunks (n : nat) (data : list Z) : list (list Z) :=
  match n with
  | O => []
  | S n => take SEC_LEN data :: chunks n (drop SEC_LEN data)
  end.

(** The turns of [get_response] before it gives up. *)
Definition response_timeout : nat := Z.to_nat 0x0FFF.

Section driver.
Context {T : Type} `{!SPI T} `{!GPIOHS T}.
Context (sd : SDCard).

Definition CS_HIGH : M T () := gpiohs_set_pin (cs_gpionum sd) true.
Definition CS_LOW : M T () := gpiohs_set_pin (cs_gpionum sd) false.

Definition HIGH_SPEED_ENABLE : M T () := _ ← spi_set_clk_rate 10000000; mret ().

Definition lowlevel_init : M T () :=
  gpiohs_set_direction (cs_gpionum sd) true ;;
  _ ← spi_set_clk_rate 200000;
  mret ().

Definition write_data (data : list Z) : M T () :=
  spi_configure MODE0 format_STANDARD 8 0 0 0 0 aitm_STANDARD tmod_TRANS ;;
  spi_send_data (spi_cs sd) data.

Definition read_data (len : nat) : M T (list Z) :=
  spi_configure MODE0 format_STANDARD 8 0 0 0 0 aitm_STANDARD tmod_RECV ;;
  spi_recv_data (spi_cs sd) len.

(** [read_data] into a buffer of one byte. *)
Definition read_byte : M T Z :=
  d ← read_data 1; unwrap (head d).

Definition send_cmd (c : CMD) (arg crc : Z) : M T () :=
  CS_LOW ;; write_data (cmd_frame c arg crc).

Definition end_cmd : M T () :=
  CS_HIGH ;; write_data [0xff].

Fixpoint get_response_loop (timeout : nat) : M T Z :=
  match timeout with
  | O => mret 0xFF
  | S timeout =>
      r ← read_byte;
      if r =? 0xFF then get_response_loop timeout else mret r
  end.

Definition get_response : M T Z := get_response_loop response_timeout.

(** [while response[0] == 0]. *)
Fixpoint wait_busy (fuel : nat) (response : Z) : M T () :=
  if response =? 0 then
    match fuel with
    | O => halt OutOfFuel
    | S fuel => r ← read_byte; wait_busy fuel r
    end
  else mret ().

Definition get_dataresponse (fuel : nat) : M T Z :=
  r ← read_byte;
  if negb (Z.land r 0x1F =? 0x05) then mret 0xFF
  else
    r ← read_byte;
    wait_busy fuel r ;;
    mret 0.

(** A register read as a block: the bytes, or [None]. *)
Definition get_register (c : CMD) : M T (option (list Z)) :=
  send_cmd c 0 0 ;;
  r ← get_response;
  if negb (r =? 0) then end_cmd ;; mret None
  else
    r ← get_response;
    if negb (r =? SD_START_DATA_SINGLE_BLOCK_READ) then end_cmd ;; mret None
    else
      tab ← read_data 18;
      end_cmd ;;
      mret (Some tab).

Definition get_csdregister : M T (option SDCardCSD) :=
  t ← get_register CMD9; mret (csd_of <$> t).

Definition get_cidregister : M T (option SDCardCID) :=
  t ← get_register CMD10; mret (cid_of <$> t).

(** The sizes the information gives. *)
Definition card_info (csd : SDCardCSD) (cid : SDCardCID) : SDCardInfo :=
  let bs := 1 <<u RdBlockLen csd in
  mkInfo csd cid ((DeviceSize csd +u 1) *u 1024 *u bs) bs.

Definition get_cardinfo : M T (option SDCardInfo) :=
  csd ← get_csdregister;
  match csd with
  | None => mret None
  | Some csd =>
      cid ← get_cidregister;
      mret (card_info csd <$> cid)
  end.

(** The ACMD41 loop: [inl] is the index at its end, [inr] an early return. *)
Fixpoint acmd41_loop (index : nat) : M T (nat + InitError) :=
  match index with
  | O => mret (inl O)
  | S index' =>
      send_cmd CMD55 0 0 ;;
      r ← get_response;
      end_cmd ;;
      if negb (r =? 1) then mret (inr (CMDFailed CMD55 r))
      else
        send_cmd ACMD41 0x40000000 0 ;;
        r ← get_response;
        end_cmd ;;
        if r =? 0 then mret (inl index) else acmd41_loop index'
  end.

(** The CMD58 loop: the index at its end, and the OCR frame. *)
Fixpoint cmd58_loop (index : nat) (frame : list Z) : M T (nat * list Z) :=
  match index with
  | O => mret (O, frame)
  | S index' =>
      send_cmd CMD58 0 1 ;;
      r ← get_response;
      frame ← read_data 4;
      end_cmd ;;
      if r =? 0 then mret (index, frame) else cmd58_loop index' frame
  end.

Definition init : M T (SDCardInfo + InitError) :=
  lowlevel_init ;;
  CS_HIGH ;;
  write_data (replicate 10 0xff) ;;
  send_cmd CMD0 0 0x95 ;;
  result ← get_response;
  end_cmd ;;
  if negb (result =? 1) then mret (inr (CMDFailed CMD0 result))
  else
    send_cmd CMD8 0x01AA 0x87 ;;
    result ← get_response;
    _ ← read_data 4;
    end_cmd ;;
    if negb (result =? 1) then mret (inr (CMDFailed CMD8 result))
    else
      o ← acmd41_loop 255;
      match o with
      | inr e => mret (inr e)
      | inl O => mret (inr (CMDFailed ACMD41 result))
      | inl (S _) =>
          '(index, frame) ← cmd58_loop 255 (replicate 4 0);
          match index with
          | O => mret (inr (CMDFailed CMD58 result))
          | S _ =>
              f0 ← unwrap (head frame);
              if Z.land f0 0x40 =? 0 then mret (inr (CardCapacityStatusNotSet frame))
              else
                HIGH_SPEED_ENABLE ;;
                info ← get_cardinfo;
                match info with
                | Some info => mret (inl info)
                | None => mret (inr CannotGetCardInfo)
                end
          end
      end.

(** The chunks of a read: the data so far, and whether there was an error. *)
Fixpoint read_chunks (n : nat) : M T (list Z * bool) :=
  match n with
  | O => mret ([], false)
  | S n =>
      r ← get_response;
      if negb (r =? SD_START_DATA_SINGLE_BLOCK_READ) then mret ([], true)
      else
        chunk ← read_data SEC_LEN;
        _ ← read_data 2;
        '(rest, error) ← read_chunks n;
        mret (chunk ++ rest, error)
  end.

(** [read_sector] into a buffer of [len] bytes: the bytes it placed at the start of
    the buffer, [None] on an error. *)
Definition read_sector (len : nat) (sector : Z) : M T (option (list Z)) :=
  assertM (bool_decide (SEC_LEN ≤ len)%nat && bool_decide (len mod SEC_LEN = 0)%nat) ;;
  let flag := negb (bool_decide (len = SEC_LEN)) in
  send_cmd (if flag then CMD18 else CMD17) sector 0 ;;
  r ← get_response;
  if negb (r =? 0) then end_cmd ;; mret None
  else
    '(data, error) ← read_chunks (len / SEC_LEN);
    end_cmd ;;
    (if flag : bool then
       send_cmd CMD12 0 0 ;; _ ← get_response; end_cmd ;; end_cmd
     else mret ()) ;;
    mret (if error : bool then None else Some data).

(** The chunks of a write; [false] is an error. *)
Fixpoint write_chunks (fuel : nat) (frame : list Z) (cs : list (list Z)) : M T bool :=
  match cs with
  | [] => mret true
  | c :: cs =>
      write_data frame ;;
      write_data c ;;
      write_data [0xff; 0xff] ;;
      r ← get_dataresponse fuel;
      if negb (r =? 0) then end_cmd ;; mret false
      else write_chunks fuel frame cs
  end.

Definition write_sector (fuel : nat) (data : list Z) (sector : Z) : M T (option ()) :=
  assertM (bool_decide (SEC_LEN ≤ length data)%nat && bool_decide (length data mod SEC_LEN = 0)%nat) ;;
  let single := bool_decide (length data = SEC_LEN) in
  let frame := [0xff; if single then SD_START_DATA_SINGLE_BLOCK_WRITE
                      else SD_START_DATA_MULTIPLE_BLOCK_WRITE] in
  (if single : bool then send_cmd CMD24 sector 0
   else
     n ← unwrap (let n := Z.of_nat (length data / SEC_LEN) in
                 if n <? 2 ^ 32 then Some n else None);
     send_cmd ACMD23 n 0 ;;
     _ ← get_response;
     end_cmd ;;
     send_cmd CMD25 sector 0) ;;
  r ← get_response;
  if negb (r =? 0) then end_cmd ;; mret None
  else
    ok ← write_chunks fuel frame (chunks (length data / SEC_LEN) data);
    if ok : bool then end_cmd ;; end_cmd ;; mret (Some ()) else mret None.
End driver.

(** ** The driver of the kernel *)

Definition SD_CS_GPIONUM : Z := 7.
Definition SD_CS : Z := 3.

(** [SDCardWrapper]: the blocks of the file system are the sectors of the card. *)
Section wrapper.
Context {T : Type} `{!SPI T} `{!GPIOHS T}.

Definition the_card : SDCard := mkSDCard SD_CS SD_CS_GPIONUM.

(** [read_block] into a buffer of [len] bytes. *)
Definition SDCardWrapper_read_block (block_id : Z) (len : nat) : M T (list Z) :=
  r ← read_sector the_card len (wrap 32 block_id); unwrap r.

Definition SDCardWrapper_write_block (fuel : nat) (block_id : Z) (buf : list Z) : M T () :=
  r ← write_sector the_card fuel buf (wrap 32 block_id); unwrap r.
End wrapper.
