(* ===== verification/SdCardInv.v ===== *)
(** * SdCardInv: the SD card driver meets the protocol of the card

    [SdWire]: what the driver needs of the SPI controller and the pins; each
    transaction exchanges its bytes with the card.  [SdCardLaws]: how a card behaves
    in SPI mode.  From both follow the outcomes of the driver. *)

From stdpp Require Import base list numbers.
From S2P Require Import Prelude Bytes Pll K210Spi SdCard.

(** ** Cards *)

(** A card exchanges a byte at a time: with the chip select at the given level
    ([false]: selected) it takes a byte and returns one. *)
Class CardDev (C : Type) := card_xchg : bool → Z → C → Z * C.

Section exchange.
Context {C : Type} `{!CardDev C}.

(** The card after the bytes [tx]. *)
Fixpoint clock_out (cs : bool) (tx : list Z) (c : C) : C :=
  match tx with
  | [] => c
  | b :: tx => clock_out cs tx (card_xchg cs b c).2
  end.

(** [n] bytes from the card, with the line to it high. *)
Fixpoint clock_in (cs : bool) (n : nat) (c : C) : list Z * C :=
  match n with
  | O => ([], c)
  | S n =>
      let '(b, c) := card_xchg cs 0xff c in
      let '(bs, c) := clock_in cs n c in
      (b :: bs, c)
  end.

Lemma length_clock_in cs n c : length (clock_in cs n c).1 = n.
Proof.
  revert c. induction n as [|n IH]; intros c; simpl; [done|].
  destruct (card_xchg cs 0xff c) as [b c1]. specialize (IH c1).
  destruct (clock_in cs n c1) as [bs c2]. simpl in *. lia.
Qed.

Lemma clock_out_app cs tx1 tx2 c :
  clock_out cs (tx1 ++ tx2) c = clock_out cs tx2 (clock_out cs tx1 c).
Proof. revert c. induction tx1; intros c; simpl; auto. Qed.

(** The selected card is silent for [k] bytes, then returns [r]. *)
Inductive answers (r : Z) : nat → C → C → Prop :=
| ans_now c c' : card_xchg false 0xff c = (r, c') → r ≠ 0xff → answers r 0 c c'
| ans_wait k c c1 c' : card_xchg false 0xff c = (0xff, c1) → answers r k c1 c' →
    answers r (S k) c c'.

(** [r] comes before the driver gives up. *)
Definition responds (r : Z) (c c' : C) : Prop := ∃ k, (k < response_timeout)%nat ∧ answers r k c c'.

(** A command, and its response. *)
Definition reply (frame : list Z) (r : Z) (c c' : C) : Prop := responds r (clock_out false frame c) c'.

(** The end of a command: a byte with the card not selected. *)
Definition deselect (c : C) : C := clock_out true [0xff] c.

(** Busy (zeros) for [k] bytes, then not. *)
Inductive busy : nat → C → C → Prop :=
| busy_over c r c' : card_xchg false 0xff c = (r, c') → r ≠ 0 → busy 0 c c'
| busy_more k c c1 c' : card_xchg false 0xff c = (0, c1) → busy k c1 c' → busy (S k) c c'.
End exchange.

(** ** The wire *)

Class SdWire (T C : Type) `{!SPI T} `{!GPIOHS T} `{!CardDev C} := {
  wire_ok : T → Prop;
  wire_card : T → C;
  wire_cs : T → bool;
  wire_mode : T → tmod;
  wire_configure s tm : wire_ok s →
    ∃ s', spi_configure MODE0 format_STANDARD 8 0 0 0 0 aitm_STANDARD tm s = Ok ((), s') ∧
      wire_ok s' ∧ wire_cs s' = wire_cs s ∧ wire_card s' = wire_card s ∧ wire_mode s' = tm;
  wire_send s tx : wire_ok s → wire_mode s = tmod_TRANS → Forall is_byte tx →
    ∃ s', spi_send_data SD_CS tx s = Ok ((), s') ∧
      wire_ok s' ∧ wire_cs s' = wire_cs s ∧
      wire_card s' = clock_out (wire_cs s) tx (wire_card s);
  wire_recv s n : wire_ok s → wire_mode s = tmod_RECV → (0 < n ≤ SEC_LEN)%nat →
    ∃ s', spi_recv_data SD_CS n s = Ok ((clock_in (wire_cs s) n (wire_card s)).1, s') ∧
      wire_ok s' ∧ wire_cs s' = wire_cs s ∧
      wire_card s' = (clock_in (wire_cs s) n (wire_card s)).2;
  wire_pin s v : wire_ok s →
    ∃ s', gpiohs_set_pin SD_CS_GPIONUM v s = Ok ((), s') ∧
      wire_ok s' ∧ wire_cs s' = v ∧ wire_card s' = wire_card s;
  wire_direction s : wire_ok s →
    ∃ s', gpiohs_set_direction SD_CS_GPIONUM true s = Ok ((), s') ∧
      wire_ok s' ∧ wire_cs s' = wire_cs s ∧ wire_card s' = wire_card s;
  wire_rate s f : wire_ok s → 0 < f →
    ∃ g s', spi_set_clk_rate f s = Ok (g, s') ∧
      wire_ok s' ∧ wire_cs s' = wire_cs s ∧ wire_card s' = wire_card s }.

(** ** The driver on the wire *)

Lemma byte_land a : is_byte (Z.land a 0xff).
Proof.
  change 0xff with (2 ^ 8 - 1). rewrite land_ones_mod by lia. apply Z.mod_pos_bound. lia.
Qed.

Lemma cmd_frame_bytes cmd arg crc : in_u 32 arg → is_byte crc → Forall is_byte (cmd_frame cmd arg crc).
Proof.
  intros Ha Hc. unfold cmd_frame. repeat constructor; try apply byte_land; try apply Hc;
    try (apply (wrap_range 8); lia); destruct cmd; done.
Qed.

Section on_wire.
Context {T C : Type} `{!SPI T} `{!GPIOHS T} `{!CardDev C} `{!SdWire T C}.
Implicit Types s : T.
Implicit Types c : C.

(** The wire works, with the chip select at [cs] and the card [c]. *)
Definition at_wire (s : T) (cs : bool) (c : C) : Prop :=
  wire_ok s ∧ wire_cs s = cs ∧ wire_card s = c.

Lemma write_data_run s cs c tx : at_wire s cs c → Forall is_byte tx →
  ∃ s', write_data the_card tx s = Ok ((), s') ∧ at_wire s' cs (clock_out cs tx c).
Proof.
  intros (Hok & <- & <-) Hb. unfold write_data.
  destruct (wire_configure s tmod_TRANS Hok) as (s1 & H1 & Hok1 & Hcs & Hc & Hm). run H1.
  destruct (wire_send s1 tx Hok1 Hm Hb) as (s2 & H2 & Hok2 & Hcs2 & Hc2).
  exists s2. rewrite Hcs, Hc in *. done.
Qed.

Lemma read_data_run s cs c n : at_wire s cs c → (0 < n ≤ SEC_LEN)%nat →
  ∃ s', read_data the_card n s = Ok ((clock_in cs n c).1, s') ∧ at_wire s' cs (clock_in cs n c).2.
Proof.
  intros (Hok & <- & <-) Hn. unfold read_data.
  destruct (wire_configure s tmod_RECV Hok) as (s1 & H1 & Hok1 & Hcs & Hc & Hm). run H1.
  destruct (wire_recv s1 n Hok1 Hm Hn) as (s2 & H2 & Hok2 & Hcs2 & Hc2).
  exists s2. rewrite Hcs, Hc in *. done.
Qed.

Lemma read_byte_run s cs c b c' : at_wire s cs c → card_xchg cs 0xff c = (b, c') →
  ∃ s', read_byte the_card s = Ok (b, s') ∧ at_wire s' cs c'.
Proof.
  intros Hs Hx. unfold read_byte.
  destruct (read_data_run s cs c 1 Hs) as (s' & H & Hs'); [unfold SEC_LEN; lia|].
  simpl in H, Hs'. rewrite Hx in H, Hs'. run H. by exists s'.
Qed.

Lemma send_cmd_run s cs c cmd arg crc : at_wire s cs c → in_u 32 arg → is_byte crc →
  ∃ s', send_cmd the_card cmd arg crc s = Ok ((), s') ∧
    at_wire s' false (clock_out false (cmd_frame cmd arg crc) c).
Proof.
  intros (Hok & <- & <-) Ha Hcrc. unfold send_cmd, CS_LOW.
  destruct (wire_pin s false Hok) as (s1 & H1 & Hok1 & Hcs & Hc). run H1.
  apply write_data_run; [done|]. by apply cmd_frame_bytes.
Qed.

Lemma end_cmd_run s cs c : at_wire s cs c →
  ∃ s', end_cmd the_card s = Ok ((), s') ∧ at_wire s' true (deselect c).
Proof.
  intros (Hok & <- & <-). unfold end_cmd, CS_HIGH.
  destruct (wire_pin s true Hok) as (s1 & H1 & Hok1 & Hcs & Hc). run H1.
  apply write_data_run; [done|]. by repeat constructor.
Qed.

Lemma response_loop_run r k c c' n s : answers r k c c' → (k < n)%nat → at_wire s false c →
  ∃ s', get_response_loop the_card n s = Ok (r, s') ∧ at_wire s' false c'.
Proof.
  intros H. revert n s. induction H as [c c' Hx Hr|k c c1 c' Hx _ IH];
    intros [|n] s Hn Hs; try lia; cbn [get_response_loop].
  - destruct (read_byte_run s false c r c' Hs Hx) as (s' & H & Hs'). run H.
    rewrite (proj2 (Z.eqb_neq _ _) Hr). by exists s'.
  - destruct (read_byte_run s false c _ c1 Hs Hx) as (s' & H & Hs'). run H.
    apply IH; [lia|done].
Qed.

Lemma get_response_run r c c' s : responds r c c' → at_wire s false c →
  ∃ s', get_response the_card s = Ok (r, s') ∧ at_wire s' false c'.
Proof. intros (k & Hk & Ha) Hs. by apply (response_loop_run r k c c'). Qed.

(** A command and its response. *)
Lemma command_run cmd arg crc r c c' s cs : reply (cmd_frame cmd arg crc) r c c' → at_wire s cs c →
  in_u 32 arg → is_byte crc →
  ∃ s1 s', send_cmd the_card cmd arg crc s = Ok ((), s1) ∧
    get_response the_card s1 = Ok (r, s') ∧ at_wire s' false c'.
Proof.
  intros Hr Hs Ha Hcrc. destruct (send_cmd_run s cs c cmd arg crc Hs Ha Hcrc) as (s1 & H1 & Hs1).
  destruct (get_response_run r _ c' s1 Hr Hs1) as (s' & H' & Hs'). by exists s1, s'.
Qed.

(** ... and its end. *)
Lemma whole_command_run {B} cmd arg crc r c c' s cs (k : Z → M T B) :
  reply (cmd_frame cmd arg crc) r c c' → at_wire s cs c →
  in_u 32 arg → is_byte crc →
  ∃ s', at_wire s' true (deselect c') ∧
    (send_cmd the_card cmd arg crc ;; x ← get_response the_card; end_cmd the_card ;; k x) s = k r s'.
Proof.
  intros Hr Hs Ha Hcrc.
  destruct (command_run cmd arg crc r c c' s cs Hr Hs Ha Hcrc) as (s1 & s2 & H1 & H2 & Hs2).
  destruct (end_cmd_run s2 _ _ Hs2) as (s3 & H3 & Hs3). exists s3. split; [done|].
  run H1. run H2. run H3. done.
Qed.

Lemma wait_busy_run k c c' fuel s r s0 : busy k c c' → (k ≤ fuel)%nat → at_wire s false c →
  read_byte the_card s = Ok (r, s0) →
  ∃ s', wait_busy the_card fuel r s0 = Ok ((), s') ∧ at_wire s' false c'.
Proof.
  intros H. revert fuel s r s0. induction H as [c b c' Hx Hb|k c c1 c' Hx _ IH];
    intros fuel s r s0 Hf Hs Hrd;
    destruct (read_byte_run s false c _ _ Hs Hx) as (s1 & H1 & Hs1);
    rewrite H1 in Hrd; injection Hrd as <- <-.
  - exists s1. split; [|done]. destruct fuel; cbn [wait_busy];
      by rewrite (proj2 (Z.eqb_neq _ _) Hb).
  - destruct fuel as [|fuel]; [lia|]. cbn [wait_busy]. change (0 =? 0) with true. cbn match.
    destruct (card_xchg false 0xff c1) as [b c2] eqn:Hx2.
    destruct (read_byte_run s1 false c1 b c2 Hs1 Hx2) as (s2 & H2 & Hs2). run H2.
    apply (IH fuel s1); [lia|done|done].
Qed.
End on_wire.

(** ** Cards that follow the specification *)

(** What a card stores: its sectors. *)
Record sd_disk := mkSdDisk { disk_size : Z; disk_data : Z → list Z }.

Definition disk_write (d : sd_disk) (sector : Z) (b : list Z) : sd_disk :=
  mkSdDisk (disk_size d) (λ i, if decide (i = sector) then b else disk_data d i).

(** The states of a card on its way to data transfer.  [sd_checked k] and [sd_app k]
    (after CMD55): it still needs [k] turns to initialise. *)
Inductive sd_phase : Type :=
  | sd_power_up | sd_native | sd_idle | sd_checked (k : nat) | sd_app (k : nat) | sd_ready.

(** A frame on the wire, as the specification has it: a start bit 0, a 1, six bits of
    command index, the argument from its highest byte on, and the checksum. *)
Definition bytes_be (l : list Z) : Z := foldl (λ n b, n * 256 + b) 0 l.

Definition wire_command (fr : list Z) : option (Z * Z) :=
  match fr with
  | [b0; b1; b2; b3; b4; _] =>
      if b0 / 64 =? 1 then Some (b0 mod 64, bytes_be [b1; b2; b3; b4]) else None
  | _ => None
  end.

Record wire_cmd (index arg : Z) (fr : list Z) : Prop := {
  wc_bytes : Forall is_byte fr;
  wc_command : wire_command fr = Some (index, arg) }.

(** The checksum: seven bits, for the polynomial x^7 + x^3 + 1, and an end bit 1. *)
Definition crc7_bit (crc : Z) (bit : bool) : Z :=
  let sh := Z.land (Z.shiftl crc 1) 0x7f in
  if xorb (Z.testbit crc 6) bit then Z.lxor sh 0x09 else sh.

Definition crc7 (l : list Z) : Z :=
  foldl (λ crc b, foldl crc7_bit crc (Z.testbit b <$> [7; 6; 5; 4; 3; 2; 1; 0])) 0 l.

Definition crc_ok (fr : list Z) : Prop := nth 5 fr 0 = 2 * crc7 (take 5 fr) + 1.

(** [width] bits of the 128-bit CSD register, from bit [off]. *)
Definition csd_field (off width : Z) (t : list Z) : Z :=
  bytes_be (take 16 t) / 2 ^ off mod 2 ^ width.

(** The SD specification in SPI mode, for the commands of the driver, in terms of
    what is on the wire.  Only the first two commands need their checksum.  [card_at p d
    c]: the card [c] is in phase [p], not selected, and stores [d].  [sd_busy]
    bounds how long it is busy with a write, in bytes. *)
Class SdCardLaws (C : Type) `{!CardDev C} := {
  card_at : sd_phase → sd_disk → C → Prop;
  sd_busy : nat;
  sd_clocks d c : card_at sd_power_up d c →
    card_at sd_native d (clock_out true (replicate 10 0xff) c);
  sd_cmd0 d c fr : card_at sd_native d c → wire_cmd 0 0 fr → crc_ok fr →
    ∃ c', reply fr 1 c c' ∧ card_at sd_idle d (deselect c');
  sd_cmd8 d c fr : card_at sd_idle d c → wire_cmd 8 0x1AA fr → crc_ok fr →
    ∃ c' k, reply fr 1 c c' ∧ (k < 255)%nat ∧
      card_at (sd_checked k) d (deselect (clock_in false 4 c').2);
  sd_cmd55 d c k fr : card_at (sd_checked k) d c → wire_cmd 55 0 fr →
    ∃ c', reply fr 1 c c' ∧ card_at (sd_app k) d (deselect c');
  sd_acmd41_more d c k fr : card_at (sd_app (S k)) d c → wire_cmd 41 0x40000000 fr →
    ∃ c', reply fr 1 c c' ∧ card_at (sd_checked k) d (deselect c');
  sd_acmd41_done d c fr : card_at (sd_app 0) d c → wire_cmd 41 0x40000000 fr →
    ∃ c', reply fr 0 c c' ∧ card_at sd_ready d (deselect c');
  sd_cmd58 d c fr : card_at sd_ready d c → wire_cmd 58 0 fr →
    ∃ c', reply fr 0 c c' ∧
      Z.land (nth 0 (clock_in false 4 c').1 0) 0x40 ≠ 0 ∧
      card_at sd_ready d (deselect (clock_in false 4 c').2);
  sd_cmd9 d c fr : card_at sd_ready d c → wire_cmd 9 0 fr →
    ∃ c1 c2, reply fr 0 c c1 ∧ responds 0xFE c1 c2 ∧
      Forall is_byte (clock_in false 18 c2).1 ∧
      csd_field 80 4 (clock_in false 18 c2).1 = 9 ∧
      (csd_field 48 22 (clock_in false 18 c2).1 + 1) * 1024 = disk_size d ∧
      card_at sd_ready d (deselect (clock_in false 18 c2).2);
  sd_cmd10 d c fr : card_at sd_ready d c → wire_cmd 10 0 fr →
    ∃ c1 c2, reply fr 0 c c1 ∧ responds 0xFE c1 c2 ∧
      card_at sd_ready d (deselect (clock_in false 18 c2).2);
  sd_cmd17 d c sector fr : card_at sd_ready d c → 0 ≤ sector < disk_size d → wire_cmd 17 sector fr →
    ∃ c1 c2, reply fr 0 c c1 ∧ responds 0xFE c1 c2 ∧
      (clock_in false SEC_LEN c2).1 = disk_data d sector ∧
      card_at sd_ready d (deselect (clock_in false 2 (clock_in false SEC_LEN c2).2).2);
  sd_cmd24 d c sector b fr : card_at sd_ready d c → 0 ≤ sector < disk_size d → wire_cmd 24 sector fr →
    length b = SEC_LEN → Forall is_byte b →
    ∃ c1 r c2 c3 k, reply fr 0 c c1 ∧
      card_xchg false 0xff (clock_out false ([0xff; 0xFE] ++ b ++ [0xff; 0xff]) c1) = (r, c2) ∧
      Z.land r 0x1F = 0x05 ∧ (k ≤ sd_busy)%nat ∧ busy k c2 c3 ∧
      card_at sd_ready (disk_write d sector b) (deselect (deselect c3)) }.

(** ** What the driver sends and reads, on the wire *)

Lemma bytes_be_arg arg : in_u 32 arg →
  bytes_be [wrap 8 (Z.shiftr arg 24); Z.land (Z.shiftr arg 16) 0xff; Z.land (Z.shiftr arg 8) 0xff; Z.land arg 0xff] = arg.
Proof.
  intros Ha. unfold bytes_be. cbn [foldl].
  change 0xff with (2 ^ 8 - 1). rewrite !land_ones_mod by lia.
  rewrite !Z.shiftr_div_pow2 by lia. unfold wrap, in_u in *.
  change (2 ^ 32) with 4294967296 in *. change (2 ^ 24) with 16777216.
  change (2 ^ 16) with 65536. change (2 ^ 8) with 256.
  assert (arg / 65536 = arg / 256 / 256) as -> by (rewrite Z.div_div by lia; done).
  assert (arg / 16777216 = arg / 256 / 256 / 256) as -> by (rewrite !Z.div_div by lia; done).
  assert (arg / 256 / 256 / 256 < 256) by (rewrite !Z.div_div by lia; apply Z.div_lt_upper_bound; lia).
  assert (0 ≤ arg / 256 / 256 / 256) by (repeat apply Z.div_pos; lia).
  rewrite (Z.mod_small (arg / 256 / 256 / 256)) by lia.
  pose proof (Z.div_mod arg 256). pose proof (Z.div_mod (arg / 256) 256).
  pose proof (Z.div_mod (arg / 256 / 256) 256). lia.
Qed.

(** The frame of [send_cmd] carries the command and the argument. *)
Lemma cmd_frame_wire cmd arg crc : in_u 32 arg → is_byte crc →
  wire_cmd (CMD_code cmd) arg (cmd_frame cmd arg crc).
Proof.
  intros Ha Hc. split; [by apply cmd_frame_bytes|]. unfold cmd_frame, wire_command.
  rewrite bytes_be_arg by done. by destruct cmd.
Qed.

(** The two checksums in the driver are right. *)
Lemma cmd0_crc : crc_ok (cmd_frame CMD0 0 0x95).
Proof. reflexivity. Qed.

Lemma cmd8_crc : crc_ok (cmd_frame CMD8 0x01AA 0x87).
Proof. reflexivity. Qed.

Lemma bytes_be_app l1 l2 : bytes_be (l1 ++ l2) = bytes_be l1 * 256 ^ Z.of_nat (length l2) + bytes_be l2.
Proof.
  induction l2 as [|b l2 IH] using rev_ind; [rewrite app_nil_r; cbn; lia|].
  unfold bytes_be in *. rewrite app_assoc, !(foldl_app _ _ [b]). cbn [foldl].
  rewrite IH, length_app. cbn [length]. rewrite Nat2Z.inj_add, Z.pow_add_r by lia. lia.
Qed.

Lemma bytes_be_range l : Forall is_byte l → 0 ≤ bytes_be l < 256 ^ Z.of_nat (length l).
Proof.
  induction l as [|b l IH] using rev_ind; [done|]. intros [Hl Hb]%Forall_app.
  rewrite list.Forall_singleton in Hb. specialize (IH Hl). rewrite bytes_be_app, length_app.
  change (bytes_be [b]) with b. cbn [length]. unfold is_byte in Hb.
  rewrite Nat2Z.inj_add, Z.pow_add_r by lia. change (256 ^ Z.of_nat 1) with 256.
  set (P := 256 ^ Z.of_nat (length l)) in *. clearbody P. lia.
Qed.

(** The bits from [8 * length l2] up are those of the first bytes. *)
Lemma bytes_be_high l1 l2 : Forall is_byte l2 →
  bytes_be (l1 ++ l2) / 256 ^ Z.of_nat (length l2) = bytes_be l1.
Proof.
  intros Hb. pose proof (bytes_be_range l2 Hb). rewrite bytes_be_app.
  rewrite Z.div_add_l by lia. rewrite (Z.div_small (bytes_be l2)) by lia. lia.
Qed.

(** What [get_csdregister] takes from the register. *)
Lemma csd_of_fields t : length t = 18%nat → Forall is_byte t →
  RdBlockLen (csd_of t) = csd_field 80 4 t ∧ DeviceSize (csd_of t) = csd_field 48 22 t.
Proof.
  intros Hl Hb. do 18 (destruct t as [|? t]; [discriminate Hl|]). destruct t; [|discriminate Hl]. clear Hl.
  rewrite !list.Forall_cons in Hb.
  destruct Hb as (H0 & H1 & H2 & H3 & H4 & H5 & H6 & H7 & H8 & H9 & H10 & H11 & H12 & H13 & H14 & H15 & _).
  unfold csd_field. cbn [csd_of RdBlockLen DeviceSize nth take].
  split.
  - change (2 ^ 80) with (256 ^ Z.of_nat (length [z5; z6; z7; z8; z9; z10; z11; z12; z13; z14])).
    pose proof (bytes_be_high [z; z0; z1; z2; z3; z4] [z5; z6; z7; z8; z9; z10; z11; z12; z13; z14]) as Hh.
    cbn [app] in Hh. rewrite Hh by (repeat (apply list.Forall_cons; split; [assumption|]); constructor).
    change (2 ^ 4) with 16. change 0x0F with (2 ^ 4 - 1). rewrite land_ones_mod by lia.
    change (2 ^ 4) with 16. change [z; z0; z1; z2; z3; z4] with ([z; z0; z1; z2; z3] ++ [z4]).
    rewrite bytes_be_app. change (256 ^ Z.of_nat (length [z4])) with (16 * 16). change (bytes_be [z4]) with z4.
    rewrite Z.mul_assoc, Z.add_comm, Z.mod_add by lia. done.
  - change (2 ^ 48) with (256 ^ Z.of_nat (length [z9; z10; z11; z12; z13; z14])).
    pose proof (bytes_be_high [z; z0; z1; z2; z3; z4; z5; z6; z7; z8] [z9; z10; z11; z12; z13; z14]) as Hh.
    cbn [app] in Hh. rewrite Hh by (repeat (apply list.Forall_cons; split; [assumption|]); constructor).
    change [z; z0; z1; z2; z3; z4; z5; z6; z7; z8] with ([z; z0; z1; z2; z3; z4; z5] ++ [z6; z7; z8]).
    rewrite bytes_be_app. change (256 ^ Z.of_nat (length [z6; z7; z8])) with (4 * 2 ^ 22).
    rewrite Z.mul_assoc, Z.add_comm, Z.mod_add by lia.
    change (bytes_be [z6; z7; z8]) with ((z6 * 256 + z7) * 256 + z8). unfold is_byte in *.
    change 0x3F with (2 ^ 6 - 1). rewrite land_ones_mod by lia. change (2 ^ 6) with 64.
    pose proof (Z.mod_pos_bound z6 64 ltac:(lia)). pose proof (Z.div_mod z6 64 ltac:(lia)).
    assert (Z.shiftl (z6 mod 64) 16 = z6 mod 64 * 65536) as E6 by (by rewrite Z.shiftl_mul_pow2 by lia).
    assert (Z.shiftl z7 8 = z7 * 256) as E7 by (by rewrite Z.shiftl_mul_pow2 by lia).
    unfold shl32. rewrite !wrap_small by (mach_unfold; lia).
    rewrite <- Z.lor_assoc, (shiftl_lor_add z7), shiftl_lor_add by lia.
    apply Z.mod_unique with (q := z6 / 64); lia.
Qed.

(** ** Initialisation *)

Section protocol.
Context {T C : Type} `{!SPI T} `{!GPIOHS T} `{!CardDev C} `{!SdWire T C} `{!SdCardLaws C}.
Implicit Types s : T.
Implicit Types c : C.

(** The wire works, and a card with the contents [d] is in phase [p]. *)
Definition card_ready (p : sd_phase) (d : sd_disk) (s : T) : Prop :=
  ∃ cs c, at_wire s cs c ∧ card_at p d c.

Ltac small := first [done | unfold in_u; lia | unfold is_byte; lia].

Lemma acmd41_run d k s n : card_ready (sd_checked k) d s → (k < n)%nat →
  ∃ m s', acmd41_loop the_card n s = Ok (inl (S m), s') ∧ card_ready sd_ready d s'.
Proof.
  revert s n. induction k as [|k IH]; intros s [|n] (cs & c & Hs & Hc) Hn; try lia;
    cbn [acmd41_loop];
    destruct (sd_cmd55 d c _ _ Hc (cmd_frame_wire CMD55 0 0 ltac:(small) ltac:(small))) as (c1 & Hr1 & Hc1);
    (destruct (whole_command_run CMD55 0 0 1 c c1 s cs (λ r,
      if negb (r =? 1) then mret (inr (CMDFailed CMD55 r))
      else
        send_cmd the_card ACMD41 0x40000000 0 ;;
        r ← get_response the_card;
        end_cmd the_card ;;
        if r =? 0 then mret (inl (S n)) else acmd41_loop the_card n) Hr1 Hs)
      as (s1 & Hs1 & ->); [small..|]); cbn [negb Z.eqb Pos.eqb].
  - destruct (sd_acmd41_done d _ _ Hc1 (cmd_frame_wire ACMD41 0x40000000 0 ltac:(small) ltac:(small))) as (c2 & Hr2 & Hc2).
    destruct (whole_command_run ACMD41 0x40000000 0 0 _ c2 s1 true
      (λ r, if r =? 0 then mret (inl (S n)) else acmd41_loop the_card n) Hr2 Hs1)
      as (s2 & Hs2 & ->); [small..|].
    exists n, s2. split; [done|]. by exists true, (deselect c2).
  - destruct (sd_acmd41_more d _ _ _ Hc1 (cmd_frame_wire ACMD41 0x40000000 0 ltac:(small) ltac:(small))) as (c2 & Hr2 & Hc2).
    destruct (whole_command_run ACMD41 0x40000000 0 1 _ c2 s1 true
      (λ r, if r =? 0 then mret (inl (S n)) else acmd41_loop the_card n) Hr2 Hs1)
      as (s2 & Hs2 & ->); [small..|].
    apply IH; [by exists true, (deselect c2)|lia].
Qed.

Lemma cmd58_run d s n frame : card_ready sd_ready d s →
  ∃ f0 rest s', cmd58_loop the_card (S n) frame s = Ok ((S n, f0 :: rest), s') ∧
    Z.land f0 0x40 ≠ 0 ∧ card_ready sd_ready d s'.
Proof.
  intros (cs & c & Hs & Hc). destruct (sd_cmd58 d c _ Hc (cmd_frame_wire CMD58 0 1 ltac:(small) ltac:(small))) as (c1 & Hr & Hocr & Hc1).
  destruct (command_run CMD58 0 1 0 c c1 s cs Hr Hs) as (s1 & s2 & H1 & H2 & Hs2); [small..|].
  destruct (read_data_run s2 false c1 4 Hs2) as (s3 & H3 & Hs3); [unfold SEC_LEN; lia|].
  destruct (end_cmd_run s3 _ _ Hs3) as (s4 & H4 & Hs4).
  cbn [cmd58_loop]. run H1. run H2. run H3. run H4. change (0 =? 0) with true. cbn match.
  pose proof (length_clock_in false 4 c1) as Hl.
  destruct (clock_in false 4 c1) as [[|f0 rest] c2]; [done|]. simpl in Hocr.
  exists f0, rest, s4. split_and!; [done..|]. by exists true, (deselect c2).
Qed.

Lemma register_run cmd d s cs c c1 c2 : at_wire s cs c →
  reply (cmd_frame cmd 0 0) 0 c c1 → responds 0xFE c1 c2 →
  card_at sd_ready d (deselect (clock_in false 18 c2).2) →
  ∃ s', get_register the_card cmd s = Ok (Some (clock_in false 18 c2).1, s') ∧
    card_ready sd_ready d s'.
Proof.
  intros Hs Hr Hd Hc.
  destruct (command_run cmd 0 0 0 c c1 s cs Hr Hs) as (s1 & s2 & H1 & H2 & Hs2); [small..|].
  destruct (get_response_run _ _ _ _ Hd Hs2) as (s3 & H3 & Hs3).
  destruct (read_data_run s3 false c2 18 Hs3) as (s4 & H4 & Hs4); [unfold SEC_LEN; lia|].
  destruct (end_cmd_run s4 _ _ Hs4) as (s5 & H5 & Hs5).
  exists s5. split; [|by exists true, (deselect (clock_in false 18 c2).2)].
  unfold get_register. run H1. run H2. cbn [negb Z.eqb]. run H3.
  change (negb (0xFE =? SD_START_DATA_SINGLE_BLOCK_READ)) with false. cbn match.
  run H4. run H5. done.
Qed.

(** The information of a ready card. *)
Lemma cardinfo_run d s : card_ready sd_ready d s → 0 < disk_size d < 2 ^ 40 →
  ∃ info s', get_cardinfo the_card s = Ok (Some info, s') ∧
    CardCapacity info = disk_size d * 512 ∧ CardBlockSize info = 512 ∧
    card_ready sd_ready d s'.
Proof.
  intros (cs & c & Hs & Hc) Hsz. destruct (sd_cmd9 d c _ Hc (cmd_frame_wire CMD9 0 0 ltac:(small) ltac:(small)))
    as (c1 & c2 & Hr & Hd & Hby & Hbl & Hds & Hc1).
  destruct (csd_of_fields _ (length_clock_in false 18 c2) Hby) as [Hf1 Hf2]. rewrite <- Hf1 in Hbl. rewrite <- Hf2 in Hds.
  destruct (register_run CMD9 d s cs c c1 c2 Hs Hr Hd Hc1) as (s1 & H1 & cs1 & c3 & Hs1 & Hc3).
  destruct (sd_cmd10 d c3 _ Hc3 (cmd_frame_wire CMD10 0 0 ltac:(small) ltac:(small))) as (c4 & c5 & Hr2 & Hd2 & Hc5).
  destruct (register_run CMD10 d s1 cs1 c3 c4 c5 Hs1 Hr2 Hd2 Hc5) as (s2 & H2 & Hs2).
  set (csd := csd_of (clock_in false 18 c2).1) in *.
  set (cid := cid_of (clock_in false 18 c5).1).
  exists (card_info csd cid), s2. split_and!; [| |change (1 <<u RdBlockLen csd = 512); by rewrite Hbl|done].
  - unfold get_cardinfo, get_csdregister. rewrite M_bind_assoc. run H1. cbn [fmap option_fmap option_map].
    rewrite M_ret_bind. unfold get_cidregister. rewrite M_bind_assoc. run H2. done.
  - unfold card_info. cbn [CardCapacity]. rewrite Hbl. change (1 <<u 9) with 512.
    rewrite uadd_small by (mach_unfold; lia). rewrite (umul_small _ 1024) by (mach_unfold; lia).
    rewrite umul_small by (mach_unfold; lia). lia.
Qed.

(** The driver brings a card from power-up to data transfer. *)
Lemma init_run d s : card_ready sd_power_up d s → 0 < disk_size d < 2 ^ 40 →
  ∃ info s', init the_card s = Ok (inl info, s') ∧
    CardCapacity info = disk_size d * 512 ∧ CardBlockSize info = 512 ∧
    card_ready sd_ready d s'.
Proof.
  intros (cs & c & (Hok & <- & <-) & Hc) Hd. unfold init.
  destruct (wire_direction s Hok) as (s1 & H1 & Hok1 & Hcs1 & Hc1).
  destruct (wire_rate s1 200000 Hok1) as (g & s2 & H2 & Hok2 & Hcs2 & Hc2); [lia|].
  assert (Hlow : lowlevel_init the_card s = Ok ((), s2)).
  { unfold lowlevel_init. run H1. run H2. done. }
  run Hlow. destruct (wire_pin s2 true Hok2) as (s3 & H3 & Hok3 & Hcs3 & Hc3). unfold CS_HIGH. run H3.
  rewrite <- Hc1, <- Hc2, <- Hc3 in Hc.
  destruct (write_data_run s3 true (wire_card s3) (replicate 10 0xff)) as (s4 & H4 & Hs4);
    [done|by repeat constructor|]. run H4.
  apply sd_clocks in Hc. destruct (sd_cmd0 d _ _ Hc (cmd_frame_wire CMD0 0 0x95 ltac:(small) ltac:(small)) cmd0_crc) as (c5 & Hr5 & Hc5).
  match goal with |- context [(send_cmd _ CMD0 _ _ ≫= (λ _, get_response _ ≫= (λ r, end_cmd _ ≫= (λ _, @?k r)))) s4] =>
    destruct (whole_command_run CMD0 0 0x95 1 _ c5 s4 true k Hr5 Hs4) as (s5 & Hs5 & ->) end; [small..|].
  cbn [negb Z.eqb Pos.eqb].
  destruct (sd_cmd8 d _ _ Hc5 (cmd_frame_wire CMD8 0x01AA 0x87 ltac:(small) ltac:(small)) cmd8_crc) as (c6 & k & Hr6 & Hk & Hc6).
  destruct (command_run CMD8 0x01AA 0x87 1 _ c6 s5 true Hr6 Hs5) as (s6 & s7 & H6 & H7 & Hs7); [small..|].
  destruct (read_data_run s7 false c6 4 Hs7) as (s8 & H8 & Hs8); [unfold SEC_LEN; lia|].
  destruct (end_cmd_run s8 _ _ Hs8) as (s9 & H9 & Hs9).
  run H6. run H7. run H8. run H9. cbn [negb Z.eqb Pos.eqb].
  destruct (acmd41_run d k s9 255) as (m & s10 & H10 & Hs10);
    [by exists true, (deselect (clock_in false 4 c6).2)|lia|]. run H10. cbn match.
  destruct (cmd58_run d s10 254 (replicate 4 0) Hs10) as (f0 & rest & s11 & H11 & Hf0 & Hs11). run H11.
  cbn match. cbn [head]. rewrite M_unwrap_bind, (proj2 (Z.eqb_neq _ _) Hf0).
  destruct Hs11 as (cs12 & c12 & (Hok12 & <- & <-) & Hc12).
  destruct (wire_rate s11 10000000 Hok12) as (g2 & s13 & H13 & Hok13 & Hcs13 & Hc13); [lia|].
  assert (Hhs : HIGH_SPEED_ENABLE s11 = Ok ((), s13)) by (unfold HIGH_SPEED_ENABLE; by run H13).
  run Hhs. destruct (cardinfo_run d s13) as (info & s14 & H14 & Hi1 & Hi2 & Hs14);
    [exists (wire_cs s13), (wire_card s13); by rewrite Hc13|done|].
  run H14. by exists info, s14.
Qed.

(** ** Data transfer *)

Lemma one_chunk : (SEC_LEN / SEC_LEN = 1)%nat.
Proof using. reflexivity. Qed.

Lemma read_sector_run d s sector : card_ready sd_ready d s → 0 ≤ sector < disk_size d → in_u 32 sector →
  ∃ s', read_sector the_card SEC_LEN sector s = Ok (Some (disk_data d sector), s') ∧
    card_ready sd_ready d s'.
Proof.
  intros (cs & c & Hs & Hc) Hsec Hu.
  destruct (sd_cmd17 d c sector _ Hc Hsec (cmd_frame_wire CMD17 sector 0 Hu ltac:(small))) as (c1 & c2 & Hr & Hd & Hdata & Hend).
  destruct (command_run CMD17 sector 0 0 c c1 s cs Hr Hs) as (s1 & s2 & H1 & H2 & Hs2); [small..|].
  destruct (get_response_run _ _ _ _ Hd Hs2) as (s3 & H3 & Hs3).
  destruct (read_data_run s3 false c2 SEC_LEN Hs3) as (s4 & H4 & Hs4); [unfold SEC_LEN; lia|].
  destruct (read_data_run s4 false _ 2 Hs4) as (s5 & H5 & Hs5); [unfold SEC_LEN; lia|].
  destruct (end_cmd_run s5 _ _ Hs5) as (s6 & H6 & Hs6).
  exists s6. split; [|by eexists true, _].
  assert (Hchunks : read_chunks the_card 1 s2 = Ok ((disk_data d sector, false), s5)).
  { cbn [read_chunks]. run H3. change (negb (0xFE =? SD_START_DATA_SINGLE_BLOCK_READ)) with false.
    cbn match. run H4. run H5. rewrite M_ret_bind, app_nil_r, Hdata. done. }
  unfold read_sector. rewrite M_assert_bind by reflexivity.
  rewrite (bool_decide_true (SEC_LEN = SEC_LEN)) by done. cbn [negb].
  run H1. run H2. cbn [negb Z.eqb]. rewrite one_chunk. run Hchunks. run H6. done.
Qed.

Lemma chunks_one (b : list Z) : length b = SEC_LEN → chunks (length b / SEC_LEN) b = [b].
Proof using.
  intros Hb. rewrite Hb, one_chunk. cbn [chunks]. rewrite take_ge by lia. done.
Qed.

Lemma write_sector_run d s sector b fuel : card_ready sd_ready d s →
  0 ≤ sector < disk_size d → in_u 32 sector → length b = SEC_LEN → Forall is_byte b →
  (sd_busy ≤ fuel)%nat →
  ∃ s', write_sector the_card fuel b sector s = Ok (Some (), s') ∧
    card_ready sd_ready (disk_write d sector b) s'.
Proof.
  intros (cs & c & Hs & Hc) Hsec Hu Hb Hbytes Hf.
  destruct (sd_cmd24 d c sector b _ Hc Hsec (cmd_frame_wire CMD24 sector 0 Hu ltac:(small)) Hb Hbytes)
    as (c1 & r & c2 & c3 & k & Hr & Hx & Hr5 & Hk & Hbusy & Hend).
  destruct (command_run CMD24 sector 0 0 c c1 s cs Hr Hs) as (s1 & s2 & H1 & H2 & Hs2); [small..|].
  destruct (write_data_run s2 false c1 [0xff; 0xFE] Hs2) as (s3 & H3 & Hs3); [by repeat constructor|].
  destruct (write_data_run s3 false _ b Hs3 Hbytes) as (s4 & H4 & Hs4).
  destruct (write_data_run s4 false _ [0xff; 0xff] Hs4) as (s5 & H5 & Hs5); [by repeat constructor|].
  rewrite <- !clock_out_app in Hs5.
  destruct (read_byte_run s5 false _ r c2 Hs5 Hx) as (s6 & H6 & Hs6).
  destruct (card_xchg false 0xff c2) as [r2 c2'] eqn:Hx2.
  destruct (read_byte_run s6 false c2 r2 c2' Hs6 Hx2) as (s7 & H7 & Hs7).
  destruct (wait_busy_run k c2 c3 fuel s6 r2 s7 Hbusy) as (s8 & H8 & Hs8); [lia|done..|].
  destruct (end_cmd_run s8 _ _ Hs8) as (s9 & H9 & Hs9).
  destruct (end_cmd_run s9 _ _ Hs9) as (s10 & H10 & Hs10).
  exists s10. split; [|by exists true, (deselect (deselect c3))].
  assert (Hdr : get_dataresponse the_card fuel s5 = Ok (0, s8)).
  { unfold get_dataresponse. run H6. rewrite Hr5. cbn [negb Z.eqb Pos.eqb]. run H7. run H8. done. }
  assert (Hch : write_chunks the_card fuel [0xff; 0xFE] [b] s2 = Ok (true, s8)).
  { cbn [write_chunks]. run H3. run H4. run H5. run Hdr. done. }
  unfold write_sector. rewrite M_assert_bind by (by rewrite Hb).
  rewrite (bool_decide_true (length b = SEC_LEN)) by done. cbn match.
  run H1. run H2. cbn [negb Z.eqb]. rewrite chunks_one by done.
  change SD_START_DATA_SINGLE_BLOCK_WRITE with 0xFE. run Hch. run H9. run H10. done.
Qed.
End protocol.
