(* ===== verification/K210SpiInv.v ===== *)
(** * K210SpiInv: SPIImpl carries the bytes of the SD card driver

    [SsiLaws]: how the SPI controller (a DWC SSI) with a card behaves, register by
    register.  A controller that follows them makes [SPIImpl] a wire in the sense
    of [SdWire]. *)

From stdpp Require Import base list numbers functions sets.
From S2P Require Import Prelude Bytes Pll PacReg PacSysctl Sysctl SysctlInv K210Spi SdCard SdCardInv.

(** The control word for 8-bit standard frames in a transfer mode. *)
Definition ctrlr0_word (tm : tmod) : Z :=
  fld_set (ctrlr0_field ctrlr0_data_length) 7
    (fld_set (ctrlr0_field ctrlr0_frame_format) 0
      (fld_set (ctrlr0_field ctrlr0_tmod) (tmod_code tm)
        (fld_set (ctrlr0_field ctrlr0_work_mode) 0 0))).

(** The slave the driver selects: SPI0_CS3, which is not wired. *)
Definition ser_word : Z := 8.

(** The laws.  While the controller is off ([ssi_idle]) it can be configured.  To
    send, it is turned on ([ssi_sending cs c n]: [c] is the card once all bytes
    written so far are out, and the queue has room for [n] more), until its status is
    idle ([ssi_sent]).  To receive, it is told a number of frames and fetches them
    ([ssi_receiving cs bs c n]: [bs] are still to be read, [n] of them are there;
    software keeps up, so none is lost).  [ssi_lag] bounds how often a poll finds
    nothing. *)
Class SsiLaws (D C : Type) `{!SsiDevice D} `{!CardDev C} := {
  ssi_idle : D → Prop;
  ssi_card : D → C;
  ssi_cs : D → bool;
  ssi_tmod : D → tmod;
  ssi_sending : bool → C → Z → D → Prop;
  ssi_sent : bool → C → D → Prop;
  ssi_receiving : bool → list Z → C → Z → D → Prop;
  ssi_lag : D → nat;
  ssi_polls : nat;
  ssi_lag_le d : (ssi_lag d ≤ ssi_polls)%nat;
  ssi_setup d rg v : ssi_idle d →
    rg ∈ [S_imr; S_dmacr; S_dmatdlr; S_dmardlr; S_ser; S_ssienr; S_spi_ctrlr0; S_endian; S_baudr] →
    (rg = S_ser ∨ rg = S_ssienr → v = 0) →
    let d' := ssi_write rg v d in
    ssi_idle d' ∧ ssi_card d' = ssi_card d ∧ ssi_cs d' = ssi_cs d ∧ ssi_tmod d' = ssi_tmod d;
  ssi_mode d tm : ssi_idle d →
    let d' := ssi_write S_ctrlr0 (ctrlr0_word tm) d in
    ssi_idle d' ∧ ssi_card d' = ssi_card d ∧ ssi_cs d' = ssi_cs d ∧ ssi_tmod d' = tm;
  ssi_pin d w : ssi_idle d →
    let d' := ssi_pins w d in
    ssi_idle d' ∧ ssi_card d' = ssi_card d ∧ ssi_cs d' = Z.testbit w SD_CS_GPIONUM;
  ssi_send d : ssi_idle d → ssi_tmod d = tmod_TRANS →
    ssi_sending (ssi_cs d) (ssi_card d) 0 (ssi_write S_ssienr 1 (ssi_write S_ser ser_word d));
  ssi_put d cs c n b : ssi_sending cs c n d → 0 < n → is_byte b →
    ssi_sending cs (clock_out cs [b] c) (n - 1) (ssi_write S_dr b d);
  ssi_txflr d cs c n v d' : ssi_sending cs c n d → ssi_read S_txflr d = (v, d') →
    0 ≤ v ≤ 32 ∧ ssi_sending cs c (32 - v) d' ∧ (v = 32 → (ssi_lag d' < ssi_lag d)%nat);
  ssi_sr d cs c n v d' : ssi_sending cs c n d → ssi_read S_sr d = (v, d') →
    if Z.land v 5 =? 4 then ssi_sent cs c d'
    else ssi_sending cs c n d' ∧ (ssi_lag d' < ssi_lag d)%nat;
  ssi_send_end d cs c : ssi_sent cs c d →
    let d' := ssi_write S_ssienr 0 (ssi_write S_ser 0 d) in
    ssi_idle d' ∧ ssi_card d' = c ∧ ssi_cs d' = cs;
  ssi_recv d n : ssi_idle d → ssi_tmod d = tmod_RECV → (0 < n ≤ SEC_LEN)%nat →
    let '(bs, c) := clock_in (ssi_cs d) n (ssi_card d) in
    ssi_receiving (ssi_cs d) bs c 0
      (ssi_write S_ser ser_word (ssi_write S_dr (2 ^ 32 - 1) (ssi_write S_ssienr 1
        (ssi_write S_ctrlr1 (Z.of_nat n - 1) d))));
  ssi_rxflr d cs bs c n v d' : ssi_receiving cs bs c n d → bs ≠ [] →
    ssi_read S_rxflr d = (v, d') →
    0 ≤ v ≤ Z.of_nat (length bs) ∧ ssi_receiving cs bs c v d' ∧
    (v = 0 → (ssi_lag d' < ssi_lag d)%nat);
  ssi_get d cs b bs c n v d' : ssi_receiving cs (b :: bs) c n d → 0 < n →
    ssi_read S_dr d = (v, d') → Z.land v 255 = b ∧ ssi_receiving cs bs c (n - 1) d';
  ssi_recv_end d cs c n : ssi_receiving cs [] c n d →
    let d' := ssi_write S_ssienr 0 (ssi_write S_ser 0 d) in
    ssi_idle d' ∧ ssi_card d' = c ∧ ssi_cs d' = cs }.

Section spi_impl.
Context {E D C : Type} `{!SocEnv E} `{!SsiDevice D} `{!CardDev C} `{!SsiLaws D C}.
Implicit Types s : board E D.
Implicit Types d : D.

Definition with_dev (s : board E D) (d : D) : board E D :=
  mkBoard (b_soc s) (b_gpio s) (b_fpioa s) (b_uart s) d.

Lemma wr_run rg v s d : wr rg v (with_dev s d) = Ok ((), with_dev s (ssi_write rg v d)).
Proof. done. Qed.

Lemma rd_run rg s d v d' : ssi_read rg d = (v, d') → rd rg (with_dev s d) = Ok (v, with_dev s d').
Proof. intros H. unfold rd. cbn [with_dev b_dev]. by rewrite H. Qed.

(** ** Configuration *)

(** The controller is off and nothing but its mode changed. *)
Definition same_idle (d d' : D) : Prop :=
  ssi_idle d' ∧ ssi_card d' = ssi_card d ∧ ssi_cs d' = ssi_cs d.

Lemma setup_same d d' rg v : same_idle d d' →
  rg ∈ [S_imr; S_dmacr; S_dmatdlr; S_dmardlr; S_ser; S_ssienr; S_spi_ctrlr0; S_endian; S_baudr] →
  (rg = S_ser ∨ rg = S_ssienr → v = 0) → same_idle d (ssi_write rg v d').
Proof.
  intros (Hi & Hc & Hcs) Hrg Hv. destruct (ssi_setup d' rg v Hi Hrg Hv) as (H1 & H2 & H3 & _).
  split_and!; congruence.
Qed.

Lemma setup_mode d rg v : ssi_idle d →
  rg ∈ [S_imr; S_dmacr; S_dmatdlr; S_dmardlr; S_ser; S_ssienr; S_spi_ctrlr0; S_endian; S_baudr] →
  (rg = S_ser ∨ rg = S_ssienr → v = 0) → ssi_tmod (ssi_write rg v d) = ssi_tmod d.
Proof. intros Hi Hrg Hv. by destruct (ssi_setup d rg v Hi Hrg Hv) as (_ & _ & _ & H). Qed.

Lemma same_idle_refl d : ssi_idle d → same_idle d d.
Proof. intros H. by split_and!. Qed.

Ltac setup := first [ done | by apply same_idle_refl | apply setup_same; [|set_solver|intros [Hx|Hx]; done] ].

Lemma configure_run s d tm : ssi_idle d →
  ∃ d', configure MODE0 format_STANDARD 8 0 0 0 0 aitm_STANDARD tm (with_dev s d) =
      Ok ((), with_dev s d') ∧ same_idle d d' ∧ ssi_tmod d' = tm.
Proof.
  intros Hd. unfold configure. rewrite !M_assert_bind by reflexivity.
  change (lift_res (inst_length_code 0)) with (lift_res (S := board E D) (Ok 0)).
  rewrite M_res_bind, M_assert_bind by reflexivity. cbv zeta.
  run (wr_run S_imr 0 s d). set (d1 := ssi_write S_imr 0 d).
  run (wr_run S_dmacr 0 s d1). set (d2 := ssi_write S_dmacr 0 d1).
  run (wr_run S_dmatdlr 16 s d2). set (d3 := ssi_write S_dmatdlr 16 d2).
  run (wr_run S_dmardlr 0 s d3). set (d4 := ssi_write S_dmardlr 0 d3).
  run (wr_run S_ser 0 s d4). set (d5 := ssi_write S_ser 0 d4).
  run (wr_run S_ssienr 0 s d5). set (d6 := ssi_write S_ssienr 0 d5).
  assert (H6 : same_idle d d6) by (repeat setup).
  run (wr_run S_ctrlr0 (ctrlr0_word tm) s d6). set (d7 := ssi_write S_ctrlr0 _ d6).
  destruct H6 as (Hi6 & Hc6 & Hcs6).
  destruct (ssi_mode d6 tm Hi6) as (Hi7 & Hc7 & Hcs7 & Hm7). fold d7 in Hi7, Hc7, Hcs7, Hm7.
  assert (H7 : same_idle d d7) by (split_and!; congruence).
  match goal with |- context [wr S_spi_ctrlr0 ?v] => run (wr_run S_spi_ctrlr0 v s d7); set (v8 := v) end.
  set (d8 := ssi_write S_spi_ctrlr0 v8 d7).
  assert (H8 : same_idle d d8) by (repeat setup).
  assert (Hm8 : ssi_tmod d8 = tm)
    by (unfold d8; rewrite setup_mode; [done|done|set_solver|intros [Hx|Hx]; done]).
  exists (ssi_write S_endian 0 d8). split; [done|]. split; [by repeat setup|].
  rewrite setup_mode; [done|apply H8|set_solver|intros [Hx|Hx]; done].
Qed.

(** ** Sending *)

Lemma wait_tx_run fuel s d cs c n : ssi_sending cs c n d → (ssi_lag d < fuel)%nat → 0 ≤ n ≤ 32 →
  ∃ m d', wait_tx fuel n (with_dev s d) = Ok (m, with_dev s d') ∧ 0 < m ≤ 32 ∧ ssi_sending cs c m d'.
Proof.
  revert d n. induction fuel as [|fuel IH]; intros d n Hd Hl Hn; [lia|]. cbn [wait_tx].
  destruct (Z.eqb_spec n 0) as [->|Hnz]; [|exists n, d; auto with lia].
  destruct (ssi_read S_txflr d) as [v d1] eqn:Er. run (rd_run S_txflr s d v d1 Er).
  destruct (ssi_txflr d cs c 0 v d1 Hd Er) as (Hv & Hd1 & Hlag).
  rewrite usub32_small by (unfold in_u; lia).
  destruct (decide (v = 32)) as [->|Hne].
  - apply IH; [done|specialize (Hlag eq_refl); lia|lia].
  - exists (32 - v), d1. split_and!; [|lia..|done].
    destruct fuel; cbn [wait_tx]; by rewrite (proj2 (Z.eqb_neq (32 - v) 0)) by lia.
Qed.

Lemma send_loop_run fuel s tx d cs c n : ssi_sending cs c n d → (ssi_polls < fuel)%nat →
  0 ≤ n ≤ 32 → Forall is_byte tx →
  ∃ m d', send_loop fuel tx n (with_dev s d) = Ok ((), with_dev s d') ∧
    ssi_sending cs (clock_out cs tx c) m d'.
Proof.
  intros Hd Hf Hn Hb. revert d c n Hd Hn. induction Hb as [|b tx Hb _ IH]; intros d c n Hd Hn.
  { by exists n, d. }
  cbn [send_loop]. pose proof (ssi_lag_le d).
  destruct (wait_tx_run fuel s d cs c n Hd ltac:(lia) Hn) as (m & d1 & H1 & Hm & Hd1). run H1.
  run (wr_run S_dr b s d1). rewrite usub32_small by (unfold in_u; lia).
  pose proof (ssi_put d1 cs c m b Hd1 ltac:(lia) Hb) as Hd2.
  destruct (IH _ _ _ Hd2 ltac:(lia)) as (m' & d' & H' & Hd'). by exists m', d'.
Qed.

Lemma wait_idle_run fuel s d cs c n : ssi_sending cs c n d → (ssi_lag d < fuel)%nat →
  ∃ d', wait_idle fuel (with_dev s d) = Ok ((), with_dev s d') ∧ ssi_sent cs c d'.
Proof.
  revert d. induction fuel as [|fuel IH]; intros d Hd Hl; [lia|]. cbn [wait_idle].
  destruct (ssi_read S_sr d) as [v d1] eqn:Er. run (rd_run S_sr s d v d1 Er).
  pose proof (ssi_sr d cs c n v d1 Hd Er) as Hsr. destruct (Z.land v 5 =? 4); [by exists d1|].
  destruct Hsr as [Hd1 Hlag]. apply IH; [done|lia].
Qed.

Lemma send_data_run fuel s d tx : ssi_idle d → ssi_tmod d = tmod_TRANS → (ssi_polls < fuel)%nat →
  Forall is_byte tx →
  ∃ d', send_data fuel SD_CS tx (with_dev s d) = Ok ((), with_dev s d') ∧
    ssi_idle d' ∧ ssi_card d' = clock_out (ssi_cs d) tx (ssi_card d) ∧ ssi_cs d' = ssi_cs d.
Proof.
  intros Hi Hm Hf Hb. unfold send_data. change (wrap 32 (Z.shiftl 1 SD_CS)) with ser_word.
  run (wr_run S_ser ser_word s d). run (wr_run S_ssienr 1 s (ssi_write S_ser ser_word d)).
  pose proof (ssi_send d Hi Hm) as Hd1.
  destruct (send_loop_run fuel s tx _ _ _ 0 Hd1 Hf ltac:(lia) Hb) as (m & d2 & H2 & Hd2). run H2.
  pose proof (ssi_lag_le d2).
  destruct (wait_idle_run fuel s d2 _ _ m Hd2 ltac:(lia)) as (d3 & H3 & Hd3). run H3.
  run (wr_run S_ser 0 s d3). eexists. split; [apply wr_run|]. by apply ssi_send_end.
Qed.

(** ** Receiving *)

Lemma wait_rx_run fuel s d cs bs c n : ssi_receiving cs bs c n d → bs ≠ [] →
  (ssi_lag d < fuel)%nat → 0 ≤ n ≤ Z.of_nat (length bs) →
  ∃ m d', wait_rx fuel n (with_dev s d) = Ok (m, with_dev s d') ∧
    0 < m ≤ Z.of_nat (length bs) ∧ ssi_receiving cs bs c m d'.
Proof.
  intros Hd Hbs. revert d n Hd. induction fuel as [|fuel IH]; intros d n Hd Hl Hn; [lia|].
  cbn [wait_rx]. destruct (Z.eqb_spec n 0) as [->|Hnz]; [|exists n, d; auto with lia].
  destruct (ssi_read S_rxflr d) as [v d1] eqn:Er. run (rd_run S_rxflr s d v d1 Er).
  destruct (ssi_rxflr d cs bs c 0 v d1 Hd Hbs Er) as (Hv & Hd1 & Hlag).
  destruct (decide (v = 0)) as [->|Hne].
  - apply IH; [done|specialize (Hlag eq_refl); lia|lia].
  - exists v, d1. split_and!; [|lia..|done].
    destruct fuel; cbn [wait_rx]; by rewrite (proj2 (Z.eqb_neq v 0)) by lia.
Qed.

Lemma recv_loop_run fuel s bs d cs c n : ssi_receiving cs bs c n d → (ssi_polls < fuel)%nat →
  0 ≤ n ≤ Z.of_nat (length bs) → Z.of_nat (length bs) < 2 ^ 32 →
  ∃ m d', recv_loop fuel (length bs) n (with_dev s d) = Ok (bs, with_dev s d') ∧
    ssi_receiving cs [] c m d'.
Proof.
  intros Hd Hf. revert d n Hd. induction bs as [|b bs IH]; intros d n Hd Hn Hl.
  { by exists n, d. }
  cbn [length recv_loop]. pose proof (ssi_lag_le d).
  destruct (wait_rx_run fuel s d cs (b :: bs) c n Hd ltac:(done) ltac:(lia) Hn)
    as (m & d1 & H1 & Hm & Hd1). run H1.
  destruct (ssi_read S_dr d1) as [v d2] eqn:Er. run (rd_run S_dr s d1 v d2 Er).
  destruct (ssi_get d1 cs b bs c m v d2 Hd1 ltac:(lia) Er) as [Hv Hd2].
  cbn [length] in *. rewrite usub32_small by (unfold in_u; lia).
  destruct (IH d2 (m - 1) Hd2 ltac:(lia) ltac:(lia)) as (m' & d' & H' & Hd'). run H'.
  exists m', d'. by rewrite Hv.
Qed.

Lemma recv_data_run fuel s d n : ssi_idle d → ssi_tmod d = tmod_RECV → (ssi_polls < fuel)%nat →
  (0 < n ≤ SEC_LEN)%nat →
  ∃ d', recv_data fuel SD_CS n (with_dev s d) =
      Ok ((clock_in (ssi_cs d) n (ssi_card d)).1, with_dev s d') ∧
    ssi_idle d' ∧ ssi_card d' = (clock_in (ssi_cs d) n (ssi_card d)).2 ∧ ssi_cs d' = ssi_cs d.
Proof.
  intros Hi Hm Hf Hn. pose proof (ssi_recv d n Hi Hm Hn) as Hr.
  pose proof (length_clock_in (ssi_cs d) n (ssi_card d)) as Hlen.
  destruct (clock_in (ssi_cs d) n (ssi_card d)) as [bs c]. cbn [fst snd] in *.
  unfold SEC_LEN in Hn. destruct n as [|n']; [lia|]. unfold recv_data.
  rewrite (proj2 (Z.ltb_lt (Z.of_nat (S n') - 1) (2 ^ 32))) by lia. rewrite M_unwrap_bind.
  change (wrap 32 (Z.shiftl 1 SD_CS)) with ser_word.
  run (wr_run S_ctrlr1 (Z.of_nat (S n') - 1) s d).
  run (wr_run S_ssienr 1 s (ssi_write S_ctrlr1 (Z.of_nat (S n') - 1) d)).
  match goal with |- context [wr S_dr ?v] =>
    run (wr_run S_dr v s (ssi_write S_ssienr 1 (ssi_write S_ctrlr1 (Z.of_nat (S n') - 1) d))) end.
  match goal with |- context [wr S_ser ser_word] => rewrite (M_bind_run _ _ _ _ _ (wr_run S_ser ser_word s _)) end.
  destruct (recv_loop_run fuel s bs _ _ _ 0 Hr Hf ltac:(lia) ltac:(lia)) as (m & d2 & H2 & Hd2).
  rewrite Hlen in H2. run H2. run (wr_run S_ser 0 s d2).
  run (wr_run S_ssienr 0 s (ssi_write S_ser 0 d2)).
  eexists. split; [reflexivity|]. by apply (ssi_recv_end d2 _ _ m).
Qed.

(** ** Pins and rates *)

(** The registers of the system controller that the SPI driver leaves alone. *)
Definition same_clocks (r r' : sysregs) : Prop :=
  ∀ rg, rg ∉ [R_clk_en_cent; R_clk_en_peri; R_clk_th1] → r' rg = r rg.

Lemma same_clocks_insert r r' rg v : rg ∈ [R_clk_en_cent; R_clk_en_peri; R_clk_th1] →
  same_clocks r r' → same_clocks r (<[rg := v]> r').
Proof using.
  intros Hin Hs rg' Hn. rewrite fn_lookup_insert_ne by (by intros ->). by apply Hs.
Qed.

(** What the driver leaves alone of a board. *)
Definition kept (s0 s : board E D) : Prop :=
  same_clocks (sys (b_soc s0)) (sys (b_soc s)) ∧ b_fpioa s = b_fpioa s0 ∧ b_uart s = b_uart s0.

Lemma kept_trans s0 s1 s2 : kept s0 s1 → kept s1 s2 → kept s0 s2.
Proof using.
  intros (H1 & H2 & H3) (H1' & H2' & H3'). split_and!; [|congruence..].
  intros rg Hrg. rewrite H1' by done. by apply H1.
Qed.

Lemma set_pin_run s v : ssi_idle (b_dev s) →
  ∃ s', set_pin SD_CS_GPIONUM v s = Ok ((), s') ∧ kept s s' ∧ ssi_idle (b_dev s') ∧
    ssi_card (b_dev s') = ssi_card (b_dev s) ∧ ssi_cs (b_dev s') = v.
Proof.
  intros Hi. eexists. split; [reflexivity|]. cbn [b_dev]. rewrite decide_True by done.
  rewrite fn_lookup_insert.
  destruct (ssi_pin (b_dev s) (set_bit (b_gpio s G_output_val) SD_CS_GPIONUM v) Hi) as (H1 & H2 & H3).
  split_and!; [done..|]. rewrite H3, set_bit32_spec, decide_True by (unfold SD_CS_GPIONUM; lia || done).
  done.
Qed.

Lemma spi0_freq_ok (r : sysregs) : freq_ok (clock_get_freq r clock_SPI0).
Proof.
  change (freq_ok (div_freq (pll_freq 4 r pll_PLL0) ((clock_get_threshold r threshold_SPI0 +u32 1) *u32 2))).
  auto with clock.
Qed.

Lemma spi_baudr_ok f g : 0 < g → spi_baudr f g = Ok (((f / g) `max` 2) `min` 65534) ∧
  2 ≤ ((f / g) `max` 2) `min` 65534 ≤ 65534.
Proof.
  intros Hg. unfold spi_baudr. rewrite (proj2 (Z.eqb_neq g 0)) by lia. split; [done|lia].
Qed.

Lemma enable_spi0_run (t : soc E) : ∃ t', clock_enable clock_SPI0 t = Ok ((), t') ∧
  same_clocks (sys t) (sys t').
Proof.
  unfold clock_enable, clock_bus_en, clock_device_en.
  assert (H1 : modify_field clk_en_cent_apb2_clk_en (Z.b2z true) t = Ok ((),
    mkSoc (set_field clk_en_cent_apb2_clk_en (Z.b2z true) (sys t)) (env t)))
    by (apply modify_reg_run; discriminate).
  run H1. eexists. split; [apply modify_reg_run; discriminate|].
  cbn [sys]. apply same_clocks_insert; [set_solver|]. apply same_clocks_insert; [set_solver|done].
Qed.

Definition with_soc (s : board E D) (t : soc E) : board E D :=
  mkBoard t (b_gpio s) (b_fpioa s) (b_uart s) (b_dev s).

(** The rate is the clock divided by a divider the register holds. *)
Lemma set_clk_rate_run s f : ssi_idle (b_dev s) → 0 < f →
  ∃ clk s', set_clk_rate SPI0_if f s = Ok (clk / (((clk / f) `max` 2) `min` 65534), s') ∧
    clock_get_freq (sys (b_soc s')) clock_SPI0 = Ok clk ∧
    kept s s' ∧
    ssi_idle (b_dev s') ∧ ssi_card (b_dev s') = ssi_card (b_dev s) ∧
    ssi_cs (b_dev s') = ssi_cs (b_dev s).
Proof.
  intros Hi Hf. destruct (enable_spi0_run (b_soc s)) as (t1 & Ht1 & Hk1).
  destruct (set_get_threshold threshold_SPI0 0 t1) as (t2 & Ht2 & _ & _ & _ & Hk2).
  destruct (spi0_freq_ok (sys t2)) as (clk & Hclk & _).
  destruct (spi_baudr_ok clk f Hf) as [Hb _].
  assert (H1 : in_soc (clock_enable clock_SPI0) s = Ok ((), with_soc s t1))
    by (unfold in_soc; by rewrite Ht1).
  assert (H2 : in_soc (clock_set_threshold threshold_SPI0 0) (with_soc s t1) = Ok ((), with_soc s t2))
    by (unfold in_soc; cbn [b_soc with_soc]; by rewrite Ht2).
  assert (H3 : in_soc (gets_res (λ r, clock_get_freq r clock_SPI0)) (with_soc s t2) = Ok (clk, with_soc s t2))
    by (unfold in_soc, gets_res; cbn [b_soc with_soc]; by rewrite Hclk).
  unfold set_clk_rate. cbn [CLK DIV SPI0_if]. run H1. run H2. run H3. rewrite Hb, M_res_bind.
  eexists clk, _. split; [reflexivity|]. cbn [b_soc b_dev with_soc]. split; [done|]. split.
  { split; [|done]. intros rg Hrg. cbn [b_soc]. rewrite Hk2 by (intros ->; set_solver). by apply Hk1. }
  destruct (ssi_setup (b_dev s) S_baudr (((clk / f) `max` 2) `min` 65534) Hi) as (A1 & A2 & A3 & _);
    [set_solver|intros [Hx|Hx]; done|done].
Qed.

Lemma with_dev_id s : with_dev s (b_dev s) = s.
Proof using. by destruct s. Qed.

(** The controller with the driver is a wire to the card; the rest of the
    board is as in [s0]. *)
Definition board_wire (fuel : nat) (s0 : board E D) (Hf : (ssi_polls < fuel)%nat) :
  @SdWire (board E D) C (SPIImpl fuel SPI0_if) board_gpiohs _.
Proof.
  refine (@Build_SdWire _ _ (SPIImpl fuel SPI0_if) board_gpiohs _
    (λ s, ssi_idle (b_dev s) ∧ kept s0 s)
    (λ s, ssi_card (b_dev s)) (λ s, ssi_cs (b_dev s)) (λ s, ssi_tmod (b_dev s)) _ _ _ _ _ _).
  - intros s tm [Hi Hk]. destruct (configure_run s (b_dev s) tm Hi) as (d' & H & (H1 & H2 & H3) & H4).
    rewrite with_dev_id in H. by exists (with_dev s d').
  - intros s tx [Hi Hk] Hm Hb.
    destruct (send_data_run fuel s (b_dev s) tx Hi Hm Hf Hb) as (d' & H & H1 & H2 & H3).
    rewrite with_dev_id in H. by exists (with_dev s d').
  - intros s n [Hi Hk] Hm Hn.
    destruct (recv_data_run fuel s (b_dev s) n Hi Hm Hf Hn) as (d' & H & H1 & H2 & H3).
    rewrite with_dev_id in H. by exists (with_dev s d').
  - intros s v [Hi Hk]. destruct (set_pin_run s v Hi) as (s' & H & Hs & H1 & H2 & H3). exists s'.
    split; [done|]. split; [split; [done|by apply (kept_trans s0 s)]|done].
  - intros s [Hi Hk]. eexists. split; [reflexivity|]. done.
  - intros s f [Hi Hk] Hf'.
    destruct (set_clk_rate_run s f Hi Hf') as (clk & s' & H & _ & Hk' & H1 & H2 & H3).
    eexists _, s'. split; [done|]. split; [split; [done|]|done].
    by apply (kept_trans s0 s).
Defined.
End spi_impl.
