(* ===== verification/SdCardSim.v ===== *)
(** * SdCardSim: a card and a controller that follow the laws

    A simulated SD card of 2048 sectors, and an SPI controller without delays: the
    assumptions of [SdCardLaws] and [SsiLaws] can be met together. *)

From stdpp Require Import base list numbers functions.
From S2P Require Import Prelude Bytes Pll PacReg K210Spi SdCard SdCardInv K210SpiInv.

(** ** The card *)

(** [sim_cmd]: the bytes of a command so far; [sim_out]: what it has to say;
    [sim_in]: the sector a block is expected for, and its bytes once it started. *)
Record sim := mkSim {
  sim_phase : sd_phase;
  sim_disk : sd_disk;
  sim_cmd : list Z;
  sim_out : list Z;
  sim_in : option (Z * option (list Z)) }.

Definition sim_csd : list Z := [0x40; 0; 0; 0x32; 0x5b; 0x59; 0; 0; 0; 1; 0; 0; 0; 0; 0; 0].
Definition sim_cid : list Z := replicate 16 7.

(** The phase, the response and the block that is expected after a command. *)
Definition sim_exec (p : sd_phase) (d : sd_disk) (index arg : Z) :
  sd_phase * list Z * option (Z * option (list Z)) :=
  match p, index with
  | sd_native, 0 => (sd_idle, [1], None)
  | sd_idle, 8 => (sd_checked 2, [1; 0; 0; 1; 0xAA], None)
  | sd_checked k, 55 => (sd_app k, [1], None)
  | sd_app (S k), 41 => (sd_checked k, [1], None)
  | sd_app O, 41 => (sd_ready, [0], None)
  | sd_ready, 58 => (sd_ready, [0; 0xC0; 0xFF; 0x80; 0], None)
  | sd_ready, 9 => (sd_ready, [0; 0xff; 0xFE] ++ sim_csd ++ [0; 0], None)
  | sd_ready, 10 => (sd_ready, [0; 0xff; 0xFE] ++ sim_cid ++ [0; 0], None)
  | sd_ready, 17 => (sd_ready, [0xff; 0; 0xff; 0xff; 0xFE] ++ disk_data d (arg) ++ [0; 0], None)
  | sd_ready, 24 => (sd_ready, [0xff; 0], Some (arg, None))
  | _, _ => (p, [5], None)
  end.

Definition sim_xchg (cs : bool) (b : Z) (c : sim) : Z * sim :=
  let d := sim_disk c in
  if cs then
    (0xff, mkSim (match sim_phase c with sd_power_up => sd_native | p => p end) d [] [] None)
  else
    let r := Z.land (hd 0xff (sim_out c)) 0xff in
    let out := tl (sim_out c) in
    let p := sim_phase c in
    (r,
     match sim_in c with
     | Some (sector, None) =>
         mkSim p d (sim_cmd c) out (Some (sector, if b =? 0xFE then Some [] else None))
     | Some (sector, Some acc) =>
         let acc := acc ++ [b] in
         if bool_decide (length acc < SEC_LEN + 2)%nat
         then mkSim p d (sim_cmd c) out (Some (sector, Some acc))
         else mkSim p (disk_write d sector (take SEC_LEN acc)) [] [0x05; 0; 0xff] None
     | None =>
         if bool_decide (sim_cmd c = []) && (b =? 0xff)
         then mkSim p d [] out None
         else
           let fr := sim_cmd c ++ [b] in
           if bool_decide (length fr < 6)%nat then mkSim p d fr out None
           else
             let '(p, out, i) :=
               match wire_command fr with
               | Some (index, arg) => sim_exec p d index arg
               | None => (p, [5], None)
               end in
             mkSim p d [] out i
     end).

#[export] Instance sim_card : CardDev sim := sim_xchg.

(** A disk of the simulated size. *)
Definition sim_disk_ok (d : sd_disk) : Prop :=
  disk_size d = 2048 ∧ ∀ i, length (disk_data d i) = SEC_LEN ∧ Forall is_byte (disk_data d i).

Definition sim_at (p : sd_phase) (d : sd_disk) (c : sim) : Prop :=
  c = mkSim p d [] [] None ∧ sim_disk_ok d.

(** ** Frames *)

(** The bytes of a frame are collected until it is whole. *)
Lemma sim_byte p d fr b : bool_decide (fr = []) && (b =? 0xff) = false →
  (length (fr ++ [b]) < 6)%nat →
  (card_xchg false b (mkSim p d fr [] None)).2 = mkSim p d (fr ++ [b]) [] None.
Proof.
  intros H Hl. unfold card_xchg, sim_card, sim_xchg.
  cbn [sim_in sim_cmd sim_phase sim_disk sim_out snd tl]. rewrite H. by rewrite bool_decide_true.
Qed.

Lemma sim_command p d index arg fr : wire_cmd index arg fr →
  clock_out false fr (mkSim p d [] [] None) =
    let '(p', out, i) := sim_exec p d index arg in mkSim p' d [] out i.
Proof.
  intros [Hb Hc]. destruct fr as [|b1 [|b2 [|b3 [|b4 [|b5 [|b6 [|? ?]]]]]]]; try discriminate Hc.
  assert (Hb1 : b1 ≠ 0xff) by (intros ->; discriminate Hc).
  cbn [clock_out].
  rewrite (sim_byte p d []) by (first [by rewrite (proj2 (Z.eqb_neq _ _) Hb1)|cbn; lia]).
  do 4 (rewrite sim_byte by (first [reflexivity|cbn; lia])).
  unfold card_xchg, sim_card, sim_xchg.
  cbn [sim_in sim_cmd sim_phase sim_disk sim_out snd tl app].
  rewrite (bool_decide_false ([b1; b2; b3; b4; b5] = [])) by discriminate.
  rewrite bool_decide_false by (cbn; lia). cbn [andb]. rewrite Hc. reflexivity.
Qed.

(** Reading what the card has to say. *)
Lemma sim_next p d b out i : i = None ∨ (∃ n, i = Some (n, None)) → is_byte b →
  card_xchg false 0xff (mkSim p d [] (b :: out) i) = (b, mkSim p d [] out i).
Proof.
  intros Hi Hb. unfold card_xchg, sim_card, sim_xchg. cbn [sim_disk sim_out sim_phase sim_in sim_cmd hd tl].
  change 0xff with (2 ^ 8 - 1) at 1. rewrite land_ones_mod, Z.mod_small by (unfold is_byte in Hb; lia).
  by destruct Hi as [-> |[n ->]].
Qed.

Lemma sim_read p d bs out : Forall is_byte bs →
  clock_in false (length bs) (mkSim p d [] (bs ++ out) None) = (bs, mkSim p d [] out None).
Proof.
  induction 1 as [|b bs Hb _ IH]; [done|]. cbn [length clock_in app].
  rewrite sim_next by auto. by rewrite IH.
Qed.

Lemma sim_deselect p d out i : p ≠ sd_power_up →
  deselect (mkSim p d [] out i) = mkSim p d [] [] None.
Proof. intros Hp. by destruct p. Qed.

(** After [n] bytes of silence comes [r]. *)
Lemma sim_answers n p d r out i : i = None ∨ (∃ x, i = Some (x, None)) → is_byte r → r ≠ 0xff →
  answers r n (mkSim p d [] (replicate n 0xff ++ r :: out) i) (mkSim p d [] out i).
Proof.
  intros Hi Hb Hr. induction n as [|n IH]; cbn [replicate app].
  - apply ans_now; [by apply sim_next|done].
  - eapply ans_wait; [apply sim_next; [done|by split]|done].
Qed.

Lemma sim_responds n p d r out i : (n < 100)%nat → i = None ∨ (∃ x, i = Some (x, None)) →
  is_byte r → r ≠ 0xff →
  responds r (mkSim p d [] (replicate n 0xff ++ r :: out) i) (mkSim p d [] out i).
Proof.
  intros Hn Hi Hb Hr. exists n. split; [unfold response_timeout; lia|by apply sim_answers].
Qed.

(** The bytes of a block are collected. *)
Lemma sim_data p d n acc b :
  (card_xchg false b (mkSim p d [] [] (Some (n, Some acc)))).2 =
    if bool_decide (length (acc ++ [b]) < SEC_LEN + 2)%nat
    then mkSim p d [] [] (Some (n, Some (acc ++ [b])))
    else mkSim p (disk_write d n (take SEC_LEN (acc ++ [b]))) [] [0x05; 0; 0xff] None.
Proof. reflexivity. Qed.

Lemma sim_collect p d n l : ∀ acc, (length acc + length l < SEC_LEN + 2)%nat →
  clock_out false l (mkSim p d [] [] (Some (n, Some acc))) = mkSim p d [] [] (Some (n, Some (acc ++ l))).
Proof.
  induction l as [|b l IH]; intros acc Hl; [by rewrite app_nil_r|].
  cbn [length] in Hl. cbn [clock_out]. rewrite sim_data.
  rewrite bool_decide_true by (rewrite length_app; cbn [length]; lia).
  rewrite IH by (rewrite length_app; cbn [length]; lia). by rewrite <- app_assoc.
Qed.

(** A block, with its token and checksum, is written. *)
Lemma sim_block p d n l : length l = SEC_LEN →
  clock_out false ([0xff; 0xFE] ++ l ++ [0xff; 0xff]) (mkSim p d [] [] (Some (n, None))) =
    mkSim p (disk_write d n l) [] [0x05; 0; 0xff] None.
Proof.
  intros Hl. rewrite clock_out_app.
  change (clock_out false [0xff; 0xFE] (mkSim p d [] [] (Some (n, None))))
    with (mkSim p d [] [] (Some (n, Some []))).
  replace (l ++ [0xff; 0xff]) with ((l ++ [0xff]) ++ [0xff]) by (by rewrite <- app_assoc).
  rewrite clock_out_app. rewrite sim_collect by (rewrite length_app; cbn [length]; lia).
  cbn [app clock_out]. rewrite sim_data.
  rewrite bool_decide_false by (rewrite !length_app; cbn [length]; lia).
  rewrite !take_app_le by (rewrite ?length_app; lia). by rewrite take_ge by lia.
Qed.

Lemma sim_disk_write_ok d n l : sim_disk_ok d → length l = SEC_LEN → Forall is_byte l →
  sim_disk_ok (disk_write d n l).
Proof.
  intros [Hs Hd] Hl Hb. split; [done|]. intros i. cbn [disk_write disk_data].
  case_decide; [done|apply Hd].
Qed.

Ltac sim_out n := apply (sim_responds n); [lia|auto|split; lia|lia].

Lemma sim_reply n p d index arg fr p' r out i : wire_cmd index arg fr →
  sim_exec p d index arg = (p', replicate n 0xff ++ r :: out, i) →
  (n < 100)%nat → i = None ∨ (∃ x, i = Some (x, None)) → is_byte r → r ≠ 0xff →
  reply fr r (mkSim p d [] [] None) (mkSim p' d [] out i).
Proof. intros Hf He Hn Hi Hb Hr. unfold reply. rewrite (sim_command p d index arg), He by done. by apply sim_responds. Qed.

Ltac reply n := eapply (sim_reply n); [eassumption|reflexivity|lia|auto; eauto|split; lia|lia].

Lemma sim_csd_bytes : Forall is_byte (sim_csd ++ [0; 0]).
Proof.
  unfold sim_csd. cbn [app]. repeat (apply list.Forall_cons; split; [unfold is_byte; lia|]). constructor.
Qed.

Lemma sim_csd_read d :
  Forall is_byte (clock_in false 18 (mkSim sd_ready d [] (sim_csd ++ [0; 0]) None)).1.
Proof.
  pose proof (sim_read sd_ready d (sim_csd ++ [0; 0]) [] sim_csd_bytes) as Hr. rewrite app_nil_r in Hr.
  change (length (sim_csd ++ [0; 0])) with 18%nat in Hr. rewrite Hr. exact sim_csd_bytes.
Qed.

#[export] Instance sim_laws : SdCardLaws sim.
Proof.
  refine {| card_at := sim_at; sd_busy := 1 |}.
  - intros d c [-> Hd]. by split.
  - intros d c fr [-> Hd] Hf _. eexists. split; [reply O|]. by split.
  - intros d c fr [-> Hd] Hf _. eexists _, 2%nat. split; [reply O|]. split; [lia|]. by split.
  - intros d c k fr [-> Hd] Hf. eexists. split; [reply O|]. by split.
  - intros d c k fr [-> Hd] Hf. eexists. split; [reply O|]. by split.
  - intros d c fr [-> Hd] Hf. eexists. split; [reply O|]. by split.
  - intros d c fr [-> Hd] Hf. eexists. split; [reply O|]. split; [done|]. by split.
  - intros d c fr [-> Hd] Hf. eexists _, _. split; [reply O|]. split; [sim_out 1%nat|].
    split; [exact (sim_csd_read d)|]. split; [reflexivity|]. split; [by rewrite (proj1 Hd)|]. by split.
  - intros d c fr [-> Hd] Hf. eexists _, _. split; [reply O|]. split; [sim_out 1%nat|]. by split.
  - intros d c n fr [-> Hd] Hn Hf. destruct (proj2 Hd n) as [Hl Hb].
    eexists _, _. split; [reply 1%nat|]. split; [sim_out 2%nat|].
    rewrite <- Hl, sim_read by done. split; [done|]. by split.
  - intros d c n l fr [-> Hd] Hn Hf Hl Hb.
    eexists _, _, _, _, 1%nat. split; [reply 1%nat|].
    rewrite sim_block by done. split; [by apply sim_next; [auto|split; lia]|]. split; [done|]. split; [lia|].
    split. { eapply busy_more; [by apply sim_next; [auto|split; lia]|].
             eapply busy_over; [by apply sim_next; [auto|split; lia]|lia]. }
    split; [done|by apply sim_disk_write_ok].
Defined.

(** ** The controller *)

(** Bytes go out as they are written; a receive is done when the slave is selected. *)
Record ssi := mkSsi {
  ssi_on : bool;
  ssi_tm : tmod;
  ssi_n : Z;
  ssi_rx : list Z;
  ssi_level : bool;
  ssi_sim : sim }.

Definition tmod_of (w : Z) : tmod :=
  match fld_get (ctrlr0_field ctrlr0_tmod) w with
  | 0 => tmod_TRANS_RECV | 1 => tmod_TRANS | 2 => tmod_RECV | _ => tmod_EEROM
  end.

Definition ssi_wr (rg : spireg) (v : Z) (d : ssi) : ssi :=
  match rg with
  | S_ctrlr0 => mkSsi (ssi_on d) (tmod_of v) (ssi_n d) (ssi_rx d) (ssi_level d) (ssi_sim d)
  | S_ctrlr1 => mkSsi (ssi_on d) (ssi_tm d) v (ssi_rx d) (ssi_level d) (ssi_sim d)
  | S_ssienr => mkSsi (negb (v =? 0)) (ssi_tm d) (ssi_n d) [] (ssi_level d) (ssi_sim d)
  | S_ser =>
      match ssi_on d, ssi_tm d, v =? 0 with
      | true, tmod_RECV, false =>
          let '(bs, c) := clock_in (ssi_level d) (Z.to_nat (ssi_n d + 1)) (ssi_sim d) in
          mkSsi (ssi_on d) (ssi_tm d) (ssi_n d) bs (ssi_level d) c
      | _, _, _ => d
      end
  | S_dr =>
      match ssi_on d, ssi_tm d with
      | true, tmod_TRANS =>
          mkSsi (ssi_on d) (ssi_tm d) (ssi_n d) (ssi_rx d) (ssi_level d)
            (clock_out (ssi_level d) [v] (ssi_sim d))
      | _, _ => d
      end
  | _ => d
  end.

Definition ssi_rd (rg : spireg) (d : ssi) : Z * ssi :=
  match rg with
  | S_sr => (4, d)
  | S_rxflr => (Z.of_nat (length (ssi_rx d)), d)
  | S_dr => (hd 0 (ssi_rx d),
             mkSsi (ssi_on d) (ssi_tm d) (ssi_n d) (tl (ssi_rx d)) (ssi_level d) (ssi_sim d))
  | _ => (0, d)
  end.

#[export] Instance ssi_device : SsiDevice ssi := {
  ssi_read := ssi_rd;
  ssi_write := ssi_wr;
  ssi_pins w d := mkSsi (ssi_on d) (ssi_tm d) (ssi_n d) (ssi_rx d)
                    (Z.testbit w SD_CS_GPIONUM) (ssi_sim d) }.

(** What the card says are bytes. *)
Lemma sim_bytes cs n : ∀ c : sim, Forall (λ b, Z.land b 255 = b) (clock_in cs n c).1.
Proof.
  induction n as [|n IH]; intros c; cbn [clock_in]; [constructor|].
  destruct (card_xchg cs 0xff c) as [b c1] eqn:Hx.
  specialize (IH c1). destruct (clock_in cs n c1) as [bs c2]. constructor; [|done].
  apply (f_equal fst) in Hx. cbn [fst] in Hx. subst b.
  unfold card_xchg, sim_card, sim_xchg. destruct cs; [done|]. cbn [fst].
  rewrite <- Z.land_assoc. done.
Qed.

Lemma tmod_of_word tm : tmod_of (ctrlr0_word tm) = tm.
Proof. by destruct tm. Qed.

#[export] Instance ssi_laws : SsiLaws ssi sim.
Proof.
  refine {|
    ssi_idle d := ssi_on d = false;
    ssi_card := ssi_sim;
    ssi_cs := ssi_level;
    ssi_tmod := ssi_tm;
    ssi_sending cs c n d := ssi_on d = true ∧ ssi_tm d = tmod_TRANS ∧ ssi_level d = cs ∧ ssi_sim d = c;
    ssi_sent cs c d := ssi_on d = true ∧ ssi_tm d = tmod_TRANS ∧ ssi_level d = cs ∧ ssi_sim d = c;
    ssi_receiving cs bs c n d := ssi_on d = true ∧ ssi_tm d = tmod_RECV ∧ ssi_level d = cs ∧
      ssi_sim d = c ∧ ssi_rx d = bs ∧ Forall (λ b, Z.land b 255 = b) bs;
    ssi_lag d := O;
    ssi_polls := O |}.
  - done.
  - intros [on tm n rx lv c] rg v Hi Hrg Hv. cbn in Hi. subst on.
    destruct rg; cbn; try done; [|by rewrite Hv by auto].
    exfalso. rewrite !elem_of_cons in Hrg. destruct_or! Hrg; try discriminate.
    by apply elem_of_nil in Hrg.
  - intros d tm Hi. cbn. by rewrite tmod_of_word.
  - by intros d w Hi.
  - intros [on tm n rx lv c] Hi Hm. cbn in *. by subst.
  - intros [on tm n rx lv c'] cs c m b (H1 & H2 & H3 & H4) Hm Hb. cbn in *. by subst.
  - intros [on tm n rx lv c'] cs c m v d' Hs [= <- <-]. split; [lia|]. split; [done|lia].
  - intros [on tm n rx lv c'] cs c m v d' Hs [= <- <-]. done.
  - intros [on tm n rx lv c'] cs c (H1 & H2 & H3 & H4). cbn in *. by subst.
  - intros [on tm n rx lv c] m Hi Hm Hn. cbn in *. subst.
    pose proof (sim_bytes lv m c) as Hb. destruct (clock_in lv m c) as [bs c'] eqn:Hc.
    cbn in Hb |- *. replace (Z.to_nat (Z.of_nat m - 1 + 1)) with m by lia. rewrite Hc. auto 10.
  - intros [on tm n rx lv c'] cs bs c m v d' (H1 & H2 & H3 & H4 & H5 & H6) Hne [= <- <-].
    cbn in *. subst. split; [lia|]. split; [by split_and!|]. destruct bs; [done|]. cbn. lia.
  - intros [on tm n rx lv c'] cs b bs c m v d' (H1 & H2 & H3 & H4 & H5 & H6) Hm [= <- <-].
    cbn in *. subst. inversion_clear H6. by split_and!.
  - intros [on tm n rx lv c'] cs c m (H1 & H2 & H3 & H4 & H5 & H6). cbn in *. by subst.
Defined.
