(* ===== verification/SdBoard.v ===== *)
(** * SdBoard: the block device of the k210 (os/src/drivers/block/sdcard.rs)

    [SDCardWrapper::new]: clocks, pins and the card are set up; then the sectors of
    the card are the blocks of the file system. *)

From stdpp Require Import base list numbers functions sets.
From S2P Require Import Prelude Bytes Pll PllInv PacReg PacSysctl Sysctl SysctlInv K210Spi SdCard SdCardInv K210SpiInv.

Section board_init.
Context {E D : Type} `{!SocEnv E} `{!SsiDevice D}.
Context (fuel : nat).

Definition io_init : M (board E D) () :=
  set_function io_SPI0_SCLK function_SPI0_SCLK ;;
  set_function io_SPI0_MOSI function_SPI0_D0 ;;
  set_function io_SPI0_MISO function_SPI0_D1 ;;
  cs ← lift_res (function_gpiohs SD_CS_GPIONUM);
  set_function io_SPI0_CS0 cs ;;
  set_io_pull io_SPI0_CS0 pull_DOWN.

(** [sysctl::pll_set_freq(..).unwrap()]. *)
Definition set_pll (p : pll) (freq : Z) : M (board E D) () :=
  r ← in_soc (pll_set_freq fuel p freq); _ ← unwrap r; mret ().

Definition init_sdcard : M (board E D) SDCard :=
  let spi := SPIImpl fuel SPI0_if in
  in_soc (usleep fuel 100000) ;;
  set_pll pll_PLL0 800000000 ;;
  set_pll pll_PLL1 300000000 ;;
  set_pll pll_PLL2 45158400 ;;
  uarths_configure 115200 Clocks_cpu ;;
  io_init ;;
  r ← init the_card;
  match r with
  | inr _ => halt Panicked
  | inl info =>
      let num_sectors := CardCapacity info / 512 in
      assertM (0 <? num_sectors) ;;
      mret the_card
  end.
End board_init.

(** ** Setting the clocks *)

Section clocks.
Context {E D : Type} `{!SocEnv E} `{!SocEnvLaws E} `{!SsiDevice D}.
Implicit Types s : board E D.
Implicit Types r : sysregs.

(** The words of a PLL that is set. *)
Lemma set_word_params p freq w q : SYSCTRL_CLOCK_FREQ_IN0 < freq →
  compute_params SYSCTRL_CLOCK_FREQ_IN0 freq = Ok (Some q) →
  pll_word_freq (set_word p freq w) = params_freq q ∧
  (set_result p freq (fld_set F_pwrd 0 (fld_set F_out_en 0 w))).1 = Some (params_freq q).
Proof using.
  intros Hf Hq.
  destruct (set_result_params p freq (fld_set F_pwrd 0 (fld_set F_out_en 0 w)) Hf) as (o & Ho & H1 & H2).
  rewrite Hq in Ho. injection Ho as <-. by rewrite set_word_freq, H2, H1.
Qed.

Lemma set_pll_run p freq q s b fuel : from_in0 (sys (b_soc s)) p →
  SYSCTRL_CLOCK_FREQ_IN0 < freq →
  compute_params SYSCTRL_CLOCK_FREQ_IN0 freq = Ok (Some q) →
  env_ok (3 + b) (env (b_soc s)) → (env_polls ≤ fuel)%nat →
  ∃ r' e', set_pll fuel p freq s = Ok ((), with_soc s (mkSoc r' e')) ∧ env_ok b e' ∧
    from_in0 r' p ∧ pll_get_freq r' p = Ok (params_freq q) ∧
    (∀ rg, rg ≠ pll_reg p → rg ≠ R_pll_lock → rg ≠ R_clk_sel0 → r' rg = sys (b_soc s) rg) ∧
    (p = pll_PLL0 → r' R_clk_sel0 = aclk_word (sys (b_soc s) R_clk_sel0)) ∧
    (p ≠ pll_PLL0 → r' R_clk_sel0 = sys (b_soc s) R_clk_sel0).
Proof.
  intros Hp Hf Hq He Hfu. destruct s as [[r e] g io u d]. cbn [b_soc sys env] in *.
  destruct (pll_set_freq_run p freq r e b fuel Hp He Hfu) as (r' & e' & Hrun & He' & Hw & _ & Ho & Ha & Hb).
  destruct (set_word_params p freq (r (pll_reg p)) q Hf Hq) as [Hfreq Hres].
  assert (Hp' : from_in0 r' p).
  { apply in0_word. intros Heq. rewrite Hw. apply set_word_in0; [exact (proj1 (in0_word r p) Hp)|exact Heq]. }
  exists r', e'. split; [|split; [exact He'|]].
  - unfold set_pll.
    assert (H1 : in_soc (pll_set_freq fuel p freq) (mkBoard (mkSoc r e) g io u d) =
      Ok (Some (params_freq q), mkBoard (mkSoc r' e') g io u d))
      by (unfold in_soc; cbn [b_soc]; by rewrite Hrun, Hres).
    by run H1.
  - split; [exact Hp'|]. split; [by rewrite pll_get_freq_word, Hw, Hfreq|auto].
Qed.
End clocks.

(** ** Pins *)

Section pins.
Context {E D : Type} `{!SocEnv E} `{!SsiDevice D}.
Implicit Types s : board E D.

Definition with_pins (s : board E D) (io : list Z) : board E D :=
  mkBoard (b_soc s) (b_gpio s) io (b_uart s) (b_dev s).

(** The function that a pin has. *)
Definition pin_function (io : list Z) (pin : Z) : option Z :=
  fld_get (fpioa_io_field io_ch_sel) <$> io !! Z.to_nat pin.

Lemma pin_set io n m v : (Z.to_nat n < length io)%nat → 0 ≤ n → 0 ≤ m →
  pin_function (<[Z.to_nat n := v]> io) m =
    if decide (n = m) then Some (fld_get (fpioa_io_field io_ch_sel) v) else pin_function io m.
Proof using.
  intros Hl Hn Hm. unfold pin_function. case_decide as Hd.
  - by rewrite Hd, list_lookup_insert_eq by (by rewrite <- Hd).
  - by rewrite list_lookup_insert_ne by lia.
Qed.

(** A pin of the chip gets a function. *)
Lemma set_function_run n f v s io : length io = 48%nat → 0 ≤ n < 48 →
  FUNCTION_DEFAULTS !! Z.to_nat f = Some v → fld_get (fpioa_io_field io_ch_sel) v = f →
  ∃ io', set_function n f (with_pins s io) = Ok ((), with_pins s io') ∧ length io' = 48%nat ∧
    ∀ m, 0 ≤ m → pin_function io' m = if decide (n = m) then Some f else pin_function io m.
Proof.
  intros Hl Hn Hf Hv. exists (<[Z.to_nat n := v]> io). rewrite length_insert. split; [|split; [done|]].
  - unfold set_function. rewrite Hf, M_unwrap_bind.
    unfold mbind, M_bind, get_st. cbn [with_pins b_fpioa].
    destruct (lookup_lt_is_Some_2 io (Z.to_nat n)) as (w & ->); [lia|done].
  - intros m Hm. rewrite pin_set, Hv by lia. done.
Qed.

Lemma set_io_pull_run n s io : length io = 48%nat → 0 ≤ n < 48 →
  ∃ io', set_io_pull n pull_DOWN (with_pins s io) = Ok ((), with_pins s io') ∧
    ∀ m, 0 ≤ m → pin_function io' m = pin_function io m.
Proof.
  intros Hl Hn. destruct (lookup_lt_is_Some_2 io (Z.to_nat n)) as (w & Hw); [lia|].
  eexists. split.
  - unfold set_io_pull, mbind, M_bind, get_st. cbn [with_pins b_fpioa]. by rewrite Hw.
  - intros m Hm. cbn [with_pins b_fpioa]. rewrite pin_set by lia. case_decide as Hd; [|done]. subst m.
    rewrite !fld_get_set_other by fld.
    unfold pin_function. by rewrite Hw.
Qed.

(** The pins of the card: clock, the two data lines, and the chip select as a GPIO
    output. *)
Lemma io_init_at s io0 : length io0 = 48%nat →
  ∃ io, io_init (with_pins s io0) = Ok ((), with_pins s io) ∧
    pin_function io io_SPI0_SCLK = Some function_SPI0_SCLK ∧
    pin_function io io_SPI0_MOSI = Some function_SPI0_D0 ∧
    pin_function io io_SPI0_MISO = Some function_SPI0_D1 ∧
    pin_function io io_SPI0_CS0 = Some (24 + SD_CS_GPIONUM).
Proof.
  intros Hl. unfold io_init.
  destruct (set_function_run io_SPI0_SCLK function_SPI0_SCLK 0x00001f11 s io0 Hl)
    as (io1 & H1 & Hl1 & Hp1); [done..|].
  destruct (set_function_run io_SPI0_MOSI function_SPI0_D0 0x00b03f04 s io1 Hl1)
    as (io2 & H2 & Hl2 & Hp2); [done..|].
  destruct (set_function_run io_SPI0_MISO function_SPI0_D1 0x00b03f05 s io2 Hl2)
    as (io3 & H3 & Hl3 & Hp3); [done..|].
  destruct (set_function_run io_SPI0_CS0 31 0x00901f1f s io3 Hl3) as (io4 & H4 & Hl4 & Hp4); [done..|].
  destruct (set_io_pull_run io_SPI0_CS0 s io4 Hl4) as (io5 & H5 & Hp5); [done|].
  run H1. run H2. run H3.
  change (lift_res (function_gpiohs SD_CS_GPIONUM)) with (lift_res (S := board E D) (Ok 31)).
  rewrite M_res_bind. run H4. exists io5. split; [exact H5|].
  rewrite !Hp5, !Hp4, !Hp3, !Hp2, !Hp1 by done. done.
Qed.

Lemma io_init_run s : length (b_fpioa s) = 48%nat →
  ∃ io, io_init s = Ok ((), with_pins s io) ∧
    pin_function io io_SPI0_SCLK = Some function_SPI0_SCLK ∧
    pin_function io io_SPI0_MOSI = Some function_SPI0_D0 ∧
    pin_function io io_SPI0_MISO = Some function_SPI0_D1 ∧
    pin_function io io_SPI0_CS0 = Some (24 + SD_CS_GPIONUM).
Proof. destruct s as [t g io u d]. apply (io_init_at (mkBoard t g io u d)). Qed.
End pins.

(** ** The device comes up *)

Definition clocks_up (r : sysregs) : Prop :=
  pll_get_freq r pll_PLL0 = Ok 806000000 ∧
  pll_get_freq r pll_PLL1 = Ok 299000000 ∧
  pll_get_freq r pll_PLL2 = Ok 45066666 ∧
  clock_get_clock_select r select_ACLK = 1 ∧
  clock_get_clock_select r select_PLL2 = 0.

Lemma pll_freq_same p (r r' : sysregs) : from_in0 r p → r' (pll_reg p) = r (pll_reg p) →
  from_in0 r' p ∧ pll_get_freq r' p = pll_get_freq r p.
Proof.
  intros Hp Hr. assert (Hp' : from_in0 r' p) by (apply in0_word; rewrite Hr; exact (proj1 (in0_word r p) Hp)).
  split; [done|]. by rewrite !pll_get_freq_word, Hr.
Qed.

(** The CPU then runs at the frequency that the serial line is set up for. *)
Lemma clocks_up_cpu (r : sysregs) : clocks_up r → clock_get_threshold r threshold_ACLK = 0 →
  clock_get_freq r clock_CPU = Ok Clocks_cpu.
Proof.
  intros (H0 & _ & _ & Hsel & _) Ht.
  change (select_source (clock_get_clock_select r select_ACLK) (Ok SYSCTRL_CLOCK_FREQ_IN0)
    (div_freq (pll_get_freq r pll_PLL0) (wrap 32 (Z.shiftl 2 (clock_get_threshold r threshold_ACLK))))
    = Ok Clocks_cpu).
  by rewrite H0, Hsel, Ht.
Qed.

Section up.
Context {E D C : Type} `{!SocEnv E} `{!SocEnvLaws E} `{!SsiDevice D} `{!CardDev C}.
Context `{!SsiLaws D C} `{!SdCardLaws C}.
Implicit Types s : board E D.

Lemma set_clocks_run {A} s b fuel (k : M (board E D) A) : from_in0 (sys (b_soc s)) pll_PLL2 →
  env_ok (9 + b) (env (b_soc s)) → (env_polls ≤ fuel)%nat →
  ∃ r e, (set_pll fuel pll_PLL0 800000000 ;; set_pll fuel pll_PLL1 300000000 ;;
      set_pll fuel pll_PLL2 45158400 ;; k) s = k (with_soc s (mkSoc r e)) ∧ env_ok b e ∧
    clocks_up r ∧ clock_get_threshold r threshold_ACLK =
      clock_get_threshold (sys (b_soc s)) threshold_ACLK.
Proof.
  intros Hp2 He Hf.
  destruct (set_pll_run pll_PLL0 800000000 (mkParams 0 30 0 30) s (6 + b) fuel)
    as (r1 & e1 & H1 & He1 & Hi1 & Hf1 & Ho1 & Ha1 & _); [by intros [=]|done|done|done|done|].
  destruct (pll_freq_same pll_PLL2 _ r1 Hp2) as [Hp2' _]; [by apply Ho1|].
  destruct (set_pll_run pll_PLL1 300000000 (mkParams 0 22 1 22) (with_soc s (mkSoc r1 e1)) (3 + b) fuel)
    as (r2 & e2 & H2 & He2 & Hi2 & Hf2 & Ho2 & _ & Ha2); [by intros [=]|done|done|done|done|].
  destruct (pll_freq_same pll_PLL2 _ r2 Hp2') as [Hp2'' _]; [by apply Ho2|].
  destruct (set_pll_run pll_PLL2 45158400 (mkParams 0 25 14 25) (with_soc s (mkSoc r2 e2)) b fuel)
    as (r3 & e3 & H3 & He3 & Hi3 & Hf3 & Ho3 & _ & Ha3); [done|done|done|done|done|].
  cbn [with_soc b_soc sys env] in *. exists r3, e3.
  destruct (aclk_word_select r3 (sys (b_soc s) R_clk_sel0)) as [Hs Ht].
  { rewrite Ha3, Ha2, Ha1 by done. done. }
  split; [by run H1; run H2; run H3|]. split; [exact He3|]. split; [|by rewrite Ht].
  split; [|split; [|split; [exact Hf3|split; [exact Hs|exact (Hi3 eq_refl)]]]].
  - destruct (pll_freq_same pll_PLL0 r1 r2 Hi1) as [Hi1' E1]; [by apply Ho2|].
    destruct (pll_freq_same pll_PLL0 r2 r3 Hi1') as [_ E2]; [by apply Ho3|]. rewrite E2, E1. exact Hf1.
  - destruct (pll_freq_same pll_PLL1 r2 r3 Hi2) as [_ E2]; [by apply Ho3|]. rewrite E2. exact Hf2.
Qed.

(** What the device is when it is up: the clocks run as computed, the serial line
    has its divider, the pins are connected and the card transfers data. *)
Definition sdcard_up (fuel : nat) (Hf : (ssi_polls < fuel)%nat) (d : sd_disk) (s s' : board E D) : Prop :=
  clocks_up (sys (b_soc s')) ∧
  clock_get_threshold (sys (b_soc s')) threshold_ACLK =
    clock_get_threshold (sys (b_soc s)) threshold_ACLK ∧
  b_uart s' U_div = 3497 ∧
  pin_function (b_fpioa s') io_SPI0_SCLK = Some function_SPI0_SCLK ∧
  pin_function (b_fpioa s') io_SPI0_MOSI = Some function_SPI0_D0 ∧
  pin_function (b_fpioa s') io_SPI0_MISO = Some function_SPI0_D1 ∧
  pin_function (b_fpioa s') io_SPI0_CS0 = Some (24 + SD_CS_GPIONUM) ∧
  @card_ready _ C _ _ _ (board_wire fuel s' Hf) _ sd_ready d s'.

Lemma kept_clocks_up s0 s : kept s0 s → clocks_up (sys (b_soc s0)) →
  clocks_up (sys (b_soc s)) ∧ clock_get_threshold (sys (b_soc s)) threshold_ACLK =
    clock_get_threshold (sys (b_soc s0)) threshold_ACLK.
Proof using.
  intros (Hk & _ & _) (H0 & H1 & H2 & Hs & Hp).
  assert (Hr : ∀ rg, bool_decide (rg ∉ [R_clk_en_cent; R_clk_en_peri; R_clk_th1]) →
    sys (b_soc s) rg = sys (b_soc s0) rg) by (intros rg Hb; by apply Hk, (bool_decide_unpack _)).
  pose proof (Hr R_clk_sel0 I) as Hsel.
  destruct (pll_freq_same pll_PLL0 (sys (b_soc s0)) (sys (b_soc s))) as [_ E0]; [by intros [=]|exact (Hr R_pll0 I)|].
  destruct (pll_freq_same pll_PLL1 (sys (b_soc s0)) (sys (b_soc s))) as [_ E1]; [by intros [=]|exact (Hr R_pll1 I)|].
  destruct (pll_freq_same pll_PLL2 (sys (b_soc s0)) (sys (b_soc s)) (λ _, Hp) (Hr R_pll2 I)) as [P2 E2].
  split; [|cbn [clock_get_threshold]; unfold get_field;
           change (reg_addr (F := clk_sel0)) with R_clk_sel0; by rewrite Hsel].
  split_and!; [congruence..| |exact (P2 eq_refl)]. rewrite <- Hs. cbn [clock_get_clock_select]. unfold get_field.
  change (reg_addr (F := clk_sel0)) with R_clk_sel0. by rewrite Hsel.
Qed.

(** The wire of a board that the driver has changed. *)
Lemma card_ready_kept fuel Hf p d s0 s :
  @card_ready _ C _ _ _ (board_wire fuel s0 Hf) _ p d s →
  kept s0 s ∧ @card_ready _ C _ _ _ (board_wire fuel s Hf) _ p d s.
Proof.
  intros (cs & c & ((Hi & Hk) & Hcs & Hc) & Hp). split; [exact Hk|].
  exists cs, c. split; [|exact Hp]. split; [|done]. split; [exact Hi|]. split; [|done].
  intros rg _. done.
Qed.

Lemma uarths_run s : ∃ u, uarths_configure 115200 Clocks_cpu s =
    Ok ((), mkBoard (b_soc s) (b_gpio s) (b_fpioa s) u (b_dev s)) ∧ u U_div = 3497.
Proof using. eexists. split; reflexivity. Qed.

Lemma init_sdcard_run d s fuel (Hf : (ssi_polls < fuel)%nat) :
  clock_get_clock_select (sys (b_soc s)) select_PLL2 = 0 →
  env_ok 10 (env (b_soc s)) → (env_polls ≤ fuel)%nat →
  length (b_fpioa s) = 48%nat →
  ssi_idle (b_dev s) → card_at sd_power_up d (ssi_card (b_dev s)) → 0 < disk_size d < 2 ^ 40 →
  ∃ s', init_sdcard fuel s = Ok (the_card, s') ∧ sdcard_up fuel Hf d s s'.
Proof.
  intros Hsel He Hfe Hio Hi Hc Hd. unfold init_sdcard. destruct s as [[r e] g io u dv].
  cbn [b_soc sys env b_dev b_fpioa] in *.
  destruct (usleep_run 9 r e 100000 fuel He) as (e1 & H1 & He1); [lia|done|].
  assert (H1' : in_soc (usleep fuel 100000) (mkBoard (mkSoc r e) g io u dv) =
    Ok ((), mkBoard (mkSoc r e1) g io u dv)) by (unfold in_soc; cbn [b_soc]; by rewrite H1).
  run H1'. clear H1 H1'.
  match goal with |- ∃ s', (set_pll _ _ _ ≫= (λ _, set_pll _ _ _ ≫= (λ _, set_pll _ _ _ ≫= (λ _, ?k)))) ?s0 = _ ∧ _ =>
    destruct (set_clocks_run s0 0 fuel k (λ _, Hsel) He1 Hfe) as (r2 & e2 & -> & _ & Hup & Hthr) end.
  cbn [with_soc b_soc sys env] in *.
  destruct (uarths_run (mkBoard (mkSoc r2 e2) g io u dv)) as (u3 & H3 & Hu3). run H3.
  destruct (io_init_run (mkBoard (mkSoc r2 e2) g io u3 dv) Hio) as (io4 & H4 & Hpins). run H4.
  set (s4 := with_pins _ io4).
  assert (Hready : @card_ready _ C _ _ _ (board_wire fuel s4 Hf) _ sd_power_up d s4).
  { eexists _, _. split; [|exact Hc]. by repeat split. }
  destruct (@init_run _ _ _ _ _ (board_wire fuel s4 Hf) _ d s4 Hready Hd)
    as (info & s5 & H5 & Hcap & _ & Hr5). run H5.
  rewrite Hcap, Z.div_mul, M_assert_bind by (lia || (apply Z.ltb_lt; lia)).
  destruct (card_ready_kept _ _ _ _ _ _ Hr5) as [Hk Hr5'].
  exists s5. split; [done|]. destruct (kept_clocks_up s4 s5 Hk Hup) as [Hup5 Hthr5].
  destruct Hk as (_ & Hfp & Hua). split; [exact Hup5|]. split; [by rewrite Hthr5|].
  rewrite Hfp, Hua. split; [exact Hu3|]. destruct Hpins as (P1 & P2 & P3 & P4).
  split; [exact P1|]. split; [exact P2|]. split; [exact P3|]. split; [exact P4|exact Hr5'].
Qed.
End up.
