(* ===== verification/FsDrivers.v ===== *)
(** * FsDrivers: easy-fs on the block devices of the two boards

    The virtio block driver of qemu and the SD card driver of the k210 keep their
    hardware in step with a map of sectors: both satisfy [DriverLaws], so the
    file system runs on them as on a plain disk. *)

From stdpp Require Import base gmap list numbers functions.
From S2P Require Import Prelude Bytes BlockIO BlockCache FsTyped CacheDriver FrameAllocator PhysBytes.
From S2P Require Import VirtQueue VirtIODma VirtIOBlk VirtIOBlkInv.
From S2P Require Import Sysctl SysctlInv K210Spi SdCard SdCardInv K210SpiInv.

(** ** Sectors as a device *)

Notation sector_map := (Z → option (list Z)).

#[export] Instance sector_device : BlockDevice sector_map := {
  BlockIO.read_block d id :=
    b ← d id; if bool_decide (length b = Z.to_nat BLOCK_SZ) then Some b else None;
  BlockIO.write_block d id b :=
    match d id with Some _ => Some (<[id := Some b]> d) | None => None end }.

Lemma sector_read_Some (d : sector_map) id b :
  BlockIO.read_block d id = Some b ↔ d id = Some b ∧ length b = Z.to_nat BLOCK_SZ.
Proof.
  unfold BlockIO.read_block, sector_device. destruct (d id) as [b0|]; cbn -[BLOCK_SZ]; [|naive_solver].
  case_bool_decide; naive_solver.
Qed.

#[export] Instance sector_laws : BlockDeviceLaws sector_map.
Proof.
  split.
  - intros d id b H. by apply sector_read_Some in H as [_ H].
  - intros d id b _ [b0 [H0 _]%sector_read_Some] _. unfold BlockIO.write_block, sector_device.
    rewrite H0. by eexists.
  - intros d d' id b _ Hl. unfold BlockIO.write_block, sector_device. destruct (d id); [|done].
    intros [= <-]. apply sector_read_Some. by rewrite fn_lookup_insert.
  - intros d d' id id' b _ _ Hne _ _. unfold BlockIO.write_block, BlockIO.read_block, sector_device.
    destruct (d id); [|done]. intros [= <-]. by rewrite fn_lookup_insert_ne.
Qed.

(** ** The virtio block device *)

Section virtio.
Context {T : Type} `{!BlkDevice T} `{!BlkDeviceLaws T}.
Context (virt_to_phys : Z → Z).
(** Where the request header, the buffer of the cache entry and the status of a
    block are. *)
Context (req buf resp : Z → Z).

Definition virtio_read (fuel : nat) (id : Z) : M (machine T) (list Z) :=
  VirtIOBlock_read_block virt_to_phys fuel (req id) (resp id) id (buf id, 512) ;;
  load_var virt_to_phys (buf id) 512.

Definition virtio_write (fuel : nat) (id : Z) (b : list Z) : M (machine T) () :=
  store_var virt_to_phys (buf id) b ;;
  VirtIOBlock_write_block virt_to_phys fuel (req id) (resp id) id (buf id, 512).

Definition virtio_driver : BlockDriver (machine T) := {|
  drv_read := virtio_read;
  drv_write := virtio_write |}.

(** The driver is ready, its buffers are in memory, and the device has the sectors. *)
Definition virtio_rel (d : sector_map) (s : machine T) : Prop :=
  blk_ready s ∧
  (∀ id, ok_id id → io_buffers virt_to_phys (b_mem (m_bus s)) (req id) (buf id) (resp id)) ∧
  (∀ x, sector (m_dev s) x = d x) ∧ (∀ x b, d x = Some b → bytes b).

(** A request leaves memory where it was. *)
Lemma backed_done (s : machine T) rq bf rs s' a n : request_done virt_to_phys s rq bf rs s' →
  backed (b_mem (m_bus s)) a n → backed (b_mem (m_bus s')) a n.
Proof.
  intros [_ [_ _ (H1 & H2 & H3) _ _ _] _ _ Hf] Hb x Hx.
  destruct (decide (virt_to_phys rq ≤ x < virt_to_phys rq + 16)); [by apply H1|].
  destruct (decide (virt_to_phys bf ≤ x < virt_to_phys bf + 512)); [by apply H2|].
  destruct (decide (x = virt_to_phys rs)) as [->|]; [apply H3; cbn; lia|].
  rewrite Hf; [by apply Hb|]. unfold elsewhere, apart. lia.
Qed.

Lemma ok_id_64 id : ok_id id → in_u 64 id.
Proof using. unfold ok_id, in_u. lia. Qed.

Lemma virtio_read_ok d s id b : virtio_rel d s → ok_id id → BlockIO.read_block d id = Some b →
  bytes b ∧ ∃ s', enough (λ n, virtio_read n id s = Ok (b, s')) ∧ virtio_rel d s'.
Proof.
  intros (Hr & Hio & Hd & Hb) Hid [Hs Hl]%sector_read_Some. split; [by apply (Hb id)|].
  destruct (read_block_spec virt_to_phys s (req id) (buf id) (resp id) id Hr (Hio id Hid) (ok_id_64 id Hid))
    as (N & s' & Hrun & Hdone & Hsec & Hdata).
  rewrite Hd, Hs in Hrun. cbn [result] in Hrun.
  assert (Hat : bytes_at (b_mem (m_bus s')) (virt_to_phys (buf id)) b) by (apply Hdata; by rewrite Hd).
  exists s'. split.
  - exists N. intros fuel Hf. unfold virtio_read, VirtIOBlock_read_block. rewrite M_bind_assoc.
    run (Hrun fuel Hf). rewrite M_ret_bind. unfold load_var, in_bus, in_bmem.
    rewrite load_virt_eq by apply (Hio id Hid).
    pose proof (load_bytes_run _ _ _ Hat) as Hld. rewrite Hl in Hld.
    change (Z.to_nat BLOCK_SZ) with 512%nat in Hld. rewrite Hld. by destruct s' as [[? ? ?] ? ? ?].
  - split; [apply Hdone|]. split; [|split; [|done]].
    + intros i Hi. eapply io_buffers_mono; [|by apply Hio]. intros a n. by apply (backed_done s _ _ _ s' a n Hdone).
    + intros x. by rewrite Hsec.
Qed.

Lemma virtio_write_ok d s id b d' : virtio_rel d s → ok_id id → length b = Z.to_nat BLOCK_SZ → bytes b →
  is_Some (BlockIO.read_block d id) → BlockIO.write_block d id b = Some d' →
  ∃ s', enough (λ n, virtio_write n id b s = Ok ((), s')) ∧ virtio_rel d' s'.
Proof.
  intros (Hr & Hio & Hd & Hb) Hid Hl Hbb [b0 [Hs _]%sector_read_Some] Hw.
  unfold BlockIO.write_block, sector_device in Hw. rewrite Hs in Hw. injection Hw as <-.
  change (Z.to_nat BLOCK_SZ) with 512%nat in Hl.
  destruct (store_var_run virt_to_phys s (buf id) b) as (m & Hst & Hm).
  { rewrite Hl. apply (Hio id Hid). } { rewrite Hl. apply (Hio id Hid). }
  assert (Hio' : ∀ i, ok_id i → io_buffers virt_to_phys m (req i) (buf i) (resp i)).
  { intros i Hi. eapply io_buffers_mono; [|by apply Hio]. intros a n. by apply (backed_stored _ _ _ _ a n Hm). }
  destruct (write_block_spec virt_to_phys (set_bmem m s) (req id) (buf id) (resp id) id
    (ready_bmem m s Hr) (Hio' id Hid) (ok_id_64 id Hid) b) as (N & s' & Hrun & Hdone & _ & Hsec);
    [by eapply bytes_at_stored|done|].
  change (m_dev (set_bmem m s)) with (m_dev s) in *. rewrite Hd, Hs in Hrun. cbn [result] in Hrun.
  exists s'. split.
  - exists N. intros fuel Hf. unfold virtio_write, VirtIOBlock_write_block. run Hst. by run (Hrun fuel Hf).
  - split; [apply Hdone|]. split; [|split].
    + intros i Hi. eapply io_buffers_mono; [|by apply Hio'].
      intros a n. by apply (backed_done (set_bmem m s) _ _ _ s' a n Hdone).
    + intros x. rewrite Hsec. destruct (decide (x = id)) as [->|Hne].
      * rewrite fn_lookup_insert, decide_True; [done|]. split; [done|]. by rewrite Hd, Hs.
      * rewrite fn_lookup_insert_ne, decide_False by naive_solver. apply Hd.
    + intros x c. destruct (decide (x = id)) as [->|Hne].
      * rewrite fn_lookup_insert. by intros [= <-].
      * rewrite fn_lookup_insert_ne by done. apply Hb.
Qed.

Definition virtio_driver_laws : @DriverLaws (machine T) sector_map virtio_driver _ :=
  @Build_DriverLaws _ _ virtio_driver _ virtio_rel virtio_read_ok virtio_write_ok.
End virtio.

(** ** More fuel for the SD card driver *)

Section more_fuel.
Context {E D : Type} `{!SocEnv E} `{!SsiDevice D}.

Lemma wait_rx_le n m v : (n ≤ m)%nat → M_le (wait_rx (E := E) (D := D) n v) (wait_rx m v).
Proof.
  revert m v. induction n as [|n IH]; intros [|m] v Hn; try lia; cbn [wait_rx]; auto with fuel lia.
Qed.

Lemma wait_tx_le n m v : (n ≤ m)%nat → M_le (wait_tx (E := E) (D := D) n v) (wait_tx m v).
Proof.
  revert m v. induction n as [|n IH]; intros [|m] v Hn; try lia; cbn [wait_tx]; auto with fuel lia.
Qed.

Lemma wait_idle_le n m : (n ≤ m)%nat → M_le (wait_idle (E := E) (D := D) n) (wait_idle m).
Proof.
  revert m. induction n as [|n IH]; intros [|m] Hn; try lia; cbn [wait_idle]; auto with fuel lia.
Qed.

Context (n m : nat) (Hnm : (n ≤ m)%nat).

(** The driver with less and with more fuel. *)
Local Instance less : SPI (board E D) | 2 := SPIImpl n SPI0_if.
Local Instance more : SPI (board E D) | 3 := SPIImpl m SPI0_if.

Hint Resolve wait_rx_le wait_tx_le wait_idle_le : fuel.

Lemma recv_loop_le k v : M_le (recv_loop (E := E) (D := D) n k v) (recv_loop m k v).
Proof. revert v. induction k as [|k IH]; intros v; cbn [recv_loop]; auto with fuel. Qed.

Lemma send_loop_le tx v : M_le (send_loop (E := E) (D := D) n tx v) (send_loop m tx v).
Proof. revert v. induction tx as [|b tx IH]; intros v; cbn [send_loop]; auto with fuel. Qed.

Hint Resolve recv_loop_le send_loop_le : fuel.

Lemma recv_data_le cs k : M_le (spi_recv_data (SPI := less) cs k) (spi_recv_data (SPI := more) cs k).
Proof. destruct k; [reflexivity|]. cbn. unfold recv_data. auto 20 with fuel. Qed.

Lemma send_data_le cs tx : M_le (spi_send_data (SPI := less) cs tx) (spi_send_data (SPI := more) cs tx).
Proof. cbn. unfold send_data. auto 20 with fuel. Qed.

Lemma configure_le wm ff a b c d e it tm :
  M_le (spi_configure (SPI := less) wm ff a b c d e it tm) (spi_configure (SPI := more) wm ff a b c d e it tm).
Proof. reflexivity. Qed.

Hint Resolve recv_data_le send_data_le configure_le : fuel.

Lemma write_data_le sd tx : M_le (write_data (SPI0 := less) sd tx) (write_data (SPI0 := more) sd tx).
Proof. apply M_le_bind; [apply configure_le|intros _; apply send_data_le]. Qed.

Lemma read_data_le sd k : M_le (read_data (SPI0 := less) sd k) (read_data (SPI0 := more) sd k).
Proof. apply M_le_bind; [apply configure_le|intros _; apply recv_data_le]. Qed.

Hint Resolve write_data_le read_data_le : fuel.

Lemma read_byte_le sd : M_le (read_byte (SPI0 := less) sd) (read_byte (SPI0 := more) sd).
Proof. unfold read_byte. auto with fuel. Qed.

Lemma send_cmd_le sd c arg crc :
  M_le (send_cmd (SPI0 := less) sd c arg crc) (send_cmd (SPI0 := more) sd c arg crc).
Proof. unfold send_cmd. auto with fuel. Qed.

Lemma end_cmd_le sd : M_le (end_cmd (SPI0 := less) sd) (end_cmd (SPI0 := more) sd).
Proof. unfold end_cmd. auto with fuel. Qed.

Hint Resolve read_byte_le send_cmd_le end_cmd_le : fuel.

Lemma get_response_le sd : M_le (get_response (SPI0 := less) sd) (get_response (SPI0 := more) sd).
Proof.
  unfold get_response. generalize response_timeout as k.
  induction k as [|k IH]; cbn [get_response_loop]; auto with fuel.
Qed.

Lemma wait_busy_le sd k j r : (k ≤ j)%nat →
  M_le (wait_busy (SPI0 := less) sd k r) (wait_busy (SPI0 := more) sd j r).
Proof.
  revert j r. induction k as [|k IH]; intros [|j] r Hj; try lia; cbn [wait_busy]; auto with fuel lia.
Qed.

Hint Resolve get_response_le wait_busy_le : fuel.

Lemma get_dataresponse_le sd :
  M_le (get_dataresponse (SPI0 := less) sd n) (get_dataresponse (SPI0 := more) sd m).
Proof. unfold get_dataresponse. auto 10 with fuel. Qed.

Lemma read_chunks_le sd k : M_le (read_chunks (SPI0 := less) sd k) (read_chunks (SPI0 := more) sd k).
Proof.
  induction k as [|k IH]; cbn [read_chunks]; [reflexivity|]. apply M_le_bind; [auto with fuel|]. intros r.
  destruct (negb _); auto 10 with fuel.
Qed.

Hint Resolve get_dataresponse_le read_chunks_le : fuel.

Lemma write_chunks_le sd frame cs :
  M_le (write_chunks (SPI0 := less) sd n frame cs) (write_chunks (SPI0 := more) sd m frame cs).
Proof. induction cs as [|c cs IH]; cbn [write_chunks]; auto 10 with fuel. Qed.

Hint Resolve write_chunks_le : fuel.

Lemma read_sector_le sd k x : M_le (read_sector (SPI0 := less) sd k x) (read_sector (SPI0 := more) sd k x).
Proof.
  unfold read_sector. apply M_le_bind; [reflexivity|]. intros _. apply M_le_bind; [auto with fuel|]. intros _.
  apply M_le_bind; [auto with fuel|]. intros r. destruct (negb (r =? 0)); [auto with fuel|].
  apply M_le_bind; [auto with fuel|]. intros [data err]. auto 20 with fuel.
Qed.

Lemma write_sector_le sd b x :
  M_le (write_sector (SPI0 := less) sd n b x) (write_sector (SPI0 := more) sd m b x).
Proof. unfold write_sector. auto 20 with fuel. Qed.
End more_fuel.

(** ** The SD card *)

Section sdcard.
Context {E D C : Type} `{!SocEnv E} `{!SsiDevice D} `{!CardDev C}.
Context `{!SsiLaws D C} `{!SdCardLaws C}.
Implicit Types s : board E D.

Definition sdcard_read (fuel : nat) (id : Z) : M (board E D) (list Z) :=
  SDCardWrapper_read_block (SPI0 := SPIImpl fuel SPI0_if) id SEC_LEN.

Definition sdcard_write (fuel : nat) (id : Z) (b : list Z) : M (board E D) () :=
  SDCardWrapper_write_block (SPI0 := SPIImpl fuel SPI0_if) fuel id b.

Definition sdcard_driver : BlockDriver (board E D) := {|
  drv_read := sdcard_read;
  drv_write := sdcard_write |}.

(** The sectors of a card. *)
Definition card_sectors (dk : sd_disk) : sector_map := λ x,
  if decide (0 ≤ x < disk_size dk) then Some (disk_data dk x) else None.

(** A card in data transfer, on a controller that is off. *)
Definition card_idle (dk : sd_disk) (s : board E D) : Prop :=
  ssi_idle (b_dev s) ∧ card_at sd_ready dk (ssi_card (b_dev s)).

Definition disk_ok (dk : sd_disk) : Prop :=
  ∀ x, 0 ≤ x < disk_size dk → length (disk_data dk x) = SEC_LEN ∧ bytes (disk_data dk x).

(** The card holds the sectors. *)
Definition sdcard_rel (d : sector_map) (s : board E D) : Prop :=
  ∃ dk, card_idle dk s ∧ disk_ok dk ∧ ∀ x, d x = card_sectors dk x.

Lemma card_idle_wire fuel s0 Hf dk s : kept s0 s → card_idle dk s →
  @card_ready _ C _ _ _ (board_wire fuel s0 Hf) _ sd_ready dk s.
Proof.
  intros Hk [Hi Hc]. eexists _, _. split; [|exact Hc]. split; [by split|done].
Qed.

Lemma card_wire_idle fuel s0 Hf dk s :
  @card_ready _ C _ _ _ (board_wire fuel s0 Hf) _ sd_ready dk s → card_idle dk s.
Proof.
  intros (cs & c & ((Hi & _) & _ & Hc) & Hp). split; [exact Hi|].
  change (ssi_card (b_dev s) = c) in Hc. by rewrite Hc.
Qed.

Lemma kept_refl s : kept s s.
Proof using. by repeat split. Qed.

Lemma sdcard_read_ok d s id b : sdcard_rel d s → ok_id id → BlockIO.read_block d id = Some b →
  bytes b ∧ ∃ s', enough (λ n, sdcard_read n id s = Ok (b, s')) ∧ sdcard_rel d s'.
Proof.
  intros (dk & Hc & Hdk & Hd) Hid [Hs Hl]%sector_read_Some. rewrite Hd in Hs.
  unfold card_sectors in Hs. case_decide as Hx; [|done]. injection Hs as <-.
  split; [by apply Hdk|]. assert (Hf : (ssi_polls < S ssi_polls)%nat) by lia.
  destruct (@read_sector_run _ _ _ _ _ (board_wire _ s Hf) _ dk s id
    (card_idle_wire _ s Hf dk s (kept_refl s) Hc) Hx Hid) as (s' & Hrun & Hc').
  exists s'. split; [|exists dk; exact (conj (card_wire_idle _ s Hf dk s' Hc') (conj Hdk Hd))].
  exists (S ssi_polls). intros n Hn. unfold sdcard_read, SDCardWrapper_read_block.
  rewrite wrap_small by done.
  pose proof (read_sector_le _ n Hn the_card SEC_LEN id _ _ _ Hrun) as Hrun'. by run Hrun'.
Qed.

Lemma card_sectors_write dk id b x : 0 ≤ id < disk_size dk →
  card_sectors (disk_write dk id b) x = (<[id := Some b]> (card_sectors dk)) x.
Proof using.
  intros Hid. unfold card_sectors, disk_write. cbn [disk_size disk_data].
  destruct (decide (x = id)) as [->|Hne].
  - by rewrite fn_lookup_insert, decide_True.
  - by rewrite fn_lookup_insert_ne.
Qed.

Lemma sdcard_write_ok d s id b d' : sdcard_rel d s → ok_id id → length b = Z.to_nat BLOCK_SZ → bytes b →
  is_Some (BlockIO.read_block d id) → BlockIO.write_block d id b = Some d' →
  ∃ s', enough (λ n, sdcard_write n id b s = Ok ((), s')) ∧ sdcard_rel d' s'.
Proof.
  intros (dk & Hc & Hdk & Hd) Hid Hl Hb [b0 [Hs _]%sector_read_Some] Hw.
  unfold BlockIO.write_block, sector_device in Hw. rewrite Hs in Hw. injection Hw as <-.
  rewrite Hd in Hs. unfold card_sectors in Hs. case_decide as Hx; [|done].
  assert (Hf : (ssi_polls < S (ssi_polls + sd_busy))%nat) by lia.
  destruct (@write_sector_run _ _ _ _ _ (board_wire _ s Hf) _ dk s id b (S (ssi_polls + sd_busy))
    (card_idle_wire _ s Hf dk s (kept_refl s) Hc) Hx Hid Hl Hb) as (s' & Hrun & Hc'); [lia|].
  exists s'. split.
  - exists (S (ssi_polls + sd_busy)). intros n Hn. unfold sdcard_write, SDCardWrapper_write_block.
    rewrite wrap_small by done.
    pose proof (write_sector_le _ n Hn the_card b id _ _ _ Hrun) as Hrun'. by run Hrun'.
  - exists (disk_write dk id b). split; [exact (card_wire_idle _ s Hf _ s' Hc')|]. split.
    + intros x Hx'. cbn [disk_write disk_data]. case_decide; [done|by apply Hdk].
    + intros x. rewrite card_sectors_write by done. destruct (decide (x = id)) as [->|Hne].
      * by rewrite !fn_lookup_insert.
      * by rewrite !fn_lookup_insert_ne.
Qed.

Definition sdcard_driver_laws : @DriverLaws (board E D) sector_map sdcard_driver _ :=
  @Build_DriverLaws _ _ sdcard_driver _ sdcard_rel sdcard_read_ok sdcard_write_ok.
End sdcard.
