(* ===== verification/K210Props.v ===== *)
(** * K210Props: the properties of the k210 board

    Clocks and PLLs, the SD card with its SPI controller, and the file system on
    the drivers of both boards, each with an instance at concrete inputs. *)

From stdpp Require Import base gmap list numbers functions.
From S2P Require Import Prelude Bytes Pll PllInv PacReg PacSysctl Sysctl SysctlInv.
From S2P Require Import K210Spi SdCard SdCardInv K210SpiInv SdCardSim SdBoard.

(** ** PLLs *)

(** C25: The search for the factors of a PLL always ends with a result and without a
    panic, for all inputs.  For an output faster than the input what it finds is
    within all limits of the hardware: the divided clock is at least 13.3 MHz, the
    oscillator runs between 340 MHz and 1.75 GHz, the two divisors fit their
    four-bit fields and the multiplier is at most [F_MAX] = 64.  For other outputs
    the code has no such bound on the multiplier: the other limits hold and the
    multiplier is at most 256. *)
Theorem pll_params_in_spec freq_in freq_out :
  ∃ o, compute_params freq_in freq_out = Ok o ∧
    ∀ p, o = Some p →
      (freq_in < freq_out → in_spec freq_in p) ∧ within freq_in 256 p.
Proof.
  destruct (compute_params_ok freq_in freq_out) as (o & Ho & Hp). exists o. split; [exact Ho|].
  intros p Hq. specialize (Hp p Hq). split.
  - intros Hlt. unfold f_bound in Hp. rewrite (proj2 (Z.ltb_lt _ _) Hlt) in Hp. exact Hp.
  - eapply within_mono; [|exact Hp]. apply f_bound_range.
Qed.

(** C16: A PLL that runs from the oscillator is set to an output faster than it: the
    wait loops end, the result is the frequency of the factors that were found,
    which is then the one read back from the register (or [None], with the
    register's factors as they were).  The PLL is powered, out of reset and
    enabled; its feedback, bypass and test bits and its source are kept.  For PLL0
    the select of ACLK ends on PLL0 and the other fields of [clk_sel0] are kept.
    The lock register is as it was, or as it was read with the PLL's slip-clear bit
    set.  No other register changes. *)
Theorem pll_set_freq_exact {E} `{!SocEnv E, !SocEnvLaws E} p freq (s : soc E) b fuel :
  from_in0 (sys s) p → SYSCTRL_CLOCK_FREQ_IN0 < freq →
  env_ok (3 + b) (env s) → (env_polls ≤ fuel)%nat →
  ∃ o s', compute_params SYSCTRL_CLOCK_FREQ_IN0 freq = Ok o ∧
    pll_set_freq fuel p freq s = Ok (params_freq <$> o, s') ∧ env_ok b (env s') ∧
    pll_get_freq (sys s') p =
      match o with Some q => Ok (params_freq q) | None => pll_get_freq (sys s) p end ∧
    fld_get F_out_en (sys s' (pll_reg p)) = 1 ∧ fld_get F_pwrd (sys s' (pll_reg p)) = 1 ∧
    fld_get F_reset (sys s' (pll_reg p)) = 0 ∧
    (∀ fl, fl ∈ kept_fields → fld_get fl (sys s' (pll_reg p)) = fld_get fl (sys s (pll_reg p))) ∧
    (p = pll_PLL0 → clock_get_clock_select (sys s') select_ACLK = 1 ∧
      ∀ x, x ≠ clk_sel0_aclk_sel → get_field x (sys s') = get_field x (sys s)) ∧
    lock_after p (sys s R_pll_lock) (sys s' R_pll_lock) ∧
    (∀ rg, rg ≠ pll_reg p → rg ≠ R_pll_lock → (p = pll_PLL0 → rg ≠ R_clk_sel0) →
      sys s' rg = sys s rg).
Proof.
  intros Hp Hf He Hfu. destruct s as [r e]. cbn [sys env] in *.
  destruct (pll_set_freq_run p freq r e b fuel Hp He Hfu) as (r' & e' & Hrun & He' & Hw & Hlk & Ho & Ha & Hb).
  set (w := fld_set F_pwrd 0 (fld_set F_out_en 0 (r (pll_reg p)))) in *.
  destruct (set_result_params p freq w Hf) as (o & Hq & H1 & H2).
  assert (Hp' : from_in0 r' p).
  { apply in0_word. intros Heq. rewrite Hw.
    apply set_word_in0; [exact (proj1 (in0_word r p) Hp)|exact Heq]. }
  destruct (set_word_on p freq (r (pll_reg p))) as (S1 & S2 & S3).
  exists o, (mkSoc r' e'). cbn [sys env]. rewrite Hw, Hrun, H1.
  split; [exact Hq|]. split; [reflexivity|]. split; [exact He'|]. split.
  { rewrite !pll_get_freq_word by assumption. rewrite Hw, set_word_freq. fold w. rewrite H2.
    destruct o; [reflexivity|]. f_equal. unfold w.
    rewrite !word_freq_other by (repeat split; cbn; lia). reflexivity. }
  split; [exact S1|]. split; [exact S2|]. split; [exact S3|]. split.
  { intros fl Hfl. apply set_word_kept; [exact Hfl|exact (proj1 (in0_word r p) Hp)]. }
  split; [|split; [exact Hlk|]].
  - intros Hp0. split; [exact (proj1 (aclk_word_select r' _ (Ha Hp0)))|].
    intros x Hx. exact (aclk_word_other r r' x (Ha Hp0) Hx).
  - intros rg N1 N2 N3. destruct (decide (rg = R_clk_sel0)) as [->|N4]; [|by apply Ho].
    apply Hb. intros Hp0. by apply (N3 Hp0).
Qed.

(** Registers at reset, and the time 0. *)
Definition reset_soc : soc Z := mkSoc (λ _, 0) 0.

Lemma pll_set_freq_exact_witness : ∃ fuel s',
  pll_set_freq fuel pll_PLL0 800000000 reset_soc = Ok (Some 806000000, s') ∧
  pll_get_freq (sys s') pll_PLL0 = Ok 806000000.
Proof.
  exists env_polls.
  destruct (pll_set_freq_exact pll_PLL0 800000000 reset_soc 0 env_polls)
    as (o & s' & Hq & Hrun & _ & Hget & _); [by intros [=]|reflexivity|split; cbn; lia|reflexivity|].
  assert (o = Some (mkParams 0 30 0 30)) as -> by (vm_compute in Hq; by injection Hq as <-).
  exists s'. split; [exact Hrun|exact Hget].
Defined.

(** C40: Setting the factors of a PLL from a source it can have, for every input.  The
    search ends; when it finds nothing the result is an error and nothing changes.
    Otherwise the divisors are written as found, but the multiplier only with the
    six bits of its field, and the result is the frequency of the written factors
    (a panic when that is no u32); the source is selected and no other register
    changes.  For an output faster than the source the multiplier is written as
    found.  For a slower one it need not be: asked for 100 MHz from PLL1 at 299 MHz
    the search finds 75, within 0.12 percent, and PLL2 is left at 14.7 MHz. *)
Theorem pll_source_set_exact {E} `{!SocEnv E} p src freq (s : soc E) : pll_takes p src →
  ∃ f_in o, clock_source_get_freq (sys s) src = Ok f_in ∧ compute_params f_in freq = Ok o ∧
    match o with
    | None => pll_source_set_freq p src freq s = Ok (None, s)
    | Some q =>
        let out := f_in * (clkf q mod 64 + 1) / ((clkr q + 1) * (clkod q + 1)) in
        (f_in < freq → clkf q mod 64 = clkf q) ∧
        ∃ r', pll_source_set_freq p src freq s =
            (if out <? 2 ^ 32 then Ok (Some out, mkSoc r' (env s)) else Stop Panicked) ∧
          fld_get F_clkr (r' (pll_reg p)) = clkr q ∧ fld_get F_clkod (r' (pll_reg p)) = clkod q ∧
          fld_get F_clkf (r' (pll_reg p)) = clkf q mod 64 ∧
          fld_get F_bwadj (r' (pll_reg p)) = clkf q mod 64 ∧
          (p = pll_PLL2 → fld_get F_ckin_sel (r' (pll_reg p)) = cksel src) ∧
          ∀ rg, rg ≠ pll_reg p → r' rg = sys s rg
    end.
Proof.
  intros Hsrc. destruct s as [r e]. cbn [sys env].
  destruct (takes_freq r p src Hsrc) as (f & Hf & Hpos).
  destruct (compute_params_ok f freq) as (o & Ho & Hq). exists f, o.
  split; [exact Hf|]. split; [exact Ho|].
  assert (Hset : pll_source_set_freq p src freq (mkSoc r e) = (match o with
      | Some q => write_params p src q ;; f ← gets_res (λ s, pll_get_freq s p); mret (Some f)
      | None => mret None end) (mkSoc r e)).
  { apply source_set_found with (f := f); [exact Hsrc|exact Hf|lia|exact Ho]. }
  destruct o as [q|]; [|exact Hset]. cbv zeta.
  destruct (Hq q eq_refl) as (Hr & _ & Hod & Hcf & Hbw & _).
  destruct (source_word_fields p src q (r (pll_reg p))) as (W1 & W2 & W3 & W4 & W5).
  unfold R_MAX, OD_MAX in *. rewrite Z.mod_small in W1, W3 by lia. rewrite Hbw in W4. split.
  { intros Hlt. unfold f_bound, F_MAX in Hcf. rewrite (proj2 (Z.ltb_lt _ _) Hlt) in Hcf.
    apply Z.mod_small. exact Hcf. }
  exists (upd (pll_reg p) (source_word p src q) r).
  assert (Hrg : ∀ rg, rg ≠ pll_reg p → upd (pll_reg p) (source_word p src q) r rg = r rg)
    by (intros rg Hne; by apply upd_other).
  split; [|rewrite !upd_same; by split_and!].
  rewrite Hset. run (write_params_run p src q r e Hsrc).
  rewrite (source_read_back p src f _ e Hsrc) by (first
    [by rewrite (takes_freq_same r _ p src Hsrc Hrg)|unfold SYSCTRL_CLOCK_FREQ_IN0 in *; mach_unfold; lia
    |intros Hp; rewrite upd_same; exact (W5 Hp)]).
  rewrite !upd_same, W1, W2, W3. reflexivity.
Qed.

(** PLL1 at 299 MHz, as the kernel sets it. *)
Definition pll1_soc : soc Z :=
  mkSoc (<[R_pll1 := params_word pll_PLL1 (mkParams 0 22 1 22) 0]> (λ _, 0)) 0.

Lemma pll_source_set_exact_witness :
  compute_params 299000000 100000000 = Ok (Some (mkParams 13 74 15 74)) ∧
  299000000 * 75 / (14 * 16) = 100111607 ∧
  ∃ r', pll_source_set_freq pll_PLL2 source_PLL1 100000000 pll1_soc = Ok (Some 14683035, mkSoc r' 0) ∧
    fld_get F_clkf (r' R_pll2) = 10.
Proof.
  assert (Hq : compute_params 299000000 100000000 = Ok (Some (mkParams 13 74 15 74)))
    by (vm_compute; reflexivity).
  split; [exact Hq|]. split; [reflexivity|].
  destruct (pll_source_set_exact pll_PLL2 source_PLL1 100000000 pll1_soc) as (f & o & Hf & Ho & Hres);
    [right; split; [reflexivity|right; reflexivity]|].
  assert (f = 299000000) as -> by (vm_compute in Hf; by injection Hf as <-).
  rewrite Hq in Ho. injection Ho as <-. destruct Hres as (_ & r' & Hrun & _ & _ & Hclkf & _).
  exists r'. split; [exact Hrun|exact Hclkf].
Defined.

(** ** The clock tree *)

(** C27: The walk of the clock tree ends for all registers: with any depth beyond
    [tree_depth] every clock has the same frequency.  A clock that does not run from
    PLL2, and every clock while PLL2 runs from the oscillator, has a frequency of at
    most 64 times the oscillator, without a division by zero.  A clock that runs from
    PLL2 has a frequency when the select of PLL2 names a source and its output fits
    a u32, and otherwise the walk panics. *)
Theorem clock_tree_walk (r : sysregs) (c : clock) n :
  clock_freq (tree_depth + n) r c = clock_get_freq r c ∧
  (uses_pll2 c = false ∨ clock_get_clock_select r select_PLL2 = 0 →
    ∃ f, clock_get_freq r c = Ok f ∧ 0 ≤ f ≤ SYSCTRL_CLOCK_FREQ_IN0 * 64) ∧
  (uses_pll2 c = true →
    (pll2_fits r ∧ ∃ f, clock_get_freq r c = Ok f ∧ in_u 32 f) ∨
    (¬ pll2_fits r ∧ clock_get_freq r c = Stop Panicked)).
Proof.
  split; [apply clock_freq_depth|]. split; [apply clock_get_freq_ok|apply clock_pll2_cases].
Qed.

(** C34: Each of the 27 clock thresholds is read back as it was set, up to the width
    of its field, and setting it changes no other threshold and no other register. *)
Theorem clock_threshold_roundtrip {E} `{!SocEnv E} (w : threshold) v (s : soc E) :
  ∃ s', clock_set_threshold w v s = Ok ((), s') ∧ env s' = env s ∧
    clock_get_threshold (sys s') w = v mod 2 ^ threshold_width w ∧
    (∀ w', w' ≠ w → clock_get_threshold (sys s') w' = clock_get_threshold (sys s) w') ∧
    (∀ rg, rg ≠ (threshold_place w).1 → sys s' rg = sys s rg).
Proof. apply set_get_threshold. Qed.

Lemma clock_threshold_roundtrip_witness : ∃ s',
  clock_set_threshold threshold_SPI0 300 reset_soc = Ok ((), s') ∧
  clock_get_threshold (sys s') threshold_SPI0 = 44 ∧ clock_get_threshold (sys s') threshold_SPI1 = 0.
Proof.
  destruct (clock_threshold_roundtrip threshold_SPI0 300 reset_soc) as (s' & H1 & _ & H2 & H3 & _).
  exists s'. split; [exact H1|]. split; [exact H2|]. by rewrite (H3 threshold_SPI1).
Defined.

(** ** The SD card *)

(** C15: [SDCardWrapper::new] brings the board up.  With PLL2 on the oscillator, a
    timer and PLLs that behave, the controller off and a card at power-up, it
    returns: PLL0, PLL1 and PLL2 run at 806, 299 and 45.07 MHz; the CPU, with its
    divider at reset, at the 403 MHz for which the serial line gets its divider; the
    pins are connected; and the card transfers data, with the contents it had. *)
Theorem sdcard_comes_up {E D C} `{!SocEnv E, !SocEnvLaws E, !SsiDevice D, !CardDev C, !SsiLaws D C, !SdCardLaws C}
    (d : sd_disk) (s : board E D) fuel (Hf : (ssi_polls < fuel)%nat) :
  clock_get_clock_select (sys (b_soc s)) select_PLL2 = 0 →
  env_ok 10 (env (b_soc s)) → (env_polls ≤ fuel)%nat → length (b_fpioa s) = 48%nat →
  ssi_idle (b_dev s) → card_at sd_power_up d (ssi_card (b_dev s)) → 0 < disk_size d < 2 ^ 40 →
  ∃ s', init_sdcard fuel s = Ok (the_card, s') ∧ sdcard_up fuel Hf d s s' ∧
    (clock_get_threshold (sys (b_soc s)) threshold_ACLK = 0 →
      clock_get_freq (sys (b_soc s')) clock_CPU = Ok Clocks_cpu).
Proof.
  intros Hsel He Hfe Hio Hi Hc Hd.
  destruct (init_sdcard_run d s fuel Hf Hsel He Hfe Hio Hi Hc Hd) as (s' & Hrun & Hup).
  exists s'. split; [exact Hrun|]. split; [exact Hup|]. intros Ht.
  destruct Hup as (Hclk & Hthr & _). apply clocks_up_cpu; [exact Hclk|]. by rewrite Hthr.
Qed.

(** A board at reset with a blank card. *)
Definition sample_disk : sd_disk := mkSdDisk 2048 (λ _, replicate SEC_LEN 0).

Lemma sample_disk_ok : sim_disk_ok sample_disk.
Proof.
  split; [done|]. intros i. cbn [sample_disk disk_data]. rewrite length_replicate. split; [done|].
  apply Forall_replicate. unfold is_byte. lia.
Qed.

Definition sample_board (p : sd_phase) : board Z ssi :=
  mkBoard reset_soc (λ _, 0) (replicate 48 0) (λ _, 0)
    (mkSsi false tmod_TRANS_RECV 0 [] true (mkSim p sample_disk [] [] None)).

Lemma sdcard_comes_up_witness : ∃ fuel s',
  init_sdcard fuel (sample_board sd_power_up) = Ok (the_card, s') ∧
  clock_get_freq (sys (b_soc s')) clock_CPU = Ok 403000000.
Proof.
  exists (S env_polls). assert (Hf : (ssi_polls < S env_polls)%nat) by (apply Nat.lt_0_succ).
  destruct (sdcard_comes_up sample_disk (sample_board sd_power_up) (S env_polls) Hf)
    as (s' & H1 & _ & H2); [reflexivity|split; cbn; lia|apply Nat.le_succ_diag_r|reflexivity|reflexivity| | |].
  - split; [reflexivity|exact sample_disk_ok].
  - split; reflexivity.
  - exists s'. split; [exact H1|]. by apply H2.
Defined.

(** The driver on a line that stays high. *)
Section silent.
Context {T C : Type} `{!SPI T} `{!GPIOHS T} `{!CardDev C} `{!SdWire T C}.
Context (Hsilent : ∀ cs (c : C), (card_xchg cs 0xff c).1 = 0xff).

Lemma silent_response n (s : T) c : at_wire s false c →
  ∃ s' c', get_response_loop the_card n s = Ok (0xff, s') ∧ at_wire s' false c'.
Proof.
  revert s c. induction n as [|n IH]; intros s c Hs; [by exists s, c|]. cbn [get_response_loop].
  destruct (card_xchg false 0xff c) as [b c1] eqn:Hx.
  assert (b = 0xff) as -> by (by rewrite <- (Hsilent false c), Hx).
  destruct (read_byte_run s false c _ c1 Hs Hx) as (s1 & H1 & Hs1). run H1. by apply (IH s1 c1).
Qed.
End silent.

(** C35: Without a card the line stays high and the driver does not hang: the
    initialisation gives up on the first command and reports it, with the 0xFF that
    stands for no answer. *)
Theorem sdcard_absent {T C} `{!SPI T, !GPIOHS T, !CardDev C, !SdWire T C} (s : T) :
  (∀ cs (c : C), (card_xchg cs 0xff c).1 = 0xff) → wire_ok s →
  ∃ s', init the_card s = Ok (inr (CMDFailed CMD0 0xff), s') ∧ wire_ok s'.
Proof.
  intros Hsilent Hok. unfold init.
  destruct (wire_direction s Hok) as (s1 & H1 & Hok1 & _).
  destruct (wire_rate s1 200000 Hok1) as (g & s2 & H2 & Hok2 & _); [lia|].
  assert (Hlow : lowlevel_init the_card s = Ok ((), s2)) by (unfold lowlevel_init; run H1; by run H2).
  run Hlow. destruct (wire_pin s2 true Hok2) as (s3 & H3 & Hok3 & Hcs3 & _). unfold CS_HIGH. run H3.
  destruct (write_data_run s3 true (wire_card s3) (replicate 10 0xff)) as (s4 & H4 & Hs4);
    [by split|by repeat constructor|]. run H4.
  destruct (send_cmd_run s4 true _ CMD0 0 0x95 Hs4) as (s5 & H5 & Hs5); [done|done|]. run H5.
  destruct (silent_response Hsilent response_timeout s5 _ Hs5) as (s6 & c6 & H6 & Hs6).
  unfold get_response. run H6.
  destruct (end_cmd_run s6 _ _ Hs6) as (s7 & H7 & Hok7 & _). run H7. by exists s7.
Qed.

(** A wire with nothing at its end: the level of the pin and the mode. *)
Definition open_wire : Type := bool * tmod.

Definition open_spi : SPI open_wire := {|
  spi_configure _ _ _ _ _ _ _ _ tm := λ s, Ok ((), (s.1, tm));
  spi_set_clk_rate f := λ s, Ok (f, s);
  spi_recv_data _ n := λ s, Ok (replicate n 0xff, s);
  spi_send_data _ _ := λ s, Ok ((), s) |}.

Definition open_gpiohs : GPIOHS open_wire := {|
  gpiohs_set_direction _ _ := λ s, Ok ((), s);
  gpiohs_set_pin _ v := λ s, Ok ((), (v, s.2)) |}.

Definition no_card : CardDev () := λ _ _ c, (0xff, c).

Lemma no_card_in cs n : @clock_in () no_card cs n () = (replicate n 0xff, ()).
Proof.
  induction n as [|n IH]; [done|]. cbn [clock_in].
  change (@card_xchg () no_card cs 0xff ()) with (0xff, ()). cbn match. by rewrite IH.
Qed.

Lemma no_card_out cs l c : @clock_out () no_card cs l c = ().
Proof. by destruct (@clock_out () no_card cs l c). Qed.

Definition open_is_wire : @SdWire open_wire () open_spi open_gpiohs no_card.
Proof.
  refine (@Build_SdWire _ _ open_spi open_gpiohs no_card (λ _, True) (λ _, ()) fst snd _ _ _ _ _ _).
  - intros s tm _. by eexists.
  - intros s tx _ _ _. eexists. split; [reflexivity|]. by rewrite no_card_out.
  - intros s n _ _ _. eexists. rewrite no_card_in. by split; [reflexivity|].
  - intros s v _. by eexists.
  - intros s _. by eexists.
  - intros s f _ _. by eexists _, _.
Defined.

Lemma sdcard_absent_witness : ∃ s',
  @init open_wire open_spi open_gpiohs the_card (true, tmod_RECV) = Ok (inr (CMDFailed CMD0 0xff), s').
Proof.
  destruct (@sdcard_absent open_wire () open_spi open_gpiohs no_card open_is_wire (true, tmod_RECV))
    as (s' & H & _); [reflexivity|exact I|]. exists s'. exact H.
Defined.

(** The early returns of the ACMD41 loop are those of CMD55. *)
Lemma acmd41_error {T} `{!SPI T, !GPIOHS T} sd n (s : T) e s' :
  acmd41_loop sd n s = Ok (inr e, s') → ∃ r, e = CMDFailed CMD55 r.
Proof.
  revert s. induction n as [|n IH]; intros s; cbn [acmd41_loop]; [done|]. rewrite M_bind_Ok.
  intros (_ & s1 & _ & H). apply M_bind_Ok in H as (r & s2 & _ & H).
  apply M_bind_Ok in H as (_ & s3 & _ & H). destruct (negb (r =? 1)).
  { injection H as <- <-. by eexists. }
  do 3 apply M_bind_Ok in H as (? & ? & _ & H). destruct (_ =? 0); [done|by eapply IH].
Qed.

(** C39: When the card never leaves its idle state (ACMD41) or does not give its
    operating conditions (CMD58), the error does not hold the response of that
    command, as it does for the others: it always holds 1, the response to CMD8. *)
Theorem sd_init_error_code {T} `{!SPI T, !GPIOHS T} sd (s : T) c r s' :
  init sd s = Ok (inr (CMDFailed c r), s') → c = ACMD41 ∨ c = CMD58 → r = 1.
Proof.
  unfold init. intros H Hc. do 6 apply M_bind_Ok in H as (? & ? & _ & H).
  destruct (negb _); [injection H as <- <- <-; by destruct Hc|].
  apply M_bind_Ok in H as (? & ? & _ & H). apply M_bind_Ok in H as (res & ? & _ & H).
  do 2 apply M_bind_Ok in H as (? & ? & _ & H).
  destruct (Z.eqb_spec res 1) as [->|]; cbn [negb] in H; [|injection H as <- <- <-; by destruct Hc].
  apply M_bind_Ok in H as (o & ? & Ho & H). destruct o as [[|i]|e].
  - by injection H.
  - apply M_bind_Ok in H as ([j frame] & ? & _ & H). destruct j; [by injection H|].
    apply M_bind_Ok in H as (f0 & ? & _ & H). destruct (_ =? 0); [done|].
    do 2 apply M_bind_Ok in H as (? & ? & _ & H).
    match type of H with (match ?x with _ => _ end) _ = _ => by destruct x end.
  - injection H as -> _. destruct (acmd41_error _ _ _ _ _ Ho) as (r' & [= -> _]). by destruct Hc.
Qed.

(** A card that answers 1 to everything. *)
Definition stuck_spi : SPI () := {|
  spi_configure _ _ _ _ _ _ _ _ _ := λ s, Ok ((), s);
  spi_set_clk_rate f := λ s, Ok (f, s);
  spi_recv_data _ n := λ s, Ok (replicate n 1, s);
  spi_send_data _ _ := λ s, Ok ((), s) |}.

Definition stuck_gpiohs : GPIOHS () := {|
  gpiohs_set_direction _ _ := λ s, Ok ((), s);
  gpiohs_set_pin _ _ := λ s, Ok ((), s) |}.

Lemma sd_init_error_code_witness : ∃ r,
  @init () stuck_spi stuck_gpiohs the_card () = Ok (inr (CMDFailed ACMD41 r), ()) ∧ r = 1.
Proof.
  exists 1. assert (H : @init () stuck_spi stuck_gpiohs the_card () = Ok (inr (CMDFailed ACMD41 1), ()))
    by (vm_compute; reflexivity).
  split; [exact H|]. exact (@sd_init_error_code () stuck_spi stuck_gpiohs the_card () ACMD41 1 () H (or_introl eq_refl)).
Defined.
