(* ===== verification/BoardProps.v ===== *)
(** * BoardProps: the file system on the drivers of the boards

    The file system, its cache and the two block drivers together: easy-fs on the
    hardware does what it does on a plain disk. *)

From stdpp Require Import base gmap list numbers functions.
From S2P Require Import Prelude Bytes BlockIO BlockCache Layout Efs Vfs FsTyped CacheDriver FsFormat FsProps.
From S2P Require Import VirtIOBlk VirtIOBlkInv VirtIODisk VirtQueueInv VirtProps.
From S2P Require Import Sysctl SysctlInv K210Spi SdCard SdCardInv K210SpiInv SdCardSim FsDrivers K210Props.

(** ** Blocks hold bytes *)

(** From a disk of bytes to a disk of bytes, with a result that satisfies [Q]. *)
Definition keeps_bytes {A} (p : prog A) (Q : A → Prop) : Prop :=
  ∀ h d a h' d', run p h d = Ok (a, h', d') → disk_bytes d → disk_bytes d' ∧ Q a.

Lemma typed_keeps {A} (p : prog A) (Q : A → Prop) : typed Q p → keeps_bytes p Q.
Proof. intros Ht h d a h' d'. by apply typed_run. Qed.

(** Every operation of the file system keeps the blocks of the disk arrays of
    u8: formatting, opening, looking up, creating (with a name of bytes), listing,
    writing bytes, clearing and packing; and what is read from a file is bytes. *)
Lemma fs_operations_typed :
  (∀ total ib, keeps_bytes (efs_create total ib) (λ _, True)) ∧
  keeps_bytes efs_open (λ _, True) ∧
  (∀ self name, keeps_bytes (find self name) (λ _, True)) ∧
  (∀ self name, bytes name → keeps_bytes (create self name) (λ _, True)) ∧
  (∀ self, keeps_bytes (ls self) (λ _, True)) ∧
  (∀ self off buf, bytes buf → keeps_bytes (Inode_read_at self off buf) (λ r, bytes r.2)) ∧
  (∀ self off buf, bytes buf → keeps_bytes (Inode_write_at self off buf) (λ _, True)) ∧
  (∀ self, keeps_bytes (clear self) (λ _, True)) ∧
  (∀ apps, Forall (λ a, bytes a.1 ∧ bytes a.2) apps → keeps_bytes (easy_fs_pack apps) (λ _, True)).
Proof.
  split; [intros; apply typed_keeps, efs_create_typed|].
  split; [apply typed_keeps, efs_open_typed|].
  split; [intros; apply typed_keeps, find_typed|].
  split; [intros; by apply typed_keeps, create_typed|].
  split; [intros; apply typed_keeps, ls_typed|].
  split; [intros; by apply typed_keeps, Inode_read_at_typed|].
  split; [intros; by apply typed_keeps, Inode_write_at_typed|].
  split; [intros; apply typed_keeps, clear_typed|].
  intros; by apply typed_keeps, easy_fs_pack_typed.
Qed.

(** ** The virtio board *)

(** C6: A program of easy-fs that runs on a plain disk runs on the write-back cache
    over the virtio driver, with enough fuel for the loops that wait for the
    device: same result, and after the final sync the sectors of the device are the
    blocks of the new disk, and the driver is ready for more.  The program stores
    bytes only, as all operations of the file system do; the buffers of a request
    are contiguous in physical memory. *)
Theorem fs_on_virtio {T} `{!BlkDevice T, !BlkDeviceLaws T} {A} virt_to_phys req buf resp
    (p : prog A) (sec : sector_map) (s : machine T) d a d' :
  virtio_rel virt_to_phys req buf resp sec s →
  (∀ id, ok_id id → d !! id = BlockIO.read_block sec id) →
  well_typed p → runs p [] d a d' →
  ∃ sec' s' q, enough (λ n, @drv_exec _ (virtio_driver virt_to_phys req buf resp) n _
      (p ≫= λ x, block_cache_sync_all ≫= λ _, Ret x) (mkCacheState s []) = Ok (a, mkCacheState s' q)) ∧
    virtio_rel virt_to_phys req buf resp sec' s' ∧
    ∀ id, ok_id id → BlockIO.read_block sec' id = d' !! id.
Proof.
  intros Hrel Hd Ht Hrun.
  destruct (@drv_exec_durable _ _ _ _ (virtio_driver_laws virt_to_phys req buf resp) _ A (λ _, True)
    p sec s d a d' Hd Hrel Ht Hrun) as (sec' & s' & q & H1 & H2 & H3 & _).
  by exists sec', s', q.
Qed.

(** A request of the sample machine for any block uses the same buffers. *)
Lemma sample_virtio : virtio_rel (λ va, va) (λ _, 4096) (λ _, 4608) (λ _, 5632)
  (disk_sector {[7 := replicate 512 9]}) sample_machine.
Proof.
  split; [|split; [|split; [done|]]].
  - split; [eexists; apply sample_queue_inv|done|done|done].
  - intros id _. split; [done|done|split_and!; apply sample_backed; lia|left; lia|left; lia|left; lia].
  - intros x b Hb. unfold disk_sector in Hb.
    destruct (decide (x = 7)) as [->|Hne]; [rewrite lookup_singleton_eq in Hb|by rewrite lookup_singleton_ne in Hb].
    rewrite decide_True in Hb by (apply length_replicate). apply Some_inj in Hb. rewrite <- Hb.
    apply Forall_replicate. unfold is_byte. lia.
Qed.

Lemma fs_on_virtio_witness : ∃ sec' s' q, enough (λ n,
    @drv_exec _ (virtio_driver (λ va, va) (λ _, 4096) (λ _, 4608) (λ _, 5632)) n _
      (zero_block 7 ≫= λ x, block_cache_sync_all ≫= λ _, Ret x) (mkCacheState sample_machine []) =
      Ok ((), mkCacheState s' q)) ∧
    virtio_rel (λ va, va) (λ _, 4096) (λ _, 4608) (λ _, 5632) sec' s' ∧
    BlockIO.read_block sec' 7 = Some (replicate 512 0).
Proof.
  destruct (fs_on_virtio (λ va, va) (λ _, 4096) (λ _, 4608) (λ _, 5632) (zero_block 7) _ sample_machine
    {[7 := replicate 512 9]} () {[7 := replicate 512 0]} sample_virtio) as (sec' & s' & q & H1 & H2 & H3).
  - intros id _. unfold BlockIO.read_block, sector_device, disk_sector.
    destruct (decide (id = 7)) as [->|Hne]; [by rewrite lookup_singleton_eq|by rewrite lookup_singleton_ne].
  - exact (zero_block_typed 7).
  - vm_compute. reflexivity.
  - exists sec', s', q. split; [exact H1|]. split; [exact H2|]. by rewrite H3, lookup_singleton_eq.
Defined.

(** ** The k210 board *)

(** C5: A program of easy-fs that runs on a plain disk runs on the write-back cache
    over the SD card driver and the SPI controller, with enough fuel for the loops
    that wait for them: same result, and after the final sync the card holds the
    blocks of the new disk and is ready for more. *)
Theorem fs_on_sdcard {E D C} `{!SocEnv E, !SsiDevice D, !CardDev C, !SsiLaws D C, !SdCardLaws C} {A}
    (p : prog A) (dk : sd_disk) (s : board E D) d a d' :
  card_idle dk s → disk_ok dk →
  (∀ id, ok_id id → d !! id = BlockIO.read_block (card_sectors dk) id) →
  well_typed p → runs p [] d a d' →
  ∃ dk' s' q, enough (λ n, @drv_exec _ sdcard_driver n _
      (p ≫= λ x, block_cache_sync_all ≫= λ _, Ret x) (mkCacheState s []) = Ok (a, mkCacheState s' q)) ∧
    card_idle dk' s' ∧ disk_ok dk' ∧
    ∀ id, ok_id id → BlockIO.read_block (card_sectors dk') id = d' !! id.
Proof.
  intros Hc Hdk Hd Ht Hrun.
  assert (Hrel : sdcard_rel (card_sectors dk) s) by (exists dk; exact (conj Hc (conj Hdk (λ x, eq_refl)))).
  destruct (@drv_exec_durable _ _ _ _ sdcard_driver_laws _ A (λ _, True)
    p (card_sectors dk) s d a d' Hd Hrel Ht Hrun) as (sec' & s' & q & H1 & (dk' & Hc' & Hdk' & He) & H3 & _).
  exists dk', s', q. split; [exact H1|]. split; [exact Hc'|]. split; [exact Hdk'|].
  intros id Hid. rewrite <- H3 by done. unfold BlockIO.read_block, sector_device. by rewrite He.
Qed.

Lemma fs_on_sdcard_witness : ∃ dk' s' q, enough (λ n,
    @drv_exec _ sdcard_driver n _ (efs_create 1100 1 ≫= λ x, block_cache_sync_all ≫= λ _, Ret x)
      (mkCacheState (sample_board sd_ready) []) = Ok (sample_efs, mkCacheState s' q)) ∧
    card_idle dk' s' ∧ disk_ok dk'.
Proof.
  destruct (efs_create_spec (blank 2048) 1100 1 sample_formattable) as (d' & Hrun & _).
  { intros x Hx. apply blank_ok. lia. }
  destruct (fs_on_sdcard (efs_create 1100 1) sample_disk (sample_board sd_ready) (blank 2048) sample_efs d')
    as (dk' & s' & q & H1 & H2 & H3 & _).
  - split; [reflexivity|]. split; [reflexivity|exact sample_disk_ok].
  - intros x _. exact (proj2 sample_disk_ok x).
  - intros id _. rewrite lookup_blank. unfold BlockIO.read_block, sector_device, card_sectors.
    cbn [sample_disk disk_size]. by destruct (decide (0 ≤ id < 2048)).
  - exact (efs_create_typed 1100 1).
  - exact Hrun.
  - exists dk', s', q. split; [exact H1|]. split; [exact H2|exact H3].
Defined.
